(* ===== verification/_CoqProject ===== *)
-Q . S2P
Prelude.v
Refine.v
CLayout.v
SmCodec.v
RlcPlain.v
PdcpPlain.v
MacPlain.v
GtpPlain.v
SmWire.v
SliceData.v
SliceEnc.v
SliceDec.v
SlicePlain.v
TcData.v
TcCodec.v
TcPlain.v
SeqArr.v
SeqRing.v
Workers.v
AssocReg.v
AssocRegInv.v
AssocRegSpec.v
AssocSpec.v
RbTree.v
RbHeap.v
RbRotate.v
RbLink.v
RbInsert.v
RbDelete.v
RbPath.v
RbMap.v
RbExtract.v
RbAssoc.v
RbFree.v
AssocIter.v
AssocFree.v
BiMap.v
BiMapRb.v
RicIds.v
E2apMsg.v
SubRegistry.v
RegNodes.v
BiMapFind.v
AddrMaps.v
MapRicId.v
NearRic.v
RicSpec.v
NearRicInv.v
NearRicPub.v
NearRicSetup.v
NearRicRb.v
IApp.v
IAppSpec.v
IAppInv.v
IAppProps.v
System.v
SystemRb.v
Agent.v
Xapp.v
SmIf.v
MacSm.v
RlcSm.v
PdcpSm.v
GtpSm.v
SliceSm.v
TcSm.v
AgentInv.v
AgentStep.v
AgentProps.v
NodeSpec.v
AgentNode.v
Chain.v
AgentRb.v
XappSpec.v
XappInv.v
XappProps.v
XChain.v
SmChain.v
XappRb.v
SmChainRb.v
