(* ===== verification/Prelude.v ===== *)
(** * FlexRIC: a verification development

    FlexRIC is an O-RAN near-real-time RIC with the E2 agent that runs in the base
    station (the E2 node) and with xApps, applications that read and control the base
    stations through the RIC.  All code is C, under [src/src]; paths below start there.

<<
      user of an xApp                                          the RAN (the base station)
            |  calls, callbacks                                      |  read, write
      +-----------+  E42   +-------------------------+   E2    +-----------+
      |   xApp    |<------>| iApp <-> near-RT RIC    |<------->| E2 agent  |
      +-----------+        +-------------------------+         +-----------+
        sm_ric_t               sm_ric_t                          sm_agent_t
>>

    A service model is a pair of plugins: [sm_agent_t] turns the statistics of the RAN
    into bytes and bytes into control requests, [sm_ric_t] does the reverse for the
    RIC and the xApp.  The iApp is the part of the RIC that talks to the xApps.  All
    of them keep their state in the containers of [util/alg_ds].

    ** How C is read

    A function is a function of the state it works on, in the monads below: [outcome]
    for what can go wrong (a false [assert], an access outside an object, a lock the
    thread owns already) and [st] for state.  Unsigned integers are [Z] with their
    wrap-around written out ([wrap w]); the shared heap of the red-black tree is a
    finite map from locations; structs that are copied byte by byte have their LP64
    layout, with padding ([CLayout]).  Messages that are sent, rows written to the
    database and calls of callbacks are collected in the state, latest first.  What
    blocks or happens at any time (messages, timers, the other thread) is a program:
    a list of operations, over which the theorems quantify.

    ** Files

    - Foundations: [Prelude] (outcomes, state monad, integers, lists), [Refine]
      (simulation between a program and a specification), [CLayout] (bytes of objects).
    - Containers, [util/alg_ds]: [AssocSpec], [AssocIter], [AssocFree] are what the
      users of [assoc_generic.h] rely on, as classes ([AssocOps], [AssocLaws], ...);
      the theorems of every client are proved against them.  [RbTree] is
      [assoc_rb_tree.c]; [RbHeap], [RbRotate], [RbLink], [RbInsert], [RbDelete],
      [RbPath], [RbMap], [RbExtract], [RbFree] prove it, [RbAssoc] makes it an instance.
      [AssocReg], [AssocRegInv], [AssocRegSpec] are [assoc_reg.c], the registry that
      gives out its keys; [BiMap], [BiMapFind], [BiMapRb] are [bimap.c]; [SeqArr] is
      [seq_arr.c]; [SeqRing] is [seq_ring.c] and [tsq.c].
    - Threads: [Workers] is [tsn_queue.c] with the database thread of the xApp
      ([xApp/db/db.c]), and [task_manager.c], whose threads run the handlers of the
      near-RT RIC: their steps interleave in any order.
    - Service models, [sm]: [RlcPlain], [MacPlain], [PdcpPlain], [GtpPlain] over
      [SmCodec] are the data and the plain codecs ([ie], [enc], [dec]) of the four
      models whose messages are arrays of packed structs; [SmIf] is what plugins, RAN
      and users exchange, with [SmContract], the contract of a pair of plugins; [MacSm],
      [RlcSm], [PdcpSm], [SliceSm], [TcSm], [GtpSm] are the plugins.
    - The two models whose messages are trees, over [SmWire] (the cursor of a decoder,
      the buffer of an encoder, IEEE comparison of floats, and the law of a wired type:
      what its encoder wrote its decoder reads).  Slice: [SliceData] (types, copies,
      comparisons), [SliceEnc], [SliceDec] (the codec), [SlicePlain] (its theorems).
      TC: [TcData], [TcCodec], [TcPlain], in the same order.
    - Messages and identifiers, [lib]: [RicIds] (ids, their orders, pending events),
      [E2apMsg] (E2AP and E42 messages as the handlers see them).
    - near-RT RIC, [ric]: [NearRic] is [near_ric.c], [msg_handler_ric.c] and what they
      call; [RicSpec] is its specification and the interfaces [RicIf] (for the iApp),
      [RicNode] (a message of a node) and [RicInd] (indications); [NearRicInv],
      [NearRicPub], [NearRicSetup] prove them.
    - iApp, [ric/iApp]: [SubRegistry], [MapRicId], [AddrMaps] (with
      [ric/map_e2_node_sockaddr.c]) and [RegNodes] ([lib/msg_hand]) are its tables;
      [IApp] is [msg_handler_iapp.c] and [e42_iapp.c]; [IAppSpec], [IAppInv],
      [IAppProps] are its specification over lists, the simulation and what follows.
      [System] puts the near-RT RIC and the iApp together.
    - E2 agent, [agent]: [Agent]; [AgentInv], [AgentStep], [AgentProps]: every open
      timer has its event.  [NodeSpec] says what the RIC needs of a node, [AgentNode]
      that the agent provides it, [Chain] puts a node and the RIC together.
    - xApp, [xApp]: [Xapp]; [XappSpec], [XappInv], [XappProps]: its containers are lists.
      [XChain]: a report, from the user to the node and back.  [SmChain]: statistics,
      from the RAN to the user.
    - [NearRicRb], [SystemRb], [AgentRb], [XappRb], [SmChainRb]: the same over
      red-black trees, at concrete programs.

    ** Theorems

    - End to end: [SmChain.statistics_end_to_end], [XChain.report_end_to_end],
      [System.subscription_answered], [Chain.setup_handshake].
    - Programs over a component behave as over lists, aborts and undefined behaviour
      included: [..._run_refines] of the red-black tree, the registry, the
      bidirectional map, the queue, the near-RT RIC, the iApp with the near-RT RIC, the
      registered nodes, the subscription registry and the xApp.
    - Invariants: timers and their events ([AgentProps.agent_timers_owned],
      [NearRicInv.near_ric_answers_accounted]); red-black properties and memory
      ([RbAssoc.rb_insert_correct], [RbAssoc.rb_extract_correct], [RbFree.rb_free_correct],
      [RbAssoc.rb_lookup_logarithmic]).
    - Threads: no task and no row is lost, doubled or (rows) reordered
      ([Workers.tasks_conserved], [Workers.db_rows_in_order]), and the threads come to
      rest with everything done ([Workers.task_manager_finishes]).
    - Service models: what the RAN gives is what the user gets, byte counts included
      ([..._plugins_roundtrip]); arbitrary bytes ([RlcPlain.rlc_dec_ind_msg_cases]);
      trees: what is lost on the way ([SlicePlain.slice_statistics_copied],
      [TcPlain.tc_statistics_copied]), which messages abort
      ([TcPlain.tc_ctrl_msg_roundtrip]), and that every field decoded from arbitrary
      bytes is in the range of its type ([SlicePlain.slice_decoder_well_typed]).
    - What the code does and does not mean to do is stated too: acknowledgements of
      control requests that abort, timers that nobody reads, ids that run out,
      optional fields freed twice ([System.control_ack_aborts],
      [XappProps.control_answer_window], [XappProps.setup_never_repeated],
      [AgentProps.shutdown_orphans_timer], [IAppProps.indication_fanout]).

    ** Bounds and fuel

    Loops that are not structural take fuel, and running out is a result of its own
    ([NoFuel]), which no theorem allows: the callers pass the size of the container
    plus two (a path of a red-black tree is shorter than its number of nodes), the
    length of an array, or the number of entries between two iterators plus one.

    ** Parameters

    What is not under [src] is a variable of the section that uses it:
    [timerfd_create] (gives a new positive descriptor), the second acquisition of a
    lock ([relock]: an error code or, for [None], a deadlock), [realloc] ([realloc_ok]:
    does it succeed), the memory it returns ([junk]), whether the E2AP encoder accepts
    a message ([encodes]), the RAN ([sm_io_ag_ran_t], [read_setup_ran]), and what
    happens while a call of the xApp waits.  Their instances in the [...Rb] files
    are the witnesses that the hypotheses hold.

    ** Not modelled

    The E2AP encoders and decoders (ASN.1, generated, and flatbuffers; messages reach
    the handlers decoded, in the representation of E2AP v2), sockets and epoll (a message
    or an expired timer is an event), loading of plugins, mutexes between threads (each
    operation under a lock is atomic; the one place where a thread blocks itself is
    modelled; handlers of messages, which threads of the near-RT RIC may run side by side,
    run one after the other), the databases (a row, a copy of the statistics, is appended
    to a list), language bindings, examples and the configuration file.  The service
    models KPM and RC encode with generated code and are left out. *)
From stdpp Require Export base list numbers option.
From Stdlib Require Export ZArith Lia.

Set Default Goal Selector "!".
Global Set Default Proof Using "Type".

(** ** Outcomes of C code

    [Ret a]: the call returns [a].
    [Abort]: an [assert] of the code is false (the default build is a Debug
    build, in which a false assertion aborts the process).
    [Undef]: the code reads or writes outside the object it points into, or
    dereferences NULL.
    [Stuck]: the thread blocks for ever (a lock it already owns).
    [NoFuel]: the fuel given to a loop of the model ran out. *)
Inductive outcome (A : Type) : Type :=
| Ret (a : A)
| Abort
| Undef
| Stuck
| NoFuel.
Arguments Ret {A} a.
Arguments Abort {A}.
Arguments Undef {A}.
Arguments Stuck {A}.
Arguments NoFuel {A}.

#[export] Instance outcome_ret : MRet outcome := λ A a, Ret a.
#[export] Instance outcome_bind : MBind outcome := λ A B f m,
  match m with
  | Ret a => f a
  | Abort => Abort
  | Undef => Undef
  | Stuck => Stuck
  | NoFuel => NoFuel
  end.
#[export] Instance outcome_fmap : FMap outcome := λ A B f m, m ≫= λ a, Ret (f a).

#[export] Instance outcome_eq_dec {A} `{EqDecision A} : EqDecision (outcome A).
Proof. solve_decision. Defined.

(** [assert b]: the C assertion. *)
Definition c_assert (b : bool) : outcome unit := if b then Ret () else Abort.

(** [must_hold b]: memory accesses in range; false is undefined behaviour. *)
Definition in_bounds (b : bool) : outcome unit := if b then Ret () else Undef.

Lemma outcome_bind_ret_l {A B} (f : A → outcome B) (a : A) : (Ret a ≫= f) = f a.
Proof. done. Qed.

Lemma outcome_bind_assoc {A B C} (m : outcome A) (f : A → outcome B) (g : B → outcome C) :
  ((m ≫= f) ≫= g) = (m ≫= λ a, f a ≫= g).
Proof. by destruct m. Qed.

Lemma outcome_bind_ext {A B} (m : outcome A) (f g : A → outcome B) :
  (∀ a, f a = g a) → (m ≫= f) = (m ≫= g).
Proof. intros H. destruct m; cbn; auto. Qed.

Lemma bind_Ret_inv {A B} (m : outcome A) (f : A → outcome B) (b : B) :
  (m ≫= f) = Ret b → ∃ a, m = Ret a ∧ f a = Ret b.
Proof. destruct m; naive_solver. Qed.

(** ** Code that threads a state through calls that may fail *)

Definition st (S A : Type) : Type := S → outcome (A * S).
#[export] Instance st_ret S : MRet (st S) := λ A a s, Ret (a, s).
#[export] Instance st_bind S : MBind (st S) := λ A B f m s, m s ≫= λ '(a, s'), f a s'.

Definition st_get {S} : st S S := λ s, Ret (s, s).
Definition st_put {S} (s' : S) : st S () := λ s, Ret ((), s').
Definition st_mod {S} (f : S → S) : st S () := λ s, Ret ((), f s).
Definition st_lift {S A} (m : outcome A) : st S A := λ s, m ≫= λ a, Ret (a, s).
Definition st_abort {S A} : st S A := λ s, Abort.
Definition st_undef {S A} : st S A := λ s, Undef.
Definition st_no_fuel {S A} : st S A := λ s, NoFuel.
Definition st_assert {S} (b : bool) : st S () := st_lift (c_assert b).

Lemma st_bind_Ret {S A B} (m : st S A) (f : A → st S B) s a s' :
  m s = Ret (a, s') → (m ≫= f) s = f a s'.
Proof. intros H. unfold mbind, st_bind. by rewrite H. Qed.

Lemma st_bind_eq {S A B} (m : st S A) (f : A → st S B) s : (m ≫= f) s = ('(a, s') ← m s; f a s').
Proof. done. Qed.

Lemma st_bind_inv {S A B} (m : st S A) (f : A → st S B) s b s' :
  (m ≫= f) s = Ret (b, s') → ∃ a s1, m s = Ret (a, s1) ∧ f a s1 = Ret (b, s').
Proof. unfold mbind, st_bind. destruct (m s) as [[a s1]| | | |]; [|done..]. by exists a, s1. Qed.

Lemma st_assert_inv {S} b (s : S) x s' : st_assert b s = Ret (x, s') → b = true ∧ s' = s.
Proof. destruct b; [|done]. by intros [= _ <-]. Qed.

Lemma st_bind_ext {S A B} (m m' : st S A) (f g : A → st S B) s :
  m s = m' s → (∀ a s', f a s' = g a s') → (m ≫= f) s = (m' ≫= g) s.
Proof. intros Hm H. unfold mbind, st_bind. rewrite Hm. destruct (m' s) as [[]| | | |]; cbn; auto. Qed.

Lemma st_bind_assoc {S A B C} (m : st S A) (f : A → st S B) (g : B → st S C) s :
  ((m ≫= f) ≫= g) s = (m ≫= λ a, f a ≫= g) s.
Proof. unfold mbind, st_bind. by destruct (m s) as [[]| | | |]. Qed.

(** [m] keeps [Q] when it returns. *)
Definition keeps {S A} (Q : S → Prop) (m : st S A) : Prop := ∀ s a s', Q s → m s = Ret (a, s') → Q s'.

Lemma keeps_ret {S A} (Q : S → Prop) (a : A) : keeps Q (mret a).
Proof. by intros s b s' Hq [= _ <-]. Qed.
Lemma keeps_abort {S A} (Q : S → Prop) : keeps Q (st_abort (S := S) (A := A)).
Proof. by intros s b s' Hq. Qed.
Lemma keeps_assert {S} (Q : S → Prop) b : keeps Q (st_assert b).
Proof. by intros s x s' Hq [_ ->]%st_assert_inv. Qed.
Lemma keeps_mod {S} (Q : S → Prop) f : (∀ s, Q s → Q (f s)) → keeps Q (st_mod f).
Proof. intros H s b s' Hq [= _ <-]. auto. Qed.
Lemma keeps_bind {S A B} (Q : S → Prop) (m : st S A) (f : A → st S B) :
  keeps Q m → (∀ a, keeps Q (f a)) → keeps Q (m ≫= f).
Proof. intros Hm Hf s b s' Hq (a & s1 & H1 & H2)%st_bind_inv. eapply Hf; [|exact H2]. eapply Hm; eauto. Qed.
Lemma keeps_get {S B} (Q : S → Prop) (f : S → st S B) : (∀ s, keeps Q (f s)) → keeps Q (st_get ≫= f).
Proof. intros H s b s' Hq Hf. exact (H s s b s' Hq Hf). Qed.

(** What the caller sees. *)
Definition outputs {T A} (m : outcome (A * T)) : outcome A := '(a, _) ← m; Ret a.

Lemma outputs_map {T A B} (m : st T A) (f : A → B) t :
  outputs ((m ≫= λ a, mret (f a)) t) = (outputs (m t) ≫= λ a, Ret (f a)).
Proof. unfold mbind at 1, st_bind. by destruct (m t) as [[]| | | |]. Qed.

(** The result of a call, against the state of a specification. *)
Definition simulates {T S A} (sim : T → S → Prop) (a : A) (res : outcome (A * T)) (sres : outcome S) : Prop :=
  match sres with
  | Ret s' => ∃ t', res = Ret (a, t') ∧ sim t' s'
  | Abort => res = Abort
  | Undef => res = Undef
  | Stuck => res = Stuck
  | NoFuel => False
  end.

Lemma simulates_bind {T S A B} (sim : T → S → Prop) (a : A) (b : B) (m : st T A) (f : A → st T B) t
    (sres : outcome S) (g : S → outcome S) :
  simulates sim a (m t) sres → (∀ t' s', sres = Ret s' → sim t' s' → simulates sim b (f a t') (g s')) →
  simulates sim b ((m ≫= f) t) (sres ≫= g).
Proof.
  intros Hm Hf. unfold mbind at 1, st_bind. destruct sres as [s'| | | |]; cbn in Hm.
  - destruct Hm as (t' & -> & Hs). by apply Hf.
  - by rewrite Hm.
  - by rewrite Hm.
  - by rewrite Hm.
  - done.
Qed.

Lemma simulates_ret {T S A B} (sim : T → S → Prop) (a : A) (b : B) (m : st T A) t (sres : outcome S) :
  simulates sim a (m t) sres → simulates sim b ((m ≫= λ _, mret b) t) sres.
Proof.
  intros Hm. assert (sres = (sres ≫= λ s, Ret s)) as -> by (by destruct sres).
  eapply simulates_bind; [exact Hm|]. intros t' s' _ Hs. by exists t'.
Qed.

Lemma simulates_assert {T S A} (sim : T → S → Prop) (a : A) (b : bool) (m : () → st T A) t (sres : outcome S) :
  simulates sim a (m () t) sres → simulates sim a ((st_assert b ≫= m) t) (c_assert b;; sres).
Proof. unfold mbind at 1, st_bind. by destruct b. Qed.

Lemma c_assert_true b : b = true → c_assert b = Ret ().
Proof. by intros ->. Qed.
Lemma c_assert_bind {B} b (f : () → outcome B) :
  (c_assert b ≫= f) = if b then f () else Abort.
Proof. by destruct b. Qed.
Lemma c_assert_andb {B} b1 b2 (m : outcome B) : (c_assert (b1 && b2);; m) = (c_assert b1;; c_assert b2;; m).
Proof. by destruct b1. Qed.
Lemma in_bounds_bind {B} b (f : () → outcome B) :
  (in_bounds b ≫= f) = if b then f () else Undef.
Proof. by destruct b. Qed.
Lemma c_assert_inv b u : c_assert b = Ret u → b = true.
Proof. by destruct b. Qed.
Lemma in_bounds_true b : b = true → in_bounds b = Ret ().
Proof. by intros ->. Qed.
Lemma in_bounds_inv b u : in_bounds b = Ret u → b = true.
Proof. by destruct b. Qed.

(** Splits a hypothesis [m ≫= f = Ret b] into its steps. *)
Ltac bind_inv :=
  repeat match goal with
  | H : (_ ≫= _) = Ret _ |- _ =>
      let a := fresh "r" in let H1 := fresh "Hm" in
      apply bind_Ret_inv in H as (a & H1 & H)
  | H : c_assert _ = Ret ?u |- _ => apply c_assert_inv in H
  | H : in_bounds _ = Ret ?u |- _ => apply in_bounds_inv in H
  end.

(** Closes a decidable closed goal by evaluating its decision. *)
Ltac by_eval := apply (bool_decide_unpack _); vm_compute; exact I.

Create HintDb flexric.
#[export] Hint Resolve keeps_ret keeps_abort keeps_assert keeps_mod keeps_bind keeps_get : flexric.

(** ** Lists of pairs *)

Lemma NoDup_snd_inj {A B} (L : list (A * B)) x y b : NoDup L.*2 → (x, b) ∈ L → (y, b) ∈ L → x = y.
Proof.
  intros Hnd [i Hi]%list_elem_of_lookup_1 [j Hj]%list_elem_of_lookup_1.
  assert (i = j) as <-; [|congruence].
  eapply NoDup_lookup; [exact Hnd| |]; rewrite list_lookup_fmap; [by rewrite Hi|by rewrite Hj].
Qed.

Lemma filter_iff_on {A} (P Q : A → Prop) `{!∀ x, Decision (P x), !∀ x, Decision (Q x)} (l : list A) :
  Forall (λ x, P x ↔ Q x) l → filter P l = filter Q l.
Proof.
  induction 1 as [|x l Hx _ IH]; [done|]. destruct (decide (P x)) as [HP|HP].
  - rewrite !filter_cons_True, IH; [done| |done]. by apply Hx.
  - rewrite !filter_cons_False, IH; [done| |done]. by rewrite <-Hx.
Qed.

Lemma NoDup_fst_inj {A B} (L : list (A * B)) x y z : NoDup L.*1 → (x, y) ∈ L → (x, z) ∈ L → y = z.
Proof.
  intros Hnd [i Hi]%list_elem_of_lookup_1 [j Hj]%list_elem_of_lookup_1.
  assert (i = j) as <-; [|congruence].
  eapply NoDup_lookup; [exact Hnd| |]; rewrite list_lookup_fmap; [by rewrite Hi|by rewrite Hj].
Qed.

(** ** Fixed-width integers *)

Definition u_ok (w : Z) (z : Z) : Prop := (0 ≤ z < 2 ^ w)%Z.
Definition wrap (w : Z) (z : Z) : Z := (z mod 2 ^ w)%Z.
Abbreviation byte_ok := (u_ok 8).

(** Conversion to a 32-bit [int]. *)
Definition to_int32 (z : Z) : Z :=
  let m := (z mod 2 ^ 32)%Z in if (m <? 2 ^ 31)%Z then m else (m - 2 ^ 32)%Z.

Lemma wrap_ok w z : (0 ≤ w)%Z → u_ok w (wrap w z).
Proof. intros. apply Z.mod_pos_bound. by apply Z.pow_pos_nonneg. Qed.
Lemma wrap_id w z : u_ok w z → wrap w z = z.
Proof. intros. by apply Z.mod_small. Qed.
#[export] Hint Resolve wrap_ok : flexric.

(** The three-way comparison convention of the containers: 1 when the first
    argument is the smaller one, 0 when equal, -1 otherwise. *)
Definition cmp_up (x y : Z) : Z := if (x <? y)%Z then 1%Z else if (x =? y)%Z then 0%Z else (-1)%Z.
