(* ===== verification/Refine.v ===== *)
(** * Simulation between stateful programs

    [refines sim m sm]: from related states, the program [m] returns what the
    specification [sm] returns, in related states, and fails the way it fails.  Where
    the specification is [Stuck], it says nothing. *)
From S2P Require Import Prelude.

Section refines.
Context {T S : Type} (sim : T → S → Prop).

Definition sim_out {A} (r : outcome (A * T)) (sr : outcome (A * S)) : Prop :=
  match sr with
  | Ret (a, s) => ∃ t, r = Ret (a, t) ∧ sim t s
  | Abort => r = Abort
  | Undef => r = Undef
  | Stuck => True
  | NoFuel => r = NoFuel
  end.

Definition refines {A} (m : st T A) (sm : st S A) : Prop := ∀ t s, sim t s → sim_out (m t) (sm s).

Lemma sim_out_bind {A B} (m : st T A) (sm : st S A) (f : A → st T B) (g : A → st S B) t s :
  sim_out (m t) (sm s) → (∀ a t' s', sm s = Ret (a, s') → sim t' s' → sim_out (f a t') (g a s')) →
  sim_out ((m ≫= f) t) ((sm ≫= g) s).
Proof.
  intros Hm Hf. rewrite !st_bind_eq. destruct (sm s) as [[a s']| | | |]; cbn in Hm; [|by rewrite Hm|by rewrite Hm|done|by rewrite Hm].
  destruct Hm as (t' & -> & Hs'). by apply Hf.
Qed.

Lemma refines_bind {A B} (m : st T A) (sm : st S A) (f : A → st T B) (g : A → st S B) :
  refines m sm → (∀ a, refines (f a) (g a)) → refines (m ≫= f) (sm ≫= g).
Proof. intros Hm Hf t s Hs. apply sim_out_bind; [by apply Hm|]. intros a t' s' _ Hs'. by apply Hf. Qed.

Lemma refines_ret {A} (a : A) : refines (mret a) (mret a).
Proof. intros t s Hs. by exists t. Qed.

Lemma refines_get {B} (f : T → st T B) (g : S → st S B) :
  (∀ t s, sim t s → sim_out (f t t) (g s s)) → refines (st_get ≫= f) (st_get ≫= g).
Proof. intros H t s Hs. by apply H. Qed.

Lemma refines_mod (f : T → T) (g : S → S) : (∀ t s, sim t s → sim (f t) (g s)) → refines (st_mod f) (st_mod g).
Proof. intros H t s Hs. exists (f t). split; [done|auto]. Qed.

Lemma refines_assert (b : bool) : refines (st_assert b) (st_assert b).
Proof. intros t s Hs. destruct b; [by exists t|done]. Qed.

Lemma refines_abort {A} : refines (st_abort (A := A)) st_abort.
Proof. by intros t s Hs. Qed.
Lemma refines_undef {A} : refines (st_undef (A := A)) st_undef.
Proof. by intros t s Hs. Qed.
Lemma refines_stuck {A} (m : st T A) : refines m (λ _, Stuck).
Proof. by intros t s Hs. Qed.

Lemma refines_lift {A} (o : outcome A) : refines (st_lift o) (st_lift o).
Proof. intros t s Hs. unfold st_lift. destruct o; cbn; eauto. Qed.
End refines.
#[export] Hint Resolve refines_lift refines_bind refines_ret refines_mod refines_assert refines_abort refines_undef : flexric.

(** A sequence of calls. *)
Fixpoint prog_run {S O R : Type} (step : O → st S R) (ops : list O) : st S (list R) :=
  match ops with
  | [] => mret []
  | op :: ops => o ← step op; os ← prog_run step ops; mret (o :: os)
  end.

Lemma prog_run_refines {T S O R : Type} (sim : T → S → Prop) (step : O → st T R) (sstep : O → st S R) ops :
  (∀ op, op ∈ ops → refines sim (step op) (sstep op)) → refines sim (prog_run step ops) (prog_run sstep ops).
Proof.
  induction ops as [|op ops IH]; intros H; cbn; [apply refines_ret|].
  apply refines_bind; [apply H; left|]. intros a. apply refines_bind; [apply IH; intros; apply H; by right|]. intros; apply refines_ret.
Qed.

Lemma prog_run_cons {S O R : Type} (step : O → st S R) o os s r s1 rs s2 :
  step o s = Ret (r, s1) → prog_run step os s1 = Ret (rs, s2) → prog_run step (o :: os) s = Ret (r :: rs, s2).
Proof. intros Ho Hos. cbn [prog_run]. by rewrite (st_bind_Ret _ _ _ _ _ Ho), (st_bind_Ret _ _ _ _ _ Hos). Qed.

Lemma prog_run_cons_abort {S O R : Type} (step : O → st S R) o os s : step o s = Abort → prog_run step (o :: os) s = Abort.
Proof. intros Ho. cbn [prog_run]. by rewrite st_bind_eq, Ho. Qed.

Lemma prog_run_cons_later {S O R : Type} (step : O → st S R) o os s r s1 :
  step o s = Ret (r, s1) → prog_run step os s1 = Abort → prog_run step (o :: os) s = Abort.
Proof. intros Ho Hos. cbn [prog_run]. by rewrite (st_bind_Ret _ _ _ _ _ Ho), st_bind_eq, Hos. Qed.
