(* ===== verification/CLayout.v ===== *)
(** * Object representations: what [memcpy] moves

    The plain encoders and decoders of the service models copy C objects byte
    by byte.  This file holds the object representation of scalars (little
    endian, two's complement) and of structs (fields at the offsets the LP64
    ABI gives them, with the padding bytes between them), readers that advance
    an iterator over a byte array, and writers that fill an allocated buffer. *)
From S2P Require Import Prelude.

(** ** Little-endian integers *)

Abbreviation bytes := (list Z).

Fixpoint le_enc (n : nat) (z : Z) : bytes :=
  match n with
  | O => []
  | S n' => (z mod 256)%Z :: le_enc n' (z / 256)%Z
  end.

Fixpoint le_dec (bs : bytes) : Z :=
  match bs with
  | [] => 0%Z
  | b :: bs' => (b + 256 * le_dec bs')%Z
  end.

Lemma length_le_enc n z : length (le_enc n z) = n.
Proof. revert z; induction n as [|n IH]; intros z; simpl; [done|by rewrite IH]. Qed.

Lemma le_dec_enc n z : u_ok (8 * Z.of_nat n) z → le_dec (le_enc n z) = z.
Proof.
  unfold u_ok. revert z. induction n as [|n IH]; intros z Hz.
  - change (8 * Z.of_nat 0)%Z with 0%Z in Hz. simpl in *. lia.
  - simpl. rewrite IH.
    + pose proof (Z.div_mod z 256). lia.
    + replace (8 * Z.of_nat (S n))%Z with (8 + 8 * Z.of_nat n)%Z in Hz by lia.
      rewrite Z.pow_add_r in Hz by lia. change (2 ^ 8)%Z with 256%Z in Hz.
      split; [apply Z.div_pos; lia|]. apply Z.div_lt_upper_bound; lia.
Qed.

Lemma le_enc_bytes n z : Forall byte_ok (le_enc n z).
Proof.
  revert z. induction n as [|n IH]; intros z; simpl; constructor; [|done].
  unfold u_ok. change (2 ^ 8)%Z with 256%Z. apply Z.mod_pos_bound. lia.
Qed.

Lemma le_enc_dec bs : Forall byte_ok bs → le_enc (length bs) (le_dec bs) = bs.
Proof.
  induction 1 as [|b bs Hb _ IH]; simpl; [done|].
  unfold u_ok in Hb. change (2 ^ 8)%Z with 256%Z in Hb.
  assert ((b + 256 * le_dec bs) mod 256 = b)%Z as ->.
  { rewrite Z.mul_comm, Z.mod_add by lia. apply Z.mod_small. lia. }
  f_equal. rewrite Z.mul_comm, Z.div_add by lia.
  rewrite Z.div_small by lia. by rewrite Z.add_0_l.
Qed.

Lemma le_dec_bound bs : Forall byte_ok bs → u_ok (8 * Z.of_nat (length bs)) (le_dec bs).
Proof.
  unfold u_ok. induction 1 as [|b bs Hb _ IH]; [simpl; lia|].
  unfold u_ok in Hb. change (2 ^ 8)%Z with 256%Z in Hb. cbn [length le_dec].
  replace (8 * Z.of_nat (S (length bs)))%Z with (8 + 8 * Z.of_nat (length bs))%Z by lia.
  rewrite Z.pow_add_r by lia. change (2 ^ 8)%Z with 256%Z. lia.
Qed.

(** ** Scalar types

    [float] and [double] are carried as their bit patterns: the encoders only
    copy them. *)
Inductive cty := CU8 | CU16 | CU32 | CU64 | CI8 | CI32 | CI64 | CBool | CF32 | CF64.

Definition csize (t : cty) : nat :=
  match t with
  | CU8 | CI8 | CBool => 1
  | CU16 => 2
  | CU32 | CI32 | CF32 => 4
  | CU64 | CI64 | CF64 => 8
  end.

Definition csigned (t : cty) : bool :=
  match t with CI8 | CI32 | CI64 => true | _ => false end.

Definition cbits (t : cty) : Z := (8 * Z.of_nat (csize t))%Z.

(** The values of the type. *)
Definition cval_ok (t : cty) (v : Z) : Prop :=
  match t with
  | CBool => (0 ≤ v < 2)%Z
  | _ => if csigned t then (- 2 ^ (cbits t - 1) ≤ v < 2 ^ (cbits t - 1))%Z
         else u_ok (cbits t) v
  end.

#[export] Instance u_ok_dec w z : Decision (u_ok w z).
Proof. unfold u_ok. apply _. Defined.
#[export] Instance cval_ok_dec t v : Decision (cval_ok t v).
Proof. destruct t; cbn -[Z.pow]; unfold u_ok; apply _. Defined.

Definition enc_scalar (t : cty) (v : Z) : bytes :=
  le_enc (csize t) (v mod 2 ^ cbits t)%Z.

Definition dec_scalar (t : cty) (bs : bytes) : Z :=
  let u := le_dec bs in
  if csigned t && (2 ^ (cbits t - 1) <=? u)%Z then (u - 2 ^ cbits t)%Z else u.

Lemma length_enc_scalar t v : length (enc_scalar t v) = csize t.
Proof. apply length_le_enc. Qed.

Lemma cbits_pos t : (8 ≤ cbits t)%Z.
Proof. by destruct t. Qed.

Lemma dec_enc_scalar t v : cval_ok t v → dec_scalar t (enc_scalar t v) = v.
Proof.
  intros Hv. unfold dec_scalar, enc_scalar.
  pose proof (cbits_pos t) as Hb.
  assert (2 ^ cbits t = 2 * 2 ^ (cbits t - 1))%Z as Hp.
  { rewrite <-Z.pow_succ_r by lia. f_equal. lia. }
  rewrite le_dec_enc; [|apply Z.mod_pos_bound, Z.pow_pos_nonneg; lia].
  destruct (csigned t) eqn:Hs; cbn [andb].
  - assert (- 2 ^ (cbits t - 1) ≤ v < 2 ^ (cbits t - 1))%Z as Hr by (by destruct t).
    destruct (decide (0 ≤ v)%Z).
    + rewrite Z.mod_small by lia. case (Z.leb_spec (2 ^ (cbits t - 1)) v); lia.
    + replace (v mod 2 ^ cbits t)%Z with (v + 2 ^ cbits t)%Z.
      * case (Z.leb_spec (2 ^ (cbits t - 1)) (v + 2 ^ cbits t)); lia.
      * symmetry. rewrite <-(Z.mod_add _ 1) by lia. rewrite Z.mod_small; lia.
  - apply Z.mod_small. unfold cval_ok, u_ok in Hv. rewrite Hs in Hv.
    destruct t; simpl in *; lia.
Qed.

(** ** Reading through an iterator

    A reader takes the bytes from the iterator to the end of the array; the
    bytes it returns are those after the iterator it leaves.  Reading past the
    end is undefined behaviour. *)
Definition reader (A : Type) : Type := bytes → outcome (A * bytes).

Definition rd_bytes (n : nat) : reader bytes := λ bs,
  in_bounds (n <=? length bs);; Ret (take n bs, drop n bs).

Definition rd_scalar (t : cty) : reader Z := λ bs,
  '(b, bs) ← rd_bytes (csize t) bs;
  Ret (dec_scalar t b, bs).

Fixpoint rd_n {A} (rd : reader A) (n : nat) : reader (list A) := λ bs,
  match n with
  | O => Ret ([], bs)
  | S n' => '(x, bs) ← rd bs;
            '(xs, bs) ← rd_n rd n' bs;
            Ret (x :: xs, bs)
  end.

(** [parses rd enc sz]: [rd] accepts any [sz] bytes, reading an object whose
    representation they are, and runs out of the array on fewer. *)
Definition parses {A} (rd : reader A) (enc : A → bytes) (sz : nat) : Prop :=
  ∀ bs, Forall byte_ok bs →
  if sz <=? length bs
  then ∃ x, rd bs = Ret (x, drop sz bs) ∧ enc x = take sz bs
  else rd bs = Undef.

(** [reads rd x bs]: at an iterator pointing at [bs], [rd] returns [x] and
    advances past [bs]. *)
Definition reads {A} (rd : reader A) (x : A) (bs : bytes) : Prop :=
  ∀ rest, rd (bs ++ rest) = Ret (x, rest).

Lemma rd_bytes_app b rest n : length b = n → rd_bytes n (b ++ rest) = Ret (b, rest).
Proof.
  intros <-. unfold rd_bytes. rewrite length_app.
  rewrite in_bounds_true by (apply Nat.leb_le; lia). cbn.
  by rewrite take_app_length, drop_app_length.
Qed.

Lemma rd_scalar_enc t v : cval_ok t v → reads (rd_scalar t) v (enc_scalar t v).
Proof.
  intros Hv rest. unfold rd_scalar. rewrite rd_bytes_app by apply length_enc_scalar.
  cbn. by rewrite dec_enc_scalar.
Qed.

Lemma dec_scalar_mod t bs : Forall byte_ok bs → length bs = csize t →
  (dec_scalar t bs mod 2 ^ cbits t)%Z = le_dec bs.
Proof.
  intros Hb Hl. pose proof (le_dec_bound bs Hb) as Hu. rewrite Hl in Hu.
  fold (cbits t) in Hu. unfold dec_scalar, u_ok in *.
  destruct (_ && _); [|by apply Z.mod_small].
  replace (le_dec bs - 2 ^ cbits t)%Z with (le_dec bs + (-1) * 2 ^ cbits t)%Z by lia.
  rewrite Z.mod_add by lia. by apply Z.mod_small.
Qed.

Lemma enc_dec_scalar t bs : Forall byte_ok bs → length bs = csize t →
  enc_scalar t (dec_scalar t bs) = bs.
Proof.
  intros Hb Hl. unfold enc_scalar. rewrite dec_scalar_mod by done.
  rewrite <-Hl. by apply le_enc_dec.
Qed.

Lemma dec_scalar_ok t bs : t ≠ CBool → Forall byte_ok bs → length bs = csize t →
  cval_ok t (dec_scalar t bs).
Proof.
  intros Ht Hb Hl. pose proof (le_dec_bound bs Hb) as Hu. rewrite Hl in Hu.
  fold (cbits t) in Hu. unfold dec_scalar, cval_ok, u_ok in *.
  assert (2 ^ cbits t = 2 * 2 ^ (cbits t - 1))%Z as Hp.
  { pose proof (cbits_pos t). rewrite <-Z.pow_succ_r by lia. f_equal. lia. }
  destruct (csigned t) eqn:Hs.
  - cbn [andb]. assert (- 2 ^ (cbits t - 1) ≤ (if 2 ^ (cbits t - 1) <=? le_dec bs
      then le_dec bs - 2 ^ cbits t else le_dec bs) < 2 ^ (cbits t - 1))%Z as H.
    { case (Z.leb_spec (2 ^ (cbits t - 1)) (le_dec bs)); lia. }
    by destruct t.
  - by destruct t.
Qed.

Lemma in_bounds_if b : in_bounds b = if b then Ret () else Undef.
Proof. done. Qed.

Lemma parses_scalar t : parses (rd_scalar t) (enc_scalar t) (csize t).
Proof.
  intros bs Hb. unfold rd_scalar, rd_bytes. rewrite in_bounds_if.
  destruct (Nat.leb_spec (csize t) (length bs)); [|done].
  eexists. split; [done|]. apply enc_dec_scalar; [by apply Forall_take|].
  rewrite length_take. lia.
Qed.

(** Two parsers in a row. *)
Lemma parses_seq {A B} (r1 : reader A) (r2 : reader B) e1 e2 n1 n2 :
  parses r1 e1 n1 → parses r2 e2 n2 →
  parses (λ bs, '(x, bs) ← r1 bs; '(y, bs) ← r2 bs; Ret ((x, y), bs))
    (λ p, e1 p.1 ++ e2 p.2) (n1 + n2).
Proof.
  intros H1 H2 bs Hb. specialize (H1 bs Hb).
  destruct (Nat.leb_spec n1 (length bs)).
  - destruct H1 as (x & -> & Hx). cbn.
    specialize (H2 (drop n1 bs) ltac:(by apply Forall_drop)).
    rewrite length_drop in H2.
    destruct (Nat.leb_spec n2 (length bs - n1)); case (Nat.leb_spec (n1 + n2) (length bs));
      intros ?; try lia.
    + destruct H2 as (y & -> & Hy). cbn. exists (x, y). rewrite drop_drop. split; [done|].
      cbn. by rewrite Hx, Hy, take_take_drop.
    + by rewrite H2.
  - rewrite H1. rewrite (proj2 (Nat.leb_gt _ _)) by lia. done.
Qed.

Lemma parses_ext {A} (r1 r2 : reader A) e1 e2 n :
  (∀ bs, r1 bs = r2 bs) → (∀ x, e1 x = e2 x) → parses r1 e1 n → parses r2 e2 n.
Proof.
  intros Hr He H bs Hb. specialize (H bs Hb). rewrite <-Hr.
  destruct (_ <=? _); [|done]. destruct H as (x & ? & ?). exists x. by rewrite <-He.
Qed.

Lemma parses_n {A} (rd : reader A) enc sz n : parses rd enc sz →
  ∀ bs, Forall byte_ok bs →
  if n * sz <=? length bs
  then ∃ xs, rd_n rd n bs = Ret (xs, drop (n * sz) bs) ∧ length xs = n ∧
             concat (enc <$> xs) = take (n * sz) bs
  else rd_n rd n bs = Undef.
Proof.
  intros Hrd. induction n as [|n IH]; intros bs Hb; [by exists []|].
  cbn [rd_n]. specialize (Hrd bs Hb). destruct (Nat.leb_spec sz (length bs)) as [Hs|Hs].
  - destruct Hrd as (x & -> & Hx). cbn -[Nat.mul].
    specialize (IH (drop sz bs) ltac:(by apply Forall_drop)). rewrite length_drop in IH.
    destruct (Nat.leb_spec (n * sz) (length bs - sz));
      case (Nat.leb_spec (S n * sz) (length bs)); intros ?; try lia.
    + destruct IH as (xs & -> & Hl & Hxs). exists (x :: xs). cbn -[Nat.mul].
      rewrite drop_drop, Hx, Hxs, take_take_drop, Hl. done.
    + by rewrite IH.
  - rewrite Hrd. rewrite (proj2 (Nat.leb_gt _ _)) by lia. done.
Qed.

Lemma rd_n_concat {A} (rd : reader A) (enc : A → bytes) (xs : list A) :
  Forall (λ x, reads rd x (enc x)) xs →
  reads (rd_n rd (length xs)) xs (concat (enc <$> xs)).
Proof.
  induction 1 as [|x xs Hx _ IH]; intros rest; [done|].
  cbn [length rd_n fmap list_fmap concat]. rewrite <-(assoc_L (++)), Hx. cbn.
  by rewrite IH.
Qed.

(** ** Structs *)

Definition pad_to (off align : nat) : nat := (align - off mod align) mod align.

Record layout := Layout {
  items : list (nat * cty);   (** padding before the field, its type *)
  tail_pad : nat }.

Fixpoint items_from (align : cty → nat) (off : nat) (ts : list cty) : list (nat * cty) :=
  match ts with
  | [] => []
  | t :: ts' => let p := pad_to off (align t) in
                (p, t) :: items_from align (off + p + csize t) ts'
  end.

Definition items_size (l : list (nat * cty)) : nat :=
  sum_list ((λ '(p, t), p + csize t) <$> l).
Definition items_pad (l : list (nat * cty)) : nat := sum_list (fst <$> l).

(** The LP64 layout: every scalar is aligned to its size and the size of the
    struct is a multiple of its alignment. *)
Definition struct_layout (ts : list cty) : layout :=
  let l := items_from csize 0 ts in
  Layout l (pad_to (items_size l) (foldr (λ t n, max (csize t) n) 1 ts)).

(** The layout under [#pragma pack(push, 1)]. *)
Definition packed_layout (ts : list cty) : layout := Layout (items_from (λ _, 1) 0 ts) 0.

Definition layout_size (L : layout) : nat := items_size (items L) + tail_pad L.
Definition layout_pad (L : layout) : nat := items_pad (items L) + tail_pad L.

(** Field values and padding bytes, in the order of the object. *)
Fixpoint enc_items (l : list (nat * cty)) (vs : list Z) (pad : bytes) : bytes :=
  match l, vs with
  | (p, t) :: l', v :: vs' =>
      take p pad ++ enc_scalar t v ++ enc_items l' vs' (drop p pad)
  | _, _ => pad
  end.

Fixpoint rd_items (l : list (nat * cty)) (tail : nat) : reader (list Z * bytes) := λ bs,
  match l with
  | [] => '(q, bs) ← rd_bytes tail bs; Ret ([], q, bs)
  | (p, t) :: l' =>
      '(q, bs) ← rd_bytes p bs;
      '(v, bs) ← rd_scalar t bs;
      '(vs, ps, bs) ← rd_items l' tail bs;
      Ret (v :: vs, q ++ ps, bs)
  end.

Lemma rd_items_enc l tail vs pad :
  Forall2 cval_ok l.*2 vs → length pad = items_pad l + tail →
  reads (rd_items l tail) (vs, pad) (enc_items l vs pad).
Proof.
  unfold items_pad. revert vs pad.
  induction l as [|[p t] l IH]; intros vs pad Hvs Hpad rest; cbn in Hvs, Hpad.
  - inversion Hvs; subst. cbn. rewrite rd_bytes_app by done. done.
  - inversion Hvs as [|? v ? vs' Hv Hvs']; subst. cbn [enc_items rd_items].
    rewrite <-!(assoc_L (++)), rd_bytes_app by (rewrite length_take; lia). cbn.
    rewrite rd_scalar_enc by done. cbn.
    rewrite (IH vs' (drop p pad)) by (done || rewrite length_drop; lia). cbn.
    by rewrite take_drop.
Qed.

Lemma rd_items_parses l tail :
  parses (rd_items l tail) (λ p, enc_items l p.1 p.2) (items_size l + tail) ∧
  (∀ bs vs pad bs', rd_items l tail bs = Ret (vs, pad, bs') →
     length vs = length l ∧ length pad = items_pad l + tail).
Proof.
  unfold items_size, items_pad. induction l as [|[p t] l [IH IH']]; cbn.
  - split.
    + intros bs Hb. unfold rd_bytes. rewrite in_bounds_if. destruct (_ <=? _); [|done].
      by eexists (_, _).
    + unfold rd_bytes. intros bs vs pad bs' H. bind_inv. apply Nat.leb_le in Hm0.
      simplify_eq/=. rewrite length_take. lia.
  - split.
    + intros bs Hb. unfold rd_bytes. rewrite in_bounds_if.
      destruct (Nat.leb_spec p (length bs)) as [Hp|Hp]; cbn.
      2:{ rewrite (proj2 (Nat.leb_gt _ _)) by lia. done. }
      pose proof (parses_seq _ _ _ _ _ _ (parses_scalar t) IH (drop p bs)
        ltac:(by apply Forall_drop)) as H.
      rewrite length_drop in H.
      destruct (Nat.leb_spec (csize t + (sum_list ((λ '(p, t), p + csize t) <$> l) + tail))
        (length bs - p)).
      * rewrite (proj2 (Nat.leb_le _ _)) by lia.
        destruct H as ([v [vs ps]] & H & He). bind_inv.
        destruct r as [v' bs1]. rewrite Hm. cbn. bind_inv.
        destruct r as [[vs' ps'] bs2]. rewrite Hm0. simplify_eq/=.
        eexists (_, _). split.
        -- rewrite drop_drop. do 3 f_equal. lia.
        -- cbn. rewrite take_app_length' by (rewrite length_take; lia).
           rewrite drop_app_length' by (rewrite length_take; lia).
           rewrite He, take_take_drop. f_equal. lia.
      * rewrite (proj2 (Nat.leb_gt _ _)) by lia.
        destruct (rd_scalar t (drop p bs)) as [[v bs1]| | | |]; cbn in H |- *; try done.
        destruct (rd_items l tail bs1) as [[[vs ps] bs2]| | | |]; done.
    + intros bs vs pad bs' H. bind_inv. destruct r as [q bs1]. bind_inv.
      destruct r as [v bs2]. bind_inv. destruct r as [[vs' ps] bs3]. simplify_eq/=.
      apply IH' in Hm1 as [-> ?]. rewrite length_app.
      unfold rd_bytes in Hm. bind_inv. match goal with H : _ = true |- _ => apply Nat.leb_le in H end.
      simplify_eq/=. rewrite length_take. lia.
Qed.

Lemma length_enc_items l vs pad tail :
  length vs = length l → length pad = items_pad l + tail →
  length (enc_items l vs pad) = items_size l + tail.
Proof.
  unfold items_pad, items_size. revert vs pad.
  induction l as [|[p t] l IH]; intros [|v vs] pad Hvs Hpad; cbn in *; try lia.
  rewrite !length_app, length_enc_scalar, length_take, (IH vs) by (rewrite ?length_drop; lia).
  lia.
Qed.

(** A C struct type: its layout and its named fields. *)
Class CStruct (A : Type) := {
  c_layout : layout;
  c_vals : A → list Z;
  c_pad : A → bytes;
  c_make : list Z → bytes → A;
  c_make_vals : ∀ a, c_make (c_vals a) (c_pad a) = a;
  c_vals_make : ∀ vs pad, length vs = length (items c_layout) →
    length pad = items_pad (items c_layout) + tail_pad c_layout →
    c_vals (c_make vs pad) = vs ∧ c_pad (c_make vs pad) = pad }.

Lemma nth_seq_id (vs : list Z) n : length vs = n → (λ i, nth i vs 0%Z) <$> seq 0 n = vs.
Proof.
  intros <-. induction vs as [|v vs IH]; [done|]. cbn. f_equal.
  rewrite <-seq_shift, <-list_fmap_compose. exact IH.
Qed.

(** The laws of an instance whose [c_make] takes the values one by one. *)
Ltac c_struct_laws :=
  lazymatch goal with
  | |- ∀ a, _ = a => by intros []
  | |- _ => intros vs pad Hvs Hpad; split;
            [exact (nth_seq_id vs _ Hvs)
            |first [reflexivity | destruct pad; [reflexivity|discriminate Hpad]]]
  end.

(** The layout of the structs whose only field is a [uint32_t]. *)
#[program] Definition u32_struct {A} (mk : Z → A) (get : A → Z)
    (mk_get : ∀ a, mk (get a) = a) (get_mk : ∀ z, get (mk z) = z) : CStruct A := {|
  c_layout := struct_layout [CU32];
  c_vals a := [get a];
  c_pad a := [];
  c_make vs pad := mk (nth 0 vs 0%Z) |}.
Next Obligation. done. Qed.
Next Obligation.
  intros A mk get H1 H2 vs pad Hvs Hpad. destruct vs as [|v [|]]; try discriminate Hvs.
  destruct pad; [|discriminate Hpad]. cbn. by rewrite H2.
Qed.

(** What holds of every object of the type: each field a value of its type,
    the padding of the size the layout leaves. *)
Definition c_ok `{CStruct A} (a : A) : Prop :=
  Forall2 cval_ok (items c_layout).*2 (c_vals a) ∧
  length (c_pad a) = layout_pad (c_layout (A := A)).

#[export] Instance c_ok_dec `{CStruct A} (a : A) : Decision (c_ok a).
Proof. unfold c_ok. apply _. Defined.

Definition sizeof (A : Type) `{CStruct A} : nat := layout_size (c_layout (A := A)).

Definition enc_obj `{CStruct A} (a : A) : bytes :=
  enc_items (items c_layout) (c_vals a) (c_pad a).

Definition rd_obj {A} `{CStruct A} : reader A := λ bs,
  '(vs, pad, bs) ← rd_items (items c_layout) (tail_pad c_layout) bs;
  Ret (c_make vs pad, bs).

Lemma rd_obj_enc `{CStruct A} (a : A) : c_ok a → reads rd_obj a (enc_obj a).
Proof.
  intros [Hv Hp] rest. unfold rd_obj, enc_obj.
  rewrite rd_items_enc by done. cbn. by rewrite c_make_vals.
Qed.

Lemma rd_obj_parses `{CStruct A} : parses (rd_obj (A := A)) enc_obj (sizeof A).
Proof.
  intros bs Hb. unfold rd_obj, enc_obj, sizeof, layout_size.
  destruct (rd_items_parses (items c_layout) (tail_pad (c_layout (A := A)))) as [Hp Hl].
  specialize (Hp bs Hb). destruct (_ <=? _).
  - destruct Hp as ([vs pad] & Hr & He). rewrite Hr. cbn. eexists. split; [done|].
    apply Hl in Hr as [Hvs Hpad]. by destruct (c_vals_make vs pad Hvs Hpad) as [-> ->].
  - by rewrite Hp.
Qed.

Lemma length_enc_obj `{CStruct A} (a : A) : c_ok a → length (enc_obj a) = sizeof A.
Proof.
  intros [Hv Hp]. apply Forall2_length in Hv. rewrite length_fmap in Hv.
  unfold enc_obj, sizeof, layout_size. by apply length_enc_items.
Qed.

Lemma length_enc_objs `{CStruct A} (l : list A) :
  Forall c_ok l → length (concat (enc_obj <$> l)) = length l * sizeof A.
Proof.
  induction 1 as [|a l Ha _ IH]; [done|]. cbn [fmap list_fmap concat length].
  rewrite length_app, IH, length_enc_obj by done. lia.
Qed.

Lemma rd_objs_enc `{CStruct A} (l : list A) :
  Forall c_ok l → reads (rd_n rd_obj (length l)) l (concat (enc_obj <$> l)).
Proof.
  intros Hl. apply rd_n_concat. eapply Forall_impl; [|exact Hl]. intros a. apply rd_obj_enc.
Qed.

#[export] Hint Resolve rd_scalar_enc rd_obj_enc rd_objs_enc : flexric.

(** ** Writing through an iterator

    A writer is given the buffer and the position of the iterator; it returns
    the buffer and the number of bytes the iterator has moved by, the [sz] the
    fill functions of the code return.  Writing past the end of the buffer is
    undefined behaviour. *)
Definition writer : Type := bytes → nat → outcome (bytes * nat).

(** [memcpy(it, src, n); it += n; sz += n]. *)
Definition w_memcpy (src : bytes) : writer := λ buf it,
  in_bounds (it + length src <=? length buf);;
  Ret (take it buf ++ src ++ drop (it + length src) buf, length src).

Definition w_nil : writer := λ buf it, Ret (buf, 0).

(** [assert(0 != 0)]. *)
Definition w_abort : writer := λ buf it, Abort.

(** [sz = w1(it); it += sz; sz += w2(it)]. *)
Definition w_seq (w1 w2 : writer) : writer := λ buf it,
  '(buf, s1) ← w1 buf it;
  '(buf, s2) ← w2 buf (it + s1);
  Ret (buf, s1 + s2).

Fixpoint w_list {A} (w : A → writer) (l : list A) : writer :=
  match l with
  | [] => w_nil
  | x :: l' => w_seq (w x) (w_list w l')
  end.

Definition w_scalar (t : cty) (v : Z) : writer := w_memcpy (enc_scalar t v).
Definition w_obj `{CStruct A} (a : A) : writer := w_memcpy (enc_obj a).

Infix ">>>" := w_seq (at level 50, left associativity).

(** [ba.buf = malloc(sz); sz' = w(ba.buf); assert(sz' == sz)]. *)
Definition fill_buffer (sz : nat) (w : writer) : outcome bytes :=
  '(buf, s) ← w (replicate sz 0%Z) 0;
  c_assert (s =? sz);;
  Ret buf.

(** [writes w bs]: wherever the iterator stands in the buffer, [w] writes
    exactly [bs] there when it fits, and runs out of the buffer otherwise. *)
Definition writes (w : writer) (bs : bytes) : Prop :=
  ∀ buf it, it ≤ length buf →
  w buf it = if it + length bs <=? length buf
             then Ret (take it buf ++ bs ++ drop (it + length bs) buf, length bs)
             else Undef.

Lemma writes_memcpy src : writes (w_memcpy src) src.
Proof. intros buf it Hit. unfold w_memcpy, in_bounds. by destruct (_ <=? _). Qed.

Lemma writes_nil : writes w_nil [].
Proof.
  intros buf it Hit. unfold w_nil. cbn. rewrite Nat.add_0_r.
  rewrite (proj2 (Nat.leb_le _ _) Hit). by rewrite take_drop.
Qed.

Lemma writes_seq w1 w2 b1 b2 : writes w1 b1 → writes w2 b2 → writes (w1 >>> w2) (b1 ++ b2).
Proof.
  intros H1 H2 buf it Hit. unfold w_seq. rewrite H1, length_app by done.
  destruct (Nat.leb_spec (it + length b1) (length buf)) as [Hb|Hb]; cbn.
  - rewrite H2 by (rewrite !length_app, length_take, length_drop; lia).
    rewrite !length_app, length_take, length_drop.
    replace (it `min` length buf) with it by lia.
    replace (it + (length b1 + (length buf - (it + length b1)))) with (length buf) by lia.
    rewrite Nat.add_assoc.
    destruct (Nat.leb_spec (it + length b1 + length b2) (length buf)) as [Hc|Hc]; [|done].
    cbn. f_equal. f_equal. rewrite (assoc_L (++) (take it buf)).
    rewrite take_app_length' by (rewrite length_app, length_take; lia).
    rewrite drop_app_ge by (rewrite length_app, length_take; lia).
    rewrite length_app, length_take, drop_drop.
    rewrite <-!(assoc_L (++)). do 3 f_equal. f_equal. lia.
  - rewrite (proj2 (Nat.leb_gt _ _)) by lia. done.
Qed.

Lemma writes_list {A} (w : A → writer) (enc : A → bytes) (l : list A) :
  (∀ x, x ∈ l → writes (w x) (enc x)) → writes (w_list w l) (concat (enc <$> l)).
Proof.
  induction l as [|x l IH]; intros Hl; [apply writes_nil|].
  cbn [w_list fmap list_fmap concat]. apply writes_seq.
  - apply Hl. left.
  - apply IH. intros y Hy. apply Hl. by right.
Qed.

Lemma fill_buffer_writes w bs : writes w bs → fill_buffer (length bs) w = Ret bs.
Proof.
  intros Hw. unfold fill_buffer. rewrite Hw by lia.
  rewrite length_replicate, Nat.leb_refl. cbn. rewrite Nat.eqb_refl. cbn.
  f_equal. rewrite drop_ge by (rewrite length_replicate; lia). by rewrite app_nil_r.
Qed.

(** A buffer one computed too small is overrun. *)
Lemma fill_buffer_overrun w bs sz : writes w bs → sz < length bs → fill_buffer sz w = Undef.
Proof.
  intros Hw Hsz. unfold fill_buffer. rewrite Hw by lia.
  rewrite length_replicate, (proj2 (Nat.leb_gt _ _)) by lia. done.
Qed.

#[export] Hint Resolve writes_memcpy writes_nil writes_seq writes_list : flexric.

(** ** The power of two the decoders compare a length with *)

(** [next_pow2] of the [*_dec_plain.c] files, on a 64-bit [size_t]. *)
Definition next_pow2 (x : Z) : Z :=
  let x := wrap 64 (x - 1) in
  let x := Z.lor x (Z.shiftr x 1) in
  let x := Z.lor x (Z.shiftr x 2) in
  let x := Z.lor x (Z.shiftr x 4) in
  let x := Z.lor x (Z.shiftr x 8) in
  let x := Z.lor x (Z.shiftr x 16) in
  let x := Z.lor x (Z.shiftr x 32) in
  wrap 64 (x + 1).

(** Smearing: after shifts of 1, 2, .., m/2 the m top bits are set. *)
Definition smeared (n m x : Z) : Prop :=
  (∀ i, 0 ≤ i → n - m < i ≤ n → Z.testbit x i = true)%Z ∧
  (∀ i, n < i → Z.testbit x i = false)%Z.

Lemma smeared_step n m x :
  (0 ≤ n)%Z → (0 < m)%Z → smeared n m x → smeared n (2 * m) (Z.lor x (Z.shiftr x m)).
Proof.
  intros Hn Hm [Hs Hz]. split; intros i Hi.
  - intros Hr. rewrite Z.lor_spec, Z.shiftr_spec by lia.
    destruct (decide (n - m < i)%Z); [by rewrite Hs by lia|].
    rewrite (Hs (i + m)%Z) by lia. apply orb_true_r.
  - rewrite Z.lor_spec, Z.shiftr_spec by lia. by rewrite !Hz by lia.
Qed.

Lemma smeared_ones n x : (0 ≤ n < 64)%Z → smeared n 64 x → (0 ≤ x)%Z → x = Z.ones (n + 1).
Proof.
  intros Hn [Hs Hz] Hx. apply Z.bits_inj'. intros i Hi.
  destruct (decide (i ≤ n)%Z).
  - rewrite Z.ones_spec_low, Hs by lia. done.
  - rewrite Z.ones_spec_high, Hz by lia. done.
Qed.

(** [next_pow2 x] is the least power of two that is not below [x]. *)
Lemma next_pow2_log2_up x : (0 < x ≤ 2 ^ 63)%Z → next_pow2 x = (2 ^ Z.log2_up x)%Z.
Proof.
  intros Hx. unfold next_pow2. rewrite (wrap_id 64 (x - 1)).
  2:{ unfold u_ok. change (2 ^ 63)%Z with 9223372036854775808%Z in Hx.
      change (2 ^ 64)%Z with 18446744073709551616%Z. lia. }
  destruct (decide (x = 1)%Z) as [->|Hx1]; [done|].
  set (n := Z.log2 (x - 1)).
  assert (0 ≤ n < 63)%Z as Hn.
  { split; [apply Z.log2_nonneg|]. apply Z.log2_lt_pow2; lia. }
  assert (smeared n 1 (x - 1)) as H1.
  { split; intros i Hi.
    - intros Hr. replace i with n by lia. apply Z.bit_log2. lia.
    - apply Z.bits_above_log2; lia. }
  apply (smeared_step n 1) in H1; [|lia..]. apply (smeared_step n 2) in H1; [|lia..].
  apply (smeared_step n 4) in H1; [|lia..]. apply (smeared_step n 8) in H1; [|lia..].
  apply (smeared_step n 16) in H1; [|lia..]. apply (smeared_step n 32) in H1; [|lia..].
  apply smeared_ones in H1; [|lia|].
  - rewrite H1, Z.ones_equiv. unfold wrap.
    replace (Z.pred (2 ^ (n + 1)) + 1)%Z with (2 ^ (n + 1))%Z by lia.
    rewrite Z.mod_small.
    + f_equal. unfold Z.log2_up. rewrite (proj2 (Z.compare_lt_iff 1 x)) by lia.
      unfold n. rewrite <-Z.sub_1_r. lia.
    + split; [lia|]. apply Z.pow_lt_mono_r; lia.
  - repeat first [lia | apply Z.lor_nonneg; split | apply Z.shiftr_nonneg].
Qed.

(** What the length checks of the decoders amount to. *)
Lemma next_pow2_ge k c x : (0 ≤ k < 63)%Z → (2 ^ k < c ≤ 2 ^ (k + 1))%Z → (0 ≤ x ≤ 2 ^ 63)%Z →
  (c <=? next_pow2 x)%Z = (2 ^ k <? x)%Z.
Proof.
  intros Hk Hc Hx. destruct (decide (x = 0)%Z) as [->|Hx0].
  - change (next_pow2 0) with 0%Z. pose proof (Z.pow_pos_nonneg 2 k).
    rewrite (proj2 (Z.leb_gt _ _)), (proj2 (Z.ltb_ge _ _)) by lia. done.
  - rewrite next_pow2_log2_up by lia. apply Bool.eq_iff_eq_true.
    rewrite Z.leb_le, Z.ltb_lt. pose proof (Z.log2_up_le_pow2 x k ltac:(lia)) as Hup.
    pose proof (Z.log2_up_nonneg x) as Hnn. split; intros H.
    + pose proof (Z.pow_lt_mono_r_iff 2 k (Z.log2_up x)). lia.
    + pose proof (Z.pow_le_mono_r 2 (k + 1) (Z.log2_up x)). lia.
Qed.
