(* ===== verification/SmCodec.v ===== *)
(** * What the plain codecs of the service models share

    The encoders and decoders of [src/src/sm/*_sm/{enc,dec}/*_plain.c] are
    written to one pattern: fixed-size messages are copied as they are in
    memory, indication messages are a 32-bit count, that many structs and some
    trailing fields.  This file holds the copy of [n] bytes out of an object,
    the array loops of both directions and their laws. *)
From S2P Require Import Prelude CLayout.

(** [memcpy(it, src, n)] for an object of which [src] is the representation. *)
Definition w_copy (src : bytes) (n : nat) : writer := λ buf it,
  in_bounds (n <=? length src);; w_memcpy (take n src) buf it.

(** The first [n] elements of the array a message points to; fewer in the
    array than the count says is a read outside it. *)
Definition arr_prefix {A} (n : Z) (l : list A) : outcome (list A) :=
  in_bounds (Z.to_nat n <=? length l);; Ret (take (Z.to_nat n) l).

(** [for(i = 0; i < n; ++i){ memcpy(it, &l[i], sizeof(l[i])); it += sizeof(l[i]); }] *)
Definition w_arr `{CStruct A} (n : Z) (l : list A) : writer := λ buf it,
  l' ← arr_prefix n l; w_list w_obj l' buf it.

(** The same loop of a decoder. *)
Definition rd_arr `{CStruct A} (n : Z) : reader (list A) := rd_n rd_obj (Z.to_nat n).

(** [for(i = 0; i < n; ++i) if(!eq(&l0[i], &l1[i])) return false; return true;] *)
Fixpoint eq_arr {A} (eqb : A → A → bool) (n : nat) (l0 l1 : list A) : outcome bool :=
  match n with
  | O => Ret true
  | S n' =>
      match l0, l1 with
      | x0 :: l0', x1 :: l1' => if eqb x0 x1 then eq_arr eqb n' l0' l1' else Ret false
      | _, _ => Undef
      end
  end.

(** When [eqb] compares a projection, so does the loop. *)
Lemma eq_arr_spec {A K} (eqb : A → A → bool) (key : A → K) l0 l1 :
  (∀ x y, eqb x y = true ↔ key x = key y) → length l0 = length l1 →
  ∃ b, eq_arr eqb (length l0) l0 l1 = Ret b ∧ (b = true ↔ key <$> l0 = key <$> l1).
Proof.
  intros Hk. revert l1. induction l0 as [|x l0 IH]; intros [|y l1] Hl; try discriminate Hl.
  - by exists true.
  - cbn [eq_arr length fmap list_fmap]. pose proof (Hk x y) as Hb. destruct (eqb x y).
    + destruct (IH l1 ltac:(by injection Hl)) as (b & -> & Hbi). exists b. split; [done|].
      rewrite Hbi. split; [intros ->; f_equal; by apply Hb|by intros [=]].
    + exists false. split; [done|]. split; [done|]. intros [= H _]. by apply Hb in H.
Qed.

(** [assert(it == ba.buf + len)] at the end of a decoder. *)
Definition at_end (it : bytes) : outcome unit := c_assert (length it =? 0).

(** [memcpy(&ret, buf, len)] after [assert(len == sizeof(T))]. *)
Definition dec_whole {A} `{CStruct A} (bs : bytes) : outcome A :=
  c_assert (length bs =? sizeof A);;
  '(x, _) ← rd_obj bs;
  Ret x.

Lemma w_copy_whole src n : n = length src → writes (w_copy src n) src.
Proof.
  intros -> buf it Hit. unfold w_copy. rewrite in_bounds_true by (apply Nat.leb_le; lia).
  cbn. rewrite take_ge by lia. by apply writes_memcpy.
Qed.

Lemma arr_prefix_all {A} n (l : list A) : Z.of_nat (length l) = n → arr_prefix n l = Ret l.
Proof.
  intros <-. unfold arr_prefix. rewrite Nat2Z.id, Nat.leb_refl. cbn. by rewrite take_ge.
Qed.

Lemma arr_prefix_short {A} n (l : list A) : (Z.of_nat (length l) < n)%Z → arr_prefix n l = Undef.
Proof.
  intros H. unfold arr_prefix. rewrite (proj2 (Nat.leb_gt _ _)) by lia. done.
Qed.

Lemma writes_arr `{CStruct A} n (l : list A) :
  Z.of_nat (length l) = n → writes (w_arr n l) (concat (enc_obj <$> l)).
Proof.
  intros Hn buf it Hit. unfold w_arr. rewrite arr_prefix_all by done. cbn.
  apply writes_list; [|done]. intros. apply writes_memcpy.
Qed.

Lemma writes_scalar t v : writes (w_scalar t v) (enc_scalar t v).
Proof. apply writes_memcpy. Qed.
Lemma writes_obj `{CStruct A} (a : A) : writes (w_obj a) (enc_obj a).
Proof. apply writes_memcpy. Qed.

(** Discharges [writes w bs] for the writers the encoders are made of. *)
Ltac solve_writes :=
  lazymatch goal with
  | |- writes (_ >>> _) (_ ++ _) => apply writes_seq; solve_writes
  | |- writes (w_scalar _ _) _ => apply writes_scalar
  | |- writes (w_obj _) _ => apply writes_obj
  | |- writes (w_arr _ _) _ => apply writes_arr; try done
  | |- writes (w_copy _ _) _ => apply w_copy_whole; try done
  end.

Lemma dec_whole_enc `{CStruct A} (a : A) : c_ok a → dec_whole (enc_obj a) = Ret a.
Proof.
  intros Ha. unfold dec_whole. rewrite length_enc_obj by done. rewrite Nat.eqb_refl. cbn.
  pose proof (rd_obj_enc a Ha []) as Hr. rewrite app_nil_r in Hr. by rewrite Hr.
Qed.

Lemma dec_whole_cases `{CStruct A} bs : Forall byte_ok bs →
  if length bs =? sizeof A then ∃ a : A, dec_whole bs = Ret a ∧ enc_obj a = bs
  else dec_whole (A := A) bs = Abort.
Proof.
  intros Hb. unfold dec_whole. destruct (Nat.eqb_spec (length bs) (sizeof A)) as [Hl|Hl].
  - pose proof (rd_obj_parses bs Hb) as Hp. rewrite (proj2 (Nat.leb_le _ _)) in Hp by lia.
    destruct Hp as (a & Hr & He). rewrite Hr. cbn. exists a. split; [done|].
    rewrite He. apply take_ge. lia.
  - done.
Qed.

(** A 32-bit count and that many objects, from any bytes. *)
Lemma rd_counted_cases {A} `{CStruct A} {B} (k : Z → list A → bytes → outcome B) bs :
  Forall byte_ok bs →
  let n := le_dec (take 4 bs) in
  let need := 4 + Z.to_nat n * sizeof A in
  let r := '(n, it) ← rd_scalar CU32 bs; '(xs, it) ← rd_arr n it; k n xs it in
  if (4 <=? length bs) && (need <=? length bs)
  then ∃ xs, r = k n xs (drop need bs) ∧ u_ok 32 n ∧ Z.of_nat (length xs) = n ∧
             enc_scalar CU32 n ++ concat (enc_obj <$> xs) = take need bs
  else r = Undef.
Proof.
  intros Hb. cbv zeta. unfold rd_scalar at 1 2, rd_bytes.
  change (csize CU32) with 4. rewrite !in_bounds_if.
  destruct (Nat.leb_spec 4 (length bs)) as [H4|H4]; cbn [andb]; [|done].
  cbn -[Nat.mul Nat.add take drop Nat.leb dec_scalar le_dec enc_scalar]. unfold rd_arr.
  assert (dec_scalar CU32 (take 4 bs) = le_dec (take 4 bs)) as -> by done.
  assert (length (take 4 bs) = 4) as Hl4 by (rewrite length_take; lia).
  assert (u_ok 32 (le_dec (take 4 bs))) as Hn.
  { pose proof (le_dec_bound (take 4 bs) ltac:(by apply Forall_take)) as Hu.
    by rewrite Hl4 in Hu. }
  set (n := le_dec (take 4 bs)) in *.
  pose proof (parses_n _ _ _ (Z.to_nat n) rd_obj_parses (drop 4 bs)
    ltac:(by apply Forall_drop)) as Hp.
  rewrite length_drop in Hp.
  destruct (Nat.leb_spec (Z.to_nat n * sizeof A) (length bs - 4)) as [Hs|Hs].
  - rewrite (proj2 (Nat.leb_le _ _)) by lia. destruct Hp as (xs & Hr & Hlen & He).
    exists xs. rewrite Hr, drop_drop. split; [done|]. unfold u_ok in Hn. split; [done|]. split; [lia|].
    assert (enc_scalar CU32 n = take 4 bs) as ->.
    { apply (enc_dec_scalar CU32); [by apply Forall_take|done]. }
    rewrite He. by rewrite take_take_drop.
  - rewrite (proj2 (Nat.leb_gt _ _)) by lia. by rewrite Hp.
Qed.

(** A whole message: the count, the objects, trailing fields, and the final
    assertion that the iterator has reached the end of the message. *)
Lemma counted_msg_cases {A} `{CStruct A} {T B} (rd_tail : reader T) (e_tail : T → bytes) st
    (k : Z → list A → T → B) bs :
  parses rd_tail e_tail st → Forall byte_ok bs →
  let n := le_dec (take 4 bs) in
  let need := 4 + Z.to_nat n * sizeof A + st in
  let r := '(n, it) ← rd_scalar CU32 bs; '(xs, it) ← rd_arr n it;
           '(t, it) ← rd_tail it; at_end it;; Ret (k n xs t) in
  if length bs <? need then r = Undef
  else if need <? length bs then r = Abort
  else ∃ xs t, r = Ret (k n xs t) ∧ u_ok 32 n ∧ Z.of_nat (length xs) = n ∧
       enc_scalar CU32 n ++ concat (enc_obj <$> xs) ++ e_tail t = bs.
Proof.
  intros Hp Hb n need.
  pose proof (rd_counted_cases (λ n (xs : list A) it,
    '(t, it) ← rd_tail it; at_end it;; Ret (k n xs t)) bs Hb) as H0.
  cbv zeta in H0 |- *. fold n in H0.
  pose proof (eq_refl need) as Hneed. unfold need at 2 in Hneed. clearbody need.
  set (off := 4 + Z.to_nat n * sizeof A) in *.
  destruct (Nat.leb_spec 4 (length bs)) as [H4|H4]; cbn [andb] in H0.
  2:{ rewrite H0. rewrite (proj2 (Nat.ltb_lt _ _)) by lia. done. }
  destruct (Nat.leb_spec off (length bs)) as [Hs|Hs].
  2:{ rewrite H0. rewrite (proj2 (Nat.ltb_lt _ _)) by lia. done. }
  destruct H0 as (xs & -> & Hn & Hlen & He).
  specialize (Hp (drop off bs) ltac:(by apply Forall_drop)). rewrite length_drop in Hp.
  destruct (Nat.leb_spec st (length bs - off)) as [Ht|Ht].
  2:{ rewrite Hp. rewrite (proj2 (Nat.ltb_lt _ _)) by lia. done. }
  rewrite (proj2 (Nat.ltb_ge _ need)) by lia.
  destruct Hp as (t & -> & Het). rewrite outcome_bind_ret_l. cbv beta iota.
  unfold at_end. rewrite !length_drop, c_assert_bind.
  destruct (Nat.ltb_spec need (length bs)) as [Hlong|Hex].
  { rewrite (proj2 (Nat.eqb_neq _ _)) by lia. done. }
  rewrite (proj2 (Nat.eqb_eq _ _)) by lia. exists xs, t. do 3 (split; [done|]).
  rewrite (assoc_L (++)), He, Het, (take_ge (drop off bs)) by (rewrite length_drop; lia).
  apply take_drop.
Qed.

(** The encoder of such a message writes it when the buffer has its size. *)
Lemma counted_msg_enc {A} `{CStruct A} n (xs : list A) w_tail tail sz :
  Z.of_nat (length xs) = n → writes w_tail tail →
  sz = length (enc_scalar CU32 n ++ concat (enc_obj <$> xs) ++ tail) →
  fill_buffer sz (w_scalar CU32 n >>> w_arr n xs >>> w_tail) =
    Ret (enc_scalar CU32 n ++ concat (enc_obj <$> xs) ++ tail).
Proof.
  intros Hl Hw ->. apply fill_buffer_writes. rewrite (assoc_L (++)).
  repeat apply writes_seq; [apply writes_scalar|by apply writes_arr|done].
Qed.

Lemma length_counted {A} `{CStruct A} n (xs : list A) tail : Forall c_ok xs →
  length (enc_scalar CU32 n ++ concat (enc_obj <$> xs) ++ tail) =
  4 + length xs * sizeof A + length tail.
Proof.
  intros Hxs. rewrite !length_app, length_enc_scalar, length_enc_objs by done. cbn [csize]. lia.
Qed.

(** The same on the bytes an encoder wrote. *)
Lemma rd_counted_enc {A} `{CStruct A} n (xs : list A) rest {B} (k : Z → list A → bytes → outcome B) :
  u_ok 32 n → Z.of_nat (length xs) = n → Forall c_ok xs →
  ('(n, it) ← rd_scalar CU32 (enc_scalar CU32 n ++ concat (enc_obj <$> xs) ++ rest);
   '(xs, it) ← rd_arr n it; k n xs it) = k n xs rest.
Proof.
  intros Hn Hl Hx. rewrite rd_scalar_enc by done. cbn. unfold rd_arr.
  subst n. rewrite Nat2Z.id. by rewrite rd_objs_enc.
Qed.

(** The encoder of a message that is one object. *)
Lemma fill_copy `{CStruct A} (a : A) n : c_ok a → n = sizeof A →
  fill_buffer n (w_copy (enc_obj a) n) = Ret (enc_obj a).
Proof.
  intros Ha ->. rewrite <-(length_enc_obj a Ha). apply fill_buffer_writes. by apply w_copy_whole.
Qed.

Lemma fill_scalar t v n : n = csize t → fill_buffer n (w_scalar t v) = Ret (enc_scalar t v).
Proof. intros ->. rewrite <-(length_enc_scalar t v). apply fill_buffer_writes, writes_scalar. Qed.

Lemma rd_scalar_whole t v : cval_ok t v → rd_scalar t (enc_scalar t v) = Ret (v, []).
Proof.
  intros Hv. pose proof (rd_scalar_enc t v Hv []) as Hr. by rewrite app_nil_r in Hr.
Qed.
