(* ===== verification/RlcPlain.v ===== *)
(** * RLC service model: data, copies, comparison and plain codec

    [src/src/sm/rlc_sm/ie/rlc_data_ie.h] and [.c], [enc/rlc_enc_plain.c],
    [dec/rlc_dec_plain.c]. *)
From S2P Require Import Prelude CLayout SmCodec.

(** ** Data *)

Record rlc_event_trigger_t := mk_rlc_event_trigger_t { et_ms : Z }.
#[export] Instance rlc_event_trigger_t_struct : CStruct rlc_event_trigger_t :=
  u32_struct mk_rlc_event_trigger_t et_ms (λ '(mk_rlc_event_trigger_t z), eq_refl) (λ _, eq_refl).

Record rlc_ind_hdr_t := mk_rlc_ind_hdr_t { ih_dummy : Z }.
#[export] Instance rlc_ind_hdr_t_struct : CStruct rlc_ind_hdr_t :=
  u32_struct mk_rlc_ind_hdr_t ih_dummy (λ '(mk_rlc_ind_hdr_t z), eq_refl) (λ _, eq_refl).

Record rlc_call_proc_id_t := mk_rlc_call_proc_id_t { cpi_dummy : Z }.
#[export] Instance rlc_call_proc_id_t_struct : CStruct rlc_call_proc_id_t :=
  u32_struct mk_rlc_call_proc_id_t cpi_dummy (λ '(mk_rlc_call_proc_id_t z), eq_refl) (λ _, eq_refl).

Record rlc_ctrl_hdr_t := mk_rlc_ctrl_hdr_t { ch_dummy : Z }.
#[export] Instance rlc_ctrl_hdr_t_struct : CStruct rlc_ctrl_hdr_t :=
  u32_struct mk_rlc_ctrl_hdr_t ch_dummy (λ '(mk_rlc_ctrl_hdr_t z), eq_refl) (λ _, eq_refl).

Record rlc_ctrl_msg_t := mk_rlc_ctrl_msg_t { cm_action : Z }.
#[export] Instance rlc_ctrl_msg_t_struct : CStruct rlc_ctrl_msg_t :=
  u32_struct mk_rlc_ctrl_msg_t cm_action (λ '(mk_rlc_ctrl_msg_t z), eq_refl) (λ _, eq_refl).

(** The statistics of one radio bearer. *)
Record rlc_radio_bearer_stats_t := mk_rlc_radio_bearer_stats_t {
  txpdu_pkts : Z; txpdu_bytes : Z; txpdu_wt_ms : Z; txpdu_dd_pkts : Z;
  txpdu_dd_bytes : Z; txpdu_retx_pkts : Z; txpdu_retx_bytes : Z; txpdu_segmented : Z;
  txpdu_status_pkts : Z; txpdu_status_bytes : Z; txbuf_occ_bytes : Z;
  txbuf_occ_pkts : Z; rxpdu_pkts : Z; rxpdu_bytes : Z; rxpdu_dup_pkts : Z;
  rxpdu_dup_bytes : Z; rxpdu_dd_pkts : Z; rxpdu_dd_bytes : Z; rxpdu_ow_pkts : Z;
  rxpdu_ow_bytes : Z; rxpdu_status_pkts : Z; rxpdu_status_bytes : Z;
  rxbuf_occ_bytes : Z; rxbuf_occ_pkts : Z; txsdu_pkts : Z; txsdu_bytes : Z;
  txsdu_avg_time_to_tx : Z; txsdu_wt_us : Z; rxsdu_pkts : Z; rxsdu_bytes : Z;
  rxsdu_dd_pkts : Z; rxsdu_dd_bytes : Z; rnti : Z; mode : Z; rbid : Z;
  rlc_radio_bearer_stats_t_pad : bytes }.

#[export, program] Instance rlc_radio_bearer_stats_t_struct : CStruct rlc_radio_bearer_stats_t := {|
  c_layout := struct_layout [
    CU32; CU32; CU32; CU32; CU32; CU32; CU32; CU32; CU32; CU32; CU32; CU32; CU32; CU32;
    CU32; CU32; CU32; CU32; CU32; CU32; CU32; CU32; CU32; CU32; CU32; CU64; CF64; CU32;
    CU32; CU64; CU32; CU32; CU32; CU8; CU8];
  c_vals a := [
    txpdu_pkts a; txpdu_bytes a; txpdu_wt_ms a; txpdu_dd_pkts a; txpdu_dd_bytes a;
    txpdu_retx_pkts a; txpdu_retx_bytes a; txpdu_segmented a; txpdu_status_pkts a;
    txpdu_status_bytes a; txbuf_occ_bytes a; txbuf_occ_pkts a; rxpdu_pkts a;
    rxpdu_bytes a; rxpdu_dup_pkts a; rxpdu_dup_bytes a; rxpdu_dd_pkts a;
    rxpdu_dd_bytes a; rxpdu_ow_pkts a; rxpdu_ow_bytes a; rxpdu_status_pkts a;
    rxpdu_status_bytes a; rxbuf_occ_bytes a; rxbuf_occ_pkts a; txsdu_pkts a;
    txsdu_bytes a; txsdu_avg_time_to_tx a; txsdu_wt_us a; rxsdu_pkts a; rxsdu_bytes a;
    rxsdu_dd_pkts a; rxsdu_dd_bytes a; rnti a; mode a; rbid a];
  c_pad a := rlc_radio_bearer_stats_t_pad a;
  c_make vs pad := mk_rlc_radio_bearer_stats_t
    (nth 0 vs 0%Z) (nth 1 vs 0%Z) (nth 2 vs 0%Z) (nth 3 vs 0%Z) (nth 4 vs 0%Z)
    (nth 5 vs 0%Z) (nth 6 vs 0%Z) (nth 7 vs 0%Z) (nth 8 vs 0%Z) (nth 9 vs 0%Z)
    (nth 10 vs 0%Z) (nth 11 vs 0%Z) (nth 12 vs 0%Z) (nth 13 vs 0%Z) (nth 14 vs 0%Z)
    (nth 15 vs 0%Z) (nth 16 vs 0%Z) (nth 17 vs 0%Z) (nth 18 vs 0%Z) (nth 19 vs 0%Z)
    (nth 20 vs 0%Z) (nth 21 vs 0%Z) (nth 22 vs 0%Z) (nth 23 vs 0%Z) (nth 24 vs 0%Z)
    (nth 25 vs 0%Z) (nth 26 vs 0%Z) (nth 27 vs 0%Z) (nth 28 vs 0%Z) (nth 29 vs 0%Z)
    (nth 30 vs 0%Z) (nth 31 vs 0%Z) (nth 32 vs 0%Z) (nth 33 vs 0%Z) (nth 34 vs 0%Z) pad |}.
Next Obligation. c_struct_laws. Qed.
Next Obligation. c_struct_laws. Qed.

Lemma sizeof_rlc_radio_bearer_stats_t : sizeof rlc_radio_bearer_stats_t = 152.
Proof. reflexivity. Qed.

(** [rb] is the array the pointer of the message points to; [len] is what the
    message says its length is. *)
Record rlc_ind_msg_t := mk_rlc_ind_msg_t {
  rb : list rlc_radio_bearer_stats_t;
  len : Z;
  tstamp : Z }.

Record rlc_ind_data_t := mk_rlc_ind_data_t {
  ind_hdr : rlc_ind_hdr_t;
  ind_msg : rlc_ind_msg_t;
  ind_proc_id : option rlc_call_proc_id_t }.

(** A message the RAN can hand over: the count is the length of the array and
    every field is a value of its type. *)
Definition rlc_ind_msg_ok (m : rlc_ind_msg_t) : Prop :=
  u_ok 32 (len m) ∧ Z.of_nat (length (rb m)) = len m ∧
  Forall c_ok (rb m) ∧ cval_ok CI64 (tstamp m).

#[export] Instance rlc_ind_msg_ok_dec m : Decision (rlc_ind_msg_ok m).
Proof. unfold rlc_ind_msg_ok. apply _. Defined.

(** ** [rlc_data_ie.c] *)

Definition cp_rlc_ind_hdr (src : rlc_ind_hdr_t) : rlc_ind_hdr_t :=
  mk_rlc_ind_hdr_t (ih_dummy src).
Definition eq_rlc_ind_hdr (m0 m1 : rlc_ind_hdr_t) : bool := (ih_dummy m0 =? ih_dummy m1)%Z.

Definition cp_rlc_ind_msg (src : rlc_ind_msg_t) : outcome rlc_ind_msg_t :=
  cp ← (if (0 <? len src)%Z then arr_prefix (len src) (rb src) else Ret []);
  Ret (mk_rlc_ind_msg_t cp (len src) (tstamp src)).

(** The comparison of one bearer in [eq_rlc_ind_msg]. *)
Definition eq_rlc_bearer (rb0 rb1 : rlc_radio_bearer_stats_t) : bool :=
  (txpdu_pkts rb0 =? txpdu_pkts rb1)%Z &&
  (txpdu_bytes rb0 =? txpdu_bytes rb1)%Z &&
  (txpdu_wt_ms rb0 =? txpdu_wt_ms rb1)%Z &&
  (txpdu_dd_pkts rb0 =? txpdu_dd_pkts rb1)%Z &&
  (txpdu_dd_bytes rb0 =? txpdu_dd_bytes rb1)%Z &&
  (txpdu_retx_pkts rb0 =? txpdu_retx_pkts rb1)%Z &&
  (txpdu_retx_bytes rb0 =? txpdu_retx_bytes rb1)%Z &&
  (txpdu_segmented rb0 =? txpdu_segmented rb1)%Z &&
  (txpdu_status_pkts rb0 =? txpdu_status_pkts rb1)%Z &&
  (txpdu_status_bytes rb0 =? txpdu_status_bytes rb1)%Z &&
  (txbuf_occ_bytes rb0 =? txbuf_occ_bytes rb1)%Z &&
  (txbuf_occ_pkts rb0 =? txbuf_occ_pkts rb1)%Z &&
  (rxpdu_pkts rb0 =? rxpdu_pkts rb1)%Z &&
  (rxpdu_bytes rb0 =? rxpdu_bytes rb1)%Z &&
  (rxpdu_dup_pkts rb0 =? rxpdu_dup_pkts rb1)%Z &&
  (rxpdu_dup_bytes rb0 =? rxpdu_dup_bytes rb1)%Z &&
  (rxpdu_dd_pkts rb0 =? rxpdu_dd_pkts rb1)%Z &&
  (rxpdu_dd_bytes rb0 =? rxpdu_dd_bytes rb1)%Z &&
  (rxpdu_ow_pkts rb0 =? rxpdu_ow_pkts rb1)%Z &&
  (rxpdu_ow_bytes rb0 =? rxpdu_ow_bytes rb1)%Z &&
  (rxpdu_status_pkts rb0 =? rxpdu_status_pkts rb1)%Z &&
  (rxpdu_status_bytes rb0 =? rxpdu_status_bytes rb1)%Z &&
  (rxbuf_occ_bytes rb0 =? rxbuf_occ_bytes rb1)%Z &&
  (rxbuf_occ_pkts rb0 =? rxbuf_occ_pkts rb1)%Z &&
  (txsdu_pkts rb0 =? txsdu_pkts rb1)%Z &&
  (txsdu_bytes rb0 =? txsdu_bytes rb1)%Z &&
  (rxsdu_pkts rb0 =? rxsdu_pkts rb1)%Z &&
  (rxsdu_bytes rb0 =? rxsdu_bytes rb1)%Z &&
  (rxsdu_dd_pkts rb0 =? rxsdu_dd_pkts rb1)%Z &&
  (rxsdu_dd_bytes rb0 =? rxsdu_dd_bytes rb1)%Z &&
  (rnti rb0 =? rnti rb1)%Z &&
  (mode rb0 =? mode rb1)%Z &&
  (rbid rb0 =? rbid rb1)%Z.

Definition eq_rlc_ind_msg (m0 m1 : rlc_ind_msg_t) : outcome bool :=
  if negb (tstamp m0 =? tstamp m1)%Z || negb (len m0 =? len m1)%Z then Ret false
  else eq_arr eq_rlc_bearer (Z.to_nat (len m0)) (rb m0) (rb m1).

Definition cp_rlc_call_proc_id (src : rlc_call_proc_id_t) : rlc_call_proc_id_t :=
  mk_rlc_call_proc_id_t (cpi_dummy src).

Definition eq_rlc_call_proc_id (m0 m1 : option rlc_call_proc_id_t) : bool :=
  match m0, m1 with
  | None, None => true
  | Some m0, Some m1 => (cpi_dummy m0 =? cpi_dummy m1)%Z
  | _, _ => false
  end.

Definition cp_rlc_ind_data (src : rlc_ind_data_t) : outcome rlc_ind_data_t :=
  msg ← cp_rlc_ind_msg (ind_msg src);
  Ret (mk_rlc_ind_data_t (cp_rlc_ind_hdr (ind_hdr src)) msg
         (cp_rlc_call_proc_id <$> ind_proc_id src)).

(** ** [rlc_enc_plain.c] *)

Definition rlc_enc_event_trigger_plain (event_trigger : rlc_event_trigger_t) : outcome bytes :=
  fill_buffer 4 (w_scalar CU32 (et_ms event_trigger)).

Definition rlc_enc_action_def_plain {A} (action_def : A) : outcome bytes := Abort.

Definition rlc_enc_ind_hdr_plain (ind_hdr : rlc_ind_hdr_t) : outcome bytes :=
  fill_buffer (sizeof rlc_ind_hdr_t) (w_copy (enc_obj ind_hdr) (sizeof rlc_ind_hdr_t)).

Definition rlc_enc_ind_msg_plain (ind_msg : rlc_ind_msg_t) : outcome bytes :=
  let sz := wrap 64 (4 + Z.of_nat (sizeof rlc_radio_bearer_stats_t) * len ind_msg + 8) in
  fill_buffer (Z.to_nat sz)
    (w_scalar CU32 (len ind_msg) >>>
     w_arr (len ind_msg) (rb ind_msg) >>>
     w_scalar CI64 (tstamp ind_msg)).

Definition rlc_enc_call_proc_id_plain {A} (call_proc_id : A) : outcome bytes := Abort.

Definition rlc_enc_ctrl_hdr_plain (ctrl_hdr : rlc_ctrl_hdr_t) : outcome bytes :=
  fill_buffer (sizeof rlc_ctrl_hdr_t) (w_copy (enc_obj ctrl_hdr) (sizeof rlc_ctrl_hdr_t)).

(** The size is that of the control header, as in the code. *)
Definition rlc_enc_ctrl_msg_plain (ctrl_msg : rlc_ctrl_msg_t) : outcome bytes :=
  fill_buffer (sizeof rlc_ctrl_hdr_t) (w_copy (enc_obj ctrl_msg) (sizeof rlc_ctrl_hdr_t)).

Definition rlc_enc_ctrl_out_plain {A} (ctrl : A) : outcome bytes := Abort.
Definition rlc_enc_func_def_plain {A} (func : A) : outcome bytes := Abort.

(** ** [rlc_dec_plain.c] *)

Definition rlc_dec_event_trigger_plain (ev_tr : bytes) : outcome rlc_event_trigger_t :=
  '(ms, _) ← rd_scalar CU32 ev_tr;
  Ret (mk_rlc_event_trigger_t ms).

Definition rlc_dec_action_def_plain {A} (action_def : bytes) : outcome A := Abort.

Definition rlc_dec_ind_hdr_plain (ind_hdr : bytes) : outcome rlc_ind_hdr_t := dec_whole ind_hdr.

(** The size of [rlc_ind_msg_t] less that of its pointer is 24 - 8. *)
Definition rlc_dec_ind_msg_plain (ind_msg : bytes) : outcome rlc_ind_msg_t :=
  c_assert (16 <=? next_pow2 (Z.of_nat (length ind_msg)))%Z;;
  '(len, it) ← rd_scalar CU32 ind_msg;
  '(rb, it) ← rd_arr len it;
  '(tstamp, it) ← rd_scalar CI64 it;
  at_end it;;
  Ret (mk_rlc_ind_msg_t rb len tstamp).

Definition rlc_dec_call_proc_id_plain {A} (call_proc_id : bytes) : outcome A := Abort.

Definition rlc_dec_ctrl_hdr_plain (ctrl_hdr : bytes) : outcome rlc_ctrl_hdr_t := dec_whole ctrl_hdr.
Definition rlc_dec_ctrl_msg_plain (ctrl_msg : bytes) : outcome rlc_ctrl_msg_t := dec_whole ctrl_msg.
Definition rlc_dec_ctrl_out_plain {A} (ctrl_out : bytes) : outcome A := Abort.
Definition rlc_dec_func_def_plain {A} (func_def : bytes) : outcome A := Abort.

(** ** Properties *)

(** The bytes of an indication message. *)
Definition rlc_ind_msg_bytes (m : rlc_ind_msg_t) : bytes :=
  enc_scalar CU32 (len m) ++ concat (enc_obj <$> rb m) ++ enc_scalar CI64 (tstamp m).

Lemma length_rlc_ind_msg_bytes m : rlc_ind_msg_ok m →
  length (rlc_ind_msg_bytes m) = 12 + 152 * length (rb m).
Proof.
  intros (_ & _ & Hrb & _). unfold rlc_ind_msg_bytes. rewrite length_counted by done.
  rewrite length_enc_scalar, sizeof_rlc_radio_bearer_stats_t. cbn [csize]. lia.
Qed.

Lemma rlc_enc_ind_msg_bytes m :
  u_ok 32 (len m) → Z.of_nat (length (rb m)) = len m →
  length (rlc_ind_msg_bytes m) = 12 + 152 * length (rb m) →
  rlc_enc_ind_msg_plain m = Ret (rlc_ind_msg_bytes m).
Proof.
  intros Hn Hl Hlen. apply counted_msg_enc; [done|apply writes_scalar|].
  fold (rlc_ind_msg_bytes m). rewrite sizeof_rlc_radio_bearer_stats_t, wrap_id.
  - lia.
  - unfold u_ok in *. change (2 ^ 32)%Z with 4294967296%Z in Hn.
    change (2 ^ 64)%Z with 18446744073709551616%Z. lia.
Qed.

(** Encoding an indication message the RAN hands over succeeds, takes 12 bytes
    and 152 per bearer, and decoding it gives the message back. *)
Theorem rlc_ind_msg_roundtrip m : rlc_ind_msg_ok m →
  ∃ bs, rlc_enc_ind_msg_plain m = Ret bs ∧
        length bs = 12 + 152 * length (rb m) ∧
        rlc_dec_ind_msg_plain bs = Ret m.
Proof.
  intros Hm. pose proof (length_rlc_ind_msg_bytes m Hm) as Hlen.
  destruct Hm as (Hn & Hl & Hrb & Ht). exists (rlc_ind_msg_bytes m).
  split; [by apply rlc_enc_ind_msg_bytes|]. split; [done|].
  unfold rlc_dec_ind_msg_plain. rewrite Hlen.
  rewrite (next_pow2_ge 3 16) by (unfold u_ok in Hn; lia).
  rewrite (proj2 (Z.ltb_lt _ _)), c_assert_bind by lia.
  unfold rlc_ind_msg_bytes. rewrite rd_counted_enc by done.
  rewrite <-(app_nil_r (enc_scalar CI64 _)), rd_scalar_enc by done. by destruct m.
Qed.

(** What decoding does with any bytes: up to 8 bytes are rejected by the
    length check; a message shorter than its bearer count says is read past its
    end; one that is longer fails the final assertion; and the bytes of any
    other message are what encoding the decoded message writes. *)
Theorem rlc_dec_ind_msg_cases bs :
  Forall byte_ok bs → (Z.of_nat (length bs) ≤ 2 ^ 63)%Z →
  let need := 12 + 152 * Z.to_nat (le_dec (take 4 bs)) in
  if length bs <=? 8 then rlc_dec_ind_msg_plain bs = Abort
  else if length bs <? need then rlc_dec_ind_msg_plain bs = Undef
  else if need <? length bs then rlc_dec_ind_msg_plain bs = Abort
  else ∃ m, rlc_dec_ind_msg_plain bs = Ret m ∧ rlc_enc_ind_msg_plain m = Ret bs.
Proof.
  intros Hb Hl need. unfold rlc_dec_ind_msg_plain.
  pose proof (eq_refl need) as Hneed. unfold need at 2 in Hneed. clearbody need.
  rewrite (next_pow2_ge 3 16) by lia.
  destruct (Nat.leb_spec (length bs) 8) as [H8|H8].
  { rewrite (proj2 (Z.ltb_ge _ _)) by lia. done. }
  rewrite (proj2 (Z.ltb_lt _ _)), c_assert_bind by lia.
  pose proof (counted_msg_cases _ _ _ (λ n xs t, mk_rlc_ind_msg_t xs n t) bs
    (parses_scalar CI64) Hb) as H.
  rewrite sizeof_rlc_radio_bearer_stats_t in H. cbv zeta in H. change (csize CI64) with 8 in H.
  replace (4 + _ + 8) with need in H by lia.
  destruct (length bs <? need) eqn:Hs; [done|]. destruct (need <? length bs) eqn:Hlong; [done|].
  apply Nat.ltb_ge in Hs, Hlong.
  destruct H as (xs & t & -> & Hn & Hl' & He). eexists. split; [done|].
  transitivity (Ret (enc_scalar CU32 (le_dec (take 4 bs)) ++ concat (enc_obj <$> xs) ++
    enc_scalar CI64 t)); [|by rewrite He].
  apply (rlc_enc_ind_msg_bytes (mk_rlc_ind_msg_t xs _ t)); [exact Hn|exact Hl'|].
  unfold rlc_ind_msg_bytes. cbn [len rb tstamp]. rewrite He. lia.
Qed.

(** *** Fixed-size messages *)

Lemma rlc_fixed_size_roundtrips :
  (∀ et, c_ok et → ∃ bs, rlc_enc_event_trigger_plain et = Ret bs ∧
                         rlc_dec_event_trigger_plain bs = Ret et) ∧
  (∀ ih, c_ok ih → ∃ bs, rlc_enc_ind_hdr_plain ih = Ret bs ∧ rlc_dec_ind_hdr_plain bs = Ret ih) ∧
  (∀ ch, c_ok ch → ∃ bs, rlc_enc_ctrl_hdr_plain ch = Ret bs ∧ rlc_dec_ctrl_hdr_plain bs = Ret ch) ∧
  (∀ cm, c_ok cm → ∃ bs, rlc_enc_ctrl_msg_plain cm = Ret bs ∧ rlc_dec_ctrl_msg_plain bs = Ret cm).
Proof.
  repeat split; [|intros a Ha; exists (enc_obj a); split;
    [by apply fill_copy|by apply dec_whole_enc]..].
  intros [ms] [Hv _]. inversion_clear Hv as [|? ? ? ? Hms _]. exists (enc_scalar CU32 ms).
  split; [by apply fill_scalar|]. unfold rlc_dec_event_trigger_plain. by rewrite rd_scalar_whole.
Qed.

(** *** Copies and comparison *)

Lemma cp_rlc_ind_msg_ok m : rlc_ind_msg_ok m → cp_rlc_ind_msg m = Ret m.
Proof.
  intros (_ & Hl & _). unfold cp_rlc_ind_msg. destruct m as [rb len t]; cbn in *.
  destruct (Z.ltb_spec 0 len).
  - by rewrite arr_prefix_all.
  - destruct rb; [done|cbn in Hl; lia].
Qed.

(** The values [eq_rlc_ind_msg] compares of a bearer: all but
    [txsdu_avg_time_to_tx] and [txsdu_wt_us], the 26th and 27th fields. *)
Definition rlc_bearer_compared (b : rlc_radio_bearer_stats_t) : list Z :=
  delete 26 (delete 26 (c_vals b)).

Lemma eq_rlc_bearer_spec b0 b1 :
  eq_rlc_bearer b0 b1 = true ↔ rlc_bearer_compared b0 = rlc_bearer_compared b1.
Proof.
  unfold eq_rlc_bearer. rewrite !andb_true_iff, !Z.eqb_eq. cbn. split.
  - intros H. destruct_and!. congruence.
  - intros [=]. tauto.
Qed.

(** [eq_rlc_ind_msg] answers on every pair of messages, and answers that they
    are equal exactly when time stamp, count and the compared fields of every
    bearer agree. *)
Theorem eq_rlc_ind_msg_spec m0 m1 : rlc_ind_msg_ok m0 → rlc_ind_msg_ok m1 →
  ∃ b, eq_rlc_ind_msg m0 m1 = Ret b ∧
       (b = true ↔ tstamp m0 = tstamp m1 ∧
                   rlc_bearer_compared <$> rb m0 = rlc_bearer_compared <$> rb m1).
Proof.
  intros (_ & Hl0 & _) (_ & Hl1 & _). unfold eq_rlc_ind_msg.
  destruct (Z.eqb_spec (tstamp m0) (tstamp m1)) as [Ht|Ht]; cbn [negb orb].
  2:{ exists false. split; [done|]. split; [done|]. by intros [? _]. }
  destruct (Z.eqb_spec (len m0) (len m1)) as [He|He]; cbn [negb].
  - rewrite <-Hl0, Nat2Z.id.
    destruct (eq_arr_spec _ _ (rb m0) (rb m1) eq_rlc_bearer_spec ltac:(lia)) as (b & Hb & Hbi).
    exists b. split; [done|]. rewrite Hbi. tauto.
  - exists false. split; [done|]. split; [done|]. intros [_ H].
    apply (f_equal length) in H. rewrite !length_fmap in H. lia.
Qed.

(** The two fields that are not compared: messages that differ in the
    head-of-line delay and are encoded differently compare as equal. *)
Definition rlc_zero_bearer (wt_us : Z) : rlc_radio_bearer_stats_t :=
  c_make (<[27 := wt_us]> (replicate 35 0%Z)) (replicate 6 0%Z).
Definition rlc_one_bearer_msg (wt_us : Z) : rlc_ind_msg_t :=
  mk_rlc_ind_msg_t [rlc_zero_bearer wt_us] 1 0.

(** Two messages that [eq_rlc_ind_msg] calls equal and the encoder does not. *)
Theorem eq_rlc_ind_msg_ignores_delay :
  ∃ m0 m1, rlc_ind_msg_ok m0 ∧ rlc_ind_msg_ok m1 ∧ eq_rlc_ind_msg m0 m1 = Ret true ∧
           rlc_enc_ind_msg_plain m0 ≠ rlc_enc_ind_msg_plain m1.
Proof.
  exists (rlc_one_bearer_msg 0), (rlc_one_bearer_msg 1).
  do 2 (split; [by_eval|]). split; [by vm_compute|by vm_compute].
Qed.

(** *** Witnesses *)

Lemma rlc_ind_msg_roundtrip_witness :
  rlc_ind_msg_ok (rlc_one_bearer_msg 7) ∧
  ∃ bs, rlc_enc_ind_msg_plain (rlc_one_bearer_msg 7) = Ret bs ∧ length bs = 164 ∧
        rlc_dec_ind_msg_plain bs = Ret (rlc_one_bearer_msg 7).
Proof.
  assert (rlc_ind_msg_ok (rlc_one_bearer_msg 7)) as H by by_eval.
  split; [exact H|]. exact (rlc_ind_msg_roundtrip _ H).
Defined.

(** Nine bytes pass the length check and are read past their end. *)
Lemma rlc_dec_ind_msg_cases_witness :
  Forall byte_ok (replicate 9 0%Z) ∧ rlc_dec_ind_msg_plain (replicate 9 0%Z) = Undef.
Proof.
  assert (Forall byte_ok (replicate 9 0%Z)) as H by by_eval.
  split; [exact H|]. exact (rlc_dec_ind_msg_cases (replicate 9 0%Z) H ltac:(cbn; lia)).
Defined.

Lemma eq_rlc_ind_msg_spec_witness :
  ∃ b, eq_rlc_ind_msg (rlc_one_bearer_msg 7) (rlc_one_bearer_msg 8) = Ret b ∧
       (b = true ↔ (0 = 0)%Z ∧ rlc_bearer_compared <$> rb (rlc_one_bearer_msg 7) =
                               rlc_bearer_compared <$> rb (rlc_one_bearer_msg 8)).
Proof. apply (eq_rlc_ind_msg_spec (rlc_one_bearer_msg 7) (rlc_one_bearer_msg 8)); by_eval. Defined.
