(* ===== verification/PdcpPlain.v ===== *)
(** * PDCP service model: data, invariants, copies, comparison and plain codec

    [src/src/sm/pdcp_sm/ie/pdcp_data_ie.h] and [.c], [enc/pdcp_enc_plain.c],
    [dec/pdcp_dec_plain.c]. *)
From S2P Require Import Prelude CLayout SmCodec.

(** ** Data *)

Record pdcp_event_trigger_t := mk_pdcp_event_trigger_t { et_ms : Z }.
#[export] Instance pdcp_event_trigger_t_struct : CStruct pdcp_event_trigger_t :=
  u32_struct mk_pdcp_event_trigger_t et_ms (λ '(mk_pdcp_event_trigger_t z), eq_refl) (λ _, eq_refl).

Record pdcp_ind_hdr_t := mk_pdcp_ind_hdr_t { ih_dummy : Z }.
#[export] Instance pdcp_ind_hdr_t_struct : CStruct pdcp_ind_hdr_t :=
  u32_struct mk_pdcp_ind_hdr_t ih_dummy (λ '(mk_pdcp_ind_hdr_t z), eq_refl) (λ _, eq_refl).

Record pdcp_call_proc_id_t := mk_pdcp_call_proc_id_t { cpi_dummy : Z }.
#[export] Instance pdcp_call_proc_id_t_struct : CStruct pdcp_call_proc_id_t :=
  u32_struct mk_pdcp_call_proc_id_t cpi_dummy (λ '(mk_pdcp_call_proc_id_t z), eq_refl) (λ _, eq_refl).

Record pdcp_ctrl_hdr_t := mk_pdcp_ctrl_hdr_t { ch_dummy : Z }.
#[export] Instance pdcp_ctrl_hdr_t_struct : CStruct pdcp_ctrl_hdr_t :=
  u32_struct mk_pdcp_ctrl_hdr_t ch_dummy (λ '(mk_pdcp_ctrl_hdr_t z), eq_refl) (λ _, eq_refl).

Record pdcp_ctrl_msg_t := mk_pdcp_ctrl_msg_t { cm_action : Z }.
#[export] Instance pdcp_ctrl_msg_t_struct : CStruct pdcp_ctrl_msg_t :=
  u32_struct mk_pdcp_ctrl_msg_t cm_action (λ '(mk_pdcp_ctrl_msg_t z), eq_refl) (λ _, eq_refl).

(** [pdcp_ctrl_out_t]: its only field is an enumeration, four bytes. *)
Record pdcp_ctrl_out_t := mk_pdcp_ctrl_out_t { co_ans : Z }.
#[export] Instance pdcp_ctrl_out_t_struct : CStruct pdcp_ctrl_out_t :=
  u32_struct mk_pdcp_ctrl_out_t co_ans (λ '(mk_pdcp_ctrl_out_t z), eq_refl) (λ _, eq_refl).

(** The statistics of one radio bearer. *)
Record pdcp_radio_bearer_stats_t := mk_pdcp_radio_bearer_stats_t {
  txpdu_pkts : Z; txpdu_bytes : Z; txpdu_sn : Z; rxpdu_pkts : Z; rxpdu_bytes : Z;
  rxpdu_sn : Z; rxpdu_oo_pkts : Z; rxpdu_oo_bytes : Z; rxpdu_dd_pkts : Z;
  rxpdu_dd_bytes : Z; rxpdu_ro_count : Z; txsdu_pkts : Z; txsdu_bytes : Z;
  rxsdu_pkts : Z; rxsdu_bytes : Z; rnti : Z; mode : Z; rbid : Z;
  pdcp_radio_bearer_stats_t_pad : bytes }.

#[export, program] Instance pdcp_radio_bearer_stats_t_struct : CStruct pdcp_radio_bearer_stats_t := {|
  c_layout := struct_layout [
    CU32; CU32; CU32; CU32; CU32; CU32; CU32; CU32; CU32; CU32; CU32; CU32; CU32; CU32;
    CU32; CU32; CU8; CU8];
  c_vals a := [
    txpdu_pkts a; txpdu_bytes a; txpdu_sn a; rxpdu_pkts a; rxpdu_bytes a; rxpdu_sn a;
    rxpdu_oo_pkts a; rxpdu_oo_bytes a; rxpdu_dd_pkts a; rxpdu_dd_bytes a;
    rxpdu_ro_count a; txsdu_pkts a; txsdu_bytes a; rxsdu_pkts a; rxsdu_bytes a; rnti a;
    mode a; rbid a];
  c_pad a := pdcp_radio_bearer_stats_t_pad a;
  c_make vs pad := mk_pdcp_radio_bearer_stats_t
    (nth 0 vs 0%Z) (nth 1 vs 0%Z) (nth 2 vs 0%Z) (nth 3 vs 0%Z) (nth 4 vs 0%Z)
    (nth 5 vs 0%Z) (nth 6 vs 0%Z) (nth 7 vs 0%Z) (nth 8 vs 0%Z) (nth 9 vs 0%Z)
    (nth 10 vs 0%Z) (nth 11 vs 0%Z) (nth 12 vs 0%Z) (nth 13 vs 0%Z) (nth 14 vs 0%Z)
    (nth 15 vs 0%Z) (nth 16 vs 0%Z) (nth 17 vs 0%Z) pad |}.
Next Obligation. c_struct_laws. Qed.
Next Obligation. c_struct_laws. Qed.

Lemma sizeof_pdcp_radio_bearer_stats_t : sizeof pdcp_radio_bearer_stats_t = 68.
Proof. reflexivity. Qed.

Record pdcp_ind_msg_t := mk_pdcp_ind_msg_t {
  len : Z;
  rb : list pdcp_radio_bearer_stats_t;
  tstamp : Z }.

Record pdcp_ind_data_t := mk_pdcp_ind_data_t {
  ind_hdr : pdcp_ind_hdr_t;
  ind_msg : pdcp_ind_msg_t;
  ind_proc_id : option pdcp_call_proc_id_t }.

Definition pdcp_ind_msg_ok (m : pdcp_ind_msg_t) : Prop :=
  u_ok 32 (len m) ∧ Z.of_nat (length (rb m)) = len m ∧
  Forall c_ok (rb m) ∧ cval_ok CI64 (tstamp m).

#[export] Instance pdcp_ind_msg_ok_dec m : Decision (pdcp_ind_msg_ok m).
Proof. unfold pdcp_ind_msg_ok. apply _. Defined.

(** ** [pdcp_data_ie.c] *)

Definition cp_pdcp_ind_hdr (src : pdcp_ind_hdr_t) : pdcp_ind_hdr_t :=
  mk_pdcp_ind_hdr_t (ih_dummy src).
Definition eq_pdcp_ind_hdr (m0 m1 : pdcp_ind_hdr_t) : bool := (ih_dummy m0 =? ih_dummy m1)%Z.

Definition check_pdcp_mode (mode : Z) : outcome bool :=
  c_assert ((mode =? 0) || (mode =? 1) || (mode =? 2))%Z;; Ret true.

Definition check_pdcp_rbid (rbid : Z) : outcome bool :=
  c_assert (rbid <? 11)%Z;; Ret true.

Definition check_pdcp_bearer (rb : pdcp_radio_bearer_stats_t) : outcome bool :=
  c_assert (txpdu_pkts rb <=? txpdu_bytes rb)%Z;;
  c_assert (rxpdu_pkts rb <=? rxpdu_bytes rb)%Z;;
  c_assert (txsdu_pkts rb <=? txsdu_bytes rb)%Z;;
  c_assert (rxsdu_pkts rb <=? rxsdu_bytes rb)%Z;;
  Ret true.

(** The loop of [check_pdcp_invariants] over the bearers. *)
Fixpoint check_pdcp_bearers (l : list pdcp_radio_bearer_stats_t) : outcome bool :=
  match l with
  | [] => Ret true
  | rb :: l' =>
      _ ← check_pdcp_mode (mode rb);
      _ ← check_pdcp_rbid (rbid rb);
      _ ← check_pdcp_bearer rb;
      check_pdcp_bearers l'
  end.

Definition check_pdcp_invariants (msg : pdcp_ind_msg_t) : outcome bool :=
  l ← arr_prefix (len msg) (rb msg);
  check_pdcp_bearers l.

Definition free_pdcp_ind_msg (msg : pdcp_ind_msg_t) : outcome unit :=
  b ← check_pdcp_invariants msg; c_assert b.

Definition cp_pdcp_ind_msg (src : pdcp_ind_msg_t) : outcome pdcp_ind_msg_t :=
  b ← check_pdcp_invariants src;
  c_assert b;;
  l ← (if (0 <? len src)%Z then arr_prefix (len src) (rb src) else Ret []);
  Ret (mk_pdcp_ind_msg_t (len src) l (tstamp src)).

(** The comparison of one bearer in [eq_pdcp_ind_msg]. *)
Definition eq_pdcp_bearer (rb0 rb1 : pdcp_radio_bearer_stats_t) : bool :=
  (txpdu_pkts rb0 =? txpdu_pkts rb1)%Z &&
  (txpdu_bytes rb0 =? txpdu_bytes rb1)%Z &&
  (txpdu_sn rb0 =? txpdu_sn rb1)%Z &&
  (rxpdu_pkts rb0 =? rxpdu_pkts rb1)%Z &&
  (rxpdu_bytes rb0 =? rxpdu_bytes rb1)%Z &&
  (rxpdu_sn rb0 =? rxpdu_sn rb1)%Z &&
  (rxpdu_oo_pkts rb0 =? rxpdu_oo_pkts rb1)%Z &&
  (rxpdu_oo_bytes rb0 =? rxpdu_oo_bytes rb1)%Z &&
  (rxpdu_dd_pkts rb0 =? rxpdu_dd_pkts rb1)%Z &&
  (rxpdu_dd_bytes rb0 =? rxpdu_dd_bytes rb1)%Z &&
  (rxpdu_ro_count rb0 =? rxpdu_ro_count rb1)%Z &&
  (txsdu_pkts rb0 =? txsdu_pkts rb1)%Z &&
  (txsdu_bytes rb0 =? txsdu_bytes rb1)%Z &&
  (rxsdu_pkts rb0 =? rxsdu_pkts rb1)%Z &&
  (rxsdu_bytes rb0 =? rxsdu_bytes rb1)%Z &&
  (rnti rb0 =? rnti rb1)%Z &&
  (mode rb0 =? mode rb1)%Z &&
  (rbid rb0 =? rbid rb1)%Z.

(** A difference is not answered: it fails the assertion before [return false]. *)
Definition eq_pdcp_ind_msg (m0 m1 : pdcp_ind_msg_t) : outcome bool :=
  b0 ← check_pdcp_invariants m0; c_assert b0;;
  b1 ← check_pdcp_invariants m1; c_assert b1;;
  if negb (tstamp m0 =? tstamp m1)%Z || negb (len m0 =? len m1)%Z then Abort
  else b ← eq_arr eq_pdcp_bearer (Z.to_nat (len m0)) (rb m0) (rb m1);
       c_assert b;; Ret true.

Definition cp_pdcp_call_proc_id (src : pdcp_call_proc_id_t) : pdcp_call_proc_id_t :=
  mk_pdcp_call_proc_id_t (cpi_dummy src).

Definition eq_pdcp_call_proc_id (m0 m1 : option pdcp_call_proc_id_t) : bool :=
  match m0, m1 with
  | None, None => true
  | Some m0, Some m1 => (cpi_dummy m0 =? cpi_dummy m1)%Z
  | _, _ => false
  end.

Definition cp_pdcp_ctrl_msg (src : pdcp_ctrl_msg_t) : pdcp_ctrl_msg_t :=
  mk_pdcp_ctrl_msg_t (cm_action src).
Definition eq_pdcp_ctrl_msg (m0 m1 : pdcp_ctrl_msg_t) : bool := (cm_action m0 =? cm_action m1)%Z.

Definition cp_pdcp_ind_data (src : pdcp_ind_data_t) : outcome pdcp_ind_data_t :=
  msg ← cp_pdcp_ind_msg (ind_msg src);
  Ret (mk_pdcp_ind_data_t (cp_pdcp_ind_hdr (ind_hdr src)) msg
         (cp_pdcp_call_proc_id <$> ind_proc_id src)).

(** ** [pdcp_enc_plain.c] *)

Definition pdcp_enc_event_trigger_plain (event_trigger : pdcp_event_trigger_t) : outcome bytes :=
  fill_buffer 4 (w_scalar CU32 (et_ms event_trigger)).

Definition pdcp_enc_action_def_plain {A} (action_def : A) : outcome bytes := Abort.

Definition pdcp_enc_ind_hdr_plain (ind_hdr : pdcp_ind_hdr_t) : outcome bytes :=
  fill_buffer (sizeof pdcp_ind_hdr_t) (w_copy (enc_obj ind_hdr) (sizeof pdcp_ind_hdr_t)).

Definition pdcp_enc_ind_msg_plain (ind_msg : pdcp_ind_msg_t) : outcome bytes :=
  let sz := wrap 64 (4 + 8 + Z.of_nat (sizeof pdcp_radio_bearer_stats_t) * len ind_msg) in
  fill_buffer (Z.to_nat sz)
    (w_scalar CU32 (len ind_msg) >>>
     w_arr (len ind_msg) (rb ind_msg) >>>
     w_scalar CI64 (tstamp ind_msg)).

Definition pdcp_enc_call_proc_id_plain {A} (call_proc_id : A) : outcome bytes := Abort.

Definition pdcp_enc_ctrl_hdr_plain (ctrl_hdr : pdcp_ctrl_hdr_t) : outcome bytes :=
  fill_buffer (sizeof pdcp_ctrl_hdr_t) (w_copy (enc_obj ctrl_hdr) (sizeof pdcp_ctrl_hdr_t)).

Definition pdcp_enc_ctrl_msg_plain (ctrl_msg : pdcp_ctrl_msg_t) : outcome bytes :=
  fill_buffer (sizeof pdcp_ctrl_msg_t) (w_copy (enc_obj ctrl_msg) (sizeof pdcp_ctrl_msg_t)).

Definition pdcp_enc_func_def_plain {A} (func : A) : outcome bytes := Abort.

Definition pdcp_enc_ctrl_out_plain (ctrl_out : pdcp_ctrl_out_t) : outcome bytes :=
  fill_buffer (sizeof pdcp_ctrl_out_t) (w_copy (enc_obj ctrl_out) (sizeof pdcp_ctrl_out_t)).

(** ** [pdcp_dec_plain.c] *)

Definition pdcp_dec_event_trigger_plain (ev_tr : bytes) : outcome pdcp_event_trigger_t :=
  '(ms, _) ← rd_scalar CU32 ev_tr;
  Ret (mk_pdcp_event_trigger_t ms).

Definition pdcp_dec_action_def_plain {A} (action_def : bytes) : outcome A := Abort.

Definition pdcp_dec_ind_hdr_plain (ind_hdr : bytes) : outcome pdcp_ind_hdr_t := dec_whole ind_hdr.

Definition pdcp_dec_ind_msg_plain (ind_msg : bytes) : outcome pdcp_ind_msg_t :=
  c_assert (4 + 8 <=? length ind_msg);;
  '(len, it) ← rd_scalar CU32 ind_msg;
  '(rb, it) ← rd_arr len it;
  '(tstamp, it) ← rd_scalar CI64 it;
  at_end it;;
  Ret (mk_pdcp_ind_msg_t len rb tstamp).

Definition pdcp_dec_call_proc_id_plain {A} (call_proc_id : bytes) : outcome A := Abort.
Definition pdcp_dec_ctrl_hdr_plain (ctrl_hdr : bytes) : outcome pdcp_ctrl_hdr_t := dec_whole ctrl_hdr.
Definition pdcp_dec_ctrl_msg_plain (ctrl_msg : bytes) : outcome pdcp_ctrl_msg_t := dec_whole ctrl_msg.
Definition pdcp_dec_func_def_plain {A} (func_def : bytes) : outcome A := Abort.

Definition pdcp_dec_ctrl_out_plain (ctrl_out : bytes) : outcome pdcp_ctrl_out_t :=
  c_assert (0 <? length ctrl_out);;
  dec_whole ctrl_out.

(** ** Properties *)

Definition pdcp_ind_msg_bytes (m : pdcp_ind_msg_t) : bytes :=
  enc_scalar CU32 (len m) ++ concat (enc_obj <$> rb m) ++ enc_scalar CI64 (tstamp m).

Lemma length_pdcp_ind_msg_bytes m : pdcp_ind_msg_ok m →
  length (pdcp_ind_msg_bytes m) = 12 + 68 * length (rb m).
Proof.
  intros (_ & _ & Hrb & _). unfold pdcp_ind_msg_bytes. rewrite length_counted by done.
  rewrite length_enc_scalar, sizeof_pdcp_radio_bearer_stats_t. cbn [csize]. lia.
Qed.

Lemma pdcp_enc_ind_msg_bytes m :
  u_ok 32 (len m) → Z.of_nat (length (rb m)) = len m →
  length (pdcp_ind_msg_bytes m) = 12 + 68 * length (rb m) →
  pdcp_enc_ind_msg_plain m = Ret (pdcp_ind_msg_bytes m).
Proof.
  intros Hn Hl Hlen. apply counted_msg_enc; [done|apply writes_scalar|].
  fold (pdcp_ind_msg_bytes m). rewrite sizeof_pdcp_radio_bearer_stats_t, wrap_id.
  - lia.
  - unfold u_ok in *. change (2 ^ 32)%Z with 4294967296%Z in Hn.
    change (2 ^ 64)%Z with 18446744073709551616%Z. lia.
Qed.

(** Encoding a PDCP indication message succeeds, takes 12 bytes and 68 per
    bearer, and decoding it gives the message back. *)
Theorem pdcp_ind_msg_roundtrip m : pdcp_ind_msg_ok m →
  ∃ bs, pdcp_enc_ind_msg_plain m = Ret bs ∧
        length bs = 12 + 68 * length (rb m) ∧
        pdcp_dec_ind_msg_plain bs = Ret m.
Proof.
  intros Hm. pose proof (length_pdcp_ind_msg_bytes m Hm) as Hlen.
  destruct Hm as (Hn & Hl & Hrb & Ht). exists (pdcp_ind_msg_bytes m).
  split; [by apply pdcp_enc_ind_msg_bytes|]. split; [done|].
  unfold pdcp_dec_ind_msg_plain. rewrite Hlen, (proj2 (Nat.leb_le _ _)), c_assert_bind by lia.
  unfold pdcp_ind_msg_bytes. rewrite rd_counted_enc by done.
  rewrite rd_scalar_whole by done. by destruct m.
Qed.

(** What decoding does with any bytes: fewer than 12 are rejected; a message
    shorter than its bearer count says is read past its end; a longer one fails
    the final assertion; any other is what encoding the decoded message writes. *)
Theorem pdcp_dec_ind_msg_cases bs :
  Forall byte_ok bs →
  let need := 12 + 68 * Z.to_nat (le_dec (take 4 bs)) in
  if length bs <? 12 then pdcp_dec_ind_msg_plain bs = Abort
  else if length bs <? need then pdcp_dec_ind_msg_plain bs = Undef
  else if need <? length bs then pdcp_dec_ind_msg_plain bs = Abort
  else ∃ m, pdcp_dec_ind_msg_plain bs = Ret m ∧ pdcp_enc_ind_msg_plain m = Ret bs.
Proof.
  intros Hb need. unfold pdcp_dec_ind_msg_plain.
  pose proof (eq_refl need) as Hneed. unfold need at 2 in Hneed. clearbody need.
  destruct (Nat.ltb_spec (length bs) 12) as [H8|H8].
  { rewrite (proj2 (Nat.leb_gt _ _)) by lia. done. }
  rewrite (proj2 (Nat.leb_le _ _)), c_assert_bind by lia.
  pose proof (counted_msg_cases _ _ _ (λ n xs t, mk_pdcp_ind_msg_t n xs t) bs
    (parses_scalar CI64) Hb) as H.
  rewrite sizeof_pdcp_radio_bearer_stats_t in H. cbv zeta in H. change (csize CI64) with 8 in H.
  replace (4 + _ + 8) with need in H by lia.
  destruct (length bs <? need) eqn:Hs; [done|]. destruct (need <? length bs) eqn:Hlong; [done|].
  apply Nat.ltb_ge in Hs, Hlong.
  destruct H as (xs & t & -> & Hn & Hl' & He). eexists. split; [done|].
  transitivity (Ret (enc_scalar CU32 (le_dec (take 4 bs)) ++ concat (enc_obj <$> xs) ++
    enc_scalar CI64 t)); [|by rewrite He].
  apply (pdcp_enc_ind_msg_bytes (mk_pdcp_ind_msg_t _ xs t)); [exact Hn|exact Hl'|].
  unfold pdcp_ind_msg_bytes. cbn [len rb tstamp]. rewrite He. lia.
Qed.

(** *** Fixed-size messages *)

Lemma pdcp_fixed_size_roundtrips :
  (∀ et, c_ok et → ∃ bs, pdcp_enc_event_trigger_plain et = Ret bs ∧
                         pdcp_dec_event_trigger_plain bs = Ret et) ∧
  (∀ ih, c_ok ih → ∃ bs, pdcp_enc_ind_hdr_plain ih = Ret bs ∧ pdcp_dec_ind_hdr_plain bs = Ret ih) ∧
  (∀ ch, c_ok ch → ∃ bs, pdcp_enc_ctrl_hdr_plain ch = Ret bs ∧ pdcp_dec_ctrl_hdr_plain bs = Ret ch) ∧
  (∀ cm, c_ok cm → ∃ bs, pdcp_enc_ctrl_msg_plain cm = Ret bs ∧ pdcp_dec_ctrl_msg_plain bs = Ret cm).
Proof.
  repeat split; [|intros a Ha; exists (enc_obj a); split;
    [by apply fill_copy|by apply dec_whole_enc]..].
  intros [ms] [Hv _]. inversion_clear Hv as [|? ? ? ? Hms _]. exists (enc_scalar CU32 ms).
  split; [by apply fill_scalar|]. unfold pdcp_dec_event_trigger_plain. by rewrite rd_scalar_whole.
Qed.

Lemma pdcp_ctrl_out_roundtrip co : c_ok co →
  ∃ bs, pdcp_enc_ctrl_out_plain co = Ret bs ∧ pdcp_dec_ctrl_out_plain bs = Ret co.
Proof.
  intros Hco. exists (enc_obj co). split; [by apply fill_copy|].
  unfold pdcp_dec_ctrl_out_plain. rewrite length_enc_obj by done. by apply dec_whole_enc.
Qed.

(** *** Invariants, copies and comparison *)

(** The invariants of a bearer the code asserts. *)
Definition pdcp_bearer_inv (b : pdcp_radio_bearer_stats_t) : Prop :=
  (mode b = 0 ∨ mode b = 1 ∨ mode b = 2)%Z ∧ (rbid b < 11)%Z ∧
  (txpdu_pkts b ≤ txpdu_bytes b)%Z ∧ (rxpdu_pkts b ≤ rxpdu_bytes b)%Z ∧
  (txsdu_pkts b ≤ txsdu_bytes b)%Z ∧ (rxsdu_pkts b ≤ rxsdu_bytes b)%Z.

#[export] Instance pdcp_bearer_inv_dec b : Decision (pdcp_bearer_inv b).
Proof. unfold pdcp_bearer_inv. apply _. Defined.

Lemma check_pdcp_bearers_spec l :
  check_pdcp_bearers l = if decide (Forall pdcp_bearer_inv l) then Ret true else Abort.
Proof.
  induction l as [|b l IH]; [done|]. cbn [check_pdcp_bearers]. rewrite IH.
  unfold check_pdcp_mode, check_pdcp_rbid, check_pdcp_bearer.
  rewrite !c_assert_bind.
  destruct (decide (pdcp_bearer_inv b)) as [Hb|Hb].
  - pose proof Hb as (Hm & Hr & H1 & H2 & H3 & H4).
    assert (((mode b =? 0) || (mode b =? 1) || (mode b =? 2))%Z = true) as -> by lia.
    rewrite (proj2 (Z.ltb_lt _ _)), !(proj2 (Z.leb_le _ _)) by done.
    rewrite !outcome_bind_ret_l.
    repeat case_decide; rewrite ?Forall_cons_iff in *; try done; exfalso; tauto.
  - destruct (decide (Forall pdcp_bearer_inv (b :: l))) as [Hl|_].
    { by apply Forall_cons_iff in Hl as [? _]. }
    unfold pdcp_bearer_inv in Hb. repeat case_match; try done.
    exfalso. apply Hb. lia.
Qed.

Lemma check_pdcp_invariants_ok m : pdcp_ind_msg_ok m →
  check_pdcp_invariants m = if decide (Forall pdcp_bearer_inv (rb m)) then Ret true else Abort.
Proof.
  intros (_ & Hl & _). unfold check_pdcp_invariants. rewrite arr_prefix_all by done.
  apply check_pdcp_bearers_spec.
Qed.

(** Copying a message aborts when a bearer violates its invariants and gives
    the same message otherwise. *)
Theorem cp_pdcp_ind_msg_spec m : pdcp_ind_msg_ok m →
  cp_pdcp_ind_msg m = if decide (Forall pdcp_bearer_inv (rb m)) then Ret m else Abort.
Proof.
  intros Hm. unfold cp_pdcp_ind_msg. rewrite check_pdcp_invariants_ok by done.
  destruct (decide _); [|done]. rewrite outcome_bind_ret_l, c_assert_bind.
  destruct Hm as (_ & Hl & _). destruct m as [len rb t]; cbn in *.
  destruct (Z.ltb_spec 0 len).
  - by rewrite arr_prefix_all.
  - destruct rb; [done|cbn in Hl; lia].
Qed.

Lemma eq_pdcp_bearer_spec b0 b1 :
  eq_pdcp_bearer b0 b1 = true ↔ c_vals b0 = c_vals b1.
Proof.
  unfold eq_pdcp_bearer. rewrite !andb_true_iff, !Z.eqb_eq. cbn. split.
  - intros H. destruct_and!. congruence.
  - intros [=]. tauto.
Qed.

(** [eq_pdcp_ind_msg] returns only [true]: two messages that satisfy the
    invariants and differ in any field abort. *)
Theorem eq_pdcp_ind_msg_spec m0 m1 : pdcp_ind_msg_ok m0 → pdcp_ind_msg_ok m1 →
  eq_pdcp_ind_msg m0 m1 =
  if decide (Forall pdcp_bearer_inv (rb m0) ∧ Forall pdcp_bearer_inv (rb m1) ∧
             tstamp m0 = tstamp m1 ∧ c_vals <$> rb m0 = c_vals <$> rb m1)
  then Ret true else Abort.
Proof.
  intros Hm0 Hm1. unfold eq_pdcp_ind_msg. rewrite !check_pdcp_invariants_ok by done.
  destruct (decide (_ ∧ _)) as [(Hi0 & Hi1 & Ht & Hk)|Hn].
  - rewrite !decide_True by done. rewrite !outcome_bind_ret_l, !c_assert_bind.
    destruct Hm0 as (_ & Hl0 & _), Hm1 as (_ & Hl1 & _).
    pose proof (f_equal length Hk) as Hlen. rewrite !length_fmap in Hlen.
    rewrite Ht, Z.eqb_refl, <-Hl0, <-Hl1, Hlen, Z.eqb_refl, Nat2Z.id. cbn [negb orb].
    destruct (eq_arr_spec _ _ (rb m0) (rb m1) eq_pdcp_bearer_spec Hlen) as (b & Hb & Hbi).
    rewrite <-Hlen, Hb. by rewrite (proj2 Hbi Hk).
  - destruct (decide (Forall pdcp_bearer_inv (rb m0))); [|done].
    destruct (decide (Forall pdcp_bearer_inv (rb m1))); [|done].
    rewrite !outcome_bind_ret_l, !c_assert_bind.
    destruct Hm0 as (_ & Hl0 & _), Hm1 as (_ & Hl1 & _).
    destruct (Z.eqb_spec (tstamp m0) (tstamp m1)); [|done].
    destruct (Z.eqb_spec (len m0) (len m1)); [|done]. cbn [negb orb].
    rewrite <-Hl0, Nat2Z.id.
    destruct (eq_arr_spec _ _ (rb m0) (rb m1) eq_pdcp_bearer_spec ltac:(lia)) as (b & -> & Hbi).
    rewrite outcome_bind_ret_l. destruct b; [|done]. exfalso. apply Hn. tauto.
Qed.

(** *** Witnesses *)

(** A message with one bearer, its fields zero but for [mode]. *)
Definition pdcp_one_bearer_msg (mode : Z) : pdcp_ind_msg_t :=
  mk_pdcp_ind_msg_t 1 [c_make (<[16 := mode]> (replicate 18 0%Z)) [0; 0]%Z] 5.

Lemma pdcp_ind_msg_roundtrip_witness :
  pdcp_ind_msg_ok (pdcp_one_bearer_msg 2) ∧
  ∃ bs, pdcp_enc_ind_msg_plain (pdcp_one_bearer_msg 2) = Ret bs ∧ length bs = 80 ∧
        pdcp_dec_ind_msg_plain bs = Ret (pdcp_one_bearer_msg 2).
Proof.
  assert (pdcp_ind_msg_ok (pdcp_one_bearer_msg 2)) as H by by_eval.
  split; [exact H|]. exact (pdcp_ind_msg_roundtrip _ H).
Defined.

(** A count of one bearer and no bearer. *)
Lemma pdcp_dec_ind_msg_cases_witness :
  Forall byte_ok (1%Z :: replicate 11 0%Z) ∧
  pdcp_dec_ind_msg_plain (1%Z :: replicate 11 0%Z) = Undef.
Proof.
  assert (Forall byte_ok (1%Z :: replicate 11 0%Z)) as H by by_eval.
  split; [exact H|]. exact (pdcp_dec_ind_msg_cases (1%Z :: replicate 11 0%Z) H).
Defined.

Lemma cp_pdcp_ind_msg_spec_witness : cp_pdcp_ind_msg (pdcp_one_bearer_msg 3) = Abort.
Proof. rewrite (cp_pdcp_ind_msg_spec (pdcp_one_bearer_msg 3)); [by vm_compute|by_eval]. Defined.

Lemma eq_pdcp_ind_msg_spec_witness :
  eq_pdcp_ind_msg (pdcp_one_bearer_msg 1) (pdcp_one_bearer_msg 2) = Abort.
Proof.
  rewrite (eq_pdcp_ind_msg_spec (pdcp_one_bearer_msg 1) (pdcp_one_bearer_msg 2));
    [by vm_compute|by_eval..].
Defined.
