(* ===== verification/MacPlain.v ===== *)
(** * MAC service model: data, copies and plain codec

    [src/src/sm/mac_sm/ie/mac_data_ie.h] and [.c], [enc/mac_enc_plain.c],
    [dec/mac_dec_plain.c].  The comparison [eq_mac_ind_msg] works on the values
    of floating point fields and is not modelled: here they are bit patterns. *)
From S2P Require Import Prelude CLayout SmCodec.

(** ** Data *)

Record mac_event_trigger_t := mk_mac_event_trigger_t { et_ms : Z }.
#[export] Instance mac_event_trigger_t_struct : CStruct mac_event_trigger_t :=
  u32_struct mk_mac_event_trigger_t et_ms (λ '(mk_mac_event_trigger_t z), eq_refl) (λ _, eq_refl).

Record mac_ind_hdr_t := mk_mac_ind_hdr_t { ih_dummy : Z }.
#[export] Instance mac_ind_hdr_t_struct : CStruct mac_ind_hdr_t :=
  u32_struct mk_mac_ind_hdr_t ih_dummy (λ '(mk_mac_ind_hdr_t z), eq_refl) (λ _, eq_refl).

Record mac_call_proc_id_t := mk_mac_call_proc_id_t { cpi_dummy : Z }.
#[export] Instance mac_call_proc_id_t_struct : CStruct mac_call_proc_id_t :=
  u32_struct mk_mac_call_proc_id_t cpi_dummy (λ '(mk_mac_call_proc_id_t z), eq_refl) (λ _, eq_refl).

Record mac_ctrl_hdr_t := mk_mac_ctrl_hdr_t { ch_dummy : Z }.
#[export] Instance mac_ctrl_hdr_t_struct : CStruct mac_ctrl_hdr_t :=
  u32_struct mk_mac_ctrl_hdr_t ch_dummy (λ '(mk_mac_ctrl_hdr_t z), eq_refl) (λ _, eq_refl).

Record mac_ctrl_msg_t := mk_mac_ctrl_msg_t { cm_action : Z }.
#[export] Instance mac_ctrl_msg_t_struct : CStruct mac_ctrl_msg_t :=
  u32_struct mk_mac_ctrl_msg_t cm_action (λ '(mk_mac_ctrl_msg_t z), eq_refl) (λ _, eq_refl).

(** The elements of [dl_harq[5]] and [ul_harq[5]] are fields of their own. *)
(** The statistics of one UE. *)
Record mac_ue_stats_impl_t := mk_mac_ue_stats_impl_t {
  dl_aggr_tbs : Z; ul_aggr_tbs : Z; dl_aggr_bytes_sdus : Z; ul_aggr_bytes_sdus : Z;
  dl_curr_tbs : Z; ul_curr_tbs : Z; dl_sched_rb : Z; ul_sched_rb : Z; pusch_snr : Z;
  pucch_snr : Z; dl_bler : Z; ul_bler : Z; dl_harq_0 : Z; dl_harq_1 : Z; dl_harq_2 : Z;
  dl_harq_3 : Z; dl_harq_4 : Z; ul_harq_0 : Z; ul_harq_1 : Z; ul_harq_2 : Z;
  ul_harq_3 : Z; ul_harq_4 : Z; dl_num_harq : Z; ul_num_harq : Z; rnti : Z;
  dl_aggr_prb : Z; ul_aggr_prb : Z; dl_aggr_sdus : Z; ul_aggr_sdus : Z;
  dl_aggr_retx_prb : Z; ul_aggr_retx_prb : Z; bsr : Z; frame : Z; slot : Z; wb_cqi : Z;
  dl_mcs1 : Z; ul_mcs1 : Z; dl_mcs2 : Z; ul_mcs2 : Z; phr : Z; in_sync : Z; pcmax : Z;
  pmi_cqi_ri : Z; pmi_cqi_X1 : Z; pmi_cqi_X2 : Z; raw_rssi : Z; cqi : Z; rsrp : Z;
  nr_cellid : Z; mac_ue_stats_impl_t_pad : bytes }.

#[export, program] Instance mac_ue_stats_impl_t_struct : CStruct mac_ue_stats_impl_t := {|
  c_layout := struct_layout [
    CU64; CU64; CU64; CU64; CU64; CU64; CU64; CU64; CF32; CF32; CF32; CF32; CU32; CU32;
    CU32; CU32; CU32; CU32; CU32; CU32; CU32; CU32; CU32; CU32; CU32; CU32; CU32; CU32;
    CU32; CU32; CU32; CU32; CU16; CU16; CU8; CU8; CU8; CU8; CU8; CI8; CBool; CI32; CU8;
    CU8; CU8; CF32; CU8; CI64; CU64];
  c_vals a := [
    dl_aggr_tbs a; ul_aggr_tbs a; dl_aggr_bytes_sdus a; ul_aggr_bytes_sdus a;
    dl_curr_tbs a; ul_curr_tbs a; dl_sched_rb a; ul_sched_rb a; pusch_snr a;
    pucch_snr a; dl_bler a; ul_bler a; dl_harq_0 a; dl_harq_1 a; dl_harq_2 a;
    dl_harq_3 a; dl_harq_4 a; ul_harq_0 a; ul_harq_1 a; ul_harq_2 a; ul_harq_3 a;
    ul_harq_4 a; dl_num_harq a; ul_num_harq a; rnti a; dl_aggr_prb a; ul_aggr_prb a;
    dl_aggr_sdus a; ul_aggr_sdus a; dl_aggr_retx_prb a; ul_aggr_retx_prb a; bsr a;
    frame a; slot a; wb_cqi a; dl_mcs1 a; ul_mcs1 a; dl_mcs2 a; ul_mcs2 a; phr a;
    in_sync a; pcmax a; pmi_cqi_ri a; pmi_cqi_X1 a; pmi_cqi_X2 a; raw_rssi a; cqi a;
    rsrp a; nr_cellid a];
  c_pad a := mac_ue_stats_impl_t_pad a;
  c_make vs pad := mk_mac_ue_stats_impl_t
    (nth 0 vs 0%Z) (nth 1 vs 0%Z) (nth 2 vs 0%Z) (nth 3 vs 0%Z) (nth 4 vs 0%Z)
    (nth 5 vs 0%Z) (nth 6 vs 0%Z) (nth 7 vs 0%Z) (nth 8 vs 0%Z) (nth 9 vs 0%Z)
    (nth 10 vs 0%Z) (nth 11 vs 0%Z) (nth 12 vs 0%Z) (nth 13 vs 0%Z) (nth 14 vs 0%Z)
    (nth 15 vs 0%Z) (nth 16 vs 0%Z) (nth 17 vs 0%Z) (nth 18 vs 0%Z) (nth 19 vs 0%Z)
    (nth 20 vs 0%Z) (nth 21 vs 0%Z) (nth 22 vs 0%Z) (nth 23 vs 0%Z) (nth 24 vs 0%Z)
    (nth 25 vs 0%Z) (nth 26 vs 0%Z) (nth 27 vs 0%Z) (nth 28 vs 0%Z) (nth 29 vs 0%Z)
    (nth 30 vs 0%Z) (nth 31 vs 0%Z) (nth 32 vs 0%Z) (nth 33 vs 0%Z) (nth 34 vs 0%Z)
    (nth 35 vs 0%Z) (nth 36 vs 0%Z) (nth 37 vs 0%Z) (nth 38 vs 0%Z) (nth 39 vs 0%Z)
    (nth 40 vs 0%Z) (nth 41 vs 0%Z) (nth 42 vs 0%Z) (nth 43 vs 0%Z) (nth 44 vs 0%Z)
    (nth 45 vs 0%Z) (nth 46 vs 0%Z) (nth 47 vs 0%Z) (nth 48 vs 0%Z) pad |}.
Next Obligation. c_struct_laws. Qed.
Next Obligation. c_struct_laws. Qed.

Lemma sizeof_mac_ue_stats_impl_t : sizeof mac_ue_stats_impl_t = 208.
Proof. reflexivity. Qed.

Record mac_ind_msg_t := mk_mac_ind_msg_t {
  len_ue_stats : Z;
  ue_stats : list mac_ue_stats_impl_t;
  tstamp : Z }.

Record mac_ind_data_t := mk_mac_ind_data_t {
  ind_hdr : mac_ind_hdr_t;
  ind_msg : mac_ind_msg_t;
  ind_proc_id : option mac_call_proc_id_t }.

Definition mac_ind_msg_ok (m : mac_ind_msg_t) : Prop :=
  u_ok 32 (len_ue_stats m) ∧ Z.of_nat (length (ue_stats m)) = len_ue_stats m ∧
  Forall c_ok (ue_stats m) ∧ cval_ok CI64 (tstamp m).

#[export] Instance mac_ind_msg_ok_dec m : Decision (mac_ind_msg_ok m).
Proof. unfold mac_ind_msg_ok. apply _. Defined.

(** ** [mac_data_ie.c] *)

Definition cp_mac_ind_hdr (src : mac_ind_hdr_t) : mac_ind_hdr_t :=
  mk_mac_ind_hdr_t (ih_dummy src).
Definition eq_mac_ind_hdr (m0 m1 : mac_ind_hdr_t) : bool := (ih_dummy m0 =? ih_dummy m1)%Z.

(** [-1 * f] on the bit pattern of a [float] that is not a NaN. *)
Definition float_neg (f : Z) : Z := Z.lxor f (2 ^ 31).

(** The designated initialiser lists the fields that are copied; the others
    are zero. *)
Definition cp_mac_ue_stats_impl (src : mac_ue_stats_impl_t) : mac_ue_stats_impl_t :=
  mk_mac_ue_stats_impl_t
    (dl_aggr_tbs src) (ul_aggr_tbs src) (dl_aggr_bytes_sdus src)
    (ul_aggr_bytes_sdus src) (dl_curr_tbs src) (ul_curr_tbs src) (dl_sched_rb src)
    (ul_sched_rb src) (pusch_snr src) (pucch_snr src) (dl_bler src) (ul_bler src)
    (dl_harq_0 src) (dl_harq_1 src) (dl_harq_2 src) (dl_harq_3 src) (dl_harq_4 src)
    (ul_harq_0 src) (ul_harq_1 src) (ul_harq_2 src) (ul_harq_3 src) (ul_harq_4 src)
    (dl_num_harq src) (ul_num_harq src) (rnti src) (dl_aggr_prb src) (ul_aggr_prb src)
    (dl_aggr_sdus src) (ul_aggr_sdus src) (dl_aggr_retx_prb src) (ul_aggr_retx_prb src)
    (bsr src) (frame src) (slot src) (wb_cqi src) (dl_mcs1 src) (ul_mcs1 src)
    (dl_mcs2 src) (ul_mcs2 src) (phr src) 0%Z (pcmax src) 0%Z 0%Z 0%Z
    (float_neg (raw_rssi src)) (cqi src) (rsrp src) 0%Z
    (replicate 9 0%Z).

Definition cp_mac_ind_msg (src : mac_ind_msg_t) : outcome mac_ind_msg_t :=
  l ← arr_prefix (len_ue_stats src) (ue_stats src);
  Ret (mk_mac_ind_msg_t (len_ue_stats src) (cp_mac_ue_stats_impl <$> l) (tstamp src)).

Definition cp_mac_call_proc_id (src : mac_call_proc_id_t) : mac_call_proc_id_t :=
  mk_mac_call_proc_id_t (cpi_dummy src).

Definition eq_mac_call_proc_id (m0 m1 : option mac_call_proc_id_t) : bool :=
  match m0, m1 with
  | None, None => true
  | Some m0, Some m1 => (cpi_dummy m0 =? cpi_dummy m1)%Z
  | _, _ => false
  end.

Definition cp_mac_ind_data (src : mac_ind_data_t) : outcome mac_ind_data_t :=
  msg ← cp_mac_ind_msg (ind_msg src);
  Ret (mk_mac_ind_data_t (cp_mac_ind_hdr (ind_hdr src)) msg
         (cp_mac_call_proc_id <$> ind_proc_id src)).

(** ** [mac_enc_plain.c] *)

Definition mac_enc_event_trigger_plain (event_trigger : mac_event_trigger_t) : outcome bytes :=
  fill_buffer 4 (w_scalar CU32 (et_ms event_trigger)).

Definition mac_enc_action_def_plain {A} (action_def : A) : outcome bytes := Abort.

Definition mac_enc_ind_hdr_plain (ind_hdr : mac_ind_hdr_t) : outcome bytes :=
  fill_buffer (sizeof mac_ind_hdr_t) (w_copy (enc_obj ind_hdr) (sizeof mac_ind_hdr_t)).

(** The length is a [uint32_t] in this encoder. *)
Definition mac_enc_ind_msg_plain (ind_msg : mac_ind_msg_t) : outcome bytes :=
  let len := wrap 32 (4 + Z.of_nat (sizeof mac_ue_stats_impl_t) * len_ue_stats ind_msg + 8) in
  fill_buffer (Z.to_nat len)
    (w_scalar CU32 (len_ue_stats ind_msg) >>>
     w_arr (len_ue_stats ind_msg) (ue_stats ind_msg) >>>
     w_scalar CI64 (tstamp ind_msg)).

Definition mac_enc_call_proc_id_plain {A} (call_proc_id : A) : outcome bytes := Abort.

Definition mac_enc_ctrl_hdr_plain (ctrl_hdr : mac_ctrl_hdr_t) : outcome bytes :=
  fill_buffer (sizeof mac_ctrl_hdr_t) (w_copy (enc_obj ctrl_hdr) (sizeof mac_ctrl_hdr_t)).

Definition mac_enc_ctrl_msg_plain (ctrl_msg : mac_ctrl_msg_t) : outcome bytes :=
  fill_buffer (sizeof mac_ctrl_msg_t) (w_copy (enc_obj ctrl_msg) (sizeof mac_ctrl_msg_t)).

Definition mac_enc_func_def_plain {A} (func : A) : outcome bytes := Abort.

Definition mac_enc_ctrl_out_plain {A} (ctrl : A) : outcome bytes := Abort.

(** ** [mac_dec_plain.c] *)

Definition mac_dec_event_trigger_plain (ev_tr : bytes) : outcome mac_event_trigger_t :=
  '(ms, _) ← rd_scalar CU32 ev_tr;
  Ret (mk_mac_event_trigger_t ms).

Definition mac_dec_action_def_plain {A} (action_def : bytes) : outcome A := Abort.

Definition mac_dec_ind_hdr_plain (ind_hdr : bytes) : outcome mac_ind_hdr_t := dec_whole ind_hdr.

Definition mac_dec_ind_msg_plain (ind_msg : bytes) : outcome mac_ind_msg_t :=
  '(len_ue_stats, ptr) ← rd_scalar CU32 ind_msg;
  '(ue_stats, ptr) ← rd_arr len_ue_stats ptr;
  '(tstamp, ptr) ← rd_scalar CI64 ptr;
  at_end ptr;;
  Ret (mk_mac_ind_msg_t len_ue_stats ue_stats tstamp).

Definition mac_dec_call_proc_id_plain {A} (call_proc_id : bytes) : outcome A := Abort.
Definition mac_dec_ctrl_hdr_plain (ctrl_hdr : bytes) : outcome mac_ctrl_hdr_t := dec_whole ctrl_hdr.
Definition mac_dec_ctrl_msg_plain (ctrl_msg : bytes) : outcome mac_ctrl_msg_t := dec_whole ctrl_msg.
Definition mac_dec_func_def_plain {A} (func_def : bytes) : outcome A := Abort.

Definition mac_dec_ctrl_out_plain {A} (ctrl_out : bytes) : outcome A := Abort.

(** ** Properties *)

Definition mac_ind_msg_bytes (m : mac_ind_msg_t) : bytes :=
  enc_scalar CU32 (len_ue_stats m) ++ concat (enc_obj <$> ue_stats m) ++
  enc_scalar CI64 (tstamp m).

Lemma length_mac_ind_msg_bytes m : mac_ind_msg_ok m →
  length (mac_ind_msg_bytes m) = 12 + 208 * length (ue_stats m).
Proof.
  intros (_ & _ & Hrb & _). unfold mac_ind_msg_bytes. rewrite length_counted by done.
  rewrite length_enc_scalar, sizeof_mac_ue_stats_impl_t. cbn [csize]. lia.
Qed.

Lemma mac_enc_ind_msg_bytes m :
  (0 ≤ len_ue_stats m)%Z → (12 + 208 * len_ue_stats m < 2 ^ 32)%Z →
  Z.of_nat (length (ue_stats m)) = len_ue_stats m →
  length (mac_ind_msg_bytes m) = 12 + 208 * length (ue_stats m) →
  mac_enc_ind_msg_plain m = Ret (mac_ind_msg_bytes m).
Proof.
  intros H0 Hn Hl Hlen. apply counted_msg_enc; [done|apply writes_scalar|].
  fold (mac_ind_msg_bytes m). rewrite sizeof_mac_ue_stats_impl_t, wrap_id.
  - lia.
  - unfold u_ok. lia.
Qed.

(** Encoding a MAC indication message of less than 4 GiB succeeds, takes 12
    bytes and 208 per UE, and decoding it gives the message back. *)
Theorem mac_ind_msg_roundtrip m :
  mac_ind_msg_ok m → (12 + 208 * len_ue_stats m < 2 ^ 32)%Z →
  ∃ bs, mac_enc_ind_msg_plain m = Ret bs ∧
        length bs = 12 + 208 * length (ue_stats m) ∧
        mac_dec_ind_msg_plain bs = Ret m.
Proof.
  intros Hm Hb. pose proof (length_mac_ind_msg_bytes m Hm) as Hlen.
  destruct Hm as (Hn & Hl & Hrb & Ht). exists (mac_ind_msg_bytes m).
  split; [apply mac_enc_ind_msg_bytes; [apply Hn|done..]|]. split; [done|].
  unfold mac_dec_ind_msg_plain, mac_ind_msg_bytes. rewrite rd_counted_enc by done.
  rewrite rd_scalar_whole by done. by destruct m.
Qed.

(** From 4 GiB on, the 32-bit length has wrapped and the encoder writes past
    the end of the buffer it has allocated. *)
Theorem mac_enc_ind_msg_overrun m :
  mac_ind_msg_ok m → (2 ^ 32 ≤ 12 + 208 * len_ue_stats m)%Z →
  mac_enc_ind_msg_plain m = Undef.
Proof.
  intros Hm Hb. pose proof (length_mac_ind_msg_bytes m Hm) as Hlen.
  destruct Hm as (Hn & Hl & Hrb & Ht). unfold mac_enc_ind_msg_plain.
  rewrite sizeof_mac_ue_stats_impl_t. apply (fill_buffer_overrun _ (mac_ind_msg_bytes m)).
  - unfold mac_ind_msg_bytes. rewrite (assoc_L (++)). solve_writes.
  - pose proof (wrap_ok 32 (4 + Z.of_nat 208 * len_ue_stats m + 8) ltac:(lia)) as Hw.
    unfold u_ok in Hw. lia.
Qed.

(** What decoding does with any bytes: no length is checked before reading, so
    a message shorter than its count says, or without a count, is read past its
    end; a longer one fails the final assertion; any other is what the encoder
    writes for the decoded message, up to the 4 GiB it handles. *)
Theorem mac_dec_ind_msg_cases bs :
  Forall byte_ok bs → (Z.of_nat (length bs) < 2 ^ 32)%Z →
  let need := 12 + 208 * Z.to_nat (le_dec (take 4 bs)) in
  if length bs <? need then mac_dec_ind_msg_plain bs = Undef
  else if need <? length bs then mac_dec_ind_msg_plain bs = Abort
  else ∃ m, mac_dec_ind_msg_plain bs = Ret m ∧ mac_enc_ind_msg_plain m = Ret bs.
Proof.
  intros Hb Hlt need. unfold mac_dec_ind_msg_plain.
  pose proof (eq_refl need) as Hneed. unfold need at 2 in Hneed. clearbody need.
  pose proof (counted_msg_cases _ _ _ (λ n xs t, mk_mac_ind_msg_t n xs t) bs
    (parses_scalar CI64) Hb) as H.
  rewrite sizeof_mac_ue_stats_impl_t in H. cbv zeta in H. change (csize CI64) with 8 in H.
  replace (4 + _ + 8) with need in H by lia.
  destruct (length bs <? need) eqn:Hs; [done|]. destruct (need <? length bs) eqn:Hlong; [done|].
  apply Nat.ltb_ge in Hs, Hlong.
  destruct H as (xs & t & -> & Hn & Hl' & He). eexists. split; [done|]. unfold u_ok in Hn.
  transitivity (Ret (enc_scalar CU32 (le_dec (take 4 bs)) ++ concat (enc_obj <$> xs) ++
    enc_scalar CI64 t)); [|by rewrite He].
  apply (mac_enc_ind_msg_bytes (mk_mac_ind_msg_t _ xs t));
    [apply Hn|cbn [len_ue_stats]; lia|exact Hl'|].
  unfold mac_ind_msg_bytes. cbn [len_ue_stats ue_stats tstamp]. rewrite He. lia.
Qed.

(** *** Fixed-size messages *)

Lemma mac_fixed_size_roundtrips :
  (∀ et, c_ok et → ∃ bs, mac_enc_event_trigger_plain et = Ret bs ∧
                         mac_dec_event_trigger_plain bs = Ret et) ∧
  (∀ ih, c_ok ih → ∃ bs, mac_enc_ind_hdr_plain ih = Ret bs ∧ mac_dec_ind_hdr_plain bs = Ret ih) ∧
  (∀ ch, c_ok ch → ∃ bs, mac_enc_ctrl_hdr_plain ch = Ret bs ∧ mac_dec_ctrl_hdr_plain bs = Ret ch) ∧
  (∀ cm, c_ok cm → ∃ bs, mac_enc_ctrl_msg_plain cm = Ret bs ∧ mac_dec_ctrl_msg_plain bs = Ret cm).
Proof.
  repeat split; [|intros a Ha; exists (enc_obj a); split;
    [by apply fill_copy|by apply dec_whole_enc]..].
  intros [ms] [Hv _]. inversion_clear Hv as [|? ? ? ? Hms _]. exists (enc_scalar CU32 ms).
  split; [by apply fill_scalar|]. unfold mac_dec_event_trigger_plain. by rewrite rd_scalar_whole.
Qed.

(** *** Copies *)

Lemma float_neg_neq f : float_neg f ≠ f.
Proof.
  intros H. apply (f_equal (λ z, Z.testbit z 31)) in H. revert H. unfold float_neg.
  rewrite Z.lxor_spec, Z.pow2_bits_true by lia. by destruct (Z.testbit f 31).
Qed.

Lemma float_neg_involutive f : float_neg (float_neg f) = f.
Proof. unfold float_neg. by rewrite Z.lxor_assoc, Z.lxor_nilpotent, Z.lxor_0_r. Qed.

(** The fields a copy does not take from its source, by their position:
    [in_sync], [pmi_cqi_ri], [pmi_cqi_X1], [pmi_cqi_X2], [nr_cellid]. *)
Definition mac_dropped : list nat := [40; 42; 43; 44; 48].

(** A copy of a message has as many UEs; each keeps every field but the dropped
    ones, which are zero, and [raw_rssi], whose sign is flipped. *)
Theorem cp_mac_ind_msg_spec m : mac_ind_msg_ok m →
  ∃ m', cp_mac_ind_msg m = Ret m' ∧
    len_ue_stats m' = len_ue_stats m ∧ tstamp m' = tstamp m ∧
    Forall2 (λ u u', ∀ i, i < 49 →
      c_vals u' !! i = if decide (i ∈ mac_dropped) then Some 0%Z
                       else if decide (i = 45) then float_neg <$> c_vals u !! i
                       else c_vals u !! i) (ue_stats m) (ue_stats m').
Proof.
  intros (_ & Hl & _). unfold cp_mac_ind_msg. rewrite arr_prefix_all by done.
  eexists. split; [done|]. do 2 (split; [done|]). cbn [ue_stats].
  apply Forall2_fmap_r, Forall_Forall2_diag, Forall_true. intros u i Hi.
  do 49 (destruct i as [|i]; [reflexivity|]). lia.
Qed.

(** So no copy of a UE is the UE it copies. *)
Theorem cp_mac_ue_stats_impl_neq u : cp_mac_ue_stats_impl u ≠ u.
Proof. intros H. apply (float_neg_neq (raw_rssi u)). by rewrite <-H at 2. Qed.

(** *** Witnesses *)

(** A message with one UE, all its fields zero. *)
Definition mac_one_ue_msg : mac_ind_msg_t :=
  mk_mac_ind_msg_t 1
    [c_make (replicate (length (items (c_layout (A := mac_ue_stats_impl_t)))) 0%Z)
            (replicate (layout_pad (c_layout (A := mac_ue_stats_impl_t))) 0%Z)] 5.

Lemma mac_ind_msg_roundtrip_witness :
  mac_ind_msg_ok mac_one_ue_msg ∧
  ∃ bs, mac_enc_ind_msg_plain mac_one_ue_msg = Ret bs ∧
        length bs = 12 + sizeof mac_ue_stats_impl_t * 1 ∧
        mac_dec_ind_msg_plain bs = Ret mac_one_ue_msg.
Proof.
  assert (mac_ind_msg_ok mac_one_ue_msg) as H by by_eval.
  split; [exact H|]. exact (mac_ind_msg_roundtrip _ H ltac:(cbn; lia)).
Defined.

Lemma mac_dec_ind_msg_cases_witness :
  Forall byte_ok (replicate 3 0%Z) ∧ mac_dec_ind_msg_plain (replicate 3 0%Z) = Undef.
Proof.
  assert (Forall byte_ok (replicate 3 0%Z)) as H by by_eval.
  split; [exact H|]. exact (mac_dec_ind_msg_cases (replicate 3 0%Z) H ltac:(cbn; lia)).
Defined.

Lemma cp_mac_ind_msg_spec_witness :
  ∃ m', cp_mac_ind_msg mac_one_ue_msg = Ret m' ∧ len_ue_stats m' = 1%Z.
Proof.
  destruct (cp_mac_ind_msg_spec mac_one_ue_msg) as (m' & H & Hl & _); [by_eval|].
  exists m'. split; [exact H|exact Hl].
Defined.
