(* ===== verification/GtpPlain.v ===== *)
(** * GTP service model: data with handover information, copies and plain codec

    [src/src/sm/gtp_sm/ie/gtp_data_ie.h] and [.c], [enc/gtp_enc_plain.c],
    [dec/gtp_dec_plain.c].  The indication message ends with the 13 packed bytes
    of [gtp_ho_info_t], which the agent and the iApp read back from the end of
    the encoded message (see [IApp.v]). *)
From S2P Require Import Prelude CLayout SmCodec.

(** ** Data *)

Record gtp_event_trigger_t := mk_gtp_event_trigger_t { et_ms : Z }.
#[export] Instance gtp_event_trigger_t_struct : CStruct gtp_event_trigger_t :=
  u32_struct mk_gtp_event_trigger_t et_ms (λ '(mk_gtp_event_trigger_t z), eq_refl) (λ _, eq_refl).

Record gtp_ind_hdr_t := mk_gtp_ind_hdr_t { ih_dummy : Z }.
#[export] Instance gtp_ind_hdr_t_struct : CStruct gtp_ind_hdr_t :=
  u32_struct mk_gtp_ind_hdr_t ih_dummy (λ '(mk_gtp_ind_hdr_t z), eq_refl) (λ _, eq_refl).

Record gtp_call_proc_id_t := mk_gtp_call_proc_id_t { cpi_dummy : Z }.
#[export] Instance gtp_call_proc_id_t_struct : CStruct gtp_call_proc_id_t :=
  u32_struct mk_gtp_call_proc_id_t cpi_dummy (λ '(mk_gtp_call_proc_id_t z), eq_refl) (λ _, eq_refl).

Record gtp_ctrl_hdr_t := mk_gtp_ctrl_hdr_t { ch_dummy : Z }.
#[export] Instance gtp_ctrl_hdr_t_struct : CStruct gtp_ctrl_hdr_t :=
  u32_struct mk_gtp_ctrl_hdr_t ch_dummy (λ '(mk_gtp_ctrl_hdr_t z), eq_refl) (λ _, eq_refl).

Record gtp_ctrl_msg_t := mk_gtp_ctrl_msg_t { cm_action : Z }.
#[export] Instance gtp_ctrl_msg_t_struct : CStruct gtp_ctrl_msg_t :=
  u32_struct mk_gtp_ctrl_msg_t cm_action (λ '(mk_gtp_ctrl_msg_t z), eq_refl) (λ _, eq_refl).

(** One NG-U tunnel and its UE context. *)
Record gtp_ngu_t_stats_t := mk_gtp_ngu_t_stats_t {
  rnti : Z; teidgnb : Z; qfi : Z; teidupf : Z; ue_context_has_mqr : Z;
  ue_context_rrc_ue_id : Z; ue_context_rnti_t : Z; ue_context_mqr_rsrp : Z;
  ue_context_mqr_rsrq : Z; ue_context_mqr_sinr : Z; gtp_ngu_t_stats_t_pad : bytes }.

#[export, program] Instance gtp_ngu_t_stats_t_struct : CStruct gtp_ngu_t_stats_t := {|
  c_layout := struct_layout [
    CU32; CU32; CU8; CU8; CBool; CU32; CU32; CI64; CF64; CF64];
  c_vals a := [
    rnti a; teidgnb a; qfi a; teidupf a; ue_context_has_mqr a; ue_context_rrc_ue_id a;
    ue_context_rnti_t a; ue_context_mqr_rsrp a; ue_context_mqr_rsrq a;
    ue_context_mqr_sinr a];
  c_pad a := gtp_ngu_t_stats_t_pad a;
  c_make vs pad := mk_gtp_ngu_t_stats_t
    (nth 0 vs 0%Z) (nth 1 vs 0%Z) (nth 2 vs 0%Z) (nth 3 vs 0%Z) (nth 4 vs 0%Z)
    (nth 5 vs 0%Z) (nth 6 vs 0%Z) (nth 7 vs 0%Z) (nth 8 vs 0%Z) (nth 9 vs 0%Z) pad |}.
Next Obligation. c_struct_laws. Qed.
Next Obligation. c_struct_laws. Qed.

Lemma sizeof_gtp_ngu_t_stats_t : sizeof gtp_ngu_t_stats_t = 48.
Proof. reflexivity. Qed.

(** Handover information, declared under [#pragma pack(push, 1)]. *)
Record gtp_ho_info_t := mk_gtp_ho_info_t {
  ue_id : Z; source_du : Z; target_du : Z; ho_complete : Z }.

#[export, program] Instance gtp_ho_info_t_struct : CStruct gtp_ho_info_t := {|
  c_layout := packed_layout [
    CU32; CU32; CU32; CBool];
  c_vals a := [
    ue_id a; source_du a; target_du a; ho_complete a];
  c_pad a := [];
  c_make vs pad := mk_gtp_ho_info_t
    (nth 0 vs 0%Z) (nth 1 vs 0%Z) (nth 2 vs 0%Z) (nth 3 vs 0%Z) |}.
Next Obligation. c_struct_laws. Qed.
Next Obligation. c_struct_laws. Qed.

Lemma sizeof_gtp_ho_info_t : sizeof gtp_ho_info_t = 13.
Proof. reflexivity. Qed.

(** [ngut] is a pointer: [None] is NULL. *)
Record gtp_ind_msg_t := mk_gtp_ind_msg_t {
  ngut : option (list gtp_ngu_t_stats_t);
  len : Z;
  tstamp : Z;
  ho_info : gtp_ho_info_t }.

Record gtp_ind_data_t := mk_gtp_ind_data_t {
  ind_hdr : gtp_ind_hdr_t;
  ind_msg : gtp_ind_msg_t;
  ind_proc_id : option gtp_call_proc_id_t }.

(** The array [ngut] points to; no element can be read through NULL. *)
Definition ngut_arr (m : gtp_ind_msg_t) : list gtp_ngu_t_stats_t := default [] (ngut m).

Definition gtp_ind_msg_ok (m : gtp_ind_msg_t) : Prop :=
  u_ok 32 (len m) ∧ Z.of_nat (length (ngut_arr m)) = len m ∧
  Forall c_ok (ngut_arr m) ∧ cval_ok CI64 (tstamp m) ∧ c_ok (ho_info m).

#[export] Instance gtp_ind_msg_ok_dec m : Decision (gtp_ind_msg_ok m).
Proof. unfold gtp_ind_msg_ok. apply _. Defined.

(** ** [gtp_data_ie.c] *)

Definition cp_gtp_ind_hdr (src : gtp_ind_hdr_t) : gtp_ind_hdr_t :=
  mk_gtp_ind_hdr_t (ih_dummy src).
Definition eq_gtp_ind_hdr (m0 m1 : gtp_ind_hdr_t) : bool := (ih_dummy m0 =? ih_dummy m1)%Z.

(** [{0}]. *)
Definition zero_ho_info : gtp_ho_info_t := mk_gtp_ho_info_t 0 0 0 0.

Definition cp_gtp_ind_msg (src : gtp_ind_msg_t) : outcome gtp_ind_msg_t :=
  if (0 <? len src)%Z then
    match ngut src with
    | None => Ret (mk_gtp_ind_msg_t None 0 0 zero_ho_info)
    | Some l => l ← arr_prefix (len src) l;
                Ret (mk_gtp_ind_msg_t (Some l) (len src) (tstamp src) (ho_info src))
    end
  else Ret (mk_gtp_ind_msg_t None (len src) (tstamp src) (ho_info src)).

(** The comparison of one tunnel in [eq_gtp_ind_msg]. *)
Definition eq_gtp_ngut (ngut0 ngut1 : gtp_ngu_t_stats_t) : bool :=
  (rnti ngut0 =? rnti ngut1)%Z && (teidgnb ngut0 =? teidgnb ngut1)%Z &&
  (qfi ngut0 =? qfi ngut1)%Z && (teidupf ngut0 =? teidupf ngut1)%Z.

Definition eq_gtp_ind_msg (m0 m1 : gtp_ind_msg_t) : outcome bool :=
  if negb (tstamp m0 =? tstamp m1)%Z || negb (len m0 =? len m1)%Z then Ret false
  else eq_arr eq_gtp_ngut (Z.to_nat (len m0)) (ngut_arr m0) (ngut_arr m1).

Definition cp_gtp_call_proc_id (src : gtp_call_proc_id_t) : gtp_call_proc_id_t :=
  mk_gtp_call_proc_id_t (cpi_dummy src).

Definition eq_gtp_call_proc_id (m0 m1 : option gtp_call_proc_id_t) : bool :=
  match m0, m1 with
  | None, None => true
  | Some m0, Some m1 => (cpi_dummy m0 =? cpi_dummy m1)%Z
  | _, _ => false
  end.

Definition cp_gtp_ind_data (src : gtp_ind_data_t) : outcome gtp_ind_data_t :=
  msg ← cp_gtp_ind_msg (ind_msg src);
  Ret (mk_gtp_ind_data_t (cp_gtp_ind_hdr (ind_hdr src)) msg
         (cp_gtp_call_proc_id <$> ind_proc_id src)).

(** ** [gtp_enc_plain.c] *)

Definition gtp_enc_event_trigger_plain (event_trigger : gtp_event_trigger_t) : outcome bytes :=
  fill_buffer 4 (w_scalar CU32 (et_ms event_trigger)).

Definition gtp_enc_action_def_plain {A} (action_def : A) : outcome bytes := Abort.

Definition gtp_enc_ind_hdr_plain (ind_hdr : gtp_ind_hdr_t) : outcome bytes :=
  fill_buffer (sizeof gtp_ind_hdr_t) (w_copy (enc_obj ind_hdr) (sizeof gtp_ind_hdr_t)).

Definition gtp_enc_ind_msg_plain (ind_msg : gtp_ind_msg_t) : outcome bytes :=
  let sz := wrap 64 (4 + Z.of_nat (sizeof gtp_ngu_t_stats_t) * len ind_msg + 8 +
                     Z.of_nat (sizeof gtp_ho_info_t)) in
  fill_buffer (Z.to_nat sz)
    (w_scalar CU32 (len ind_msg) >>>
     w_arr (len ind_msg) (ngut_arr ind_msg) >>>
     (w_scalar CI64 (tstamp ind_msg) >>>
      w_obj (ho_info ind_msg))).

Definition gtp_enc_call_proc_id_plain {A} (call_proc_id : A) : outcome bytes := Abort.

Definition gtp_enc_ctrl_hdr_plain (ctrl_hdr : gtp_ctrl_hdr_t) : outcome bytes :=
  fill_buffer (sizeof gtp_ctrl_hdr_t) (w_copy (enc_obj ctrl_hdr) (sizeof gtp_ctrl_hdr_t)).

Definition gtp_enc_ctrl_msg_plain (ctrl_msg : gtp_ctrl_msg_t) : outcome bytes :=
  fill_buffer (sizeof gtp_ctrl_msg_t) (w_copy (enc_obj ctrl_msg) (sizeof gtp_ctrl_msg_t)).

Definition gtp_enc_func_def_plain {A} (func : A) : outcome bytes := Abort.

Definition gtp_enc_ctrl_out_plain {A} (ctrl : A) : outcome bytes := Abort.

(** ** [gtp_dec_plain.c] *)

Definition gtp_dec_event_trigger_plain (ev_tr : bytes) : outcome gtp_event_trigger_t :=
  '(ms, _) ← rd_scalar CU32 ev_tr;
  Ret (mk_gtp_event_trigger_t ms).

Definition gtp_dec_action_def_plain {A} (action_def : bytes) : outcome A := Abort.

Definition gtp_dec_ind_hdr_plain (ind_hdr : bytes) : outcome gtp_ind_hdr_t := dec_whole ind_hdr.

(** The size of the packed [gtp_ind_msg_t] less that of its pointer is 33 - 8. *)
Definition gtp_dec_ind_msg_plain (ind_msg : bytes) : outcome gtp_ind_msg_t :=
  c_assert (25 <=? next_pow2 (Z.of_nat (length ind_msg)))%Z;;
  '(len, it) ← rd_scalar CU32 ind_msg;
  '(ngut, it) ← rd_arr len it;
  '(tstamp, it) ← rd_scalar CI64 it;
  '(ho_info, it) ← rd_obj it;
  at_end it;;
  Ret (mk_gtp_ind_msg_t (Some ngut) len tstamp ho_info).

Definition gtp_dec_call_proc_id_plain {A} (call_proc_id : bytes) : outcome A := Abort.
Definition gtp_dec_ctrl_hdr_plain (ctrl_hdr : bytes) : outcome gtp_ctrl_hdr_t := dec_whole ctrl_hdr.
Definition gtp_dec_ctrl_msg_plain (ctrl_msg : bytes) : outcome gtp_ctrl_msg_t := dec_whole ctrl_msg.
Definition gtp_dec_func_def_plain {A} (func_def : bytes) : outcome A := Abort.

Definition gtp_dec_ctrl_out_plain {A} (ctrl_out : bytes) : outcome A := Abort.

(** ** Properties *)

Definition gtp_ind_msg_bytes (m : gtp_ind_msg_t) : bytes :=
  enc_scalar CU32 (len m) ++ concat (enc_obj <$> ngut_arr m) ++
  enc_scalar CI64 (tstamp m) ++ enc_obj (ho_info m).

Lemma length_gtp_ind_msg_bytes m : gtp_ind_msg_ok m →
  length (gtp_ind_msg_bytes m) = 25 + 48 * length (ngut_arr m).
Proof.
  intros (_ & _ & Hrb & _ & Hho). unfold gtp_ind_msg_bytes. rewrite length_counted by done.
  rewrite length_app, length_enc_scalar, length_enc_obj by done.
  rewrite sizeof_gtp_ngu_t_stats_t, sizeof_gtp_ho_info_t. cbn [csize]. lia.
Qed.

Lemma gtp_enc_ind_msg_bytes m :
  u_ok 32 (len m) → Z.of_nat (length (ngut_arr m)) = len m →
  length (gtp_ind_msg_bytes m) = 25 + 48 * length (ngut_arr m) →
  gtp_enc_ind_msg_plain m = Ret (gtp_ind_msg_bytes m).
Proof.
  intros Hn Hl Hlen. apply counted_msg_enc; [done|solve_writes|].
  fold (gtp_ind_msg_bytes m).
  rewrite sizeof_gtp_ngu_t_stats_t, sizeof_gtp_ho_info_t, wrap_id.
  - lia.
  - unfold u_ok in *. change (2 ^ 32)%Z with 4294967296%Z in Hn.
    change (2 ^ 64)%Z with 18446744073709551616%Z. lia.
Qed.

(** A message with its [ngut] pointer normalised: decoding always allocates. *)
Definition gtp_alloc (m : gtp_ind_msg_t) : gtp_ind_msg_t :=
  mk_gtp_ind_msg_t (Some (ngut_arr m)) (len m) (tstamp m) (ho_info m).

(** Encoding a GTP indication message succeeds, takes 25 bytes and 48 per
    tunnel, the last 13 of them the handover information, and decoding it gives
    the message back. *)
Theorem gtp_ind_msg_roundtrip m : gtp_ind_msg_ok m →
  ∃ bs, gtp_enc_ind_msg_plain m = Ret bs ∧
        length bs = 25 + 48 * length (ngut_arr m) ∧
        drop (length bs - 13) bs = enc_obj (ho_info m) ∧
        gtp_dec_ind_msg_plain bs = Ret (gtp_alloc m).
Proof.
  intros Hm. pose proof (length_gtp_ind_msg_bytes m Hm) as Hlen.
  destruct Hm as (Hn & Hl & Hrb & Ht & Hho). exists (gtp_ind_msg_bytes m).
  split; [by apply gtp_enc_ind_msg_bytes|]. split; [done|]. split.
  - unfold gtp_ind_msg_bytes. rewrite !(assoc_L (++)). apply drop_app_length'.
    rewrite !(length_app _ (enc_obj (ho_info m))), (length_enc_obj (ho_info m)) by done.
    rewrite sizeof_gtp_ho_info_t. lia.
  - unfold gtp_dec_ind_msg_plain. rewrite Hlen.
    rewrite (next_pow2_ge 4 25) by (unfold u_ok in Hn; lia).
    rewrite (proj2 (Z.ltb_lt _ _)), c_assert_bind by lia.
    unfold gtp_ind_msg_bytes. rewrite rd_counted_enc by done.
    rewrite rd_scalar_enc by done. rewrite outcome_bind_ret_l. cbv beta iota.
    pose proof (rd_obj_enc (ho_info m) Hho []) as Hr. rewrite app_nil_r in Hr. by rewrite Hr.
Qed.

Lemma gtp_tail_parses :
  parses (λ it, '(t, it) ← rd_scalar CI64 it; '(ho, it) ← rd_obj (A := gtp_ho_info_t) it;
                Ret ((t, ho), it))
         (λ p, enc_scalar CI64 p.1 ++ enc_obj p.2) (8 + 13).
Proof.
  change (8 + 13) with (csize CI64 + sizeof gtp_ho_info_t).
  exact (parses_seq _ _ _ _ _ _ (parses_scalar CI64) rd_obj_parses).
Qed.

(** What decoding does with any bytes: up to 16 are rejected by the length
    check; a message shorter than its tunnel count says is read past its end; a
    longer one fails the final assertion; any other is what encoding the decoded
    message writes. *)
Theorem gtp_dec_ind_msg_cases bs :
  Forall byte_ok bs → (Z.of_nat (length bs) ≤ 2 ^ 63)%Z →
  let need := 25 + 48 * Z.to_nat (le_dec (take 4 bs)) in
  if length bs <=? 16 then gtp_dec_ind_msg_plain bs = Abort
  else if length bs <? need then gtp_dec_ind_msg_plain bs = Undef
  else if need <? length bs then gtp_dec_ind_msg_plain bs = Abort
  else ∃ m, gtp_dec_ind_msg_plain bs = Ret m ∧ gtp_enc_ind_msg_plain m = Ret bs.
Proof.
  intros Hb Hl need. unfold gtp_dec_ind_msg_plain.
  pose proof (eq_refl need) as Hneed. unfold need at 2 in Hneed. clearbody need.
  rewrite (next_pow2_ge 4 25) by lia.
  destruct (Nat.leb_spec (length bs) 16) as [H8|H8].
  { rewrite (proj2 (Z.ltb_ge _ _)) by lia. done. }
  rewrite (proj2 (Z.ltb_lt _ _)), c_assert_bind by lia.
  pose proof (counted_msg_cases _ _ _ (λ n xs t, mk_gtp_ind_msg_t (Some xs) n t.1 t.2) bs
    gtp_tail_parses Hb) as H.
  rewrite sizeof_gtp_ngu_t_stats_t in H. cbv zeta in H.
  replace (4 + _ + (8 + 13)) with need in H by lia.
  match goal with |- context [?b = Undef] =>
    match type of H with context [?r = Undef] => assert (b = r) as -> end end.
  { apply outcome_bind_ext. intros [n it]. apply outcome_bind_ext. intros [xs it'].
    destruct (rd_scalar CI64 it') as [[t it'']| | | |]; [|done..]. cbn -[rd_obj].
    by destruct (rd_obj it'') as [[ho it''']| | | |]. }
  destruct (length bs <? need) eqn:Hs; [done|]. destruct (need <? length bs) eqn:Hlong; [done|].
  apply Nat.ltb_ge in Hs, Hlong.
  destruct H as (xs & [t ho] & -> & Hn & Hl' & He). eexists. split; [done|].
  transitivity (Ret (enc_scalar CU32 (le_dec (take 4 bs)) ++ concat (enc_obj <$> xs) ++
    enc_scalar CI64 t ++ enc_obj ho)); [|by rewrite <-He at 2].
  apply (gtp_enc_ind_msg_bytes (mk_gtp_ind_msg_t (Some xs) _ t ho)); [exact Hn|exact Hl'|].
  replace (gtp_ind_msg_bytes _) with bs by (symmetry; exact He).
  change (ngut_arr _) with xs. lia.
Qed.

(** *** Fixed-size messages *)

Lemma gtp_fixed_size_roundtrips :
  (∀ et, c_ok et → ∃ bs, gtp_enc_event_trigger_plain et = Ret bs ∧
                         gtp_dec_event_trigger_plain bs = Ret et) ∧
  (∀ ih, c_ok ih → ∃ bs, gtp_enc_ind_hdr_plain ih = Ret bs ∧ gtp_dec_ind_hdr_plain bs = Ret ih) ∧
  (∀ ch, c_ok ch → ∃ bs, gtp_enc_ctrl_hdr_plain ch = Ret bs ∧ gtp_dec_ctrl_hdr_plain bs = Ret ch) ∧
  (∀ cm, c_ok cm → ∃ bs, gtp_enc_ctrl_msg_plain cm = Ret bs ∧ gtp_dec_ctrl_msg_plain bs = Ret cm).
Proof.
  repeat split; [|intros a Ha; exists (enc_obj a); split;
    [by apply fill_copy|by apply dec_whole_enc]..].
  intros [ms] [Hv _]. inversion_clear Hv as [|? ? ? ? Hms _]. exists (enc_scalar CU32 ms).
  split; [by apply fill_scalar|]. unfold gtp_dec_event_trigger_plain. by rewrite rd_scalar_whole.
Qed.

(** *** Copies and comparison *)

(** Copying a message whose array is there gives the message, with the array
    dropped when it is empty; a NULL array with a count gives the empty message. *)
Theorem cp_gtp_ind_msg_spec m : u_ok 32 (len m) →
  (gtp_ind_msg_ok m →
   cp_gtp_ind_msg m = Ret (mk_gtp_ind_msg_t (if (0 <? len m)%Z then ngut m else None)
                             (len m) (tstamp m) (ho_info m))) ∧
  (ngut m = None → (0 < len m)%Z →
   cp_gtp_ind_msg m = Ret (mk_gtp_ind_msg_t None 0 0 zero_ho_info)).
Proof.
  intros Hn. unfold cp_gtp_ind_msg, gtp_ind_msg_ok, ngut_arr. split.
  - intros (_ & Hl & _). destruct (Z.ltb_spec 0 (len m)); [|done].
    destruct (ngut m) as [l|]; cbn in Hl; [|lia]. by rewrite arr_prefix_all.
  - intros -> Hpos. by rewrite (proj2 (Z.ltb_lt _ _) Hpos).
Qed.

Definition gtp_ngut_compared (t : gtp_ngu_t_stats_t) : Z * Z * Z * Z :=
  (rnti t, teidgnb t, qfi t, teidupf t).

Lemma eq_gtp_ngut_spec t0 t1 :
  eq_gtp_ngut t0 t1 = true ↔ gtp_ngut_compared t0 = gtp_ngut_compared t1.
Proof.
  unfold eq_gtp_ngut, gtp_ngut_compared. rewrite !andb_true_iff, !Z.eqb_eq.
  split; [intros [[[-> ->] ->] ->]; done|by intros [= -> -> -> ->]].
Qed.

(** [eq_gtp_ind_msg] answers on every pair of messages; equal means the same
    time stamp and, for each tunnel, the same [rnti], [teidgnb], [qfi] and
    [teidupf]: the UE context and the handover information are not compared. *)
Theorem eq_gtp_ind_msg_spec m0 m1 : gtp_ind_msg_ok m0 → gtp_ind_msg_ok m1 →
  ∃ b, eq_gtp_ind_msg m0 m1 = Ret b ∧
       (b = true ↔ tstamp m0 = tstamp m1 ∧
          gtp_ngut_compared <$> ngut_arr m0 = gtp_ngut_compared <$> ngut_arr m1).
Proof.
  intros (_ & Hl0 & _) (_ & Hl1 & _). unfold eq_gtp_ind_msg.
  destruct (Z.eqb_spec (tstamp m0) (tstamp m1)) as [Ht|Ht]; cbn [negb orb].
  2:{ exists false. split; [done|]. split; [done|]. by intros [? _]. }
  destruct (Z.eqb_spec (len m0) (len m1)) as [He|He]; cbn [negb].
  - rewrite <-Hl0, Nat2Z.id.
    destruct (eq_arr_spec _ _ (ngut_arr m0) (ngut_arr m1) eq_gtp_ngut_spec ltac:(lia))
      as (b & Hb & Hbi).
    exists b. split; [done|]. rewrite Hbi. tauto.
  - exists false. split; [done|]. split; [done|]. intros [_ H].
    apply (f_equal length) in H. rewrite !length_fmap in H. lia.
Qed.

(** In particular a completed handover and none compare as equal. *)
Theorem eq_gtp_ind_msg_ignores_handover m ho0 ho1 : gtp_ind_msg_ok m →
  eq_gtp_ind_msg (mk_gtp_ind_msg_t (ngut m) (len m) (tstamp m) ho0)
                 (mk_gtp_ind_msg_t (ngut m) (len m) (tstamp m) ho1) = Ret true.
Proof.
  intros (_ & Hl & _). unfold eq_gtp_ind_msg, ngut_arr in *. cbn [tstamp len ngut].
  rewrite !Z.eqb_refl, <-Hl, Nat2Z.id. cbn [negb orb].
  destruct (eq_arr_spec _ _ _ _ eq_gtp_ngut_spec (eq_refl (length (default [] (ngut m)))))
    as (b & -> & Hb). by rewrite (proj2 Hb eq_refl).
Qed.

(** *** Witnesses *)

(** A handover report with one tunnel. *)
Definition gtp_one_tunnel_msg : gtp_ind_msg_t :=
  mk_gtp_ind_msg_t
    (Some [c_make (replicate (length (items (c_layout (A := gtp_ngu_t_stats_t)))) 0%Z)
                  (replicate (layout_pad (c_layout (A := gtp_ngu_t_stats_t))) 0%Z)]) 1 5
    (mk_gtp_ho_info_t 9 1 2 1).

Lemma gtp_ind_msg_roundtrip_witness :
  gtp_ind_msg_ok gtp_one_tunnel_msg ∧
  ∃ bs, gtp_enc_ind_msg_plain gtp_one_tunnel_msg = Ret bs ∧
        length bs = 25 + sizeof gtp_ngu_t_stats_t * 1 ∧
        drop (length bs - 13) bs = enc_obj (mk_gtp_ho_info_t 9 1 2 1) ∧
        gtp_dec_ind_msg_plain bs = Ret gtp_one_tunnel_msg.
Proof.
  assert (gtp_ind_msg_ok gtp_one_tunnel_msg) as H by by_eval.
  split; [exact H|]. exact (gtp_ind_msg_roundtrip _ H).
Defined.

Lemma gtp_dec_ind_msg_cases_witness :
  Forall byte_ok (replicate 24 0%Z) ∧ gtp_dec_ind_msg_plain (replicate 24 0%Z) = Undef.
Proof.
  assert (Forall byte_ok (replicate 24 0%Z)) as H by by_eval.
  split; [exact H|]. exact (gtp_dec_ind_msg_cases (replicate 24 0%Z) H ltac:(cbn; lia)).
Defined.

Lemma eq_gtp_ind_msg_ignores_handover_witness :
  eq_gtp_ind_msg (mk_gtp_ind_msg_t (ngut gtp_one_tunnel_msg) 1 5 (mk_gtp_ho_info_t 9 1 2 1))
                 (mk_gtp_ind_msg_t (ngut gtp_one_tunnel_msg) 1 5 zero_ho_info) = Ret true.
Proof. apply (eq_gtp_ind_msg_ignores_handover gtp_one_tunnel_msg); by_eval. Defined.
