(* ===== verification/SmWire.v ===== *)
(** * Messages of variable layout

    What the plain codecs of the slice and TC service models share: arrays and strings
    behind pointers that may be NULL, with their length apart; loops over them; the
    writers and readers of tagged unions, strings and arrays; and [wired], which says
    that a writer and a reader agree. *)
From Stdlib Require Import Floats.SpecFloat.
From S2P Require Import Prelude CLayout SmCodec.
#[local] Open Scope Z_scope.

(** ** Reading through pointers *)

(** The first [n] elements behind a pointer; nothing is read of a NULL for 0. *)
Definition ptr_prefix {A} (n : Z) (p : option (list A)) : outcome (list A) :=
  if 0 <? n then match p with Some l => arr_prefix n l | None => Undef end else Ret [].

(** [malloc] or [calloc] of [n] elements and the copy, when there are any. *)
Definition ptr_dup {A} (n : Z) (p : option (list A)) : outcome (option (list A)) :=
  if 0 <? n then l ← ptr_prefix n p; Ret (Some l) else Ret None.

(** [assert(p != NULL); free(p)] when the length says there is something. *)
Definition free_ptr {A} (n : Z) (p : option (list A)) : outcome () :=
  if 0 <? n then c_assert (match p with Some _ => true | None => false end) else Ret ().

(** A loop over an array that returns at the first difference. *)
Fixpoint eq_for {A} (eqb : A → A → outcome bool) (n : nat) (l0 l1 : list A) : outcome bool :=
  match n with
  | O => Ret true
  | S n =>
      match l0, l1 with
      | x0 :: l0, x1 :: l1 => b ← eqb x0 x1; if b : bool then eq_for eqb n l0 l1 else Ret false
      | _, _ => Undef
      end
  end.

(** [for(i = 0; i < n; ++i) dst[i] = f(&src[i]);] *)
Fixpoint map_for {A B} (f : A → outcome B) (n : nat) (l : list A) : outcome (list B) :=
  match n with
  | O => Ret []
  | S n => match l with x :: l => y ← f x; ys ← map_for f n l; Ret (y :: ys) | [] => Undef end
  end.

(** [==] of two floats: a NaN is different from every float, the two zeros are equal. *)
Definition f32_nan (b : Z) : bool := 2139095040 <? Z.land b 2147483647.
Definition f32_eq (b0 b1 : Z) : bool :=
  negb (f32_nan b0) && negb (f32_nan b1) && ((b0 =? b1) || (Z.land b0 2147483647 =? 0) && (Z.land b1 2147483647 =? 0)).

Lemma f32_eq_refl b : f32_eq b b = negb (f32_nan b).
Proof. unfold f32_eq. rewrite Z.eqb_refl. by destruct (f32_nan b). Qed.

(** *** Comparing floats

    [src/src/util/alg_ds/alg/eq_float.c] over the bit patterns of its arguments, with the
    arithmetic of the Standard Library's specification of IEEE 754. *)

(** The number a [float] of these bits is. *)
Definition f32_of_bits (b : Z) : spec_float :=
  let s := Z.testbit b 31 in
  let e := (b / 2 ^ 23) mod 2 ^ 8 in
  let m := b mod 2 ^ 23 in
  if e =? 255 then (if m =? 0 then S754_infinity s else S754_nan)
  else if e =? 0 then match m with Zpos p => S754_finite s p (-149) | _ => S754_zero s end
  else match m + 2 ^ 23 with Zpos p => S754_finite s p (e - 150) | _ => S754_nan end.

(** A [float] as a [double]. *)
Definition f64_of_f32 (x : spec_float) : spec_float :=
  match x with S754_finite s m e => binary_normalize 53 1024 (cond_Zopp s (Zpos m)) e s | _ => x end.

(** [FLT_MIN], and the constants of the callers, as [double]. *)
Definition FLT_MIN : spec_float := S754_finite false 4503599627370496 (-178).
Definition eps_001 : spec_float := S754_finite false 5764607523034235 (-59).
Definition eps_0001 : spec_float := S754_finite false 4611686018427388 (-62).

Definition eq_float (a b : Z) (eps : spec_float) : outcome bool :=
  c_assert (negb (f32_nan a));;
  c_assert (negb (f32_nan b));;
  let x := f32_of_bits a in
  let y := f32_of_bits b in
  let absA := SFabs x in
  let absB := SFabs y in
  let diff := f64_of_f32 (SFabs (SFsub 24 128 x y)) in
  if f32_eq a b then Ret true
  else if f32_eq a 0 || f32_eq b 0 || SFltb diff FLT_MIN then Ret (SFltb diff (SFmul 53 1024 eps FLT_MIN))
  else Ret (SFltb (SFdiv 53 1024 diff (f64_of_f32 (SFadd 24 128 absA absB))) eps).

(** A float is close to itself, infinite ones too; what is not a number aborts. *)
Lemma eq_float_refl b eps : eq_float b b eps = if f32_nan b then Abort else Ret true.
Proof. unfold eq_float. rewrite f32_eq_refl. by destruct (f32_nan b). Qed.

(** 1 and 1 + 2^-10 are close at 0.01, 1 and -1 are not, nor 1 and 1.06 at 0.001. *)
Example eq_float_close : eq_float 1065353216 1065361408 eps_001 = Ret true.
Proof. vm_compute. reflexivity. Qed.
Example eq_float_far : eq_float 1065353216 3212836864 eps_001 = Ret false.
Proof. vm_compute. reflexivity. Qed.
Example eq_float_small : eq_float 1065353216 1065873409 eps_0001 = Ret false.
Proof. vm_compute. reflexivity. Qed.

(** [memcmp(p0, p1, n) == 0]. *)
Definition memcmp_eq (n : Z) (p0 p1 : option bytes) : outcome bool :=
  a ← ptr_prefix n p0; b ← ptr_prefix n p1; Ret (bool_decide (a = b)).

(** [a && b] of two calls. *)
Definition c_and (a b : outcome bool) : outcome bool := x ← a; if x : bool then b else Ret false.

(** NULL is the empty array. *)
Definition free_arr {A} (n : Z) (l : list A) : outcome () :=
  if 0 <? n then c_assert (match l with [] => false | _ => true end) else Ret ().

(** ** Writing *)

(** [for(i = 0; i < n; ++i){ tmp = fill(it, &l[i]); it += tmp; sz += tmp; }] *)
Fixpoint w_for {A} (fill : A → writer) (n : nat) (l : list A) : writer :=
  match n with
  | O => w_nil
  | S n => match l with x :: l => fill x >>> w_for fill n l | [] => λ _ _, Undef end
  end.

(** [for(i = 0; i < n; ++i) sz += cal(&l[i]);] *)
Fixpoint cal_for {A} (cal : A → outcome Z) (n : nat) (l : list A) : outcome Z :=
  match n with
  | O => Ret 0
  | S n => match l with x :: l => a ← cal x; b ← cal_for cal n l; Ret (a + b) | [] => Undef end
  end.

(** [memcpy(it, p, n)] *)
Definition w_ptr (n : Z) (p : option bytes) : writer := λ buf it,
  l ← ptr_prefix n p; w_memcpy l buf it.

(** [assert(it < end)], where [end] is the end of the buffer. *)
Definition w_before_end : writer := λ buf it, c_assert (it <? length buf)%nat;; Ret (buf, 0%nat).

(** ** Reading *)

(** [if(n > 0){ p = calloc(1, n + 1); memcpy(p, it, n); it += n; }]: the string ends
    with a 0; [n + 1] is a [uint32_t]. *)
Definition rd_str (n : Z) : reader (option bytes) := λ it,
  if 0 <? n then
    '(s, it) ← rd_bytes (Z.to_nat n) it;
    in_bounds (n <=? wrap 32 (n + 1));;
    Ret (Some (s ++ [0]), it)
  else Ret (None, it).

(** [if(n > 0) p = calloc(n, sizeof(uint32_t));] and the loop that fills it. *)
Definition rd_u32s (n : Z) : reader (option (list Z)) := λ it,
  '(l, it) ← rd_n (rd_scalar CU32) (Z.to_nat n) it;
  Ret (if 0 <? n then Some l else None, it).

Definition rd_abort {A} : reader A := λ it, Abort.

(** [assert(it < msg + len)] *)
Definition rd_before_end : reader () := λ it, c_assert (0 <? length it)%nat;; Ret ((), it).

(** ** A writer and a reader agree

    [wired w n r x]: [w] writes [n] bytes wherever they fit, which [r] reads as [x]. *)

(** [w] writes [bs] when it fits. *)
Definition puts (w : writer) (bs : bytes) : Prop :=
  ∀ buf it, (it + length bs <= length buf)%nat →
  w buf it = Ret (take it buf ++ bs ++ drop (it + length bs) buf, length bs).

Definition wired {A} (w : writer) (n : Z) (r : reader A) (x : A) : Prop :=
  ∃ bs, Z.of_nat (length bs) = n ∧ puts w bs ∧ reads r x bs.

Lemma writes_puts w bs : writes w bs → puts w bs.
Proof. intros Hw buf it Hit. rewrite Hw by lia. by rewrite (proj2 (Nat.leb_le _ _)). Qed.

Lemma puts_seq w1 w2 b1 b2 : puts w1 b1 → puts w2 b2 → puts (w1 >>> w2) (b1 ++ b2).
Proof.
  intros H1 H2 buf it Hit. rewrite length_app in Hit. unfold w_seq. rewrite H1 by lia. cbn [mbind outcome_bind].
  assert (length (take it buf ++ b1 ++ drop (it + length b1) buf) = length buf) as Hl
    by (rewrite !length_app, length_take, length_drop; lia).
  rewrite H2 by lia. cbn [mbind outcome_bind]. rewrite (length_app b1 b2). f_equal. f_equal.
  rewrite (assoc_L (++) (take it buf)). rewrite take_app_length' by (rewrite length_app, length_take; lia).
  rewrite drop_app_ge by (rewrite length_app, length_take; lia).
  rewrite length_app, length_take, drop_drop, <-!(assoc_L (++)). do 3 f_equal. f_equal. lia.
Qed.

Lemma w_seq_assoc w1 w2 w3 buf it : (w1 >>> w2 >>> w3) buf it = (w1 >>> (w2 >>> w3)) buf it.
Proof.
  unfold w_seq. destruct (w1 buf it) as [[b1 s1]| | | |]; [|done..]. cbn [mbind outcome_bind].
  destruct (w2 b1 (it + s1)%nat) as [[b2 s2]| | | |]; [|done..]. cbn [mbind outcome_bind]. rewrite Nat.add_assoc.
  destruct (w3 b2 (it + s1 + s2)%nat) as [[b3 s3]| | | |]; [|done..]. cbn [mbind outcome_bind]. by rewrite Nat.add_assoc.
Qed.

Lemma wired_assoc {A} w1 w2 w3 n (r : reader A) x : wired (w1 >>> (w2 >>> w3)) n r x → wired (w1 >>> w2 >>> w3) n r x.
Proof. intros (bs & Hl & Hp & Hr). exists bs. split_and!; [done| |done]. intros buf it Hit. rewrite w_seq_assoc. by apply Hp. Qed.

Lemma wired_eq {A} w n m (r : reader A) x : wired w n r x → n = m → wired w m r x.
Proof. by intros H <-. Qed.

Lemma wired_ext {A} w n (r r' : reader A) x : (∀ it, r it = r' it) → wired w n r x → wired w n r' x.
Proof. intros Hr (bs & Hl & Hp & Hrd). exists bs. split_and!; [done|done|]. intros rest. by rewrite <-Hr. Qed.

Lemma wired_seq {A B} w1 w2 n1 n2 (r1 : reader A) (k : A → reader B) x y :
  wired w1 n1 r1 x → wired w2 n2 (k x) y → wired (w1 >>> w2) (n1 + n2) (λ it, '(a, it) ← r1 it; k a it) y.
Proof.
  intros (b1 & Hl1 & Hp1 & Hr1) (b2 & Hl2 & Hp2 & Hr2). exists (b1 ++ b2). split_and!.
  - rewrite length_app. lia.
  - by apply puts_seq.
  - intros rest. rewrite <-(assoc_L (++)), Hr1. cbn [mbind outcome_bind]. apply Hr2.
Qed.

(** The last part of a message; what is read is put together. *)
Lemma wired_end {A B} w n (r : reader A) (k : A → reader B) x y :
  wired w n r x → (∀ it, k x it = Ret (y, it)) → wired w n (λ it, '(a, it) ← r it; k a it) y.
Proof.
  intros (bs & Hl & Hp & Hr) Hk. exists bs. split_and!; [done|done|]. intros rest. rewrite Hr. cbn [mbind outcome_bind]. apply Hk.
Qed.

Lemma wired_scalar t v n : cval_ok t v → n = Z.of_nat (csize t) → wired (w_scalar t v) n (rd_scalar t) v.
Proof.
  intros Hv ->. exists (enc_scalar t v). split_and!; [by rewrite length_enc_scalar|apply writes_puts, writes_scalar|by apply rd_scalar_enc].
Qed.

Lemma wired_before_end {A} w n (r : reader A) x : 0 < n → wired w n r x → wired (w_before_end >>> w) n r x.
Proof.
  intros Hn (bs & Hl & Hp & Hr). exists bs. split_and!; [done| |done]. intros buf it Hit. unfold w_seq, w_before_end.
  rewrite (proj2 (Nat.ltb_lt _ _)) by lia. cbn [c_assert mbind outcome_bind]. rewrite Nat.add_0_r, Hp by done. done.
Qed.

Lemma wired_obj `{CStruct A} (a : A) n : c_ok a → n = Z.of_nat (sizeof A) → wired (w_obj a) n rd_obj a.
Proof.
  intros Ha ->. exists (enc_obj a). split_and!; [by rewrite length_enc_obj|apply writes_puts, writes_obj|by apply rd_obj_enc].
Qed.

(** The decoder checks too that the message goes on. *)
Lemma wired_going_on {A} w n (r : reader A) x :
  0 < n → wired w n r x → wired (w_before_end >>> w) n (λ it, '(_, it) ← rd_before_end it; r it) x.
Proof.
  intros Hn Hw. apply wired_before_end; [done|]. destruct Hw as (bs & Hl & Hp & Hr). exists bs. split_and!; [done|done|].
  intros rest. unfold rd_before_end. rewrite length_app. rewrite (proj2 (Nat.ltb_lt _ _)) by lia. cbn [c_assert mbind outcome_bind]. apply Hr.
Qed.

(** *** Arrays *)

Definition zsum (l : list Z) : Z := foldr Z.add 0 l.

Lemma zsum_nonneg l : Forall (λ x, 0 <= x) l → 0 <= zsum l.
Proof. unfold zsum. induction 1 as [|x l Hx _ IH]; cbn [foldr]; lia. Qed.

Lemma zsum_const {A} c (l : list A) : zsum ((λ _, c) <$> l) = Z.of_nat (length l) * c.
Proof. induction l as [|x l IH]; [done|]. change (c + zsum ((λ _ : A, c) <$> l) = Z.of_nat (S (length l)) * c). lia. Qed.

Lemma wired_for {A B} (fill : A → writer) (sz : A → Z) (rd : reader B) (f : A → B) l :
  Forall (λ x, wired (fill x) (sz x) rd (f x)) l →
  wired (w_for fill (length l) l) (zsum (sz <$> l)) (rd_n rd (length l)) (f <$> l).
Proof.
  induction 1 as [|x l Hx _ IH].
  - exists []. split_and!; [done|apply writes_puts, writes_nil|done].
  - cbn [w_for length rd_n fmap list_fmap zsum foldr]. apply (wired_seq _ _ _ _ rd (λ a it, '(xs, it) ← rd_n rd (length l) it; Ret (a :: xs, it)) (f x)); [done|].
    by apply (wired_end _ _ _ (λ xs it, Ret (f x :: xs, it)) (f <$> l)).
Qed.

Lemma cal_for_ok {A} (cal : A → outcome Z) (sz : A → Z) l : Forall (λ x, cal x = Ret (sz x)) l →
  cal_for cal (length l) l = Ret (zsum (sz <$> l)).
Proof. induction 1 as [|x l Hx _ IH]; [done|]. cbn [length cal_for]. rewrite Hx, outcome_bind_ret_l, IH. done. Qed.

Lemma rd_n_ext {A} (rd : reader A) (n m : nat) : n = m → rd_n rd n = rd_n rd m.
Proof. by intros ->. Qed.

Lemma map_for_ok {A B} (f : A → outcome B) (g : A → B) l : Forall (λ x, f x = Ret (g x)) l → map_for f (length l) l = Ret (g <$> l).
Proof. induction 1 as [|x l Hx _ IH]; [done|]. cbn [length map_for]. by rewrite Hx, outcome_bind_ret_l, IH. Qed.

(** An array of scalars. *)
Lemma wired_scalars t sz l : sz = Z.of_nat (csize t) → Forall (cval_ok t) l →
  wired (w_for (w_scalar t) (length l) l) (Z.of_nat (length l) * sz) (rd_n (rd_scalar t) (length l)) l.
Proof.
  intros -> Hl. rewrite <-(list_fmap_id l) at 5. apply (wired_eq _ (zsum ((λ _, Z.of_nat (csize t)) <$> l))).
  - apply (wired_for _ (λ _, Z.of_nat (csize t)) _ id). eapply Forall_impl; [|exact Hl]. intros x Hx. by apply wired_scalar.
  - apply zsum_const.
Qed.

(** *** Strings *)

(** A length, and a pointer to at least that many characters unless it is 0; the
    decoder appends a 0 to a string, its length still being a [uint32_t]. *)
Definition str_ok (n : Z) (p : option bytes) : Prop :=
  0 <= n < 2 ^ 32 - 1 ∧ (0 < n → match p with Some l => n <= Z.of_nat (length l) | None => False end).
#[export] Instance str_ok_dec n p : Decision (str_ok n p).
Proof. unfold str_ok. destruct p; apply _. Defined.

(** What the decoder makes of it. *)
Definition str_read (n : Z) (p : option bytes) : option bytes :=
  if 0 <? n then Some (take (Z.to_nat n) (default [] p) ++ [0]) else None.

Lemma ptr_prefix_ok {A} n (p : option (list A)) : 0 <= n → (0 < n → match p with Some l => n <= Z.of_nat (length l) | None => False end) →
  ptr_prefix n p = Ret (take (Z.to_nat n) (default [] p)).
Proof.
  intros H0 Hp. unfold ptr_prefix. destruct (Z.ltb_spec 0 n) as [Hn|Hn].
  - destruct p as [l|]; [|by destruct (Hp Hn)]. specialize (Hp Hn). unfold arr_prefix. rewrite (proj2 (Nat.leb_le _ _)) by lia. done.
  - assert (n = 0) as -> by lia. done.
Qed.

Lemma wired_str n p : str_ok n p → wired (w_ptr n p) n (rd_str n) (str_read n p).
Proof.
  intros [Hn Hp]. pose proof (ptr_prefix_ok n p ltac:(lia) Hp) as Hpre. set (s := take (Z.to_nat n) (default [] p)) in *.
  assert (length s = Z.to_nat n) as Hl.
  { unfold s. rewrite length_take. destruct (decide (0 < n)) as [H|H]; [|lia]. specialize (Hp H). destruct p; [cbn; lia|done]. }
  exists s. split_and!; [lia| |].
  - intros buf it Hit. unfold w_ptr. rewrite Hpre. cbn [mbind outcome_bind]. by apply writes_puts; [apply writes_memcpy|].
  - intros rest. unfold rd_str, str_read. destruct (Z.ltb_spec 0 n) as [H|H].
    + rewrite rd_bytes_app by done. cbn [mbind outcome_bind]. rewrite (wrap_id 32 (n + 1)) by (unfold u_ok; lia).
      rewrite (proj2 (Z.leb_le _ _)) by lia. done.
    + assert (n = 0) as -> by lia. by destruct s.
Qed.

(** An array of [uint32_t] behind a pointer. *)
Definition u32s_ok (n : Z) (p : option (list Z)) : Prop :=
  u_ok 32 n ∧ match p with Some l => Z.of_nat (length l) = n ∧ 0 < n ∧ Forall (cval_ok CU32) l | None => n = 0 end.
#[export] Instance u32s_ok_dec n p : Decision (u32s_ok n p).
Proof. unfold u32s_ok. destruct p; apply _. Defined.

Lemma wired_u32s n p : u32s_ok n p → wired (w_for (w_scalar CU32) (Z.to_nat n) (default [] p)) (4 * n) (rd_u32s n) p.
Proof.
  intros [Hn Hp]. destruct p as [l|].
  - destruct Hp as (<- & H0 & Hl). rewrite Nat2Z.id. eapply wired_eq; [|exact (Z.mul_comm _ 4)]. unfold rd_u32s. rewrite Nat2Z.id.
    apply (wired_end _ _ _ (λ l' it, Ret (if 0 <? Z.of_nat (length l) then Some l' else None, it)) l).
    + by apply wired_scalars.
    + intros it. by rewrite (proj2 (Z.ltb_lt _ _)).
  - subst n. exists []. split_and!; [done|apply writes_puts, writes_nil|done].
Qed.

(** *** Whole messages *)

Lemma fill_puts w b n : puts w b → Z.of_nat (length b) = n → n < 2 ^ 64 → fill_buffer (Z.to_nat (wrap 64 n)) w = Ret b.
Proof.
  intros Hp Hl Hn. rewrite wrap_id by (unfold u_ok; lia). rewrite <-Hl, Nat2Z.id. unfold fill_buffer. rewrite Hp by (rewrite length_replicate; lia).
  cbn [mbind outcome_bind]. rewrite Nat.eqb_refl. cbn [c_assert mbind outcome_bind]. rewrite drop_ge by (rewrite length_replicate; lia). by rewrite app_nil_r.
Qed.

(** A size computed too large. *)
Lemma fill_puts_short w b n : puts w b → Z.of_nat (length b) < n → n < 2 ^ 64 → fill_buffer (Z.to_nat (wrap 64 n)) w = Abort.
Proof.
  intros Hp Hl Hn. rewrite wrap_id by (unfold u_ok; lia). unfold fill_buffer. rewrite Hp by (rewrite length_replicate; lia).
  cbn [mbind outcome_bind]. rewrite (proj2 (Nat.eqb_neq _ _)) by lia. done.
Qed.

Lemma fill_wired {A} w n (r : reader A) x : wired w n r x → n < 2 ^ 64 →
  ∃ bs, fill_buffer (Z.to_nat (wrap 64 n)) w = Ret bs ∧ Z.of_nat (length bs) = n ∧ r bs = Ret (x, []).
Proof.
  intros (bs & Hl & Hp & Hr) Hn. exists bs. split_and!; [by apply fill_puts|done|by rewrite <-(app_nil_r bs), Hr].
Qed.

(** ** What a reader accepts

    [parsed r P]: whatever [r] reads, from any bytes, is some [x] off the first bytes
    [b] of them, with [P x b]. *)
Definition parsed {A} (r : reader A) (P : A → bytes → Prop) : Prop :=
  ∀ bs x rest, Forall byte_ok bs → r bs = Ret (x, rest) → ∃ b, bs = b ++ rest ∧ P x b.

Lemma parsed_ret {A} (x : A) (P : A → bytes → Prop) : P x [] → parsed (λ it, Ret (x, it)) P.
Proof. intros HP bs y rest _ [= -> ->]. by exists []. Qed.

Lemma parsed_abort {A} (P : A → bytes → Prop) : parsed (λ it, Abort) P.
Proof. by intros bs x rest _ [=]. Qed.

Lemma parsed_seq {A B} (r1 : reader A) (k : A → reader B) P1 P :
  parsed r1 P1 → (∀ a b1, P1 a b1 → parsed (k a) (λ y b2, P y (b1 ++ b2))) →
  parsed (λ it, '(a, it) ← r1 it; k a it) P.
Proof.
  intros H1 H2 bs y rest Hb. destruct (r1 bs) as [[a i1]| | | |] eqn:E1; [|by intros [=]..]. cbn [mbind outcome_bind].
  destruct (H1 _ _ _ Hb E1) as (b1 & -> & HP1). apply Forall_app in Hb as [_ Hb]. intros E2.
  destruct (H2 a b1 HP1 _ _ _ Hb E2) as (b2 & -> & HP). exists (b1 ++ b2). by rewrite (assoc_L (++)).
Qed.

Lemma parsed_if {A} (b : bool) (r1 r2 : reader A) P :
  (b = true → parsed r1 P) → (b = false → parsed r2 P) → parsed (λ it, if b then r1 it else r2 it) P.
Proof. intros H1 H2. destruct b; [exact (H1 eq_refl)|exact (H2 eq_refl)]. Qed.

Lemma parsed_bytes n : parsed (rd_bytes n) (λ s b, b = s ∧ length s = n).
Proof.
  intros bs x rest Hb. unfold rd_bytes. rewrite in_bounds_if. destruct (Nat.leb_spec n (length bs)); [|by intros [=]].
  cbn [mbind outcome_bind]. intros [= <- <-]. exists (take n bs). rewrite take_drop, length_take. split_and!; [done|done|lia].
Qed.

Lemma parsed_scalar t : t ≠ CBool → parsed (rd_scalar t) (λ v b, cval_ok t v ∧ b = enc_scalar t v).
Proof.
  intros Ht bs x rest Hb. unfold rd_scalar, rd_bytes. rewrite in_bounds_if. destruct (Nat.leb_spec (csize t) (length bs)); [|by intros [=]].
  cbn [mbind outcome_bind]. intros [= <- <-]. exists (take (csize t) bs).
  assert (Forall byte_ok (take (csize t) bs)) by by apply Forall_take.
  assert (length (take (csize t) bs) = csize t) by (rewrite length_take; lia).
  split_and!; [by rewrite take_drop|by apply dec_scalar_ok|by rewrite enc_dec_scalar].
Qed.

Lemma puts_scalar t v : puts (w_scalar t v) (enc_scalar t v).
Proof. apply writes_puts, writes_scalar. Qed.

Lemma puts_nil : puts w_nil [].
Proof. apply writes_puts, writes_nil. Qed.

Lemma puts_assoc w1 w2 w3 b : puts (w1 >>> (w2 >>> w3)) b → puts (w1 >>> w2 >>> w3) b.
Proof. intros Hp buf it Hit. rewrite w_seq_assoc. by apply Hp. Qed.

Lemma puts_before_end w b : (0 < length b)%nat → puts w b → puts (w_before_end >>> w) b.
Proof.
  intros Hn Hp buf it Hit. unfold w_seq, w_before_end.
  rewrite (proj2 (Nat.ltb_lt _ _)) by lia. cbn [c_assert mbind outcome_bind]. by rewrite Nat.add_0_r, Hp.
Qed.

(** A well-typed value, which the writer [w] gives back. *)
Definition typed {A} (ok : A → Prop) (w : A → writer) (sz : A → Z) (x : A) (b : bytes) : Prop :=
  ok x ∧ puts (w x) b ∧ Z.of_nat (length b) = sz x.

Lemma parsed_for {A} (rd : reader A) ok w sz n : parsed rd (typed ok w sz) →
  parsed (rd_n rd n) (λ l b, length l = n ∧ Forall ok l ∧ puts (w_for w n l) b ∧ Z.of_nat (length b) = zsum (sz <$> l)).
Proof.
  intros Hrd. induction n as [|n IH].
  - apply parsed_ret. split_and!; [done|done|exact puts_nil|done].
  - cbn [rd_n]. apply (parsed_seq _ (λ x it, '(xs, it) ← rd_n rd n it; Ret (x :: xs, it)) _ _ Hrd). intros x b1 (Hx & Hp1 & Hl1).
    apply (parsed_seq _ (λ xs it, Ret (x :: xs, it)) _ _ IH). intros xs b2 (<- & Hxs & Hp2 & Hl2). apply parsed_ret. rewrite app_nil_r.
    cbn [length w_for fmap list_fmap zsum foldr]. unfold zsum in Hl2. split_and!; [done|by constructor|by apply puts_seq|rewrite length_app; lia].
Qed.

Lemma parsed_scalars t n : t ≠ CBool →
  parsed (rd_n (rd_scalar t) n) (λ l b, length l = n ∧ Forall (cval_ok t) l ∧ puts (w_for (w_scalar t) n l) b ∧ Z.of_nat (length b) = Z.of_nat n * Z.of_nat (csize t)).
Proof.
  intros Ht bs l rest Hb Hr. destruct (parsed_for (rd_scalar t) (cval_ok t) (w_scalar t) (λ _, Z.of_nat (csize t)) n) with (bs := bs) (x := l) (rest := rest)
    as (b & -> & Hl & Hok & Hp & Hlen); [|done|done|].
  - intros bs' x rest' Hb' Hr'. destruct (parsed_scalar t Ht _ _ _ Hb' Hr') as (b & -> & Hv & ->). eexists. split; [done|].
    split_and!; [done|apply puts_scalar|by rewrite length_enc_scalar].
  - exists b. split_and!; try done. rewrite Hlen, <-Hl. apply zsum_const.
Qed.

Lemma parsed_u32s n : u_ok 32 n →
  parsed (rd_u32s n) (λ p b, u32s_ok n p ∧ puts (w_for (w_scalar CU32) (Z.to_nat n) (default [] p)) b ∧ Z.of_nat (length b) = 4 * n).
Proof.
  intros Hn. apply (parsed_seq _ (λ l it, Ret (if 0 <? n then Some l else None, it)) _ _ (parsed_scalars CU32 (Z.to_nat n) ltac:(done))).
  intros l b (Hl & Hok & Hp & Hlen). assert (0 <= n) by (unfold u_ok in Hn; lia). apply parsed_ret. rewrite app_nil_r. unfold u32s_ok.
  change (csize CU32) with 4%nat in Hlen. destruct (Z.ltb_spec 0 n).
  - split_and!; [done|lia|done|done|done|lia].
  - assert (n = 0) as -> by lia. split_and!; [done|done|by destruct l|lia].
Qed.

Lemma parsed_str n : u_ok 32 n → parsed (rd_str n) (λ p b, str_ok n p ∧ puts (w_ptr n p) b ∧ Z.of_nat (length b) = n).
Proof.
  intros Hn. unfold rd_str. destruct (Z.ltb_spec 0 n) as [H0|H0].
  - apply (parsed_seq _ (λ s it, in_bounds (n <=? wrap 32 (n + 1));; Ret (Some (s ++ [0]), it)) _ _ (parsed_bytes (Z.to_nat n))).
    intros s b [-> Hl]. destruct (decide (n = 2 ^ 32 - 1)) as [->|Hne]; [by intros bs x rest _ [=]|].
    assert (u_ok 32 (n + 1)) as Hn1 by (unfold u_ok in *; lia). rewrite (wrap_id 32 (n + 1)) by done.
    rewrite (proj2 (Z.leb_le _ _)) by lia. cbn [in_bounds mbind outcome_bind]. apply parsed_ret. rewrite app_nil_r.
    assert (str_ok n (Some (s ++ [0]))) as Hok by (unfold str_ok, u_ok in *; rewrite length_app; lia).
    split_and!; [done| |lia]. destruct Hok as [_ Hp]. pose proof (ptr_prefix_ok n (Some (s ++ [0])) ltac:(lia) Hp) as Hpre.
    change (default [] (Some (s ++ [0]))) with (s ++ [0]) in Hpre. rewrite take_app_length' in Hpre by done.
    intros buf it Hit. unfold w_ptr. rewrite Hpre. cbn [mbind outcome_bind]. by apply writes_puts; [apply writes_memcpy|].
  - assert (n = 0) as -> by (unfold u_ok in Hn; lia). apply parsed_ret. split_and!; [done|exact (writes_puts _ _ (writes_memcpy []))|done].
Qed.

(** The bytes of a record, in order. *)
Ltac put_all tac := repeat (simple apply puts_assoc); repeat (simple apply puts_seq; [first [exact (puts_scalar _ _) | tac]|]); first [exact (puts_scalar _ _) | tac].
