(* ===== verification/SliceData.v ===== *)
(** * Slice service model: data, copies and comparison

    [src/src/sm/slice_sm/ie/slice_data_ie.h] and [.c].  A pointer to characters or to
    an array that may be NULL is an option; the array is what it points to, its length
    field is apart.  Floats are bit patterns; unions are sums over the tag, with a
    constructor for the tags the code does not know. *)
From S2P Require Import Prelude CLayout SmCodec SmWire.
#[local] Open Scope Z_scope.

(** ** Data *)

Record slice_event_trigger_t := mk_slice_event_trigger { sl_et_ms : Z }.

Record slice_ind_hdr_t := mk_slice_ind_hdr { sl_ih_dummy : Z }.
#[export] Instance slice_ind_hdr_t_struct : CStruct slice_ind_hdr_t :=
  u32_struct mk_slice_ind_hdr sl_ih_dummy (λ '(mk_slice_ind_hdr z), eq_refl) (λ _, eq_refl).

Record slice_call_proc_id_t := mk_slice_call_proc_id { sl_cpi_dummy : Z }.

Record slice_ctrl_hdr_t := mk_slice_ctrl_hdr { sl_ch_dummy : Z }.
#[export] Instance slice_ctrl_hdr_t_struct : CStruct slice_ctrl_hdr_t :=
  u32_struct mk_slice_ctrl_hdr sl_ch_dummy (λ '(mk_slice_ctrl_hdr z), eq_refl) (λ _, eq_refl).

Record static_slice_t := mk_static_slice { pos_low : Z; pos_high : Z }.

Record nvs_rate_t := mk_nvs_rate { mbps_required : Z; mbps_reference : Z }.
Record nvs_capacity_t := mk_nvs_capacity { pct_reserved : Z }.

(** [nvs_slice_conf_e] and the union. *)
Inductive nvs_slice_t :=
| SLICE_SM_NVS_V0_RATE (rate : nvs_rate_t)
| SLICE_SM_NVS_V0_CAPACITY (capacity : nvs_capacity_t)
| NVS_OTHER (conf : Z).
Definition nvs_conf (n : nvs_slice_t) : Z :=
  match n with SLICE_SM_NVS_V0_RATE _ => 0 | SLICE_SM_NVS_V0_CAPACITY _ => 1 | NVS_OTHER c => c end.

Record scn19_on_demand_t := mk_scn19_on_demand { od_pct_reserved : Z; od_log_delta : Z; od_tau : Z }.

(** [scn19_slice_conf_e] and the union. *)
Inductive scn19_slice_t :=
| SLICE_SCN19_SM_V0_DYNAMIC (dynamic : nvs_rate_t)
| SLICE_SCN19_SM_V0_FIXED (fixed : static_slice_t)
| SLICE_SCN19_SM_V0_ON_DEMAND (on_demand : scn19_on_demand_t)
| SCN19_OTHER (conf : Z).
Definition scn19_conf (s : scn19_slice_t) : Z :=
  match s with
  | SLICE_SCN19_SM_V0_DYNAMIC _ => 0
  | SLICE_SCN19_SM_V0_FIXED _ => 1
  | SLICE_SCN19_SM_V0_ON_DEMAND _ => 2
  | SCN19_OTHER c => c
  end.

Record edf_slice_t := mk_edf_slice {
  deadline : Z; guaranteed_prbs : Z; max_replenish : Z; len_over : Z; over : option (list Z) }.

(** [slice_algorithm_e] and the union; no member for [SLICE_ALG_SM_V0_NONE]. *)
Inductive slice_params_t :=
| SLICE_ALG_SM_V0_STATIC (sta : static_slice_t)
| SLICE_ALG_SM_V0_NVS (nvs : nvs_slice_t)
| SLICE_ALG_SM_V0_SCN19 (scn19 : scn19_slice_t)
| SLICE_ALG_SM_V0_EDF (edf : edf_slice_t)
| PARAMS_OTHER (type : Z).
Definition params_type (p : slice_params_t) : Z :=
  match p with
  | SLICE_ALG_SM_V0_STATIC _ => 1
  | SLICE_ALG_SM_V0_NVS _ => 2
  | SLICE_ALG_SM_V0_SCN19 _ => 3
  | SLICE_ALG_SM_V0_EDF _ => 4
  | PARAMS_OTHER t => t
  end.

Record fr_slice_t := mk_fr_slice {
  sl_id : Z; len_label : Z; label : option bytes; len_sched : Z; sched : option bytes; params : slice_params_t }.

Record ul_dl_slice_conf_t := mk_ul_dl_slice_conf {
  len_slices : Z; slices : list fr_slice_t; len_sched_name : Z; sched_name : option bytes }.

Record slice_conf_t := mk_slice_conf { sc_dl : ul_dl_slice_conf_t; sc_ul : ul_dl_slice_conf_t }.

Record ue_slice_assoc_t := mk_ue_slice_assoc { dl_id : Z; ul_id : Z; sa_rnti : Z }.

Record ue_slice_conf_t := mk_ue_slice_conf { len_ue_slice : Z; ues : list ue_slice_assoc_t }.

Record slice_ind_msg_t := mk_slice_ind_msg { slice_conf : slice_conf_t; ue_slice_conf : ue_slice_conf_t; sl_tstamp : Z }.

Record slice_ind_data_t := mk_slice_ind_data {
  sl_hdr : slice_ind_hdr_t; sl_msg : slice_ind_msg_t; sl_proc_id : option slice_call_proc_id_t }.

Record del_slice_conf_t := mk_del_slice_conf { len_dl : Z; del_dl : list Z; len_ul : Z; del_ul : list Z }.

(** [slice_ctrl_msg_e] and the union. *)
Inductive slice_ctrl_msg_t :=
| SLICE_CTRL_SM_V0_ADD (add_mod_slice : slice_conf_t)
| SLICE_CTRL_SM_V0_DEL (del_slice : del_slice_conf_t)
| SLICE_CTRL_SM_V0_UE_SLICE_ASSOC (ue_slice : ue_slice_conf_t)
| CTRL_OTHER (type : Z).
Definition ctrl_msg_type (m : slice_ctrl_msg_t) : Z :=
  match m with
  | SLICE_CTRL_SM_V0_ADD _ => 0
  | SLICE_CTRL_SM_V0_DEL _ => 1
  | SLICE_CTRL_SM_V0_UE_SLICE_ASSOC _ => 2
  | CTRL_OTHER t => t
  end.

Record slice_ctrl_out_t := mk_slice_ctrl_out { sl_ans : Z; len_diag : Z; diagnostic : option bytes }.

Record slice_func_def_t := mk_slice_func_def { len_supported_alg : Z; supported_alg : list Z }.

Record slice_ctrl_req_data_t := mk_slice_ctrl_req_data { sl_cr_hdr : slice_ctrl_hdr_t; sl_cr_msg : slice_ctrl_msg_t }.

(** ** Comparison *)

Definition eq_static_slice (m0 m1 : static_slice_t) : bool := (pos_high m0 =? pos_high m1) && (pos_low m0 =? pos_low m1).

Definition eq_nvs_rate (m0 m1 : nvs_rate_t) : bool :=
  f32_eq (mbps_reference m0) (mbps_reference m1) && f32_eq (mbps_required m0) (mbps_required m1).

Definition eq_nvs_cap (m0 m1 : nvs_capacity_t) : bool := f32_eq (pct_reserved m0) (pct_reserved m1).

Definition eq_nvs_slice (m0 m1 : nvs_slice_t) : bool :=
  match m0, m1 with
  | SLICE_SM_NVS_V0_RATE r0, SLICE_SM_NVS_V0_RATE r1 => eq_nvs_rate r0 r1
  | SLICE_SM_NVS_V0_CAPACITY c0, SLICE_SM_NVS_V0_CAPACITY c1 => eq_nvs_cap c0 c1
  | _, _ => false
  end.

Definition eq_scn19_on_demand (m0 m1 : scn19_on_demand_t) : bool :=
  f32_eq (od_log_delta m0) (od_log_delta m1) && f32_eq (od_pct_reserved m0) (od_pct_reserved m1) && (od_tau m0 =? od_tau m1).

Definition eq_scn19_slice (m0 m1 : scn19_slice_t) : bool :=
  match m0, m1 with
  | SLICE_SCN19_SM_V0_DYNAMIC r0, SLICE_SCN19_SM_V0_DYNAMIC r1 => eq_nvs_rate r0 r1
  | SLICE_SCN19_SM_V0_FIXED s0, SLICE_SCN19_SM_V0_FIXED s1 => eq_static_slice s0 s1
  | SLICE_SCN19_SM_V0_ON_DEMAND d0, SLICE_SCN19_SM_V0_ON_DEMAND d1 => eq_scn19_on_demand d0 d1
  | _, _ => false
  end.

(** [over[i]] of a NULL pointer, or past the array. *)
Fixpoint eq_over (n : nat) (l0 l1 : list Z) : outcome () :=
  match n with
  | O => Ret ()
  | S n =>
      match l0, l1 with
      | x0 :: l0, x1 :: l1 => c_assert (x0 =? x1);; eq_over n l0 l1
      | _, _ => Undef
      end
  end.

Definition eq_edf_slice (m0 m1 : edf_slice_t) : outcome bool :=
  c_assert (len_over m0 =? len_over m1);;
  eq_over (Z.to_nat (len_over m0)) (default [] (over m0)) (default [] (over m1));;
  Ret ((deadline m0 =? deadline m1) && (guaranteed_prbs m0 =? guaranteed_prbs m1) &&
       (max_replenish m0 =? max_replenish m1) && (len_over m0 =? len_over m1)).

(** Different parameters of one algorithm abort. *)
Definition eq_slice_params (m0 m1 : slice_params_t) : outcome bool :=
  if negb (params_type m0 =? params_type m1) then Ret false
  else
    ret ← match m0, m1 with
          | SLICE_ALG_SM_V0_STATIC s0, SLICE_ALG_SM_V0_STATIC s1 => Ret (eq_static_slice s0 s1)
          | SLICE_ALG_SM_V0_NVS n0, SLICE_ALG_SM_V0_NVS n1 => Ret (eq_nvs_slice n0 n1)
          | SLICE_ALG_SM_V0_SCN19 s0, SLICE_ALG_SM_V0_SCN19 s1 => Ret (eq_scn19_slice s0 s1)
          | SLICE_ALG_SM_V0_EDF e0, SLICE_ALG_SM_V0_EDF e1 => eq_edf_slice e0 e1
          | _, _ => Ret false
          end;
    c_assert ret;;
    Ret ret.

(** The scheduler of the slice is not compared. *)
Definition eq_slice (m0 m1 : fr_slice_t) : outcome bool :=
  if negb (sl_id m0 =? sl_id m1) then Ret false
  else if negb (len_label m0 =? len_label m1) then Ret false
  else
    b ← memcmp_eq (len_label m0) (label m0) (label m1);
    if negb b then Ret false
    else if negb (len_sched m0 =? len_sched m1) then Ret false
    else eq_slice_params (params m0) (params m1).

(** Of two objects: the pointers are equal only if both are NULL. *)
Definition eq_sched_name (m0 m1 : option bytes) (len : Z) : outcome bool :=
  match m0, m1 with
  | None, None => Ret true
  | Some _, Some _ => memcmp_eq len m0 m1
  | _, _ => Ret false
  end.

Definition eq_ul_dl_slice_conf (m0 m1 : ul_dl_slice_conf_t) : outcome bool :=
  if negb (len_sched_name m0 =? len_sched_name m1) then Ret false
  else
    b ← eq_sched_name (sched_name m0) (sched_name m1) (len_sched_name m0);
    if negb b then Ret false
    else if negb (len_slices m0 =? len_slices m1) then Ret false
    else eq_for (λ x y, b ← eq_slice x y; c_assert b;; Ret b) (Z.to_nat (len_slices m0)) (slices m0) (slices m1).

Definition eq_slice_conf (m0 m1 : slice_conf_t) : outcome bool :=
  c_and (eq_ul_dl_slice_conf (sc_ul m0) (sc_ul m1)) (eq_ul_dl_slice_conf (sc_dl m0) (sc_dl m1)).

Definition eq_ue_slice_assoc (m0 m1 : ue_slice_assoc_t) : bool :=
  (dl_id m0 =? dl_id m1) && (sa_rnti m0 =? sa_rnti m1) && (ul_id m0 =? ul_id m1).

Definition eq_ue_slice_conf (m0 m1 : ue_slice_conf_t) : outcome bool :=
  if negb (len_ue_slice m0 =? len_ue_slice m1) then Ret false
  else eq_arr eq_ue_slice_assoc (Z.to_nat (len_ue_slice m0)) (ues m0) (ues m1).

Definition eq_slice_ind_msg (m0 m1 : slice_ind_msg_t) : outcome bool :=
  c_and (eq_slice_conf (slice_conf m0) (slice_conf m1))
    (c_and (eq_ue_slice_conf (ue_slice_conf m0) (ue_slice_conf m1)) (Ret (sl_tstamp m0 =? sl_tstamp m1))).

Definition eq_slice_ind_hdr (m0 m1 : slice_ind_hdr_t) : bool := sl_ih_dummy m0 =? sl_ih_dummy m1.
Definition eq_slice_ctrl_hdr (m0 m1 : slice_ctrl_hdr_t) : bool := sl_ch_dummy m0 =? sl_ch_dummy m1.

Definition eq_del_slice (m0 m1 : del_slice_conf_t) : outcome bool :=
  if negb (len_dl m0 =? len_dl m1) then Ret false
  else
    c_and (eq_arr Z.eqb (Z.to_nat (len_dl m0)) (del_dl m0) (del_dl m1))
      (if negb (len_ul m0 =? len_ul m1) then Ret false
       else eq_arr Z.eqb (Z.to_nat (len_ul m0)) (del_ul m0) (del_ul m1)).

(** The answer is not compared. *)
Definition eq_slice_ctrl_out (m0 m1 : slice_ctrl_out_t) : outcome bool :=
  if negb (len_diag m0 =? len_diag m1) then Ret false
  else memcmp_eq (len_diag m0) (diagnostic m0) (diagnostic m1).

Definition eq_slice_func_def (m0 m1 : slice_func_def_t) : outcome bool :=
  if negb (len_supported_alg m0 =? len_supported_alg m1) then Ret false
  else eq_arr Z.eqb (Z.to_nat (len_supported_alg m0)) (supported_alg m0) (supported_alg m1).

(** ** Copies *)

Definition cp_scn19_slice (src : scn19_slice_t) : outcome scn19_slice_t :=
  match src with SCN19_OTHER _ => Abort | _ => Ret src end.

Definition cp_slice_params (src : slice_params_t) : outcome slice_params_t :=
  dst ← match src with
        | SLICE_ALG_SM_V0_STATIC _ => Ret src
        | SLICE_ALG_SM_V0_NVS (NVS_OTHER _) => Abort
        | SLICE_ALG_SM_V0_NVS _ => Ret src
        | SLICE_ALG_SM_V0_SCN19 s => s ← cp_scn19_slice s; Ret (SLICE_ALG_SM_V0_SCN19 s)
        | SLICE_ALG_SM_V0_EDF e =>
            o ← ptr_dup (len_over e) (over e);
            Ret (SLICE_ALG_SM_V0_EDF (mk_edf_slice (deadline e) (guaranteed_prbs e) (max_replenish e) (len_over e) o))
        | PARAMS_OTHER _ => Abort
        end;
  b ← eq_slice_params dst src;
  c_assert b;;
  Ret dst.

Definition cpy_slice (src : fr_slice_t) : outcome fr_slice_t :=
  l ← ptr_dup (len_label src) (label src);
  s ← ptr_dup (len_sched src) (sched src);
  p ← cp_slice_params (params src);
  let dst := mk_fr_slice (sl_id src) (len_label src) l (len_sched src) s p in
  b ← eq_slice src dst;
  c_assert b;;
  Ret dst.

Definition cpy_ul_dl_slice_conf (src : ul_dl_slice_conf_t) : outcome ul_dl_slice_conf_t :=
  n ← ptr_dup (len_sched_name src) (sched_name src);
  s ← map_for cpy_slice (Z.to_nat (len_slices src)) (slices src);
  let dst := mk_ul_dl_slice_conf (len_slices src) s (len_sched_name src) n in
  b ← eq_ul_dl_slice_conf src dst;
  c_assert b;;
  Ret dst.

Definition cp_slice_conf (src : slice_conf_t) : outcome slice_conf_t :=
  dl ← cpy_ul_dl_slice_conf (sc_dl src);
  ul ← cpy_ul_dl_slice_conf (sc_ul src);
  let dst := mk_slice_conf dl ul in
  b ← eq_slice_conf src dst;
  c_assert b;;
  Ret dst.

Definition cp_ue_slice_assoc (src : ue_slice_assoc_t) : ue_slice_assoc_t :=
  mk_ue_slice_assoc (dl_id src) (ul_id src) (sa_rnti src).

Definition cp_ue_slice_conf (src : ue_slice_conf_t) : outcome ue_slice_conf_t :=
  u ← map_for (λ x, Ret (cp_ue_slice_assoc x)) (Z.to_nat (len_ue_slice src)) (ues src);
  Ret (mk_ue_slice_conf (len_ue_slice src) u).

Definition cp_slice_ind_msg (src : slice_ind_msg_t) : outcome slice_ind_msg_t :=
  c ← cp_slice_conf (slice_conf src);
  u ← cp_ue_slice_conf (ue_slice_conf src);
  let out := mk_slice_ind_msg c u (sl_tstamp src) in
  b ← eq_slice_ind_msg src out;
  c_assert b;;
  Ret out.

Definition cp_slice_ind_hdr (src : slice_ind_hdr_t) : slice_ind_hdr_t := mk_slice_ind_hdr (sl_ih_dummy src).
Definition cp_slice_ctrl_hdr (src : slice_ctrl_hdr_t) : slice_ctrl_hdr_t := mk_slice_ctrl_hdr (sl_ch_dummy src).

(** Not implemented. *)
Definition cp_slice_call_proc_id (src : slice_call_proc_id_t) : outcome slice_call_proc_id_t := Abort.

Definition cp_slice_ind_data (src : slice_ind_data_t) : outcome slice_ind_data_t :=
  m ← cp_slice_ind_msg (sl_msg src);
  p ← match sl_proc_id src with None => Ret None | Some p => p ← cp_slice_call_proc_id p; Ret (Some p) end;
  Ret (mk_slice_ind_data (cp_slice_ind_hdr (sl_hdr src)) m p).

(** A length of zero leaves the array, and the length, zero. *)
Definition cp_del_slice (src : del_slice_conf_t) : outcome del_slice_conf_t :=
  dl ← map_for Ret (Z.to_nat (len_dl src)) (del_dl src);
  ul ← map_for Ret (Z.to_nat (len_ul src)) (del_ul src);
  Ret (mk_del_slice_conf (len_dl src) dl (len_ul src) ul).

Definition cp_slice_ctrl_msg (src : slice_ctrl_msg_t) : outcome slice_ctrl_msg_t :=
  match src with
  | SLICE_CTRL_SM_V0_ADD c => c ← cp_slice_conf c; Ret (SLICE_CTRL_SM_V0_ADD c)
  | SLICE_CTRL_SM_V0_DEL d => d ← cp_del_slice d; Ret (SLICE_CTRL_SM_V0_DEL d)
  | SLICE_CTRL_SM_V0_UE_SLICE_ASSOC u => u ← cp_ue_slice_conf u; Ret (SLICE_CTRL_SM_V0_UE_SLICE_ASSOC u)
  | CTRL_OTHER _ => Abort
  end.

(** The answer is not copied: it is 0. *)
Definition cp_slice_ctrl_out (src : slice_ctrl_out_t) : outcome slice_ctrl_out_t :=
  d ← ptr_dup (len_diag src) (diagnostic src);
  Ret (mk_slice_ctrl_out 0 (len_diag src) d).

Definition cp_slice_func_def (src : slice_func_def_t) : outcome slice_func_def_t :=
  a ← map_for Ret (Z.to_nat (len_supported_alg src)) (supported_alg src);
  Ret (mk_slice_func_def (len_supported_alg src) a).

(** ** Release: which pointers must be there *)

Definition free_slice_param (p : slice_params_t) : outcome () :=
  match p with
  | SLICE_ALG_SM_V0_EDF e =>
      if 0 <? len_over e then c_assert (match over e with Some _ => true | None => false end)
      else c_assert (match over e with Some _ => false | None => true end)
  | _ => Ret ()
  end.

Definition free_fr_slice (s : fr_slice_t) : outcome () :=
  free_ptr (len_label s) (label s);;
  free_ptr (len_sched s) (sched s);;
  free_slice_param (params s).

Definition free_ul_dl_slice_conf (conf : ul_dl_slice_conf_t) : outcome () :=
  map_for free_fr_slice (Z.to_nat (len_slices conf)) (slices conf);;
  Ret ().

Definition free_slice_conf (conf : slice_conf_t) : outcome () :=
  free_ul_dl_slice_conf (sc_ul conf);;
  free_ul_dl_slice_conf (sc_dl conf).

Definition free_ue_slice_conf (conf : ue_slice_conf_t) : outcome () := free_arr (len_ue_slice conf) (ues conf).

Definition free_slice_ind_msg (msg : slice_ind_msg_t) : outcome () :=
  free_slice_conf (slice_conf msg);;
  free_ue_slice_conf (ue_slice_conf msg).

Definition free_slice_call_proc_id (src : option slice_call_proc_id_t) : outcome () :=
  match src with None => Ret () | Some _ => Abort end.

Definition free_slice_ind_data (ind : slice_ind_data_t) : outcome () :=
  free_slice_ind_msg (sl_msg ind);;
  free_slice_call_proc_id (sl_proc_id ind).

Definition free_del_slice_conf (conf : del_slice_conf_t) : outcome () :=
  free_arr (len_dl conf) (del_dl conf);;
  free_arr (len_ul conf) (del_ul conf).

Definition free_slice_ctrl_msg (src : slice_ctrl_msg_t) : outcome () :=
  match src with
  | SLICE_CTRL_SM_V0_ADD c => free_slice_conf c
  | SLICE_CTRL_SM_V0_DEL d => free_del_slice_conf d
  | SLICE_CTRL_SM_V0_UE_SLICE_ASSOC u => free_ue_slice_conf u
  | CTRL_OTHER _ => Abort
  end.

Definition free_slice_ctrl_out (src : slice_ctrl_out_t) : outcome () := free_ptr (len_diag src) (diagnostic src).
