(* ===== verification/SliceEnc.v ===== *)
(** * Slice service model: the plain encoder

    [src/src/sm/slice_sm/enc/slice_enc_plain.c].  The size of the message is computed
    first; [size_t] wraps. *)
From S2P Require Import Prelude CLayout SmCodec SmWire SliceData.
#[local] Open Scope Z_scope.

(** ** Event trigger and headers *)

Definition slice_enc_event_trigger_plain (event_trigger : slice_event_trigger_t) : outcome bytes :=
  fill_buffer 4 (w_scalar CU32 (sl_et_ms event_trigger)).

Definition slice_enc_action_def_plain {A} (action_def : A) : outcome bytes := Abort.

Definition slice_enc_ind_hdr_plain (ind_hdr : slice_ind_hdr_t) : outcome bytes :=
  fill_buffer (sizeof slice_ind_hdr_t) (w_copy (enc_obj ind_hdr) (sizeof slice_ind_hdr_t)).

(** ** The size of a message *)

Definition cal_static (sta : static_slice_t) : Z := 8.

Definition cal_nvs (nvs : nvs_slice_t) : outcome Z :=
  match nvs with
  | SLICE_SM_NVS_V0_RATE _ => Ret (4 + 4 + 4)
  | SLICE_SM_NVS_V0_CAPACITY _ => Ret (4 + 4)
  | NVS_OTHER _ => Abort
  end.

Definition cal_scn19 (scn : scn19_slice_t) : outcome Z :=
  match scn with
  | SLICE_SCN19_SM_V0_DYNAMIC _ => Ret (4 + 4 + 4)
  | SLICE_SCN19_SM_V0_FIXED _ => Ret (4 + 4 + 4)
  | SLICE_SCN19_SM_V0_ON_DEMAND _ => Ret (4 + 4 + 4 + 4)
  | SCN19_OTHER _ => Abort
  end.

Definition cal_edf (edf : edf_slice_t) : Z := 4 + 4 + 4 + 4 + 4 * len_over edf.

Definition cal_params (par : slice_params_t) : outcome Z :=
  sz ← match par with
       | SLICE_ALG_SM_V0_STATIC s => Ret (cal_static s)
       | SLICE_ALG_SM_V0_NVS n => cal_nvs n
       | SLICE_ALG_SM_V0_SCN19 s => cal_scn19 s
       | SLICE_ALG_SM_V0_EDF e => Ret (cal_edf e)
       | PARAMS_OTHER _ => Abort
       end;
  Ret (4 + sz).

Definition cal_slc (n : Z) (l : list fr_slice_t) : outcome Z :=
  cal_for (λ slc, p ← cal_params (params slc); Ret (4 + 4 + len_label slc + 4 + len_sched slc + p)) (Z.to_nat n) l.

Definition cal_ul_dl (slc : ul_dl_slice_conf_t) : outcome Z :=
  s ← cal_slc (len_slices slc) (slices slc);
  Ret (4 + len_sched_name slc + 4 + s).

Definition cal_slice_conf (slc : slice_conf_t) : outcome Z :=
  ul ← cal_ul_dl (sc_ul slc);
  dl ← cal_ul_dl (sc_dl slc);
  Ret (ul + dl).

Definition cal_ue_slice_assoc (assoc : ue_slice_assoc_t) : outcome Z := Ret (4 + 4 + 2).

Definition cal_ue_slice_conf (slc : ue_slice_conf_t) : outcome Z :=
  s ← cal_for cal_ue_slice_assoc (Z.to_nat (len_ue_slice slc)) (ues slc);
  Ret (4 + s).

Definition cal_ind_msg_payload (ind_msg : slice_ind_msg_t) : outcome Z :=
  c ← cal_slice_conf (slice_conf ind_msg);
  u ← cal_ue_slice_conf (ue_slice_conf ind_msg);
  Ret (c + u + 8).

Definition cal_del_slice (del : del_slice_conf_t) : Z := 4 + len_dl del * 4 + 4 + len_ul del * 4.

Definition cal_ctrl_msg_payload (ctrl_msg : slice_ctrl_msg_t) : outcome Z :=
  sz ← match ctrl_msg with
       | SLICE_CTRL_SM_V0_ADD c => cal_slice_conf c
       | SLICE_CTRL_SM_V0_DEL d => Ret (cal_del_slice d)
       | SLICE_CTRL_SM_V0_UE_SLICE_ASSOC u => cal_ue_slice_conf u
       | CTRL_OTHER _ => Abort
       end;
  Ret (4 + sz).

(** ** Filling the buffer *)

Definition fill_static (sta : static_slice_t) : writer :=
  w_before_end >>> w_scalar CU32 (pos_high sta) >>> w_scalar CU32 (pos_low sta).

Definition fill_rate (nvs : nvs_rate_t) : writer :=
  w_scalar CF32 (mbps_reference nvs) >>> w_scalar CF32 (mbps_required nvs).

Definition fill_capacity (nvs : nvs_capacity_t) : writer := w_scalar CF32 (pct_reserved nvs).

Definition fill_nvs (nvs : nvs_slice_t) : writer :=
  w_scalar CU32 (nvs_conf nvs) >>>
  match nvs with
  | SLICE_SM_NVS_V0_RATE r => fill_rate r
  | SLICE_SM_NVS_V0_CAPACITY c => fill_capacity c
  | NVS_OTHER _ => w_abort
  end.

Definition fill_on_demand (scn : scn19_on_demand_t) : writer :=
  w_scalar CF32 (od_log_delta scn) >>> w_scalar CF32 (od_pct_reserved scn) >>> w_scalar CU32 (od_tau scn).

Definition fill_scn19 (scn : scn19_slice_t) : writer :=
  w_scalar CU32 (scn19_conf scn) >>>
  match scn with
  | SLICE_SCN19_SM_V0_DYNAMIC r => fill_rate r
  | SLICE_SCN19_SM_V0_FIXED s => fill_static s
  | SLICE_SCN19_SM_V0_ON_DEMAND d => fill_on_demand d
  | SCN19_OTHER _ => w_abort
  end.

Definition fill_edf (edf : edf_slice_t) : writer :=
  w_scalar CU32 (deadline edf) >>> w_scalar CU32 (guaranteed_prbs edf) >>> w_scalar CU32 (max_replenish edf) >>>
  w_scalar CU32 (len_over edf) >>> w_for (w_scalar CU32) (Z.to_nat (len_over edf)) (default [] (over edf)).

Definition fill_params (par : slice_params_t) : writer :=
  w_scalar CU32 (params_type par) >>>
  match par with
  | SLICE_ALG_SM_V0_STATIC s => fill_static s
  | SLICE_ALG_SM_V0_NVS n => fill_nvs n
  | SLICE_ALG_SM_V0_SCN19 s => fill_scn19 s
  | SLICE_ALG_SM_V0_EDF e => fill_edf e
  | PARAMS_OTHER _ => w_abort
  end.

Definition fill_slice (slc : fr_slice_t) : writer :=
  w_before_end >>>
  w_scalar CU32 (sl_id slc) >>>
  w_scalar CU32 (len_label slc) >>> w_ptr (len_label slc) (label slc) >>>
  w_scalar CU32 (len_sched slc) >>> w_ptr (len_sched slc) (sched slc) >>>
  fill_params (params slc).

Definition fill_ul_dl_slice_conf (conf : ul_dl_slice_conf_t) : writer :=
  w_scalar CU32 (len_sched_name conf) >>> w_ptr (len_sched_name conf) (sched_name conf) >>>
  w_scalar CU32 (len_slices conf) >>> w_for fill_slice (Z.to_nat (len_slices conf)) (slices conf).

Definition fill_slice_conf (conf : slice_conf_t) : writer :=
  fill_ul_dl_slice_conf (sc_dl conf) >>> fill_ul_dl_slice_conf (sc_ul conf).

Definition fill_ue_slice_assoc (assoc : ue_slice_assoc_t) : writer :=
  w_before_end >>> w_scalar CU32 (dl_id assoc) >>> w_scalar CU32 (ul_id assoc) >>> w_scalar CU16 (sa_rnti assoc).

Definition fill_ue_slice_conf (slc : ue_slice_conf_t) : writer :=
  w_scalar CU32 (len_ue_slice slc) >>> w_for fill_ue_slice_assoc (Z.to_nat (len_ue_slice slc)) (ues slc).

Definition fill_del_slice_conf (conf : del_slice_conf_t) : writer :=
  w_scalar CU32 (len_dl conf) >>> w_for (w_scalar CU32) (Z.to_nat (len_dl conf)) (del_dl conf) >>>
  w_scalar CU32 (len_ul conf) >>> w_for (w_scalar CU32) (Z.to_nat (len_ul conf)) (del_ul conf).

Definition fill_slice_ctrl_msg (msg : slice_ctrl_msg_t) : writer :=
  w_scalar CU32 (ctrl_msg_type msg) >>>
  match msg with
  | SLICE_CTRL_SM_V0_ADD c => fill_slice_conf c
  | SLICE_CTRL_SM_V0_DEL d => fill_del_slice_conf d
  | SLICE_CTRL_SM_V0_UE_SLICE_ASSOC u => fill_ue_slice_conf u
  | CTRL_OTHER _ => w_abort
  end.

(** ** Messages *)

Definition slice_enc_ind_msg_plain (ind_msg : slice_ind_msg_t) : outcome bytes :=
  sz ← cal_ind_msg_payload ind_msg;
  fill_buffer (Z.to_nat (wrap 64 sz))
    (fill_slice_conf (slice_conf ind_msg) >>> fill_ue_slice_conf (ue_slice_conf ind_msg) >>>
     w_scalar CI64 (sl_tstamp ind_msg)).

Definition slice_enc_call_proc_id_plain {A} (call_proc_id : A) : outcome bytes := Abort.

(** The size is that of the indication header, as in the code. *)
Definition slice_enc_ctrl_hdr_plain (ctrl_hdr : slice_ctrl_hdr_t) : outcome bytes :=
  fill_buffer (sizeof slice_ind_hdr_t) (w_copy (enc_obj ctrl_hdr) (sizeof slice_ind_hdr_t)).

Definition slice_enc_ctrl_msg_plain (ctrl_msg : slice_ctrl_msg_t) : outcome bytes :=
  sz ← cal_ctrl_msg_payload ctrl_msg;
  fill_buffer (Z.to_nat (wrap 64 sz)) (fill_slice_ctrl_msg ctrl_msg).

(** The answer is not written. *)
Definition slice_enc_ctrl_out_plain (ctrl : slice_ctrl_out_t) : outcome bytes :=
  fill_buffer (4 + Z.to_nat (len_diag ctrl)) (w_scalar CU32 (len_diag ctrl) >>> w_ptr (len_diag ctrl) (diagnostic ctrl)).

Definition slice_enc_func_def_plain {A} (func : A) : outcome bytes := Abort.
