(* ===== verification/SliceDec.v ===== *)
(** * Slice service model: the plain decoder

    [src/src/sm/slice_sm/dec/slice_dec_plain.c].  Lengths are read from the message and
    believed. *)
From S2P Require Import Prelude CLayout SmCodec SmWire SliceData.
#[local] Open Scope Z_scope.

(** ** Event trigger and headers *)

Definition slice_dec_event_trigger_plain (ev_tr : bytes) : outcome slice_event_trigger_t :=
  '(ms, _) ← rd_scalar CU32 ev_tr;
  Ret (mk_slice_event_trigger ms).

Definition slice_dec_action_def_plain {A} (action_def : bytes) : outcome A := Abort.

Definition slice_dec_ind_hdr_plain (ind_hdr : bytes) : outcome slice_ind_hdr_t := dec_whole ind_hdr.

(** ** Slices *)

Definition fill_static : reader static_slice_t := λ it,
  '(high, it) ← rd_scalar CU32 it;
  '(low, it) ← rd_scalar CU32 it;
  Ret (mk_static_slice low high, it).

Definition fill_rate : reader nvs_rate_t := λ it,
  '(ref, it) ← rd_scalar CF32 it;
  '(req, it) ← rd_scalar CF32 it;
  Ret (mk_nvs_rate req ref, it).

Definition fill_capacity : reader nvs_capacity_t := λ it,
  '(pct, it) ← rd_scalar CF32 it;
  Ret (mk_nvs_capacity pct, it).

Definition fill_nvs : reader nvs_slice_t := λ it,
  '(conf, it) ← rd_scalar CU32 it;
  if conf =? 0 then '(r, it) ← fill_rate it; Ret (SLICE_SM_NVS_V0_RATE r, it)
  else if conf =? 1 then '(c, it) ← fill_capacity it; Ret (SLICE_SM_NVS_V0_CAPACITY c, it)
  else Abort.

Definition fill_on_demand : reader scn19_on_demand_t := λ it,
  '(log, it) ← rd_scalar CF32 it;
  '(pct, it) ← rd_scalar CF32 it;
  '(tau, it) ← rd_scalar CU32 it;
  Ret (mk_scn19_on_demand pct log tau, it).

Definition fill_scn19 : reader scn19_slice_t := λ it,
  '(conf, it) ← rd_scalar CU32 it;
  if conf =? 0 then '(r, it) ← fill_rate it; Ret (SLICE_SCN19_SM_V0_DYNAMIC r, it)
  else if conf =? 1 then '(s, it) ← fill_static it; Ret (SLICE_SCN19_SM_V0_FIXED s, it)
  else if conf =? 2 then '(d, it) ← fill_on_demand it; Ret (SLICE_SCN19_SM_V0_ON_DEMAND d, it)
  else Abort.

Definition fill_edf : reader edf_slice_t := λ it,
  '(dl, it) ← rd_scalar CU32 it;
  '(prbs, it) ← rd_scalar CU32 it;
  '(rep, it) ← rd_scalar CU32 it;
  '(n, it) ← rd_scalar CU32 it;
  '(o, it) ← rd_u32s n it;
  Ret (mk_edf_slice dl prbs rep n o, it).

Definition fill_params : reader slice_params_t := λ it,
  '(type, it) ← rd_scalar CU32 it;
  if type =? 1 then '(s, it) ← fill_static it; Ret (SLICE_ALG_SM_V0_STATIC s, it)
  else if type =? 2 then '(n, it) ← fill_nvs it; Ret (SLICE_ALG_SM_V0_NVS n, it)
  else if type =? 3 then '(s, it) ← fill_scn19 it; Ret (SLICE_ALG_SM_V0_SCN19 s, it)
  else if type =? 4 then '(e, it) ← fill_edf it; Ret (SLICE_ALG_SM_V0_EDF e, it)
  else Abort.

Definition fill_slice : reader fr_slice_t := λ it,
  '(i, it) ← rd_scalar CU32 it;
  '(nl, it) ← rd_scalar CU32 it;
  '(l, it) ← rd_str nl it;
  '(ns, it) ← rd_scalar CU32 it;
  '(s, it) ← rd_str ns it;
  '(p, it) ← fill_params it;
  Ret (mk_fr_slice i nl l ns s p, it).

Definition fill_ul_dl_slice_conf : reader ul_dl_slice_conf_t := λ it,
  '(n, it) ← rd_scalar CU32 it;
  '(name, it) ← rd_str n it;
  '(k, it) ← rd_scalar CU32 it;
  '(s, it) ← rd_n fill_slice (Z.to_nat k) it;
  Ret (mk_ul_dl_slice_conf k s n name, it).

Definition fill_slice_conf : reader slice_conf_t := λ it,
  '(dl, it) ← fill_ul_dl_slice_conf it;
  '(ul, it) ← fill_ul_dl_slice_conf it;
  Ret (mk_slice_conf dl ul, it).

Definition fill_ue_slice_assoc : reader ue_slice_assoc_t := λ it,
  '(dl, it) ← rd_scalar CU32 it;
  '(ul, it) ← rd_scalar CU32 it;
  '(r, it) ← rd_scalar CU16 it;
  Ret (mk_ue_slice_assoc dl ul r, it).

Definition fill_ue_slice_conf : reader ue_slice_conf_t := λ it,
  '(n, it) ← rd_scalar CU32 it;
  '(u, it) ← rd_n fill_ue_slice_assoc (Z.to_nat n) it;
  Ret (mk_ue_slice_conf n u, it).

Definition fill_del_slice : reader del_slice_conf_t := λ it,
  '(nd, it) ← rd_scalar CU32 it;
  '(d, it) ← rd_n (rd_scalar CU32) (Z.to_nat nd) it;
  '(nu, it) ← rd_scalar CU32 it;
  '(u, it) ← rd_n (rd_scalar CU32) (Z.to_nat nu) it;
  Ret (mk_del_slice_conf nd d nu u, it).

(** ** Messages *)

Definition slice_dec_ind_msg_plain (ind_msg : bytes) : outcome slice_ind_msg_t :=
  '(c, it) ← fill_slice_conf ind_msg;
  '(u, it) ← fill_ue_slice_conf it;
  '(t, it) ← rd_scalar CI64 it;
  at_end it;;
  Ret (mk_slice_ind_msg c u t).

Definition slice_dec_call_proc_id_plain {A} (call_proc_id : bytes) : outcome A := Abort.

Definition slice_dec_ctrl_hdr_plain (ctrl_hdr : bytes) : outcome slice_ctrl_hdr_t := dec_whole ctrl_hdr.

Definition slice_dec_ctrl_msg_plain (ctrl_msg : bytes) : outcome slice_ctrl_msg_t :=
  '(type, it) ← rd_scalar CU32 ctrl_msg;
  '(m, it) ← (if type =? 0 then '(c, it) ← fill_slice_conf it; Ret (SLICE_CTRL_SM_V0_ADD c, it)
              else if type =? 1 then '(d, it) ← fill_del_slice it; Ret (SLICE_CTRL_SM_V0_DEL d, it)
              else if type =? 2 then '(u, it) ← fill_ue_slice_conf it; Ret (SLICE_CTRL_SM_V0_UE_SLICE_ASSOC u, it)
              else Abort);
  at_end it;;
  Ret m.

(** The answer is 0; no 0 ends the diagnostic; what follows it is ignored. *)
Definition slice_dec_ctrl_out_plain (ctrl_out : bytes) : outcome slice_ctrl_out_t :=
  '(n, it) ← rd_scalar CU32 ctrl_out;
  '(d, _) ← rd_bytes (Z.to_nat n) it;
  Ret (mk_slice_ctrl_out 0 n (if 0 <? n then Some d else None)).

Definition slice_dec_func_def_plain {A} (func_def : bytes) : outcome A := Abort.
