(* ===== verification/SlicePlain.v ===== *)
(** * Slice service model: the codec and the copies

    What the RAN and the user may hand over, and that the decoder reads back what the
    encoder wrote; what the copies keep, and when they abort. *)
From S2P Require Import Prelude CLayout SmCodec SmWire SliceData.
From S2P Require SliceEnc SliceDec.
#[local] Open Scope Z_scope.

(** ** Values that can be sent *)

Definition static_ok (s : static_slice_t) : Prop := u_ok 32 (pos_low s) ∧ u_ok 32 (pos_high s).
Definition rate_ok (r : nvs_rate_t) : Prop := u_ok 32 (mbps_required r) ∧ u_ok 32 (mbps_reference r).
Definition nvs_ok (n : nvs_slice_t) : Prop :=
  match n with
  | SLICE_SM_NVS_V0_RATE r => rate_ok r
  | SLICE_SM_NVS_V0_CAPACITY c => u_ok 32 (pct_reserved c)
  | NVS_OTHER _ => False
  end.
Definition scn19_ok (s : scn19_slice_t) : Prop :=
  match s with
  | SLICE_SCN19_SM_V0_DYNAMIC r => rate_ok r
  | SLICE_SCN19_SM_V0_FIXED s => static_ok s
  | SLICE_SCN19_SM_V0_ON_DEMAND d => u_ok 32 (od_pct_reserved d) ∧ u_ok 32 (od_log_delta d) ∧ u_ok 32 (od_tau d)
  | SCN19_OTHER _ => False
  end.
Definition edf_ok (e : edf_slice_t) : Prop :=
  u_ok 32 (deadline e) ∧ u_ok 32 (guaranteed_prbs e) ∧ u_ok 32 (max_replenish e) ∧ u32s_ok (len_over e) (over e).
Definition params_ok (p : slice_params_t) : Prop :=
  match p with
  | SLICE_ALG_SM_V0_STATIC s => static_ok s
  | SLICE_ALG_SM_V0_NVS n => nvs_ok n
  | SLICE_ALG_SM_V0_SCN19 s => scn19_ok s
  | SLICE_ALG_SM_V0_EDF e => edf_ok e
  | PARAMS_OTHER _ => False
  end.
Definition slice_ok (s : fr_slice_t) : Prop :=
  u_ok 32 (sl_id s) ∧ str_ok (len_label s) (label s) ∧ str_ok (len_sched s) (sched s) ∧ params_ok (params s).
Definition ul_dl_ok (c : ul_dl_slice_conf_t) : Prop :=
  u_ok 32 (len_slices c) ∧ Z.of_nat (length (slices c)) = len_slices c ∧ Forall slice_ok (slices c) ∧
  str_ok (len_sched_name c) (sched_name c).
Definition conf_ok (c : slice_conf_t) : Prop := ul_dl_ok (sc_dl c) ∧ ul_dl_ok (sc_ul c).
Definition assoc_ok (a : ue_slice_assoc_t) : Prop := u_ok 32 (dl_id a) ∧ u_ok 32 (ul_id a) ∧ u_ok 16 (sa_rnti a).
Definition ues_ok (c : ue_slice_conf_t) : Prop :=
  u_ok 32 (len_ue_slice c) ∧ Z.of_nat (length (ues c)) = len_ue_slice c ∧ Forall assoc_ok (ues c).
Definition slice_ind_msg_ok (m : slice_ind_msg_t) : Prop :=
  conf_ok (slice_conf m) ∧ ues_ok (ue_slice_conf m) ∧ cval_ok CI64 (sl_tstamp m).
Definition del_ok (d : del_slice_conf_t) : Prop :=
  (u_ok 32 (len_dl d) ∧ Z.of_nat (length (del_dl d)) = len_dl d ∧ Forall (cval_ok CU32) (del_dl d)) ∧
  (u_ok 32 (len_ul d) ∧ Z.of_nat (length (del_ul d)) = len_ul d ∧ Forall (cval_ok CU32) (del_ul d)).
Definition slice_ctrl_msg_ok (m : slice_ctrl_msg_t) : Prop :=
  match m with
  | SLICE_CTRL_SM_V0_ADD c => conf_ok c
  | SLICE_CTRL_SM_V0_DEL d => del_ok d
  | SLICE_CTRL_SM_V0_UE_SLICE_ASSOC u => ues_ok u
  | CTRL_OTHER _ => False
  end.

#[export] Instance slice_ind_msg_ok_dec m : Decision (slice_ind_msg_ok m).
Proof.
  assert (∀ p, Decision (params_ok p)) as Hp by (intros [?|[]|[]|?|?]; cbn; unfold static_ok, rate_ok, edf_ok; apply _).
  assert (∀ s, Decision (slice_ok s)) as Hs by (intros; unfold slice_ok; apply _).
  unfold slice_ind_msg_ok, conf_ok, ul_dl_ok, ues_ok, assoc_ok. apply _.
Defined.

(** ** What the decoder makes of them: strings end with a 0 *)

Definition slice_read (s : fr_slice_t) : fr_slice_t :=
  mk_fr_slice (sl_id s) (len_label s) (str_read (len_label s) (label s)) (len_sched s) (str_read (len_sched s) (sched s)) (params s).
Definition ul_dl_read (c : ul_dl_slice_conf_t) : ul_dl_slice_conf_t :=
  mk_ul_dl_slice_conf (len_slices c) (slice_read <$> slices c) (len_sched_name c) (str_read (len_sched_name c) (sched_name c)).
Definition conf_read (c : slice_conf_t) : slice_conf_t := mk_slice_conf (ul_dl_read (sc_dl c)) (ul_dl_read (sc_ul c)).
Definition ind_read (m : slice_ind_msg_t) : slice_ind_msg_t :=
  mk_slice_ind_msg (conf_read (slice_conf m)) (ue_slice_conf m) (sl_tstamp m).
Definition ctrl_read (m : slice_ctrl_msg_t) : slice_ctrl_msg_t :=
  match m with SLICE_CTRL_SM_V0_ADD c => SLICE_CTRL_SM_V0_ADD (conf_read c) | _ => m end.

(** ** Sizes *)

Definition sz_nvs (n : nvs_slice_t) : Z := match n with SLICE_SM_NVS_V0_RATE _ => 12 | _ => 8 end.
Definition sz_scn19 (s : scn19_slice_t) : Z := match s with SLICE_SCN19_SM_V0_ON_DEMAND _ => 16 | _ => 12 end.
Definition sz_params (p : slice_params_t) : Z :=
  4 + match p with
      | SLICE_ALG_SM_V0_NVS n => sz_nvs n
      | SLICE_ALG_SM_V0_SCN19 s => sz_scn19 s
      | SLICE_ALG_SM_V0_EDF e => 16 + 4 * len_over e
      | _ => 8
      end.
Definition sz_slice (s : fr_slice_t) : Z := 12 + len_label s + len_sched s + sz_params (params s).
Definition sz_ul_dl (c : ul_dl_slice_conf_t) : Z := 8 + len_sched_name c + zsum (sz_slice <$> slices c).
Definition sz_conf (c : slice_conf_t) : Z := sz_ul_dl (sc_dl c) + sz_ul_dl (sc_ul c).
Definition sz_ues (c : ue_slice_conf_t) : Z := 4 + 10 * len_ue_slice c.
Definition sz_ind (m : slice_ind_msg_t) : Z := sz_conf (slice_conf m) + sz_ues (ue_slice_conf m) + 8.
Definition sz_ctrl (m : slice_ctrl_msg_t) : Z :=
  4 + match m with
      | SLICE_CTRL_SM_V0_ADD c => sz_conf c
      | SLICE_CTRL_SM_V0_DEL d => 8 + 4 * len_dl d + 4 * len_ul d
      | SLICE_CTRL_SM_V0_UE_SLICE_ASSOC u => sz_ues u
      | CTRL_OTHER _ => 0
      end.

(** ** Encoder against decoder *)

(** A scalar field. *)
Ltac wire_scalar := apply wired_scalar; [first [assumption | split; by vm_compute]|reflexivity].
(** The fields of a record, in order; the readers of unions look at the tag. *)
Ltac wire_with tac :=
  repeat (first
    [ simple apply wired_assoc
    | eapply wired_end; [solve [wire_scalar | tac]|intros; reflexivity]
    | eapply wired_seq; [solve [wire_scalar | tac]|cbn [nvs_conf scn19_conf params_type ctrl_msg_type Z.eqb Pos.eqb]] ]).

Lemma wired_static s : static_ok s → wired (SliceEnc.fill_static s) 8 SliceDec.fill_static s.
Proof.
  destruct s. intros [Hl Hh]. unfold SliceEnc.fill_static, SliceDec.fill_static. repeat apply wired_assoc. apply wired_before_end; [done|].
  eapply (wired_eq _ (4 + 4)); [wire_with fail|done].
Qed.

Lemma wired_rate r : rate_ok r → wired (SliceEnc.fill_rate r) 8 SliceDec.fill_rate r.
Proof. destruct r. intros [Hl Hh]. eapply (wired_eq _ (4 + 4)); [wire_with fail|done]. Qed.

Lemma wired_capacity c : u_ok 32 (pct_reserved c) → wired (SliceEnc.fill_capacity c) 4 SliceDec.fill_capacity c.
Proof. destruct c. intros Hc. unfold SliceEnc.fill_capacity, SliceDec.fill_capacity. wire_with fail. Qed.

Lemma wired_on_demand d : u_ok 32 (od_pct_reserved d) ∧ u_ok 32 (od_log_delta d) ∧ u_ok 32 (od_tau d) →
  wired (SliceEnc.fill_on_demand d) 12 SliceDec.fill_on_demand d.
Proof.
  destruct d. intros (? & ? & ?). unfold SliceEnc.fill_on_demand, SliceDec.fill_on_demand.
  eapply (wired_eq _ (4 + (4 + 4))); [wire_with fail|done].
Qed.

Lemma wired_nvs n : nvs_ok n → wired (SliceEnc.fill_nvs n) (sz_nvs n) SliceDec.fill_nvs n.
Proof.
  destruct n as [r|c|c]; cbn [nvs_ok]; [| |done]; intros Hn; unfold SliceEnc.fill_nvs, SliceDec.fill_nvs.
  - eapply (wired_eq _ (4 + 8)); [|done]. wire_with ltac:(by apply wired_rate).
  - eapply (wired_eq _ (4 + 4)); [|done]. wire_with ltac:(by apply wired_capacity).
Qed.

Lemma wired_scn19 x : scn19_ok x → wired (SliceEnc.fill_scn19 x) (sz_scn19 x) SliceDec.fill_scn19 x.
Proof.
  destruct x as [r|f|d|c]; cbn [scn19_ok]; [| | |done]; intros Hx; unfold SliceEnc.fill_scn19, SliceDec.fill_scn19.
  - eapply (wired_eq _ (4 + 8)); [|done]. wire_with ltac:(by apply wired_rate).
  - eapply (wired_eq _ (4 + 8)); [|done]. wire_with ltac:(by apply wired_static).
  - eapply (wired_eq _ (4 + 12)); [|done]. wire_with ltac:(by apply wired_on_demand).
Qed.

Lemma wired_edf e : edf_ok e → wired (SliceEnc.fill_edf e) (16 + 4 * len_over e) SliceDec.fill_edf e.
Proof.
  destruct e as [d g m n o]. intros (Hd & Hg & Hm & Ho). cbn [len_over over deadline guaranteed_prbs max_replenish] in *.
  unfold SliceEnc.fill_edf, SliceDec.fill_edf. cbn [len_over over deadline guaranteed_prbs max_replenish].
  assert (u_ok 32 n) by apply Ho. eapply (wired_eq _ (4 + (4 + (4 + (4 + 4 * n))))); [wire_with ltac:(by apply wired_u32s)|lia].
Qed.

Lemma wired_params p : params_ok p → wired (SliceEnc.fill_params p) (sz_params p) SliceDec.fill_params p.
Proof.
  destruct p as [s|n|x|e|t]; cbn [params_ok]; [| | | |done]; intros Hp; unfold SliceEnc.fill_params, SliceDec.fill_params, sz_params.
  - wire_with ltac:(by apply wired_static).
  - wire_with ltac:(by apply wired_nvs).
  - wire_with ltac:(by apply wired_scn19).
  - wire_with ltac:(by apply wired_edf).
Qed.

Lemma wired_slice s : slice_ok s → wired (SliceEnc.fill_slice s) (sz_slice s) SliceDec.fill_slice (slice_read s).
Proof.
  destruct s as [i nl l ns sc p]. intros (Hi & Hl & Hs & Hp). cbn [sl_id len_label label len_sched sched params] in *.
  assert (u_ok 32 nl) by (destruct Hl; unfold u_ok; lia). assert (u_ok 32 ns) by (destruct Hs; unfold u_ok; lia).
  unfold SliceEnc.fill_slice, SliceDec.fill_slice. cbn [sl_id len_label label len_sched sched params]. repeat apply wired_assoc.
  assert (0 < 4 + (4 + (nl + (4 + (ns + sz_params p))))) as Hpos.
  { destruct Hl as [? _], Hs as [? _]. assert (0 <= sz_params p); [|lia]. unfold sz_params.
    destruct p as [?|[]|[]|[]|?]; cbn in *; try lia. destruct Hp as (_ & _ & _ & [Hn _]). unfold u_ok in Hn; cbn in Hn; lia. }
  eapply (wired_eq _ (4 + (4 + (nl + (4 + (ns + sz_params p)))))); [|unfold sz_slice; cbn; lia].
  apply wired_before_end; [done|]. wire_with ltac:(first [by apply wired_str | by apply wired_params]).
Qed.

Lemma wired_ul_dl c : ul_dl_ok c → wired (SliceEnc.fill_ul_dl_slice_conf c) (sz_ul_dl c) SliceDec.fill_ul_dl_slice_conf (ul_dl_read c).
Proof.
  destruct c as [n l nn name]. intros (Hn & Hl & Hs & Hname). cbn [len_slices slices len_sched_name sched_name] in *.
  assert (u_ok 32 nn) by (destruct Hname; unfold u_ok; lia).
  unfold SliceEnc.fill_ul_dl_slice_conf, SliceDec.fill_ul_dl_slice_conf. cbn [len_slices slices len_sched_name sched_name].
  assert (wired (w_for SliceEnc.fill_slice (Z.to_nat n) l) (zsum (sz_slice <$> l)) (rd_n SliceDec.fill_slice (Z.to_nat n)) (slice_read <$> l)) as Hw.
  { subst n. rewrite Nat2Z.id. apply wired_for. eapply Forall_impl; [|exact Hs]. apply wired_slice. }
  eapply (wired_eq _ (4 + (nn + (4 + zsum (sz_slice <$> l))))); [|unfold sz_ul_dl; cbn [len_sched_name slices]; lia].
  wire_with ltac:(first [by apply wired_str | exact Hw]).
Qed.

Lemma wired_conf c : conf_ok c → wired (SliceEnc.fill_slice_conf c) (sz_conf c) SliceDec.fill_slice_conf (conf_read c).
Proof.
  destruct c. intros [Hd Hu]. unfold SliceEnc.fill_slice_conf, SliceDec.fill_slice_conf. wire_with ltac:(by apply wired_ul_dl).
Qed.

Lemma wired_ues c : ues_ok c → wired (SliceEnc.fill_ue_slice_conf c) (sz_ues c) SliceDec.fill_ue_slice_conf c.
Proof.
  destruct c as [n l]. intros (Hn & Hl & Ha). cbn [len_ue_slice ues] in *. unfold SliceEnc.fill_ue_slice_conf, SliceDec.fill_ue_slice_conf, sz_ues.
  cbn [len_ue_slice ues].
  assert (wired (w_for SliceEnc.fill_ue_slice_assoc (Z.to_nat n) l) (10 * n) (rd_n SliceDec.fill_ue_slice_assoc (Z.to_nat n)) l) as Hw.
  { subst n. rewrite Nat2Z.id. rewrite <-(list_fmap_id l) at 5. apply (wired_eq _ (zsum ((λ _, 10) <$> l))).
    - apply (wired_for _ (λ _, 10) _ id). eapply Forall_impl; [|exact Ha]. intros [d u r] (Hd & Hu & Hr). cbn in Hd, Hu, Hr. unfold id.
      unfold SliceEnc.fill_ue_slice_assoc, SliceDec.fill_ue_slice_assoc. repeat apply wired_assoc. apply wired_before_end; [done|].
      eapply (wired_eq _ (4 + (4 + 2))); [wire_with fail|done].
    - rewrite zsum_const. lia. }
  wire_with ltac:(exact Hw).
Qed.

Lemma wired_del d : del_ok d → wired (SliceEnc.fill_del_slice_conf d) (8 + 4 * len_dl d + 4 * len_ul d) SliceDec.fill_del_slice d.
Proof.
  destruct d as [nd d nu u]. intros [(Hnd & Hd & Hdl) (Hnu & Hu & Hul)]. cbn [len_dl del_dl len_ul del_ul] in *.
  unfold SliceEnc.fill_del_slice_conf, SliceDec.fill_del_slice. cbn [len_dl del_dl len_ul del_ul].
  subst nd nu. rewrite !Nat2Z.id. eapply (wired_eq _ (4 + (Z.of_nat (length d) * 4 + (4 + Z.of_nat (length u) * 4)))); [|lia].
  wire_with ltac:(by rewrite Nat2Z.id; apply wired_scalars).
Qed.

Definition rd_ind_msg : reader slice_ind_msg_t := λ it,
  '(c, it) ← SliceDec.fill_slice_conf it;
  '(u, it) ← SliceDec.fill_ue_slice_conf it;
  '(t, it) ← rd_scalar CI64 it;
  Ret (mk_slice_ind_msg c u t, it).

Lemma wired_ind_msg m : slice_ind_msg_ok m →
  wired (SliceEnc.fill_slice_conf (slice_conf m) >>> SliceEnc.fill_ue_slice_conf (ue_slice_conf m) >>> w_scalar CI64 (sl_tstamp m))
    (sz_ind m) rd_ind_msg (ind_read m).
Proof.
  destruct m as [c u t]. intros (Hc & Hu & Ht). cbn [slice_conf ue_slice_conf sl_tstamp] in *.
  eapply (wired_eq _ (sz_conf c + (sz_ues u + 8))); [|unfold sz_ind; cbn [slice_conf ue_slice_conf]; lia].
  unfold rd_ind_msg, ind_read. cbn [slice_conf ue_slice_conf sl_tstamp]. wire_with ltac:(first [by apply wired_conf | by apply wired_ues]).
Qed.

Definition rd_ctrl_msg : reader slice_ctrl_msg_t := λ it,
  '(type, it) ← rd_scalar CU32 it;
  if type =? 0 then '(c, it) ← SliceDec.fill_slice_conf it; Ret (SLICE_CTRL_SM_V0_ADD c, it)
  else if type =? 1 then '(d, it) ← SliceDec.fill_del_slice it; Ret (SLICE_CTRL_SM_V0_DEL d, it)
  else if type =? 2 then '(u, it) ← SliceDec.fill_ue_slice_conf it; Ret (SLICE_CTRL_SM_V0_UE_SLICE_ASSOC u, it)
  else Abort.

Lemma wired_ctrl_msg m : slice_ctrl_msg_ok m → wired (SliceEnc.fill_slice_ctrl_msg m) (sz_ctrl m) rd_ctrl_msg (ctrl_read m).
Proof.
  destruct m as [c|d|u|t]; cbn [slice_ctrl_msg_ok ctrl_read]; [| | |done]; intros Hm; unfold SliceEnc.fill_slice_ctrl_msg, rd_ctrl_msg, sz_ctrl.
  - wire_with ltac:(by apply wired_conf).
  - wire_with ltac:(by apply wired_del).
  - wire_with ltac:(by apply wired_ues).
Qed.

(** ** The size computed beforehand *)

Lemma cal_params_ok p : params_ok p → SliceEnc.cal_params p = Ret (sz_params p).
Proof. by destruct p as [?|[]|[]|?|?]. Qed.

Lemma cal_ul_dl_ok c : ul_dl_ok c → SliceEnc.cal_ul_dl c = Ret (sz_ul_dl c).
Proof.
  intros (Hn & Hl & Hs & _). unfold SliceEnc.cal_ul_dl, SliceEnc.cal_slc. rewrite <-Hl, Nat2Z.id.
  rewrite (cal_for_ok _ sz_slice).
  - rewrite outcome_bind_ret_l. f_equal. unfold sz_ul_dl. lia.
  - eapply Forall_impl; [|exact Hs]. intros s (_ & _ & _ & Hp). cbn beta. rewrite cal_params_ok by done. rewrite outcome_bind_ret_l. f_equal. unfold sz_slice. lia.
Qed.

Lemma cal_conf_ok c : conf_ok c → SliceEnc.cal_slice_conf c = Ret (sz_conf c).
Proof.
  intros [Hd Hu]. unfold SliceEnc.cal_slice_conf. rewrite !cal_ul_dl_ok by done. rewrite !outcome_bind_ret_l. unfold sz_conf. f_equal. lia.
Qed.

Lemma cal_ues_ok c : ues_ok c → SliceEnc.cal_ue_slice_conf c = Ret (sz_ues c).
Proof.
  intros (_ & Hl & _). unfold SliceEnc.cal_ue_slice_conf, sz_ues. rewrite <-Hl, Nat2Z.id. rewrite (cal_for_ok _ (λ _, 10)).
  - rewrite outcome_bind_ret_l. rewrite zsum_const. f_equal. lia.
  - apply Forall_true. done.
Qed.

Lemma cal_ind_ok m : slice_ind_msg_ok m → SliceEnc.cal_ind_msg_payload m = Ret (sz_ind m).
Proof. intros (Hc & Hu & _). unfold SliceEnc.cal_ind_msg_payload. by rewrite cal_conf_ok, outcome_bind_ret_l, cal_ues_ok, outcome_bind_ret_l. Qed.

Lemma cal_ctrl_ok m : slice_ctrl_msg_ok m → SliceEnc.cal_ctrl_msg_payload m = Ret (sz_ctrl m).
Proof.
  destruct m as [c|d|u|t]; cbn [slice_ctrl_msg_ok]; [| | |done]; intros Hm; unfold SliceEnc.cal_ctrl_msg_payload, sz_ctrl.
  - by rewrite cal_conf_ok.
  - rewrite outcome_bind_ret_l. f_equal. unfold SliceEnc.cal_del_slice. lia.
  - by rewrite cal_ues_ok.
Qed.

(** ** Round trips *)

(** The decoders read a message and check that nothing follows. *)
Lemma slice_dec_ind_msg_rd bs : SliceDec.slice_dec_ind_msg_plain bs = ('(m, it) ← rd_ind_msg bs; at_end it;; Ret m).
Proof.
  unfold SliceDec.slice_dec_ind_msg_plain, rd_ind_msg.
  destruct (SliceDec.fill_slice_conf bs) as [[c i1]| | | |]; [|done..]. cbn [mbind outcome_bind].
  destruct (SliceDec.fill_ue_slice_conf i1) as [[u i2]| | | |]; [|done..]. cbn [mbind outcome_bind].
  by destruct (rd_scalar CI64 i2) as [[t i3]| | | |].
Qed.

Lemma slice_dec_ctrl_msg_rd bs : SliceDec.slice_dec_ctrl_msg_plain bs = ('(m, it) ← rd_ctrl_msg bs; at_end it;; Ret m).
Proof. unfold SliceDec.slice_dec_ctrl_msg_plain, rd_ctrl_msg. by destruct (rd_scalar CU32 bs) as [[t i1]| | | |]. Qed.

Lemma slice_ind_msg_decoded m : slice_ind_msg_ok m → sz_ind m < 2 ^ 64 →
  ∃ bs, SliceEnc.slice_enc_ind_msg_plain m = Ret bs ∧ Z.of_nat (length bs) = sz_ind m ∧
        SliceDec.slice_dec_ind_msg_plain bs = Ret (ind_read m).
Proof.
  intros Hm Hsz. destruct (fill_wired _ _ _ _ (wired_ind_msg m Hm) Hsz) as (bs & Hf & Hl & Hr). exists bs. split_and!; [|done|].
  - unfold SliceEnc.slice_enc_ind_msg_plain. by rewrite cal_ind_ok, outcome_bind_ret_l.
  - by rewrite slice_dec_ind_msg_rd, Hr.
Qed.

Lemma slice_ctrl_msg_decoded m : slice_ctrl_msg_ok m → sz_ctrl m < 2 ^ 64 →
  ∃ bs, SliceEnc.slice_enc_ctrl_msg_plain m = Ret bs ∧ Z.of_nat (length bs) = sz_ctrl m ∧
        SliceDec.slice_dec_ctrl_msg_plain bs = Ret (ctrl_read m).
Proof.
  intros Hm Hsz. destruct (fill_wired _ _ _ _ (wired_ctrl_msg m Hm) Hsz) as (bs & Hf & Hl & Hr). exists bs. split_and!; [|done|].
  - unfold SliceEnc.slice_enc_ctrl_msg_plain. by rewrite cal_ctrl_ok, outcome_bind_ret_l.
  - by rewrite slice_dec_ctrl_msg_rd, Hr.
Qed.

(** ** An example *)

Definition demo_slices : slice_ind_msg_t :=
  mk_slice_ind_msg
    (mk_slice_conf
       (mk_ul_dl_slice_conf 2
          [mk_fr_slice 0 2 (Some [104; 105; 0]) 2 (Some [112; 102]) (SLICE_ALG_SM_V0_STATIC (mk_static_slice 0 13));
           mk_fr_slice 5 0 None 1 (Some [120]) (SLICE_ALG_SM_V0_EDF (mk_edf_slice 10 20 5 2 (Some [0; 5])))] 3 (Some [110; 118; 115]))
       (mk_ul_dl_slice_conf 1
          [mk_fr_slice 7 1 (Some [117]) 0 None (SLICE_ALG_SM_V0_NVS (SLICE_SM_NVS_V0_RATE (mk_nvs_rate 1084227584 1117782016)))] 0 None))
    (mk_ue_slice_conf 1 [mk_ue_slice_assoc 5 7 1234]) 1700000000.

Lemma demo_slices_ok : slice_ind_msg_ok demo_slices.
Proof. by apply (bool_decide_unpack _). Qed.

(** * The decoder yields well-typed messages

    Whatever the bytes, a message the decoder returns is one the encoder could have
    been given: known tags, lengths that agree with the arrays, fields within their
    type; and the encoder gives the bytes back. *)

(** The next field is a scalar. *)
Ltac next_scalar a H := eapply parsed_seq; [apply parsed_scalar; discriminate|]; intros a ? [H ->].
(** The next part has been dealt with. *)
Ltac next_part L a Hok Hp Hl := eapply parsed_seq; [exact L|]; intros a ? (Hok & Hp & Hl).
(** The sizes of what has been read. *)
Ltac sizes := rewrite ?length_app, ?length_enc_scalar; cbn [csize] in *; try lia.
(** The last step, a record of the parts. *)
Ltac all_read := apply parsed_ret; rewrite ?app_nil_r.

Lemma typed_static : parsed SliceDec.fill_static (typed static_ok SliceEnc.fill_static (λ _, 8)).
Proof.
  next_scalar h Hh. next_scalar l Hl. all_read. refine (conj _ (conj _ _)); [by split| |by sizes].
  unfold SliceEnc.fill_static. repeat simple apply puts_assoc. apply puts_before_end; [sizes|]. put_all fail.
Qed.

Lemma typed_rate : parsed SliceDec.fill_rate (typed rate_ok SliceEnc.fill_rate (λ _, 8)).
Proof. next_scalar h Hh. next_scalar l Hl. all_read. refine (conj _ (conj _ _)); [by split| |by sizes]. unfold SliceEnc.fill_rate. put_all fail. Qed.

Lemma typed_capacity : parsed SliceDec.fill_capacity (typed (λ c, u_ok 32 (pct_reserved c)) SliceEnc.fill_capacity (λ _, 4)).
Proof. next_scalar h Hh. all_read. refine (conj _ (conj _ _)); [done| |by sizes]. unfold SliceEnc.fill_capacity. put_all fail. Qed.

Lemma typed_on_demand : parsed SliceDec.fill_on_demand
  (typed (λ d, u_ok 32 (od_pct_reserved d) ∧ u_ok 32 (od_log_delta d) ∧ u_ok 32 (od_tau d)) SliceEnc.fill_on_demand (λ _, 12)).
Proof.
  next_scalar a Ha. next_scalar b Hb. next_scalar c Hc. all_read. refine (conj _ (conj _ _)); [done| |by sizes]. unfold SliceEnc.fill_on_demand. put_all fail.
Qed.

(** One case of a union: its tag, then its member. *)
Ltac next_case L f := eapply parsed_seq; [exact L|]; intros ? ? (? & ? & ?); all_read; refine (conj _ (conj _ _));
  [assumption|unfold f; put_all assumption|unfold sz_params, sz_nvs, sz_scn19 in *; cbv beta iota; sizes].
Ltac by_tag := apply parsed_if; [intros ->%Z.eqb_eq|intros _].

Lemma typed_nvs : parsed SliceDec.fill_nvs (typed nvs_ok SliceEnc.fill_nvs sz_nvs).
Proof.
  next_scalar c Hc. by_tag; [|by_tag; [|apply parsed_abort]].
  - next_case typed_rate SliceEnc.fill_nvs.
  - next_case typed_capacity SliceEnc.fill_nvs.
Qed.

Lemma typed_scn19 : parsed SliceDec.fill_scn19 (typed scn19_ok SliceEnc.fill_scn19 sz_scn19).
Proof.
  next_scalar c Hc. by_tag; [|by_tag; [|by_tag; [|apply parsed_abort]]].
  - next_case typed_rate SliceEnc.fill_scn19.
  - next_case typed_static SliceEnc.fill_scn19.
  - next_case typed_on_demand SliceEnc.fill_scn19.
Qed.

Lemma typed_edf : parsed SliceDec.fill_edf (typed edf_ok SliceEnc.fill_edf (λ e, 16 + 4 * len_over e)).
Proof.
  next_scalar d Hd. next_scalar g Hg. next_scalar m Hm. next_scalar n Hn. next_part (parsed_u32s n Hn) o Hok Hp Hl. all_read.
  refine (conj _ (conj _ _)); [done| |cbn; sizes]. unfold SliceEnc.fill_edf. put_all ltac:(exact Hp).
Qed.

Lemma typed_params : parsed SliceDec.fill_params (typed params_ok SliceEnc.fill_params sz_params).
Proof.
  next_scalar c Hc. by_tag; [|by_tag; [|by_tag; [|by_tag; [|apply parsed_abort]]]].
  - next_case typed_static SliceEnc.fill_params.
  - next_case typed_nvs SliceEnc.fill_params.
  - next_case typed_scn19 SliceEnc.fill_params.
  - next_case typed_edf SliceEnc.fill_params.
Qed.

Lemma typed_slice : parsed SliceDec.fill_slice (typed slice_ok SliceEnc.fill_slice sz_slice).
Proof.
  next_scalar i Hi. next_scalar nl Hnl. next_part (parsed_str nl Hnl) l Hl Hpl Hll.
  next_scalar ns Hns. next_part (parsed_str ns Hns) s Hs Hps Hls. next_part typed_params p Hp Hpp Hlp. all_read.
  refine (conj _ (conj _ _)); [done| |unfold sz_slice; cbn [len_label len_sched params]; sizes].
  unfold SliceEnc.fill_slice. repeat simple apply puts_assoc. apply puts_before_end; [sizes|].
  put_all ltac:(first [exact Hpl | exact Hps | exact Hpp]).
Qed.

Lemma typed_ul_dl : parsed SliceDec.fill_ul_dl_slice_conf (typed ul_dl_ok SliceEnc.fill_ul_dl_slice_conf sz_ul_dl).
Proof.
  next_scalar nn Hnn. next_part (parsed_str nn Hnn) name Hname Hpn Hln. next_scalar k Hk.
  eapply parsed_seq; [exact (parsed_for _ _ _ _ (Z.to_nat k) typed_slice)|]. intros sl b (Hlen & Hok & Hp & Hl). all_read.
  assert (0 <= k) by (unfold cval_ok, u_ok in Hk; cbn in Hk; lia).
  refine (conj _ (conj _ _)); [refine (conj Hk (conj _ (conj Hok Hname))); cbn [len_slices slices]; lia| |unfold sz_ul_dl; cbn [len_sched_name slices]; sizes].
  unfold SliceEnc.fill_ul_dl_slice_conf. put_all ltac:(first [exact Hpn | exact Hp]).
Qed.

Lemma typed_conf : parsed SliceDec.fill_slice_conf (typed conf_ok SliceEnc.fill_slice_conf sz_conf).
Proof.
  next_part typed_ul_dl dl Hd Hpd Hld. next_part typed_ul_dl ul Hu Hpu Hlu. all_read.
  refine (conj _ (conj _ _)); [by split| |unfold sz_conf; cbn; sizes]. unfold SliceEnc.fill_slice_conf.
  put_all ltac:(first [exact Hpd | exact Hpu]).
Qed.

Lemma typed_assoc : parsed SliceDec.fill_ue_slice_assoc (typed assoc_ok SliceEnc.fill_ue_slice_assoc (λ _, 10)).
Proof.
  next_scalar d Hd. next_scalar u Hu. next_scalar r Hr. all_read. refine (conj _ (conj _ _)); [done| |by sizes].
  unfold SliceEnc.fill_ue_slice_assoc. repeat simple apply puts_assoc. apply puts_before_end; [sizes|]. put_all fail.
Qed.

Lemma typed_ues : parsed SliceDec.fill_ue_slice_conf (typed ues_ok SliceEnc.fill_ue_slice_conf sz_ues).
Proof.
  next_scalar n Hn. eapply parsed_seq; [exact (parsed_for _ _ _ _ (Z.to_nat n) typed_assoc)|]. intros l b (Hlen & Hok & Hp & Hl). all_read.
  assert (0 <= n) by (unfold cval_ok, u_ok in Hn; cbn in Hn; lia). rewrite zsum_const in Hl.
  refine (conj _ (conj _ _)); [refine (conj Hn (conj _ Hok)); cbn [len_ue_slice ues]; lia| |unfold sz_ues; cbn [len_ue_slice]; sizes].
  unfold SliceEnc.fill_ue_slice_conf. put_all ltac:(exact Hp).
Qed.

Lemma typed_del : parsed SliceDec.fill_del_slice (typed del_ok SliceEnc.fill_del_slice_conf (λ d, 8 + 4 * len_dl d + 4 * len_ul d)).
Proof.
  assert (∀ n, cval_ok CU32 n → 0 <= n) as H0 by (intros n Hn; unfold cval_ok, u_ok in Hn; cbn in Hn; lia).
  next_scalar nd Hnd. eapply parsed_seq; [exact (parsed_scalars CU32 (Z.to_nat nd) ltac:(done))|]. intros d b1 (Hd & Hdo & Hdp & Hdl).
  next_scalar nu Hnu. eapply parsed_seq; [exact (parsed_scalars CU32 (Z.to_nat nu) ltac:(done))|]. intros u b2 (Hu & Huo & Hup & Hul). all_read.
  pose proof (H0 _ Hnd). pose proof (H0 _ Hnu).
  refine (conj (conj (conj Hnd (conj _ Hdo)) (conj Hnu (conj _ Huo))) (conj _ _)); cbn [len_dl del_dl len_ul del_ul]; [lia|lia| |sizes].
  unfold SliceEnc.fill_del_slice_conf. put_all ltac:(first [exact Hdp | exact Hup]).
Qed.

Lemma typed_ind_msg : parsed rd_ind_msg (typed slice_ind_msg_ok
  (λ m, SliceEnc.fill_slice_conf (slice_conf m) >>> SliceEnc.fill_ue_slice_conf (ue_slice_conf m) >>> w_scalar CI64 (sl_tstamp m)) sz_ind).
Proof.
  next_part typed_conf c Hc Hpc Hlc. next_part typed_ues u Hu Hpu Hlu. next_scalar t Ht. all_read.
  refine (conj (conj Hc (conj Hu Ht)) (conj _ _)); [|unfold sz_ind; cbn [slice_conf ue_slice_conf]; sizes].
  cbn [slice_conf ue_slice_conf sl_tstamp]. put_all ltac:(first [exact Hpc | exact Hpu]).
Qed.

Lemma typed_ctrl_msg : parsed rd_ctrl_msg (typed slice_ctrl_msg_ok SliceEnc.fill_slice_ctrl_msg sz_ctrl).
Proof.
  next_scalar c Hc. by_tag; [|by_tag; [|by_tag; [|apply parsed_abort]]].
  - next_part typed_conf x Hok Hp Hl. all_read. refine (conj Hok (conj _ _)); [unfold SliceEnc.fill_slice_ctrl_msg; put_all ltac:(exact Hp)|unfold sz_ctrl; sizes].
  - next_part typed_del x Hok Hp Hl. all_read. refine (conj Hok (conj _ _)); [unfold SliceEnc.fill_slice_ctrl_msg; put_all ltac:(exact Hp)|unfold sz_ctrl; sizes].
  - next_part typed_ues x Hok Hp Hl. all_read. refine (conj Hok (conj _ _)); [unfold SliceEnc.fill_slice_ctrl_msg; put_all ltac:(exact Hp)|unfold sz_ctrl; sizes].
Qed.

(** C22. Whatever bytes arrive, an indication message the slice decoder returns is well
    typed (known algorithms, lengths that are those of the arrays and strings, every
    field within its type) and the encoder turns it back into the same bytes. *)
Theorem slice_decoder_well_typed (bs : bytes) (m : slice_ind_msg_t) :
  Forall byte_ok bs → Z.of_nat (length bs) < 2 ^ 64 → SliceDec.slice_dec_ind_msg_plain bs = Ret m →
  slice_ind_msg_ok m ∧ sz_ind m = Z.of_nat (length bs) ∧ SliceEnc.slice_enc_ind_msg_plain m = Ret bs.
Proof.
  intros Hb Hlen Hd. rewrite slice_dec_ind_msg_rd in Hd. destruct (rd_ind_msg bs) as [[x rest]| | | |] eqn:Hr; [|by inversion Hd..].
  cbn [mbind outcome_bind] in Hd. destruct rest; [|done]. injection Hd as ->.
  destruct (typed_ind_msg _ _ _ Hb Hr) as (b & -> & Hok & Hp & Hl). rewrite app_nil_r in *. split_and!; [done|done|].
  unfold SliceEnc.slice_enc_ind_msg_plain. rewrite cal_ind_ok, outcome_bind_ret_l by done. apply fill_puts; [done|done|lia].
Qed.

Definition demo_bytes : bytes :=
  Eval vm_compute in match SliceEnc.slice_enc_ind_msg_plain demo_slices with Ret b => b | _ => [] end.

Lemma slice_decoder_well_typed_witness :
  slice_ind_msg_ok (ind_read demo_slices) ∧ sz_ind (ind_read demo_slices) = Z.of_nat (length demo_bytes) ∧
  SliceEnc.slice_enc_ind_msg_plain (ind_read demo_slices) = Ret demo_bytes.
Proof.
  apply slice_decoder_well_typed; [by apply (bool_decide_unpack (Forall byte_ok demo_bytes))|reflexivity|vm_compute; reflexivity].
Defined.

(** The same of control messages. *)
Lemma slice_ctrl_decoder_well_typed (bs : bytes) (m : slice_ctrl_msg_t) :
  Forall byte_ok bs → Z.of_nat (length bs) < 2 ^ 64 → SliceDec.slice_dec_ctrl_msg_plain bs = Ret m →
  slice_ctrl_msg_ok m ∧ sz_ctrl m = Z.of_nat (length bs) ∧ SliceEnc.slice_enc_ctrl_msg_plain m = Ret bs.
Proof.
  intros Hb Hlen Hd. rewrite slice_dec_ctrl_msg_rd in Hd. destruct (rd_ctrl_msg bs) as [[x rest]| | | |] eqn:Hr; [|by inversion Hd..].
  cbn [mbind outcome_bind] in Hd. destruct rest; [|done]. injection Hd as ->.
  destruct (typed_ctrl_msg _ _ _ Hb Hr) as (b & -> & Hok & Hp & Hl). rewrite app_nil_r in *. split_and!; [done|done|].
  unfold SliceEnc.slice_enc_ctrl_msg_plain. rewrite cal_ctrl_ok, outcome_bind_ret_l by done. apply fill_puts; [done|done|lia].
Qed.

(** * The copies

    A copy compares itself with the original and aborts when they differ: it does so
    for a rate that is not a number, and for a scheduler name of length 0 that is not
    NULL.  Otherwise it is the original with its strings cut to their length. *)

(** ** When, and what *)

Definition str_cut (n : Z) (p : option bytes) : option bytes :=
  if 0 <? n then Some (take (Z.to_nat n) (default [] p)) else None.

Definition rate_num (r : nvs_rate_t) : bool := negb (f32_nan (mbps_required r)) && negb (f32_nan (mbps_reference r)).
Definition params_num (p : slice_params_t) : bool :=
  match p with
  | SLICE_ALG_SM_V0_NVS (SLICE_SM_NVS_V0_RATE r) | SLICE_ALG_SM_V0_SCN19 (SLICE_SCN19_SM_V0_DYNAMIC r) => rate_num r
  | SLICE_ALG_SM_V0_NVS (SLICE_SM_NVS_V0_CAPACITY c) => negb (f32_nan (pct_reserved c))
  | SLICE_ALG_SM_V0_SCN19 (SLICE_SCN19_SM_V0_ON_DEMAND d) => negb (f32_nan (od_log_delta d)) && negb (f32_nan (od_pct_reserved d))
  | _ => true
  end.
Definition name_null (c : ul_dl_slice_conf_t) : bool := (0 <? len_sched_name c) || bool_decide (sched_name c = None).
Definition ul_dl_copies (c : ul_dl_slice_conf_t) : bool := forallb (λ s, params_num (params s)) (slices c) && name_null c.
Definition conf_copies (c : slice_conf_t) : bool := ul_dl_copies (sc_dl c) && ul_dl_copies (sc_ul c).

Definition slice_cut (s : fr_slice_t) : fr_slice_t :=
  mk_fr_slice (sl_id s) (len_label s) (str_cut (len_label s) (label s)) (len_sched s) (str_cut (len_sched s) (sched s)) (params s).
Definition ul_dl_cut (c : ul_dl_slice_conf_t) : ul_dl_slice_conf_t :=
  mk_ul_dl_slice_conf (len_slices c) (slice_cut <$> slices c) (len_sched_name c) (str_cut (len_sched_name c) (sched_name c)).
Definition conf_cut (c : slice_conf_t) : slice_conf_t := mk_slice_conf (ul_dl_cut (sc_dl c)) (ul_dl_cut (sc_ul c)).
Definition ind_cut (m : slice_ind_msg_t) : slice_ind_msg_t := mk_slice_ind_msg (conf_cut (slice_conf m)) (ue_slice_conf m) (sl_tstamp m).

(** ** Strings *)

Lemma ptr_dup_str n p : str_ok n p → ptr_dup n p = Ret (str_cut n p).
Proof.
  intros [Hn Hp]. unfold ptr_dup, str_cut. rewrite (ptr_prefix_ok n p ltac:(lia) Hp). by destruct (0 <? n).
Qed.

Lemma str_cut_ok n p : str_ok n p → str_ok n (str_cut n p).
Proof.
  intros [Hn Hp]. split; [done|]. intros H0. specialize (Hp H0). unfold str_cut. rewrite (proj2 (Z.ltb_lt _ _)) by done.
  destruct p as [l|]; [|done]. cbn [from_option]. rewrite length_take. cbn. unfold id. lia.
Qed.

Lemma str_cut_prefix n p : str_ok n p → ptr_prefix n (str_cut n p) = ptr_prefix n p.
Proof.
  intros H. rewrite (ptr_prefix_ok n _ ltac:(apply H) ltac:(apply str_cut_ok, H)), (ptr_prefix_ok n p ltac:(apply H) ltac:(apply H)).
  f_equal. unfold str_cut. destruct (Z.ltb_spec 0 n) as [H0|H0].
  - change (default [] (Some (take (Z.to_nat n) (default [] p)))) with (take (Z.to_nat n) (default [] p)). rewrite take_take. f_equal. lia.
  - destruct H as [Hn _]. assert (n = 0) as -> by lia. done.
Qed.

Lemma memcmp_cut n p : str_ok n p → memcmp_eq n p (str_cut n p) = Ret true.
Proof.
  intros H. unfold memcmp_eq. rewrite str_cut_prefix by done. rewrite (ptr_prefix_ok n p ltac:(apply H) ltac:(apply H)), !outcome_bind_ret_l.
  by rewrite bool_decide_eq_true_2.
Qed.

(** What the decoder made of a string is cut back. *)
Lemma str_cut_read n p : str_ok n p → str_cut n (str_read n p) = str_cut n p.
Proof.
  intros [Hn Hp]. unfold str_cut, str_read. destruct (Z.ltb_spec 0 n) as [H0|H0]; [|done]. specialize (Hp H0). destruct p as [l|]; [|done].
  change (default [] (Some (take (Z.to_nat n) (default [] (Some l)) ++ [0]))) with (take (Z.to_nat n) l ++ [0]).
  rewrite take_app_length' by (rewrite length_take; lia). done.
Qed.

Lemma str_read_ok n p : str_ok n p → str_ok n (str_read n p).
Proof.
  intros [Hn Hp]. split; [done|]. intros H0. specialize (Hp H0). unfold str_read. rewrite (proj2 (Z.ltb_lt _ _)) by done.
  destruct p as [l|]; [|done]. change (default [] (Some l)) with l. rewrite length_app, length_take. lia.
Qed.

(** ** Parameters *)

Lemma eq_static_refl s : eq_static_slice s s = true.
Proof. unfold eq_static_slice. by rewrite !Z.eqb_refl. Qed.

Lemma eq_rate_refl r : eq_nvs_rate r r = rate_num r.
Proof. unfold eq_nvs_rate, rate_num. rewrite !f32_eq_refl. apply andb_comm. Qed.

Lemma eq_over_refl l : eq_over (length l) l l = Ret ().
Proof. induction l as [|x l IH]; [done|]. cbn [length eq_over]. by rewrite Z.eqb_refl. Qed.

Lemma eq_edf_refl e : edf_ok e → eq_edf_slice e e = Ret true.
Proof.
  intros (_ & _ & _ & Hn & Ho). unfold eq_edf_slice. rewrite !Z.eqb_refl. cbn [c_assert]. rewrite outcome_bind_ret_l.
  destruct (over e) as [l|]; [destruct Ho as [<- _]; rewrite Nat2Z.id; cbn [from_option]; unfold id; by rewrite eq_over_refl|by rewrite Ho].
Qed.

Lemma eq_params_refl p : params_ok p → eq_slice_params p p = if params_num p then Ret true else Abort.
Proof.
  intros Hp. unfold eq_slice_params. rewrite Z.eqb_refl. cbn [negb].
  destruct p as [s|[r|c|?]|[r|s|d|?]|e|?]; cbn [params_ok nvs_ok scn19_ok] in Hp; try done; cbn [params_num].
  - by rewrite eq_static_refl.
  - cbn [eq_nvs_slice]. rewrite eq_rate_refl, outcome_bind_ret_l. by destruct (rate_num r).
  - cbn [eq_nvs_slice]. unfold eq_nvs_cap. rewrite f32_eq_refl, outcome_bind_ret_l. by destruct (f32_nan _).
  - cbn [eq_scn19_slice]. rewrite eq_rate_refl, outcome_bind_ret_l. by destruct (rate_num r).
  - cbn [eq_scn19_slice]. by rewrite eq_static_refl.
  - cbn [eq_scn19_slice]. unfold eq_scn19_on_demand. rewrite !f32_eq_refl, Z.eqb_refl, andb_true_r, outcome_bind_ret_l. by destruct (f32_nan _), (f32_nan _).
  - by rewrite eq_edf_refl.
Qed.

Lemma cp_params_ok p : params_ok p → cp_slice_params p = if params_num p then Ret p else Abort.
Proof.
  intros Hp. unfold cp_slice_params.
  assert (match p with
          | SLICE_ALG_SM_V0_STATIC _ => Ret p
          | SLICE_ALG_SM_V0_NVS (NVS_OTHER _) => Abort
          | SLICE_ALG_SM_V0_NVS _ => Ret p
          | SLICE_ALG_SM_V0_SCN19 s => s ← cp_scn19_slice s; Ret (SLICE_ALG_SM_V0_SCN19 s)
          | SLICE_ALG_SM_V0_EDF e =>
              o ← ptr_dup (len_over e) (over e);
              Ret (SLICE_ALG_SM_V0_EDF (mk_edf_slice (deadline e) (guaranteed_prbs e) (max_replenish e) (len_over e) o))
          | PARAMS_OTHER _ => Abort
          end = Ret p) as ->.
  { destruct p as [s|[r|c|?]|[r|s|d|?]|[dl g m n o]|?]; try done. destruct Hp as (_ & _ & _ & Hn & Ho). cbn [len_over over] in *.
    unfold ptr_dup. destruct o as [l|].
    - destruct Ho as (<- & H0 & _). rewrite (proj2 (Z.ltb_lt _ _)) by done. unfold ptr_prefix. rewrite (proj2 (Z.ltb_lt _ _)) by done.
      by rewrite arr_prefix_all.
    - by rewrite Ho. }
  rewrite outcome_bind_ret_l, eq_params_refl by done. by destruct (params_num p).
Qed.

(** ** Slices *)

Lemma eq_slice_cut s : slice_ok s → eq_slice s (slice_cut s) = if params_num (params s) then Ret true else Abort.
Proof.
  intros (Hi & Hl & Hs & Hp). unfold eq_slice, slice_cut. cbn [sl_id len_label label len_sched sched params].
  rewrite !Z.eqb_refl, memcmp_cut by done. cbn [negb]. rewrite outcome_bind_ret_l. cbn [negb]. by apply eq_params_refl.
Qed.

Lemma cpy_slice_ok s : slice_ok s → cpy_slice s = if params_num (params s) then Ret (slice_cut s) else Abort.
Proof.
  intros Hs. unfold cpy_slice. rewrite !ptr_dup_str by apply Hs. rewrite !outcome_bind_ret_l, cp_params_ok by apply Hs.
  pose proof (eq_slice_cut s Hs) as He. destruct (params_num (params s)); [|done]. rewrite outcome_bind_ret_l. cbv zeta. fold (slice_cut s).
  by rewrite He.
Qed.

Lemma map_cpy_slice l : Forall slice_ok l →
  map_for cpy_slice (length l) l = if forallb (λ s, params_num (params s)) l then Ret (slice_cut <$> l) else Abort.
Proof.
  induction 1 as [|s l Hs _ IH]; [done|]. cbn [length map_for forallb fmap list_fmap]. rewrite cpy_slice_ok by done.
  destruct (params_num (params s)); [|done]. rewrite outcome_bind_ret_l, IH. by destruct (forallb _ l).
Qed.

Lemma eq_for_slices l : Forall slice_ok l → forallb (λ s, params_num (params s)) l = true →
  eq_for (λ x y, b ← eq_slice x y; c_assert b;; Ret b) (length l) l (slice_cut <$> l) = Ret true.
Proof.
  induction 1 as [|s l Hs _ IH]; [done|]. cbn [forallb]. intros [Hp Hl]%andb_prop. cbn [length eq_for fmap list_fmap].
  rewrite eq_slice_cut, Hp by done. by apply IH.
Qed.

(** ** Messages *)

Lemma eq_sched_name_cut c : str_ok (len_sched_name c) (sched_name c) →
  eq_sched_name (sched_name c) (str_cut (len_sched_name c) (sched_name c)) (len_sched_name c) = Ret (name_null c).
Proof.
  intros Hn. pose proof (memcmp_cut _ _ Hn) as He. destruct Hn as [H0 Hp]. unfold name_null. revert He. unfold str_cut.
  destruct (Z.ltb_spec 0 (len_sched_name c)) as [Hl|Hl]; cbn [orb].
  - specialize (Hp Hl). by destruct (sched_name c).
  - by destruct (sched_name c).
Qed.

Lemma eq_ul_dl_cut c : ul_dl_ok c → ul_dl_copies c = true → eq_ul_dl_slice_conf c (ul_dl_cut c) = Ret true.
Proof.
  intros (Hn & Hl & Hs & Hname) [Hp Hnull]%andb_prop. unfold eq_ul_dl_slice_conf, ul_dl_cut. cbn [len_sched_name sched_name len_slices slices].
  rewrite !Z.eqb_refl, eq_sched_name_cut, Hnull by done. cbn [negb]. rewrite outcome_bind_ret_l. cbn [negb]. rewrite <-Hl, Nat2Z.id. by apply eq_for_slices.
Qed.

Lemma cpy_ul_dl_ok c : ul_dl_ok c → cpy_ul_dl_slice_conf c = if ul_dl_copies c then Ret (ul_dl_cut c) else Abort.
Proof.
  intros Hc. pose proof Hc as (Hn & Hl & Hs & Hname). unfold cpy_ul_dl_slice_conf. rewrite ptr_dup_str by done. rewrite outcome_bind_ret_l.
  rewrite <-Hl at 1. rewrite Nat2Z.id, map_cpy_slice by done. pose proof (eq_ul_dl_cut c Hc) as He. unfold ul_dl_copies in *.
  destruct (forallb _ (slices c)) eqn:Hf; [|done]. cbn [andb] in *. rewrite outcome_bind_ret_l. cbv zeta. fold (ul_dl_cut c).
  destruct (name_null c) eqn:Hnull; [by rewrite He|].
  unfold eq_ul_dl_slice_conf, ul_dl_cut. cbn [len_sched_name sched_name]. rewrite Z.eqb_refl, eq_sched_name_cut, Hnull by done. done.
Qed.

Lemma eq_conf_cut c : conf_ok c → conf_copies c = true → eq_slice_conf c (conf_cut c) = Ret true.
Proof.
  intros [Hd Hu] [Hcd Hcu]%andb_prop. unfold eq_slice_conf, c_and, conf_cut. cbn [sc_dl sc_ul]. by rewrite !eq_ul_dl_cut.
Qed.

Lemma cp_conf_ok c : conf_ok c → cp_slice_conf c = if conf_copies c then Ret (conf_cut c) else Abort.
Proof.
  intros Hc. pose proof (eq_conf_cut c Hc) as He. destruct Hc as [Hd Hu]. unfold cp_slice_conf. rewrite !cpy_ul_dl_ok by done. unfold conf_copies in *.
  destruct (ul_dl_copies (sc_dl c)); [|done]. destruct (ul_dl_copies (sc_ul c)); [|done]. rewrite !outcome_bind_ret_l. cbv zeta.
  fold (conf_cut c). by rewrite He.
Qed.

Lemma cp_ues_ok c : ues_ok c → cp_ue_slice_conf c = Ret c.
Proof.
  intros (_ & Hl & _). unfold cp_ue_slice_conf. rewrite <-Hl at 1. rewrite Nat2Z.id, (map_for_ok _ id).
  - rewrite outcome_bind_ret_l, list_fmap_id. by destruct c.
  - apply Forall_true. by intros [].
Qed.

Lemma eq_ues_refl c : ues_ok c → eq_ue_slice_conf c c = Ret true.
Proof.
  intros (_ & Hl & _). unfold eq_ue_slice_conf. rewrite Z.eqb_refl. cbn [negb]. rewrite <-Hl, Nat2Z.id. clear. induction (ues c) as [|x l IH]; [done|].
  cbn [length eq_arr]. unfold eq_ue_slice_assoc at 1. by rewrite !Z.eqb_refl.
Qed.

Lemma cp_ind_ok m : slice_ind_msg_ok m → cp_slice_ind_msg m = if conf_copies (slice_conf m) then Ret (ind_cut m) else Abort.
Proof.
  intros (Hc & Hu & Ht). unfold cp_slice_ind_msg. rewrite cp_conf_ok by done. pose proof (eq_conf_cut _ Hc) as He.
  destruct (conf_copies (slice_conf m)); [|done]. rewrite outcome_bind_ret_l, cp_ues_ok, outcome_bind_ret_l by done. cbv zeta. fold (ind_cut m).
  unfold eq_slice_ind_msg, c_and, ind_cut. cbn [slice_conf ue_slice_conf sl_tstamp].
  rewrite He, outcome_bind_ret_l, eq_ues_refl, outcome_bind_ret_l, Z.eqb_refl by done. done.
Qed.

(** ** Copies of what the decoder made *)

Lemma slice_read_ok s : slice_ok s → slice_ok (slice_read s).
Proof. intros (Hi & Hl & Hs & Hp). refine (conj Hi (conj _ (conj _ Hp))); by apply str_read_ok. Qed.

Lemma ul_dl_read_ok c : ul_dl_ok c → ul_dl_ok (ul_dl_read c).
Proof.
  intros (Hn & Hl & Hs & Hname). refine (conj Hn (conj _ (conj _ _))); cbn [slices len_slices ul_dl_read]; [by rewrite length_fmap| |by apply str_read_ok].
  apply Forall_fmap. eapply Forall_impl; [|exact Hs]. apply slice_read_ok.
Qed.

Lemma ind_read_ok m : slice_ind_msg_ok m → slice_ind_msg_ok (ind_read m).
Proof. intros ([Hd Hu] & Hues & Ht). exact (conj (conj (ul_dl_read_ok _ Hd) (ul_dl_read_ok _ Hu)) (conj Hues Ht)). Qed.

(** No rate is the bit pattern of a NaN. *)
Definition conf_num (c : slice_conf_t) : bool :=
  forallb (λ s, params_num (params s)) (slices (sc_dl c)) && forallb (λ s, params_num (params s)) (slices (sc_ul c)).

Lemma forallb_read l : forallb (λ s, params_num (params s)) (slice_read <$> l) = forallb (λ s, params_num (params s)) l.
Proof. induction l as [|x l IH]; [done|]. cbn [fmap list_fmap forallb]. f_equal. exact IH. Qed.

Lemma ul_dl_copies_read c : ul_dl_copies (ul_dl_read c) = forallb (λ s, params_num (params s)) (slices c).
Proof.
  unfold ul_dl_copies, ul_dl_read, name_null. cbn [slices len_sched_name sched_name]. rewrite forallb_read.
  unfold str_read. destruct (0 <? len_sched_name c); cbn; by rewrite andb_true_r.
Qed.

Lemma slice_cut_read s : slice_ok s → slice_cut (slice_read s) = slice_cut s.
Proof. intros (Hi & Hl & Hs & Hp). unfold slice_cut, slice_read. cbn [sl_id len_label label len_sched sched params]. by rewrite !str_cut_read. Qed.

Lemma ul_dl_cut_read c : ul_dl_ok c → ul_dl_cut (ul_dl_read c) = ul_dl_cut c.
Proof.
  intros (Hn & Hl & Hs & Hname). unfold ul_dl_cut, ul_dl_read. cbn [len_slices slices len_sched_name sched_name]. rewrite str_cut_read by done. f_equal.
  clear -Hs. induction Hs as [|s l Hs _ IH]; [done|]. cbn [fmap list_fmap]. f_equal; [by apply slice_cut_read|exact IH].
Qed.

Lemma ind_cut_read m : slice_ind_msg_ok m → ind_cut (ind_read m) = ind_cut m.
Proof. intros ([Hd Hu] & _). unfold ind_cut, ind_read, conf_cut, conf_read. cbn [slice_conf ue_slice_conf sl_tstamp sc_dl sc_ul]. by rewrite !ul_dl_cut_read. Qed.

(** C21. An indication message of the slice service model that the E2 node encodes is
    decoded by the RIC, and copying what was decoded (as the xApp does for its
    database) gives the message of the E2 node, its strings cut to their length; the copy
    aborts exactly when a rate is not a number. *)
Theorem slice_statistics_copied (m : slice_ind_msg_t) :
  slice_ind_msg_ok m → sz_ind m < 2 ^ 64 →
  ∃ bs d, SliceEnc.slice_enc_ind_msg_plain m = Ret bs ∧ Z.of_nat (length bs) = sz_ind m ∧
    SliceDec.slice_dec_ind_msg_plain bs = Ret d ∧
    cp_slice_ind_msg d = if conf_num (slice_conf m) then Ret (ind_cut m) else Abort.
Proof.
  intros Hm Hsz. destruct (slice_ind_msg_decoded m Hm Hsz) as (bs & He & Hl & Hd). exists bs, (ind_read m). split_and!; [done..|].
  rewrite cp_ind_ok by (by apply ind_read_ok). rewrite ind_cut_read by done. unfold conf_copies, ind_read, conf_read. cbn [slice_conf sc_dl sc_ul].
  by rewrite !ul_dl_copies_read.
Qed.

Lemma slice_statistics_copied_witness : slice_ind_msg_ok demo_slices ∧
  ∃ bs d, SliceEnc.slice_enc_ind_msg_plain demo_slices = Ret bs ∧ Z.of_nat (length bs) = sz_ind demo_slices ∧
    SliceDec.slice_dec_ind_msg_plain bs = Ret d ∧
    cp_slice_ind_msg d = if conf_num (slice_conf demo_slices) then Ret (ind_cut demo_slices) else Abort.
Proof. exact (conj demo_slices_ok (slice_statistics_copied demo_slices demo_slices_ok eq_refl)). Defined.
