(* ===== verification/TcData.v ===== *)
(** * TC service model: data, copies and comparison

    [src/src/sm/tc_sm/ie/tc_data_ie.h] and [.c].  The structs that differ only in the
    type of their members (an action and what is added, deleted or modified; a kind of
    classifier, of queue or of scheduler and its parameters) are instances of one sum
    over the tag, with a constructor for the tags the code does not know. *)
From S2P Require Import Prelude CLayout SmCodec SmWire.
#[local] Open Scope Z_scope.

(** The structs whose only member is an unused [uint32_t], and those with an identifier. *)
Record tc_dummy_t := mk_tc_dummy { tc_dummy : Z }.
Record tc_id_t := mk_tc_id { tc_id : Z }.

Record tc_event_trigger_t := mk_tc_event_trigger { tc_et_ms : Z }.

Record tc_ind_hdr_t := mk_tc_ind_hdr { tc_ih_dummy : Z }.
#[export] Instance tc_ind_hdr_t_struct : CStruct tc_ind_hdr_t :=
  u32_struct mk_tc_ind_hdr tc_ih_dummy (λ '(mk_tc_ind_hdr z), eq_refl) (λ _, eq_refl).

Definition tc_call_proc_id_t : Type := tc_dummy_t.

Record tc_ctrl_hdr_t := mk_tc_ctrl_hdr { tc_ch_dummy : Z }.
#[export] Instance tc_ctrl_hdr_t_struct : CStruct tc_ctrl_hdr_t :=
  u32_struct mk_tc_ctrl_hdr tc_ch_dummy (λ '(mk_tc_ctrl_hdr z), eq_refl) (λ _, eq_refl).

Record tc_ctrl_out_t := mk_tc_ctrl_out { tc_out : Z }.
#[export] Instance tc_ctrl_out_t_struct : CStruct tc_ctrl_out_t :=
  u32_struct mk_tc_ctrl_out tc_out (λ '(mk_tc_ctrl_out z), eq_refl) (λ _, eq_refl).

(** ** Tagged unions *)

(** [tc_cls_e] and the union of a classifier. *)
Inductive tc_by_cls (R O S : Type) := TC_CLS_RR (rr : R) | TC_CLS_OSI (osi : O) | TC_CLS_STO (sto : S) | CLS_OTHER (type : Z).
#[global] Arguments TC_CLS_RR {R O S}.
#[global] Arguments TC_CLS_OSI {R O S}.
#[global] Arguments TC_CLS_STO {R O S}.
#[global] Arguments CLS_OTHER {R O S}.
Definition cls_type {R O S} (c : tc_by_cls R O S) : Z :=
  match c with TC_CLS_RR _ => 0 | TC_CLS_OSI _ => 1 | TC_CLS_STO _ => 2 | CLS_OTHER t => t end.

(** [tc_queue_e]. *)
Inductive tc_by_queue (F C E : Type) := TC_QUEUE_FIFO (fifo : F) | TC_QUEUE_CODEL (codel : C) | TC_QUEUE_ECN_CODEL (ecn : E) | QUEUE_OTHER (type : Z).
#[global] Arguments TC_QUEUE_FIFO {F C E}.
#[global] Arguments TC_QUEUE_CODEL {F C E}.
#[global] Arguments TC_QUEUE_ECN_CODEL {F C E}.
#[global] Arguments QUEUE_OTHER {F C E}.
Definition queue_type {F C E} (q : tc_by_queue F C E) : Z :=
  match q with TC_QUEUE_FIFO _ => 0 | TC_QUEUE_CODEL _ => 1 | TC_QUEUE_ECN_CODEL _ => 2 | QUEUE_OTHER t => t end.

(** [tc_ctrl_act_e]. *)
Inductive tc_by_act (A D M : Type) :=
| TC_CTRL_ACTION_SM_V0_ADD (add : A)
| TC_CTRL_ACTION_SM_V0_DEL (del : D)
| TC_CTRL_ACTION_SM_V0_MOD (md : M)
| ACT_OTHER (act : Z).
#[global] Arguments TC_CTRL_ACTION_SM_V0_ADD {A D M}.
#[global] Arguments TC_CTRL_ACTION_SM_V0_DEL {A D M}.
#[global] Arguments TC_CTRL_ACTION_SM_V0_MOD {A D M}.
#[global] Arguments ACT_OTHER {A D M}.
Definition act_type {A D M} (c : tc_by_act A D M) : Z :=
  match c with TC_CTRL_ACTION_SM_V0_ADD _ => 0 | TC_CTRL_ACTION_SM_V0_DEL _ => 1 | TC_CTRL_ACTION_SM_V0_MOD _ => 2 | ACT_OTHER t => t end.

(** ** Indication message *)

Record L3_filter_t := mk_L3_filter { src_addr : Z; dst_addr : Z }.
Record L4_filter_t := mk_L4_filter { src_port : Z; dst_port : Z; protocol : Z }.
Definition L7_filter_t : Type := tc_dummy_t.

Record tc_cls_osi_filter_t := mk_tc_cls_osi_filter {
  flt_id : Z; flt_l3 : L3_filter_t; flt_l4 : L4_filter_t; flt_l7 : L7_filter_t; flt_dst_queue : Z; flt_pad : bytes }.

#[export, program] Instance tc_cls_osi_filter_t_struct : CStruct tc_cls_osi_filter_t := {|
  c_layout := struct_layout [CU32; CI64; CI64; CI32; CI32; CI32; CU32; CI32];
  c_vals f := [flt_id f; src_addr (flt_l3 f); dst_addr (flt_l3 f); src_port (flt_l4 f); dst_port (flt_l4 f); protocol (flt_l4 f);
               tc_dummy (flt_l7 f); flt_dst_queue f];
  c_pad f := flt_pad f;
  c_make vs pad := mk_tc_cls_osi_filter (nth 0 vs 0) (mk_L3_filter (nth 1 vs 0) (nth 2 vs 0))
    (mk_L4_filter (nth 3 vs 0) (nth 4 vs 0) (nth 5 vs 0)) (mk_tc_dummy (nth 6 vs 0)) (nth 7 vs 0) pad |}.
Next Obligation. by intros [? [] [] [] ? ?]. Qed.
Next Obligation. c_struct_laws. Qed.

Definition tc_cls_rr_t : Type := tc_dummy_t.
Record tc_cls_osi_t := mk_tc_cls_osi { osi_len : Z; osi_flt : list tc_cls_osi_filter_t }.
Definition tc_cls_sto_t : Type := tc_dummy_t.
Definition tc_cls_t : Type := tc_by_cls tc_cls_rr_t tc_cls_osi_t tc_cls_sto_t.

(** The four bytes of the bandwidth are a float. *)
Record tc_mtr_t := mk_tc_mtr { time_window_ms : Z; bnd_flt : Z }.
Record tc_drp_t := mk_tc_drp { dropped_pkts : Z }.
Record tc_mrk_t := mk_tc_mrk { marked_pkts : Z }.

Record tc_plc_t := mk_tc_plc {
  plc_id : Z; plc_mtr : tc_mtr_t; plc_drp : tc_drp_t; plc_mrk : tc_mrk_t;
  plc_max_rate_kbps : Z; plc_active : Z; plc_dst_id : Z; plc_dev_id : Z }.

Record tc_queue_fifo_t := mk_tc_queue_fifo {
  qf_bytes : Z; qf_pkts : Z; qf_bytes_fwd : Z; qf_pkts_fwd : Z; qf_drp : tc_drp_t; qf_avg_sojourn_time : Z; qf_last_sojourn_time : Z }.
Record tc_queue_codel_t := mk_tc_queue_codel {
  qc_bytes : Z; qc_pkts : Z; qc_bytes_fwd : Z; qc_pkts_fwd : Z; qc_drp : tc_drp_t; qc_avg_sojourn_time : Z; qc_last_sojourn_time : Z }.
Record tc_queue_ecn_codel_t := mk_tc_queue_ecn_codel {
  qe_bytes : Z; qe_pkts : Z; qe_bytes_fwd : Z; qe_pkts_fwd : Z; qe_mrk : tc_mrk_t; qe_avg_sojourn_time : Z; qe_last_sojourn_time : Z }.
Record tc_queue_t := mk_tc_queue { q_id : Z; q_conf : tc_by_queue tc_queue_fifo_t tc_queue_codel_t tc_queue_ecn_codel_t }.

Definition tc_sch_rr_t : Type := tc_dummy_t.
Record tc_sch_prio_t := mk_tc_sch_prio { len_q_prio : Z; q_prio : option (list Z) }.

(** [tc_sch_e] and the union. *)
Inductive tc_sch_t := TC_SCHED_RR (rr : tc_sch_rr_t) | TC_SCHED_PRIO (prio : tc_sch_prio_t) | SCHED_OTHER (type : Z).
Definition sch_type (s : tc_sch_t) : Z := match s with TC_SCHED_RR _ => 0 | TC_SCHED_PRIO _ => 1 | SCHED_OTHER t => t end.

Record tc_shp_t := mk_tc_shp { shp_id : Z; shp_active : Z; shp_max_rate_kbps : Z; shp_mtr : tc_mtr_t }.

Record tc_pcr_t := mk_tc_pcr { pcr_type : Z; pcr_id : Z; pcr_mtr : tc_mtr_t }.

Record tc_ind_msg_t := mk_tc_ind_msg {
  tc_sch : tc_sch_t; tc_pcr : tc_pcr_t; tc_cls : tc_cls_t;
  len_q : Z; tc_shps : list tc_shp_t; tc_plcs : list tc_plc_t; tc_qs : list tc_queue_t; tc_tstamp : Z }.

Record tc_ind_data_t := mk_tc_ind_data { tc_hdr : tc_ind_hdr_t; tc_msg : tc_ind_msg_t; tc_proc_id : option tc_call_proc_id_t }.

(** ** Control message *)

Record tc_add_cls_osi_t := mk_tc_add_cls_osi { aosi_l3 : L3_filter_t; aosi_l4 : L4_filter_t; aosi_l7 : L7_filter_t; aosi_dst_queue : Z }.
Record tc_mod_cls_osi_t := mk_tc_mod_cls_osi { mosi_filter : tc_cls_osi_filter_t }.
Definition tc_add_ctrl_cls_t : Type := tc_by_cls tc_dummy_t tc_add_cls_osi_t tc_dummy_t.
Definition tc_mod_ctrl_cls_t : Type := tc_by_cls tc_dummy_t tc_mod_cls_osi_t tc_dummy_t.
Definition tc_del_ctrl_cls_t : Type := tc_by_cls tc_dummy_t tc_id_t tc_dummy_t.
Definition tc_ctrl_cls_t : Type := tc_by_act tc_add_ctrl_cls_t tc_del_ctrl_cls_t tc_mod_ctrl_cls_t.

Record tc_mod_ctrl_plc_t := mk_tc_mod_ctrl_plc { mp_id : Z; mp_drop_rate_kbps : Z; mp_dev_id : Z; mp_dev_rate_kbps : Z; mp_active : Z }.
Definition tc_ctrl_plc_t : Type := tc_by_act tc_dummy_t tc_id_t tc_mod_ctrl_plc_t.

Definition tc_ctrl_queue_fifo_t : Type := tc_dummy_t.
Record tc_ctrl_queue_codel_t := mk_tc_ctrl_queue_codel { cq_target_ms : Z; cq_interval_ms : Z }.
Record tc_ctrl_queue_ecn_codel_t := mk_tc_ctrl_queue_ecn_codel { eq_target_ms : Z; eq_interval_ms : Z }.
Definition tc_add_ctrl_queue_t : Type := tc_by_queue tc_ctrl_queue_fifo_t tc_ctrl_queue_codel_t tc_ctrl_queue_ecn_codel_t.
Record tc_mod_ctrl_queue_t := mk_tc_mod_ctrl_queue { mq_id : Z; mq_conf : tc_add_ctrl_queue_t }.
Record tc_del_ctrl_queue_t := mk_tc_del_ctrl_queue { dq_id : Z; dq_type : Z }.
Definition tc_ctrl_queue_t : Type := tc_by_act tc_add_ctrl_queue_t tc_del_ctrl_queue_t tc_mod_ctrl_queue_t.

Definition tc_mod_ctrl_sch_t : Type := tc_sch_t.
Definition tc_ctrl_sch_t : Type := tc_by_act tc_dummy_t tc_dummy_t tc_mod_ctrl_sch_t.

Record tc_mod_ctrl_shp_t := mk_tc_mod_ctrl_shp { ms_id : Z; ms_time_window_ms : Z; ms_max_rate_kbps : Z; ms_active : Z }.
Definition tc_ctrl_shp_t : Type := tc_by_act tc_dummy_t tc_id_t tc_mod_ctrl_shp_t.

Record tc_pcr_5g_bdp_t := mk_tc_pcr_5g_bdp { bdp_drb_sz : Z; bdp_tstamp : Z }.
(** [tc_pcr_e] and the union. *)
Inductive tc_mod_ctrl_pcr_t := TC_PCR_DUMMY (dummy : tc_dummy_t) | TC_PCR_5G_BDP (bdp : tc_pcr_5g_bdp_t) | PCR_OTHER (type : Z).
Definition mod_pcr_type (p : tc_mod_ctrl_pcr_t) : Z := match p with TC_PCR_DUMMY _ => 0 | TC_PCR_5G_BDP _ => 1 | PCR_OTHER t => t end.
Definition tc_ctrl_pcr_t : Type := tc_by_act tc_dummy_t tc_dummy_t tc_mod_ctrl_pcr_t.

(** [tc_ctrl_msg_e] and the union. *)
Inductive tc_ctrl_msg_t :=
| TC_CTRL_SM_V0_CLS (cls : tc_ctrl_cls_t)
| TC_CTRL_SM_V0_PLC (plc : tc_ctrl_plc_t)
| TC_CTRL_SM_V0_QUEUE (q : tc_ctrl_queue_t)
| TC_CTRL_SM_V0_SCH (sch : tc_ctrl_sch_t)
| TC_CTRL_SM_V0_SHP (shp : tc_ctrl_shp_t)
| TC_CTRL_SM_V0_PCR (pcr : tc_ctrl_pcr_t)
| TC_CTRL_OTHER (type : Z).
Definition tc_ctrl_msg_type (m : tc_ctrl_msg_t) : Z :=
  match m with
  | TC_CTRL_SM_V0_CLS _ => 0 | TC_CTRL_SM_V0_PLC _ => 1 | TC_CTRL_SM_V0_QUEUE _ => 2
  | TC_CTRL_SM_V0_SCH _ => 3 | TC_CTRL_SM_V0_SHP _ => 4 | TC_CTRL_SM_V0_PCR _ => 5 | TC_CTRL_OTHER t => t
  end.

Record tc_ctrl_req_data_t := mk_tc_ctrl_req_data { tc_cr_hdr : tc_ctrl_hdr_t; tc_cr_msg : tc_ctrl_msg_t }.
Record tc_func_def_t := mk_tc_func_def { fd_buf : option bytes; fd_len : Z }.

(** ** Comparison

    [unless b k]: [if(!b) return false;] and the rest. *)
Definition unless (b : outcome bool) (k : outcome bool) : outcome bool := c_and b k.

Definition eq_tc_sch_rr (m0 m1 : tc_sch_rr_t) : bool := true.

Definition eq_tc_sch_prio (m0 m1 : tc_sch_prio_t) : outcome bool :=
  if negb (len_q_prio m0 =? len_q_prio m1) then Ret false
  else eq_arr Z.eqb (Z.to_nat (len_q_prio m0)) (default [] (q_prio m0)) (default [] (q_prio m1)).

Definition eq_tc_sch (m0 m1 : tc_sch_t) : outcome bool :=
  if negb (sch_type m0 =? sch_type m1) then Ret false
  else
    match m0, m1 with
    | TC_SCHED_RR r0, TC_SCHED_RR r1 => Ret (eq_tc_sch_rr r0 r1)
    | TC_SCHED_PRIO p0, TC_SCHED_PRIO p1 => eq_tc_sch_prio p0 p1
    | _, _ => Abort
    end.

Definition eq_tc_mtr (m0 m1 : tc_mtr_t) : outcome bool :=
  if negb (time_window_ms m0 =? time_window_ms m1) then Ret false
  else eq_float (bnd_flt m0) (bnd_flt m1) eps_001.

Definition eq_tc_pcr (m0 m1 : tc_pcr_t) : outcome bool :=
  if negb (pcr_type m0 =? pcr_type m1) then Ret false
  else if negb (pcr_id m0 =? pcr_id m1) then Ret false
  else eq_tc_mtr (pcr_mtr m0) (pcr_mtr m1).

Definition eq_L3_filter (m0 m1 : L3_filter_t) : bool := (src_addr m0 =? src_addr m1) && (dst_addr m0 =? dst_addr m1).
Definition eq_L4_filter (m0 m1 : L4_filter_t) : bool :=
  (src_port m0 =? src_port m1) && (dst_port m0 =? dst_port m1) && (protocol m0 =? protocol m1).

(** Not the layer 7 filter. *)
Definition eq_tc_cls_osi_filter (m0 m1 : tc_cls_osi_filter_t) : bool :=
  (flt_id m0 =? flt_id m1) && eq_L3_filter (flt_l3 m0) (flt_l3 m1) && eq_L4_filter (flt_l4 m0) (flt_l4 m1) &&
  (flt_dst_queue m0 =? flt_dst_queue m1).

Definition eq_tc_cls_osi (m0 m1 : tc_cls_osi_t) : outcome bool :=
  if negb (osi_len m0 =? osi_len m1) then Ret false
  else eq_arr eq_tc_cls_osi_filter (Z.to_nat (osi_len m0)) (osi_flt m0) (osi_flt m1).

Definition eq_tc_cls (m0 m1 : tc_cls_t) : outcome bool :=
  if negb (cls_type m0 =? cls_type m1) then Ret false
  else
    match m0, m1 with
    | TC_CLS_RR r0, TC_CLS_RR r1 => Ret (tc_dummy r0 =? tc_dummy r1)
    | TC_CLS_OSI o0, TC_CLS_OSI o1 => eq_tc_cls_osi o0 o1
    | TC_CLS_STO s0, TC_CLS_STO s1 => Ret (tc_dummy s0 =? tc_dummy s1)
    | _, _ => Abort
    end.

(** Not the maximum rate. *)
Definition eq_tc_shp (m0 m1 : tc_shp_t) : outcome bool :=
  if negb (shp_id m0 =? shp_id m1) then Ret false
  else if negb (shp_active m0 =? shp_active m1) then Ret false
  else eq_tc_mtr (shp_mtr m0) (shp_mtr m1).

Definition eq_tc_drp (m0 m1 : tc_drp_t) : bool := dropped_pkts m0 =? dropped_pkts m1.
Definition eq_tc_mrk (m0 m1 : tc_mrk_t) : bool := marked_pkts m0 =? marked_pkts m1.

Definition eq_tc_plc (m0 m1 : tc_plc_t) : outcome bool :=
  if negb (plc_id m0 =? plc_id m1) then Ret false
  else unless (eq_tc_mtr (plc_mtr m0) (plc_mtr m1))
    (if negb (eq_tc_drp (plc_drp m0) (plc_drp m1)) then Ret false
     else if negb (eq_tc_mrk (plc_mrk m0) (plc_mrk m1)) then Ret false
     else unless (eq_float (plc_max_rate_kbps m0) (plc_max_rate_kbps m1) eps_001)
       (Ret ((plc_active m0 =? plc_active m1) && (plc_dst_id m0 =? plc_dst_id m1) && (plc_dev_id m0 =? plc_dev_id m1)))).

(** Not the time of the last sojourn. *)
Definition eq_tc_queue_fifo (m0 m1 : tc_queue_fifo_t) : outcome bool :=
  if negb (eq_tc_drp (qf_drp m0) (qf_drp m1)) then Ret false
  else unless (eq_float (qf_avg_sojourn_time m0) (qf_avg_sojourn_time m1) eps_0001)
    (Ret ((qf_bytes m0 =? qf_bytes m1) && (qf_pkts m0 =? qf_pkts m1) && (qf_bytes_fwd m0 =? qf_bytes_fwd m1) && (qf_pkts_fwd m0 =? qf_pkts_fwd m1))).

Definition eq_tc_queue_codel (m0 m1 : tc_queue_codel_t) : outcome bool :=
  if negb (eq_tc_drp (qc_drp m0) (qc_drp m1)) then Ret false
  else unless (eq_float (qc_avg_sojourn_time m0) (qc_avg_sojourn_time m1) eps_0001)
    (Ret ((qc_bytes m0 =? qc_bytes m1) && (qc_pkts m0 =? qc_pkts m1) && (qc_bytes_fwd m0 =? qc_bytes_fwd m1) && (qc_pkts_fwd m0 =? qc_pkts_fwd m1))).

Definition eq_tc_queue_ecn_codel (m0 m1 : tc_queue_ecn_codel_t) : outcome bool :=
  if negb (eq_tc_mrk (qe_mrk m0) (qe_mrk m1)) then Ret false
  else unless (eq_float (qe_avg_sojourn_time m0) (qe_avg_sojourn_time m1) eps_0001)
    (Ret ((qe_bytes m0 =? qe_bytes m1) && (qe_pkts m0 =? qe_pkts m1) && (qe_bytes_fwd m0 =? qe_bytes_fwd m1) && (qe_pkts_fwd m0 =? qe_pkts_fwd m1))).

(** Not the identifier. *)
Definition eq_tc_q (m0 m1 : tc_queue_t) : outcome bool :=
  if negb (queue_type (q_conf m0) =? queue_type (q_conf m1)) then Ret false
  else
    match q_conf m0, q_conf m1 with
    | TC_QUEUE_FIFO f0, TC_QUEUE_FIFO f1 => eq_tc_queue_fifo f0 f1
    | TC_QUEUE_CODEL c0, TC_QUEUE_CODEL c1 => eq_tc_queue_codel c0 c1
    | TC_QUEUE_ECN_CODEL e0, TC_QUEUE_ECN_CODEL e1 => eq_tc_queue_ecn_codel e0 e1
    | _, _ => Abort
    end.

(** Every difference aborts. *)
Fixpoint eq_shp_plc_q (n : nat) (s0 s1 : list tc_shp_t) (p0 p1 : list tc_plc_t) (q0 q1 : list tc_queue_t) : outcome bool :=
  match n with
  | O => Ret true
  | S n =>
      match s0, s1, p0, p1, q0, q1 with
      | x0 :: s0, x1 :: s1, y0 :: p0, y1 :: p1, z0 :: q0, z1 :: q1 =>
          b ← eq_tc_shp x0 x1; c_assert b;;
          b ← eq_tc_plc y0 y1; c_assert b;;
          b ← eq_tc_q z0 z1; c_assert b;;
          eq_shp_plc_q n s0 s1 p0 p1 q0 q1
      | _, _, _, _, _, _ => Undef
      end
  end.

Definition eq_tc_ind_msg (m0 m1 : tc_ind_msg_t) : outcome bool :=
  c_assert (tc_tstamp m0 =? tc_tstamp m1);;
  b ← eq_tc_sch (tc_sch m0) (tc_sch m1); c_assert b;;
  b ← eq_tc_pcr (tc_pcr m0) (tc_pcr m1); c_assert b;;
  b ← eq_tc_cls (tc_cls m0) (tc_cls m1); c_assert b;;
  c_assert (len_q m0 =? len_q m1);;
  eq_shp_plc_q (Z.to_nat (len_q m0)) (tc_shps m0) (tc_shps m1) (tc_plcs m0) (tc_plcs m1) (tc_qs m0) (tc_qs m1).

Definition eq_tc_ctrl_hdr (m0 m1 : tc_ctrl_hdr_t) : bool := tc_ch_dummy m0 =? tc_ch_dummy m1.
Definition eq_tc_ctrl_out (m0 m1 : tc_ctrl_out_t) : bool := tc_out m0 =? tc_out m1.

(** ** Copies of indications *)

Definition cp_tc_ind_hdr (src : tc_ind_hdr_t) : tc_ind_hdr_t := mk_tc_ind_hdr (tc_ih_dummy src).
Definition cp_tc_sch_rr (src : tc_sch_rr_t) : tc_sch_rr_t := mk_tc_dummy (tc_dummy src).

Definition cp_tc_sch_prio (src : tc_sch_prio_t) : outcome tc_sch_prio_t :=
  p ← map_for Ret (Z.to_nat (len_q_prio src)) (default [] (q_prio src));
  Ret (mk_tc_sch_prio (len_q_prio src) (if 0 <? len_q_prio src then Some p else None)).

Definition cp_tc_sch (src : tc_sch_t) : outcome tc_sch_t :=
  match src with
  | TC_SCHED_RR r => Ret (TC_SCHED_RR (cp_tc_sch_rr r))
  | TC_SCHED_PRIO p => p ← cp_tc_sch_prio p; Ret (TC_SCHED_PRIO p)
  | SCHED_OTHER _ => Abort
  end.

Definition cp_tc_mtr (src : tc_mtr_t) : tc_mtr_t := mk_tc_mtr (time_window_ms src) (bnd_flt src).
Definition cp_tc_pcr (src : tc_pcr_t) : tc_pcr_t := mk_tc_pcr (pcr_type src) (pcr_id src) (cp_tc_mtr (pcr_mtr src)).
Definition cp_L3_filter (src : L3_filter_t) : L3_filter_t := mk_L3_filter (src_addr src) (dst_addr src).
Definition cp_L4_filter (src : L4_filter_t) : L4_filter_t := mk_L4_filter (src_port src) (dst_port src) (protocol src).

(** The layer 7 filter is not copied; the padding of the copy is taken to be 0. *)
Definition cp_tc_cls_osi_filter (src : tc_cls_osi_filter_t) : tc_cls_osi_filter_t :=
  mk_tc_cls_osi_filter (flt_id src) (cp_L3_filter (flt_l3 src)) (cp_L4_filter (flt_l4 src)) (mk_tc_dummy 0) (flt_dst_queue src) (replicate 8 0).

Definition cp_tc_cls_osi (src : tc_cls_osi_t) : outcome tc_cls_osi_t :=
  f ← map_for (λ x, Ret (cp_tc_cls_osi_filter x)) (Z.to_nat (osi_len src)) (osi_flt src);
  Ret (mk_tc_cls_osi (osi_len src) f).

Definition cp_tc_cls (src : tc_cls_t) : outcome tc_cls_t :=
  match src with
  | TC_CLS_RR r => Ret (TC_CLS_RR (mk_tc_dummy (tc_dummy r)))
  | TC_CLS_OSI o => o ← cp_tc_cls_osi o; Ret (TC_CLS_OSI o)
  | TC_CLS_STO s => Ret (TC_CLS_STO (mk_tc_dummy (tc_dummy s)))
  | CLS_OTHER _ => Abort
  end.

Definition cp_tc_drp (src : tc_drp_t) : tc_drp_t := mk_tc_drp (dropped_pkts src).
Definition cp_tc_mrk (src : tc_mrk_t) : tc_mrk_t := mk_tc_mrk (marked_pkts src).

(** Neither the identifier nor the time of the last sojourn is copied. *)
Definition cp_tc_queue (src : tc_queue_t) : outcome tc_queue_t :=
  match q_conf src with
  | TC_QUEUE_FIFO q =>
      Ret (mk_tc_queue 0 (TC_QUEUE_FIFO (mk_tc_queue_fifo (qf_bytes q) (qf_pkts q) (qf_bytes_fwd q) (qf_pkts_fwd q) (cp_tc_drp (qf_drp q)) (qf_avg_sojourn_time q) 0)))
  | TC_QUEUE_CODEL q =>
      Ret (mk_tc_queue 0 (TC_QUEUE_CODEL (mk_tc_queue_codel (qc_bytes q) (qc_pkts q) (qc_bytes_fwd q) (qc_pkts_fwd q) (cp_tc_drp (qc_drp q)) (qc_avg_sojourn_time q) 0)))
  | TC_QUEUE_ECN_CODEL q =>
      Ret (mk_tc_queue 0 (TC_QUEUE_ECN_CODEL (mk_tc_queue_ecn_codel (qe_bytes q) (qe_pkts q) (qe_bytes_fwd q) (qe_pkts_fwd q) (cp_tc_mrk (qe_mrk q)) (qe_avg_sojourn_time q) 0)))
  | QUEUE_OTHER _ => Abort
  end.

(** The maximum rate is not copied. *)
Definition cp_tc_shp (src : tc_shp_t) : outcome tc_shp_t :=
  c_assert ((shp_active src =? 0) || (shp_active src =? 1));;
  Ret (mk_tc_shp (shp_id src) (shp_active src) 0 (cp_tc_mtr (shp_mtr src))).

Definition cp_tc_plc (src : tc_plc_t) : outcome tc_plc_t :=
  c_assert ((plc_active src =? 0) || (plc_active src =? 1));;
  Ret (mk_tc_plc (plc_id src) (cp_tc_mtr (plc_mtr src)) (cp_tc_drp (plc_drp src)) (cp_tc_mrk (plc_mrk src))
         (plc_max_rate_kbps src) (plc_active src) (plc_dst_id src) (plc_dev_id src)).

Fixpoint cp_tc_shp_q_plc (n : nat) (s : list tc_shp_t) (p : list tc_plc_t) (q : list tc_queue_t) :
    outcome (list tc_shp_t * list tc_plc_t * list tc_queue_t) :=
  match n with
  | O => Ret ([], [], [])
  | S n =>
      match s, p, q with
      | x :: s, y :: p, z :: q =>
          z ← cp_tc_queue z;
          x ← cp_tc_shp x;
          y ← cp_tc_plc y;
          '(s, p, q) ← cp_tc_shp_q_plc n s p q;
          Ret (x :: s, y :: p, z :: q)
      | _, _, _ => Undef
      end
  end.

Definition cp_tc_ind_msg (src : tc_ind_msg_t) : outcome tc_ind_msg_t :=
  s ← cp_tc_sch (tc_sch src);
  c ← cp_tc_cls (tc_cls src);
  '(sh, pl, q) ← cp_tc_shp_q_plc (Z.to_nat (len_q src)) (tc_shps src) (tc_plcs src) (tc_qs src);
  let dst := mk_tc_ind_msg s (cp_tc_pcr (tc_pcr src)) c (len_q src) sh pl q (tc_tstamp src) in
  b ← eq_tc_ind_msg src dst;
  c_assert b;;
  Ret dst.

(** Not implemented. *)
Definition cp_tc_call_proc_id (src : tc_call_proc_id_t) : outcome tc_call_proc_id_t := Abort.

Definition cp_tc_ind_data (src : tc_ind_data_t) : outcome tc_ind_data_t :=
  m ← cp_tc_ind_msg (tc_msg src);
  p ← match tc_proc_id src with None => Ret None | Some p => p ← cp_tc_call_proc_id p; Ret (Some p) end;
  Ret (mk_tc_ind_data (cp_tc_ind_hdr (tc_hdr src)) m p).

(** ** Copies of control messages *)

Definition cp_tc_ctrl_hdr (src : tc_ctrl_hdr_t) : tc_ctrl_hdr_t := mk_tc_ctrl_hdr (tc_ch_dummy src).
Definition cp_dummy (src : tc_dummy_t) : tc_dummy_t := mk_tc_dummy (tc_dummy src).
Definition cp_id (src : tc_id_t) : tc_id_t := mk_tc_id (tc_id src).

(** [if(dst.act == ...) dst.add = cp(&src->add); else ...], and the same of the other tags. *)
Definition cp_by_act {A D M} (ca : A → outcome A) (cd : D → outcome D) (cm : M → outcome M) (src : tc_by_act A D M) : outcome (tc_by_act A D M) :=
  match src with
  | TC_CTRL_ACTION_SM_V0_ADD a => a ← ca a; Ret (TC_CTRL_ACTION_SM_V0_ADD a)
  | TC_CTRL_ACTION_SM_V0_DEL d => d ← cd d; Ret (TC_CTRL_ACTION_SM_V0_DEL d)
  | TC_CTRL_ACTION_SM_V0_MOD m => m ← cm m; Ret (TC_CTRL_ACTION_SM_V0_MOD m)
  | ACT_OTHER _ => Abort
  end.
Definition cp_by_cls {O} (co : O → O) (src : tc_by_cls tc_dummy_t O tc_dummy_t) : outcome (tc_by_cls tc_dummy_t O tc_dummy_t) :=
  match src with
  | TC_CLS_RR r => Ret (TC_CLS_RR (cp_dummy r))
  | TC_CLS_OSI o => Ret (TC_CLS_OSI (co o))
  | TC_CLS_STO s => Ret (TC_CLS_STO (cp_dummy s))
  | CLS_OTHER _ => Abort
  end.

Definition cp_tc_add_cls_osi (src : tc_add_cls_osi_t) : tc_add_cls_osi_t :=
  mk_tc_add_cls_osi (cp_L3_filter (aosi_l3 src)) (cp_L4_filter (aosi_l4 src)) (mk_tc_dummy 0) (aosi_dst_queue src).
Definition cp_tc_add_ctrl_cls (src : tc_add_ctrl_cls_t) : outcome tc_add_ctrl_cls_t := cp_by_cls cp_tc_add_cls_osi src.
Definition cp_tc_mod_ctrl_cls (src : tc_mod_ctrl_cls_t) : outcome tc_mod_ctrl_cls_t :=
  cp_by_cls (λ o, mk_tc_mod_cls_osi (cp_tc_cls_osi_filter (mosi_filter o))) src.
Definition cp_tc_del_ctrl_cls (src : tc_del_ctrl_cls_t) : outcome tc_del_ctrl_cls_t := cp_by_cls cp_id src.
Definition cp_tc_ctrl_cls (src : tc_ctrl_cls_t) : outcome tc_ctrl_cls_t :=
  cp_by_act cp_tc_add_ctrl_cls cp_tc_del_ctrl_cls cp_tc_mod_ctrl_cls src.

Definition cp_tc_mod_ctrl_plc (src : tc_mod_ctrl_plc_t) : tc_mod_ctrl_plc_t :=
  mk_tc_mod_ctrl_plc (mp_id src) (mp_drop_rate_kbps src) (mp_dev_id src) (mp_dev_rate_kbps src) (mp_active src).
Definition cp_tc_ctrl_plc (src : tc_ctrl_plc_t) : outcome tc_ctrl_plc_t :=
  cp_by_act (λ a, Ret (cp_dummy a)) (λ d, Ret (cp_id d)) (λ m, Ret (cp_tc_mod_ctrl_plc m)) src.

Definition cp_tc_ctrl_q_fifo (src : tc_ctrl_queue_fifo_t) : tc_ctrl_queue_fifo_t := mk_tc_dummy (tc_dummy src).
Definition cp_tc_ctrl_q_codel (src : tc_ctrl_queue_codel_t) : tc_ctrl_queue_codel_t := mk_tc_ctrl_queue_codel (cq_target_ms src) (cq_interval_ms src).
Definition cp_tc_ctrl_q_ecn_codel (src : tc_ctrl_queue_ecn_codel_t) : tc_ctrl_queue_ecn_codel_t :=
  mk_tc_ctrl_queue_ecn_codel (eq_target_ms src) (eq_interval_ms src).
Definition cp_tc_add_ctrl_queue (src : tc_add_ctrl_queue_t) : outcome tc_add_ctrl_queue_t :=
  match src with
  | TC_QUEUE_FIFO f => Ret (TC_QUEUE_FIFO (cp_tc_ctrl_q_fifo f))
  | TC_QUEUE_CODEL c => Ret (TC_QUEUE_CODEL (cp_tc_ctrl_q_codel c))
  | TC_QUEUE_ECN_CODEL e => Ret (TC_QUEUE_ECN_CODEL (cp_tc_ctrl_q_ecn_codel e))
  | QUEUE_OTHER _ => Abort
  end.
Definition cp_tc_del_ctrl_queue (src : tc_del_ctrl_queue_t) : tc_del_ctrl_queue_t := mk_tc_del_ctrl_queue (dq_id src) (dq_type src).
Definition cp_tc_mod_ctrl_queue (src : tc_mod_ctrl_queue_t) : outcome tc_mod_ctrl_queue_t :=
  c ← match mq_conf src with
      | TC_QUEUE_FIFO f => Ret (TC_QUEUE_FIFO (cp_tc_ctrl_q_fifo f))
      | TC_QUEUE_CODEL c => Ret (TC_QUEUE_CODEL (cp_tc_ctrl_q_codel c))
      | TC_QUEUE_ECN_CODEL e => Ret (TC_QUEUE_ECN_CODEL (cp_tc_ctrl_q_ecn_codel e))
      | QUEUE_OTHER _ => Abort
      end;
  Ret (mk_tc_mod_ctrl_queue (mq_id src) c).
Definition cp_tc_ctrl_q (src : tc_ctrl_queue_t) : outcome tc_ctrl_queue_t :=
  cp_by_act cp_tc_add_ctrl_queue (λ d, Ret (cp_tc_del_ctrl_queue d)) cp_tc_mod_ctrl_queue src.

Definition cp_tc_mod_ctrl_sch (src : tc_mod_ctrl_sch_t) : outcome tc_mod_ctrl_sch_t :=
  match src with
  | TC_SCHED_RR r => Ret (TC_SCHED_RR (cp_dummy r))
  | TC_SCHED_PRIO p => p ← cp_tc_sch_prio p; Ret (TC_SCHED_PRIO p)
  | SCHED_OTHER _ => Abort
  end.
Definition cp_tc_ctrl_sch (src : tc_ctrl_sch_t) : outcome tc_ctrl_sch_t :=
  cp_by_act (λ a, Ret (cp_dummy a)) (λ d, Ret (cp_dummy d)) cp_tc_mod_ctrl_sch src.

Definition cp_tc_mod_ctrl_shp (src : tc_mod_ctrl_shp_t) : tc_mod_ctrl_shp_t :=
  mk_tc_mod_ctrl_shp (ms_id src) (ms_time_window_ms src) (ms_max_rate_kbps src) (ms_active src).
Definition cp_tc_ctrl_shp (src : tc_ctrl_shp_t) : outcome tc_ctrl_shp_t :=
  cp_by_act (λ a, Ret (cp_dummy a)) (λ d, Ret (cp_id d)) (λ m, Ret (cp_tc_mod_ctrl_shp m)) src.

Definition cp_tc_pcr_5g_bdp (src : tc_pcr_5g_bdp_t) : tc_pcr_5g_bdp_t := mk_tc_pcr_5g_bdp (bdp_drb_sz src) (bdp_tstamp src).
Definition cp_tc_mod_ctrl_pcr (src : tc_mod_ctrl_pcr_t) : outcome tc_mod_ctrl_pcr_t :=
  match src with
  | TC_PCR_DUMMY d => Ret (TC_PCR_DUMMY (cp_dummy d))
  | TC_PCR_5G_BDP b => Ret (TC_PCR_5G_BDP (cp_tc_pcr_5g_bdp b))
  | PCR_OTHER _ => Abort
  end.
Definition cp_tc_ctrl_pcr (src : tc_ctrl_pcr_t) : outcome tc_ctrl_pcr_t :=
  cp_by_act (λ a, Ret (cp_dummy a)) (λ d, Ret (cp_dummy d)) cp_tc_mod_ctrl_pcr src.

Definition cp_tc_ctrl_msg (src : tc_ctrl_msg_t) : outcome tc_ctrl_msg_t :=
  match src with
  | TC_CTRL_SM_V0_CLS c => c ← cp_tc_ctrl_cls c; Ret (TC_CTRL_SM_V0_CLS c)
  | TC_CTRL_SM_V0_PLC p => p ← cp_tc_ctrl_plc p; Ret (TC_CTRL_SM_V0_PLC p)
  | TC_CTRL_SM_V0_QUEUE q => q ← cp_tc_ctrl_q q; Ret (TC_CTRL_SM_V0_QUEUE q)
  | TC_CTRL_SM_V0_SCH s => s ← cp_tc_ctrl_sch s; Ret (TC_CTRL_SM_V0_SCH s)
  | TC_CTRL_SM_V0_SHP s => s ← cp_tc_ctrl_shp s; Ret (TC_CTRL_SM_V0_SHP s)
  | TC_CTRL_SM_V0_PCR p => p ← cp_tc_ctrl_pcr p; Ret (TC_CTRL_SM_V0_PCR p)
  | TC_CTRL_OTHER _ => Abort
  end.

Definition cp_tc_ctrl_out (src : tc_ctrl_out_t) : tc_ctrl_out_t := mk_tc_ctrl_out (tc_out src).

Definition cp_tc_func_def (src : tc_func_def_t) : outcome tc_func_def_t :=
  b ← ptr_dup (fd_len src) (fd_buf src);
  Ret (mk_tc_func_def b (fd_len src)).

(** ** Release: the checks of the free functions *)

Definition free_tc_sch (sch : tc_sch_t) : outcome () := match sch with SCHED_OTHER _ => Abort | _ => Ret () end.

(** The queues, shapers and policers own nothing. *)
Definition free_tc_ind_msg (msg : tc_ind_msg_t) : outcome () := free_tc_sch (tc_sch msg).

Definition free_tc_call_proc_id (src : option tc_call_proc_id_t) : outcome () := match src with None => Ret () | Some _ => Abort end.

Definition free_tc_ind_data (ind : tc_ind_data_t) : outcome () :=
  free_tc_ind_msg (tc_msg ind);;
  free_tc_call_proc_id (tc_proc_id ind).

Definition free_tc_add_ctrl_cls (src : tc_add_ctrl_cls_t) : outcome () := match src with CLS_OTHER _ => Abort | _ => Ret () end.
Definition free_tc_mod_ctrl_cls (src : tc_mod_ctrl_cls_t) : outcome () := match src with CLS_OTHER _ => Abort | _ => Ret () end.
Definition free_tc_ctrl_cls (cls : tc_ctrl_cls_t) : outcome () :=
  match cls with
  | TC_CTRL_ACTION_SM_V0_ADD a => free_tc_add_ctrl_cls a
  | TC_CTRL_ACTION_SM_V0_DEL _ => Ret ()
  | TC_CTRL_ACTION_SM_V0_MOD m => free_tc_mod_ctrl_cls m
  | ACT_OTHER _ => Abort
  end.
Definition free_tc_ctrl_q (q : tc_ctrl_queue_t) : outcome () := match q with ACT_OTHER _ => Abort | _ => Ret () end.
Definition free_tc_mod_ctrl_sch (src : tc_mod_ctrl_sch_t) : outcome () := match src with SCHED_OTHER _ => Abort | _ => Ret () end.
Definition free_tc_ctrl_sch (sch : tc_ctrl_sch_t) : outcome () :=
  match sch with TC_CTRL_ACTION_SM_V0_MOD m => free_tc_mod_ctrl_sch m | ACT_OTHER _ => Abort | _ => Ret () end.
Definition free_tc_ctrl_msg (src : tc_ctrl_msg_t) : outcome () :=
  match src with
  | TC_CTRL_SM_V0_CLS c => free_tc_ctrl_cls c
  | TC_CTRL_SM_V0_QUEUE q => free_tc_ctrl_q q
  | TC_CTRL_SM_V0_SCH s => free_tc_ctrl_sch s
  | TC_CTRL_OTHER _ => Abort
  | _ => Ret ()
  end.
