(* ===== verification/TcCodec.v ===== *)
(** * TC service model: the plain codec

    [src/src/sm/tc_sm/enc/tc_enc_plain.c] and [dec/tc_dec_plain.c].  The encoder computes
    the size first ([cal_*]); of an indication it checks after each part that the buffer
    goes on.  The decoder's message starts as zeros: what is not written stays 0. *)
From S2P Require Import Prelude CLayout SmCodec SmWire TcData.
#[local] Open Scope Z_scope.

(** * The encoder *)

(** ** Event trigger and headers *)

Definition tc_enc_event_trigger_plain (event_trigger : tc_event_trigger_t) : outcome bytes :=
  fill_buffer 4 (w_scalar CU32 (tc_et_ms event_trigger)).
Definition tc_enc_action_def_plain {A} (action_def : A) : outcome bytes := Abort.
Definition tc_enc_ind_hdr_plain (ind_hdr : tc_ind_hdr_t) : outcome bytes :=
  fill_buffer (sizeof tc_ind_hdr_t) (w_copy (enc_obj ind_hdr) (sizeof tc_ind_hdr_t)).

(** ** The size of an indication message *)

Definition cal_sch_payload (s : tc_sch_t) : outcome Z :=
  match s with
  | TC_SCHED_RR _ => Ret 4
  | TC_SCHED_PRIO p => Ret (4 + 4 + 4 * len_q_prio p)
  | SCHED_OTHER _ => Abort
  end.
Definition cal_mtr_payload (m : tc_mtr_t) : Z := 4 + 4.
Definition cal_pcr_payload (pcr : tc_pcr_t) : Z := 4 + 4 + cal_mtr_payload (pcr_mtr pcr).
Definition cal_cls_rr_payload (rr : tc_cls_rr_t) : Z := 4.
Definition cal_cls_osi_payload (osi : tc_cls_osi_t) : Z := 4 + Z.of_nat (sizeof tc_cls_osi_filter_t) * osi_len osi.
Definition cal_cls_sto_payload (sto : tc_cls_sto_t) : Z := 4.
Definition cal_cls_payload (c : tc_cls_t) : outcome Z :=
  sz ← match c with
       | TC_CLS_RR r => Ret (cal_cls_rr_payload r)
       | TC_CLS_OSI o => Ret (cal_cls_osi_payload o)
       | TC_CLS_STO s => Ret (cal_cls_sto_payload s)
       | CLS_OTHER _ => Abort
       end;
  Ret (4 + sz).
Definition cal_drp_payload (drp : tc_drp_t) : Z := 4.
Definition cal_mrk_payload (mrk : tc_mrk_t) : Z := 4.
Definition cal_q_payload (q : tc_queue_t) : outcome Z :=
  match q_conf q with
  | TC_QUEUE_FIFO f => Ret (4 + 4 + 4 + 4 + 4 + cal_drp_payload (qf_drp f) + 4 + 8)
  | TC_QUEUE_CODEL c => Ret (4 + 4 + 4 + 4 + 4 + cal_drp_payload (qc_drp c) + 4 + 8)
  | TC_QUEUE_ECN_CODEL e => Ret (4 + 4 + 4 + 4 + 4 + cal_mrk_payload (qe_mrk e) + 4 + 8)
  | QUEUE_OTHER _ => Abort
  end.
Definition cal_shp_payload (shp : tc_shp_t) : Z := 4 + 4 + 4 + cal_mtr_payload (shp_mtr shp).
Definition cal_plc_payload (plc : tc_plc_t) : Z :=
  4 + cal_mtr_payload (plc_mtr plc) + cal_drp_payload (plc_drp plc) + cal_mrk_payload (plc_mrk plc) + 4 + 4 + 4 + 4.

(** The loop over the three arrays. *)
Fixpoint cal_q_shp_plc (n : nat) (s : list tc_shp_t) (p : list tc_plc_t) (q : list tc_queue_t) : outcome Z :=
  match n with
  | O => Ret 0
  | S n =>
      match s, p, q with
      | x :: s, y :: p, z :: q =>
          sz_q ← cal_q_payload z;
          rest ← cal_q_shp_plc n s p q;
          Ret (sz_q + cal_shp_payload x + cal_plc_payload y + rest)
      | _, _, _ => Undef
      end
  end.

Definition cal_ind_msg_payload (ind_msg : tc_ind_msg_t) : outcome Z :=
  sz_sch ← cal_sch_payload (tc_sch ind_msg);
  let sz_pcr := cal_pcr_payload (tc_pcr ind_msg) in
  sz_cls ← cal_cls_payload (tc_cls ind_msg);
  sz_q_shp_plc ← cal_q_shp_plc (Z.to_nat (len_q ind_msg)) (tc_shps ind_msg) (tc_plcs ind_msg) (tc_qs ind_msg);
  Ret (sz_sch + sz_pcr + sz_cls + 4 + sz_q_shp_plc + 8).

(** ** Filling the indication message *)

Definition tc_enc_sch_rr (rr : tc_sch_rr_t) : writer := w_nil.
Definition tc_enc_sch_prio (p : tc_sch_prio_t) : writer :=
  w_scalar CU32 (len_q_prio p) >>> w_for (w_scalar CU32) (Z.to_nat (len_q_prio p)) (default [] (q_prio p)).
Definition tc_enc_sch (sch : tc_sch_t) : writer :=
  w_scalar CU32 (sch_type sch) >>>
  match sch with TC_SCHED_RR r => tc_enc_sch_rr r | TC_SCHED_PRIO p => tc_enc_sch_prio p | SCHED_OTHER _ => w_abort end.
Definition tc_enc_mtr (mtr : tc_mtr_t) : writer := w_scalar CF32 (bnd_flt mtr) >>> w_scalar CU32 (time_window_ms mtr).
Definition tc_enc_pcr (pcr : tc_pcr_t) : writer := w_scalar CU32 (pcr_type pcr) >>> w_scalar CU32 (pcr_id pcr) >>> tc_enc_mtr (pcr_mtr pcr).
Definition tc_enc_cls_rr (rr : tc_cls_rr_t) : writer := w_scalar CU32 (tc_dummy rr).
Definition tc_enc_cls_osi (osi : tc_cls_osi_t) : writer :=
  w_scalar CU32 (osi_len osi) >>> w_for w_obj (Z.to_nat (osi_len osi)) (osi_flt osi).
Definition tc_enc_cls_sto (sto : tc_cls_sto_t) : writer := w_scalar CU32 (tc_dummy sto).
Definition tc_enc_cls (cls : tc_cls_t) : writer :=
  w_scalar CU32 (cls_type cls) >>>
  match cls with
  | TC_CLS_RR r => tc_enc_cls_rr r
  | TC_CLS_OSI o => tc_enc_cls_osi o
  | TC_CLS_STO s => tc_enc_cls_sto s
  | CLS_OTHER _ => w_abort
  end.
Definition tc_enc_shp (shp : tc_shp_t) : writer :=
  w_scalar CU32 (shp_id shp) >>> w_scalar CU32 (shp_active shp) >>> w_scalar CU32 (shp_max_rate_kbps shp) >>> tc_enc_mtr (shp_mtr shp).
Definition tc_enc_drp (drp : tc_drp_t) : writer := w_scalar CU32 (dropped_pkts drp).
Definition tc_enc_mrk (mrk : tc_mrk_t) : writer := w_scalar CU32 (marked_pkts mrk).
Definition tc_enc_plc (plc : tc_plc_t) : writer :=
  w_scalar CU32 (plc_id plc) >>> tc_enc_mtr (plc_mtr plc) >>> tc_enc_drp (plc_drp plc) >>> tc_enc_mrk (plc_mrk plc) >>>
  w_scalar CF32 (plc_max_rate_kbps plc) >>> w_scalar CU32 (plc_active plc) >>> w_scalar CU32 (plc_dst_id plc) >>> w_scalar CU32 (plc_dev_id plc).
Definition tc_enc_q_fifo (q : tc_queue_fifo_t) : writer :=
  w_scalar CU32 (qf_bytes q) >>> w_scalar CU32 (qf_pkts q) >>> w_scalar CU32 (qf_bytes_fwd q) >>> w_scalar CU32 (qf_pkts_fwd q) >>>
  tc_enc_drp (qf_drp q) >>> w_scalar CF32 (qf_avg_sojourn_time q) >>> w_scalar CI64 (qf_last_sojourn_time q).
Definition tc_enc_q_codel (q : tc_queue_codel_t) : writer :=
  w_scalar CU32 (qc_bytes q) >>> w_scalar CU32 (qc_pkts q) >>> w_scalar CU32 (qc_bytes_fwd q) >>> w_scalar CU32 (qc_pkts_fwd q) >>>
  tc_enc_drp (qc_drp q) >>> w_scalar CF32 (qc_avg_sojourn_time q) >>> w_scalar CI64 (qc_last_sojourn_time q).
Definition tc_enc_q_ecn_codel (q : tc_queue_ecn_codel_t) : writer :=
  w_scalar CU32 (qe_bytes q) >>> w_scalar CU32 (qe_pkts q) >>> w_scalar CU32 (qe_bytes_fwd q) >>> w_scalar CU32 (qe_pkts_fwd q) >>>
  tc_enc_mrk (qe_mrk q) >>> w_scalar CF32 (qe_avg_sojourn_time q) >>> w_scalar CI64 (qe_last_sojourn_time q).
(** The identifier of the queue is not written. *)
Definition tc_enc_q (q : tc_queue_t) : writer :=
  w_scalar CU32 (queue_type (q_conf q)) >>>
  match q_conf q with
  | TC_QUEUE_FIFO f => tc_enc_q_fifo f
  | TC_QUEUE_CODEL c => tc_enc_q_codel c
  | TC_QUEUE_ECN_CODEL e => tc_enc_q_ecn_codel e
  | QUEUE_OTHER _ => w_abort
  end.

(** The loop, and what follows it. *)
Fixpoint enc_shp_plc_q (n : nat) (s : list tc_shp_t) (p : list tc_plc_t) (q : list tc_queue_t) : writer :=
  match n with
  | O => w_nil
  | S n =>
      match s, p, q with
      | x :: s, y :: p, z :: q =>
          tc_enc_shp x >>> w_before_end >>> tc_enc_plc y >>> w_before_end >>> tc_enc_q z >>> w_before_end >>> enc_shp_plc_q n s p q
      | _, _, _ => λ _ _, Undef
      end
  end.

Definition tc_enc_ind_msg_plain (ind_msg : tc_ind_msg_t) : outcome bytes :=
  sz ← cal_ind_msg_payload ind_msg;
  fill_buffer (Z.to_nat (wrap 64 sz))
    (tc_enc_sch (tc_sch ind_msg) >>> w_before_end >>>
     tc_enc_pcr (tc_pcr ind_msg) >>> w_before_end >>>
     tc_enc_cls (tc_cls ind_msg) >>> w_before_end >>>
     w_scalar CU32 (len_q ind_msg) >>> w_before_end >>>
     enc_shp_plc_q (Z.to_nat (len_q ind_msg)) (tc_shps ind_msg) (tc_plcs ind_msg) (tc_qs ind_msg) >>>
     w_scalar CI64 (tc_tstamp ind_msg)).

Definition tc_enc_call_proc_id_plain {A} (call_proc_id : A) : outcome bytes := Abort.

(** The size is that of the indication header, as in the code. *)
Definition tc_enc_ctrl_hdr_plain (ctrl_hdr : tc_ctrl_hdr_t) : outcome bytes :=
  fill_buffer (sizeof tc_ind_hdr_t) (w_copy (enc_obj ctrl_hdr) (sizeof tc_ind_hdr_t)).

(** ** The size of a control message

    An action and what it is about: [sz = sizeof(act); if(act == ...) sz += cal(&add); ...]. *)
Definition cal_by_act {A D M} (ca : A → outcome Z) (cd : D → outcome Z) (cm : M → outcome Z) (c : tc_by_act A D M) : outcome Z :=
  sz ← match c with
       | TC_CTRL_ACTION_SM_V0_ADD a => ca a
       | TC_CTRL_ACTION_SM_V0_DEL d => cd d
       | TC_CTRL_ACTION_SM_V0_MOD m => cm m
       | ACT_OTHER _ => Abort
       end;
  Ret (4 + sz).
Definition cal_by_cls {O} (cr : tc_dummy_t → Z) (co : O → Z) (cs : tc_dummy_t → Z) (c : tc_by_cls tc_dummy_t O tc_dummy_t) : outcome Z :=
  match c with
  | TC_CLS_RR r => Ret (4 + cr r)
  | TC_CLS_OSI o => Ret (4 + co o)
  | TC_CLS_STO s => Ret (4 + cs s)
  | CLS_OTHER _ => Abort
  end.

Definition cal_tc_add_ctrl_payload_cls_rr (rr : tc_dummy_t) : Z := 4.
Definition cal_tc_add_ctrl_payload_cls_sto (sto : tc_dummy_t) : Z := 4.
(** The layer 7 filter is counted. *)
Definition cal_tc_add_ctrl_payload_cls_osi (osi : tc_add_cls_osi_t) : Z := 16 + 12 + 4 + 4.
Definition cal_tc_add_ctrl_payload_cls (add : tc_add_ctrl_cls_t) : outcome Z := cal_by_cls cal_tc_add_ctrl_payload_cls_rr cal_tc_add_ctrl_payload_cls_osi cal_tc_add_ctrl_payload_cls_sto add.
Definition cal_tc_mod_ctrl_payload_cls_rr (rr : tc_dummy_t) : Z := 4.
Definition cal_tc_mod_ctrl_payload_cls_sto (sto : tc_dummy_t) : Z := 4.
Definition cal_tc_mod_ctrl_payload_cls_osi (osi : tc_mod_cls_osi_t) : Z := Z.of_nat (sizeof tc_cls_osi_filter_t).
Definition cal_tc_mod_ctrl_payload_cls (md : tc_mod_ctrl_cls_t) : outcome Z := cal_by_cls cal_tc_mod_ctrl_payload_cls_rr cal_tc_mod_ctrl_payload_cls_osi cal_tc_mod_ctrl_payload_cls_sto md.
Definition cal_tc_del_ctrl_payload_cls_rr (rr : tc_dummy_t) : Z := 4.
Definition cal_tc_del_ctrl_payload_cls_sto (sto : tc_dummy_t) : Z := 4.
Definition cal_tc_del_ctrl_payload_cls_osi (osi : tc_id_t) : Z := 4.
Definition cal_tc_del_ctrl_payload_cls (del : tc_del_ctrl_cls_t) : outcome Z := cal_by_cls cal_tc_del_ctrl_payload_cls_rr cal_tc_del_ctrl_payload_cls_osi cal_tc_del_ctrl_payload_cls_sto del.
Definition cal_tc_ctrl_payload_cls (cls : tc_ctrl_cls_t) : outcome Z :=
  cal_by_act cal_tc_add_ctrl_payload_cls cal_tc_del_ctrl_payload_cls cal_tc_mod_ctrl_payload_cls cls.

Definition cal_tc_add_ctrl_payload_plc (add : tc_dummy_t) : outcome Z := Ret 4.
Definition cal_tc_del_ctrl_payload_plc (del : tc_id_t) : outcome Z := Ret 4.
Definition cal_tc_mod_ctrl_payload_plc (md : tc_mod_ctrl_plc_t) : outcome Z := Ret (4 + 4 + 4 + 4 + 4).
Definition cal_tc_ctrl_payload_plc (plc : tc_ctrl_plc_t) : outcome Z := cal_by_act cal_tc_add_ctrl_payload_plc cal_tc_del_ctrl_payload_plc cal_tc_mod_ctrl_payload_plc plc.

Definition cal_tc_ctrl_payload_q_fifo (fifo : tc_ctrl_queue_fifo_t) : Z := 4.
Definition cal_tc_ctrl_payload_q_codel (codel : tc_ctrl_queue_codel_t) : Z := 4 + 4.
Definition cal_tc_ctrl_payload_q_ecn_codel (ecn : tc_ctrl_queue_ecn_codel_t) : Z := 4 + 4.
Definition cal_tc_ctrl_payload_q_add (add : tc_add_ctrl_queue_t) : outcome Z :=
  match add with
  | TC_QUEUE_FIFO f => Ret (4 + cal_tc_ctrl_payload_q_fifo f)
  | TC_QUEUE_CODEL c => Ret (4 + cal_tc_ctrl_payload_q_codel c)
  | TC_QUEUE_ECN_CODEL e => Ret (4 + cal_tc_ctrl_payload_q_ecn_codel e)
  | QUEUE_OTHER _ => Abort
  end.
Definition cal_tc_ctrl_payload_q_mod (md : tc_mod_ctrl_queue_t) : outcome Z :=
  match mq_conf md with
  | TC_QUEUE_FIFO f => Ret (4 + 4 + cal_tc_ctrl_payload_q_fifo f)
  | TC_QUEUE_CODEL c => Ret (4 + 4 + cal_tc_ctrl_payload_q_codel c)
  | TC_QUEUE_ECN_CODEL e => Ret (4 + 4 + cal_tc_ctrl_payload_q_ecn_codel e)
  | QUEUE_OTHER _ => Abort
  end.
Definition cal_tc_ctrl_payload_q_del (del : tc_del_ctrl_queue_t) : outcome Z := Ret (4 + 4).
Definition cal_tc_ctrl_payload_q (q : tc_ctrl_queue_t) : outcome Z :=
  cal_by_act cal_tc_ctrl_payload_q_add cal_tc_ctrl_payload_q_del cal_tc_ctrl_payload_q_mod q.

Definition cal_tc_ctrl_payload_sch_mod_rr (rr : tc_sch_rr_t) : Z := 4.
Definition cal_tc_ctrl_payload_sch_mod_prio (prio : tc_sch_prio_t) : Z := 4 + len_q_prio prio * 4.
Definition cal_tc_ctrl_payload_sch_mod (md : tc_mod_ctrl_sch_t) : outcome Z :=
  match md with
  | TC_SCHED_RR r => Ret (4 + cal_tc_ctrl_payload_sch_mod_rr r)
  | TC_SCHED_PRIO p => Ret (4 + cal_tc_ctrl_payload_sch_mod_prio p)
  | SCHED_OTHER _ => Abort
  end.
Definition cal_tc_ctrl_payload_sch_add (add : tc_dummy_t) : outcome Z := Ret 4.
Definition cal_tc_ctrl_payload_sch_del (del : tc_dummy_t) : outcome Z := Ret 4.
Definition cal_tc_ctrl_payload_sch (sch : tc_ctrl_sch_t) : outcome Z := cal_by_act cal_tc_ctrl_payload_sch_add cal_tc_ctrl_payload_sch_del cal_tc_ctrl_payload_sch_mod sch.

Definition cal_tc_ctrl_payload_shp_mod (md : tc_mod_ctrl_shp_t) : outcome Z := Ret (4 + 4 + 4 + 4).
Definition cal_tc_ctrl_payload_shp_add (add : tc_dummy_t) : outcome Z := Ret 4.
Definition cal_tc_ctrl_payload_shp_del (del : tc_id_t) : outcome Z := Ret 4.
Definition cal_tc_ctrl_payload_shp (shp : tc_ctrl_shp_t) : outcome Z := cal_by_act cal_tc_ctrl_payload_shp_add cal_tc_ctrl_payload_shp_del cal_tc_ctrl_payload_shp_mod shp.

Definition cal_tc_ctrl_payload_pcr_mod_dummy (dummy : tc_dummy_t) : Z := 4.
Definition cal_tc_ctrl_payload_pcr_mod_bdp (bdp : tc_pcr_5g_bdp_t) : Z := 4 + 8.
Definition cal_tc_ctrl_payload_pcr_mod (md : tc_mod_ctrl_pcr_t) : outcome Z :=
  match md with
  | TC_PCR_DUMMY d => Ret (4 + cal_tc_ctrl_payload_pcr_mod_dummy d)
  | TC_PCR_5G_BDP b => Ret (4 + cal_tc_ctrl_payload_pcr_mod_bdp b)
  | PCR_OTHER _ => Abort
  end.
Definition cal_tc_ctrl_payload_pcr_add (add : tc_dummy_t) : outcome Z := Ret 4.
Definition cal_tc_ctrl_payload_pcr_del (del : tc_dummy_t) : outcome Z := Ret 4.
Definition cal_tc_ctrl_payload_pcr (pcr : tc_ctrl_pcr_t) : outcome Z := cal_by_act cal_tc_ctrl_payload_pcr_add cal_tc_ctrl_payload_pcr_del cal_tc_ctrl_payload_pcr_mod pcr.

Definition cal_tc_ctrl_payload (ctrl_msg : tc_ctrl_msg_t) : outcome Z :=
  sz ← match ctrl_msg with
       | TC_CTRL_SM_V0_CLS c => cal_tc_ctrl_payload_cls c
       | TC_CTRL_SM_V0_PLC p => cal_tc_ctrl_payload_plc p
       | TC_CTRL_SM_V0_QUEUE q => cal_tc_ctrl_payload_q q
       | TC_CTRL_SM_V0_SCH s => cal_tc_ctrl_payload_sch s
       | TC_CTRL_SM_V0_SHP s => cal_tc_ctrl_payload_shp s
       | TC_CTRL_SM_V0_PCR p => cal_tc_ctrl_payload_pcr p
       | TC_CTRL_OTHER _ => Abort
       end;
  Ret (4 + sz).

(** ** Filling the control message *)

Definition enc_by_act {A D M} (ea : A → writer) (ed : D → writer) (em : M → writer) (c : tc_by_act A D M) : writer :=
  w_scalar CU32 (act_type c) >>>
  match c with
  | TC_CTRL_ACTION_SM_V0_ADD a => ea a
  | TC_CTRL_ACTION_SM_V0_DEL d => ed d
  | TC_CTRL_ACTION_SM_V0_MOD m => em m
  | ACT_OTHER _ => w_abort
  end.
Definition enc_by_cls {O} (er : tc_dummy_t → writer) (eo : O → writer) (es : tc_dummy_t → writer) (c : tc_by_cls tc_dummy_t O tc_dummy_t) : writer :=
  w_scalar CU32 (cls_type c) >>>
  match c with TC_CLS_RR r => er r | TC_CLS_OSI o => eo o | TC_CLS_STO s => es s | CLS_OTHER _ => w_abort end.

(** The layer 7 filter is not written. *)
Definition enc_tc_add_ctrl_payload_cls_osi (osi : tc_add_cls_osi_t) : writer :=
  w_scalar CI64 (src_addr (aosi_l3 osi)) >>> w_scalar CI64 (dst_addr (aosi_l3 osi)) >>>
  w_scalar CI32 (src_port (aosi_l4 osi)) >>> w_scalar CI32 (dst_port (aosi_l4 osi)) >>> w_scalar CI32 (protocol (aosi_l4 osi)) >>>
  w_scalar CI32 (aosi_dst_queue osi).
Definition enc_tc_add_ctrl_payload_cls_rr (d : tc_dummy_t) : writer := w_scalar CU32 (tc_dummy d).
Definition enc_tc_add_ctrl_payload_cls_sto (d : tc_dummy_t) : writer := w_scalar CU32 (tc_dummy d).
Definition enc_tc_add_ctrl_payload_cls (add : tc_add_ctrl_cls_t) : writer := enc_by_cls enc_tc_add_ctrl_payload_cls_rr enc_tc_add_ctrl_payload_cls_osi enc_tc_add_ctrl_payload_cls_sto add.
Definition enc_tc_mod_ctrl_payload_cls_osi (osi : tc_mod_cls_osi_t) : writer := w_obj (mosi_filter osi).
Definition enc_tc_mod_ctrl_payload_cls_rr (d : tc_dummy_t) : writer := w_scalar CU32 (tc_dummy d).
Definition enc_tc_mod_ctrl_payload_cls_sto (d : tc_dummy_t) : writer := w_scalar CU32 (tc_dummy d).
Definition enc_tc_mod_ctrl_payload_cls (md : tc_mod_ctrl_cls_t) : writer := enc_by_cls enc_tc_mod_ctrl_payload_cls_rr enc_tc_mod_ctrl_payload_cls_osi enc_tc_mod_ctrl_payload_cls_sto md.
Definition enc_tc_del_ctrl_payload_cls_osi (d : tc_id_t) : writer := w_scalar CU32 (tc_id d).
Definition enc_tc_del_ctrl_payload_cls_rr (d : tc_dummy_t) : writer := w_scalar CU32 (tc_dummy d).
Definition enc_tc_del_ctrl_payload_cls_sto (d : tc_dummy_t) : writer := w_scalar CU32 (tc_dummy d).
Definition enc_tc_del_ctrl_payload_cls (del : tc_del_ctrl_cls_t) : writer := enc_by_cls enc_tc_del_ctrl_payload_cls_rr enc_tc_del_ctrl_payload_cls_osi enc_tc_del_ctrl_payload_cls_sto del.
Definition enc_tc_ctrl_payload_cls (cls : tc_ctrl_cls_t) : writer :=
  enc_by_act enc_tc_add_ctrl_payload_cls enc_tc_del_ctrl_payload_cls enc_tc_mod_ctrl_payload_cls cls.

Definition enc_tc_mod_ctrl_payload_plc (md : tc_mod_ctrl_plc_t) : writer :=
  w_scalar CU32 (mp_id md) >>> w_scalar CU32 (mp_drop_rate_kbps md) >>> w_scalar CU32 (mp_dev_id md) >>>
  w_scalar CU32 (mp_dev_rate_kbps md) >>> w_scalar CU32 (mp_active md).
Definition enc_tc_add_ctrl_payload_plc (d : tc_dummy_t) : writer := w_scalar CU32 (tc_dummy d).
Definition enc_tc_del_ctrl_payload_plc (d : tc_id_t) : writer := w_scalar CU32 (tc_id d).
Definition enc_tc_ctrl_payload_plc (plc : tc_ctrl_plc_t) : writer := enc_by_act enc_tc_add_ctrl_payload_plc enc_tc_del_ctrl_payload_plc enc_tc_mod_ctrl_payload_plc plc.

Definition enc_tc_ctrl_payload_q_fifo (fifo : tc_ctrl_queue_fifo_t) : writer := w_scalar CU32 (tc_dummy fifo).
Definition enc_tc_ctrl_payload_q_codel (codel : tc_ctrl_queue_codel_t) : writer :=
  w_scalar CU32 (cq_target_ms codel) >>> w_scalar CU32 (cq_interval_ms codel).
Definition enc_tc_ctrl_payload_q_ecn_codel (ecn : tc_ctrl_queue_ecn_codel_t) : writer :=
  w_scalar CU32 (eq_target_ms ecn) >>> w_scalar CU32 (eq_interval_ms ecn).
Definition enc_tc_add_ctrl_payload_q (add : tc_add_ctrl_queue_t) : writer :=
  w_scalar CU32 (queue_type add) >>>
  match add with
  | TC_QUEUE_FIFO f => enc_tc_ctrl_payload_q_fifo f
  | TC_QUEUE_CODEL c => enc_tc_ctrl_payload_q_codel c
  | TC_QUEUE_ECN_CODEL e => enc_tc_ctrl_payload_q_ecn_codel e
  | QUEUE_OTHER _ => w_abort
  end.
Definition enc_tc_mod_ctrl_payload_q (md : tc_mod_ctrl_queue_t) : writer :=
  w_scalar CU32 (mq_id md) >>> w_scalar CU32 (queue_type (mq_conf md)) >>>
  match mq_conf md with
  | TC_QUEUE_FIFO f => enc_tc_ctrl_payload_q_fifo f
  | TC_QUEUE_CODEL c => enc_tc_ctrl_payload_q_codel c
  | TC_QUEUE_ECN_CODEL e => enc_tc_ctrl_payload_q_ecn_codel e
  | QUEUE_OTHER _ => w_abort
  end.
Definition enc_tc_del_ctrl_payload_q (del : tc_del_ctrl_queue_t) : writer := w_scalar CU32 (dq_id del) >>> w_scalar CU32 (dq_type del).
Definition enc_tc_ctrl_payload_q (q : tc_ctrl_queue_t) : writer :=
  enc_by_act enc_tc_add_ctrl_payload_q enc_tc_del_ctrl_payload_q enc_tc_mod_ctrl_payload_q q.

Definition enc_tc_mod_ctrl_payload_sch_rr (rr : tc_sch_rr_t) : writer := w_scalar CU32 (tc_dummy rr).
Definition enc_tc_mod_ctrl_payload_sch_prio (prio : tc_sch_prio_t) : writer :=
  w_scalar CU32 (len_q_prio prio) >>> w_for (w_scalar CU32) (Z.to_nat (len_q_prio prio)) (default [] (q_prio prio)).
Definition enc_tc_mod_ctrl_payload_sch (md : tc_mod_ctrl_sch_t) : writer :=
  w_scalar CU32 (sch_type md) >>>
  match md with
  | TC_SCHED_RR r => enc_tc_mod_ctrl_payload_sch_rr r
  | TC_SCHED_PRIO p => enc_tc_mod_ctrl_payload_sch_prio p
  | SCHED_OTHER _ => w_abort
  end.
Definition enc_tc_add_ctrl_payload_sch (d : tc_dummy_t) : writer := w_scalar CU32 (tc_dummy d).
Definition enc_tc_del_ctrl_payload_sch (d : tc_dummy_t) : writer := w_scalar CU32 (tc_dummy d).
Definition enc_tc_ctrl_payload_sch (sch : tc_ctrl_sch_t) : writer := enc_by_act enc_tc_add_ctrl_payload_sch enc_tc_del_ctrl_payload_sch enc_tc_mod_ctrl_payload_sch sch.

Definition enc_tc_mod_ctrl_payload_shp (md : tc_mod_ctrl_shp_t) : writer :=
  w_scalar CU32 (ms_id md) >>> w_scalar CU32 (ms_time_window_ms md) >>> w_scalar CU32 (ms_max_rate_kbps md) >>> w_scalar CU32 (ms_active md).
Definition enc_tc_add_ctrl_payload_shp (d : tc_dummy_t) : writer := w_scalar CU32 (tc_dummy d).
Definition enc_tc_del_ctrl_payload_shp (d : tc_id_t) : writer := w_scalar CU32 (tc_id d).
Definition enc_tc_ctrl_payload_shp (shp : tc_ctrl_shp_t) : writer := enc_by_act enc_tc_add_ctrl_payload_shp enc_tc_del_ctrl_payload_shp enc_tc_mod_ctrl_payload_shp shp.

Definition enc_tc_mod_ctrl_payload_pcr_dummy (dummy : tc_dummy_t) : writer := w_scalar CU32 (tc_dummy dummy).
Definition enc_tc_mod_ctrl_payload_pcr_bdp (bdp : tc_pcr_5g_bdp_t) : writer := w_scalar CU32 (bdp_drb_sz bdp) >>> w_scalar CI64 (bdp_tstamp bdp).
Definition enc_tc_mod_ctrl_payload_pcr (md : tc_mod_ctrl_pcr_t) : writer :=
  w_scalar CU32 (mod_pcr_type md) >>>
  match md with
  | TC_PCR_DUMMY d => enc_tc_mod_ctrl_payload_pcr_dummy d
  | TC_PCR_5G_BDP b => enc_tc_mod_ctrl_payload_pcr_bdp b
  | PCR_OTHER _ => w_abort
  end.
Definition enc_tc_add_ctrl_payload_pcr (d : tc_dummy_t) : writer := w_scalar CU32 (tc_dummy d).
Definition enc_tc_del_ctrl_payload_pcr (d : tc_dummy_t) : writer := w_scalar CU32 (tc_dummy d).
Definition enc_tc_ctrl_payload_pcr (pcr : tc_ctrl_pcr_t) : writer := enc_by_act enc_tc_add_ctrl_payload_pcr enc_tc_del_ctrl_payload_pcr enc_tc_mod_ctrl_payload_pcr pcr.

Definition tc_enc_ctrl_msg_plain (ctrl_msg : tc_ctrl_msg_t) : outcome bytes :=
  sz ← cal_tc_ctrl_payload ctrl_msg;
  fill_buffer (Z.to_nat (wrap 64 sz))
    (w_scalar CU32 (tc_ctrl_msg_type ctrl_msg) >>>
     match ctrl_msg with
     | TC_CTRL_SM_V0_CLS c => enc_tc_ctrl_payload_cls c
     | TC_CTRL_SM_V0_PLC p => enc_tc_ctrl_payload_plc p
     | TC_CTRL_SM_V0_QUEUE q => enc_tc_ctrl_payload_q q
     | TC_CTRL_SM_V0_SCH s => enc_tc_ctrl_payload_sch s
     | TC_CTRL_SM_V0_SHP s => enc_tc_ctrl_payload_shp s
     | TC_CTRL_SM_V0_PCR p => enc_tc_ctrl_payload_pcr p
     | TC_CTRL_OTHER _ => w_abort
     end).

Definition tc_enc_ctrl_out_plain (ctrl : tc_ctrl_out_t) : outcome bytes :=
  fill_buffer (sizeof tc_ctrl_out_t) (w_copy (enc_obj ctrl) (sizeof tc_ctrl_out_t)).

Definition tc_enc_func_def_plain {A} (func : A) : outcome bytes := Abort.

(** * The decoder *)

(** ** Event trigger and headers *)

Definition tc_dec_event_trigger_plain (ev_tr : bytes) : outcome tc_event_trigger_t :=
  '(ms, _) ← rd_scalar CU32 ev_tr;
  Ret (mk_tc_event_trigger ms).
Definition tc_dec_action_def_plain {A} (action_def : bytes) : outcome A := Abort.
Definition tc_dec_ind_hdr_plain (ind_hdr : bytes) : outcome tc_ind_hdr_t := dec_whole ind_hdr.

(** ** Indication message *)

Definition tc_dec_sch_rr : reader tc_sch_rr_t := λ it, Ret (mk_tc_dummy 0, it).
Definition tc_dec_sch_prio : reader tc_sch_prio_t := λ it,
  '(n, it) ← rd_scalar CU32 it;
  '(q, it) ← rd_u32s n it;
  Ret (mk_tc_sch_prio n q, it).
Definition tc_dec_sch : reader tc_sch_t := λ it,
  '(type, it) ← rd_scalar CU32 it;
  if type =? 0 then '(r, it) ← tc_dec_sch_rr it; Ret (TC_SCHED_RR r, it)
  else if type =? 1 then '(p, it) ← tc_dec_sch_prio it; Ret (TC_SCHED_PRIO p, it)
  else Abort.
Definition tc_dec_mtr : reader tc_mtr_t := λ it,
  '(b, it) ← rd_scalar CF32 it;
  '(w, it) ← rd_scalar CU32 it;
  Ret (mk_tc_mtr w b, it).
Definition tc_dec_pcr : reader tc_pcr_t := λ it,
  '(type, it) ← rd_scalar CU32 it;
  '(i, it) ← rd_scalar CU32 it;
  '(m, it) ← tc_dec_mtr it;
  Ret (mk_tc_pcr type i m, it).
Definition tc_dec_cls_rr : reader tc_cls_rr_t := λ it,
  '(d, it) ← rd_scalar CU32 it;
  Ret (mk_tc_dummy d, it).
Definition tc_dec_cls_osi : reader tc_cls_osi_t := λ it,
  '(n, it) ← rd_scalar CU32 it;
  '(f, it) ← rd_n rd_obj (Z.to_nat n) it;
  Ret (mk_tc_cls_osi n f, it).
Definition tc_dec_cls_sto : reader tc_cls_sto_t := λ it,
  '(d, it) ← rd_scalar CU32 it;
  Ret (mk_tc_dummy d, it).
Definition tc_dec_cls : reader tc_cls_t := λ it,
  '(type, it) ← rd_scalar CU32 it;
  if type =? 0 then '(r, it) ← tc_dec_cls_rr it; Ret (TC_CLS_RR r, it)
  else if type =? 1 then '(o, it) ← tc_dec_cls_osi it; Ret (TC_CLS_OSI o, it)
  else if type =? 2 then '(s, it) ← tc_dec_cls_sto it; Ret (TC_CLS_STO s, it)
  else Abort.
Definition tc_dec_shp : reader tc_shp_t := λ it,
  '(i, it) ← rd_scalar CU32 it;
  '(a, it) ← rd_scalar CU32 it;
  '(r, it) ← rd_scalar CU32 it;
  '(m, it) ← tc_dec_mtr it;
  Ret (mk_tc_shp i a r m, it).
Definition tc_dec_drp : reader tc_drp_t := λ it,
  '(d, it) ← rd_scalar CU32 it;
  Ret (mk_tc_drp d, it).
Definition tc_dec_mrk : reader tc_mrk_t := λ it,
  '(d, it) ← rd_scalar CU32 it;
  Ret (mk_tc_mrk d, it).
Definition tc_dec_plc : reader tc_plc_t := λ it,
  '(i, it) ← rd_scalar CU32 it;
  '(m, it) ← tc_dec_mtr it;
  '(d, it) ← tc_dec_drp it;
  '(k, it) ← tc_dec_mrk it;
  '(r, it) ← rd_scalar CF32 it;
  '(a, it) ← rd_scalar CU32 it;
  '(dst, it) ← rd_scalar CU32 it;
  '(dev, it) ← rd_scalar CU32 it;
  Ret (mk_tc_plc i m d k r a dst dev, it).
Definition tc_dec_q_fifo : reader tc_queue_fifo_t := λ it,
  '(b, it) ← rd_scalar CU32 it;
  '(p, it) ← rd_scalar CU32 it;
  '(bf, it) ← rd_scalar CU32 it;
  '(pf, it) ← rd_scalar CU32 it;
  '(d, it) ← tc_dec_drp it;
  '(a, it) ← rd_scalar CF32 it;
  '(l, it) ← rd_scalar CI64 it;
  Ret (mk_tc_queue_fifo b p bf pf d a l, it).
Definition tc_dec_q_codel : reader tc_queue_codel_t := λ it,
  '(b, it) ← rd_scalar CU32 it;
  '(p, it) ← rd_scalar CU32 it;
  '(bf, it) ← rd_scalar CU32 it;
  '(pf, it) ← rd_scalar CU32 it;
  '(d, it) ← tc_dec_drp it;
  '(a, it) ← rd_scalar CF32 it;
  '(l, it) ← rd_scalar CI64 it;
  Ret (mk_tc_queue_codel b p bf pf d a l, it).
Definition tc_dec_q_ecn_codel : reader tc_queue_ecn_codel_t := λ it,
  '(b, it) ← rd_scalar CU32 it;
  '(p, it) ← rd_scalar CU32 it;
  '(bf, it) ← rd_scalar CU32 it;
  '(pf, it) ← rd_scalar CU32 it;
  '(m, it) ← tc_dec_mrk it;
  '(a, it) ← rd_scalar CF32 it;
  '(l, it) ← rd_scalar CI64 it;
  Ret (mk_tc_queue_ecn_codel b p bf pf m a l, it).
Definition tc_dec_q : reader tc_queue_t := λ it,
  '(type, it) ← rd_scalar CU32 it;
  if type =? 0 then '(f, it) ← tc_dec_q_fifo it; Ret (mk_tc_queue 0 (TC_QUEUE_FIFO f), it)
  else if type =? 1 then '(c, it) ← tc_dec_q_codel it; Ret (mk_tc_queue 0 (TC_QUEUE_CODEL c), it)
  else if type =? 2 then '(e, it) ← tc_dec_q_ecn_codel it; Ret (mk_tc_queue 0 (TC_QUEUE_ECN_CODEL e), it)
  else Abort.

(** The loop over the three arrays. *)
Fixpoint dec_shp_plc_q (n : nat) : reader (list tc_shp_t * list tc_plc_t * list tc_queue_t) := λ it,
  match n with
  | O => Ret (([], [], []), it)
  | S n =>
      '(x, it) ← tc_dec_shp it;
      '(_, it) ← rd_before_end it;
      '(y, it) ← tc_dec_plc it;
      '(_, it) ← rd_before_end it;
      '(z, it) ← tc_dec_q it;
      '(_, it) ← rd_before_end it;
      '(l, it) ← dec_shp_plc_q n it;
      Ret ((x :: l.1.1, y :: l.1.2, z :: l.2), it)
  end.

Definition tc_dec_ind_msg_plain (ind_msg : bytes) : outcome tc_ind_msg_t :=
  '(s, it) ← tc_dec_sch ind_msg;
  '(_, it) ← rd_before_end it;
  '(p, it) ← tc_dec_pcr it;
  '(_, it) ← rd_before_end it;
  '(c, it) ← tc_dec_cls it;
  '(_, it) ← rd_before_end it;
  '(n, it) ← rd_scalar CU32 it;
  '(_, it) ← rd_before_end it;
  '(l, it) ← dec_shp_plc_q (Z.to_nat n) it;
  '(t, it) ← rd_scalar CI64 it;
  at_end it;;
  Ret (mk_tc_ind_msg s p c n l.1.1 l.1.2 l.2 t).

Definition tc_dec_call_proc_id_plain {A} (call_proc_id : bytes) : outcome A := Abort.
Definition tc_dec_ctrl_hdr_plain (ctrl_hdr : bytes) : outcome tc_ctrl_hdr_t := dec_whole ctrl_hdr.

(** ** Control message *)

Definition dec_by_act {A D M} (ra : reader A) (rd : reader D) (rm : reader M) : reader (tc_by_act A D M) := λ it,
  '(act, it) ← rd_scalar CU32 it;
  if act =? 0 then '(a, it) ← ra it; Ret (TC_CTRL_ACTION_SM_V0_ADD a, it)
  else if act =? 1 then '(d, it) ← rd it; Ret (TC_CTRL_ACTION_SM_V0_DEL d, it)
  else if act =? 2 then '(m, it) ← rm it; Ret (TC_CTRL_ACTION_SM_V0_MOD m, it)
  else Abort.
Definition dec_by_cls {O} (rr : reader tc_dummy_t) (ro : reader O) (rs : reader tc_dummy_t) : reader (tc_by_cls tc_dummy_t O tc_dummy_t) := λ it,
  '(type, it) ← rd_scalar CU32 it;
  if type =? 0 then '(r, it) ← rr it; Ret (TC_CLS_RR r, it)
  else if type =? 1 then '(o, it) ← ro it; Ret (TC_CLS_OSI o, it)
  else if type =? 2 then '(s, it) ← rs it; Ret (TC_CLS_STO s, it)
  else Abort.

Definition dec_tc_add_ctrl_payload_cls_osi : reader tc_add_cls_osi_t := λ it,
  '(src, it) ← rd_scalar CI64 it;
  '(dst, it) ← rd_scalar CI64 it;
  '(sp, it) ← rd_scalar CI32 it;
  '(dp, it) ← rd_scalar CI32 it;
  '(pr, it) ← rd_scalar CI32 it;
  '(q, it) ← rd_scalar CI32 it;
  Ret (mk_tc_add_cls_osi (mk_L3_filter src dst) (mk_L4_filter sp dp pr) (mk_tc_dummy 0) q, it).
Definition dec_tc_add_ctrl_payload_cls_rr : reader tc_dummy_t := λ it,
  '(d, it) ← rd_scalar CU32 it;
  Ret (mk_tc_dummy d, it).
Definition dec_tc_add_ctrl_payload_cls_sto : reader tc_dummy_t := λ it,
  '(d, it) ← rd_scalar CU32 it;
  Ret (mk_tc_dummy d, it).
Definition dec_tc_add_ctrl_payload_cls : reader tc_add_ctrl_cls_t := dec_by_cls dec_tc_add_ctrl_payload_cls_rr dec_tc_add_ctrl_payload_cls_osi dec_tc_add_ctrl_payload_cls_sto.
Definition dec_tc_del_ctrl_payload_cls_osi : reader tc_id_t := λ it,
  '(d, it) ← rd_scalar CU32 it;
  Ret (mk_tc_id d, it).
Definition dec_tc_del_ctrl_payload_cls_rr : reader tc_dummy_t := λ it,
  '(d, it) ← rd_scalar CU32 it;
  Ret (mk_tc_dummy d, it).
Definition dec_tc_del_ctrl_payload_cls_sto : reader tc_dummy_t := λ it,
  '(d, it) ← rd_scalar CU32 it;
  Ret (mk_tc_dummy d, it).
Definition dec_tc_del_ctrl_payload_cls : reader tc_del_ctrl_cls_t := dec_by_cls dec_tc_del_ctrl_payload_cls_rr dec_tc_del_ctrl_payload_cls_osi dec_tc_del_ctrl_payload_cls_sto.
Definition dec_tc_mod_ctrl_payload_cls_osi : reader tc_mod_cls_osi_t := λ it,
  '(f, it) ← rd_obj it;
  Ret (mk_tc_mod_cls_osi f, it).
Definition dec_tc_mod_ctrl_payload_cls_rr : reader tc_dummy_t := λ it,
  '(d, it) ← rd_scalar CU32 it;
  Ret (mk_tc_dummy d, it).
Definition dec_tc_mod_ctrl_payload_cls_sto : reader tc_dummy_t := λ it,
  '(d, it) ← rd_scalar CU32 it;
  Ret (mk_tc_dummy d, it).
Definition dec_tc_mod_ctrl_payload_cls : reader tc_mod_ctrl_cls_t := dec_by_cls dec_tc_mod_ctrl_payload_cls_rr dec_tc_mod_ctrl_payload_cls_osi dec_tc_mod_ctrl_payload_cls_sto.
Definition dec_tc_ctrl_payload_cls : reader tc_ctrl_cls_t :=
  dec_by_act dec_tc_add_ctrl_payload_cls dec_tc_del_ctrl_payload_cls dec_tc_mod_ctrl_payload_cls.

Definition dec_tc_mod_ctrl_payload_plc : reader tc_mod_ctrl_plc_t := λ it,
  '(i, it) ← rd_scalar CU32 it;
  '(r, it) ← rd_scalar CU32 it;
  '(d, it) ← rd_scalar CU32 it;
  '(dr, it) ← rd_scalar CU32 it;
  '(a, it) ← rd_scalar CU32 it;
  Ret (mk_tc_mod_ctrl_plc i r d dr a, it).
Definition dec_tc_add_ctrl_payload_plc : reader tc_dummy_t := λ it,
  '(d, it) ← rd_scalar CU32 it;
  Ret (mk_tc_dummy d, it).
Definition dec_tc_del_ctrl_payload_plc : reader tc_id_t := λ it,
  '(d, it) ← rd_scalar CU32 it;
  Ret (mk_tc_id d, it).
Definition dec_tc_ctrl_payload_plc : reader tc_ctrl_plc_t := dec_by_act dec_tc_add_ctrl_payload_plc dec_tc_del_ctrl_payload_plc dec_tc_mod_ctrl_payload_plc.

Definition dec_tc_ctrl_payload_q_fifo : reader tc_ctrl_queue_fifo_t := λ it,
  '(d, it) ← rd_scalar CU32 it;
  Ret (mk_tc_dummy d, it).
Definition dec_tc_ctrl_payload_q_codel : reader tc_ctrl_queue_codel_t := λ it,
  '(t, it) ← rd_scalar CU32 it;
  '(i, it) ← rd_scalar CU32 it;
  Ret (mk_tc_ctrl_queue_codel t i, it).
Definition dec_tc_ctrl_payload_q_ecn_codel : reader tc_ctrl_queue_ecn_codel_t := λ it,
  '(t, it) ← rd_scalar CU32 it;
  '(i, it) ← rd_scalar CU32 it;
  Ret (mk_tc_ctrl_queue_ecn_codel t i, it).
Definition dec_tc_add_ctrl_payload_q : reader tc_add_ctrl_queue_t := λ it,
  '(type, it) ← rd_scalar CU32 it;
  if type =? 0 then '(f, it) ← dec_tc_ctrl_payload_q_fifo it; Ret (TC_QUEUE_FIFO f, it)
  else if type =? 1 then '(c, it) ← dec_tc_ctrl_payload_q_codel it; Ret (TC_QUEUE_CODEL c, it)
  else if type =? 2 then '(e, it) ← dec_tc_ctrl_payload_q_ecn_codel it; Ret (TC_QUEUE_ECN_CODEL e, it)
  else Abort.
Definition dec_tc_del_ctrl_payload_q : reader tc_del_ctrl_queue_t := λ it,
  '(i, it) ← rd_scalar CU32 it;
  '(t, it) ← rd_scalar CU32 it;
  Ret (mk_tc_del_ctrl_queue i t, it).
Definition dec_tc_mod_ctrl_payload_q : reader tc_mod_ctrl_queue_t := λ it,
  '(i, it) ← rd_scalar CU32 it;
  '(type, it) ← rd_scalar CU32 it;
  if type =? 0 then '(f, it) ← dec_tc_ctrl_payload_q_fifo it; Ret (mk_tc_mod_ctrl_queue i (TC_QUEUE_FIFO f), it)
  else if type =? 1 then '(c, it) ← dec_tc_ctrl_payload_q_codel it; Ret (mk_tc_mod_ctrl_queue i (TC_QUEUE_CODEL c), it)
  else if type =? 2 then '(e, it) ← dec_tc_ctrl_payload_q_ecn_codel it; Ret (mk_tc_mod_ctrl_queue i (TC_QUEUE_ECN_CODEL e), it)
  else Abort.
Definition dec_tc_ctrl_payload_q : reader tc_ctrl_queue_t :=
  dec_by_act dec_tc_add_ctrl_payload_q dec_tc_del_ctrl_payload_q dec_tc_mod_ctrl_payload_q.

Definition dec_tc_mod_ctrl_payload_sch_rr : reader tc_sch_rr_t := λ it,
  '(d, it) ← rd_scalar CU32 it;
  Ret (mk_tc_dummy d, it).
Definition dec_tc_mod_ctrl_payload_sch_prio : reader tc_sch_prio_t := λ it,
  '(n, it) ← rd_scalar CU32 it;
  '(q, it) ← rd_u32s n it;
  Ret (mk_tc_sch_prio n q, it).
Definition dec_tc_mod_ctrl_payload_sch : reader tc_mod_ctrl_sch_t := λ it,
  '(type, it) ← rd_scalar CU32 it;
  if type =? 0 then '(r, it) ← dec_tc_mod_ctrl_payload_sch_rr it; Ret (TC_SCHED_RR r, it)
  else if type =? 1 then '(p, it) ← dec_tc_mod_ctrl_payload_sch_prio it; Ret (TC_SCHED_PRIO p, it)
  else Abort.
Definition dec_tc_add_ctrl_payload_sch : reader tc_dummy_t := λ it,
  '(d, it) ← rd_scalar CU32 it;
  Ret (mk_tc_dummy d, it).
Definition dec_tc_del_ctrl_payload_sch : reader tc_dummy_t := λ it,
  '(d, it) ← rd_scalar CU32 it;
  Ret (mk_tc_dummy d, it).
Definition dec_tc_ctrl_payload_sch : reader tc_ctrl_sch_t := dec_by_act dec_tc_add_ctrl_payload_sch dec_tc_del_ctrl_payload_sch dec_tc_mod_ctrl_payload_sch.

Definition dec_tc_mod_ctrl_payload_shp : reader tc_mod_ctrl_shp_t := λ it,
  '(i, it) ← rd_scalar CU32 it;
  '(w, it) ← rd_scalar CU32 it;
  '(r, it) ← rd_scalar CU32 it;
  '(a, it) ← rd_scalar CU32 it;
  Ret (mk_tc_mod_ctrl_shp i w r a, it).
Definition dec_tc_add_ctrl_payload_shp : reader tc_dummy_t := λ it,
  '(d, it) ← rd_scalar CU32 it;
  Ret (mk_tc_dummy d, it).
Definition dec_tc_del_ctrl_payload_shp : reader tc_id_t := λ it,
  '(d, it) ← rd_scalar CU32 it;
  Ret (mk_tc_id d, it).
Definition dec_tc_ctrl_payload_shp : reader tc_ctrl_shp_t := dec_by_act dec_tc_add_ctrl_payload_shp dec_tc_del_ctrl_payload_shp dec_tc_mod_ctrl_payload_shp.

Definition dec_tc_mod_ctrl_payload_pcr_dummy : reader tc_dummy_t := λ it,
  '(d, it) ← rd_scalar CU32 it;
  Ret (mk_tc_dummy d, it).
Definition dec_tc_mod_ctrl_payload_pcr_bdp : reader tc_pcr_5g_bdp_t := λ it,
  '(s, it) ← rd_scalar CU32 it;
  '(t, it) ← rd_scalar CI64 it;
  Ret (mk_tc_pcr_5g_bdp s t, it).
Definition dec_tc_mod_ctrl_payload_pcr : reader tc_mod_ctrl_pcr_t := λ it,
  '(type, it) ← rd_scalar CU32 it;
  if type =? 0 then '(d, it) ← dec_tc_mod_ctrl_payload_pcr_dummy it; Ret (TC_PCR_DUMMY d, it)
  else if type =? 1 then '(b, it) ← dec_tc_mod_ctrl_payload_pcr_bdp it; Ret (TC_PCR_5G_BDP b, it)
  else Abort.
Definition dec_tc_add_ctrl_payload_pcr : reader tc_dummy_t := λ it,
  '(d, it) ← rd_scalar CU32 it;
  Ret (mk_tc_dummy d, it).
Definition dec_tc_del_ctrl_payload_pcr : reader tc_dummy_t := λ it,
  '(d, it) ← rd_scalar CU32 it;
  Ret (mk_tc_dummy d, it).
Definition dec_tc_ctrl_payload_pcr : reader tc_ctrl_pcr_t := dec_by_act dec_tc_add_ctrl_payload_pcr dec_tc_del_ctrl_payload_pcr dec_tc_mod_ctrl_payload_pcr.

Definition tc_dec_ctrl_msg_plain (ctrl_msg : bytes) : outcome tc_ctrl_msg_t :=
  c_assert (0 <? length ctrl_msg)%nat;;
  '(type, it) ← rd_scalar CU32 ctrl_msg;
  '(m, it) ← (if type =? 0 then '(c, it) ← dec_tc_ctrl_payload_cls it; Ret (TC_CTRL_SM_V0_CLS c, it)
              else if type =? 1 then '(p, it) ← dec_tc_ctrl_payload_plc it; Ret (TC_CTRL_SM_V0_PLC p, it)
              else if type =? 2 then '(q, it) ← dec_tc_ctrl_payload_q it; Ret (TC_CTRL_SM_V0_QUEUE q, it)
              else if type =? 3 then '(s, it) ← dec_tc_ctrl_payload_sch it; Ret (TC_CTRL_SM_V0_SCH s, it)
              else if type =? 4 then '(s, it) ← dec_tc_ctrl_payload_shp it; Ret (TC_CTRL_SM_V0_SHP s, it)
              else if type =? 5 then '(p, it) ← dec_tc_ctrl_payload_pcr it; Ret (TC_CTRL_SM_V0_PCR p, it)
              else Abort);
  at_end it;;
  Ret m.

Definition tc_dec_ctrl_out_plain (ctrl_out : bytes) : outcome tc_ctrl_out_t :=
  c_assert (0 <? length ctrl_out)%nat;;
  dec_whole ctrl_out.

Definition tc_dec_func_def_plain {A} (func_def : bytes) : outcome A := Abort.
