(* ===== verification/TcPlain.v ===== *)
(** * TC service model: the codec

    What may be handed over; that the decoder reads back what the encoder wrote, but for
    what is not written; and what the copies keep. *)
From S2P Require Import Prelude CLayout SmCodec SmWire TcData TcCodec.
#[local] Open Scope Z_scope.

(** ** Values that can be sent *)

Definition mtr_ok (m : tc_mtr_t) : Prop := u_ok 32 (time_window_ms m) ∧ u_ok 32 (bnd_flt m).
Definition prio_ok (p : tc_sch_prio_t) : Prop := u32s_ok (len_q_prio p) (q_prio p).
Definition sch_ok (s : tc_sch_t) : Prop :=
  match s with TC_SCHED_RR r => u_ok 32 (tc_dummy r) | TC_SCHED_PRIO p => prio_ok p | SCHED_OTHER _ => False end.
Definition pcr_ok (p : tc_pcr_t) : Prop := u_ok 32 (pcr_type p) ∧ u_ok 32 (pcr_id p) ∧ mtr_ok (pcr_mtr p).
Definition by_cls_ok {O} (ok : O → Prop) (c : tc_by_cls tc_dummy_t O tc_dummy_t) : Prop :=
  match c with TC_CLS_RR d | TC_CLS_STO d => u_ok 32 (tc_dummy d) | TC_CLS_OSI o => ok o | CLS_OTHER _ => False end.
Definition osi_ok (o : tc_cls_osi_t) : Prop :=
  u_ok 32 (osi_len o) ∧ Z.of_nat (length (osi_flt o)) = osi_len o ∧ Forall c_ok (osi_flt o).
Definition cls_ok (c : tc_cls_t) : Prop := by_cls_ok osi_ok c.
Definition shp_ok (s : tc_shp_t) : Prop :=
  u_ok 32 (shp_id s) ∧ u_ok 32 (shp_active s) ∧ u_ok 32 (shp_max_rate_kbps s) ∧ mtr_ok (shp_mtr s).
Definition plc_ok (p : tc_plc_t) : Prop :=
  u_ok 32 (plc_id p) ∧ mtr_ok (plc_mtr p) ∧ u_ok 32 (dropped_pkts (plc_drp p)) ∧ u_ok 32 (marked_pkts (plc_mrk p)) ∧
  u_ok 32 (plc_max_rate_kbps p) ∧ u_ok 32 (plc_active p) ∧ u_ok 32 (plc_dst_id p) ∧ u_ok 32 (plc_dev_id p).
Definition q_ok (q : tc_queue_t) : Prop :=
  match q_conf q with
  | TC_QUEUE_FIFO q =>
      u_ok 32 (qf_bytes q) ∧ u_ok 32 (qf_pkts q) ∧ u_ok 32 (qf_bytes_fwd q) ∧ u_ok 32 (qf_pkts_fwd q) ∧
      u_ok 32 (dropped_pkts (qf_drp q)) ∧ u_ok 32 (qf_avg_sojourn_time q) ∧ cval_ok CI64 (qf_last_sojourn_time q)
  | TC_QUEUE_CODEL q =>
      u_ok 32 (qc_bytes q) ∧ u_ok 32 (qc_pkts q) ∧ u_ok 32 (qc_bytes_fwd q) ∧ u_ok 32 (qc_pkts_fwd q) ∧
      u_ok 32 (dropped_pkts (qc_drp q)) ∧ u_ok 32 (qc_avg_sojourn_time q) ∧ cval_ok CI64 (qc_last_sojourn_time q)
  | TC_QUEUE_ECN_CODEL q =>
      u_ok 32 (qe_bytes q) ∧ u_ok 32 (qe_pkts q) ∧ u_ok 32 (qe_bytes_fwd q) ∧ u_ok 32 (qe_pkts_fwd q) ∧
      u_ok 32 (marked_pkts (qe_mrk q)) ∧ u_ok 32 (qe_avg_sojourn_time q) ∧ cval_ok CI64 (qe_last_sojourn_time q)
  | QUEUE_OTHER _ => False
  end.
Definition tc_ind_msg_ok (m : tc_ind_msg_t) : Prop :=
  sch_ok (tc_sch m) ∧ pcr_ok (tc_pcr m) ∧ cls_ok (tc_cls m) ∧ u_ok 32 (len_q m) ∧
  (Z.of_nat (length (tc_shps m)) = len_q m ∧ Forall shp_ok (tc_shps m)) ∧
  (Z.of_nat (length (tc_plcs m)) = len_q m ∧ Forall plc_ok (tc_plcs m)) ∧
  (Z.of_nat (length (tc_qs m)) = len_q m ∧ Forall q_ok (tc_qs m)) ∧ cval_ok CI64 (tc_tstamp m).

Definition by_act_ok {A D M} (ka : A → Prop) (kd : D → Prop) (km : M → Prop) (c : tc_by_act A D M) : Prop :=
  match c with
  | TC_CTRL_ACTION_SM_V0_ADD a => ka a
  | TC_CTRL_ACTION_SM_V0_DEL d => kd d
  | TC_CTRL_ACTION_SM_V0_MOD m => km m
  | ACT_OTHER _ => False
  end.
Definition dummy_ok (d : tc_dummy_t) : Prop := u_ok 32 (tc_dummy d).
Definition id_ok (d : tc_id_t) : Prop := u_ok 32 (tc_id d).
Definition add_osi_ok (o : tc_add_cls_osi_t) : Prop :=
  cval_ok CI64 (src_addr (aosi_l3 o)) ∧ cval_ok CI64 (dst_addr (aosi_l3 o)) ∧ cval_ok CI32 (src_port (aosi_l4 o)) ∧
  cval_ok CI32 (dst_port (aosi_l4 o)) ∧ cval_ok CI32 (protocol (aosi_l4 o)) ∧ cval_ok CI32 (aosi_dst_queue o).
Definition ctrl_cls_ok (c : tc_ctrl_cls_t) : Prop :=
  by_act_ok (by_cls_ok add_osi_ok) (by_cls_ok id_ok) (by_cls_ok (λ o, c_ok (mosi_filter o))) c.
Definition mod_plc_ok (m : tc_mod_ctrl_plc_t) : Prop :=
  u_ok 32 (mp_id m) ∧ u_ok 32 (mp_drop_rate_kbps m) ∧ u_ok 32 (mp_dev_id m) ∧ u_ok 32 (mp_dev_rate_kbps m) ∧ u_ok 32 (mp_active m).
Definition ctrl_q_conf_ok (q : tc_add_ctrl_queue_t) : Prop :=
  match q with
  | TC_QUEUE_FIFO f => dummy_ok f
  | TC_QUEUE_CODEL c => u_ok 32 (cq_target_ms c) ∧ u_ok 32 (cq_interval_ms c)
  | TC_QUEUE_ECN_CODEL e => u_ok 32 (eq_target_ms e) ∧ u_ok 32 (eq_interval_ms e)
  | QUEUE_OTHER _ => False
  end.
Definition ctrl_q_ok (q : tc_ctrl_queue_t) : Prop :=
  by_act_ok ctrl_q_conf_ok (λ d, u_ok 32 (dq_id d) ∧ u_ok 32 (dq_type d)) (λ m, u_ok 32 (mq_id m) ∧ ctrl_q_conf_ok (mq_conf m)) q.
Definition mod_shp_ok (m : tc_mod_ctrl_shp_t) : Prop :=
  u_ok 32 (ms_id m) ∧ u_ok 32 (ms_time_window_ms m) ∧ u_ok 32 (ms_max_rate_kbps m) ∧ u_ok 32 (ms_active m).
Definition mod_pcr_ok (m : tc_mod_ctrl_pcr_t) : Prop :=
  match m with
  | TC_PCR_DUMMY d => dummy_ok d
  | TC_PCR_5G_BDP b => u_ok 32 (bdp_drb_sz b) ∧ cval_ok CI64 (bdp_tstamp b)
  | PCR_OTHER _ => False
  end.
Definition tc_ctrl_msg_ok (m : tc_ctrl_msg_t) : Prop :=
  match m with
  | TC_CTRL_SM_V0_CLS c => ctrl_cls_ok c
  | TC_CTRL_SM_V0_PLC p => by_act_ok dummy_ok id_ok mod_plc_ok p
  | TC_CTRL_SM_V0_QUEUE q => ctrl_q_ok q
  | TC_CTRL_SM_V0_SCH s => by_act_ok dummy_ok dummy_ok sch_ok s
  | TC_CTRL_SM_V0_SHP s => by_act_ok dummy_ok id_ok mod_shp_ok s
  | TC_CTRL_SM_V0_PCR p => by_act_ok dummy_ok dummy_ok mod_pcr_ok p
  | TC_CTRL_OTHER _ => False
  end.

(** ** What is not written is 0 *)

Definition sch_read (s : tc_sch_t) : tc_sch_t := match s with TC_SCHED_RR _ => TC_SCHED_RR (mk_tc_dummy 0) | _ => s end.
Definition q_read (q : tc_queue_t) : tc_queue_t := mk_tc_queue 0 (q_conf q).
Definition tc_ind_read (m : tc_ind_msg_t) : tc_ind_msg_t :=
  mk_tc_ind_msg (sch_read (tc_sch m)) (tc_pcr m) (tc_cls m) (len_q m) (tc_shps m) (tc_plcs m) (q_read <$> tc_qs m) (tc_tstamp m).

(** ** Sizes *)

Definition sz_sch (s : tc_sch_t) : Z := match s with TC_SCHED_PRIO p => 8 + 4 * len_q_prio p | _ => 4 end.
Definition sz_cls (c : tc_cls_t) : Z := match c with TC_CLS_OSI o => 8 + 48 * osi_len o | _ => 8 end.
Definition sz_tc_ind (m : tc_ind_msg_t) : Z := sz_sch (tc_sch m) + 16 + sz_cls (tc_cls m) + 4 + 92 * len_q m + 8.

Definition sz_by_act {A D M} (sa : A → Z) (sd : D → Z) (sm : M → Z) (c : tc_by_act A D M) : Z :=
  4 + match c with TC_CTRL_ACTION_SM_V0_ADD a => sa a | TC_CTRL_ACTION_SM_V0_DEL d => sd d | TC_CTRL_ACTION_SM_V0_MOD m => sm m | ACT_OTHER _ => 0 end.
Definition sz_by_cls {O} (so : Z) (c : tc_by_cls tc_dummy_t O tc_dummy_t) : Z := match c with TC_CLS_OSI _ => 4 + so | _ => 8 end.
Definition sz_q_conf (q : tc_add_ctrl_queue_t) : Z := match q with TC_QUEUE_FIFO _ => 8 | _ => 12 end.
Definition sz_mod_sch (s : tc_mod_ctrl_sch_t) : Z := match s with TC_SCHED_PRIO p => 8 + 4 * len_q_prio p | _ => 8 end.
Definition sz_mod_pcr (p : tc_mod_ctrl_pcr_t) : Z := match p with TC_PCR_5G_BDP _ => 16 | _ => 8 end.
Definition four {A} (_ : A) : Z := 4.
Definition sz_tc_ctrl (m : tc_ctrl_msg_t) : Z :=
  4 + match m with
      | TC_CTRL_SM_V0_CLS c => sz_by_act (sz_by_cls 32) (sz_by_cls 4) (sz_by_cls 48) c
      | TC_CTRL_SM_V0_PLC p => sz_by_act four four (λ _, 20) p
      | TC_CTRL_SM_V0_QUEUE q => sz_by_act sz_q_conf (λ _, 8) (λ m, 4 + sz_q_conf (mq_conf m)) q
      | TC_CTRL_SM_V0_SCH s => sz_by_act four four sz_mod_sch s
      | TC_CTRL_SM_V0_SHP s => sz_by_act four four (λ _, 16) s
      | TC_CTRL_SM_V0_PCR p => sz_by_act four four sz_mod_pcr p
      | TC_CTRL_OTHER _ => 0
      end.

(** ** Encoder against decoder *)

Ltac wire_scalar := apply wired_scalar; [first [assumption | split; by vm_compute]|reflexivity].
Ltac wire_with tac :=
  repeat (first
    [ simple apply wired_assoc
    | eapply wired_end; [solve [wire_scalar | tac]|intros; reflexivity]
    | eapply wired_seq; [solve [wire_scalar | tac]|cbn [cls_type queue_type act_type sch_type mod_pcr_type tc_ctrl_msg_type q_conf Z.eqb Pos.eqb]] ]).

Lemma wired_mtr m : mtr_ok m → wired (tc_enc_mtr m) 8 tc_dec_mtr m.
Proof. destruct m. intros [? ?]. unfold tc_enc_mtr, tc_dec_mtr. eapply (wired_eq _ (4 + 4)); [wire_with fail|done]. Qed.

Lemma wired_prio p : prio_ok p → wired (tc_enc_sch_prio p) (4 + 4 * len_q_prio p) tc_dec_sch_prio p.
Proof.
  destruct p as [n q]. unfold prio_ok. cbn [len_q_prio q_prio]. intros Hq. assert (u_ok 32 n) by apply Hq.
  unfold tc_enc_sch_prio, tc_dec_sch_prio. wire_with ltac:(by apply wired_u32s).
Qed.

Lemma wired_nil {A} (x : A) : wired w_nil 0 (λ it, Ret (x, it)) x.
Proof. exists []. split_and!; [done|apply writes_puts, writes_nil|done]. Qed.

Lemma wired_sch s : sch_ok s → wired (tc_enc_sch s) (sz_sch s) tc_dec_sch (sch_read s).
Proof.
  destruct s as [r|p|t]; cbn [sch_ok]; [| |done]; intros Hs; unfold tc_enc_sch, tc_dec_sch, sz_sch.
  - eapply (wired_eq _ (4 + 0)); [|done]. wire_with ltac:(exact (wired_nil (mk_tc_dummy 0))).
  - eapply (wired_eq _ (4 + (4 + 4 * len_q_prio p))); [|lia]. wire_with ltac:(by apply wired_prio).
Qed.

Lemma wired_pcr p : pcr_ok p → wired (tc_enc_pcr p) 16 tc_dec_pcr p.
Proof.
  destruct p. intros (? & ? & ?). unfold tc_enc_pcr, tc_dec_pcr. eapply (wired_eq _ (4 + (4 + 8))); [wire_with ltac:(by apply wired_mtr)|done].
Qed.

Lemma wired_cls_osi o : osi_ok o → wired (tc_enc_cls_osi o) (4 + 48 * osi_len o) tc_dec_cls_osi o.
Proof.
  destruct o as [n l]. intros (Hn & Hl & Hf). cbn [osi_len osi_flt] in *. unfold tc_enc_cls_osi, tc_dec_cls_osi. cbn [osi_len osi_flt].
  assert (wired (w_for w_obj (Z.to_nat n) l) (48 * n) (rd_n rd_obj (Z.to_nat n)) l) as Hw.
  { subst n. rewrite Nat2Z.id. rewrite <-(list_fmap_id l) at 5. apply (wired_eq _ (zsum ((λ _, 48) <$> l))).
    - apply (wired_for _ (λ _, 48) _ id). eapply Forall_impl; [|exact Hf]. intros f Hok. by apply wired_obj.
    - rewrite zsum_const. lia. }
  wire_with ltac:(exact Hw).
Qed.

Lemma wired_cls c : cls_ok c → wired (tc_enc_cls c) (sz_cls c) tc_dec_cls c.
Proof.
  destruct c as [[d]|o|[d]|t]; unfold cls_ok; cbn [by_cls_ok]; [| | |done]; intros Hc; unfold tc_enc_cls, tc_dec_cls, sz_cls.
  - eapply (wired_eq _ (4 + 4)); [|done]. unfold tc_enc_cls_rr, tc_dec_cls_rr. wire_with ltac:(eapply wired_end; [wire_scalar|done]).
  - eapply (wired_eq _ (4 + (4 + 48 * osi_len o))); [|lia]. wire_with ltac:(by apply wired_cls_osi).
  - eapply (wired_eq _ (4 + 4)); [|done]. unfold tc_enc_cls_sto, tc_dec_cls_sto. wire_with ltac:(eapply wired_end; [wire_scalar|done]).
Qed.

Lemma wired_shp s : shp_ok s → wired (tc_enc_shp s) 20 tc_dec_shp s.
Proof.
  destruct s. intros (? & ? & ? & ?). unfold tc_enc_shp, tc_dec_shp.
  eapply (wired_eq _ (4 + (4 + (4 + 8)))); [wire_with ltac:(by apply wired_mtr)|done].
Qed.

Lemma wired_drp d : u_ok 32 (dropped_pkts d) → wired (tc_enc_drp d) 4 tc_dec_drp d.
Proof. destruct d. intros ?. unfold tc_enc_drp, tc_dec_drp. wire_with fail. Qed.

Lemma wired_mrk d : u_ok 32 (marked_pkts d) → wired (tc_enc_mrk d) 4 tc_dec_mrk d.
Proof. destruct d. intros ?. unfold tc_enc_mrk, tc_dec_mrk. wire_with fail. Qed.

Lemma wired_plc p : plc_ok p → wired (tc_enc_plc p) 36 tc_dec_plc p.
Proof.
  destruct p. intros (? & ? & ? & ? & ? & ? & ? & ?). unfold tc_enc_plc, tc_dec_plc.
  eapply (wired_eq _ (4 + (8 + (4 + (4 + (4 + (4 + (4 + 4)))))))); [|done].
  wire_with ltac:(first [by apply wired_mtr | by apply wired_drp | by apply wired_mrk]).
Qed.

Lemma wired_q q : q_ok q → wired (tc_enc_q q) 36 tc_dec_q (q_read q).
Proof.
  destruct q as [i [[]|[]|[]|t]]; unfold q_ok; cbn [q_conf]; [| | |done]; intros (? & ? & ? & ? & ? & ? & ?); unfold tc_enc_q, tc_dec_q, q_read; cbn [q_conf].
  - eapply (wired_eq _ (4 + (4 + (4 + (4 + (4 + (4 + (4 + 8)))))))); [|reflexivity]. eapply wired_seq; [wire_scalar|].
    cbn [queue_type Z.eqb]. eapply wired_end; [|intros; reflexivity]. unfold tc_enc_q_fifo, tc_dec_q_fifo. wire_with ltac:(by apply wired_drp).
  - eapply (wired_eq _ (4 + (4 + (4 + (4 + (4 + (4 + (4 + 8)))))))); [|reflexivity]. eapply wired_seq; [wire_scalar|].
    cbn [queue_type Z.eqb Pos.eqb]. eapply wired_end; [|intros; reflexivity]. unfold tc_enc_q_codel, tc_dec_q_codel. wire_with ltac:(by apply wired_drp).
  - eapply (wired_eq _ (4 + (4 + (4 + (4 + (4 + (4 + (4 + 8)))))))); [|reflexivity]. eapply wired_seq; [wire_scalar|].
    cbn [queue_type Z.eqb Pos.eqb]. eapply wired_end; [|intros; reflexivity]. unfold tc_enc_q_ecn_codel, tc_dec_q_ecn_codel. wire_with ltac:(by apply wired_mrk).
Qed.

(** *** The three arrays, and what follows them *)

Lemma dec_shp_plc_q_S {A} n (k : list tc_shp_t * list tc_plc_t * list tc_queue_t → reader A) it :
  ('(x, it) ← tc_dec_shp it; '(_, it) ← rd_before_end it; '(y, it) ← tc_dec_plc it; '(_, it) ← rd_before_end it;
   '(z, it) ← tc_dec_q it; '(_, it) ← rd_before_end it; '(l, it) ← dec_shp_plc_q n it; k (x :: l.1.1, y :: l.1.2, z :: l.2) it) =
  ('(l, it) ← dec_shp_plc_q (S n) it; k l it).
Proof.
  cbn [dec_shp_plc_q]. destruct (tc_dec_shp it) as [[x i1]| | | |]; [|done..]. cbn [mbind outcome_bind].
  destruct (rd_before_end i1) as [[? i2]| | | |]; [|done..]. cbn [mbind outcome_bind].
  destruct (tc_dec_plc i2) as [[y i3]| | | |]; [|done..]. cbn [mbind outcome_bind].
  destruct (rd_before_end i3) as [[? i4]| | | |]; [|done..]. cbn [mbind outcome_bind].
  destruct (tc_dec_q i4) as [[z i5]| | | |]; [|done..]. cbn [mbind outcome_bind].
  destruct (rd_before_end i5) as [[? i6]| | | |]; [|done..]. cbn [mbind outcome_bind].
  by destruct (dec_shp_plc_q n i6) as [[l i7]| | | |].
Qed.

Lemma wired_shp_plc_q {A} s p q w sz (k : list tc_shp_t * list tc_plc_t * list tc_queue_t → reader A) y :
  length p = length s → length q = length s → Forall shp_ok s → Forall plc_ok p → Forall q_ok q → 0 < sz →
  wired w sz (k (s, p, q_read <$> q)) y →
  wired (enc_shp_plc_q (length s) s p q >>> w) (92 * Z.of_nat (length s) + sz) (λ it, '(l, it) ← dec_shp_plc_q (length s) it; k l it) y.
Proof.
  intros Hlp Hlq Hs Hp Hq Hsz. revert p q k Hlp Hlq Hp Hq. induction Hs as [|x s Hx Hs IH]; intros [|y0 p] [|z q] k Hlp Hlq Hp Hq Hw; try done.
  - eapply (wired_eq _ (0 + sz)); [|done]. exact (wired_seq _ _ _ _ _ k ([], [], []) y (wired_nil _) Hw).
  - injection Hlp as Hlp. injection Hlq as Hlq. apply Forall_cons_1 in Hp as [Hy Hp]. apply Forall_cons_1 in Hq as [Hz Hq].
    specialize (IH p q (λ l, k (x :: l.1.1, y0 :: l.1.2, q_read z :: l.2)) Hlp Hlq Hp Hq Hw).
    eapply wired_ext; [intros it; apply dec_shp_plc_q_S|].
    cbn [length enc_shp_plc_q]. repeat simple apply wired_assoc.
    eapply (wired_eq _ (20 + (36 + (36 + (92 * Z.of_nat (length s) + sz))))); [|lia].
    eapply wired_seq; [by apply wired_shp|]. apply wired_going_on; [lia|].
    eapply wired_seq; [by apply wired_plc|]. apply wired_going_on; [lia|].
    eapply wired_seq; [by apply wired_q|]. apply wired_going_on; [lia|]. exact IH.
Qed.

Definition rd_tc_ind_msg : reader tc_ind_msg_t := λ it,
  '(s, it) ← tc_dec_sch it;
  '(_, it) ← rd_before_end it;
  '(p, it) ← tc_dec_pcr it;
  '(_, it) ← rd_before_end it;
  '(c, it) ← tc_dec_cls it;
  '(_, it) ← rd_before_end it;
  '(n, it) ← rd_scalar CU32 it;
  '(_, it) ← rd_before_end it;
  '(l, it) ← dec_shp_plc_q (Z.to_nat n) it;
  '(t, it) ← rd_scalar CI64 it;
  Ret (mk_tc_ind_msg s p c n l.1.1 l.1.2 l.2 t, it).

Definition w_tc_ind_msg (ind_msg : tc_ind_msg_t) : writer :=
  tc_enc_sch (tc_sch ind_msg) >>> w_before_end >>>
  tc_enc_pcr (tc_pcr ind_msg) >>> w_before_end >>>
  tc_enc_cls (tc_cls ind_msg) >>> w_before_end >>>
  w_scalar CU32 (len_q ind_msg) >>> w_before_end >>>
  enc_shp_plc_q (Z.to_nat (len_q ind_msg)) (tc_shps ind_msg) (tc_plcs ind_msg) (tc_qs ind_msg) >>>
  w_scalar CI64 (tc_tstamp ind_msg).

Lemma sz_cls_pos c : cls_ok c → 0 < sz_cls c.
Proof. destruct c as [d|o|d|t]; unfold cls_ok; cbn [by_cls_ok sz_cls]; try lia. intros [Ho _]. unfold u_ok in Ho. lia. Qed.

Lemma wired_tc_ind_msg m : tc_ind_msg_ok m → wired (w_tc_ind_msg m) (sz_tc_ind m) rd_tc_ind_msg (tc_ind_read m).
Proof.
  destruct m as [s p c n sh pl q t]. intros (Hs & Hp & Hc & Hn & [Hlsh Hsh] & [Hlpl Hpl] & [Hlq Hq] & Ht).
  cbn [tc_sch tc_pcr tc_cls len_q tc_shps tc_plcs tc_qs tc_tstamp] in *. pose proof (sz_cls_pos c Hc).
  unfold w_tc_ind_msg, rd_tc_ind_msg, tc_ind_read. cbn [tc_sch tc_pcr tc_cls len_q tc_shps tc_plcs tc_qs tc_tstamp].
  assert (0 <= n) by (unfold u_ok in Hn; lia). repeat simple apply wired_assoc.
  eapply (wired_eq _ (sz_sch s + (16 + (sz_cls c + (4 + (92 * Z.of_nat (length sh) + 8)))))); [|unfold sz_tc_ind; cbn [tc_sch tc_cls len_q]; lia].
  eapply wired_seq; [by apply wired_sch|]. apply wired_going_on; [lia|].
  eapply wired_seq; [by apply wired_pcr|]. apply wired_going_on; [lia|].
  eapply wired_seq; [by apply wired_cls|]. apply wired_going_on; [lia|].
  eapply wired_seq; [wire_scalar|]. apply wired_going_on; [lia|].
  replace (Z.to_nat n) with (length sh) by lia.
  apply wired_shp_plc_q; [lia|lia|done|done|done|lia|]. eapply wired_end; [wire_scalar|intros; reflexivity].
Qed.

(** *** Control messages *)

Lemma wired_by_act {A D M} (ea : A → writer) (ed : D → writer) (em : M → writer) ra rd rm ka kd km sa sd sm c :
  (∀ a, ka a → wired (ea a) (sa a) ra a) → (∀ d, kd d → wired (ed d) (sd d) rd d) → (∀ m, km m → wired (em m) (sm m) rm m) →
  by_act_ok ka kd km c → wired (enc_by_act ea ed em c) (sz_by_act sa sd sm c) (dec_by_act ra rd rm) c.
Proof.
  intros Ha Hd Hm Hc. unfold enc_by_act, dec_by_act, sz_by_act. destruct c as [a|d|m|t]; cbn [by_act_ok] in Hc; [| | |done].
  - wire_with ltac:(by apply Ha).
  - wire_with ltac:(by apply Hd).
  - wire_with ltac:(by apply Hm).
Qed.

Lemma wired_dummy d : dummy_ok d → wired (w_scalar CU32 (tc_dummy d)) (four d) (λ it, '(z, it) ← rd_scalar CU32 it; Ret (mk_tc_dummy z, it)) d.
Proof. destruct d. intros Hd. unfold four, dummy_ok in *. wire_with fail. Qed.

Lemma wired_id d : id_ok d → wired (w_scalar CU32 (tc_id d)) (four d) (λ it, '(z, it) ← rd_scalar CU32 it; Ret (mk_tc_id z, it)) d.
Proof. destruct d. intros Hd. unfold four, id_ok in *. wire_with fail. Qed.

Lemma wired_by_cls {O} er (eo : O → writer) es rr ro rs ko so c :
  (∀ d, dummy_ok d → wired (er d) (four d) rr d) → (∀ o, ko o → wired (eo o) so ro o) → (∀ d, dummy_ok d → wired (es d) (four d) rs d) →
  by_cls_ok ko c → wired (enc_by_cls er eo es c) (sz_by_cls so c) (dec_by_cls rr ro rs) c.
Proof.
  intros Hr Ho Hs Hc. unfold enc_by_cls, dec_by_cls, sz_by_cls. destruct c as [r|o|s|t]; cbn [by_cls_ok] in Hc; [| | |done].
  - eapply (wired_eq _ (4 + 4)); [|done]. wire_with ltac:(exact (Hr _ Hc)).
  - wire_with ltac:(by apply Ho).
  - eapply (wired_eq _ (4 + 4)); [|done]. wire_with ltac:(exact (Hs _ Hc)).
Qed.

Lemma wired_add_osi o : add_osi_ok o → tc_dummy (aosi_l7 o) = 0 →
  wired (enc_tc_add_ctrl_payload_cls_osi o) 32 dec_tc_add_ctrl_payload_cls_osi o.
Proof.
  destruct o as [[] [] [l7] ?]. intros (? & ? & ? & ? & ? & ?). cbn [tc_dummy aosi_l7]. intros ->.
  unfold enc_tc_add_ctrl_payload_cls_osi, dec_tc_add_ctrl_payload_cls_osi.
  eapply (wired_eq _ (8 + (8 + (4 + (4 + (4 + 4)))))); [wire_with fail|done].
Qed.

Lemma wired_mod_osi o : c_ok (mosi_filter o) → wired (enc_tc_mod_ctrl_payload_cls_osi o) 48 dec_tc_mod_ctrl_payload_cls_osi o.
Proof. destruct o. intros Ho. unfold enc_tc_mod_ctrl_payload_cls_osi, dec_tc_mod_ctrl_payload_cls_osi. wire_with ltac:(by apply wired_obj). Qed.

Lemma wired_mod_plc m : mod_plc_ok m → wired (enc_tc_mod_ctrl_payload_plc m) 20 dec_tc_mod_ctrl_payload_plc m.
Proof.
  destruct m. intros (? & ? & ? & ? & ?). unfold enc_tc_mod_ctrl_payload_plc, dec_tc_mod_ctrl_payload_plc.
  eapply (wired_eq _ (4 + (4 + (4 + (4 + 4))))); [wire_with fail|done].
Qed.

Lemma wired_q_fifo f : dummy_ok f → wired (enc_tc_ctrl_payload_q_fifo f) 4 dec_tc_ctrl_payload_q_fifo f.
Proof. apply wired_dummy. Qed.

Lemma wired_q_codel c : u_ok 32 (cq_target_ms c) ∧ u_ok 32 (cq_interval_ms c) → wired (enc_tc_ctrl_payload_q_codel c) 8 dec_tc_ctrl_payload_q_codel c.
Proof.
  destruct c. intros [? ?]. unfold enc_tc_ctrl_payload_q_codel, dec_tc_ctrl_payload_q_codel. eapply (wired_eq _ (4 + 4)); [wire_with fail|done].
Qed.

Lemma wired_q_ecn e : u_ok 32 (eq_target_ms e) ∧ u_ok 32 (eq_interval_ms e) → wired (enc_tc_ctrl_payload_q_ecn_codel e) 8 dec_tc_ctrl_payload_q_ecn_codel e.
Proof.
  destruct e. intros [? ?]. unfold enc_tc_ctrl_payload_q_ecn_codel, dec_tc_ctrl_payload_q_ecn_codel. eapply (wired_eq _ (4 + 4)); [wire_with fail|done].
Qed.

Lemma wired_add_q q : ctrl_q_conf_ok q → wired (enc_tc_add_ctrl_payload_q q) (sz_q_conf q) dec_tc_add_ctrl_payload_q q.
Proof.
  destruct q as [f|c|e|t]; cbn [ctrl_q_conf_ok]; [| | |done]; intros Hq; unfold enc_tc_add_ctrl_payload_q, dec_tc_add_ctrl_payload_q, sz_q_conf.
  - eapply (wired_eq _ (4 + 4)); [|done]. wire_with ltac:(by apply wired_q_fifo).
  - eapply (wired_eq _ (4 + 8)); [|done]. wire_with ltac:(by apply wired_q_codel).
  - eapply (wired_eq _ (4 + 8)); [|done]. wire_with ltac:(by apply wired_q_ecn).
Qed.

Lemma wired_del_q d : u_ok 32 (dq_id d) ∧ u_ok 32 (dq_type d) → wired (enc_tc_del_ctrl_payload_q d) 8 dec_tc_del_ctrl_payload_q d.
Proof. destruct d. intros [? ?]. unfold enc_tc_del_ctrl_payload_q, dec_tc_del_ctrl_payload_q. eapply (wired_eq _ (4 + 4)); [wire_with fail|done]. Qed.

Lemma wired_mod_q m : u_ok 32 (mq_id m) ∧ ctrl_q_conf_ok (mq_conf m) →
  wired (enc_tc_mod_ctrl_payload_q m) (4 + sz_q_conf (mq_conf m)) dec_tc_mod_ctrl_payload_q m.
Proof.
  destruct m as [i q]. cbn [mq_id mq_conf]. intros [Hi Hq]. unfold enc_tc_mod_ctrl_payload_q, dec_tc_mod_ctrl_payload_q, sz_q_conf. cbn [mq_id mq_conf].
  destruct q as [f|c|e|t]; cbn [ctrl_q_conf_ok] in Hq; [| | |done].
  - eapply (wired_eq _ (4 + (4 + 4))); [|done]. wire_with ltac:(by apply wired_q_fifo).
  - eapply (wired_eq _ (4 + (4 + 8))); [|done]. wire_with ltac:(by apply wired_q_codel).
  - eapply (wired_eq _ (4 + (4 + 8))); [|done]. wire_with ltac:(by apply wired_q_ecn).
Qed.

Lemma wired_mod_sch s : sch_ok s → wired (enc_tc_mod_ctrl_payload_sch s) (sz_mod_sch s) dec_tc_mod_ctrl_payload_sch s.
Proof.
  destruct s as [r|p|t]; cbn [sch_ok]; [| |done]; intros Hs; unfold enc_tc_mod_ctrl_payload_sch, dec_tc_mod_ctrl_payload_sch, sz_mod_sch.
  - eapply (wired_eq _ (4 + 4)); [|done]. wire_with ltac:(exact (wired_dummy r Hs)).
  - eapply (wired_eq _ (4 + (4 + 4 * len_q_prio p))); [|lia]. wire_with ltac:(exact (wired_prio p Hs)).
Qed.

Lemma wired_mod_shp m : mod_shp_ok m → wired (enc_tc_mod_ctrl_payload_shp m) 16 dec_tc_mod_ctrl_payload_shp m.
Proof.
  destruct m. intros (? & ? & ? & ?). unfold enc_tc_mod_ctrl_payload_shp, dec_tc_mod_ctrl_payload_shp.
  eapply (wired_eq _ (4 + (4 + (4 + 4)))); [wire_with fail|done].
Qed.

Lemma wired_mod_pcr p : mod_pcr_ok p → wired (enc_tc_mod_ctrl_payload_pcr p) (sz_mod_pcr p) dec_tc_mod_ctrl_payload_pcr p.
Proof.
  destruct p as [d|[b t]|t]; cbn [mod_pcr_ok bdp_drb_sz bdp_tstamp]; [| |done]; intros Hp; unfold enc_tc_mod_ctrl_payload_pcr, dec_tc_mod_ctrl_payload_pcr, sz_mod_pcr.
  - eapply (wired_eq _ (4 + 4)); [|done]. wire_with ltac:(exact (wired_dummy d Hp)).
  - destruct Hp. eapply (wired_eq _ (4 + (4 + 8))); [|done]. eapply wired_seq; [wire_scalar|].
    cbn [mod_pcr_type Z.eqb Pos.eqb]. eapply wired_end; [|intros; reflexivity].
    unfold enc_tc_mod_ctrl_payload_pcr_bdp, dec_tc_mod_ctrl_payload_pcr_bdp. wire_with fail.
Qed.

Definition rd_tc_ctrl_msg : reader tc_ctrl_msg_t := λ it,
  '(type, it) ← rd_scalar CU32 it;
  if type =? 0 then '(c, it) ← dec_tc_ctrl_payload_cls it; Ret (TC_CTRL_SM_V0_CLS c, it)
  else if type =? 1 then '(p, it) ← dec_tc_ctrl_payload_plc it; Ret (TC_CTRL_SM_V0_PLC p, it)
  else if type =? 2 then '(q, it) ← dec_tc_ctrl_payload_q it; Ret (TC_CTRL_SM_V0_QUEUE q, it)
  else if type =? 3 then '(s, it) ← dec_tc_ctrl_payload_sch it; Ret (TC_CTRL_SM_V0_SCH s, it)
  else if type =? 4 then '(s, it) ← dec_tc_ctrl_payload_shp it; Ret (TC_CTRL_SM_V0_SHP s, it)
  else if type =? 5 then '(p, it) ← dec_tc_ctrl_payload_pcr it; Ret (TC_CTRL_SM_V0_PCR p, it)
  else Abort.

Definition w_tc_ctrl_msg (ctrl_msg : tc_ctrl_msg_t) : writer :=
  w_scalar CU32 (tc_ctrl_msg_type ctrl_msg) >>>
  match ctrl_msg with
  | TC_CTRL_SM_V0_CLS c => enc_tc_ctrl_payload_cls c
  | TC_CTRL_SM_V0_PLC p => enc_tc_ctrl_payload_plc p
  | TC_CTRL_SM_V0_QUEUE q => enc_tc_ctrl_payload_q q
  | TC_CTRL_SM_V0_SCH s => enc_tc_ctrl_payload_sch s
  | TC_CTRL_SM_V0_SHP s => enc_tc_ctrl_payload_shp s
  | TC_CTRL_SM_V0_PCR p => enc_tc_ctrl_payload_pcr p
  | TC_CTRL_OTHER _ => w_abort
  end.

(** A new filter of the OSI classifier, and its layer 7 filter, which is not written. *)
Definition added_filter (m : tc_ctrl_msg_t) : option tc_add_cls_osi_t :=
  match m with TC_CTRL_SM_V0_CLS (TC_CTRL_ACTION_SM_V0_ADD (TC_CLS_OSI o)) => Some o | _ => None end.
Definition l7_unset (m : tc_ctrl_msg_t) : Prop := match added_filter m with Some o => tc_dummy (aosi_l7 o) = 0 | None => True end.

Lemma wired_tc_ctrl_msg m : tc_ctrl_msg_ok m → l7_unset m → wired (w_tc_ctrl_msg m) (sz_tc_ctrl m) rd_tc_ctrl_msg m.
Proof.
  intros Hm Hl7. unfold w_tc_ctrl_msg, rd_tc_ctrl_msg, sz_tc_ctrl. destruct m as [c|p|q|s|s|p|t]; cbn [tc_ctrl_msg_ok] in Hm; [..|done].
  - assert (by_act_ok (by_cls_ok (λ o, add_osi_ok o ∧ tc_dummy (aosi_l7 o) = 0)) (by_cls_ok id_ok) (by_cls_ok (λ o, c_ok (mosi_filter o))) c) as Hc
      by (destruct c as [[]| | |]; try done; by split).
    wire_with ltac:(apply (wired_by_act _ _ _ _ _ _ (by_cls_ok (λ o, add_osi_ok o ∧ tc_dummy (aosi_l7 o) = 0)) (by_cls_ok id_ok) (by_cls_ok (λ o, c_ok (mosi_filter o))));
      [intros a; apply wired_by_cls; [apply wired_dummy|intros o [? ?]; by apply wired_add_osi|apply wired_dummy]
      |intros d; apply wired_by_cls; [apply wired_dummy|apply wired_id|apply wired_dummy]
      |intros d; apply wired_by_cls; [apply wired_dummy|apply wired_mod_osi|apply wired_dummy]
      |exact Hc]).
  - wire_with ltac:(by apply (wired_by_act _ _ _ _ _ _ dummy_ok id_ok mod_plc_ok); [apply wired_dummy|apply wired_id|apply wired_mod_plc|]).
  - wire_with ltac:(eapply wired_by_act; [apply wired_add_q|apply wired_del_q|apply wired_mod_q|exact Hm]).
  - wire_with ltac:(by apply (wired_by_act _ _ _ _ _ _ dummy_ok dummy_ok sch_ok); [apply wired_dummy|apply wired_dummy|apply wired_mod_sch|]).
  - wire_with ltac:(by apply (wired_by_act _ _ _ _ _ _ dummy_ok id_ok mod_shp_ok); [apply wired_dummy|apply wired_id|apply wired_mod_shp|]).
  - wire_with ltac:(by apply (wired_by_act _ _ _ _ _ _ dummy_ok dummy_ok mod_pcr_ok); [apply wired_dummy|apply wired_dummy|apply wired_mod_pcr|]).
Qed.

(** ** The sizes computed beforehand *)

Lemma cal_q_shp_plc_ok s p q : length p = length s → length q = length s → Forall q_ok q →
  cal_q_shp_plc (length s) s p q = Ret (92 * Z.of_nat (length s)).
Proof.
  intros Hlp Hlq Hq. revert p q Hlp Hlq Hq. induction s as [|x s IH]; intros [|y p] [|z q] Hlp Hlq Hq; try done.
  injection Hlp as Hlp. injection Hlq as Hlq. apply Forall_cons_1 in Hq as [Hz Hq]. cbn [length cal_q_shp_plc].
  assert (cal_q_payload z = Ret 36) as -> by (unfold cal_q_payload, q_ok in *; destruct (q_conf z); done).
  rewrite outcome_bind_ret_l, IH, outcome_bind_ret_l by done. f_equal. unfold cal_shp_payload, cal_plc_payload, cal_mtr_payload, cal_drp_payload, cal_mrk_payload. lia.
Qed.

Lemma cal_tc_ind_ok m : tc_ind_msg_ok m → cal_ind_msg_payload m = Ret (sz_tc_ind m).
Proof.
  intros (Hs & Hp & Hc & Hn & [Hlsh Hsh] & [Hlpl Hpl] & [Hlq Hq] & Ht). unfold cal_ind_msg_payload, sz_tc_ind.
  assert (cal_sch_payload (tc_sch m) = Ret (sz_sch (tc_sch m))) as ->.
  { destruct (tc_sch m); [done| |done]. cbn [cal_sch_payload sz_sch]. f_equal; lia. }
  assert (cal_cls_payload (tc_cls m) = Ret (sz_cls (tc_cls m))) as ->.
  { unfold cls_ok in Hc. destruct (tc_cls m); [done| |done|done]. unfold cal_cls_payload, cal_cls_osi_payload, sz_cls. rewrite outcome_bind_ret_l. f_equal.
    change (Z.of_nat (sizeof tc_cls_osi_filter_t)) with 48. lia. }
  rewrite !outcome_bind_ret_l. replace (Z.to_nat (len_q m)) with (length (tc_shps m)) by lia.
  rewrite cal_q_shp_plc_ok by (try done; lia). rewrite outcome_bind_ret_l. f_equal. unfold cal_pcr_payload, cal_mtr_payload. lia.
Qed.

Lemma cal_by_act_ok {A D M} (ca : A → outcome Z) (cd : D → outcome Z) (cm : M → outcome Z) ka kd km sa sd sm c :
  (∀ a, ka a → ca a = Ret (sa a)) → (∀ d, kd d → cd d = Ret (sd d)) → (∀ m, km m → cm m = Ret (sm m)) →
  by_act_ok ka kd km c → cal_by_act ca cd cm c = Ret (sz_by_act sa sd sm c).
Proof. intros Ha Hd Hm. destruct c as [a|d|m|t]; cbn; intros Hc; [rewrite Ha by done|rewrite Hd by done|rewrite Hm by done|done]; done. Qed.

Lemma cal_by_cls_ok {O} cr (co : O → Z) cs ko so c : (∀ d, cr d = 4) → (∀ o, co o = so) → (∀ d, cs d = 4) → by_cls_ok ko c →
  cal_by_cls cr co cs c = Ret (sz_by_cls so c).
Proof. intros Hr Ho Hs. destruct c; cbn; intros Hc; [by rewrite Hr|by rewrite Ho|by rewrite Hs|done]. Qed.

Lemma cal_q_add_ok q : ctrl_q_conf_ok q → cal_tc_ctrl_payload_q_add q = Ret (sz_q_conf q).
Proof. by destruct q. Qed.
Lemma cal_q_mod_ok m : u_ok 32 (mq_id m) ∧ ctrl_q_conf_ok (mq_conf m) → cal_tc_ctrl_payload_q_mod m = Ret (4 + sz_q_conf (mq_conf m)).
Proof. destruct m as [i []]; by intros []. Qed.
Lemma cal_sch_mod_ok s : sch_ok s → cal_tc_ctrl_payload_sch_mod s = Ret (sz_mod_sch s).
Proof.
  destruct s as [r|p|t]; intros Hs; [done| |done]. unfold cal_tc_ctrl_payload_sch_mod, cal_tc_ctrl_payload_sch_mod_prio, sz_mod_sch. f_equal. lia.
Qed.
Lemma cal_pcr_mod_ok p : mod_pcr_ok p → cal_tc_ctrl_payload_pcr_mod p = Ret (sz_mod_pcr p).
Proof. by destruct p. Qed.

(** The size of a new filter counts its layer 7 filter. *)
Lemma cal_tc_ctrl_ok m : tc_ctrl_msg_ok m →
  cal_tc_ctrl_payload m = Ret (sz_tc_ctrl m + match added_filter m with Some _ => 4 | None => 0 end).
Proof.
  assert (∀ (o : outcome Z) z, o = Ret z → (sz ← o; Ret (4 + sz)) = Ret (4 + z + 0)) as Hret
    by (intros o z ->; rewrite outcome_bind_ret_l; f_equal; lia).
  intros Hm. destruct m as [c|p|q|s|s|p|t]; cbn [tc_ctrl_msg_ok] in Hm; [..|done]; unfold cal_tc_ctrl_payload, sz_tc_ctrl; cbn [added_filter].
  - destruct c as [[r|o|s|t]|d|md|t]; cbn [added_filter]; try done.
    + apply Hret. unfold cal_tc_ctrl_payload_cls, cal_by_act, sz_by_act. unfold cal_tc_del_ctrl_payload_cls. by rewrite (cal_by_cls_ok _ _ _ id_ok 4).
    + apply Hret. unfold cal_tc_ctrl_payload_cls, cal_by_act, sz_by_act. unfold cal_tc_mod_ctrl_payload_cls.
      by rewrite (cal_by_cls_ok _ _ _ (λ o, c_ok (mosi_filter o)) 48).
  - apply Hret. by apply (cal_by_act_ok _ _ _ dummy_ok id_ok mod_plc_ok).
  - apply Hret. eapply cal_by_act_ok; [apply cal_q_add_ok|done|apply cal_q_mod_ok|exact Hm].
  - apply Hret. by apply (cal_by_act_ok _ _ _ dummy_ok dummy_ok sch_ok); [..|apply cal_sch_mod_ok|].
  - apply Hret. by apply (cal_by_act_ok _ _ _ dummy_ok id_ok mod_shp_ok).
  - apply Hret. by apply (cal_by_act_ok _ _ _ dummy_ok dummy_ok mod_pcr_ok); [..|apply cal_pcr_mod_ok|].
Qed.

(** ** Round trips *)

Lemma tc_dec_ind_msg_rd bs : tc_dec_ind_msg_plain bs = ('(m, it) ← rd_tc_ind_msg bs; at_end it;; Ret m).
Proof.
  unfold tc_dec_ind_msg_plain, rd_tc_ind_msg. destruct (tc_dec_sch bs) as [[s i1]| | | |]; [|done..]. cbn [mbind outcome_bind].
  destruct (rd_before_end i1) as [[? i2]| | | |]; [|done..]. cbn [mbind outcome_bind].
  destruct (tc_dec_pcr i2) as [[p i3]| | | |]; [|done..]. cbn [mbind outcome_bind].
  destruct (rd_before_end i3) as [[? i4]| | | |]; [|done..]. cbn [mbind outcome_bind].
  destruct (tc_dec_cls i4) as [[c i5]| | | |]; [|done..]. cbn [mbind outcome_bind].
  destruct (rd_before_end i5) as [[? i6]| | | |]; [|done..]. cbn [mbind outcome_bind].
  destruct (rd_scalar CU32 i6) as [[n i7]| | | |]; [|done..]. cbn [mbind outcome_bind].
  destruct (rd_before_end i7) as [[? i8]| | | |]; [|done..]. cbn [mbind outcome_bind].
  destruct (dec_shp_plc_q (Z.to_nat n) i8) as [[l i9]| | | |]; [|done..]. cbn [mbind outcome_bind].
  by destruct (rd_scalar CI64 i9) as [[t i10]| | | |].
Qed.

Lemma tc_dec_ctrl_msg_rd bs : (0 < length bs)%nat → tc_dec_ctrl_msg_plain bs = ('(m, it) ← rd_tc_ctrl_msg bs; at_end it;; Ret m).
Proof.
  intros Hl. unfold tc_dec_ctrl_msg_plain, rd_tc_ctrl_msg. rewrite (proj2 (Nat.ltb_lt _ _)) by done. cbn [c_assert mbind outcome_bind].
  by destruct (rd_scalar CU32 bs) as [[t i1]| | | |].
Qed.

Lemma sz_tc_ind_bound m : tc_ind_msg_ok m → sz_tc_ind m < 2 ^ 64.
Proof.
  intros (Hs & _ & Hc & Hn & _). unfold sz_tc_ind, u_ok in *.
  assert (sz_sch (tc_sch m) < 2 ^ 40) by (destruct (tc_sch m); cbn [sz_sch sch_ok] in *; [lia|destruct Hs as [Hs _]; unfold u_ok in Hs; lia|lia]).
  assert (sz_cls (tc_cls m) < 2 ^ 40) by (unfold cls_ok in Hc; destruct (tc_cls m); cbn [sz_cls by_cls_ok] in *; [lia|destruct Hc as [Hc _]; unfold u_ok in Hc; lia|lia|lia]).
  lia.
Qed.

Lemma tc_ind_msg_decoded m : tc_ind_msg_ok m →
  ∃ bs, tc_enc_ind_msg_plain m = Ret bs ∧ Z.of_nat (length bs) = sz_tc_ind m ∧ tc_dec_ind_msg_plain bs = Ret (tc_ind_read m).
Proof.
  intros Hm. destruct (fill_wired _ _ _ _ (wired_tc_ind_msg m Hm) (sz_tc_ind_bound m Hm)) as (bs & Hf & Hl & Hr). exists bs. split_and!; [|done|].
  - unfold tc_enc_ind_msg_plain. by rewrite cal_tc_ind_ok, outcome_bind_ret_l.
  - by rewrite tc_dec_ind_msg_rd, Hr.
Qed.

Lemma sz_tc_ctrl_bound m : tc_ctrl_msg_ok m → 0 < sz_tc_ctrl m < 2 ^ 40.
Proof.
  intros Hm. unfold sz_tc_ctrl. destruct m as [c|p|q|s|s|p|t]; cbn [tc_ctrl_msg_ok] in Hm; [..|done]; unfold sz_by_act, sz_by_cls, sz_q_conf, sz_mod_sch, sz_mod_pcr, four.
  - destruct c as [[]|[]|[]|]; cbn -[Z.pow]; lia.
  - destruct p; cbn -[Z.pow]; lia.
  - destruct q as [[]| |[? []]|]; cbn -[Z.pow]; lia.
  - destruct s as [|?|[r|p|t]|]; cbn -[Z.pow] in Hm |- *; try lia. destruct Hm as [Hm _]. unfold u_ok in Hm. lia.
  - destruct s; cbn -[Z.pow]; lia.
  - destruct p as [|?|[]|]; cbn -[Z.pow]; lia.
Qed.

Lemma tc_ctrl_msg_coded (m : tc_ctrl_msg_t) : tc_ctrl_msg_ok m →
  match added_filter m with
  | Some _ => tc_enc_ctrl_msg_plain m = Abort
  | None => ∃ bs, tc_enc_ctrl_msg_plain m = Ret bs ∧ Z.of_nat (length bs) = sz_tc_ctrl m ∧ tc_dec_ctrl_msg_plain bs = Ret m
  end.
Proof.
  intros Hm. pose proof (sz_tc_ctrl_bound m Hm) as Hsz. pose proof (cal_tc_ctrl_ok m Hm) as Hcal.
  destruct (added_filter m) as [o|] eqn:Ho.
  - assert (∃ o', m = TC_CTRL_SM_V0_CLS (TC_CTRL_ACTION_SM_V0_ADD (TC_CLS_OSI o'))) as [o' ->] by (destruct m as [[[]| | |]| | | | | |]; eauto; done).
    destruct o' as [l3 l4 l7 q]. clear o Ho.
    pose (m' := TC_CTRL_SM_V0_CLS (TC_CTRL_ACTION_SM_V0_ADD (TC_CLS_OSI (mk_tc_add_cls_osi l3 l4 (mk_tc_dummy 0) q)))).
    destruct (wired_tc_ctrl_msg m' Hm eq_refl) as (b & Hl & Hp & _). unfold tc_enc_ctrl_msg_plain. rewrite Hcal, outcome_bind_ret_l.
    change (sz_tc_ctrl m') with 44 in Hl. change (sz_tc_ctrl _) with 44. by apply (fill_puts_short _ b); [exact Hp|lia|].
  - destruct (fill_wired _ _ _ _ (wired_tc_ctrl_msg m Hm ltac:(unfold l7_unset; by rewrite Ho)) ltac:(lia)) as (bs & Hf & Hl & Hr).
    exists bs. split_and!; [|done|].
    + unfold tc_enc_ctrl_msg_plain. rewrite Hcal, outcome_bind_ret_l, Z.add_0_r. exact Hf.
    + by rewrite tc_dec_ctrl_msg_rd, Hr by lia.
Qed.

(** C23. A control message of the TC service model is decoded as it was encoded, but for
    a new filter of the OSI classifier: its size counts the layer 7 filter, which is
    not written, and the encoder aborts. *)
Theorem tc_ctrl_msg_roundtrip (m : tc_ctrl_msg_t) : tc_ctrl_msg_ok m →
  match added_filter m with
  | Some _ => tc_enc_ctrl_msg_plain m = Abort
  | None => ∃ bs, tc_enc_ctrl_msg_plain m = Ret bs ∧ Z.of_nat (length bs) = sz_tc_ctrl m ∧ tc_dec_ctrl_msg_plain bs = Ret m
  end.
Proof. apply tc_ctrl_msg_coded. Qed.

(** ** Examples *)

Definition demo_prio : tc_ctrl_msg_t := TC_CTRL_SM_V0_SCH (TC_CTRL_ACTION_SM_V0_MOD (TC_SCHED_PRIO (mk_tc_sch_prio 3 (Some [2; 0; 1])))).

Lemma demo_prio_ok : tc_ctrl_msg_ok demo_prio.
Proof. by apply (bool_decide_unpack (u32s_ok 3 (Some [2; 0; 1]))). Qed.

Lemma tc_ctrl_msg_roundtrip_witness : tc_ctrl_msg_ok demo_prio ∧
  ∃ bs, tc_enc_ctrl_msg_plain demo_prio = Ret bs ∧ Z.of_nat (length bs) = sz_tc_ctrl demo_prio ∧ tc_dec_ctrl_msg_plain bs = Ret demo_prio.
Proof. exact (conj demo_prio_ok (tc_ctrl_msg_roundtrip demo_prio demo_prio_ok)). Defined.

Definition demo_tc : tc_ind_msg_t :=
  mk_tc_ind_msg (TC_SCHED_RR (mk_tc_dummy 0)) (mk_tc_pcr 1 7 (mk_tc_mtr 100 1065353216))
    (TC_CLS_OSI (mk_tc_cls_osi 1 [mk_tc_cls_osi_filter 3 (mk_L3_filter (-1) 167772161) (mk_L4_filter (-1) 80 6) (mk_tc_dummy 9) 2 (replicate 8 0)]))
    2 [mk_tc_shp 0 1 500 (mk_tc_mtr 10 0); mk_tc_shp 1 0 0 (mk_tc_mtr 10 0)]
    [mk_tc_plc 0 (mk_tc_mtr 1 0) (mk_tc_drp 4) (mk_tc_mrk 5) 1073741824 1 0 1; mk_tc_plc 1 (mk_tc_mtr 1 0) (mk_tc_drp 0) (mk_tc_mrk 0) 0 0 0 0]
    [mk_tc_queue 5 (TC_QUEUE_FIFO (mk_tc_queue_fifo 1 2 3 4 (mk_tc_drp 1) 1065353216 77));
     mk_tc_queue 6 (TC_QUEUE_ECN_CODEL (mk_tc_queue_ecn_codel 1 2 3 4 (mk_tc_mrk 1) 0 99))] 1700000000.

#[export] Instance q_ok_dec q : Decision (q_ok q).
Proof. unfold q_ok. destruct (q_conf q); apply _. Defined.
#[export] Instance tc_ind_msg_ok_dec m : Decision (tc_ind_msg_ok m).
Proof.
  assert (∀ s, Decision (sch_ok s)) by (intros []; cbn; unfold prio_ok; apply _).
  assert (∀ c, Decision (cls_ok c)) by (intros []; unfold cls_ok; cbn; unfold osi_ok; apply _).
  assert (∀ s, Decision (shp_ok s)) by (intros; unfold shp_ok, mtr_ok; apply _).
  assert (∀ p, Decision (plc_ok p)) by (intros; unfold plc_ok, mtr_ok; apply _).
  unfold tc_ind_msg_ok, pcr_ok, mtr_ok. apply _.
Defined.

Lemma demo_tc_ok : tc_ind_msg_ok demo_tc.
Proof. by apply (bool_decide_unpack _). Qed.

(** * The copies

    The copy of an indication message loses the layer 7 filters, the identifiers of the
    queues, their last sojourn times and the maximum rates of the shapers, none of which
    the comparison with the original looks at; it aborts for a float that is not a
    number and for a shaper or policer that is neither active nor inactive. *)

(** ** When, and what *)

Definition switch (a : Z) : bool := (a =? 0) || (a =? 1).
Definition num (b : Z) : bool := negb (f32_nan b).
Definition shp_switch (s : tc_shp_t) : bool := switch (shp_active s).
Definition plc_switch (p : tc_plc_t) : bool := switch (plc_active p).
Definition shp_num (s : tc_shp_t) : bool := num (bnd_flt (shp_mtr s)).
Definition plc_num (p : tc_plc_t) : bool := num (bnd_flt (plc_mtr p)) && num (plc_max_rate_kbps p).
Definition q_num (q : tc_queue_t) : bool :=
  match q_conf q with
  | TC_QUEUE_FIFO q => num (qf_avg_sojourn_time q)
  | TC_QUEUE_CODEL q => num (qc_avg_sojourn_time q)
  | TC_QUEUE_ECN_CODEL q => num (qe_avg_sojourn_time q)
  | QUEUE_OTHER _ => true
  end.
Definition tc_switches (m : tc_ind_msg_t) : bool := forallb shp_switch (tc_shps m) && forallb plc_switch (tc_plcs m).
Definition tc_numbers (m : tc_ind_msg_t) : bool :=
  num (bnd_flt (pcr_mtr (tc_pcr m))) && (forallb shp_num (tc_shps m) && forallb plc_num (tc_plcs m) && forallb q_num (tc_qs m)).

Definition filter_cut (f : tc_cls_osi_filter_t) : tc_cls_osi_filter_t :=
  mk_tc_cls_osi_filter (flt_id f) (flt_l3 f) (flt_l4 f) (mk_tc_dummy 0) (flt_dst_queue f) (replicate 8 0).
Definition cls_cut (c : tc_cls_t) : tc_cls_t :=
  match c with TC_CLS_OSI o => TC_CLS_OSI (mk_tc_cls_osi (osi_len o) (filter_cut <$> osi_flt o)) | _ => c end.
Definition shp_cut (s : tc_shp_t) : tc_shp_t := mk_tc_shp (shp_id s) (shp_active s) 0 (shp_mtr s).
Definition q_cut (q : tc_queue_t) : tc_queue_t :=
  mk_tc_queue 0
    match q_conf q with
    | TC_QUEUE_FIFO q => TC_QUEUE_FIFO (mk_tc_queue_fifo (qf_bytes q) (qf_pkts q) (qf_bytes_fwd q) (qf_pkts_fwd q) (qf_drp q) (qf_avg_sojourn_time q) 0)
    | TC_QUEUE_CODEL q => TC_QUEUE_CODEL (mk_tc_queue_codel (qc_bytes q) (qc_pkts q) (qc_bytes_fwd q) (qc_pkts_fwd q) (qc_drp q) (qc_avg_sojourn_time q) 0)
    | TC_QUEUE_ECN_CODEL q => TC_QUEUE_ECN_CODEL (mk_tc_queue_ecn_codel (qe_bytes q) (qe_pkts q) (qe_bytes_fwd q) (qe_pkts_fwd q) (qe_mrk q) (qe_avg_sojourn_time q) 0)
    | QUEUE_OTHER t => QUEUE_OTHER t
    end.
Definition tc_ind_cut (m : tc_ind_msg_t) : tc_ind_msg_t :=
  mk_tc_ind_msg (tc_sch m) (tc_pcr m) (cls_cut (tc_cls m)) (len_q m) (shp_cut <$> tc_shps m) (tc_plcs m) (q_cut <$> tc_qs m) (tc_tstamp m).

(** ** Each part *)

Lemma eq_float_num b eps : eq_float b b eps = if num b then Ret true else Abort.
Proof. rewrite eq_float_refl. unfold num. by destruct (f32_nan b). Qed.

Lemma eq_mtr_refl m : eq_tc_mtr m m = if num (bnd_flt m) then Ret true else Abort.
Proof. unfold eq_tc_mtr. rewrite Z.eqb_refl. apply eq_float_num. Qed.

Lemma cp_prio_ok p : prio_ok p → cp_tc_sch_prio p = Ret p.
Proof.
  destruct p as [n q]. intros [Hn Hq]. unfold cp_tc_sch_prio. cbn [len_q_prio q_prio] in *. destruct q as [l|].
  - destruct Hq as (<- & H0 & _). rewrite Nat2Z.id. change (default [] (Some l)) with l. rewrite (map_for_ok _ id) by (by apply Forall_true).
    rewrite outcome_bind_ret_l, list_fmap_id. by rewrite (proj2 (Z.ltb_lt _ _)).
  - by rewrite Hq.
Qed.

Lemma cp_sch_ok s : sch_ok s → cp_tc_sch s = Ret s.
Proof. destruct s as [[]|p|t]; cbn [sch_ok cp_tc_sch]; intros Hs; [done|by rewrite cp_prio_ok|done]. Qed.

Lemma eq_sch_refl s : sch_ok s → eq_tc_sch s s = Ret true.
Proof.
  intros Hs. unfold eq_tc_sch. rewrite Z.eqb_refl. destruct s as [r|[n q]|t]; [done| |done]. cbn [negb]. unfold eq_tc_sch_prio. cbn [len_q_prio q_prio].
  rewrite Z.eqb_refl. destruct Hs as [_ Hq]. cbn [q_prio len_q_prio] in Hq. destruct q as [l|].
  - destruct Hq as (<- & _). rewrite Nat2Z.id. change (default [] (Some l)) with l. clear. induction l as [|x l IH]; [done|]. cbn [length eq_arr]. by rewrite Z.eqb_refl.
  - by rewrite Hq.
Qed.

Lemma cp_filter f : cp_tc_cls_osi_filter f = filter_cut f.
Proof. by destruct f as [? [] [] ? ? ?]. Qed.

Lemma cp_cls_ok c : cls_ok c → cp_tc_cls c = Ret (cls_cut c).
Proof.
  destruct c as [[]|[n l]|[]|t]; unfold cls_ok; cbn [by_cls_ok]; intros Hc; [done| |done|done]. destruct Hc as (_ & Hl & _). cbn [osi_len osi_flt] in Hl.
  unfold cp_tc_cls, cp_tc_cls_osi, cls_cut. cbn [osi_len osi_flt]. subst n. rewrite Nat2Z.id, (map_for_ok _ filter_cut); [done|].
  apply Forall_true. intros f. by rewrite cp_filter.
Qed.

Lemma eq_cls_cut c : cls_ok c → eq_tc_cls c (cls_cut c) = Ret true.
Proof.
  destruct c as [[d]|[n l]|[d]|t]; unfold cls_ok; cbn [by_cls_ok]; intros Hc; [|..|done].
  - unfold eq_tc_cls. cbn. by rewrite Z.eqb_refl.
  - destruct Hc as (_ & Hl & _). cbn [osi_len osi_flt] in Hl. unfold eq_tc_cls, cls_cut, eq_tc_cls_osi. cbn [cls_type osi_len osi_flt Z.eqb Pos.eqb negb].
    rewrite Z.eqb_refl. subst n. rewrite Nat2Z.id. clear. induction l as [|f l IH]; [done|]. cbn [length eq_arr fmap list_fmap].
    unfold eq_tc_cls_osi_filter at 1, filter_cut at 1 2 3 4, eq_L3_filter, eq_L4_filter. cbn [flt_id flt_l3 flt_l4 flt_dst_queue]. by rewrite !Z.eqb_refl.
  - unfold eq_tc_cls. cbn. by rewrite Z.eqb_refl.
Qed.

Lemma eq_shp_cut s : eq_tc_shp s (shp_cut s) = if shp_num s then Ret true else Abort.
Proof. unfold eq_tc_shp, shp_cut. cbn [shp_id shp_active shp_mtr]. rewrite !Z.eqb_refl. apply eq_mtr_refl. Qed.

Lemma eq_plc_refl p : eq_tc_plc p p = if plc_num p then Ret true else Abort.
Proof.
  unfold eq_tc_plc, unless, c_and, plc_num. rewrite !Z.eqb_refl, eq_mtr_refl. cbn [negb andb]. destruct (num (bnd_flt (plc_mtr p))); [|done].
  rewrite outcome_bind_ret_l. unfold eq_tc_drp, eq_tc_mrk. rewrite !Z.eqb_refl, eq_float_num. cbn [negb]. by destruct (num (plc_max_rate_kbps p)).
Qed.

Lemma eq_q_cut q : q_ok q → eq_tc_q q (q_cut q) = if q_num q then Ret true else Abort.
Proof.
  destruct q as [i c]. unfold q_ok, q_num, eq_tc_q, q_cut. cbn [q_conf].
  destruct c as [c|c|c|t]; intros Hq; [..|done]; cbn [queue_type Z.eqb Pos.eqb negb];
    unfold eq_tc_queue_fifo, eq_tc_queue_codel, eq_tc_queue_ecn_codel, unless, c_and, eq_tc_drp, eq_tc_mrk; cbn;
    rewrite !Z.eqb_refl; cbn [negb]; rewrite eq_float_num; by destruct (num _).
Qed.

(** ** The three arrays *)

Lemma cp_shp_ok s : cp_tc_shp s = if shp_switch s then Ret (shp_cut s) else Abort.
Proof. unfold cp_tc_shp, shp_switch, switch, shp_cut. destruct s as [? ? ? []]. by destruct (_ || _). Qed.

Lemma cp_plc_ok p : cp_tc_plc p = if plc_switch p then Ret p else Abort.
Proof. unfold cp_tc_plc, plc_switch, switch. destruct p as [a [b c] [d] [e] f g h i]. cbn [plc_active]. by destruct (_ || _). Qed.

Lemma cp_queue_ok q : q_ok q → cp_tc_queue q = Ret (q_cut q).
Proof. destruct q as [i [[? ? ? ? [] ? ?]|[? ? ? ? [] ? ?]|[? ? ? ? [] ? ?]|t]]; by intros Hq. Qed.

Lemma cp_arrays s p q : length p = length s → length q = length s → Forall q_ok q →
  cp_tc_shp_q_plc (length s) s p q = if forallb shp_switch s && forallb plc_switch p then Ret (shp_cut <$> s, p, q_cut <$> q) else Abort.
Proof.
  revert p q. induction s as [|x s IH]; intros [|y p] [|z q] Hlp Hlq Hq; try done.
  injection Hlp as Hlp. injection Hlq as Hlq. apply Forall_cons_1 in Hq as [Hz Hq]. cbn [length cp_tc_shp_q_plc forallb fmap list_fmap].
  rewrite cp_queue_ok, outcome_bind_ret_l, cp_shp_ok by done. destruct (shp_switch x); [|done]. rewrite outcome_bind_ret_l, cp_plc_ok.
  destruct (plc_switch y); cbn [andb]; [|by rewrite andb_false_r]. rewrite outcome_bind_ret_l, IH by done. by destruct (forallb shp_switch s && _).
Qed.

Lemma eq_arrays s p q : length p = length s → length q = length s → Forall q_ok q →
  eq_shp_plc_q (length s) s (shp_cut <$> s) p p q (q_cut <$> q) = if forallb shp_num s && forallb plc_num p && forallb q_num q then Ret true else Abort.
Proof.
  revert p q. induction s as [|x s IH]; intros [|y p] [|z q] Hlp Hlq Hq; try done.
  injection Hlp as Hlp. injection Hlq as Hlq. apply Forall_cons_1 in Hq as [Hz Hq]. cbn [length eq_shp_plc_q forallb fmap list_fmap].
  rewrite eq_shp_cut. destruct (shp_num x); [|done]. rewrite outcome_bind_ret_l. cbn [c_assert]. rewrite outcome_bind_ret_l, eq_plc_refl. cbn [andb].
  destruct (plc_num y); cbn [andb]; [|by rewrite andb_false_r]. rewrite outcome_bind_ret_l. cbn [c_assert]. rewrite outcome_bind_ret_l, eq_q_cut by done.
  destruct (q_num z); cbn [andb]; [|by rewrite andb_false_r]. rewrite outcome_bind_ret_l. cbn [c_assert]. rewrite outcome_bind_ret_l. by apply IH.
Qed.

Lemma cp_tc_ind_ok m : tc_ind_msg_ok m → cp_tc_ind_msg m = if tc_switches m && tc_numbers m then Ret (tc_ind_cut m) else Abort.
Proof.
  intros (Hs & Hp & Hc & Hn & [Hlsh Hsh] & [Hlpl Hpl] & [Hlq Hq] & Ht). unfold cp_tc_ind_msg.
  rewrite cp_sch_ok, outcome_bind_ret_l, cp_cls_ok, outcome_bind_ret_l by done. replace (Z.to_nat (len_q m)) with (length (tc_shps m)) by lia.
  rewrite cp_arrays by (try done; lia). unfold tc_switches. destruct (forallb shp_switch _ && _); [|done]. rewrite outcome_bind_ret_l. cbv beta iota zeta.
  assert (cp_tc_pcr (tc_pcr m) = tc_pcr m) as -> by (by destruct (tc_pcr m) as [? ? []]). fold (tc_ind_cut m).
  unfold eq_tc_ind_msg, tc_ind_cut at 1 2 3 4 5 6 7 8. cbn [tc_sch tc_pcr tc_cls len_q tc_shps tc_plcs tc_qs tc_tstamp].
  rewrite Z.eqb_refl, eq_sch_refl, outcome_bind_ret_l by done. cbn [c_assert]. rewrite !outcome_bind_ret_l.
  unfold eq_tc_pcr. rewrite !Z.eqb_refl, eq_mtr_refl. cbn [negb]. unfold tc_numbers. destruct (num (bnd_flt _)); [|done].
  rewrite outcome_bind_ret_l. cbn [c_assert andb]. rewrite outcome_bind_ret_l, eq_cls_cut by done. rewrite outcome_bind_ret_l. cbn [c_assert].
  rewrite outcome_bind_ret_l. cbn [c_assert]. rewrite outcome_bind_ret_l. replace (Z.to_nat (len_q m)) with (length (tc_shps m)) by lia.
  rewrite eq_arrays by (try done; lia). by destruct (forallb shp_num _ && _ && _).
Qed.

(** ** Copies of what the decoder made *)

Lemma tc_ind_read_ok m : tc_ind_msg_ok m → tc_ind_msg_ok (tc_ind_read m).
Proof.
  intros (Hs & Hp & Hc & Hn & Hsh & Hpl & [Hlq Hq] & Ht). unfold tc_ind_msg_ok, tc_ind_read. cbn [tc_sch tc_pcr tc_cls len_q tc_shps tc_plcs tc_qs tc_tstamp].
  refine (conj _ (conj Hp (conj Hc (conj Hn (conj Hsh (conj Hpl (conj (conj _ _) Ht))))))).
  - destruct (tc_sch m); [done|exact Hs|done].
  - by rewrite length_fmap.
  - apply Forall_fmap. eapply Forall_impl; [|exact Hq]. by intros [].
Qed.

Lemma tc_numbers_read m : tc_numbers (tc_ind_read m) = tc_numbers m.
Proof.
  unfold tc_numbers, tc_ind_read. cbn [tc_pcr tc_shps tc_plcs tc_qs]. do 2 f_equal. induction (tc_qs m) as [|q l IH]; [done|].
  cbn [fmap list_fmap forallb]. f_equal. exact IH.
Qed.

(** C24. An indication message of the TC service model is decoded from what the E2 node
    wrote, and the copy for the database is the message with the layer 7 filters, the
    queue identifiers, the last sojourn times and the shapers' maximum rates at 0; the
    copy aborts exactly when a shaper or policer has another state than 0 and 1, or a
    float is not a number. *)
Theorem tc_statistics_copied (m : tc_ind_msg_t) : tc_ind_msg_ok m →
  ∃ bs d, tc_enc_ind_msg_plain m = Ret bs ∧ Z.of_nat (length bs) = sz_tc_ind m ∧ tc_dec_ind_msg_plain bs = Ret d ∧
    cp_tc_ind_msg d = if tc_switches m && tc_numbers m then Ret (tc_ind_cut (tc_ind_read m)) else Abort.
Proof.
  intros Hm. destruct (tc_ind_msg_decoded m Hm) as (bs & He & Hl & Hd). exists bs, (tc_ind_read m). split_and!; [done..|].
  rewrite cp_tc_ind_ok by (by apply tc_ind_read_ok). by rewrite tc_numbers_read.
Qed.

Lemma tc_statistics_copied_witness : tc_ind_msg_ok demo_tc ∧
  ∃ bs d, tc_enc_ind_msg_plain demo_tc = Ret bs ∧ Z.of_nat (length bs) = sz_tc_ind demo_tc ∧ tc_dec_ind_msg_plain bs = Ret d ∧
    cp_tc_ind_msg d = if tc_switches demo_tc && tc_numbers demo_tc then Ret (tc_ind_cut (tc_ind_read demo_tc)) else Abort.
Proof. exact (conj demo_tc_ok (tc_statistics_copied demo_tc demo_tc_ok)). Defined.
