(* ===== verification/SeqArr.v ===== *)
(** * The growing array [seq_arr_t]

    [src/src/util/alg_ds/ds/seq_container/seq_arr.c] and [find_if_arr] of
    [src/src/util/alg_ds/alg/find.c].

    [data] holds the elements of the live part of the buffer, so the [size] of
    the code is its length; [alloc] is the number of bytes the buffer was
    allocated with, which the C program does not keep: a write past it is
    undefined behaviour.  Iterators are indices. *)
From S2P Require Import Prelude.

Section seq_arr.
Context {A : Type}.

Record seq_arr_t := mk_seq_arr_t {
  data : list A;
  elt_size : Z;
  cap : Z;
  alloc : Z }.

Definition SEQ_ARR_MIN_SIZE : Z := 8.

Definition seq_arr_size (arr : seq_arr_t) : Z := Z.of_nat (length (data arr)).

(** [(int)z] and [(int32_t)z]: the low 32 bits as a signed number. *)
Definition to_int32 (z : Z) : Z :=
  let u := wrap 32 z in if (u <? 2 ^ 31)%Z then u else (u - 2 ^ 32)%Z.

(** [realloc] to twice the capacity when one more element fills the array. *)
Definition maybe_expand (arr : seq_arr_t) : seq_arr_t :=
  if (seq_arr_size arr + 1 =? cap arr)%Z
  then mk_seq_arr_t (data arr) (elt_size arr) (cap arr * 2) (2 * cap arr * elt_size arr)
  else arr.

(** The buffer of the shrunk array is [calloc(tmp.cap, tmp.cap)]: as many bytes
    as the square of the new capacity.  The occupancy is compared as
    [4 * size < cap], which is what the comparison of the [float] quotient with
    0.25 decides for the powers of two [cap] takes, up to sizes of 2^24. *)
Definition maybe_shrink (arr : seq_arr_t) : outcome seq_arr_t :=
  let size := seq_arr_size arr in
  if ((SEQ_ARR_MIN_SIZE <? size) && (4 * size <? cap arr))%Z then
    c_assert (SEQ_ARR_MIN_SIZE <? cap arr)%Z;;
    let cap' := (cap arr / 2)%Z in
    c_assert (size <=? cap')%Z;;
    in_bounds (size * elt_size arr <=? cap' * cap')%Z;;
    Ret (mk_seq_arr_t (data arr) (elt_size arr) cap' (cap' * cap'))
  else Ret arr.

Definition seq_arr_init (elt_size : Z) : seq_arr_t :=
  mk_seq_arr_t [] elt_size SEQ_ARR_MIN_SIZE (SEQ_ARR_MIN_SIZE * elt_size).

Definition seq_arr_push_back (arr : seq_arr_t) (x : A) (len : Z) : outcome seq_arr_t :=
  c_assert (len =? elt_size arr)%Z;;
  let arr := maybe_expand arr in
  let offset := (seq_arr_size arr * elt_size arr)%Z in
  in_bounds (offset + elt_size arr <=? alloc arr)%Z;;
  Ret (mk_seq_arr_t (data arr ++ [x]) (elt_size arr) (cap arr) (alloc arr)).

Definition seq_arr_front (arr : seq_arr_t) : nat := 0.
Definition seq_arr_end (arr : seq_arr_t) : nat := length (data arr).
Definition seq_arr_next (arr : seq_arr_t) (it : nat) : nat := S it.
Definition seq_arr_equal (arr : seq_arr_t) (it_1 it_2 : nat) : bool := it_1 =? it_2.

(** [seq_arr_erase(arr, start_it, end_it)] moves the tail down; the counts of
    bytes are [int]s. *)
Definition seq_arr_erase (arr : seq_arr_t) (start_it end_it : nat) : outcome seq_arr_t :=
  c_assert (start_it <=? end_it);;
  if start_it =? end_it then Ret arr else
  let num_bytes_move :=
    to_int32 ((Z.of_nat (seq_arr_end arr) - Z.of_nat end_it) * elt_size arr) in
  c_assert (-1 <? num_bytes_move)%Z;;
  let num_bytes_erase := to_int32 ((Z.of_nat end_it - Z.of_nat start_it) * elt_size arr) in
  let num_elm_erase := to_int32 (wrap 64 num_bytes_erase / elt_size arr) in
  c_assert (0 <? num_elm_erase)%Z;;
  maybe_shrink (mk_seq_arr_t (take start_it (data arr) ++ drop end_it (data arr))
                  (elt_size arr) (cap arr) (alloc arr)).

Definition seq_arr_at (arr : seq_arr_t) (pos : Z) : outcome A :=
  c_assert (pos <? seq_arr_size arr)%Z;;
  match data arr !! Z.to_nat pos with Some x => Ret x | None => Undef end.

Definition seq_arr_dist (arr : seq_arr_t) (first last : nat) : outcome Z :=
  let pos := (Z.of_nat last - Z.of_nat first)%Z in
  c_assert (-1 <? pos)%Z;;
  Ret pos.

(** The loop of [seq_arr_free]: what [free_func] is called with. *)
Fixpoint seq_arr_free_loop (fuel it end_it : nat) (arr : seq_arr_t) : outcome (list A) :=
  match fuel with
  | O => NoFuel
  | S fuel =>
      if it =? end_it then Ret []
      else
        x ← match data arr !! it with Some x => Ret x | None => Undef end;
        l ← seq_arr_free_loop fuel (seq_arr_next arr it) end_it arr;
        Ret (x :: l)
  end.

(** [free_func]: is there a function to call. *)
Definition seq_arr_free (free_func : bool) (arr : seq_arr_t) : outcome (list A) :=
  if free_func then seq_arr_free_loop (S (length (data arr))) (seq_arr_front arr) (seq_arr_end arr) arr else Ret [].

Definition seq_arr_value (arr : seq_arr_t) (it : nat) : outcome A := Abort.

(** The loop of [find_if_arr] from an iterator up to the end iterator. *)
Fixpoint find_if_from (f : A → bool) (l : list A) (it : nat) : nat :=
  match l with
  | [] => it
  | x :: l' => if f x then it else find_if_from f l' (S it)
  end.

Definition find_if_arr (arr : seq_arr_t) (start_it end_it : nat) (f : A → bool) : nat :=
  find_if_from f (drop start_it (take end_it (data arr))) start_it.

(** ** Properties *)

(** The invariant: the capacity is 8 times a power of two, there is room for
    one more element, and the buffer has the bytes of [cap] elements. *)
Record seq_arr_wf (arr : seq_arr_t) : Prop := {
  wf_elt : (0 < elt_size arr)%Z;
  wf_cap : ∃ k, (0 ≤ k)%Z ∧ cap arr = (2 ^ (3 + k))%Z;
  wf_room : (seq_arr_size arr < cap arr)%Z;
  wf_alloc : (cap arr * elt_size arr ≤ alloc arr)%Z }.

Lemma seq_arr_init_wf es : (0 < es)%Z → seq_arr_wf (seq_arr_init es).
Proof.
  intros Hes. split; [done|by exists 0%Z|done|]. unfold seq_arr_init, SEQ_ARR_MIN_SIZE. cbn. lia.
Qed.

Lemma seq_arr_cap_min arr : seq_arr_wf arr → (8 ≤ cap arr)%Z.
Proof.
  intros [_ (k & Hk & ->) _ _]. rewrite Z.pow_add_r by lia. change (2 ^ 3)%Z with 8%Z.
  pose proof (Z.pow_pos_nonneg 2 k). lia.
Qed.

(** The capacities: a power of two above 36 is at least 64. *)
Lemma pow2_gap k n : (0 ≤ k)%Z → (0 ≤ n)%Z → (2 ^ n < 2 ^ k)%Z → (2 ^ (n + 1) ≤ 2 ^ k)%Z.
Proof.
  intros Hk Hn H. apply Z.pow_lt_mono_r_iff in H; [|lia|done].
  apply Z.pow_le_mono_r; lia.
Qed.

(** [push_back] appends, keeps the invariant, and never writes outside. *)
Lemma seq_arr_push_back_wf arr x : seq_arr_wf arr →
  ∃ arr', seq_arr_push_back arr x (elt_size arr) = Ret arr' ∧
          data arr' = data arr ++ [x] ∧ elt_size arr' = elt_size arr ∧ seq_arr_wf arr'.
Proof.
  intros Hwf. pose proof (seq_arr_cap_min _ Hwf) as Hmin.
  destruct Hwf as [He (k & Hk & Hcap) Hroom Halloc].
  unfold seq_arr_push_back, maybe_expand. rewrite Z.eqb_refl, c_assert_bind.
  destruct (Z.eqb_spec (seq_arr_size arr + 1) (cap arr)) as [Hfull|Hfull];
    cbn [data elt_size cap alloc seq_arr_size]; rewrite in_bounds_bind;
    unfold seq_arr_size in *; cbn [data] in *; rewrite (proj2 (Z.leb_le _ _)) by nia;
    eexists; (split; [done|]); cbn; (do 2 (split; [done|]));
    (split; cbn; [done| |unfold seq_arr_size; cbn; rewrite length_app; cbn; lia|nia]).
  - exists (k + 1)%Z. rewrite Hcap. split; [lia|].
    replace (3 + (k + 1))%Z with (Z.succ (3 + k)) by lia. rewrite Z.pow_succ_r; lia.
  - by exists k.
Qed.

Lemma to_int32_small z : (0 ≤ z < 2 ^ 31)%Z → to_int32 z = z.
Proof.
  intros Hz. unfold to_int32. rewrite wrap_id by (unfold u_ok; lia).
  by rewrite (proj2 (Z.ltb_lt _ _)) by lia.
Qed.

(** A count of bytes between two iterators is not changed by its [int]. *)
Lemma to_int32_bytes a n es : (0 ≤ a ≤ n)%Z → (0 < es)%Z → (n * es < 2 ^ 31)%Z →
  to_int32 (a * es) = (a * es)%Z ∧ (0 ≤ a * es < 2 ^ 31)%Z.
Proof. intros Ha He Hb. assert (0 ≤ a * es < 2 ^ 31)%Z by nia. split; [by apply to_int32_small|done]. Qed.

(** Shrinking keeps the invariant when an element has at most 32 bytes: the
    shrunk capacity is at least 32. *)
Lemma maybe_shrink_wf arr : seq_arr_wf arr → (elt_size arr ≤ 32)%Z →
  ∃ arr', maybe_shrink arr = Ret arr' ∧ data arr' = data arr ∧
          elt_size arr' = elt_size arr ∧ seq_arr_wf arr'.
Proof.
  intros Hwf He32. pose proof (seq_arr_cap_min _ Hwf) as Hmin.
  pose proof Hwf as [He (k & Hk & Hcap) Hroom Halloc]. unfold maybe_shrink, SEQ_ARR_MIN_SIZE.
  destruct (_ && _) eqn:Hc; [|by exists arr].
  apply andb_true_iff in Hc as [Hc1 Hc2]. apply Z.ltb_lt in Hc1, Hc2.
  assert (2 ^ (5 + 1) ≤ cap arr)%Z as H64.
  { rewrite Hcap. apply pow2_gap; [lia..|]. rewrite <-Hcap. lia. }
  change (2 ^ (5 + 1))%Z with 64%Z in H64.
  assert (1 ≤ k)%Z as Hk1.
  { destruct (decide (k = 0)%Z) as [->|]; [|lia]. change (2 ^ (3 + 0))%Z with 8%Z in Hcap. lia. }
  assert (cap arr = 2 * 2 ^ (3 + (k - 1)))%Z as H2.
  { rewrite Hcap, <-Z.pow_succ_r by lia. f_equal. lia. }
  assert (cap arr / 2 = 2 ^ (3 + (k - 1)))%Z as Hhalf.
  { rewrite H2, Z.mul_comm. by apply Z.div_mul. }
  rewrite Hhalf. set (c := (2 ^ (3 + (k - 1)))%Z) in *.
  rewrite !c_assert_bind, in_bounds_bind.
  rewrite (proj2 (Z.ltb_lt _ _)), !(proj2 (Z.leb_le _ _)) by nia.
  eexists. split; [done|]. do 2 (split; [done|]).
  unfold seq_arr_size in *. split; unfold seq_arr_size; cbn; [done| |lia|nia].
  exists (k - 1)%Z. split; [lia|done].
Qed.

(** In range, the byte counts of [erase] are what they should be. *)
Lemma seq_arr_erase_eq arr i j : seq_arr_wf arr →
  (seq_arr_size arr * elt_size arr < 2 ^ 31)%Z → i < j ≤ length (data arr) →
  seq_arr_erase arr i j =
  maybe_shrink (mk_seq_arr_t (take i (data arr) ++ drop j (data arr))
                  (elt_size arr) (cap arr) (alloc arr)).
Proof.
  intros [He _ _ _] Hb Hij. unfold seq_arr_erase, seq_arr_end, seq_arr_size in *.
  rewrite (proj2 (Nat.leb_le _ _)), c_assert_bind by lia.
  rewrite (proj2 (Nat.eqb_neq _ _)) by lia.
  destruct (to_int32_bytes (Z.of_nat (length (data arr)) - Z.of_nat j)
    (Z.of_nat (length (data arr))) (elt_size arr)) as [-> Hm]; [lia..|].
  destruct (to_int32_bytes (Z.of_nat j - Z.of_nat i)
    (Z.of_nat (length (data arr))) (elt_size arr)) as [-> Hn]; [lia..|].
  rewrite (proj2 (Z.ltb_lt (-1) _)), c_assert_bind by lia.
  rewrite wrap_id by (unfold u_ok; lia).
  rewrite Z.div_mul by lia. rewrite to_int32_small by nia.
  by rewrite (proj2 (Z.ltb_lt 0 _)), c_assert_bind by lia.
Qed.

(** [erase] removes the range: for elements of at most 32 bytes and fewer than
    2^31 bytes of live elements (the counts are [int]s). *)
Lemma seq_arr_erase_wf arr i j : seq_arr_wf arr → (elt_size arr ≤ 32)%Z →
  (seq_arr_size arr * elt_size arr < 2 ^ 31)%Z → i ≤ j ≤ length (data arr) →
  ∃ arr', seq_arr_erase arr i j = Ret arr' ∧
          data arr' = take i (data arr) ++ drop j (data arr) ∧
          elt_size arr' = elt_size arr ∧ seq_arr_wf arr'.
Proof.
  intros Hwf He32 Hb Hij. destruct (decide (i = j)) as [->|Hne].
  { exists arr. unfold seq_arr_erase. rewrite Nat.leb_refl, Nat.eqb_refl. by rewrite take_drop. }
  rewrite seq_arr_erase_eq by (done || lia).
  pose proof Hwf as [He (k & Hk & Hcap) Hroom Halloc].
  edestruct maybe_shrink_wf as (arr' & -> & Hd & He' & Hwf').
  3:{ exists arr'. split; [done|]. by rewrite Hd, He'. }
  - split; cbn; [done|by exists k| |done].
    unfold seq_arr_size in *. cbn. rewrite length_app, length_take, length_drop. lia.
  - done.
Qed.

(** A program over one array. *)
Inductive seq_arr_op := PushBack (x : A) | Erase (i j : nat).

Definition seq_arr_step (arr : seq_arr_t) (op : seq_arr_op) : outcome seq_arr_t :=
  match op with
  | PushBack x => seq_arr_push_back arr x (elt_size arr)
  | Erase i j => seq_arr_erase arr i j
  end.

Fixpoint seq_arr_run (arr : seq_arr_t) (ops : list seq_arr_op) : outcome seq_arr_t :=
  match ops with
  | [] => Ret arr
  | op :: ops' => arr ← seq_arr_step arr op; seq_arr_run arr ops'
  end.

(** The sequence the array stands for. *)
Definition list_step (l : list A) (op : seq_arr_op) : list A :=
  match op with
  | PushBack x => l ++ [x]
  | Erase i j => take i l ++ drop j l
  end.

(** The program only erases ranges of the array and keeps the live elements
    below 2^31 bytes. *)
Fixpoint ops_ok (es : Z) (l : list A) (ops : list seq_arr_op) : Prop :=
  match ops with
  | [] => True
  | op :: ops' =>
      (Z.of_nat (length l) * es < 2 ^ 31)%Z ∧
      match op with PushBack _ => True | Erase i j => i ≤ j ≤ length l end ∧
      ops_ok es (list_step l op) ops'
  end.

(** For elements of at most 32 bytes, every program of pushes and erasures in
    range runs without aborting or leaving its buffer and computes the list. *)
Theorem seq_arr_run_refines es ops :
  (0 < es ≤ 32)%Z → ops_ok es [] ops →
  ∃ arr, seq_arr_run (seq_arr_init es) ops = Ret arr ∧
         data arr = foldl list_step [] ops ∧ seq_arr_wf arr.
Proof.
  intros Hes. pose proof (seq_arr_init_wf es ltac:(lia)) as Hwf.
  change (ops_ok es [] ops) with (ops_ok es (data (seq_arr_init es)) ops).
  change (foldl list_step [] ops) with (foldl list_step (data (seq_arr_init es)) ops).
  assert (elt_size (seq_arr_init es) = es) as He by done.
  revert Hwf He. generalize (seq_arr_init es) as arr.
  induction ops as [|op ops IH]; intros arr Hwf He Hok; [by exists arr|].
  destruct Hok as (Hb & Hop & Hok). cbn [seq_arr_run foldl seq_arr_step].
  assert (∃ arr', seq_arr_step arr op = Ret arr' ∧ data arr' = list_step (data arr) op ∧
                  elt_size arr' = elt_size arr ∧ seq_arr_wf arr') as (arr' & -> & Hd & He' & Hwf').
  { destruct op as [x|i j]; cbn.
    - by apply seq_arr_push_back_wf.
    - apply seq_arr_erase_wf; [done|lia| |done]. unfold seq_arr_size. by rewrite He. }
  rewrite outcome_bind_ret_l. rewrite <-Hd in *. apply IH; [done|congruence|done].
Qed.

(** The shrunk buffer has the square of its capacity in bytes, whatever the size
    of an element: when the [n] elements left by an erasure trigger a shrink and
    have more bytes than that, they are copied past its end. *)
Theorem seq_arr_erase_overruns arr i j :
  seq_arr_wf arr → (seq_arr_size arr * elt_size arr < 2 ^ 31)%Z → i < j ≤ length (data arr) →
  let n := Z.of_nat (length (data arr) - (j - i)) in
  (8 < n)%Z → (4 * n < cap arr)%Z → ((cap arr / 2) * (cap arr / 2) < n * elt_size arr)%Z →
  seq_arr_erase arr i j = Undef.
Proof.
  intros Hwf Hb Hij n Hn Hc Hbytes. rewrite seq_arr_erase_eq by (done || lia).
  assert (Z.of_nat (length (take i (data arr) ++ drop j (data arr))) = n) as Hlen.
  { unfold n. rewrite length_app, length_take, length_drop. lia. }
  unfold maybe_shrink, seq_arr_size, SEQ_ARR_MIN_SIZE. cbn [data cap elt_size]. rewrite Hlen.
  rewrite !(proj2 (Z.ltb_lt _ _)) by lia. cbn [andb]. rewrite !c_assert_bind, in_bounds_bind.
  pose proof (Z.div_le_lower_bound (cap arr) 2 n ltac:(lia) ltac:(lia)).
  rewrite (proj2 (Z.leb_le _ _)), (proj2 (Z.leb_gt _ _)) by lia. done.
Qed.

Lemma find_if_from_spec f l it :
  let r := find_if_from f l it in
  it ≤ r ≤ it + length l ∧
  (∀ i, it ≤ i < r → ∃ x, l !! (i - it) = Some x ∧ f x = false) ∧
  (r < it + length l → ∃ x, l !! (r - it) = Some x ∧ f x = true).
Proof.
  revert it. induction l as [|x l IH]; intros it; cbn -[Nat.sub].
  - split; [lia|]. split; intros; lia.
  - destruct (f x) eqn:Hf.
    + split; [lia|]. split; [lia|]. intros _. exists x. by rewrite Nat.sub_diag.
    + destruct (IH (S it)) as (Hr & Hb & Hfound). split; [lia|]. split.
      * intros i Hi. destruct (decide (i = it)) as [->|].
        -- exists x. by rewrite Nat.sub_diag.
        -- destruct (Hb i ltac:(lia)) as (y & Hy & Hfy). exists y.
           replace (i - it) with (S (i - S it)) by lia. done.
      * intros Hlt. destruct (Hfound ltac:(lia)) as (y & Hy & Hfy). exists y.
        replace (find_if_from f l (S it) - it) with (S (find_if_from f l (S it) - S it)) by lia.
        done.
Qed.

(** Freeing an array gives every element to the function, once and in order. *)
Lemma seq_arr_free_ok arr : seq_arr_free true arr = Ret (data arr).
Proof.
  unfold seq_arr_free, seq_arr_front, seq_arr_end.
  assert (∀ l2 l1 fuel, data arr = l1 ++ l2 → length l2 < fuel →
    seq_arr_free_loop fuel (length l1) (length (data arr)) arr = Ret l2) as H; [|apply (H _ []); [done|lia]].
  induction l2 as [|x l2 IH]; intros l1 [|fuel] Hl Hf; cbn [length] in Hf; try lia; cbn [seq_arr_free_loop].
  - rewrite Hl, app_nil_r, Nat.eqb_refl. done.
  - rewrite (proj2 (Nat.eqb_neq _ _)) by (rewrite Hl, length_app; cbn; lia).
    assert (data arr !! length l1 = Some x) as -> by (rewrite Hl, lookup_app_r by lia; by rewrite Nat.sub_diag).
    rewrite outcome_bind_ret_l. unfold seq_arr_next. replace (S (length l1)) with (length (l1 ++ [x])) by (rewrite length_app; cbn; lia).
    rewrite (IH (l1 ++ [x])); [done|by rewrite Hl, <-app_assoc|lia].
Qed.

(** [find_if_arr] over the whole array: the first element that satisfies the
    predicate, the end iterator when there is none. *)
Theorem find_if_arr_spec arr f :
  let r := find_if_arr arr (seq_arr_front arr) (seq_arr_end arr) f in
  r ≤ seq_arr_end arr ∧
  (∀ i x, i < r → data arr !! i = Some x → f x = false) ∧
  (r < seq_arr_end arr → ∃ x, data arr !! r = Some x ∧ f x = true).
Proof.
  unfold find_if_arr, seq_arr_front, seq_arr_end. rewrite drop_0, take_ge by lia.
  destruct (find_if_from_spec f (data arr) 0) as (Hr & Hb & Hf). cbn in Hr.
  split; [lia|]. split.
  - intros i x Hi Hx. destruct (Hb i ltac:(lia)) as (y & Hy & Hfy).
    rewrite Nat.sub_0_r in Hy. congruence.
  - intros Hlt. destruct (Hf Hlt) as (x & Hx & Hfx). rewrite Nat.sub_0_r in Hx. eauto.
Qed.

End seq_arr.
Arguments seq_arr_t : clear implicits.
Arguments seq_arr_op : clear implicits.

(** *** Witnesses *)

Lemma seq_arr_run_refines_witness :
  ∃ arr, seq_arr_run (seq_arr_init 4) ((PushBack <$> seq 0 40) ++ [Erase 1 31]) = Ret arr ∧
         data arr = 0 :: seq 31 9 ∧ seq_arr_wf arr.
Proof.
  destruct (seq_arr_run_refines 4 ((PushBack <$> seq 0 40) ++ [Erase 1 31]))
    as (arr & Hr & Hd & Hw); [lia| |].
  - cbn [fmap list_fmap seq app]. repeat (split; [cbn; lia|]). exact I.
  - exists arr. split; [exact Hr|]. split; [rewrite Hd; reflexivity|exact Hw].
Defined.

(** Elements of 100 bytes: 32 pushes lead to capacity 64, and erasing 17 of them
    copies 1500 bytes into 1024. *)
Definition arr_of_32 : seq_arr_t nat := mk_seq_arr_t (seq 0 32) 100 64 6400.

Lemma arr_of_32_reached :
  seq_arr_run (seq_arr_init 100) (PushBack <$> seq 0 32) = Ret arr_of_32.
Proof. reflexivity. Qed.

Lemma seq_arr_erase_overruns_witness : seq_arr_erase arr_of_32 0 17 = Undef.
Proof.
  apply (seq_arr_erase_overruns arr_of_32 0 17); [|first [done|cbn; lia]..].
  split; [done|by exists 3%Z|done|done].
Defined.
