(* ===== verification/SeqRing.v ===== *)
(** * The ring buffer [seq_ring_t] and the queue [tsq_t]

    [src/src/util/alg_ds/ds/seq_container/seq_ring.c] and
    [src/src/util/alg_ds/ds/tsq/tsq.c].

    [head] and [tail] are free-running [uint32_t] counters, masked to a position
    of [array] when used, so they wrap.  A cell is [None] where the memory is
    zeroed.  Iterators are positions.  The mutex of [tsq_t] makes each of its
    operations atomic; an operation is a function of the queue.  At the end: what the
    loops over a ring read, and [seq_ring_free]. *)
From S2P Require Import Prelude.

Section seq_ring.
Context {A : Type}.

Record seq_ring_t := mk_seq_ring_t {
  array : list (option A);
  head : Z;
  tail : Z;
  elt_size : Z;
  cap : Z }.

Definition DEFAULT_ELM : Z := 32.

Definition mask (cap val : Z) : Z := Z.land val (wrap 32 (wrap 32 cap - 1)).

Definition seq_ring_size (r : seq_ring_t) : Z := wrap 32 (head r - tail r).

Definition full (r : seq_ring_t) : bool := (seq_ring_size r =? wrap 64 (cap r - 1))%Z.

(** [memcpy] of the cells [a, b) of the array. *)
Definition slice (l : list (option A)) (a b : Z) : list (option A) :=
  take (Z.to_nat (b - a)) (drop (Z.to_nat a) l).

Definition enlarge_buffer (r : seq_ring_t) : outcome seq_ring_t :=
  c_assert (full r);;
  let factor := 2%Z in
  let head_pos := mask (cap r) (head r) in
  let tail_pos := mask (cap r) (tail r) in
  let copied :=
    if (tail_pos <? head_pos)%Z then slice (array r) tail_pos head_pos
    else slice (array r) tail_pos (cap r) ++ slice (array r) 0 head_pos in
  let cap' := (cap r * factor)%Z in
  in_bounds (Z.of_nat (length copied) <=? cap')%Z;;
  Ret (mk_seq_ring_t (copied ++ replicate (Z.to_nat cap' - length copied) None)
         (wrap 32 (cap' / 2 - 1)) 0 (elt_size r) cap').

Definition seq_ring_init (elt_size : Z) : seq_ring_t :=
  mk_seq_ring_t (replicate (Z.to_nat DEFAULT_ELM) None) 0 0 elt_size DEFAULT_ELM.

Definition seq_ring_push_back (r : seq_ring_t) (x : A) (len : Z) : outcome seq_ring_t :=
  c_assert (len =? elt_size r)%Z;;
  r ← (if full r then enlarge_buffer r else Ret r);
  let pos := mask (cap r) (head r) in
  in_bounds (pos <? Z.of_nat (length (array r)))%Z;;
  Ret (mk_seq_ring_t (<[Z.to_nat pos := Some x]> (array r))
         (wrap 32 (head r + 1)) (tail r) (elt_size r) (cap r)).

Definition seq_ring_front (r : seq_ring_t) : Z := mask (cap r) (tail r).
Definition seq_ring_end (r : seq_ring_t) : Z := mask (cap r) (head r).
Definition seq_ring_next (r : seq_ring_t) (it : Z) : Z :=
  if (it + 1 =? cap r)%Z then 0%Z else (it + 1)%Z.
Definition seq_ring_at (r : seq_ring_t) (pos : Z) : Z := mask (cap r) (wrap 32 (tail r + pos)).
Definition seq_ring_equal (it_1 it_2 : Z) : bool := (it_1 =? it_2)%Z.

Definition seq_ring_dist (r : seq_ring_t) (first last : Z) : Z :=
  if (first <? last)%Z then (last - first)%Z else (cap r - first + last)%Z.

(** [memset] to zero of the cells [a, b). *)
Definition zero_cells (l : list (option A)) (a b : Z) : list (option A) :=
  take (Z.to_nat a) l ++ replicate (Z.to_nat (b - a)) None ++ drop (Z.to_nat b) l.

Definition seq_ring_erase (r : seq_ring_t) (it_start it_end : Z) : outcome seq_ring_t :=
  c_assert (it_start =? mask (cap r) (tail r))%Z;;
  if (it_start =? it_end)%Z then Ret r else
  let start_pos := it_start in
  let end_pos := it_end in
  c_assert (end_pos <=? cap r)%Z;;
  let r' :=
    if (start_pos <? end_pos)%Z
    then mk_seq_ring_t (zero_cells (array r) start_pos end_pos) (head r)
           (wrap 32 (tail r + (end_pos - start_pos))) (elt_size r) (cap r)
    else mk_seq_ring_t
           (zero_cells (zero_cells (array r) start_pos (cap r)) 0 end_pos) (head r)
           (wrap 32 (tail r + (cap r - start_pos + end_pos))) (elt_size r) (cap r) in
  c_assert (mask (cap r') (tail r') =? end_pos)%Z;;
  Ret r'.

(** *** [tsq_t] *)

Definition init_tsq (elm_sz : Z) : outcome seq_ring_t :=
  c_assert (0 <? elm_sz)%Z;; Ret (seq_ring_init elm_sz).

Definition push_tsq (q : seq_ring_t) (val : A) (sz : Z) : outcome seq_ring_t :=
  c_assert (0 <? sz)%Z;; seq_ring_push_back q val sz.

Definition pop_tsq (q : seq_ring_t) (elm_sz : Z) : outcome (A * seq_ring_t) :=
  c_assert (elt_size q =? elm_sz)%Z;;
  c_assert (negb (seq_ring_size q =? 0))%Z;;
  let it := seq_ring_front q in
  val ← match array q !! Z.to_nat it with Some (Some x) => Ret x | _ => Undef end;
  c_assert (negb (it =? seq_ring_end q))%Z;;
  let next := seq_ring_next q it in
  q ← seq_ring_erase q it next;
  Ret (val, q).

Definition size_tsq (q : seq_ring_t) : Z := seq_ring_size q.

(** ** The sequence a ring stands for *)

(** [ring_rep r l]: the cells from [tail] on hold [l]. *)
Record ring_rep (r : seq_ring_t) (l : list A) : Prop := {
  rep_cap : ∃ k, (5 ≤ k ≤ 31)%Z ∧ cap r = (2 ^ k)%Z;
  rep_head : u_ok 32 (head r);
  rep_tail : u_ok 32 (tail r);
  rep_len : Z.of_nat (length (array r)) = cap r;
  rep_size : seq_ring_size r = Z.of_nat (length l);
  rep_room : (Z.of_nat (length l) < cap r)%Z;
  rep_cells : ∀ i x, l !! i = Some x →
    array r !! Z.to_nat ((tail r + Z.of_nat i) mod cap r) = Some (Some x) }.

Lemma mask_mod k v : (0 ≤ k ≤ 31)%Z → mask (2 ^ k) v = (v mod 2 ^ k)%Z.
Proof.
  intros Hk. unfold mask.
  assert (0 < 2 ^ k < 2 ^ 32)%Z.
  { split; [apply Z.pow_pos_nonneg; lia|apply Z.pow_lt_mono_r; lia]. }
  rewrite (wrap_id 32 (2 ^ k)) by (unfold u_ok; lia).
  rewrite wrap_id by (unfold u_ok; lia).
  rewrite Z.sub_1_r, <-Z.ones_equiv. apply Z.land_ones. lia.
Qed.

Lemma wrap_mod_pow k v : (0 ≤ k ≤ 32)%Z → (wrap 32 v mod 2 ^ k = v mod 2 ^ k)%Z.
Proof.
  intros Hk. unfold wrap. apply Z.mod_mod_divide.
  exists (2 ^ (32 - k))%Z. rewrite <-Z.pow_add_r by lia. f_equal. lia.
Qed.

(** The position of the head: [length l] cells after the tail. *)
Lemma head_pos r l : ring_rep r l →
  mask (cap r) (head r) = ((tail r + Z.of_nat (length l)) mod cap r)%Z.
Proof.
  intros [(k & Hk & Hcap) Hh Ht Hlen Hsz Hroom _]. rewrite Hcap, mask_mod by lia.
  rewrite <-Hsz. unfold seq_ring_size. rewrite <-(wrap_mod_pow k (tail r + _)) by lia.
  unfold wrap. rewrite Z.add_mod_idemp_r by done.
  replace (tail r + (head r - tail r))%Z with (head r) by lia.
  by rewrite (Z.mod_small (head r) (2 ^ 32)).
Qed.

Lemma tail_pos r l : ring_rep r l → mask (cap r) (tail r) = (tail r mod cap r)%Z.
Proof. intros [(k & Hk & Hcap) _ _ _ _ _ _]. rewrite Hcap. apply mask_mod. lia. Qed.

Lemma full_spec r l : ring_rep r l → full r = (Z.of_nat (length l) =? cap r - 1)%Z.
Proof.
  intros [(k & Hk & Hcap) _ _ _ Hsz Hroom _]. unfold full. rewrite Hsz, wrap_id; [done|].
  unfold u_ok. rewrite Hcap. pose proof (Z.pow_pos_nonneg 2 k).
  pose proof (Z.pow_lt_mono_r 2 k 64). lia.
Qed.

Lemma lookup_slice (l : list (option A)) a b i : (0 ≤ a ≤ b)%Z → (Z.of_nat i < b - a)%Z →
  slice l a b !! i = l !! Z.to_nat (a + Z.of_nat i).
Proof.
  intros Hab Hi. unfold slice. rewrite lookup_take_lt, lookup_drop by lia. f_equal. lia.
Qed.

Lemma length_slice (l : list (option A)) a b : (0 ≤ a ≤ b)%Z → (b ≤ Z.of_nat (length l))%Z →
  length (slice l a b) = Z.to_nat (b - a).
Proof. intros Hab Hb. unfold slice. rewrite length_take, length_drop. lia. Qed.

(** What [enlarge_buffer] copies: the [cap - 1] cells from the tail on. *)
Lemma enlarge_copied (arr : list (option A)) c t :
  (1 < c)%Z → Z.of_nat (length arr) = c → (0 ≤ t < c)%Z →
  let h := ((t + (c - 1)) mod c)%Z in
  let copied := if (t <? h)%Z then slice arr t h else slice arr t c ++ slice arr 0 h in
  Z.of_nat (length copied) = (c - 1)%Z ∧
  ∀ i, (Z.of_nat i < c - 1)%Z → copied !! i = arr !! Z.to_nat ((t + Z.of_nat i) mod c).
Proof.
  intros Hc Hlen Ht h copied.
  assert (h = if decide (t = 0) then c - 1 else t - 1)%Z as Hh.
  { unfold h. destruct (decide (t = 0)%Z) as [->|].
    - apply Z.mod_small. lia.
    - replace (t + (c - 1))%Z with (t - 1 + 1 * c)%Z by lia.
      rewrite Z.mod_add by lia. apply Z.mod_small. lia. }
  unfold copied. rewrite Hh. destruct (decide (t = 0)%Z) as [->|Ht0].
  - rewrite (proj2 (Z.ltb_lt _ _)) by lia.
    rewrite length_slice by lia. split; [lia|]. intros i Hi.
    rewrite lookup_slice by lia. by rewrite Z.mod_small by lia.
  - rewrite (proj2 (Z.ltb_ge _ _)) by lia. rewrite length_app, !length_slice by lia.
    split; [lia|]. intros i Hi. destruct (decide (Z.of_nat i < c - t)%Z).
    + rewrite lookup_app_l by (rewrite length_slice; lia). rewrite lookup_slice by lia.
      by rewrite Z.mod_small by lia.
    + rewrite lookup_app_r by (rewrite length_slice; lia). rewrite length_slice by lia.
      rewrite lookup_slice by lia. f_equal. f_equal.
      replace (t + Z.of_nat i)%Z with (t + Z.of_nat i - c + 1 * c)%Z by lia.
      rewrite Z.mod_add by lia. rewrite Z.mod_small; lia.
Qed.

Lemma enlarge_buffer_rep r l : ring_rep r l → full r = true → (cap r ≤ 2 ^ 30)%Z →
  ∃ r', enlarge_buffer r = Ret r' ∧ ring_rep r' l ∧ full r' = false ∧ elt_size r' = elt_size r.
Proof.
  intros Hrep Hfull Hcap30. unfold enlarge_buffer. rewrite Hfull, c_assert_bind.
  rewrite (head_pos _ _ Hrep), (tail_pos _ _ Hrep).
  rewrite (full_spec _ _ Hrep) in Hfull. apply Z.eqb_eq in Hfull.
  destruct Hrep as [(k & Hk & Hcap) Hh Ht Hlen Hsz Hroom Hcells].
  assert (2 ^ 5 ≤ cap r)%Z as Hpos by (rewrite Hcap; apply Z.pow_le_mono_r; lia).
  change (2 ^ 5)%Z with 32%Z in Hpos.
  pose proof (Z.mod_pos_bound (tail r) (cap r) ltac:(lia)) as Htb.
  destruct (enlarge_copied (array r) (cap r) (tail r mod cap r) ltac:(lia) Hlen Htb) as [Hl Hlk].
  rewrite Hfull, <-Zplus_mod_idemp_l. cbv zeta in *.
  set (copied := if (_ <? _)%Z then _ else _) in *.
  rewrite in_bounds_bind, (proj2 (Z.leb_le _ _)) by lia.
  assert (2 ^ (k + 1) = cap r * 2)%Z as Hcap2 by (rewrite Z.pow_add_r, Hcap by lia; lia).
  assert (k + 1 ≤ 31)%Z as Hk1.
  { destruct (decide (k = 31)%Z) as [->|]; [|lia]. rewrite Hcap in Hcap30. lia. }
  assert (cap r * 2 / 2 = cap r)%Z as Hdiv by (by apply Z.div_mul).
  eexists. split; [done|].
  assert (ring_rep (mk_seq_ring_t (copied ++ replicate (Z.to_nat (cap r * 2) - length copied) None)
         (wrap 32 (cap r * 2 / 2 - 1)) 0 (elt_size r) (cap r * 2)) l) as Hr.
  { rewrite Hdiv. rewrite wrap_id by (unfold u_ok; lia). split; cbn.
    - exists (k + 1)%Z. lia.
    - unfold u_ok; lia.
    - unfold u_ok; lia.
    - rewrite length_app, length_replicate. lia.
    - unfold seq_ring_size. cbn. rewrite wrap_id by (unfold u_ok; lia). lia.
    - lia.
    - intros i x Hi. pose proof (lookup_lt_Some _ _ _ Hi) as Hil.
      rewrite Z.mod_small by lia. rewrite lookup_app_l by lia.
      replace (Z.to_nat (0 + Z.of_nat i)) with i by lia. rewrite Hlk by lia.
      rewrite Zplus_mod_idemp_l. by apply Hcells. }
  split; [exact Hr|]. split; [|done]. rewrite (full_spec _ _ Hr). cbn. lia.
Qed.

Lemma push_slot_rep r l x : ring_rep r l → full r = false →
  let pos := mask (cap r) (head r) in
  (0 ≤ pos < Z.of_nat (length (array r)))%Z ∧
  ring_rep (mk_seq_ring_t (<[Z.to_nat pos := Some x]> (array r))
              (wrap 32 (head r + 1)) (tail r) (elt_size r) (cap r)) (l ++ [x]).
Proof.
  intros Hrep Hfull pos. pose proof (head_pos _ _ Hrep) as Hpos. fold pos in Hpos.
  rewrite (full_spec _ _ Hrep) in Hfull. apply Z.eqb_neq in Hfull.
  destruct Hrep as [(k & Hk & Hcap) Hh Ht Hlen Hsz Hroom Hcells].
  assert (0 < cap r)%Z as Hp by (rewrite Hcap; apply Z.pow_pos_nonneg; lia).
  assert (cap r ≤ 2 ^ 31)%Z as Hc31 by (rewrite Hcap; apply Z.pow_le_mono_r; lia).
  pose proof (Z.mod_pos_bound (tail r + Z.of_nat (length l)) (cap r) Hp) as Hb.
  split; [lia|]. split; cbn.
  - by exists k.
  - by apply wrap_ok.
  - done.
  - by rewrite length_insert.
  - unfold seq_ring_size in *. cbn. unfold wrap in *. rewrite Zminus_mod_idemp_l.
    replace (head r + 1 - tail r)%Z with (head r - tail r + 1)%Z by lia.
    rewrite <-Zplus_mod_idemp_l, Hsz, Z.mod_small; rewrite ?length_app; cbn; lia.
  - rewrite length_app. cbn. lia.
  - intros i y Hi. rewrite Hpos.
    destruct (decide (i < length l)) as [Hil|Hil].
    + rewrite lookup_app_l in Hi by lia. rewrite list_lookup_insert_ne; [by apply Hcells|].
      intros Heq. apply Z2Nat.inj in Heq; [|lia|apply Z.mod_pos_bound; lia].
      apply (f_equal (λ z, (z - tail r) mod cap r)%Z) in Heq.
      rewrite !Zminus_mod_idemp_l in Heq.
      replace (tail r + Z.of_nat (length l) - tail r)%Z with (Z.of_nat (length l)) in Heq by lia.
      replace (tail r + Z.of_nat i - tail r)%Z with (Z.of_nat i) in Heq by lia.
      rewrite !Z.mod_small in Heq by lia. lia.
    + pose proof (lookup_lt_Some _ _ _ Hi) as Hlt. rewrite length_app in Hlt. cbn in Hlt.
      assert (i = length l) as -> by lia. rewrite lookup_app_r, Nat.sub_diag in Hi by lia.
      injection Hi as <-. apply list_lookup_insert_eq. lia.
Qed.

(** [seq_ring_push_back] appends, enlarging the buffer when it is full. *)
Lemma seq_ring_push_back_rep r l x :
  ring_rep r l → (Z.of_nat (length l) < 2 ^ 30)%Z →
  ∃ r', seq_ring_push_back r x (elt_size r) = Ret r' ∧ ring_rep r' (l ++ [x]) ∧
        elt_size r' = elt_size r.
Proof.
  intros Hrep Hlt. unfold seq_ring_push_back. rewrite Z.eqb_refl, c_assert_bind.
  assert (∃ r1, (if full r then enlarge_buffer r else Ret r) = Ret r1 ∧ ring_rep r1 l ∧
                full r1 = false ∧ elt_size r1 = elt_size r) as (r1 & -> & Hr1 & Hf1 & He1).
  { destruct (full r) eqn:Hf; [|by exists r]. apply enlarge_buffer_rep; [done..|].
    rewrite (full_spec _ _ Hrep) in Hf. lia. }
  rewrite outcome_bind_ret_l. cbv zeta.
  destruct (push_slot_rep r1 l x Hr1 Hf1) as [Hb Hr2].
  rewrite in_bounds_bind, (proj2 (Z.ltb_lt _ _)) by lia. eauto.
Qed.

Lemma lookup_zero_cells_ne (l : list (option A)) a b i :
  (0 ≤ a ≤ b)%Z → (b ≤ Z.of_nat (length l))%Z → (Z.of_nat i < a ∨ b ≤ Z.of_nat i)%Z →
  zero_cells l a b !! i = l !! i.
Proof.
  intros Hab Hb [Hi|Hi]; unfold zero_cells.
  - rewrite lookup_app_l by (rewrite length_take; lia). apply lookup_take_lt. lia.
  - rewrite lookup_app_r by (rewrite length_take; lia).
    rewrite lookup_app_r by (rewrite length_replicate, length_take; lia).
    rewrite length_replicate, length_take, lookup_drop. f_equal. lia.
Qed.

Lemma length_zero_cells (l : list (option A)) a b :
  (0 ≤ a ≤ b)%Z → (b ≤ Z.of_nat (length l))%Z → length (zero_cells l a b) = length l.
Proof.
  intros Hab Hb. unfold zero_cells.
  rewrite !length_app, length_take, length_replicate, length_drop. lia.
Qed.

(** Positions: those of [l] hold it, and one past them is the end. *)
Lemma ring_at r l i : ring_rep r l → seq_ring_at r (Z.of_nat i) = ((tail r + Z.of_nat i) mod cap r)%Z.
Proof.
  intros Hrep. destruct (rep_cap _ _ Hrep) as (k & Hk & Hcap). unfold seq_ring_at.
  by rewrite Hcap, mask_mod, wrap_mod_pow by lia.
Qed.

Lemma ring_cell r l i x : ring_rep r l → l !! i = Some x → array r !! Z.to_nat (seq_ring_at r (Z.of_nat i)) = Some (Some x).
Proof. intros Hrep Hi. rewrite (ring_at _ l) by done. by apply (rep_cells _ _ Hrep). Qed.

Lemma ring_at_end r l i : ring_rep r l → i < length l → seq_ring_at r (Z.of_nat i) ≠ seq_ring_end r.
Proof.
  intros Hrep Hi. rewrite (ring_at _ l) by done. unfold seq_ring_end. rewrite (head_pos _ _ Hrep).
  pose proof (rep_room _ _ Hrep) as Hroom. intros Heq.
  apply (f_equal (λ z, (z - tail r) mod cap r)%Z) in Heq. rewrite !Zminus_mod_idemp_l in Heq.
  rewrite !Z.add_simpl_l, !Z.mod_small in Heq by lia. lia.
Qed.

Lemma ring_next r l i : ring_rep r l → seq_ring_next r (seq_ring_at r (Z.of_nat i)) = seq_ring_at r (Z.of_nat (S i)).
Proof.
  intros Hrep. rewrite !(ring_at _ l) by done. pose proof (rep_room _ _ Hrep) as Hroom. unfold seq_ring_next.
  replace (tail r + Z.of_nat (S i))%Z with (tail r + Z.of_nat i + 1)%Z by lia. rewrite <-(Zplus_mod_idemp_l (tail r + Z.of_nat i)).
  pose proof (Z.mod_pos_bound (tail r + Z.of_nat i) (cap r) ltac:(lia)). set (p := ((tail r + Z.of_nat i) mod cap r)%Z) in *.
  destruct (Z.eqb_spec (p + 1) (cap r)) as [->|]; [symmetry; apply Z.mod_same; lia|symmetry; apply Z.mod_small; lia].
Qed.

(** Erasing a prefix. *)
Lemma seq_ring_erase_prefix_rep r l1 l2 : ring_rep r (l1 ++ l2) →
  ∃ r', seq_ring_erase r (seq_ring_front r) (seq_ring_at r (Z.of_nat (length l1))) = Ret r' ∧
        ring_rep r' l2 ∧ elt_size r' = elt_size r.
Proof.
  intros Hrep. pose proof (ring_at r _ (length l1) Hrep) as Hat. pose proof (tail_pos _ _ Hrep) as Htp. unfold seq_ring_erase, seq_ring_front.
  rewrite Z.eqb_refl, c_assert_bind, Htp, Hat. pose proof Hrep as [(k & Hk & Hcap) Hh Ht Hlen Hsz Hroom Hcells].
  rewrite length_app in *. destruct l1 as [|x l1].
  { cbn [length]. rewrite Z.add_0_r, Z.eqb_refl. by exists r. }
  set (n := Z.of_nat (length (x :: l1))) in *. assert (0 < n < cap r)%Z as Hn by (unfold n in *; cbn [length] in *; lia).
  set (t := (tail r mod cap r)%Z) in *. pose proof (Z.mod_pos_bound (tail r) (cap r) ltac:(lia)) as Htb. fold t in Htb.
  set (e := ((tail r + n) mod cap r)%Z) in *. pose proof (Z.mod_pos_bound (tail r + n) (cap r) ltac:(lia)) as Heb. fold e in Heb.
  assert (t + n = e ∨ t + n = e + cap r)%Z as Hte.
  { assert (e = (t + n) mod cap r)%Z as He by (unfold e, t; by rewrite Zplus_mod_idemp_l).
    pose proof (Z.div_mod (t + n) (cap r) ltac:(lia)) as Hd. rewrite <-He in Hd.
    assert ((t + n) / cap r = 0 ∨ (t + n) / cap r = 1)%Z as [Hq|Hq]; [|rewrite Hq in Hd; lia..].
    pose proof (Z.div_pos (t + n) (cap r) ltac:(lia) ltac:(lia)). pose proof (Z.div_lt_upper_bound (t + n) (cap r) 2 ltac:(lia) ltac:(lia)). lia. }
  rewrite (proj2 (Z.eqb_neq _ _)), (proj2 (Z.leb_le e _)), c_assert_bind by lia.
  set (arr' := if (t <? e)%Z then zero_cells (array r) t e else zero_cells (zero_cells (array r) t (cap r)) 0 e).
  assert ((if (t <? e)%Z
    then mk_seq_ring_t (zero_cells (array r) t e) (head r) (wrap 32 (tail r + (e - t))) (elt_size r) (cap r)
    else mk_seq_ring_t (zero_cells (zero_cells (array r) t (cap r)) 0 e) (head r)
           (wrap 32 (tail r + (cap r - t + e))) (elt_size r) (cap r)) =
    mk_seq_ring_t arr' (head r) (wrap 32 (tail r + n)) (elt_size r) (cap r)) as ->.
  { unfold arr'. destruct (Z.ltb_spec t e); do 2 f_equal; lia. }
  assert (length arr' = length (array r)) as Hlen'.
  { unfold arr'. destruct (Z.ltb_spec t e); rewrite ?length_zero_cells; rewrite ?length_zero_cells; lia. }
  assert (∀ i, (Z.of_nat i < Z.of_nat (length l2))%Z → arr' !! Z.to_nat ((e + Z.of_nat i) mod cap r) = array r !! Z.to_nat ((e + Z.of_nat i) mod cap r)) as Harr.
  { intros i Hi. pose proof (Z.mod_pos_bound (e + Z.of_nat i) (cap r) ltac:(lia)) as Hpb.
    assert ((e + Z.of_nat i) mod cap r = if e + Z.of_nat i <? cap r then e + Z.of_nat i else e + Z.of_nat i - cap r)%Z as Hp.
    { destruct (Z.ltb_spec (e + Z.of_nat i) (cap r)); [apply Z.mod_small; lia|].
      symmetry. apply (Z.mod_unique_pos _ _ 1); lia. }
    rewrite Hp in *. unfold arr'. destruct (Z.ltb_spec t e), (Z.ltb_spec (e + Z.of_nat i) (cap r)); try lia;
      rewrite ?lookup_zero_cells_ne; rewrite ?length_zero_cells; try lia; rewrite ?lookup_zero_cells_ne; rewrite ?length_zero_cells; try lia; done. }
  cbv zeta. cbn [cap tail]. rewrite Hcap, mask_mod, wrap_mod_pow, <-Hcap by lia. fold e. rewrite Z.eqb_refl, c_assert_bind.
  eexists. split; [done|]. split; [|done]. split; cbn.
  - by exists k.
  - done.
  - by apply wrap_ok.
  - lia.
  - unfold seq_ring_size in *. cbn. unfold wrap in *. rewrite Zminus_mod_idemp_r.
    assert (cap r ≤ 2 ^ 31)%Z by (rewrite Hcap; apply Z.pow_le_mono_r; lia).
    replace (head r - (tail r + n))%Z with (head r - tail r - n)%Z by lia.
    rewrite <-Zminus_mod_idemp_l, Hsz, Z.mod_small; unfold n in *; cbn [length] in *; lia.
  - lia.
  - intros i y Hi. pose proof (lookup_lt_Some _ _ _ Hi) as Hil.
    rewrite Hcap, <-Zplus_mod_idemp_l, wrap_mod_pow, Zplus_mod_idemp_l, <-Hcap by lia.
    rewrite <-Zplus_mod_idemp_l. fold e. rewrite Harr by lia. unfold e. rewrite Zplus_mod_idemp_l.
    replace (tail r + n + Z.of_nat i)%Z with (tail r + Z.of_nat (length (x :: l1) + i))%Z by (unfold n; lia).
    apply Hcells. rewrite lookup_app_r by lia. by replace (length (x :: l1) + i - length (x :: l1)) with i by lia.
Qed.

Lemma ring_front r l : ring_rep r l → seq_ring_front r = seq_ring_at r (Z.of_nat 0).
Proof. intros Hrep. rewrite (ring_at _ l), Z.add_0_r by done. by apply (tail_pos _ l). Qed.

(** Erasing one element from the front, as [pop_tsq] does. *)
Lemma seq_ring_erase_front_rep r x l : ring_rep r (x :: l) →
  ∃ r', seq_ring_erase r (seq_ring_front r) (seq_ring_next r (seq_ring_front r)) = Ret r' ∧
        ring_rep r' l ∧ elt_size r' = elt_size r.
Proof.
  intros Hrep. replace (seq_ring_next r (seq_ring_front r)) with (seq_ring_at r (Z.of_nat (length [x]))).
  - exact (seq_ring_erase_prefix_rep r [x] l Hrep).
  - by rewrite (ring_front _ _ Hrep), (ring_next _ _ _ Hrep).
Qed.

Lemma ring_rep_init es : ring_rep (seq_ring_init es) [].
Proof.
  split; [by exists 5%Z|done..| |done]. done.
Qed.

(** *** The queue *)

Inductive tsq_op := Push (x : A) | Pop.

Definition tsq_step (q : seq_ring_t) (op : tsq_op) : outcome (option A * seq_ring_t) :=
  match op with
  | Push x => q ← push_tsq q x (elt_size q); Ret (None, q)
  | Pop => '(x, q) ← pop_tsq q (elt_size q); Ret (Some x, q)
  end.

(** Runs operations and collects what the pops return. *)
Fixpoint tsq_run (q : seq_ring_t) (ops : list tsq_op) : outcome (list A * seq_ring_t) :=
  match ops with
  | [] => Ret ([], q)
  | op :: ops' =>
      '(o, q) ← tsq_step q op;
      '(out, q) ← tsq_run q ops';
      Ret (option_list o ++ out, q)
  end.

(** The first-in first-out queue it implements; a pop of the empty queue is
    the failed assertion of the code. *)
Fixpoint fifo_run (l : list A) (ops : list tsq_op) : outcome (list A * list A) :=
  match ops with
  | [] => Ret ([], l)
  | Push x :: ops' => fifo_run (l ++ [x]) ops'
  | Pop :: ops' =>
      match l with
      | [] => Abort
      | x :: l' => '(out, l) ← fifo_run l' ops'; Ret (x :: out, l)
      end
  end.

Lemma pop_tsq_rep q x l : ring_rep q (x :: l) →
  ∃ q', pop_tsq q (elt_size q) = Ret (x, q') ∧ ring_rep q' l ∧ elt_size q' = elt_size q.
Proof.
  intros Hrep. destruct (seq_ring_erase_front_rep q x l Hrep) as (q' & He & Hq' & Hes).
  exists q'. split; [|done]. unfold pop_tsq. rewrite Z.eqb_refl, c_assert_bind.
  pose proof (rep_size _ _ Hrep) as Hsz. cbn [length] in Hsz.
  rewrite (proj2 (Z.eqb_neq _ 0)), c_assert_bind by lia. cbn [negb].
  pose proof (rep_cells _ _ Hrep 0 x eq_refl) as Hx. rewrite Z.add_0_r in Hx.
  unfold seq_ring_front in *. rewrite (tail_pos _ _ Hrep) in *. rewrite Hx, outcome_bind_ret_l.
  unfold seq_ring_end. rewrite (head_pos _ _ Hrep).
  assert (tail q mod cap q ≠ (tail q + Z.of_nat (length (x :: l))) mod cap q)%Z as Hne.
  { pose proof (rep_room _ _ Hrep) as Hroom. cbn [length] in *. intros Heq.
    apply (f_equal (λ z, (z - tail q) mod cap q)%Z) in Heq. rewrite !Zminus_mod_idemp_l in Heq.
    rewrite Z.sub_diag, Z.mod_0_l in Heq by lia.
    replace (tail q + Z.of_nat (S (length l)) - tail q)%Z with (Z.of_nat (S (length l))) in Heq by lia.
    rewrite Z.mod_small in Heq by lia. lia. }
  rewrite (proj2 (Z.eqb_neq _ _) Hne), c_assert_bind. cbn [negb]. by rewrite He.
Qed.

Lemma pop_tsq_empty q : ring_rep q [] → pop_tsq q (elt_size q) = Abort.
Proof.
  intros Hrep. unfold pop_tsq. rewrite Z.eqb_refl, c_assert_bind.
  by rewrite (rep_size _ _ Hrep).
Qed.

Lemma tsq_run_rep q l ops : (0 < elt_size q)%Z → ring_rep q l →
  (Z.of_nat (length l + length ops) ≤ 2 ^ 30)%Z →
  match fifo_run l ops with
  | Ret (out, l') => ∃ q', tsq_run q ops = Ret (out, q') ∧ ring_rep q' l'
  | Abort => tsq_run q ops = Abort
  | _ => False
  end.
Proof.
  intros Hes Hrep Hlen. revert q l Hes Hrep Hlen.
  induction ops as [|[x|] ops IH]; intros q l Hes Hrep Hlen; cbn [fifo_run tsq_run tsq_step];
    cbn [length] in Hlen.
  - by exists q.
  - destruct (seq_ring_push_back_rep q l x Hrep ltac:(lia)) as (q' & Hp & Hr' & He').
    unfold push_tsq. rewrite (proj2 (Z.ltb_lt _ _)), c_assert_bind, Hp by done.
    rewrite !outcome_bind_ret_l.
    specialize (IH q' (l ++ [x]) ltac:(lia) Hr' ltac:(rewrite length_app; cbn; lia)).
    destruct (fifo_run (l ++ [x]) ops) as [[out l']| | | |]; [|by rewrite IH|done..].
    destruct IH as (q'' & -> & Hr''). exists q''. by rewrite outcome_bind_ret_l.
  - destruct l as [|x l]; [by rewrite pop_tsq_empty|].
    destruct (pop_tsq_rep q x l Hrep) as (q' & -> & Hr' & He'). rewrite !outcome_bind_ret_l.
    specialize (IH q' l ltac:(lia) Hr' ltac:(cbn in Hlen; lia)).
    destruct (fifo_run l ops) as [[out l']| | | |]; [|by rewrite IH|done..].
    destruct IH as (q'' & -> & Hr''). exists q''. by rewrite outcome_bind_ret_l.
Qed.

(** A [tsq_t] is a first-in first-out queue: over any sequence of at most 2^30
    operations from the empty queue, the pops return what they return on a list
    (through every enlargement and wrap-around of the counters), and the run
    aborts exactly when the list queue is popped empty. *)
Theorem tsq_run_fifo es ops : (0 < es)%Z → (Z.of_nat (length ops) ≤ 2 ^ 30)%Z →
  match fifo_run [] ops with
  | Ret (out, l) => ∃ q, (q0 ← init_tsq es; tsq_run q0 ops) = Ret (out, q) ∧
                         size_tsq q = Z.of_nat (length l)
  | _ => (q0 ← init_tsq es; tsq_run q0 ops) = Abort
  end.
Proof.
  intros Hes Hlen. unfold init_tsq. rewrite (proj2 (Z.ltb_lt _ _) Hes), c_assert_bind.
  rewrite outcome_bind_ret_l.
  pose proof (tsq_run_rep (seq_ring_init es) [] ops Hes (ring_rep_init es) Hlen) as H.
  destruct (fifo_run [] ops) as [[out l]| | | |]; [|done..].
  destruct H as (q & Hq & Hrep). exists q. split; [done|]. apply Hrep.
Qed.

(** [seq_ring_dist] of distinct positions is the number of steps from one to
    the other; of equal positions it is the capacity, not zero. *)
Lemma seq_ring_dist_spec r first last :
  (0 ≤ first < cap r)%Z → (0 ≤ last < cap r)%Z →
  seq_ring_dist r first last =
    if decide (first = last) then cap r else ((last - first) mod cap r)%Z.
Proof.
  intros Hf Hl. unfold seq_ring_dist. destruct (decide (first = last)) as [->|Hne].
  - rewrite Z.ltb_irrefl. lia.
  - destruct (Z.ltb_spec first last).
    + symmetry. apply Z.mod_small. lia.
    + replace (last - first)%Z with (cap r - first + last + (-1) * cap r)%Z by lia.
      rewrite Z.mod_add by lia. symmetry. apply Z.mod_small. lia.
Qed.

End seq_ring.
Arguments seq_ring_t : clear implicits.
Arguments tsq_op : clear implicits.

(** 73 pushes, so two enlargements, and three pops. *)
Definition demo_ops : list (tsq_op nat) :=
  Push 1 :: Push 2 :: Pop :: (Push <$> seq 3 70) ++ [Pop; Pop].

Lemma tsq_run_fifo_witness :
  ∃ q, (q0 ← init_tsq 8; tsq_run q0 demo_ops) = Ret ([1; 2; 3], q) ∧ size_tsq q = 69%Z.
Proof.
  pose proof (tsq_run_fifo 8 demo_ops ltac:(lia) ltac:(by vm_compute)) as H.
  assert (fifo_run [] demo_ops = Ret ([1; 2; 3], seq 4 69)) as Hf by reflexivity.
  rewrite Hf in H. exact H.
Defined.

(** ** Reading and freeing a ring *)

#[local] Open Scope Z_scope.

Section ring_read.
Context {A : Type}.
Implicit Types (r : seq_ring_t A).

(** [memcpy] of the element at [it]. *)
Definition ring_read r (it : Z) : outcome A :=
  match array r !! Z.to_nat it with Some (Some x) => Ret x | _ => Undef end.

(** [n] elements from position [i] on, by [seq_ring_at]; none may be the end, where
    that is asserted. *)
Fixpoint ring_read_at (not_end : bool) (n : nat) (i : Z) r : outcome (list A) :=
  match n with
  | O => Ret []
  | S n =>
      let it := seq_ring_at r i in
      c_assert (negb (not_end && (it =? seq_ring_end r)));;
      x ← ring_read r it;
      l ← ring_read_at not_end n (i + 1) r;
      Ret (x :: l)
  end.

(** [n] elements from the iterator [it] on, and the iterator after them. *)
Fixpoint ring_read_next (n : nat) (it : Z) r : outcome (list A * Z) :=
  match n with
  | O => Ret ([], it)
  | S n =>
      x ← ring_read r it;
      '(l, it) ← ring_read_next n (seq_ring_next r it) r;
      Ret (x :: l, it)
  end.

Lemma ring_read_ok r l i x : ring_rep r l → l !! i = Some x → ring_read r (seq_ring_at r (Z.of_nat i)) = Ret x.
Proof. intros Hrep Hi. unfold ring_read. by rewrite (ring_cell _ _ _ _ Hrep Hi). Qed.

Lemma ring_read_at_ok b r l l0 l1 l2 : ring_rep r l → l = l0 ++ l1 ++ l2 → ring_read_at b (length l1) (Z.of_nat (length l0)) r = Ret l1.
Proof.
  intros Hrep. revert l0. induction l1 as [|x l1 IH]; intros l0 Hl; [done|]. cbn [length ring_read_at].
  assert (l !! length l0 = Some x) as Hx by (subst l; rewrite lookup_app_r by lia; by rewrite Nat.sub_diag).
  assert (b && (seq_ring_at r (Z.of_nat (length l0)) =? seq_ring_end r) = false) as ->.
  { rewrite (proj2 (Z.eqb_neq _ _)); [by rewrite andb_false_r|]. apply (ring_at_end _ l); [done|]. by apply lookup_lt_Some in Hx. }
  cbn [negb]. rewrite c_assert_bind, (ring_read_ok _ _ _ _ Hrep Hx), outcome_bind_ret_l.
  replace (Z.of_nat (length l0) + 1) with (Z.of_nat (length (l0 ++ [x]))) by (rewrite length_app; cbn; lia).
  rewrite IH; [by rewrite outcome_bind_ret_l|]. subst l. by rewrite <-!app_assoc.
Qed.

Lemma ring_read_next_ok r l l0 l1 l2 : ring_rep r l → l = l0 ++ l1 ++ l2 →
  ring_read_next (length l1) (seq_ring_at r (Z.of_nat (length l0))) r = Ret (l1, seq_ring_at r (Z.of_nat (length l0 + length l1))).
Proof.
  intros Hrep. revert l0. induction l1 as [|x l1 IH]; intros l0 Hl; [by rewrite Nat.add_0_r|]. cbn [length ring_read_next].
  assert (l !! length l0 = Some x) as Hx by (subst l; rewrite lookup_app_r by lia; by rewrite Nat.sub_diag).
  rewrite (ring_read_ok _ _ _ _ Hrep Hx), outcome_bind_ret_l, (ring_next _ _ _ Hrep).
  replace (S (length l0)) with (length (l0 ++ [x])) by (rewrite length_app; cbn; lia).
  rewrite IH by (subst l; by rewrite <-!app_assoc). rewrite outcome_bind_ret_l, length_app. cbn [length]. do 4 f_equal. lia.
Qed.

(** The loop of [seq_ring_free] from the iterator [it]: what [fp] is called with. *)
Fixpoint seq_ring_free_loop (fuel : nat) (it : Z) r : outcome (list A) :=
  match fuel with
  | O => NoFuel
  | S fuel =>
      if it =? seq_ring_end r then Ret []
      else
        x ← ring_read r it;
        l ← seq_ring_free_loop fuel (seq_ring_next r it) r;
        Ret (x :: l)
  end.

(** [fp]: is there a function to call. *)
Definition seq_ring_free (fp : bool) r : outcome (list A) :=
  if fp then seq_ring_free_loop (Z.to_nat (cap r)) (seq_ring_front r) r else Ret [].

Definition seq_ring_swap r (it_1 it_2 : Z) : outcome (seq_ring_t A) := Abort.

Definition free_tsq (f : bool) (q : seq_ring_t A) : outcome (list A) := seq_ring_free f q.

Lemma ring_at_all r l : ring_rep r l → seq_ring_at r (Z.of_nat (length l)) = seq_ring_end r.
Proof. intros Hrep. rewrite (ring_at _ l) by done. symmetry. by apply head_pos. Qed.

Lemma seq_ring_free_loop_ok r l : ring_rep r l → ∀ l2 l1 fuel, l = l1 ++ l2 → (length l2 < fuel)%nat →
  seq_ring_free_loop fuel (seq_ring_at r (Z.of_nat (length l1))) r = Ret l2.
Proof.
  intros Hrep l2. induction l2 as [|x l2 IH]; intros l1 [|fuel] Hl Hf; cbn [length] in Hf; try lia; cbn [seq_ring_free_loop].
  - rewrite app_nil_r in Hl. subst l1. by rewrite (ring_at_all _ _ Hrep), Z.eqb_refl.
  - assert (l !! length l1 = Some x) as Hx by (subst l; rewrite lookup_app_r by lia; by rewrite Nat.sub_diag).
    rewrite (proj2 (Z.eqb_neq _ _)) by (apply (ring_at_end _ l); [done|by apply lookup_lt_Some in Hx]).
    rewrite (ring_read_ok _ _ _ _ Hrep Hx), outcome_bind_ret_l, (ring_next _ _ _ Hrep).
    replace (S (length l1)) with (length (l1 ++ [x])) by (rewrite length_app; cbn; lia).
    rewrite IH; [done|by rewrite Hl, <-app_assoc|lia].
Qed.

(** Freeing a ring gives every element in it to the function, once and in order. *)
Lemma seq_ring_free_rep r l : ring_rep r l → seq_ring_free true r = Ret l.
Proof.
  intros Hrep. unfold seq_ring_free. rewrite (ring_front _ _ Hrep). apply (seq_ring_free_loop_ok r l Hrep l []); [done|].
  pose proof (rep_room _ _ Hrep). lia.
Qed.
End ring_read.
