(* ===== verification/Workers.v ===== *)
(** * Queues between threads

    The notification queue [util/alg_ds/ds/tsn_queue/tsn_queue.c] with its consumer
    in the database thread of the xApp, [xApp/db/db.c]; and the task manager
    [util/alg_ds/ds/task_man/task_manager.c], whose threads handle the messages of
    the near-RT RIC.

    An operation under the mutex of a queue is atomic.  A run is a list of steps, in
    any order: what the threads do, and which locks [pthread_mutex_trylock] finds
    taken ([busy]).  Queues are rings ([SeqRing]); [task_manager.c] has a copy of
    [seq_ring.c] that starts with 32768 elements. *)
From S2P Require Import Prelude SeqRing.
#[local] Open Scope Z_scope.

(** ** The notification queue, [tsnq_t] *)

Section tsnq.
Context {A : Type}.

Record tsnq_t := mk_tsnq { tq_r : seq_ring_t A; stop_token : bool; stopped : bool }.

Definition init_tsnq (elm_sz : Z) : outcome tsnq_t :=
  c_assert (0 <? elm_sz);; Ret (mk_tsnq (seq_ring_init elm_sz) false false).

Definition push_tsnq (q : tsnq_t) (val : A) (sz : Z) : outcome tsnq_t :=
  r ← seq_ring_push_back (tq_r q) val sz;
  Ret (mk_tsnq r (stop_token q) (stopped q)).

Definition size_tsnq (q : tsnq_t) : Z := seq_ring_size (tq_r q).

(** What a pop gives: elements, NULL, or nothing yet. *)
Inductive popped := ELMS (l : list A) | NULL_PTR | WAITS.

Definition wait_and_pop_tsnq (q : tsnq_t) : outcome (popped * tsnq_t) :=
  if stop_token q then Ret (NULL_PTR, mk_tsnq (tq_r q) true true)
  else if seq_ring_size (tq_r q) =? 0 then Ret (WAITS, q)
  else
    let it := seq_ring_front (tq_r q) in
    elm ← ring_read (tq_r q) it;
    c_assert (negb (it =? seq_ring_end (tq_r q)));;
    r ← seq_ring_erase (tq_r q) it (seq_ring_next (tq_r q) it);
    Ret (ELMS [elm], mk_tsnq r (stop_token q) (stopped q)).

(** [pop_tsnq_10] and [pop_tsnq_100]: the elements go to an array of the caller. *)
Definition pop_tsnq_n (n : nat) (q : tsnq_t) : outcome (popped * tsnq_t) :=
  if stop_token q then Ret (NULL_PTR, mk_tsnq (tq_r q) true true)
  else
    c_assert (Z.of_nat n <=? seq_ring_size (tq_r q));;
    let it := seq_ring_front (tq_r q) in
    c_assert (negb (it =? seq_ring_end (tq_r q)));;
    '(elms, next) ← ring_read_next n it (tq_r q);
    r ← seq_ring_erase (tq_r q) it next;
    Ret (ELMS elms, mk_tsnq r (stop_token q) (stopped q)).
Definition pop_tsnq_10 (q : tsnq_t) : outcome (popped * tsnq_t) := pop_tsnq_n 10 q.
Definition pop_tsnq_100 (q : tsnq_t) : outcome (popped * tsnq_t) := pop_tsnq_n 100 q.

(** The end of [free_tsnq]; [None]: it still waits for [stopped]. *)
Definition free_tsnq_end (f : bool) (q : tsnq_t) : outcome (option (list A)) :=
  if stopped q then l ← seq_ring_free f (tq_r q); Ret (Some l) else Ret None.

(** *** The queue it is *)

Definition tsnq_rep (es : Z) (q : tsnq_t) (l : list A) : Prop := ring_rep (tq_r q) l ∧ elt_size (tq_r q) = es.

Lemma push_tsnq_rep es q l x : tsnq_rep es q l → Z.of_nat (length l) < 2 ^ 30 →
  ∃ q', push_tsnq q x es = Ret q' ∧ tsnq_rep es q' (l ++ [x]) ∧ stop_token q' = stop_token q ∧ stopped q' = stopped q.
Proof.
  intros [Hr <-] Hl. destruct (seq_ring_push_back_rep (tq_r q) l x Hr ltac:(lia)) as (r & Hp & Hr' & He).
  unfold push_tsnq. rewrite Hp. eexists. split; [done|]. by split; [split|].
Qed.

Lemma pop_tsnq_n_rep es n q l1 l2 : tsnq_rep es q (l1 ++ l2) → stop_token q = false → length l1 = n → (0 < n)%nat →
  ∃ q', pop_tsnq_n n q = Ret (ELMS l1, q') ∧ tsnq_rep es q' l2 ∧ stop_token q' = false ∧ stopped q' = stopped q.
Proof.
  intros [Hr <-] Hs <- Hn. destruct (seq_ring_erase_prefix_rep (tq_r q) l1 l2 Hr) as (r & He & Hr' & Hes).
  unfold pop_tsnq_n. rewrite Hs, (rep_size _ _ Hr), length_app. rewrite (proj2 (Z.leb_le _ _)), c_assert_bind by lia.
  rewrite (ring_front _ _ Hr) in *. rewrite (proj2 (Z.eqb_neq _ _)), c_assert_bind by (apply (ring_at_end _ (l1 ++ l2)); [done|rewrite length_app; lia]).
  pose proof (ring_read_next_ok (tq_r q) _ [] l1 l2 Hr eq_refl) as Hnx. cbn [length Nat.add] in Hnx. rewrite Hnx, outcome_bind_ret_l, He, outcome_bind_ret_l.
  eexists. split; [done|]. by split; [split|].
Qed.

Lemma wait_and_pop_rep es q x l : tsnq_rep es q (x :: l) → stop_token q = false →
  ∃ q', wait_and_pop_tsnq q = Ret (ELMS [x], q') ∧ tsnq_rep es q' l ∧ stop_token q' = false ∧ stopped q' = stopped q.
Proof.
  intros [Hr <-] Hs. destruct (seq_ring_erase_front_rep (tq_r q) x l Hr) as (r & He & Hr' & Hes).
  unfold wait_and_pop_tsnq. rewrite Hs, (rep_size _ _ Hr). rewrite (proj2 (Z.eqb_neq _ _)) by (cbn [length]; lia).
  rewrite (ring_front _ _ Hr) in *. rewrite (ring_read_ok _ _ 0 x Hr eq_refl), outcome_bind_ret_l.
  rewrite (proj2 (Z.eqb_neq _ _)), c_assert_bind by (apply (ring_at_end _ (x :: l)); [done|cbn; lia]).
  rewrite He, outcome_bind_ret_l. eexists. split; [done|]. by split; [split|].
Qed.
End tsnq.
Arguments tsnq_t : clear implicits.
Arguments popped : clear implicits.

(** ** The database thread of the xApp *)

Section db.
Context {R : Type} (elm_sz : Z).

(** A row: a node and its statistics.  [is_ind]: their type is an indication. *)
Context (is_ind : R → bool).

(** Where the thread is: before [size_tsnq], before the pop for that size, with rows
    still to write, or returned. *)
Inductive db_thread_t := Sizing | Popping (sz : Z) | Writing (rows : list R) | Ended.

(** [written]: what [write_db_gen] got, latest first. *)
Record db_xapp_t := mk_db { q : tsnq_t R; p : db_thread_t; written : list R }.

Definition init_db_xapp : outcome db_xapp_t :=
  q ← init_tsnq elm_sz; Ret (mk_db q Sizing []).

Definition write_row (row : R) (db : db_xapp_t) : outcome db_xapp_t :=
  c_assert (is_ind row);;
  q ← push_tsnq (q db) row elm_sz; Ret (mk_db q (p db) (written db)).

(** [free_tsnq] up to its wait for [stopped]. *)
Definition stop_db (db : db_xapp_t) : db_xapp_t :=
  mk_db (mk_tsnq (tq_r (q db)) true (stopped (q db))) (p db) (written db).

Definition db_worker_step (db : db_xapp_t) : outcome db_xapp_t :=
  match p db with
  | Sizing =>
      let sz := size_tsnq (q db) in
      Ret (mk_db (q db) (Popping (if 100 <? sz then 100 else if 10 <? sz then 10 else 1)) (written db))
  | Popping sz =>
      '(data, q') ← (if sz =? 100 then pop_tsnq_100 (q db) else if sz =? 10 then pop_tsnq_10 (q db) else wait_and_pop_tsnq (q db));
      match data with
      | ELMS rows => Ret (mk_db q' (Writing rows) (written db))
      | NULL_PTR => Ret (mk_db (mk_tsnq (tq_r q') (stop_token q') true) Ended (written db))
      | WAITS => Ret db
      end
  | Writing (row :: rows) => c_assert (is_ind row);; Ret (mk_db (q db) (Writing rows) (row :: written db))
  | Writing [] => Ret (mk_db (q db) Sizing (written db))
  | Ended => Ret db
  end.

(** [close_db_xapp] after [stop_db]: the rows freed, once the thread has stopped and been
    joined. *)
Definition close_db_xapp (db : db_xapp_t) : outcome (option (list R)) :=
  rows ← free_tsnq_end true (q db);
  match rows with
  | Some rows => c_assert (forallb is_ind rows);; Ret (match p db with Ended => Some rows | _ => None end)
  | None => Ret None
  end.

Inductive db_op := WriteRow (row : R) | DbWorker | StopDb.

Definition db_step (op : db_op) (db : db_xapp_t) : outcome db_xapp_t :=
  match op with WriteRow row => write_row row db | DbWorker => db_worker_step db | StopDb => Ret (stop_db db) end.

Fixpoint db_run (ops : list db_op) (db : db_xapp_t) : outcome db_xapp_t :=
  match ops with [] => Ret db | op :: ops => db ← db_step op db; db_run ops db end.

Definition pushed (op : db_op) : list R := match op with WriteRow row => [row] | _ => [] end.
Definition db_in_hand (db : db_xapp_t) : list R := match p db with Writing rows => rows | _ => [] end.

(** The state after the rows [all] were given: [l] is still in the queue. *)
Definition db_inv (all l : list R) (db : db_xapp_t) : Prop :=
  tsnq_rep elm_sz (q db) l ∧ all = rev (written db) ++ db_in_hand db ++ l ∧ Forall is_ind all ∧
  match p db with Popping sz => sz = 1 ∨ (sz = 10 ∨ sz = 100) ∧ sz ≤ Z.of_nat (length l) | Ended => stop_token (q db) = true ∧ stopped (q db) = true | _ => True end.

(** Steps the thread still has to take. *)
Definition db_left (l : list R) (db : db_xapp_t) : nat :=
  4 * length l + match p db with Writing rows => 3 + length rows | Sizing => 2 | Popping _ => 1 | Ended => 0 end.

(** The thread has nothing to do: it waits for rows, or it has returned. *)
Definition db_idle (l : list R) (db : db_xapp_t) : Prop :=
  if stop_token (q db) then p db = Ended else db_in_hand db = [] ∧ l = [].

Lemma db_worker_inv all l db : db_inv all l db → ∃ db' l', db_worker_step db = Ret db' ∧ db_inv all l' db' ∧
  stop_token (q db') = stop_token (q db) ∧ (stop_token (q db) = true → l' = l) ∧ (db_idle l db ∨ (db_left l' db' < db_left l db)%nat).
Proof.
  destruct db as [q0 ph w]. intros (Hq & Hall & Hind & Hp). cbn [q p written] in *. unfold db_worker_step. cbn [q p written].
  destruct ph as [|sz|[|row rows]|].
  - eexists _, l. split; [done|]. cbn [q]. refine (conj _ (conj eq_refl (conj (λ _, eq_refl) _))); [|right; cbn; lia].
    refine (conj Hq (conj Hall (conj Hind _))). cbn. unfold size_tsnq. destruct Hq as [Hr _]. rewrite (rep_size _ _ Hr).
    destruct (Z.ltb_spec 100 (Z.of_nat (length l))); [right; lia|]. destruct (Z.ltb_spec 10 (Z.of_nat (length l))); [right; lia|by left].
  - destruct (stop_token q0) eqn:Hs.
    { eexists _, l. split.
      - unfold pop_tsnq_100, pop_tsnq_10, pop_tsnq_n, wait_and_pop_tsnq. rewrite Hs. repeat case_match; reflexivity.
      - refine (conj (conj Hq (conj Hall (conj Hind (conj eq_refl eq_refl)))) (conj eq_refl (conj (λ _, eq_refl) _))). right. cbn. lia. }
    assert (∀ n m, m = pop_tsnq_n n q0 ∨ n = 1%nat ∧ m = wait_and_pop_tsnq q0 → (0 < n)%nat → (n ≤ length l)%nat → ∃ db' l',
      ('(data, q') ← m; match data with
        | ELMS rows => Ret (mk_db q' (Writing rows) w)
        | NULL_PTR => Ret (mk_db (mk_tsnq (tq_r q') (stop_token q') true) Ended w)
        | WAITS => Ret (mk_db q0 (Popping sz) w) end) = Ret db' ∧ db_inv all l' db' ∧
      stop_token (q db') = false ∧ (false = true → l' = l) ∧ (db_idle l (mk_db q0 (Popping sz) w) ∨ (db_left l' db' < db_left l (mk_db q0 (Popping sz) w))%nat)) as Hn.
    { intros n m Hm Hn0 Hn.
      assert (∃ q', m = Ret (ELMS (take n l), q') ∧ tsnq_rep elm_sz q' (drop n l) ∧ stop_token q' = false) as (q' & -> & Hq' & Hs').
      { rewrite <-(take_drop n l) in Hq. destruct Hm as [->|[-> ->]].
        - destruct (pop_tsnq_n_rep _ n _ _ _ Hq Hs) as (q' & ? & ? & ? & _); [rewrite length_take; lia|done|by exists q'].
        - destruct l as [|x l]; [cbn in Hn; lia|]. destruct (wait_and_pop_rep _ _ _ _ Hq Hs) as (q' & ? & ? & ? & _). by exists q'. }
      eexists _, (drop n l). split; [done|]. cbn [q]. refine (conj (conj Hq' (conj _ (conj Hind I))) (conj Hs' (conj _ _))); [cbn in *; by rewrite take_drop|done|].
      right. unfold db_left. cbn [p]. rewrite length_take, length_drop. lia. }
    destruct Hp as [->|[[-> | ->] Hle]].
    + destruct l as [|x l]; [|apply (Hn 1%nat); [by right|cbn; lia..]].
      eexists _, []. split.
      { cbn [Z.eqb]. unfold wait_and_pop_tsnq. destruct Hq as [Hr _]. rewrite Hs, (rep_size _ _ Hr). reflexivity. }
      refine (conj (conj Hq (conj Hall (conj Hind (or_introl eq_refl)))) (conj Hs (conj (λ _, eq_refl) (or_introl _)))).
      unfold db_idle. cbn [q]. by rewrite Hs.
    + apply (Hn 10%nat); [by left|lia..].
    + apply (Hn 100%nat); [by left|lia..].
  - eexists _, l. split; [done|]. refine (conj (conj Hq (conj Hall (conj Hind I))) (conj eq_refl (conj (λ _, eq_refl) _))). right. cbn. lia.
  - rewrite Hall in Hind. cbn [db_in_hand p] in *. assert (is_ind row = true) as Hrow.
    { rewrite Forall_app, Forall_app in Hind. destruct Hind as (_ & [Hrow _]%Forall_cons_1 & _). by apply Is_true_true. }
    rewrite Hrow, c_assert_bind. eexists _, l. split; [done|]. subst all.
    refine (conj (conj Hq (conj _ (conj Hind I))) (conj eq_refl (conj (λ _, eq_refl) _))); [cbn; by rewrite <-app_assoc|]. right. cbn. lia.
  - eexists _, l. split; [done|]. refine (conj (conj Hq (conj Hall (conj Hind Hp))) (conj eq_refl (conj (λ _, eq_refl) _))).
    left. unfold db_idle. cbn [q p]. by rewrite (proj1 Hp).
Qed.

Lemma write_row_inv all l row db : db_inv all l db → is_ind row = true → Z.of_nat (length all) < 2 ^ 30 →
  ∃ db' l', write_row row db = Ret db' ∧ db_inv (all ++ [row]) l' db'.
Proof.
  intros (Hq & Hall & Hind & Hp) Hrow Hlen.
  destruct (push_tsnq_rep _ _ _ row Hq) as (q' & He & Hq' & Hs & Hst); [subst all; rewrite !length_app in Hlen; lia|].
  unfold write_row. rewrite Hrow, c_assert_bind, He. eexists _, (l ++ [row]). split; [reflexivity|]. refine (conj Hq' (conj _ (conj _ _))).
  - subst all. unfold db_in_hand. cbn [p]. by rewrite <-!app_assoc.
  - rewrite Forall_app. split; [done|]. repeat constructor. by rewrite Hrow.
  - cbn [p q]. rewrite ?Hs, ?Hst. destruct (p db); [done| |done|done]. rewrite length_app. cbn [length]. lia.
Qed.

(** Left alone, the thread gets to where it has nothing to do. *)
Lemma db_worker_idles all l db : db_inv all l db → ∃ n db' l',
  db_run (replicate n DbWorker) db = Ret db' ∧ db_inv all l' db' ∧ db_idle l' db' ∧
  stop_token (q db') = stop_token (q db) ∧ (stop_token (q db) = true → l' = l).
Proof.
  remember (db_left l db) as n eqn:Hn. revert l db Hn. induction n as [n IH] using lt_wf_ind. intros l db -> Hinv.
  destruct (db_worker_inv all l db Hinv) as (db1 & l1 & Hw & Hinv1 & Hs1 & Hl1 & [Hidle|Hlt]).
  - by exists 0%nat, db, l.
  - destruct (IH _ Hlt l1 db1 eq_refl Hinv1) as (n & db' & l' & Hrun & Hinv' & Hidle & Hs' & Hl').
    exists (S n), db', l'. cbn [replicate db_run db_step]. rewrite Hw, outcome_bind_ret_l.
    refine (conj Hrun (conj Hinv' (conj Hidle (conj _ _)))); [congruence|]. intros Hs. rewrite Hl', Hl1; congruence.
Qed.

Lemma db_run_inv ops all l db : db_inv all l db → Forall is_ind (concat (pushed <$> ops)) →
  Z.of_nat (length (all ++ concat (pushed <$> ops))) ≤ 2 ^ 30 →
  ∃ db' l', db_run ops db = Ret db' ∧ db_inv (all ++ concat (pushed <$> ops)) l' db'.
Proof.
  revert all l db. induction ops as [|op ops IH]; intros all l db Hinv Hind Hlen; cbn [fmap list_fmap concat db_run] in *.
  - rewrite app_nil_r. by exists db, l.
  - apply Forall_app in Hind as [Hop Hind]. rewrite app_assoc in Hlen |- *.
    destruct op as [row| |]; cbn [db_step pushed] in *; rewrite ?app_nil_r in *.
    + apply Forall_cons_1 in Hop as [Hrow%Is_true_true _].
      destruct (write_row_inv all l row db Hinv Hrow) as (db1 & l1 & -> & Hinv1); [rewrite !length_app in Hlen; cbn in Hlen; lia|].
      rewrite outcome_bind_ret_l. by apply (IH _ l1).
    + destruct (db_worker_inv all l db Hinv) as (db1 & l1 & -> & Hinv1 & _). rewrite outcome_bind_ret_l. by apply (IH _ l1).
    + rewrite outcome_bind_ret_l. apply (IH _ l); [|done..].
      destruct Hinv as (Hq & Hall & Hin & Hp). refine (conj Hq (conj Hall (conj Hin _))). cbn [p q stop_db]. destruct (p db); [done|exact Hp|done|]. exact (conj eq_refl (proj2 Hp)).
Qed.

(** C38. The database thread of the xApp writes the rows it is given, each once and in
    order, whatever the interleaving of the callers, the thread and the shutdown, in
    batches of one, ten or a hundred: what was given is what was written, what the
    thread holds, and what is queued.  Left alone it ends with everything written, or,
    after the shutdown began, with what it held written, and [close_db_xapp] frees the
    rest, unwritten. *)
Theorem db_rows_in_order ops : 0 < elm_sz → Forall is_ind (concat (pushed <$> ops)) →
  Z.of_nat (length (concat (pushed <$> ops))) ≤ 2 ^ 30 →
  ∃ db queued n db', (db0 ← init_db_xapp; db_run ops db0) = Ret db ∧
    concat (pushed <$> ops) = rev (written db) ++ db_in_hand db ++ queued ∧ size_tsnq (q db) = Z.of_nat (length queued) ∧
    db_run (replicate n DbWorker) db = Ret db' ∧
    if stop_token (q db) then close_db_xapp db' = Ret (Some queued) ∧ rev (written db') = rev (written db) ++ db_in_hand db
    else rev (written db') = concat (pushed <$> ops).
Proof.
  intros Hsz Hind Hlen. unfold init_db_xapp, init_tsnq. rewrite (proj2 (Z.ltb_lt _ _) Hsz), c_assert_bind, !outcome_bind_ret_l.
  destruct (db_run_inv ops [] [] (mk_db (mk_tsnq (seq_ring_init elm_sz) false false) Sizing [])) as (db & l & Hrun & Hinv); [|done..|].
  { by refine (conj (conj (ring_rep_init elm_sz) eq_refl) (conj eq_refl (conj _ I))). }
  destruct (db_worker_idles _ _ _ Hinv) as (n & db' & l' & Hn & Hinv' & Hidle & Hs & Hl).
  exists db, l, n, db'. cbn [app] in *. pose proof Hinv as ((Hr & _) & Hall & _). pose proof Hinv' as (_ & Hall' & _).
  refine (conj Hrun (conj Hall (conj (rep_size _ _ Hr) (conj Hn _)))). unfold db_idle in Hidle. rewrite Hs in Hidle.
  destruct (stop_token (q db)).
  - rewrite (Hl eq_refl) in *. split.
    { destruct Hinv' as ((Hr' & _) & _ & Hind' & Hp). rewrite Hidle in Hp. unfold close_db_xapp, free_tsnq_end. rewrite (proj2 Hp), Hidle.
      rewrite (seq_ring_free_rep _ _ Hr'), !outcome_bind_ret_l.
      assert (forallb is_ind l = true) as ->; [|by rewrite c_assert_bind].
      apply Is_true_true, forallb_True. rewrite Hall in Hind. apply Forall_app in Hind as [_ Hind]. by apply Forall_app in Hind as [_ Hind]. }
    unfold db_in_hand in Hall' at 1. rewrite Hidle in Hall'. cbn [app] in Hall'.
    rewrite Hall, app_assoc in Hall'. by apply app_inv_tail in Hall'.
  - destruct Hidle as [Hh ->]. rewrite Hall', Hh. by rewrite !app_nil_r.
Qed.
End db.

(** A run that the shutdown interrupts: of 130 rows the thread takes 100, and writes 98
    of them and then the two in its hand. *)
Definition demo_db : list (db_op (R := nat)) := (WriteRow <$> seq 0 130) ++ replicate 100 DbWorker ++ [StopDb].

Lemma db_rows_in_order_witness :
  ∃ (db : db_xapp_t) queued n db', (db0 ← init_db_xapp 8; db_run 8 (λ _, true) demo_db db0) = Ret db ∧
    seq 0 130 = rev (written db) ++ db_in_hand db ++ queued ∧ size_tsnq (q db) = Z.of_nat (length queued) ∧
    db_run 8 (λ _, true) (replicate n DbWorker) db = Ret db' ∧ close_db_xapp (λ _, true) db' = Ret (Some queued) ∧ rev (written db') = rev (written db) ++ db_in_hand db.
Proof.
  destruct (db_rows_in_order 8 (λ _ : nat, true) demo_db) as (db & queued & n & db' & Hrun & Hall & Hsz & Hn & Hend);
    [done|by apply Forall_forall|by vm_compute|].
  assert ((db0 ← init_db_xapp 8; db_run 8 (λ _, true) demo_db db0) = Ret db → stop_token (q db) = true) as Hs.
  { intros H. vm_compute in H. by injection H as <-. }
  rewrite (Hs Hrun) in Hend. exists db, queued, n, db'. exact (conj Hrun (conj Hall (conj Hsz (conj Hn Hend)))).
Defined.

(** ** The task manager *)

(** A pointer to a function and its argument; zero is NULL. *)
Record task_t := mk_task { args : Z; func : Z }.
#[export] Instance task_t_eq_dec : EqDecision task_t.
Proof. solve_decision. Defined.

Definition TASK_DEFAULT_ELM : Z := 32768.
Definition task_sz : Z := 16.

Definition task_ring_init : seq_ring_t task_t :=
  mk_seq_ring_t (replicate (Z.to_nat TASK_DEFAULT_ELM) None) 0 0 task_sz TASK_DEFAULT_ELM.

Record not_q_t := mk_not_q { nq_r : seq_ring_t task_t; done : Z }.

Definition init_not_q : not_q_t := mk_not_q task_ring_init 0.
Definition done_ok (q : not_q_t) : bool := (done q =? 0) || (done q =? 1).

(** [busy]: [pthread_mutex_trylock] finds the lock taken. *)
Definition try_push_not_q (busy : bool) (q : not_q_t) (t : task_t) : outcome (bool * not_q_t) :=
  c_assert (done_ok q);; c_assert (negb (func t =? 0));; c_assert (negb (args t =? 0));;
  if busy then Ret (false, q)
  else r ← seq_ring_push_back (nq_r q) t task_sz; Ret (true, mk_not_q r (done q)).

Definition push_not_q (q : not_q_t) (t : task_t) : outcome not_q_t :=
  c_assert (done_ok q);; c_assert (negb (func t =? 0));;
  r ← seq_ring_push_back (nq_r q) t task_sz; Ret (mk_not_q r (done q)).

(** The tasks a pop takes: at most 4096. *)
Definition take_tasks (not_end : bool) (q : not_q_t) : outcome (list task_t * not_q_t) :=
  let sz := seq_ring_size (nq_r q) in
  let len := if sz <? 4096 then sz else 4096 in
  ts ← ring_read_at not_end (Z.to_nat len) 0 (nq_r q);
  r ← seq_ring_erase (nq_r q) (seq_ring_front (nq_r q)) (seq_ring_at (nq_r q) len);
  Ret (ts, mk_not_q r (done q)).

(** [None] is [success] false. *)
Definition try_pop_not_q (busy : bool) (q : not_q_t) : outcome (option (list task_t) * not_q_t) :=
  if busy then Ret (None, q)
  else
    c_assert (done_ok q);;
    let sz := seq_ring_size (nq_r q) in
    if sz =? 0 then Ret (None, q)
    else
      '(ts, q') ← take_tasks false q;
      c_assert (sz =? Z.of_nat (length ts) + seq_ring_size (nq_r q'));;
      Ret (Some ts, q').

Definition pop_not_q (q : not_q_t) : outcome (popped task_t * not_q_t) :=
  c_assert (done_ok q);;
  if (seq_ring_size (nq_r q) =? 0) && (done q =? 0) then Ret (WAITS, q)
  else if done q =? 1 then Ret (NULL_PTR, q)
  else '(ts, q') ← take_tasks true q; Ret (ELMS ts, q').

Definition done_not_q (q : not_q_t) : not_q_t := mk_not_q (nq_r q) 1.

Definition free_not_q (clean : bool) (q : not_q_t) : outcome (list task_t) :=
  c_assert (done q =? 1);; seq_ring_free clean (nq_r q).

(** Where a thread is: at iteration [i] of the scan, at [pop_not_q], with tasks still to
    run, or returned. *)
Inductive worker_t := Scan (i : Z) | Pop_own | Run (ts : list task_t) | Exited.

(** [executed]: the tasks whose function was called, latest first. *)
Record task_manager_t := mk_tm { q_arr : list not_q_t; index : Z; t_arr : list worker_t; executed : list task_t }.

Definition init_task_manager (num_threads : Z) : outcome task_manager_t :=
  c_assert ((0 <? num_threads) && (num_threads <? 33));;
  Ret (mk_tm (replicate (Z.to_nat num_threads) init_not_q) 0 ((λ i, Scan (Z.of_nat i)) <$> seq 0 (Z.to_nat num_threads)) []).

Definition len_thr (tm : task_manager_t) : Z := Z.of_nat (length (q_arr tm)).
Definition q_at (tm : task_manager_t) (i : Z) : outcome not_q_t :=
  match q_arr tm !! Z.to_nat i with Some q => Ret q | None => Undef end.
Definition set_q (i : Z) (q : not_q_t) (tm : task_manager_t) : task_manager_t :=
  mk_tm (<[Z.to_nat i := q]> (q_arr tm)) (index tm) (t_arr tm) (executed tm).
Definition set_worker (idx : nat) (w : worker_t) (tm : task_manager_t) : task_manager_t :=
  mk_tm (q_arr tm) (index tm) (<[idx := w]> (t_arr tm)) (executed tm).

(** The loop of [async_task_manager]: [n] queues from the [i]-th on. *)
Fixpoint try_push_all (busy : list bool) (n : nat) (i index : Z) (t : task_t) (tm : task_manager_t) : outcome (bool * task_manager_t) :=
  match n with
  | O => Ret (false, tm)
  | S n =>
      let at_ := wrap 64 (i + index) mod len_thr tm in
      q ← q_at tm at_;
      '(ok, q) ← try_push_not_q (nth (Z.to_nat i) busy false) q t;
      if ok : bool then Ret (true, set_q at_ q tm) else try_push_all busy n (i + 1) index t tm
  end.

Definition async_task_manager (busy : list bool) (t : task_t) (tm : task_manager_t) : outcome task_manager_t :=
  c_assert (0 <? len_thr tm);; c_assert (negb (func t =? 0));;
  let idx := index tm in
  let tm := mk_tm (q_arr tm) (wrap 64 (idx + 1)) (t_arr tm) (executed tm) in
  '(ok, tm) ← try_push_all busy (Z.to_nat (len_thr tm)) 0 idx t tm;
  if ok : bool then Ret tm
  else
    q ← q_at tm (idx mod len_thr tm);
    q ← push_not_q q t;
    Ret (set_q (idx mod len_thr tm) q tm).

(** One step of the thread [idx]; false when it waits or has returned. *)
Definition worker_step (busy : bool) (idx : nat) (tm : task_manager_t) : outcome (bool * task_manager_t) :=
  let len := len_thr tm in
  let num_it := 3 * (len + Z.of_nat idx) in
  match t_arr tm !! idx with
  | Some (Scan i) =>
      if i <? num_it then
        q ← q_at tm (i mod len);
        '(ret, q) ← try_pop_not_q busy q;
        match ret with
        | Some ts => Ret (true, set_worker idx (Run ts) (set_q (i mod len) q tm))
        | None => Ret (true, set_worker idx (Scan (i + 1)) tm)
        end
      else Ret (true, set_worker idx Pop_own tm)
  | Some Pop_own =>
      q ← q_at tm (Z.of_nat idx);
      '(ret, q) ← pop_not_q q;
      match ret with
      | ELMS ts => Ret (true, set_worker idx (Run ts) (set_q (Z.of_nat idx) q tm))
      | NULL_PTR => Ret (true, set_worker idx Exited tm)
      | WAITS => Ret (false, tm)
      end
  | Some (Run (t :: ts)) => Ret (true, mk_tm (q_arr tm) (index tm) (<[idx := Run ts]> (t_arr tm)) (t :: executed tm))
  | Some (Run []) => Ret (true, set_worker idx (Scan (Z.of_nat idx)) tm)
  | Some Exited | None => Ret (false, tm)
  end.

Fixpoint free_queues (clean : bool) (qs : list not_q_t) : outcome (list task_t) :=
  match qs with
  | [] => Ret []
  | q :: qs => ts ← free_not_q clean q; ts' ← free_queues clean qs; Ret (ts ++ ts')
  end.

(** The end of [free_task_manager], after [done_not_q] of every queue: the tasks [clean]
    is called with; [None]: [pthread_join] still waits. *)
Definition free_task_manager (clean : bool) (tm : task_manager_t) : outcome (option (list task_t)) :=
  if forallb (λ w, match w with Exited => true | _ => false end) (t_arr tm)
  then ts ← free_queues clean (q_arr tm); Ret (Some ts)
  else Ret None.

(** What happens, in any order: a caller submits a task, a thread takes a step, and
    [free_task_manager] marks a queue. *)
Inductive tm_op := Async (busy : list bool) (t : task_t) | Worker (busy : bool) (idx : nat) | DoneQ (i : nat).

Definition tm_step (op : tm_op) (tm : task_manager_t) : outcome task_manager_t :=
  match op with
  | Async busy t => async_task_manager busy t tm
  | Worker busy idx => '(_, tm) ← worker_step busy idx tm; Ret tm
  | DoneQ i => Ret (mk_tm (alter done_not_q i (q_arr tm)) (index tm) (t_arr tm) (executed tm))
  end.

Fixpoint tm_run (ops : list tm_op) (tm : task_manager_t) : outcome task_manager_t :=
  match ops with [] => Ret tm | op :: ops => tm ← tm_step op tm; tm_run ops tm end.

Definition submitted (op : tm_op) : list task_t := match op with Async _ t => [t] | _ => [] end.
Definition in_hand (w : worker_t) : list task_t := match w with Run ts => ts | _ => [] end.

(** *** Moving tasks between lists of lists *)

Lemma concat_take {X} (ls : list (list X)) i l l0 l' : ls !! i = Some l → l ≡ₚ l0 ++ l' → concat ls ≡ₚ l0 ++ concat (<[i := l']> ls).
Proof.
  revert i. induction ls as [|k ls IH]; intros [|i] Hi Hp; try done; cbn in *.
  - injection Hi as ->. by rewrite Hp, app_assoc.
  - rewrite (IH i Hi Hp), !app_assoc. by rewrite (Permutation_app_comm k).
Qed.

Lemma concat_give {X} (ls : list (list X)) i l l0 l' : ls !! i = Some l → l' ≡ₚ l0 ++ l → concat (<[i := l']> ls) ≡ₚ l0 ++ concat ls.
Proof.
  intros Hi Hp. rewrite (concat_take (<[i := l']> ls) i l' l0 l); [|by apply list_lookup_insert_eq; eapply lookup_lt_Some|done].
  by rewrite list_insert_insert_eq, list_insert_id.
Qed.

Lemma sum_list_insert {X} (f : X → nat) (l : list X) i x x' : l !! i = Some x →
  (sum_list (f <$> <[i := x']> l) + f x = sum_list (f <$> l) + f x')%nat.
Proof.
  revert i. induction l as [|y l IH]; intros [|i] Hi; try done; cbn in *; [injection Hi as ->; lia|].
  specialize (IH i Hi). unfold fmap, insert in IH |- *. lia.
Qed.

(** *** The queues *)

Definition queue_tasks (q : not_q_t) : list task_t :=
  match ring_read_at false (Z.to_nat (seq_ring_size (nq_r q))) 0 (nq_r q) with Ret l => l | _ => [] end.

Definition q_ok (q : not_q_t) : Prop := ring_rep (nq_r q) (queue_tasks q) ∧ elt_size (nq_r q) = task_sz ∧ done_ok q = true.

Lemma queue_tasks_rep r d l : ring_rep r l → queue_tasks (mk_not_q r d) = l.
Proof.
  intros Hr. unfold queue_tasks. cbn [nq_r]. rewrite (rep_size _ _ Hr), Nat2Z.id.
  pose proof (ring_read_at_ok false r l [] l [] Hr ltac:(by rewrite app_nil_r)) as Hread. cbn [length] in Hread.
  change (Z.of_nat 0) with 0 in Hread. by rewrite Hread.
Qed.

Lemma q_ok_mk r d l : ring_rep r l → elt_size r = task_sz → done_ok (mk_not_q r d) = true → q_ok (mk_not_q r d) ∧ queue_tasks (mk_not_q r d) = l.
Proof. intros Hr He Hd. pose proof (queue_tasks_rep r d l Hr) as Hq. split; [|done]. split; [by rewrite Hq|done]. Qed.

Lemma init_not_q_ok : q_ok init_not_q ∧ queue_tasks init_not_q = [].
Proof. apply q_ok_mk; [|done..]. split; [by exists 15%Z|done..| |done]. done. Qed.

Lemma push_rep q t : q_ok q → Z.of_nat (length (queue_tasks q)) < 2 ^ 30 →
  ∃ r, seq_ring_push_back (nq_r q) t task_sz = Ret r ∧ q_ok (mk_not_q r (done q)) ∧ queue_tasks (mk_not_q r (done q)) = queue_tasks q ++ [t].
Proof.
  intros (Hr & He & Hd) Hl. rewrite <-He. destruct (seq_ring_push_back_rep _ _ t Hr Hl) as (r & Hp & Hr' & He').
  exists r. split; [done|]. apply q_ok_mk; [done|congruence|done].
Qed.

Lemma take_tasks_rep b q : q_ok q → ∃ q', take_tasks b q = Ret (take 4096 (queue_tasks q), q') ∧
  q_ok q' ∧ queue_tasks q' = drop 4096 (queue_tasks q) ∧ done q' = done q.
Proof.
  intros (Hr & He & Hd). set (l := queue_tasks q) in *. unfold take_tasks. rewrite (rep_size _ _ Hr).
  assert ((if Z.of_nat (length l) <? 4096 then Z.of_nat (length l) else 4096) = Z.of_nat (length (take 4096 l))) as ->.
  { rewrite length_take. destruct (Z.ltb_spec (Z.of_nat (length l)) 4096); lia. }
  pose proof (ring_read_at_ok b (nq_r q) l [] (take 4096 l) (drop 4096 l) Hr ltac:(by rewrite take_drop)) as Hread.
  rewrite Nat2Z.id. cbn [length] in Hread. change (Z.of_nat 0) with 0 in Hread. rewrite Hread, outcome_bind_ret_l.
  destruct (seq_ring_erase_prefix_rep (nq_r q) (take 4096 l) (drop 4096 l)) as (r & -> & Hr' & He'); [by rewrite take_drop|].
  rewrite outcome_bind_ret_l. eexists. split; [done|]. destruct (q_ok_mk r (done q) _ Hr') as [Hok Hq]; [congruence|done|].
  by split_and!; [apply Hok..| |].
Qed.

Lemma try_pop_rep busy q : q_ok q → ∃ ret q', try_pop_not_q busy q = Ret (ret, q') ∧ match ret with
  | Some ts => q_ok q' ∧ done q' = done q ∧ queue_tasks q = ts ++ queue_tasks q' ∧ ts ≠ []
  | None => q' = q end.
Proof.
  intros Hq. unfold try_pop_not_q. destruct busy; [by eexists _, _|]. pose proof Hq as (Hr & _ & Hd). rewrite Hd, c_assert_bind, (rep_size _ _ Hr).
  destruct (Z.eqb_spec (Z.of_nat (length (queue_tasks q))) 0) as [|Hne]; [by eexists _, _|].
  destruct (take_tasks_rep false q Hq) as (q' & -> & Hq' & Hl & Hd'). rewrite outcome_bind_ret_l.
  pose proof Hq' as (Hr' & _). rewrite (rep_size _ _ Hr'), Hl, <-Nat2Z.inj_add, <-length_app, take_drop, Z.eqb_refl, c_assert_bind.
  eexists _, _. split; [done|]. refine (conj Hq' (conj Hd' (conj _ _))); [by rewrite Hl, take_drop|].
  destruct (queue_tasks q); [done|done].
Qed.

Lemma pop_rep q : q_ok q → ∃ ret q', pop_not_q q = Ret (ret, q') ∧ match ret with
  | ELMS ts => q_ok q' ∧ done q' = done q ∧ queue_tasks q = ts ++ queue_tasks q' ∧ ts ≠ []
  | NULL_PTR => done q = 1 ∧ q' = q
  | WAITS => done q = 0 ∧ queue_tasks q = [] end.
Proof.
  intros Hq. unfold pop_not_q. pose proof Hq as (Hr & _ & Hd). rewrite Hd, c_assert_bind, (rep_size _ _ Hr).
  destruct (Z.eqb_spec (done q) 1) as [H1|H1].
  { rewrite (proj2 (Z.eqb_neq (done q) 0)), andb_false_r by lia. by eexists _, _. }
  unfold done_ok in Hd. assert (done q = 0) as H0d by lia. rewrite H0d. cbn [Z.eqb]. rewrite andb_true_r.
  destruct (Z.eqb_spec (Z.of_nat (length (queue_tasks q))) 0) as [H0|Hne].
  { eexists _, _. split; [done|]. split; [done|]. by apply nil_length_inv; lia. }
  destruct (take_tasks_rep true q Hq) as (q' & -> & Hq' & Hl & Hd'). rewrite outcome_bind_ret_l.
  eexists _, _. split; [done|]. rewrite H0d in Hd'. refine (conj Hq' (conj Hd' (conj _ _))); [by rewrite Hl, take_drop|].
  destruct (queue_tasks q); [done|done].
Qed.

(** *** The manager *)

(** Where the submitted tasks are. *)
Definition tasks_of (tm : task_manager_t) : list task_t :=
  executed tm ++ concat (in_hand <$> t_arr tm) ++ concat (queue_tasks <$> q_arr tm).

Record tm_ok (tm : task_manager_t) : Prop := {
  ok_qs : Forall q_ok (q_arr tm);
  ok_threads : length (t_arr tm) = length (q_arr tm);
  ok_some : (0 < length (q_arr tm))%nat;
  ok_index : 0 ≤ index tm;
  ok_scan idx i : t_arr tm !! idx = Some (Scan i) → 0 ≤ i;
  ok_exited idx : t_arr tm !! idx = Some Exited → done <$> q_arr tm !! idx = Some 1 }.

Lemma q_at_ok tm i : tm_ok tm → 0 ≤ i → ∃ q, q_at tm (i mod len_thr tm) = Ret q ∧
  q_arr tm !! Z.to_nat (i mod len_thr tm) = Some q ∧ q_ok q.
Proof.
  intros Htm Hi. pose proof (ok_some _ Htm). unfold q_at, len_thr.
  pose proof (Z.mod_pos_bound i (Z.of_nat (length (q_arr tm))) ltac:(lia)) as Hb.
  destruct (q_arr tm !! Z.to_nat (i mod Z.of_nat (length (q_arr tm)))) as [q|] eqn:Hq; [|apply lookup_ge_None in Hq; lia].
  exists q. split; [done|]. split; [done|]. by eapply Forall_lookup_1; [apply ok_qs|].
Qed.

Lemma queue_bound tm i q : q_arr tm !! i = Some q → (length (queue_tasks q) ≤ length (tasks_of tm))%nat.
Proof.
  intros Hq. unfold tasks_of. rewrite !length_app.
  assert ((queue_tasks <$> q_arr tm) !! i = Some (queue_tasks q)) as Hl by (by rewrite list_lookup_fmap, Hq).
  rewrite (Permutation_length (concat_take _ _ _ (queue_tasks q) [] Hl ltac:(by rewrite app_nil_r))), length_app. lia.
Qed.

(** Writing a queue or a thread that keeps [done] and the rest. *)
Lemma set_q_ok tm i q q' : tm_ok tm → q_arr tm !! Z.to_nat i = Some q → q_ok q' → done q' = done q → tm_ok (set_q i q' tm).
Proof.
  intros [Hqs Hth Hs Hi Hsc He] Hq Hq' Hd. split; cbn.
  - by apply Forall_insert.
  - by rewrite length_insert.
  - by rewrite length_insert.
  - done.
  - exact Hsc.
  - intros idx Hidx. specialize (He idx Hidx). destruct (decide (idx = Z.to_nat i)) as [->|Hne].
    + rewrite list_lookup_insert_eq by (by eapply lookup_lt_Some). rewrite Hq in He. cbn in *. congruence.
    + by rewrite list_lookup_insert_ne.
Qed.

Lemma set_worker_ok tm idx w : tm_ok tm → match w with Scan i => 0 ≤ i | Exited => done <$> q_arr tm !! idx = Some 1 | _ => True end →
  tm_ok (set_worker idx w tm).
Proof.
  intros [Hqs Hth Hs Hi Hsc He] Hw. split; cbn; try done; [by rewrite length_insert|..].
  - intros j i. rewrite list_lookup_insert_Some. intros [(-> & -> & _)|[_ Hj]]; [done|by eapply Hsc].
  - intros j. rewrite list_lookup_insert_Some. intros [(-> & -> & _)|[_ Hj]]; [done|by apply He].
Qed.

Lemma set_q_done tm i q q' : q_arr tm !! Z.to_nat i = Some q → done q' = done q → done <$> q_arr (set_q i q' tm) = done <$> q_arr tm.
Proof. intros Hq Hd. cbn. rewrite list_fmap_insert, Hd. apply list_insert_id. by rewrite list_lookup_fmap, Hq. Qed.

(** *** Submitting a task *)

Definition task_ok (t : task_t) : bool := negb (func t =? 0) && negb (args t =? 0).

(** What a push leaves. *)
Definition tm_pushed (t : task_t) (tm tm' : task_manager_t) : Prop :=
  tm_ok tm' ∧ tasks_of tm' ≡ₚ t :: tasks_of tm ∧ t_arr tm' = t_arr tm ∧ done <$> q_arr tm' = done <$> q_arr tm.

Lemma set_q_pushed tm i q q' t : tm_ok tm → q_arr tm !! Z.to_nat i = Some q → q_ok q' → done q' = done q →
  queue_tasks q' = queue_tasks q ++ [t] → tm_pushed t tm (set_q i q' tm).
Proof.
  intros Htm Hq Hq' Hd Hl. refine (conj _ (conj _ (conj eq_refl _))); [by eapply set_q_ok| |by eapply set_q_done].
  unfold tasks_of. cbn. rewrite list_fmap_insert, (concat_give _ _ (queue_tasks q) [t]).
  - cbn [app]. by rewrite !app_assoc, Permutation_middle.
  - by rewrite list_lookup_fmap, Hq.
  - by rewrite Hl, Permutation_app_comm.
Qed.

Lemma try_push_all_ok busy n : ∀ i idx t tm, tm_ok tm → task_ok t = true → Z.of_nat (length (tasks_of tm)) < 2 ^ 30 →
  ∃ ok tm', try_push_all busy n i idx t tm = Ret (ok, tm') ∧ if ok : bool then tm_pushed t tm tm' else tm' = tm.
Proof.
  induction n as [|n IH]; intros i idx t tm Htm Ht Hlen; [by eexists _, _|]. cbn [try_push_all]. cbv zeta.
  pose proof (wrap_ok 64 (i + idx) ltac:(done)) as Hw. unfold u_ok in Hw.
  destruct (q_at_ok tm (wrap 64 (i + idx)) Htm ltac:(lia)) as (q & -> & Hq & Hqok). rewrite outcome_bind_ret_l.
  unfold try_push_not_q. apply andb_true_iff in Ht as [Hf Ha]. rewrite Hf, Ha, (proj2 (proj2 Hqok)), !c_assert_bind.
  destruct (nth _ busy false); [rewrite outcome_bind_ret_l; apply IH; [done| |done]; unfold task_ok; by rewrite Hf, Ha|].
  destruct (push_rep q t Hqok) as (r & -> & Hr & Hl); [pose proof (queue_bound _ _ _ Hq); lia|]. rewrite !outcome_bind_ret_l.
  eexists true, _. split; [done|]. by eapply set_q_pushed.
Qed.

Lemma async_ok busy t tm : tm_ok tm → task_ok t = true → Z.of_nat (length (tasks_of tm)) < 2 ^ 30 →
  ∃ tm', async_task_manager busy t tm = Ret tm' ∧ tm_pushed t tm tm'.
Proof.
  intros Htm Ht Hlen. unfold async_task_manager. pose proof (ok_some _ Htm) as Hs.
  assert (tm_ok (mk_tm (q_arr tm) (wrap 64 (index tm + 1)) (t_arr tm) (executed tm))) as Htm1.
  { destruct Htm. split; try done. cbn. pose proof (wrap_ok 64 (index tm + 1) ltac:(done)) as Hw. unfold u_ok in Hw. lia. }
  rewrite (proj2 (Z.ltb_lt _ _)), c_assert_bind by (unfold len_thr; lia). pose proof Ht as [Hf _]%andb_true_iff. rewrite Hf, c_assert_bind. cbv zeta.
  set (tm1 := mk_tm _ _ _ _) in *.
  destruct (try_push_all_ok busy (Z.to_nat (len_thr tm1)) 0 (index tm) t tm1 Htm1 Ht Hlen) as ([|] & tm' & -> & Hp); rewrite outcome_bind_ret_l.
  { by exists tm'. }
  subst tm'. destruct (q_at_ok tm1 (index tm) Htm1) as (q & -> & Hq & Hqok); [by apply ok_index|]. rewrite outcome_bind_ret_l.
  unfold push_not_q. rewrite (proj2 (proj2 Hqok)), c_assert_bind, Hf, c_assert_bind.
  destruct (push_rep q t Hqok) as (r & -> & Hr & Hl); [pose proof (queue_bound _ _ _ Hq) as Hb; change (tasks_of tm1) with (tasks_of tm) in Hb; lia|].
  rewrite !outcome_bind_ret_l. eexists. split; [done|]. change (tm_pushed t tm) with (tm_pushed t tm1). by eapply set_q_pushed.
Qed.

(** *** A step of a thread *)

(** A bound on the steps of the threads if nothing more is submitted: with [n] queues, a
    scan has less than [6 n] iterations. *)
Definition worker_left (n : nat) (w : worker_t) : nat :=
  match w with Scan i => 2 + (6 * n - Z.to_nat i) | Pop_own => 1 | Run ts => 6 * n + 3 + length ts | Exited => 0 end.
Definition work_left (tm : task_manager_t) : nat :=
  (6 * length (q_arr tm) + 4) * length (concat (queue_tasks <$> q_arr tm)) + sum_list (worker_left (length (q_arr tm)) <$> t_arr tm).

(** What a step of a thread leaves: the same tasks, fewer steps to go. *)
Definition tm_moved (tm tm' : task_manager_t) : Prop :=
  tm_ok tm' ∧ tasks_of tm' ≡ₚ tasks_of tm ∧ done <$> q_arr tm' = done <$> q_arr tm ∧ (work_left tm' < work_left tm)%nat.

Lemma set_worker_moved tm idx w w' : tm_ok (set_worker idx w' tm) → t_arr tm !! idx = Some w → in_hand w' = in_hand w →
  (worker_left (length (q_arr tm)) w' < worker_left (length (q_arr tm)) w)%nat → tm_moved tm (set_worker idx w' tm).
Proof.
  intros Hok Hw Hh Hl. refine (conj Hok (conj _ (conj eq_refl _))).
  - unfold tasks_of. cbn. rewrite list_fmap_insert, list_insert_id; [done|]. by rewrite list_lookup_fmap, Hw, Hh.
  - unfold work_left. cbn. pose proof (sum_list_insert (worker_left (length (q_arr tm))) (t_arr tm) idx w w' Hw). lia.
Qed.

Lemma taken_moved tm idx w i q q' ts : tm_ok tm → t_arr tm !! idx = Some w → in_hand w = [] → w ≠ Exited →
  q_arr tm !! Z.to_nat i = Some q → q_ok q' → done q' = done q → queue_tasks q = ts ++ queue_tasks q' → ts ≠ [] →
  tm_moved tm (set_worker idx (Run ts) (set_q i q' tm)).
Proof.
  intros Htm Hw Hh Hex Hq Hq' Hd Hl Hts.
  assert (concat (queue_tasks <$> q_arr tm) ≡ₚ ts ++ concat (queue_tasks <$> <[Z.to_nat i := q']> (q_arr tm))) as HQ.
  { rewrite list_fmap_insert. apply (concat_take _ _ (queue_tasks q)); [by rewrite list_lookup_fmap, Hq|by rewrite Hl]. }
  assert (concat (in_hand <$> <[idx := Run ts]> (t_arr tm)) ≡ₚ ts ++ concat (in_hand <$> t_arr tm)) as HH.
  { rewrite list_fmap_insert. apply (concat_give _ _ []); [rewrite list_lookup_fmap, Hw; cbn; by rewrite Hh|by rewrite app_nil_r]. }
  refine (conj _ (conj _ (conj _ _))).
  - apply set_worker_ok; [by eapply set_q_ok|done].
  - unfold tasks_of. cbn. rewrite HH, HQ. by rewrite <-app_assoc, (Permutation_app_swap_app ts).
  - by eapply (set_q_done tm i q q').
  - unfold work_left. cbn. rewrite length_insert, (Permutation_length HQ), length_app.
    pose proof (sum_list_insert (worker_left (length (q_arr tm))) (t_arr tm) idx w (Run ts) Hw) as Hsum. cbn [worker_left] in Hsum.
    assert (1 ≤ length ts)%nat by (destruct ts; [done|cbn; lia]).
    assert (1 ≤ worker_left (length (q_arr tm)) w)%nat by (destruct w; [cbn; lia..|done]). nia.
Qed.

Lemma run_task_moved tm idx t ts : tm_ok tm → t_arr tm !! idx = Some (Run (t :: ts)) →
  tm_moved tm (mk_tm (q_arr tm) (index tm) (<[idx := Run ts]> (t_arr tm)) (t :: executed tm)).
Proof.
  intros Htm Hw. refine (conj _ (conj _ (conj eq_refl _))).
  - destruct (set_worker_ok tm idx (Run ts) Htm I). by split.
  - unfold tasks_of. cbn. rewrite list_fmap_insert.
    rewrite (concat_take (in_hand <$> t_arr tm) idx (t :: ts) [t] ts); [cbn [app]; by rewrite <-Permutation_middle|by rewrite list_lookup_fmap, Hw|done].
  - unfold work_left. cbn. pose proof (sum_list_insert (worker_left (length (q_arr tm))) (t_arr tm) idx _ (Run ts) Hw) as Hsum.
    cbn [worker_left length] in Hsum. lia.
Qed.

(** Why a thread does not move. *)
Definition waits (idx : nat) (tm : task_manager_t) : Prop :=
  match t_arr tm !! idx with
  | Some Pop_own => (λ q, (done q, queue_tasks q)) <$> q_arr tm !! idx = Some (0, [])
  | Some Exited | None => True
  | _ => False
  end.

Lemma worker_ok busy idx tm : tm_ok tm → ∃ b tm', worker_step busy idx tm = Ret (b, tm') ∧
  if b : bool then tm_moved tm tm' else tm' = tm ∧ waits idx tm.
Proof.
  intros Htm. unfold worker_step, waits. cbv zeta. pose proof (ok_threads _ Htm) as Hth.
  destruct (t_arr tm !! idx) as [w|] eqn:Hw; [|by eexists _, _]. pose proof (lookup_lt_Some _ _ _ Hw) as Hidx. rewrite Hth in Hidx.
  destruct w as [i| |[|t ts]|].
  - pose proof (ok_scan _ Htm idx i Hw) as Hi. destruct (Z.ltb_spec i (3 * (len_thr tm + Z.of_nat idx))) as [Hlt|Hge].
    + destruct (q_at_ok tm i Htm Hi) as (q & -> & Hq & Hqok). rewrite outcome_bind_ret_l.
      destruct (try_pop_rep busy q Hqok) as ([ts|] & q' & -> & Hret); rewrite outcome_bind_ret_l; eexists true, _; (split; [done|]).
      * destruct Hret as (Hq' & Hd & Hl & Hts). by eapply taken_moved.
      * apply (set_worker_moved tm idx (Scan i)); [by apply set_worker_ok; [|lia]|done|done|]. unfold len_thr in Hlt. cbn. lia.
    + eexists true, _. split; [done|]. apply (set_worker_moved tm idx (Scan i)); [by apply set_worker_ok|done|done|]. cbn. lia.
  - destruct (lookup_lt_is_Some_2 (q_arr tm) idx Hidx) as [q Hq]. unfold q_at. rewrite Nat2Z.id, Hq, outcome_bind_ret_l.
    assert (q_ok q) as Hqok by (by eapply Forall_lookup_1; [apply ok_qs|]).
    destruct (pop_rep q Hqok) as ([ts| |] & q' & -> & Hret); rewrite outcome_bind_ret_l.
    + eexists true, _. split; [done|]. destruct Hret as (Hq' & Hd & Hl & Hts). eapply taken_moved; try done. by rewrite Nat2Z.id.
    + destruct Hret as [Hd ->]. eexists true, _. split; [done|].
      apply (set_worker_moved tm idx Pop_own); [|done|done|cbn; lia]. apply set_worker_ok; [done|]. by rewrite Hq; cbn; rewrite Hd.
    + destruct Hret as [Hd Hl]. eexists false, _. split; [done|]. split; [done|]. cbn. by rewrite Hd, Hl.
  - eexists true, _. split; [done|]. apply (set_worker_moved tm idx (Run [])); [by apply set_worker_ok; [|lia]|done|done|]. cbn. lia.
  - eexists true, _. split; [done|]. by apply run_task_moved.
  - by eexists _, _.
Qed.

(** *** Runs *)

Lemma done_q_ok i tm : tm_ok tm → ∃ tm', tm_step (DoneQ i) tm = Ret tm' ∧ tm_ok tm' ∧ tasks_of tm' = tasks_of tm.
Proof.
  intros [Hqs Hth Hs Hi Hsc He]. eexists. split; [done|]. split; [split; cbn|].
  - apply Forall_alter; [done|]. intros q _ (Hr & Hes & Hd). exact (conj Hr (conj Hes eq_refl)).
  - by rewrite length_alter.
  - by rewrite length_alter.
  - done.
  - exact Hsc.
  - intros idx Hidx. specialize (He idx Hidx). destruct (decide (i = idx)) as [->|Hne].
    + rewrite list_lookup_alter_eq. by destruct (q_arr tm !! idx).
    + by rewrite list_lookup_alter_ne.
  - unfold tasks_of. cbn. rewrite (list_fmap_alter queue_tasks done_not_q id), list_alter_id; [done|done|]. by apply Forall_forall.
Qed.

Lemma tm_run_ok ops : ∀ tm, tm_ok tm → Forall task_ok (concat (submitted <$> ops)) →
  Z.of_nat (length (tasks_of tm) + length (concat (submitted <$> ops))) ≤ 2 ^ 30 →
  ∃ tm', tm_run ops tm = Ret tm' ∧ tm_ok tm' ∧ tasks_of tm' ≡ₚ concat (submitted <$> ops) ++ tasks_of tm.
Proof.
  induction ops as [|op ops IH]; intros tm Htm Hok Hlen; cbn [fmap list_fmap concat tm_run app] in *; [by exists tm|].
  apply Forall_app in Hok as [Hop Hok]. rewrite length_app in Hlen.
  assert (∃ tm1, tm_step op tm = Ret tm1 ∧ tm_ok tm1 ∧ tasks_of tm1 ≡ₚ submitted op ++ tasks_of tm) as (tm1 & -> & Htm1 & Hp).
  { destruct op as [busy t|busy idx|i]; cbn [submitted length tm_step app] in *.
    - apply Forall_cons_1 in Hop as [Ht%Is_true_true _].
      destruct (async_ok busy t tm Htm Ht) as (tm1 & -> & Htm1 & Hp & _); [lia|]. by exists tm1.
    - destruct (worker_ok busy idx tm Htm) as ([|] & tm1 & -> & Hmv); rewrite outcome_bind_ret_l; exists tm1; (split; [done|]).
      + by destruct Hmv as (Htm1 & Hp & _).
      + by destruct Hmv as [-> _].
    - destruct (done_q_ok i tm Htm) as (tm1 & Hs & Htm1 & Hp). exists tm1. by rewrite Hp. }
  rewrite outcome_bind_ret_l. destruct (IH tm1 Htm1 Hok) as (tm' & -> & Htm' & Hp').
  { rewrite (Permutation_length Hp), length_app. lia. }
  exists tm'. split; [done|]. split; [done|]. by rewrite Hp', Hp, <-app_assoc, (Permutation_app_swap_app (submitted op)).
Qed.

Lemma init_tm_ok n : 0 < n < 33 → ∃ tm, init_task_manager n = Ret tm ∧ tm_ok tm ∧ tasks_of tm = [].
Proof.
  intros Hn. unfold init_task_manager. rewrite (proj2 (Z.ltb_lt 0 n)), (proj2 (Z.ltb_lt n 33)), c_assert_bind by lia.
  eexists. split; [done|]. split; [split; cbn|].
  - apply Forall_replicate, init_not_q_ok.
  - by rewrite length_fmap, length_seq, length_replicate.
  - rewrite length_replicate. lia.
  - done.
  - intros idx i (j & Heq & _)%list_lookup_fmap_Some. injection Heq as ->. lia.
  - by intros idx (j & Heq & _)%list_lookup_fmap_Some.
  - unfold tasks_of. cbn. rewrite <-list_fmap_compose, fmap_replicate, (proj2 init_not_q_ok). cbn.
    assert (∀ k, concat (replicate k ([] : list task_t)) = []) as -> by (induction k; done).
    rewrite app_nil_r. by induction (seq 0 (Z.to_nat n)).
Qed.

(** C30. Whatever the interleaving of the callers, of the threads and of the shutdown,
    and whatever locks are found taken, no step of the task manager aborts or leaves its
    memory, and every task submitted is in one place: executed, in the hands of a
    thread, or in a queue; none is lost or run twice. *)
Theorem tasks_conserved n ops : 0 < n < 33 → Forall task_ok (concat (submitted <$> ops)) →
  Z.of_nat (length (concat (submitted <$> ops))) ≤ 2 ^ 30 →
  ∃ tm, (tm0 ← init_task_manager n; tm_run ops tm0) = Ret tm ∧
    concat (submitted <$> ops) ≡ₚ executed tm ++ concat (in_hand <$> t_arr tm) ++ concat (queue_tasks <$> q_arr tm).
Proof.
  intros Hn Hok Hlen. destruct (init_tm_ok n Hn) as (tm0 & -> & Htm0 & H0). rewrite outcome_bind_ret_l.
  destruct (tm_run_ok ops tm0 Htm0 Hok) as (tm & Hrun & _ & Hp); [by rewrite H0|].
  exists tm. split; [done|]. fold (tasks_of tm). by rewrite Hp, H0, app_nil_r.
Qed.

(** Steps of threads, with whether each of them moved. *)
Fixpoint work (steps : list (bool * nat)) (tm : task_manager_t) : outcome (bool * task_manager_t) :=
  match steps with
  | [] => Ret (true, tm)
  | (busy, idx) :: steps => '(b, tm) ← worker_step busy idx tm; '(bs, tm) ← work steps tm; Ret (b && bs, tm)
  end.

Definition idle (tm : task_manager_t) : Prop := ∀ busy idx, worker_step busy idx tm = Ret (false, tm).

Lemma waits_stuck busy idx tm : tm_ok tm → waits idx tm → worker_step busy idx tm = Ret (false, tm).
Proof.
  intros Htm Hw. unfold waits, worker_step in *. destruct (t_arr tm !! idx) as [[]|]; try done.
  destruct (q_arr tm !! idx) as [q|] eqn:Hq; [|done]. cbn in Hw. injection Hw as Hd Hl.
  unfold q_at. rewrite Nat2Z.id, Hq, outcome_bind_ret_l. assert (q_ok q) as Hqok by (by eapply Forall_lookup_1; [apply ok_qs|]).
  destruct (pop_rep q Hqok) as ([ts| |] & q' & -> & Hret); [|destruct Hret; congruence|done].
  destruct Hret as (_ & _ & Hts & Hne). rewrite Hl in Hts. by destruct ts.
Qed.

Lemma idle_or_moves tm : tm_ok tm → (∀ idx, waits idx tm) ∨ ∃ idx tm', worker_step false idx tm = Ret (true, tm') ∧ tm_moved tm tm'.
Proof.
  intros Htm. assert (∀ k, (∀ idx, (idx < k)%nat → waits idx tm) ∨ ∃ idx tm', worker_step false idx tm = Ret (true, tm') ∧ tm_moved tm tm') as H.
  { induction k as [|k [IH|IH]]; [left; lia| |by right].
    destruct (worker_ok false k tm Htm) as ([|] & tm' & Hs & Hmv); [right; by exists k, tm'|left].
    intros idx Hidx. destruct (decide (idx = k)) as [->|]; [apply Hmv|apply IH; lia]. }
  destruct (H (length (t_arr tm))) as [Hall|]; [left|by right]. intros idx. destruct (decide (idx < length (t_arr tm))%nat); [by apply Hall|].
  unfold waits. by rewrite lookup_ge_None_2 by lia.
Qed.

Lemma work_bounded steps : ∀ tm, tm_ok tm → ∀ tm', work steps tm = Ret (true, tm') → (length steps ≤ work_left tm)%nat.
Proof.
  induction steps as [|[busy idx] steps IH]; intros tm Htm tm' Hw; cbn [work length] in *; [lia|].
  destruct (worker_ok busy idx tm Htm) as (b & tm1 & Hs & Hmv). rewrite Hs, outcome_bind_ret_l in Hw.
  apply bind_Ret_inv in Hw as ([bs tm2] & Hw & Heq). injection Heq as Hb <-. apply andb_true_iff in Hb as [-> ->].
  destruct Hmv as (Htm1 & _ & _ & Hlt). specialize (IH tm1 Htm1 _ Hw). lia.
Qed.

Lemma work_until_idle tm : tm_ok tm → ∃ steps tm', work steps tm = Ret (true, tm') ∧ tm_ok tm' ∧ (∀ idx, waits idx tm') ∧
  tasks_of tm' ≡ₚ tasks_of tm ∧ done <$> q_arr tm' = done <$> q_arr tm.
Proof.
  remember (work_left tm) as k eqn:Hk. revert tm Hk. induction k as [k IH] using lt_wf_ind. intros tm -> Htm.
  destruct (idle_or_moves tm Htm) as [Hidle|(idx & tm1 & Hs & Htm1 & Hp & Hd & Hlt)]; [by exists [], tm|].
  destruct (IH _ Hlt tm1 eq_refl Htm1) as (steps & tm' & Hw & Htm' & Hidle & Hp' & Hd').
  exists ((false, idx) :: steps), tm'. cbn [work]. rewrite Hs, outcome_bind_ret_l, Hw, outcome_bind_ret_l.
  refine (conj eq_refl (conj Htm' (conj Hidle (conj _ _)))); [by rewrite Hp'|congruence].
Qed.

(** Threads that all wait: with no queue marked nothing is left, with all marked the
    threads have returned. *)
Lemma waits_done tm d : tm_ok tm → (∀ idx, waits idx tm) → Forall (λ x, x = d) (done <$> q_arr tm) →
  (d = 0 → tasks_of tm = executed tm) ∧ (d = 1 → Forall (λ w, w = Exited) (t_arr tm)).
Proof.
  intros Htm Hw Hd.
  assert (∀ idx w, t_arr tm !! idx = Some w → ∃ q, q_arr tm !! idx = Some q ∧ done q = d ∧ (w = Exited ∧ d = 1 ∨ w = Pop_own ∧ d = 0 ∧ queue_tasks q = [])) as Hall.
  { intros idx w Hidx. specialize (Hw idx). unfold waits in Hw. rewrite Hidx in Hw. pose proof (ok_exited _ Htm idx) as He.
    destruct (q_arr tm !! idx) as [q|] eqn:Hq.
    - rewrite Forall_fmap in Hd. pose proof (Forall_lookup_1 _ _ _ _ Hd Hq) as Hqd. cbn in Hqd. exists q. split; [done|]. split; [done|].
      destruct w; try done; [right; cbn in Hw; split_and!; congruence|left; split; [done|]]. specialize (He Hidx). cbn in He. congruence.
    - destruct w; try done. by specialize (He Hidx). }
  split; intros ->.
  - unfold tasks_of. assert (concat (in_hand <$> t_arr tm) = []) as ->.
    { apply concat_nil_Forall, Forall_fmap, Forall_lookup. intros idx w Hidx. cbn.
      destruct (Hall idx w Hidx) as (q & _ & _ & [[-> _]|[-> _]]); done. }
    assert (concat (queue_tasks <$> q_arr tm) = []) as ->; [|by rewrite !app_nil_r].
    apply concat_nil_Forall, Forall_fmap, Forall_lookup. intros idx q Hq. cbn.
    destruct (lookup_lt_is_Some_2 (t_arr tm) idx) as [w Hidx]; [rewrite (ok_threads _ Htm); by eapply lookup_lt_Some|].
    destruct (Hall idx w Hidx) as (q' & Hq' & _ & [[_ ?]|(_ & _ & Hl)]); [done|]. congruence.
  - apply Forall_lookup. intros idx w Hidx. by destruct (Hall idx w Hidx) as (q & _ & _ & [[-> _]|(_ & ? & _)]).
Qed.

Lemma exited_in_hand (l : list worker_t) : Forall (λ w, w = Exited) l → concat (in_hand <$> l) = [].
Proof. by induction 1 as [|w l -> _ IH]. Qed.

Lemma free_task_manager_ok tm : tm_ok tm → Forall (λ w, w = Exited) (t_arr tm) → Forall (λ x, x = 1) (done <$> q_arr tm) →
  free_task_manager true tm = Ret (Some (concat (queue_tasks <$> q_arr tm))).
Proof.
  intros Htm Hex Hd. unfold free_task_manager.
  assert (forallb (λ w, match w with Exited => true | _ => false end) (t_arr tm) = true) as -> by (by induction Hex as [|w l -> _ IH]).
  assert (free_queues true (q_arr tm) = Ret (concat (queue_tasks <$> q_arr tm))) as ->; [|done].
  pose proof (ok_qs _ Htm) as Hqs. revert Hd. induction Hqs as [|q qs (Hr & _ & _) _ IH]; intros Hd; [done|].
  apply Forall_cons_1 in Hd as [Hq Hd]. cbn [free_queues fmap list_fmap concat]. unfold free_not_q.
  cbn in Hq. rewrite Hq, (seq_ring_free_rep _ _ Hr), (IH Hd). reflexivity.
Qed.

(** C31. The threads of the task manager finish: from any state it can be in, no run of
    steps in which every thread moves is longer than [work_left], and some run comes to
    where no thread can move.  There every task submitted has been executed if no queue
    is marked; if all are, every thread has returned and [free_task_manager] frees exactly
    the tasks that were not executed. *)
Theorem task_manager_finishes n ops tm : 0 < n < 33 → Forall task_ok (concat (submitted <$> ops)) →
  Z.of_nat (length (concat (submitted <$> ops))) ≤ 2 ^ 30 → (tm0 ← init_task_manager n; tm_run ops tm0) = Ret tm →
  (∀ steps tm', work steps tm = Ret (true, tm') → (length steps ≤ work_left tm)%nat) ∧
  ∃ steps tm', work steps tm = Ret (true, tm') ∧ idle tm' ∧
    (Forall (λ q, done q = 0) (q_arr tm) → concat (submitted <$> ops) ≡ₚ executed tm') ∧
    (Forall (λ q, done q = 1) (q_arr tm) → ∃ ts, free_task_manager true tm' = Ret (Some ts) ∧
      concat (submitted <$> ops) ≡ₚ executed tm' ++ ts).
Proof.
  intros Hn Hok Hlen Hrun. destruct (init_tm_ok n Hn) as (tm0 & H & Htm0 & H0). rewrite H, outcome_bind_ret_l in Hrun.
  destruct (tm_run_ok ops tm0 Htm0 Hok) as (tm1 & Hrun' & Htm & Hp); [by rewrite H0|]. rewrite Hrun in Hrun'. injection Hrun' as <-.
  split; [intros steps tm'; by apply work_bounded|]. destruct (work_until_idle tm Htm) as (steps & tm' & Hw & Htm' & Hidle & Hp' & Hd).
  exists steps, tm'. refine (conj Hw (conj (λ busy idx, waits_stuck busy idx tm' Htm' (Hidle idx)) _)).
  rewrite H0, app_nil_r in Hp. split; intros Hall.
  - destruct (waits_done tm' 0 Htm' Hidle) as [Ht _]; [rewrite Hd; by apply Forall_fmap|]. rewrite <-(Ht eq_refl), Hp', Hp. done.
  - destruct (waits_done tm' 1 Htm' Hidle) as [_ Ht]; [rewrite Hd; by apply Forall_fmap|].
    eexists. split; [apply free_task_manager_ok; [done|by apply Ht|by rewrite Hd; apply Forall_fmap]|].
    rewrite <-Hp, <-Hp'. unfold tasks_of. by rewrite (exited_in_hand _ (Ht eq_refl)).
Qed.

(** *** Concrete runs *)

Definition demo_task (i : Z) : task_t := mk_task i 1.

(** Thread 0 takes task 1.  Thread 1 finds the lock of its queue, where task 2 is, taken,
    steals task 3 from the other queue, and runs it. *)
Definition demo_tm : list tm_op :=
  [Async [] (demo_task 1); Worker false 0; Async [] (demo_task 2); Async [] (demo_task 3);
   Worker true 1; Worker false 1; Worker false 1; Worker false 1].

(** Messages of one node are tasks of their own, so the near-RT RIC may handle the
    third before the first. *)
Example tasks_out_of_order :
  (tm ← (tm0 ← init_task_manager 2; tm_run demo_tm tm0); Ret (executed tm, in_hand <$> t_arr tm, queue_tasks <$> q_arr tm)) =
  Ret ([demo_task 3], [[demo_task 1]; []], [[]; [demo_task 2]]).
Proof. by vm_compute. Qed.

Lemma demo_tm_ok : Forall task_ok (concat (submitted <$> demo_tm)).
Proof. apply (bool_decide_unpack _). by vm_compute. Qed.

Lemma tasks_conserved_witness : ∃ tm, (tm0 ← init_task_manager 2; tm_run demo_tm tm0) = Ret tm ∧
  demo_task <$> [1; 2; 3] ≡ₚ executed tm ++ concat (in_hand <$> t_arr tm) ++ concat (queue_tasks <$> q_arr tm).
Proof. by apply (tasks_conserved 2 demo_tm); [|apply demo_tm_ok|]. Defined.

Lemma task_manager_finishes_witness : ∃ tm steps tm', (tm0 ← init_task_manager 2; tm_run demo_tm tm0) = Ret tm ∧
  work steps tm = Ret (true, tm') ∧ demo_task <$> [1; 2; 3] ≡ₚ executed tm'.
Proof.
  assert ((tm ← (tm0 ← init_task_manager 2; tm_run demo_tm tm0); Ret (bool_decide (Forall (λ q, done q = 0) (q_arr tm)))) = Ret true) as Hd by by vm_compute.
  apply bind_Ret_inv in Hd as (tm & Hrun & Hd). injection Hd as Hd%bool_decide_eq_true.
  destruct (task_manager_finishes 2 demo_tm tm ltac:(lia) demo_tm_ok ltac:(cbn; lia) Hrun) as (_ & steps & tm' & Hw & _ & Hall & _).
  exists tm, steps, tm'. exact (conj Hrun (conj Hw (Hall Hd))).
Defined.
