(* ===== verification/AssocReg.v ===== *)
(** * The registry [assoc_reg_t]

    [src/src/util/alg_ds/ds/assoc_container/assoc_reg.c], [find_reg] of
    [src/src/util/alg_ds/alg/find.c] and [lower_bound_reg] of
    [src/src/util/alg_ds/alg/lower_bound.c]: an array of buckets in the order of
    their keys, which the registry gives out itself; an erased entry leaves an
    empty bucket until the array is compacted.  Iterators are indices, [arr] is the
    allocated memory. *)
From S2P Require Import Prelude.

Section reg.
Context {V : Type} (zero : V).

Record registry_bucket_t := mk_bucket { b_key : Z; b_has_value : bool; b_val : V }.

Record assoc_reg_t := mk_reg {
  rg_arr : list registry_bucket_t;
  rg_sz : nat;
  rg_cap : nat;
  rg_occ_bucket : nat;
  rg_key_id : Z }.

Definition MIN_SIZE : nat := 16.

(** What [calloc] and [memset] leave in a bucket. *)
Definition zero_bucket : registry_bucket_t := mk_bucket 0 false zero.

Definition rd (l : list registry_bucket_t) (i : nat) : outcome registry_bucket_t :=
  match l !! i with Some b => Ret b | None => Undef end.
Definition wr (l : list registry_bucket_t) (i : nat) (b : registry_bucket_t) : outcome (list registry_bucket_t) :=
  in_bounds (i <? length l)%nat;; Ret (<[i := b]> l).

Definition has_value_buckets (b : registry_bucket_t) : bool := b_has_value b.
Definition iterator_in_ds (reg : assoc_reg_t) (it : nat) : bool := (it <? rg_occ_bucket reg)%nat.

(** The loop of [copy_if], [n] buckets left. *)
Fixpoint copy_if (n i i_out : nat) (src dst : list registry_bucket_t) (fp : registry_bucket_t → bool) :
    outcome (list registry_bucket_t * nat) :=
  match n with
  | O => Ret (dst, i_out)
  | S n =>
      b ← rd src i;
      if fp b then dst ← wr dst i_out b; copy_if n (S i) (S i_out) src dst fp
      else copy_if n (S i) i_out src dst fp
  end.

Fixpoint partition (n i j : nat) (arr : list registry_bucket_t) (fp : registry_bucket_t → bool) :
    outcome (list registry_bucket_t * nat) :=
  match n with
  | O => Ret (arr, j)
  | S n =>
      b ← rd arr i;
      if fp b then arr ← wr arr j b; partition n (S i) (S j) arr fp
      else partition n (S i) j arr fp
  end.

(** [memset] to zero of the buckets from [idx] to [cap]. *)
Definition clear_from (idx cap : nat) (arr : list registry_bucket_t) : outcome (list registry_bucket_t) :=
  in_bounds (cap <=? length arr)%nat;;
  Ret (take idx arr ++ replicate (cap - idx) zero_bucket ++ drop cap arr).

Definition shrink_if_necessary (reg : assoc_reg_t) : outcome assoc_reg_t :=
  if (rg_cap reg =? MIN_SIZE)%nat || (rg_cap reg <? rg_sz reg * 4)%nat then Ret reg
  else
    '(arr, idx) ← partition (rg_occ_bucket reg) 0 0 (rg_arr reg) has_value_buckets;
    c_assert (idx <=? rg_occ_bucket reg)%nat;;
    arr ← clear_from idx (rg_cap reg) arr;
    in_bounds (idx <=? rg_cap reg / 2)%nat;;
    let tmp := take idx arr ++ replicate (rg_cap reg / 2 - idx) zero_bucket in
    Ret (mk_reg tmp (rg_sz reg) (rg_cap reg / 2) idx (rg_key_id reg)).

Definition compact_if_necessary (reg : assoc_reg_t) : outcome assoc_reg_t :=
  if (rg_occ_bucket reg <? rg_sz reg * 2)%nat then Ret reg
  else
    '(arr, idx) ← partition (rg_occ_bucket reg) 0 0 (rg_arr reg) has_value_buckets;
    c_assert (idx <=? rg_occ_bucket reg)%nat;;
    arr ← clear_from idx (rg_cap reg) arr;
    Ret (mk_reg arr (rg_sz reg) (rg_cap reg) idx (rg_key_id reg)).

Definition expand_if_neccesary (reg : assoc_reg_t) : outcome assoc_reg_t :=
  if (rg_occ_bucket reg <? rg_cap reg - 1)%nat then Ret reg
  else
    '(tmp_arr, out_idx) ← copy_if (rg_occ_bucket reg) 0 0 (rg_arr reg) (replicate (rg_cap reg * 2) zero_bucket) has_value_buckets;
    Ret (mk_reg tmp_arr (rg_sz reg) (rg_cap reg * 2) out_idx (rg_key_id reg)).

Definition assoc_reg_init : assoc_reg_t := mk_reg (replicate MIN_SIZE zero_bucket) 0 MIN_SIZE 0 1.

(** [key_id] has 64 bits, a key 32. *)
Definition assoc_reg_push_back (value : V) : st assoc_reg_t Z := λ reg,
  reg ← expand_if_neccesary reg;
  let key := wrap 32 (rg_key_id reg) in
  arr ← wr (rg_arr reg) (rg_occ_bucket reg) (mk_bucket key true value);
  c_assert (negb (rg_key_id reg =? 2 ^ 64 - 1)%Z);;
  Ret (key, mk_reg arr (S (rg_sz reg)) (rg_cap reg) (S (rg_occ_bucket reg)) (rg_key_id reg + 1)).

Definition assoc_reg_key (reg : assoc_reg_t) (it : nat) : outcome Z :=
  c_assert (iterator_in_ds reg it);;
  b ← rd (rg_arr reg) it;
  c_assert (b_has_value b);;
  Ret (b_key b).

Definition assoc_reg_value (reg : assoc_reg_t) (it : nat) : outcome V :=
  c_assert (iterator_in_ds reg it);;
  b ← rd (rg_arr reg) it;
  c_assert (b_has_value b);;
  Ret (b_val b).

Definition assoc_reg_size (reg : assoc_reg_t) : nat := rg_sz reg.
Definition assoc_reg_end (reg : assoc_reg_t) : nat := rg_occ_bucket reg.

(** From [it] on, the first bucket with a value, or the end; [n] buckets left. *)
Fixpoint skip_empty (n it : nat) (arr : list registry_bucket_t) : outcome nat :=
  match n with
  | O => Ret it
  | S n => b ← rd arr it; if b_has_value b then Ret it else skip_empty n (S it) arr
  end.

Definition assoc_reg_front (reg : assoc_reg_t) : outcome nat :=
  skip_empty (rg_occ_bucket reg) 0 (rg_arr reg).

Definition assoc_reg_next (reg : assoc_reg_t) (it : nat) : outcome nat :=
  b ← rd (rg_arr reg) it;
  c_assert (b_has_value b);;
  c_assert (iterator_in_ds reg it);;
  skip_empty (rg_occ_bucket reg - S it) (S it) (rg_arr reg).

(** The loop of [assoc_reg_erase]; [free_func] frees what the value points to. *)
Fixpoint erase_loop (fuel : nat) (start_it end_it : nat) (reg : assoc_reg_t) : outcome assoc_reg_t :=
  if (start_it =? end_it)%nat then Ret reg
  else match fuel with
  | O => NoFuel
  | S fuel =>
      b ← rd (rg_arr reg) start_it;
      next ← assoc_reg_next reg start_it;
      arr ← wr (rg_arr reg) start_it (mk_bucket (b_key b) false (b_val b));
      erase_loop fuel next end_it (mk_reg arr (pred (rg_sz reg)) (rg_cap reg) (rg_occ_bucket reg) (rg_key_id reg))
  end.

Definition assoc_reg_erase (start_it end_it : nat) (reg : assoc_reg_t) : outcome assoc_reg_t :=
  if (start_it =? end_it)%nat then Ret reg
  else
    c_assert (iterator_in_ds reg start_it);;
    reg ← erase_loop (rg_occ_bucket reg) start_it end_it reg;
    reg ← compact_if_necessary reg;
    shrink_if_necessary reg.

(** The binary search; [len] is an [int], the number of buckets is below 2^31. *)
Fixpoint lower_bound_loop (fuel lower len start_it : nat) (key : Z) (arr : list registry_bucket_t) : outcome nat :=
  if (len =? 0)%nat then Ret lower
  else match fuel with
  | O => NoFuel
  | S fuel =>
      let half := (len / 2)%nat in
      let idx := (lower + half)%nat in
      b ← rd arr (start_it + idx);
      if (b_key b <? key)%Z then lower_bound_loop fuel (idx + 1) (len - half - 1) start_it key arr
      else lower_bound_loop fuel lower half start_it key arr
  end.

Definition lower_bound_reg (reg : assoc_reg_t) (start_it end_it : nat) (key : Z) : outcome nat :=
  let sz := (end_it - start_it)%nat in
  c_assert (sz <? rg_cap reg)%nat;;
  lower ← lower_bound_loop sz 0 sz start_it key (rg_arr reg);
  Ret (start_it + lower)%nat.

Definition find_reg (reg : assoc_reg_t) (start_it end_it : nat) (key : Z) : outcome nat :=
  c_assert (0 <? key)%Z;;
  if (start_it =? end_it)%nat then Ret end_it
  else
    it ← lower_bound_reg reg start_it end_it key;
    c_assert (it <=? end_it)%nat;;
    if (it =? end_it)%nat then Ret end_it
    else
      b ← rd (rg_arr reg) it;
      if negb (b_has_value b) || negb (b_key b =? key)%Z then Ret end_it else Ret it.

(** The loop of [remove_if_range_reg]: the keys of the removed entries. *)
Fixpoint remove_if_loop (n i : nat) (f : V → bool) (reg : assoc_reg_t) : outcome (list Z * assoc_reg_t) :=
  match n with
  | O => Ret ([], reg)
  | S n =>
      b ← rd (rg_arr reg) i;
      if b_has_value b && f (b_val b) then
        arr ← wr (rg_arr reg) i (mk_bucket (b_key b) false (b_val b));
        '(keys, reg) ← remove_if_loop n (S i) f (mk_reg arr (pred (rg_sz reg)) (rg_cap reg) (rg_occ_bucket reg) (rg_key_id reg));
        Ret (b_key b :: keys, reg)
      else remove_if_loop n (S i) f reg
  end.

Definition remove_if_range_reg (f : V → bool) : st assoc_reg_t (list Z) := λ reg,
  '(keys, reg) ← remove_if_loop (rg_occ_bucket reg) 0 f reg;
  reg ← compact_if_necessary reg;
  reg ← shrink_if_necessary reg;
  Ret (keys, reg).

(** The self-test, and its loop over [n] buckets from [i] on: the number of values. *)
Fixpoint test_invariants_loop (n i : nat) (last_key : Z) (arr : list registry_bucket_t) : outcome nat :=
  match n with
  | O => Ret O
  | S n =>
      b ← rd arr i;
      c_assert (last_key <? b_key b)%Z;;
      counter ← test_invariants_loop n (S i) (b_key b) arr;
      Ret (if b_has_value b then S counter else counter)
  end.

Definition test_invariants_registry_hold (reg : assoc_reg_t) : outcome () :=
  c_assert (rg_occ_bucket reg <=? rg_cap reg)%nat;;
  c_assert (rg_sz reg <=? rg_cap reg)%nat;;
  counter ← test_invariants_loop (rg_occ_bucket reg) 0 (-1) (rg_arr reg);
  c_assert (counter =? rg_sz reg)%nat.

(** What the xApp does with it ([src/src/xApp/act_proc.c]): the value of a key, and
    the removal of a key. *)
Definition reg_lookup (key : Z) (reg : assoc_reg_t) : outcome (option V) :=
  it ← assoc_reg_front reg;
  let end_it := assoc_reg_end reg in
  it ← find_reg reg it end_it key;
  if (it =? end_it)%nat then Ret None else v ← assoc_reg_value reg it; Ret (Some v).

Definition reg_remove (key : Z) (reg : assoc_reg_t) : outcome assoc_reg_t :=
  it ← assoc_reg_front reg;
  let end_it := assoc_reg_end reg in
  it ← find_reg reg it end_it key;
  c_assert (negb (it =? end_it)%nat);;
  next ← assoc_reg_next reg it;
  assoc_reg_erase it next reg.
End reg.
Arguments registry_bucket_t : clear implicits.
Arguments assoc_reg_t : clear implicits.
