(* ===== verification/AssocRegInv.v ===== *)
(** * The registry: an ordered map that gives out its keys

    The buckets of [AssocReg] hold the live entries in the order of their keys; the
    binary search is a linear search; programs see a list of entries. *)
From S2P Require Import Prelude.
From stdpp Require Import list sorting.
From S2P Require Import AssocReg.

Section reg.
Context {V : Type} (zero : V).
Abbreviation bucket := (registry_bucket_t V).
Abbreviation reg_t := (assoc_reg_t V).
Implicit Types (arr : list bucket) (reg : reg_t) (L : list (Z * V)).

Abbreviation alive := (λ b : bucket, b_has_value b = true).
Definition live arr : list (Z * V) :=
  omap (λ b, if b_has_value b then Some (b_key b, b_val b) else None) arr.

Lemma live_filter arr : live (filter alive arr) = live arr.
Proof.
  induction arr as [|b arr IH]; [done|]. destruct (b_has_value b) eqn:Hb.
  - rewrite filter_cons_True by done. cbn. rewrite Hb. by f_equal.
  - rewrite filter_cons_False by congruence. cbn. by rewrite Hb.
Qed.

Lemma length_live arr : length (live arr) = length (filter alive arr).
Proof.
  induction arr as [|b arr IH]; [done|]. destruct (b_has_value b) eqn:Hb.
  - rewrite filter_cons_True by done. cbn. rewrite Hb. cbn. by f_equal.
  - rewrite filter_cons_False by congruence. cbn. by rewrite Hb.
Qed.

Lemma live_dead arr : Forall (λ b, b_has_value b = false) arr → live arr = [].
Proof. induction 1 as [|b arr Hb _ IH]; [done|]. cbn. by rewrite Hb. Qed.

Lemma sorted_lookup arr i j b c : StronglySorted Z.lt (b_key <$> arr) → i < j → arr !! i = Some b → arr !! j = Some c →
  (b_key b < b_key c)%Z.
Proof.
  revert i j. induction arr as [|d arr IH]; intros i j Hs Hij Hi Hj; [done|]. cbn in Hs. apply StronglySorted_inv in Hs as [Hs HF].
  destruct j as [|j]; [lia|]. destruct i as [|i]; [|apply (IH i j Hs); [lia|done..]].
  injection Hi as ->. rewrite Forall_forall in HF. by apply HF, list_elem_of_fmap_2, (list_elem_of_lookup_2 _ j).
Qed.

Lemma live_app arr1 arr2 : live (arr1 ++ arr2) = live arr1 ++ live arr2.
Proof. apply omap_app. Qed.

(** ** Memory *)

Lemma rd_ok arr i b : arr !! i = Some b → rd arr i = Ret b.
Proof. unfold rd. by intros ->. Qed.
Lemma wr_ok arr i b : i < length arr → wr arr i b = Ret (<[i := b]> arr).
Proof. intros Hi. unfold wr. by rewrite (proj2 (Nat.ltb_lt _ _) Hi). Qed.

Lemma take_drop_S {A} (l : list A) i n x : l !! i = Some x → take (S n) (drop i l) = x :: take n (drop (S i) l).
Proof. intros Hx. by rewrite (drop_S l x i Hx). Qed.

(** [partition] moves the buckets that satisfy [fp] to the front. *)
Lemma partition_ok n i j arr : j <= i → i + n <= length arr →
  ∃ arr', partition n i j arr has_value_buckets = Ret (arr', j + length (filter alive (take n (drop i arr)))) ∧
    length arr' = length arr ∧
    take (j + length (filter alive (take n (drop i arr)))) arr' = take j arr ++ filter alive (take n (drop i arr)).
Proof.
  revert i j arr. induction n as [|n IH]; intros i j arr Hj Hn; cbn [partition].
  - exists arr. cbn. by rewrite Nat.add_0_r, app_nil_r.
  - destruct (lookup_lt_is_Some_2 arr i ltac:(lia)) as [b Hb]. rewrite (rd_ok _ _ _ Hb), outcome_bind_ret_l.
    rewrite (take_drop_S _ _ _ _ Hb). change (has_value_buckets b) with (b_has_value b). destruct (b_has_value b) eqn:Hv.
    + rewrite filter_cons_True by done. rewrite wr_ok, outcome_bind_ret_l by lia.
      destruct (IH (S i) (S j) (<[j := b]> arr)) as (arr' & Hp & Hl & Ht); [lia|by rewrite length_insert; lia|].
      rewrite drop_insert_lt in Hp, Ht by lia. exists arr'. cbn [length]. rewrite Nat.add_succ_r.
      split; [exact Hp|]. split; [by rewrite Hl, length_insert|]. rewrite Nat.add_succ_l in Ht. rewrite Ht.
      rewrite (take_S_r _ _ b) by (apply list_lookup_insert_eq; lia). rewrite take_insert_ge by lia. by rewrite <-app_assoc.
    + rewrite filter_cons_False by congruence. apply IH; lia.
Qed.

Lemma copy_if_ok n i j arr dst : i + n <= length arr → j + length (filter alive (take n (drop i arr))) <= length dst →
  ∃ dst', copy_if n i j arr dst has_value_buckets = Ret (dst', j + length (filter alive (take n (drop i arr)))) ∧
    length dst' = length dst ∧
    take (j + length (filter alive (take n (drop i arr)))) dst' = take j dst ++ filter alive (take n (drop i arr)).
Proof.
  revert i j dst. induction n as [|n IH]; intros i j dst Hn Hd; cbn [copy_if].
  - exists dst. cbn. by rewrite Nat.add_0_r, app_nil_r.
  - destruct (lookup_lt_is_Some_2 arr i ltac:(lia)) as [b Hb]. rewrite (rd_ok _ _ _ Hb), outcome_bind_ret_l.
    rewrite (take_drop_S _ _ _ _ Hb) in Hd |- *. change (has_value_buckets b) with (b_has_value b). destruct (b_has_value b) eqn:Hv.
    + rewrite filter_cons_True in Hd |- * by done. cbn [length] in Hd. rewrite wr_ok, outcome_bind_ret_l by lia.
      destruct (IH (S i) (S j) (<[j := b]> dst)) as (dst' & Hp & Hl & Ht); [lia|rewrite length_insert; lia|].
      exists dst'. cbn [length]. rewrite Nat.add_succ_r. rewrite Nat.add_succ_l in Hp, Ht.
      split; [exact Hp|]. split; [by rewrite Hl, length_insert|]. rewrite Ht.
      rewrite (take_S_r _ _ b) by (apply list_lookup_insert_eq; lia). rewrite take_insert_ge by lia. by rewrite <-app_assoc.
    + rewrite filter_cons_False in Hd |- * by congruence. apply IH; lia.
Qed.

(** ** The invariant *)

Abbreviation used reg := (take (rg_occ_bucket reg) (rg_arr reg)).

Record reg_wf reg L : Prop := mk_reg_wf {
  rw_len : length (rg_arr reg) = rg_cap reg;
  rw_cap : ∃ k, rg_cap reg = 16 * 2 ^ k;
  rw_occ : rg_occ_bucket reg < rg_cap reg;
  rw_live : live (used reg) = L;
  rw_sz : rg_sz reg = length L;
  rw_sorted : StronglySorted Z.lt (b_key <$> used reg);
  rw_keys : Forall (λ b, 0 < b_key b < rg_key_id reg)%Z (used reg);
  rw_next : (1 <= rg_key_id reg)%Z }.

Lemma sorted_filter arr : StronglySorted Z.lt (b_key <$> arr) → StronglySorted Z.lt (b_key <$> filter alive arr).
Proof.
  induction arr as [|b arr IH]; [done|]. intros [Hs HF]%StronglySorted_inv. specialize (IH Hs). destruct (b_has_value b) eqn:Hb.
  - rewrite filter_cons_True by done. cbn. constructor; [done|].
    apply Forall_forall. intros x (y & -> & [_ Hy]%list_elem_of_filter)%list_elem_of_fmap.
    rewrite Forall_forall in HF. by apply HF, list_elem_of_fmap_2.
  - by rewrite filter_cons_False by congruence.
Qed.

(** Live buckets at the front of an array of [cap] buckets. *)
Lemma reg_wf_packed reg L arr cap : reg_wf reg L → length arr = cap → (∃ k, cap = 16 * 2 ^ k) → length L < cap →
  take (length L) arr = filter alive (used reg) →
  reg_wf (mk_reg arr (rg_sz reg) cap (length L) (rg_key_id reg)) L.
Proof.
  intros Hw Hl Hc Hlt Ht. constructor; cbn [rg_arr rg_sz rg_cap rg_occ_bucket rg_key_id]; try done.
  - rewrite Ht, live_filter. apply (rw_live _ _ Hw).
  - apply (rw_sz _ _ Hw).
  - rewrite Ht. apply sorted_filter, (rw_sorted _ _ Hw).
  - rewrite Ht. apply Forall_forall. intros x [_ Hx]%list_elem_of_filter.
    pose proof (rw_keys _ _ Hw) as HF. rewrite Forall_forall in HF. by apply HF.
  - apply (rw_next _ _ Hw).
Qed.

Lemma wf_filter_length reg L : reg_wf reg L → length (filter alive (used reg)) = length L.
Proof. intros Hw. rewrite <-(rw_live _ _ Hw). symmetry. apply length_live. Qed.

(** The self-test of the code passes. *)
Lemma test_invariants_loop_ok n : ∀ i last arr, i + n <= length arr →
  StronglySorted Z.lt (last :: (b_key <$> take n (drop i arr))) →
  test_invariants_loop n i last arr = Ret (length (filter alive (take n (drop i arr)))).
Proof.
  induction n as [|n IH]; intros i last arr Hn Hs; [done|]. cbn [test_invariants_loop].
  destruct (lookup_lt_is_Some_2 arr i) as [b Hb]; [lia|]. unfold rd. rewrite Hb, outcome_bind_ret_l.
  rewrite (drop_S _ _ _ Hb) in *. cbn [take fmap list_fmap] in Hs.
  apply StronglySorted_inv in Hs as [Hs [Hlt _]%Forall_cons_1].
  rewrite (proj2 (Z.ltb_lt _ _) Hlt), c_assert_bind, (IH (S i) (b_key b) arr) by (done || lia).
  rewrite outcome_bind_ret_l. cbn [take]. destruct (b_has_value b) eqn:Hv.
  - by rewrite filter_cons_True by done.
  - by rewrite filter_cons_False by congruence.
Qed.

Lemma test_invariants_wf reg L : reg_wf reg L → test_invariants_registry_hold reg = Ret ().
Proof.
  intros Hw. unfold test_invariants_registry_hold. pose proof (rw_occ _ _ Hw) as Ho. pose proof (wf_filter_length reg L Hw) as Hl.
  assert (length (filter alive (used reg)) <= rg_occ_bucket reg) as Hle by (etrans; [apply length_filter|]; rewrite length_take; lia).
  rewrite (rw_sz _ _ Hw). rewrite !(proj2 (Nat.leb_le _ _)), !c_assert_bind by lia.
  rewrite test_invariants_loop_ok, outcome_bind_ret_l; [|rewrite (rw_len _ _ Hw); lia|].
  - rewrite drop_0, Hl, Nat.eqb_refl. done.
  - rewrite drop_0. constructor; [exact (rw_sorted _ _ Hw)|]. apply Forall_forall. intros k (b & -> & Hb)%list_elem_of_fmap.
    pose proof (rw_keys _ _ Hw) as HF. rewrite Forall_forall in HF. specialize (HF b Hb). lia.
Qed.

Lemma live_le reg L : reg_wf reg L → length L <= rg_occ_bucket reg.
Proof.
  intros Hw. rewrite <-(rw_live _ _ Hw), length_live. etrans; [apply length_filter|]. rewrite length_take. lia.
Qed.

Lemma cap_ge reg L : reg_wf reg L → 16 <= rg_cap reg.
Proof. intros Hw. destruct (rw_cap _ _ Hw) as [k ->]. pose proof (Nat.pow_nonzero 2 k). lia. Qed.

(** The buckets in use, packed by [partition]. *)
Lemma partition_used reg L : reg_wf reg L → ∃ arr, partition (rg_occ_bucket reg) 0 0 (rg_arr reg) has_value_buckets = Ret (arr, length L) ∧
  length arr = rg_cap reg ∧ take (length L) arr = filter alive (used reg).
Proof.
  intros Hw. pose proof (rw_occ _ _ Hw). pose proof (rw_len _ _ Hw) as Hlen.
  destruct (partition_ok (rg_occ_bucket reg) 0 0 (rg_arr reg)) as (arr & Hp & Hl & Ht); [lia|lia|].
  rewrite drop_0 in Hp, Ht. rewrite !Nat.add_0_l, (wf_filter_length _ _ Hw) in Hp, Ht. exists arr. by rewrite Hl, Hlen.
Qed.

Lemma clear_from_ok idx cap arr : length arr = cap → idx <= cap →
  clear_from zero idx cap arr = Ret (take idx arr ++ replicate (cap - idx) (zero_bucket zero)).
Proof.
  intros Hl Hi. unfold clear_from. rewrite (proj2 (Nat.leb_le _ _)) by lia. cbn.
  by rewrite (drop_ge arr) by lia; rewrite app_nil_r.
Qed.

Lemma init_wf : reg_wf (assoc_reg_init zero) [].
Proof. constructor; cbn; try done; [by exists 0|unfold MIN_SIZE; lia|apply SSorted_nil]. Qed.

(** ** Resizing *)

(** [L] without what happened to it does not change the entries. *)
Lemma shrink_ok reg L : reg_wf reg L → ∃ reg', shrink_if_necessary zero reg = Ret reg' ∧ reg_wf reg' L ∧ rg_key_id reg' = rg_key_id reg.
Proof.
  intros Hw. unfold shrink_if_necessary. destruct ((rg_cap reg =? MIN_SIZE) || (rg_cap reg <? rg_sz reg * 4)) eqn:Hc; [by exists reg|].
  apply orb_false_iff in Hc as [Hm Hlt]. apply Nat.eqb_neq in Hm. apply Nat.ltb_ge in Hlt. rewrite (rw_sz _ _ Hw) in Hlt.
  destruct (partition_used reg L Hw) as (arr & -> & Hl & Ht). cbn [mbind outcome_bind].
  pose proof (live_le reg L Hw). pose proof (rw_occ _ _ Hw). pose proof (cap_ge reg L Hw) as H16.
  rewrite (proj2 (Nat.leb_le (length L) (rg_occ_bucket reg))) by lia. cbn [c_assert mbind outcome_bind].
  rewrite (clear_from_ok _ _ arr Hl), outcome_bind_ret_l by lia.
  destruct (rw_cap _ _ Hw) as [k Hk]. destruct k as [|k]; [by rewrite Hk in Hm|].
  assert (rg_cap reg = 2 * (16 * 2 ^ k)) as H2 by (rewrite Hk; cbn; lia).
  assert (rg_cap reg / 2 = 16 * 2 ^ k) as Hhalf by (rewrite H2, Nat.mul_comm; by apply Nat.div_mul).
  rewrite Hhalf. rewrite (proj2 (Nat.leb_le _ _)) by lia. cbn [in_bounds mbind outcome_bind].
  eexists. split; [reflexivity|]. split; [|done]. rewrite take_app_le by (rewrite length_take; lia). rewrite take_take, Nat.min_id.
  apply reg_wf_packed; [done| | |lia|].
  - rewrite length_app, length_take, length_replicate. lia.
  - by exists k.
  - rewrite take_app_le by (rewrite length_take; lia). by rewrite take_take, Nat.min_id.
Qed.

Lemma compact_ok reg L : reg_wf reg L → ∃ reg', compact_if_necessary zero reg = Ret reg' ∧ reg_wf reg' L ∧ rg_key_id reg' = rg_key_id reg.
Proof.
  intros Hw. unfold compact_if_necessary. destruct (rg_occ_bucket reg <? rg_sz reg * 2); [by exists reg|].
  destruct (partition_used reg L Hw) as (arr & -> & Hl & Ht). cbn [mbind outcome_bind].
  pose proof (live_le reg L Hw). pose proof (rw_occ _ _ Hw).
  rewrite (proj2 (Nat.leb_le (length L) (rg_occ_bucket reg))) by lia. cbn [c_assert mbind outcome_bind].
  rewrite (clear_from_ok _ _ arr Hl), outcome_bind_ret_l by lia. eexists. split; [reflexivity|]. split; [|done].
  apply reg_wf_packed; [done| |apply (rw_cap _ _ Hw)|lia|].
  - rewrite length_app, length_take, length_replicate. lia.
  - rewrite take_app_le by (rewrite length_take; lia). by rewrite take_take, Nat.min_id.
Qed.

Lemma expand_ok reg L : reg_wf reg L → ∃ reg', expand_if_neccesary zero reg = Ret reg' ∧ reg_wf reg' L ∧
  rg_key_id reg' = rg_key_id reg ∧ rg_occ_bucket reg' < rg_cap reg' - 1.
Proof.
  intros Hw. unfold expand_if_neccesary. destruct (Nat.ltb_spec (rg_occ_bucket reg) (rg_cap reg - 1)); [by exists reg|].
  pose proof (live_le reg L Hw). pose proof (rw_occ _ _ Hw). pose proof (rw_len _ _ Hw) as Hlen. pose proof (cap_ge reg L Hw).
  destruct (copy_if_ok (rg_occ_bucket reg) 0 0 (rg_arr reg) (replicate (rg_cap reg * 2) (zero_bucket zero))) as (dst & Hp & Hl & Ht);
    [lia|rewrite drop_0, (wf_filter_length _ _ Hw), length_replicate; lia|].
  rewrite drop_0, (wf_filter_length _ _ Hw), Nat.add_0_l in Hp, Ht. rewrite Hp. cbn [mbind outcome_bind].
  rewrite length_replicate in Hl. eexists. split; [reflexivity|]. split; [|cbn; lia].
  apply reg_wf_packed; [done|done| |lia|done]. destruct (rw_cap _ _ Hw) as [k ->]. exists (S k). cbn. lia.
Qed.

(** ** Insertion *)

Lemma push_back_ok reg L v : reg_wf reg L → (rg_key_id reg < 2 ^ 32)%Z →
  ∃ reg', assoc_reg_push_back zero v reg = Ret (rg_key_id reg, reg') ∧ reg_wf reg' (L ++ [(rg_key_id reg, v)]) ∧
    rg_key_id reg' = (rg_key_id reg + 1)%Z.
Proof.
  intros Hw Hk. unfold assoc_reg_push_back. destruct (expand_ok reg L Hw) as (r & -> & Hr & Hkr & Hocc). rewrite outcome_bind_ret_l, Hkr.
  pose proof (rw_len _ _ Hr) as Hlen. pose proof (rw_next _ _ Hw). rewrite wrap_id by (unfold u_ok; lia).
  rewrite wr_ok, outcome_bind_ret_l by lia. rewrite (proj2 (Z.eqb_neq _ _)) by lia. cbn [negb c_assert mbind outcome_bind].
  set (b := mk_bucket (rg_key_id reg) true v). eexists. split; [reflexivity|]. split; [|done].
  assert (take (S (rg_occ_bucket r)) (<[rg_occ_bucket r := b]> (rg_arr r)) = used r ++ [b]) as Hu.
  { rewrite (take_S_r _ _ b) by (apply list_lookup_insert_eq; lia). by rewrite take_insert_ge. }
  constructor; cbn [rg_arr rg_sz rg_cap rg_occ_bucket rg_key_id]; rewrite ?Hu.
  - by rewrite length_insert.
  - apply (rw_cap _ _ Hr).
  - lia.
  - by rewrite live_app, (rw_live _ _ Hr).
  - rewrite (rw_sz _ _ Hr), length_app. cbn. lia.
  - rewrite fmap_app. cbn. pose proof (rw_keys _ _ Hr) as HF. rewrite Hkr in HF.
    apply StronglySorted_app_2; [|apply (rw_sorted _ _ Hr)|repeat constructor].
    intros x1 x2 (b1 & -> & Hb)%list_elem_of_fmap ->%list_elem_of_singleton. rewrite Forall_forall in HF. by apply HF.
  - apply Forall_app. split; [|by apply Forall_singleton; cbn; lia].
    eapply Forall_impl; [apply (rw_keys _ _ Hr)|]. cbn. rewrite Hkr. lia.
  - lia.
Qed.
(** ** Search *)

(** The linear search for the first key that is not below [key]. *)
Fixpoint scan (key : Z) arr : nat :=
  match arr with
  | [] => 0
  | b :: arr => if (b_key b <? key)%Z then S (scan key arr) else 0
  end.

Lemma scan_le key arr : scan key arr <= length arr.
Proof. induction arr as [|b arr IH]; cbn; [done|]. destruct (_ <? _)%Z; lia. Qed.

Lemma scan_below key arr i b : arr !! i = Some b → i < scan key arr → (b_key b < key)%Z.
Proof.
  revert i. induction arr as [|c arr IH]; intros i Hi Hlt; [done|]. cbn in Hlt.
  destruct (Z.ltb_spec (b_key c) key); [|lia]. destruct i as [|i]; [by injection Hi as <-|]. apply (IH i Hi). lia.
Qed.

Lemma scan_above key arr i b : StronglySorted Z.lt (b_key <$> arr) → arr !! i = Some b → scan key arr <= i → (key <= b_key b)%Z.
Proof.
  revert i. induction arr as [|c arr IH]; intros i Hs Hi Hle; [done|]. cbn in Hle, Hs. apply StronglySorted_inv in Hs as [Hs HF].
  destruct (Z.ltb_spec (b_key c) key) as [Hlt|Hge].
  - destruct i as [|i]; [lia|]. apply (IH i Hs Hi). lia.
  - destruct i as [|i]; [by injection Hi as <-|]. rewrite Forall_forall in HF.
    enough (b_key c < b_key b)%Z by lia. apply HF. by apply list_elem_of_fmap_2, (list_elem_of_lookup_2 _ i).
Qed.

Lemma lower_bound_loop_ok fuel lower len start key arr n : StronglySorted Z.lt (b_key <$> take n (drop start arr)) →
  start + n <= length arr → len <= fuel → lower + len <= n →
  lower <= scan key (take n (drop start arr)) <= lower + len →
  lower_bound_loop fuel lower len start key arr = Ret (scan key (take n (drop start arr))).
Proof.
  intros Hs Hn. revert lower len. induction fuel as [|fuel IH]; intros lower len Hf Hr Hscan; cbn [lower_bound_loop].
  - assert (len = 0) as -> by lia. cbn. f_equal. lia.
  - destruct (Nat.eqb_spec len 0) as [->|Hne]; [f_equal; lia|]. cbv zeta.
    assert (len / 2 < len) as Hhalf by (apply Nat.div_lt; lia). set (half := len / 2) in *.
    destruct (lookup_lt_is_Some_2 (take n (drop start arr)) (lower + half)) as [b Hb].
    { rewrite length_take, length_drop. lia. }
    assert (arr !! (start + (lower + half)) = Some b) as Hb' by (rewrite lookup_take_lt, lookup_drop in Hb by lia; done).
    rewrite (rd_ok _ _ _ Hb'), outcome_bind_ret_l. destruct (Z.ltb_spec (b_key b) key) as [Hlt|Hge].
    + apply IH; [lia|lia|]. split; [|lia]. apply Nat.nlt_ge. intros Hle.
      assert (key <= b_key b)%Z by (eapply scan_above; [exact Hs|exact Hb|lia]). lia.
    + apply IH; [lia|lia|]. split; [lia|]. apply Nat.nlt_ge. intros Hgt.
      assert (b_key b < key)%Z by (eapply scan_below; [exact Hb|done]). lia.
Qed.

Lemma drop_used reg i j : j <= rg_occ_bucket reg → take (j - i) (drop i (rg_arr reg)) = take (j - i) (drop i (used reg)).
Proof.
  intros Hj. destruct (decide (i <= j)) as [Hij|Hij].
  - rewrite skipn_firstn_comm, take_take. f_equal. lia.
  - replace (j - i) with 0 by lia. done.
Qed.

Lemma sorted_sub arr n i : StronglySorted Z.lt (b_key <$> arr) → StronglySorted Z.lt (b_key <$> take n (drop i arr)).
Proof.
  intros Hs. rewrite <-(take_drop i arr), fmap_app in Hs. apply StronglySorted_app in Hs as (_ & _ & Hs).
  rewrite <-(take_drop n (drop i arr)), fmap_app in Hs. by apply StronglySorted_app in Hs as (_ & Hs & _).
Qed.

(** On the buckets in use, the binary search finds what the linear search finds. *)
Theorem lower_bound_is_scan reg L i j key : reg_wf reg L → i <= j <= rg_occ_bucket reg →
  lower_bound_reg reg i j key = Ret (i + scan key (take (j - i) (drop i (rg_arr reg)))).
Proof.
  intros Hw Hij. pose proof (rw_occ _ _ Hw). pose proof (rw_len _ _ Hw). unfold lower_bound_reg. cbv zeta.
  rewrite (proj2 (Nat.ltb_lt _ _)) by lia. cbn [c_assert mbind outcome_bind].
  erewrite (lower_bound_loop_ok (j - i) 0 (j - i) i key (rg_arr reg) (j - i)); [done| |lia|lia|lia|].
  - rewrite drop_used by lia. apply sorted_sub, (rw_sorted _ _ Hw).
  - split; [lia|]. etrans; [apply scan_le|]. rewrite length_take. lia.
Qed.
(** ** Iteration *)

Lemma skip_empty_ok n it arr : it + n <= length arr → ∃ r, skip_empty n it arr = Ret r ∧ it <= r <= it + n ∧
  (∀ i b, it <= i < r → arr !! i = Some b → b_has_value b = false) ∧
  (r < it + n → ∃ b, arr !! r = Some b ∧ b_has_value b = true).
Proof.
  revert it. induction n as [|n IH]; intros it Hn; cbn [skip_empty].
  - exists it. split_and!; [done|lia|lia|intros; lia|lia].
  - destruct (lookup_lt_is_Some_2 arr it ltac:(lia)) as [b Hb]. rewrite (rd_ok _ _ _ Hb), outcome_bind_ret_l.
    destruct (b_has_value b) eqn:Hv.
    + exists it. split_and!; [done|lia|lia|intros; lia|by exists b].
    + destruct (IH (S it)) as (r & Hr & Hrr & Hd & Hl); [lia|]. exists r. split_and!; [done|lia|lia| |intros; apply Hl; lia].
      intros i b' Hi Hb'. destruct (decide (i = it)) as [->|]; [congruence|]. apply (Hd i b'); [lia|done].
Qed.

(** The entries from the front on are all of them. *)
Lemma front_ok reg L : reg_wf reg L → ∃ f, assoc_reg_front reg = Ret f ∧ f <= rg_occ_bucket reg ∧ live (drop f (used reg)) = L.
Proof.
  intros Hw. pose proof (rw_occ _ _ Hw). pose proof (rw_len _ _ Hw).
  destruct (skip_empty_ok (rg_occ_bucket reg) 0 (rg_arr reg)) as (f & Hf & Hr & Hd & _); [lia|].
  exists f. split; [exact Hf|]. split; [lia|]. rewrite <-(rw_live _ _ Hw). rewrite <-(take_drop f (used reg)) at 2.
  rewrite live_app. enough (live (take f (used reg)) = []) as -> by done.
  apply live_dead, Forall_lookup. intros i b Hi. apply lookup_take_Some in Hi as [Hi Hlt].
  apply lookup_take_Some in Hi as [Hi _]. rewrite (Hd i b); [done|lia|done].
Qed.

Lemma used_lookup reg L i b : reg_wf reg L → used reg !! i = Some b → rg_arr reg !! i = Some b ∧ i < rg_occ_bucket reg.
Proof. intros Hw Hi. by apply lookup_take_Some in Hi. Qed.

Lemma next_ok reg L i b : reg_wf reg L → used reg !! i = Some b → b_has_value b = true →
  ∃ r, assoc_reg_next reg i = Ret r ∧ i < r <= rg_occ_bucket reg.
Proof.
  intros Hw Hi Hv. destruct (used_lookup _ _ _ _ Hw Hi) as [Ha Hlt]. unfold assoc_reg_next, iterator_in_ds.
  rewrite (rd_ok _ _ _ Ha), outcome_bind_ret_l, Hv, (proj2 (Nat.ltb_lt _ _) Hlt). cbn [c_assert mbind outcome_bind].
  pose proof (rw_occ _ _ Hw). pose proof (rw_len _ _ Hw).
  destruct (skip_empty_ok (rg_occ_bucket reg - S i) (S i) (rg_arr reg)) as (r & Hr & Hrr & _); [lia|].
  exists r. split; [done|lia].
Qed.

(** ** Lookup *)

Definition assoc_get (k : Z) L : option V := snd ∘ snd <$> list_find (λ e, e.1 = k) L.

Lemma sorted_keys_NoDup arr : StronglySorted Z.lt (b_key <$> arr) → NoDup (live arr).*1.
Proof.
  induction arr as [|b arr IH]; [intros; constructor|]. cbn. intros [Hs HF]%StronglySorted_inv. specialize (IH Hs).
  destruct (b_has_value b); [|done]. cbn. constructor; [|done]. intros (e & He & Hin)%list_elem_of_fmap.
  apply list_elem_of_omap in Hin as (c & Hc & Hsome). destruct (b_has_value c); [|done]. injection Hsome as <-. cbn in He.
  rewrite Forall_forall in HF. specialize (HF (b_key c)). enough (b_key b < b_key c)%Z by lia. apply HF. by apply list_elem_of_fmap_2.
Qed.

Lemma assoc_get_Some L k v : NoDup L.*1 → (k, v) ∈ L → assoc_get k L = Some v.
Proof.
  intros Hnd Hin. unfold assoc_get. destruct (list_find (λ e, e.1 = k) L) as [[i [k' v']]|] eqn:Hf.
  - apply list_find_Some in Hf as (Hi & Hk & _). cbn in Hk |- *. subst k'. f_equal. apply (NoDup_fst_inj L k); [done|by eapply list_elem_of_lookup_2|done].
  - apply list_find_None in Hf. rewrite Forall_forall in Hf. by destruct (Hf (k, v) Hin).
Qed.

Lemma assoc_get_None L k : k ∉ L.*1 → assoc_get k L = None.
Proof.
  intros Hk. unfold assoc_get. destruct (list_find (λ e, e.1 = k) L) as [[i [k' v']]|] eqn:Hf; [|done].
  apply list_find_Some in Hf as (Hi & He & _). cbn in He. subst k'. destruct Hk. by apply (list_elem_of_fmap_2' fst _ (k, v')); [eapply list_elem_of_lookup_2|].
Qed.

Lemma wf_NoDup reg L : reg_wf reg L → NoDup L.*1.
Proof. intros Hw. rewrite <-(rw_live _ _ Hw). apply sorted_keys_NoDup, (rw_sorted _ _ Hw). Qed.

Lemma live_elem arr k v : (k, v) ∈ live arr ↔ ∃ i b, arr !! i = Some b ∧ b_has_value b = true ∧ b_key b = k ∧ b_val b = v.
Proof.
  unfold live. rewrite list_elem_of_omap. split.
  - intros (b & [i Hi]%list_elem_of_lookup & Hb). exists i, b. destruct (b_has_value b); [|done]. by injection Hb.
  - intros (i & b & Hi & Hv & <- & <-). exists b. split; [by eapply list_elem_of_lookup_2|]. by rewrite Hv.
Qed.

(** The search from the front finds the bucket of the entry, or the end. *)
Lemma find_ok reg L f k : reg_wf reg L → assoc_reg_front reg = Ret f → f <= rg_occ_bucket reg → live (drop f (used reg)) = L → (0 < k)%Z →
  ∃ it, find_reg reg f (rg_occ_bucket reg) k = Ret it ∧
    ((it = rg_occ_bucket reg ∧ k ∉ L.*1) ∨
     ∃ b, used reg !! it = Some b ∧ b_has_value b = true ∧ b_key b = k).
Proof.
  intros Hw Hf Hfo Hl Hk. unfold find_reg. rewrite (proj2 (Z.ltb_lt _ _) Hk). cbn [c_assert mbind outcome_bind].
  destruct (Nat.eqb_spec f (rg_occ_bucket reg)) as [->|Hne].
  { eexists. split; [done|]. left. split; [done|]. rewrite <-Hl, drop_ge; [apply not_elem_of_nil|]. rewrite length_take. lia. }
  rewrite (lower_bound_is_scan reg L f (rg_occ_bucket reg) k Hw) by lia. rewrite outcome_bind_ret_l, drop_used by lia.
  assert (take (rg_occ_bucket reg - f) (drop f (used reg)) = drop f (used reg)) as ->.
  { apply take_ge. rewrite length_drop, length_take. lia. }
  assert (length (drop f (used reg)) = rg_occ_bucket reg - f) as Hlen.
  { rewrite length_drop, length_take, (rw_len _ _ Hw). pose proof (rw_occ _ _ Hw). lia. }
  pose proof (scan_le k (drop f (used reg))) as Hle. set (s := scan k (drop f (used reg))) in *.
  assert (StronglySorted Z.lt (b_key <$> drop f (used reg))) as Hs.
  { pose proof (sorted_sub (used reg) (length (drop f (used reg))) f (rw_sorted _ _ Hw)) as H. by rewrite firstn_all in H. }
  assert (∀ i b, drop f (used reg) !! i = Some b → b_key b = k → i = s) as Honly.
  { intros i b Hi Hb. destruct (decide (i = s)) as [|Hn]; [done|]. exfalso. destruct (decide (i < s)) as [Hlt|Hge].
    - pose proof (scan_below k _ i b Hi Hlt). lia.
    - destruct (lookup_lt_is_Some_2 (drop f (used reg)) s) as [c Hc]; [apply lookup_lt_Some in Hi; lia|].
      pose proof (scan_above k _ s c Hs Hc ltac:(lia)). pose proof (sorted_lookup _ s i c b Hs ltac:(lia) Hc Hi). lia. }
  assert (∀ (Hno : ∀ b, drop f (used reg) !! s = Some b → b_has_value b = true → b_key b ≠ k), k ∉ L.*1) as Habs.
  { intros Hno ([k' v] & Hk' & Hin)%list_elem_of_fmap. rewrite <-Hl in Hin. apply live_elem in Hin as (i & b & Hi & Hv & Hkb & _).
    cbn in Hk'. subst k'. pose proof (Honly i b Hi Hkb) as ->. by apply (Hno b Hi Hv). }
  rewrite (proj2 (Nat.leb_le (f + s) (rg_occ_bucket reg))) by lia. cbn [c_assert mbind outcome_bind].
  destruct (Nat.eqb_spec (f + s) (rg_occ_bucket reg)) as [He|He].
  { eexists. split; [done|]. left. split; [done|]. apply Habs. intros b Hb. apply lookup_lt_Some in Hb. lia. }
  destruct (lookup_lt_is_Some_2 (drop f (used reg)) s ltac:(lia)) as [b Hb].
  assert (used reg !! (f + s) = Some b) as Hu by (by rewrite lookup_drop in Hb).
  rewrite (rd_ok _ _ _ (proj1 (used_lookup _ _ _ _ Hw Hu))), outcome_bind_ret_l.
  destruct (b_has_value b) eqn:Hv; cbn [negb orb].
  - destruct (Z.eqb_spec (b_key b) k) as [Hkb|Hkb]; cbn [negb].
    + eexists. split; [done|]. right. by exists b.
    + eexists. split; [done|]. left. split; [done|]. apply Habs. intros b' Hb' _. congruence.
  - eexists. split; [done|]. left. split; [done|]. apply Habs. intros b' Hb' Hv'. congruence.
Qed.

Lemma lookup_ok reg L k : reg_wf reg L → (0 < k)%Z → reg_lookup k reg = Ret (assoc_get k L).
Proof.
  intros Hw Hk. unfold reg_lookup. destruct (front_ok reg L Hw) as (f & Hf & Hfo & Hl). rewrite Hf, outcome_bind_ret_l. cbv zeta.
  unfold assoc_reg_end. destruct (find_ok reg L f k Hw Hf Hfo Hl Hk) as (it & -> & Hit). rewrite outcome_bind_ret_l.
  destruct Hit as [[-> Hn]|(b & Hb & Hv & Hkb)].
  - rewrite Nat.eqb_refl. by rewrite assoc_get_None.
  - destruct (used_lookup _ _ _ _ Hw Hb) as [Ha Hlt]. rewrite (proj2 (Nat.eqb_neq _ _)) by lia.
    unfold assoc_reg_value, iterator_in_ds. rewrite (proj2 (Nat.ltb_lt _ _) Hlt). cbn [c_assert mbind outcome_bind].
    rewrite (rd_ok _ _ _ Ha), outcome_bind_ret_l, Hv. cbn [c_assert mbind outcome_bind].
    rewrite (assoc_get_Some L k (b_val b)); [done|by eapply wf_NoDup|]. rewrite <-(rw_live _ _ Hw). apply live_elem. by exists it, b.
Qed.
(** ** Removal *)

Definition killed reg (i : nat) (b : bucket) : reg_t :=
  mk_reg (<[i := mk_bucket (b_key b) false (b_val b)]> (rg_arr reg)) (pred (rg_sz reg)) (rg_cap reg) (rg_occ_bucket reg) (rg_key_id reg).

Lemma killed_used reg i b : i < rg_occ_bucket reg →
  used (killed reg i b) = <[i := mk_bucket (b_key b) false (b_val b)]> (used reg).
Proof. intros Hi. cbn. by apply take_insert_lt. Qed.

(** A bucket that loses its value. *)
Lemma killed_wf reg L i b : reg_wf reg L → used reg !! i = Some b → b_has_value b = true →
  live (used reg) = live (take i (used reg)) ++ (b_key b, b_val b) :: live (drop (S i) (used reg)) ∧
  reg_wf (killed reg i b) (live (take i (used reg)) ++ live (drop (S i) (used reg))).
Proof.
  intros Hw Hi Hv. destruct (used_lookup _ _ _ _ Hw Hi) as [Ha Hlt].
  assert (live (used reg) = live (take i (used reg)) ++ (b_key b, b_val b) :: live (drop (S i) (used reg))) as Hl.
  { rewrite <-(take_drop_middle (used reg) i b Hi) at 1. rewrite live_app. cbn [live omap list_omap]. by rewrite Hv. }
  split; [done|].
  assert (b_key <$> used (killed reg i b) = b_key <$> used reg) as Hkeys.
  { rewrite killed_used by done. rewrite list_fmap_insert. apply list_insert_id. cbn. by rewrite list_lookup_fmap, Hi. }
  constructor.
  - cbn. rewrite length_insert. apply (rw_len _ _ Hw).
  - apply (rw_cap _ _ Hw).
  - apply (rw_occ _ _ Hw).
  - rewrite killed_used by done. rewrite insert_take_drop by (by eapply lookup_lt_Some). by rewrite live_app.
  - cbn. rewrite (rw_sz _ _ Hw), <-(rw_live _ _ Hw), Hl, !length_app. cbn. lia.
  - rewrite Hkeys. apply (rw_sorted _ _ Hw).
  - apply (Forall_fmap b_key (λ k, 0 < k < rg_key_id reg)%Z). rewrite Hkeys. apply Forall_fmap, (rw_keys _ _ Hw).
  - apply (rw_next _ _ Hw).
Qed.

(** Compaction and shrinking after a removal. *)
Lemma tidy_ok reg L : reg_wf reg L → ∃ reg',
  (r ← compact_if_necessary zero reg; shrink_if_necessary zero r) = Ret reg' ∧ reg_wf reg' L ∧ rg_key_id reg' = rg_key_id reg.
Proof.
  intros Hw. destruct (compact_ok reg L Hw) as (r1 & -> & Hw1 & Hk1). rewrite outcome_bind_ret_l.
  destruct (shrink_ok r1 L Hw1) as (r2 & -> & Hw2 & Hk2). exists r2. by rewrite Hk2.
Qed.

Lemma erase_one reg L i b next : reg_wf reg L → used reg !! i = Some b → b_has_value b = true → assoc_reg_next reg i = Ret next → i < next →
  assoc_reg_erase zero i next reg = (r ← compact_if_necessary zero (killed reg i b); shrink_if_necessary zero r).
Proof.
  intros Hw Hi Hv Hn Hlt. destruct (used_lookup _ _ _ _ Hw Hi) as [Ha Ho]. unfold assoc_reg_erase, iterator_in_ds.
  rewrite (proj2 (Nat.eqb_neq _ _)) by lia. rewrite (proj2 (Nat.ltb_lt _ _) Ho). cbn [c_assert mbind outcome_bind].
  destruct (rg_occ_bucket reg) as [|n] eqn:Hocc; [lia|]. cbn [erase_loop]. rewrite (proj2 (Nat.eqb_neq _ _)) by lia.
  rewrite (rd_ok _ _ _ Ha), outcome_bind_ret_l, Hn, outcome_bind_ret_l. pose proof (rw_len _ _ Hw). pose proof (rw_occ _ _ Hw).
  rewrite wr_ok, outcome_bind_ret_l by lia. destruct n; cbn [erase_loop]; rewrite Nat.eqb_refl, outcome_bind_ret_l; unfold killed; by rewrite Hocc.
Qed.

Lemma filter_all {A} (P : A → Prop) `{!∀ x, Decision (P x)} (l : list A) : Forall P l → filter P l = l.
Proof. induction 1 as [|x l Hx _ IH]; [done|]. by rewrite filter_cons_True, IH. Qed.

Lemma filter_key_removed L1 k v L2 : NoDup (L1 ++ (k, v) :: L2).*1 → filter (λ e : Z * V, e.1 ≠ k) (L1 ++ (k, v) :: L2) = L1 ++ L2.
Proof.
  intros Hnd. rewrite fmap_app in Hnd. cbn in Hnd. apply NoDup_app in Hnd as (_ & H1 & [H2 _]%NoDup_cons).
  rewrite filter_app, filter_cons_False by naive_solver. f_equal; apply filter_all; apply Forall_forall; intros e He Hk.
  - apply (H1 k); [rewrite <-Hk; by apply list_elem_of_fmap_2|left].
  - apply H2. rewrite <-Hk. by apply list_elem_of_fmap_2.
Qed.

Lemma remove_ok reg L k : reg_wf reg L → (0 < k)%Z →
  if bool_decide (k ∈ L.*1)
  then ∃ reg', reg_remove zero k reg = Ret reg' ∧ reg_wf reg' (filter (λ e, e.1 ≠ k) L) ∧ rg_key_id reg' = rg_key_id reg
  else reg_remove zero k reg = Abort.
Proof.
  intros Hw Hk. unfold reg_remove. destruct (front_ok reg L Hw) as (f & Hf & Hfo & Hl). rewrite Hf, outcome_bind_ret_l. cbv zeta.
  unfold assoc_reg_end. destruct (find_ok reg L f k Hw Hf Hfo Hl Hk) as (it & -> & Hit). rewrite outcome_bind_ret_l.
  destruct Hit as [[-> Hn]|(b & Hb & Hv & <-)].
  - rewrite bool_decide_eq_false_2 by done. by rewrite Nat.eqb_refl.
  - destruct (used_lookup _ _ _ _ Hw Hb) as [Ha Hlt]. destruct (killed_wf reg L it b Hw Hb Hv) as [Hsplit Hw'].
    rewrite (rw_live _ _ Hw) in Hsplit. rewrite bool_decide_eq_true_2.
    2: { rewrite Hsplit, fmap_app. apply elem_of_app. right. left. }
    rewrite (proj2 (Nat.eqb_neq _ _)) by lia. cbn [negb c_assert mbind outcome_bind].
    destruct (next_ok reg L it b Hw Hb Hv) as (r & Hr & Hrr). rewrite Hr, outcome_bind_ret_l.
    rewrite (erase_one reg L it b r Hw Hb Hv Hr) by lia. destruct (tidy_ok _ _ Hw') as (reg' & -> & Hw2 & Hk2).
    exists reg'. split_and!; [done| |done]. pose proof (wf_NoDup _ _ Hw) as Hnd. rewrite Hsplit in Hnd |- *.
    by rewrite filter_key_removed.
Qed.

Abbreviation is_f f := (λ e : Z * V, f e.2 = true).
Abbreviation not_f f := (λ e : Z * V, f e.2 = false).

Lemma remove_if_loop_ok f n i reg L : reg_wf reg L → i + n = rg_occ_bucket reg →
  ∃ reg', remove_if_loop n i f reg = Ret ((filter (is_f f) (live (drop i (used reg)))).*1, reg') ∧
    reg_wf reg' (live (take i (used reg)) ++ filter (not_f f) (live (drop i (used reg)))) ∧ rg_key_id reg' = rg_key_id reg.
Proof.
  revert i reg L. induction n as [|n IH]; intros i reg L Hw Hn; cbn [remove_if_loop].
  - assert (rg_occ_bucket reg <= i) as Hge by lia. rewrite drop_ge by (rewrite length_take; lia). rewrite take_ge by (rewrite length_take; lia).
    exists reg. cbn. rewrite app_nil_r, (rw_live _ _ Hw). done.
  - pose proof (rw_occ _ _ Hw). destruct (lookup_lt_is_Some_2 (used reg) i) as [b Hb]; [rewrite length_take, (rw_len _ _ Hw); lia|].
    destruct (used_lookup _ _ _ _ Hw Hb) as [Ha Hlt]. rewrite (rd_ok _ _ _ Ha), outcome_bind_ret_l, (drop_S _ _ _ Hb).
    pose proof (take_S_r _ _ _ Hb) as Ht. destruct (b_has_value b) eqn:Hv; cbn [andb].
    + cbn [live omap list_omap]. rewrite Hv. fold (live (drop (S i) (used reg))). destruct (f (b_val b)) eqn:Hf.
      * rewrite wr_ok, outcome_bind_ret_l by (rewrite (rw_len _ _ Hw); lia). fold (killed reg i b).
        destruct (killed_wf reg L i b Hw Hb Hv) as [_ Hw']. destruct (IH (S i) (killed reg i b) _ Hw' ltac:(cbn; lia)) as (reg' & Hr & Hwr & Hkr).
        rewrite killed_used in Hr, Hwr by done. rewrite drop_insert_lt in Hr, Hwr by lia. rewrite Hr, outcome_bind_ret_l.
        rewrite filter_cons_True, filter_cons_False by (cbn; congruence). exists reg'. split_and!; [done| |done].
        rewrite (take_S_r _ _ (mk_bucket (b_key b) false (b_val b))) in Hwr by (apply list_lookup_insert_eq; by eapply lookup_lt_Some).
        rewrite take_insert_ge, live_app in Hwr by lia. cbn [live omap list_omap b_has_value] in Hwr. by rewrite app_nil_r in Hwr.
      * destruct (IH (S i) reg L Hw ltac:(lia)) as (reg' & Hr & Hwr & Hkr). rewrite Hr.
        rewrite filter_cons_False, filter_cons_True by (cbn; congruence). exists reg'. split_and!; [done| |done].
        rewrite Ht, live_app in Hwr. cbn [live omap list_omap] in Hwr. rewrite Hv, <-app_assoc in Hwr. exact Hwr.
    + cbn [live omap list_omap]. rewrite Hv. fold (live (drop (S i) (used reg))).
      destruct (IH (S i) reg L Hw ltac:(lia)) as (reg' & Hr & Hwr & Hkr). rewrite Hr. exists reg'. split_and!; [done| |done].
      rewrite Ht, live_app in Hwr. cbn [live omap list_omap] in Hwr. by rewrite Hv, app_nil_r in Hwr.
Qed.

Lemma remove_if_ok f reg L : reg_wf reg L → ∃ reg', remove_if_range_reg zero f reg = Ret ((filter (is_f f) L).*1, reg') ∧
  reg_wf reg' (filter (not_f f) L) ∧ rg_key_id reg' = rg_key_id reg.
Proof.
  intros Hw. unfold remove_if_range_reg. destruct (remove_if_loop_ok f (rg_occ_bucket reg) 0 reg L Hw eq_refl) as (r & Hr & Hwr & Hkr).
  rewrite drop_0, (rw_live _ _ Hw) in Hr, Hwr. cbn [take live omap list_omap app] in Hwr. rewrite Hr, outcome_bind_ret_l.
  destruct (tidy_ok _ _ Hwr) as (r2 & Ht & Hw2 & Hk2). apply bind_Ret_inv in Ht as (r1 & -> & Ht). rewrite outcome_bind_ret_l, Ht, outcome_bind_ret_l.
  exists r2. by rewrite Hk2.
Qed.

(** A value that is overwritten in place. *)
Definition assoc_set (k : Z) (v : V) L : list (Z * V) := (λ e, if (e.1 =? k)%Z then (k, v) else e) <$> L.

Lemma assoc_set_absent k v L : k ∉ L.*1 → assoc_set k v L = L.
Proof.
  induction L as [|e L IH]; [done|]. intros [He HL]%not_elem_of_cons. unfold assoc_set. rewrite fmap_cons.
  rewrite (proj2 (Z.eqb_neq _ _)) by congruence. by f_equal; apply IH.
Qed.

Lemma assoc_set_keys k v L : (assoc_set k v L).*1 = L.*1.
Proof. unfold assoc_set. rewrite <-list_fmap_compose. apply list_fmap_ext. intros _ e _. cbn. by destruct (Z.eqb_spec e.1 k) as [<-|]. Qed.

Lemma store_wf reg L i b v : reg_wf reg L → used reg !! i = Some b → b_has_value b = true →
  reg_wf (mk_reg (<[i := mk_bucket (b_key b) (b_has_value b) v]> (rg_arr reg)) (rg_sz reg) (rg_cap reg) (rg_occ_bucket reg) (rg_key_id reg))
    (assoc_set (b_key b) v L).
Proof.
  intros Hw Hi Hv. destruct (used_lookup _ _ _ _ Hw Hi) as [Ha Hlt]. destruct (killed_wf reg L i b Hw Hi Hv) as [Hl _].
  pose proof (wf_NoDup _ _ Hw) as Hnd. rewrite (rw_live _ _ Hw) in Hl. rewrite Hl, fmap_app in Hnd. cbn in Hnd.
  apply NoDup_app in Hnd as (_ & H1 & [H2 _]%NoDup_cons).
  assert (b_key <$> <[i := mk_bucket (b_key b) (b_has_value b) v]> (used reg) = b_key <$> used reg) as Hkeys.
  { rewrite list_fmap_insert. apply list_insert_id. cbn. by rewrite list_lookup_fmap, Hi. }
  constructor; cbn [rg_arr rg_sz rg_cap rg_occ_bucket rg_key_id]; rewrite ?(take_insert_lt _ _ _ _ Hlt).
  - rewrite length_insert. apply (rw_len _ _ Hw).
  - apply (rw_cap _ _ Hw).
  - apply (rw_occ _ _ Hw).
  - rewrite Hl. unfold assoc_set. rewrite fmap_app, fmap_cons. cbn [fst]. rewrite Z.eqb_refl.
    fold (assoc_set (b_key b) v (live (take i (used reg)))) (assoc_set (b_key b) v (live (drop (S i) (used reg)))).
    rewrite !assoc_set_absent; [|done|intros H; apply (H1 _ H); left].
    rewrite insert_take_drop by (by eapply lookup_lt_Some). rewrite live_app. cbn. by rewrite Hv.
  - unfold assoc_set. rewrite length_fmap. apply (rw_sz _ _ Hw).
  - rewrite Hkeys. apply (rw_sorted _ _ Hw).
  - apply (Forall_fmap b_key (λ k, 0 < k < rg_key_id reg)%Z). rewrite Hkeys. apply Forall_fmap, (rw_keys _ _ Hw).
  - apply (rw_next _ _ Hw).
Qed.

(** The bucket of a key: its value is there and may be overwritten. *)
Lemma find_bucket reg L k : reg_wf reg L → (0 < k)%Z → ∃ f it, assoc_reg_front reg = Ret f ∧
  find_reg reg f (rg_occ_bucket reg) k = Ret it ∧
  match assoc_get k L with
  | None => it = rg_occ_bucket reg
  | Some v => it ≠ rg_occ_bucket reg ∧ it < rg_cap reg ∧ assoc_reg_value reg it = Ret v ∧ ∃ b, rd (rg_arr reg) it = Ret b ∧
      ∀ v', reg_wf (mk_reg (<[it := mk_bucket (b_key b) (b_has_value b) v']> (rg_arr reg)) (rg_sz reg) (rg_cap reg)
        (rg_occ_bucket reg) (rg_key_id reg)) (assoc_set k v' L)
  end.
Proof.
  intros Hw Hk. destruct (front_ok reg L Hw) as (f & Hf & Hfo & Hl). destruct (find_ok reg L f k Hw Hf Hfo Hl Hk) as (it & Hit & Hcase).
  exists f, it. split_and!; [done|done|]. destruct Hcase as [[-> Hn]|(b & Hb & Hv & <-)]; [by rewrite assoc_get_None|].
  destruct (used_lookup _ _ _ _ Hw Hb) as [Ha Hlt]. rewrite (assoc_get_Some L (b_key b) (b_val b)); [|by eapply wf_NoDup|].
  2: { rewrite <-(rw_live _ _ Hw). apply live_elem. by exists it, b. }
  pose proof (rw_occ _ _ Hw). split_and!; [lia|lia| |].
  - unfold assoc_reg_value, iterator_in_ds. rewrite (proj2 (Nat.ltb_lt _ _) Hlt). cbn [c_assert mbind outcome_bind].
    by rewrite (rd_ok _ _ _ Ha), outcome_bind_ret_l, Hv.
  - exists b. split; [by apply rd_ok|]. intros v'. by apply store_wf.
Qed.

(** Whatever the state, only an insertion moves the next key. *)
Lemma shrink_key reg reg' : shrink_if_necessary zero reg = Ret reg' → rg_key_id reg' = rg_key_id reg.
Proof.
  unfold shrink_if_necessary. destruct (_ || _); [by intros [= <-]|]. intros ([arr i] & _ & H)%bind_Ret_inv.
  apply bind_Ret_inv in H as (u & _ & H). apply bind_Ret_inv in H as (arr' & _ & H). apply bind_Ret_inv in H as (u' & _ & H).
  by injection H as <-.
Qed.

Lemma compact_key reg reg' : compact_if_necessary zero reg = Ret reg' → rg_key_id reg' = rg_key_id reg.
Proof.
  unfold compact_if_necessary. destruct (_ <? _); [by intros [= <-]|]. intros ([arr i] & _ & H)%bind_Ret_inv.
  apply bind_Ret_inv in H as (u & _ & H). apply bind_Ret_inv in H as (arr' & _ & H). by injection H as <-.
Qed.

Lemma erase_loop_key fuel i j reg reg' : erase_loop fuel i j reg = Ret reg' → rg_key_id reg' = rg_key_id reg.
Proof.
  revert i reg. induction fuel as [|fuel IH]; intros i reg; cbn [erase_loop]; destruct (i =? j); try done; try by intros [= <-].
  intros (b & _ & H)%bind_Ret_inv. apply bind_Ret_inv in H as (nx & _ & H). apply bind_Ret_inv in H as (arr & _ & H). by apply IH in H.
Qed.

Lemma remove_key k reg reg' : reg_remove zero k reg = Ret reg' → rg_key_id reg' = rg_key_id reg.
Proof.
  unfold reg_remove. intros (f & _ & H)%bind_Ret_inv. cbv zeta in H. apply bind_Ret_inv in H as (it & _ & H).
  apply bind_Ret_inv in H as (u & _ & H). apply bind_Ret_inv in H as (nx & _ & H). unfold assoc_reg_erase in H.
  destruct (it =? nx); [by injection H as <-|]. apply bind_Ret_inv in H as (u' & _ & H). apply bind_Ret_inv in H as (r1 & H1 & H).
  apply bind_Ret_inv in H as (r2 & H2 & H). apply erase_loop_key in H1. apply compact_key in H2. apply shrink_key in H. congruence.
Qed.

Lemma push_back_key v reg k reg' : assoc_reg_push_back zero v reg = Ret (k, reg') →
  k = wrap 32 (rg_key_id reg) ∧ rg_key_id reg' = (rg_key_id reg + 1)%Z.
Proof.
  unfold assoc_reg_push_back. intros (r & Hr & H)%bind_Ret_inv. cbv zeta in H. apply bind_Ret_inv in H as (arr & _ & H).
  apply bind_Ret_inv in H as (u & _ & H). injection H as <- <-. cbn. revert Hr. unfold expand_if_neccesary.
  destruct (_ <? _); [by intros [= <-]|]. intros ([arr' i] & _ & Hr)%bind_Ret_inv. by injection Hr as <-.
Qed.
End reg.
