(* ===== verification/AssocRegSpec.v ===== *)
(** * The registry: what its users see

    Programs over the registry return what they return on a list of entries and the
    next key. *)
From S2P Require Import Prelude Refine.
From stdpp Require Import list sorting.
From S2P Require Import AssocReg AssocRegInv.

Section spec.
Context {V : Type} (zero : V).

Inductive reg_op :=
  | RegPush (v : V)
  | RegLookup (k : Z)
  | RegRemove (k : Z)
  | RegRemoveIf (f : V → bool)
  | RegSize.

Inductive reg_out :=
  | OutKey (k : Z)
  | OutVal (v : option V)
  | OutDone
  | OutKeys (ks : list Z)
  | OutSize (n : nat).

Definition reg_do (op : reg_op) : st (assoc_reg_t V) reg_out := λ reg,
  match op with
  | RegPush v => '(k, reg) ← assoc_reg_push_back zero v reg; Ret (OutKey k, reg)
  | RegLookup k => v ← reg_lookup k reg; Ret (OutVal v, reg)
  | RegRemove k => reg ← reg_remove zero k reg; Ret (OutDone, reg)
  | RegRemoveIf f => '(ks, reg) ← remove_if_range_reg zero f reg; Ret (OutKeys ks, reg)
  | RegSize => Ret (OutSize (assoc_reg_size reg), reg)
  end.

(** The list and the next key. *)
Definition spec_reg : Type := list (Z * V) * Z.

Definition spec_do (op : reg_op) : st spec_reg reg_out := λ '(L, next),
  match op with
  | RegPush v => Ret (OutKey next, (L ++ [(next, v)], (next + 1)%Z))
  | RegLookup k => c_assert (0 <? k)%Z;; Ret (OutVal (assoc_get k L), (L, next))
  | RegRemove k =>
      c_assert (0 <? k)%Z;; c_assert (bool_decide (k ∈ L.*1));;
      Ret (OutDone, (filter (λ e, e.1 ≠ k) L, next))
  | RegRemoveIf f => Ret (OutKeys (filter (λ e, f e.2 = true) L).*1, (filter (λ e, f e.2 = false) L, next))
  | RegSize => Ret (OutSize (length L), (L, next))
  end.

Definition reg_rep (reg : assoc_reg_t V) (a : spec_reg) : Prop := reg_wf reg a.1 ∧ rg_key_id reg = a.2.

Lemma nonpos_find (reg : assoc_reg_t V) i j k : (k <= 0)%Z → find_reg reg i j k = Abort.
Proof. intros Hk. unfold find_reg. by rewrite (proj2 (Z.ltb_ge _ _)) by lia. Qed.

Lemma nonpos_lookup reg L k : reg_wf reg L → (k <= 0)%Z → reg_lookup k reg = Abort ∧ reg_remove zero k reg = Abort.
Proof.
  intros Hw Hk. unfold reg_lookup, reg_remove. destruct (front_ok reg L Hw) as (f & -> & _). rewrite !outcome_bind_ret_l. cbv zeta.
  by rewrite nonpos_find.
Qed.

(** One call. *)
Lemma reg_do_ok op reg a : reg_rep reg a → (a.2 < 2 ^ 32)%Z →
  match spec_do op a with
  | Ret (o, a') => ∃ reg', reg_do op reg = Ret (o, reg') ∧ reg_rep reg' a' ∧ (a'.2 <= a.2 + 1)%Z
  | _ => reg_do op reg = Abort
  end.
Proof.
  destruct a as [L next]. intros [Hw Hk]. cbn [fst snd] in Hw, Hk. intros Hlt. subst next. destruct op as [v|k|k|f|]; cbn [spec_do reg_do].
  - destruct (push_back_ok zero reg L v Hw Hlt) as (reg' & -> & Hw' & Hk'). exists reg'. cbn. split_and!; [done|done|lia].
  - destruct (Z.ltb_spec 0 k) as [H0|H0]; cbn [c_assert mbind outcome_bind].
    + rewrite (lookup_ok reg L k Hw H0). exists reg. cbn. split_and!; [done|done|lia].
    + by rewrite (proj1 (nonpos_lookup reg L k Hw H0)).
  - destruct (Z.ltb_spec 0 k) as [H0|H0]; cbn [c_assert mbind outcome_bind].
    + pose proof (remove_ok zero reg L k Hw H0) as Hr. case_bool_decide; cbn [c_assert mbind outcome_bind].
      * destruct Hr as (reg' & -> & Hw' & Hk'). exists reg'. cbn. split_and!; [done|done|lia].
      * by rewrite Hr.
    + by rewrite (proj2 (nonpos_lookup reg L k Hw H0)).
  - destruct (remove_if_ok zero f reg L Hw) as (reg' & -> & Hw' & Hk'). exists reg'. cbn. split_and!; [done|done|lia].
  - exists reg. unfold assoc_reg_size. rewrite (rw_sz _ _ Hw). split_and!; [done|done|cbn; lia].
Qed.

Lemma prog_run_ok ops reg a : reg_rep reg a → (a.2 + Z.of_nat (length ops) <= 2 ^ 32)%Z →
  match prog_run spec_do ops a with
  | Ret (os, a') => ∃ reg', prog_run reg_do ops reg = Ret (os, reg') ∧ reg_rep reg' a'
  | _ => prog_run reg_do ops reg = Abort
  end.
Proof.
  revert reg a. induction ops as [|op ops IH]; intros reg a Hr Hk; cbn [prog_run]; [by exists reg|].
  cbn [length] in Hk. pose proof (reg_do_ok op reg a Hr ltac:(lia)) as Hstep. rewrite !st_bind_eq.
  destruct (spec_do op a) as [[o a1]| | | |]; [|by rewrite Hstep..].
  destruct Hstep as (reg1 & -> & Hr1 & Hk1). cbn [mbind outcome_bind]. specialize (IH reg1 a1 Hr1 ltac:(lia)). rewrite !st_bind_eq.
  destruct (prog_run spec_do ops a1) as [[os a2]| | | |]; [|by rewrite IH..].
  destruct IH as (reg2 & -> & Hr2). by exists reg2.
Qed.

(** C18. Programs over [assoc_reg_t]: as long as fewer than 2^32 keys are given out,
    insertions, lookups, removals by key or by predicate and the size return on the
    array of buckets - through every expansion, compaction and shrinking - what they
    return on the list of the entries in the order of their insertion, whose keys
    count up from 1; a run aborts exactly when the list run does: the removal of a key
    that is not there, or a search for key 0.  The self-test of the code passes. *)
Theorem reg_run_refines ops : (Z.of_nat (length ops) < 2 ^ 32)%Z →
  match prog_run spec_do ops ([], 1%Z) with
  | Ret (os, (L, next)) => ∃ reg, prog_run reg_do ops (assoc_reg_init zero) = Ret (os, reg) ∧
      reg_wf reg L ∧ rg_key_id reg = next ∧ test_invariants_registry_hold reg = Ret ()
  | _ => prog_run reg_do ops (assoc_reg_init zero) = Abort
  end.
Proof.
  intros Hlen. pose proof (prog_run_ok ops (assoc_reg_init zero) ([], 1%Z)) as H.
  destruct (prog_run spec_do ops ([], 1%Z)) as [[os [L next]]| | | |];
    [destruct H as (reg & Hr & Hw & Hn)|apply H..]; try (split; [apply init_wf|done]); cbn [snd]; try lia.
  exists reg. by split_and!; [| | |by apply (test_invariants_wf reg L)].
Qed.

(** C33. On any range of the registry, the binary search [lower_bound_reg] finds what
    the search from the first bucket on finds: the first one whose key is not below
    the key, empty buckets included. *)
Theorem lower_bound_reg_is_scan (reg : assoc_reg_t V) L i j key : reg_wf reg L → i <= j <= rg_occ_bucket reg →
  lower_bound_reg reg i j key = Ret (i + scan key (take (j - i) (drop i (rg_arr reg)))).
Proof. apply lower_bound_is_scan. Qed.
End spec.
Arguments reg_op : clear implicits.
Arguments reg_out : clear implicits.

(** 20 insertions, which expand the array, then removals that compact and shrink it. *)
Definition demo_reg_ops : list (reg_op nat) :=
  (RegPush <$> seq 100 20) ++ [RegLookup 7; RegRemove 7; RegLookup 7; RegRemoveIf (λ v, 103 <? v); RegSize; RegPush 55; RegLookup 21].

Lemma reg_run_refines_witness : ∃ reg,
  prog_run (reg_do 0) demo_reg_ops (assoc_reg_init 0) =
    Ret ((OutKey ∘ Z.of_nat <$> seq 1 20) ++
         [OutVal (Some 106); OutDone; OutVal None; OutKeys [5; 6; 8; 9; 10; 11; 12; 13; 14; 15; 16; 17; 18; 19; 20]%Z; OutSize 4; OutKey 21; OutVal (Some 55)], reg) ∧
  reg_wf reg [(1%Z, 100); (2%Z, 101); (3%Z, 102); (4%Z, 103); (21%Z, 55)] ∧ rg_key_id reg = 22%Z ∧ test_invariants_registry_hold reg = Ret ().
Proof.
  pose proof (reg_run_refines 0 demo_reg_ops ltac:(vm_compute; reflexivity)) as H.
  assert (prog_run spec_do demo_reg_ops ([], 1%Z) = Ret ((OutKey ∘ Z.of_nat <$> seq 1 20) ++
         [OutVal (Some 106); OutDone; OutVal None; OutKeys [5; 6; 8; 9; 10; 11; 12; 13; 14; 15; 16; 17; 18; 19; 20]%Z; OutSize 4; OutKey 21; OutVal (Some 55)],
         ([(1%Z, 100); (2%Z, 101); (3%Z, 102); (4%Z, 103); (21%Z, 55)], 22%Z))) as E by (vm_compute; reflexivity).
  rewrite E in H. exact H.
Defined.

(** The registry after the insertions and the removal of key 7, whose bucket is empty. *)
Definition demo_reg : assoc_reg_t nat :=
  match prog_run (reg_do 0) (take 22 demo_reg_ops) (assoc_reg_init 0) with Ret (_, reg) => reg | _ => assoc_reg_init 0 end.

Lemma demo_reg_wf : ∃ L, reg_wf demo_reg L ∧ length L = 19.
Proof.
  pose proof (prog_run_ok 0 (take 22 demo_reg_ops) (assoc_reg_init 0) ([], 1%Z)
    (conj (init_wf 0) eq_refl) ltac:(vm_compute; discriminate)) as H.
  set (r := prog_run spec_do (take 22 demo_reg_ops) ([], 1%Z)) in H. vm_compute in r. subst r.
  destruct H as (reg & Hrun & Hw & _). eexists. split.
  - unfold demo_reg. rewrite Hrun. exact Hw.
  - reflexivity.
Qed.

Lemma lower_bound_reg_is_scan_witness :
  lower_bound_reg demo_reg 3 20 7 = Ret (3 + scan 7 (take 17 (drop 3 (rg_arr demo_reg)))) ∧
  lower_bound_reg demo_reg 3 20 7 = Ret 6 ∧ lower_bound_reg demo_reg 3 20 8 = Ret 7 ∧ lower_bound_reg demo_reg 3 20 40 = Ret 20.
Proof.
  split; [|by vm_compute]. destruct demo_reg_wf as (L & Hw & _). apply (lower_bound_reg_is_scan demo_reg L 3 20 7 Hw).
  vm_compute; lia.
Defined.
