(* ===== verification/AssocSpec.v ===== *)
(** * Ordered associative containers: the specification

    What the users of [assoc_generic.h] rely on: comparators, the sequence of
    entries in key order, and the interface an implementation of the container
    meets. *)
From S2P Require Import Prelude.
From stdpp Require Export sets.
From Stdlib Require Export Sorting.Sorted.
#[local] Set Default Proof Using "Type*".

(** ** Comparators

    [comp a b] is 1 when [a] comes before [b], 0 when they are the same key and
    -1 otherwise ([cmp_fn]). *)
Class Comparator {K : Type} (comp : K → K → Z) : Prop := {
  comp_range a b : comp a b = 1%Z ∨ comp a b = 0%Z ∨ comp a b = (-1)%Z;
  comp_flip a b : comp b a = (- comp a b)%Z;
  comp_trans a b c : comp a b ≠ (-1)%Z → comp b c ≠ (-1)%Z → comp a c ≠ (-1)%Z }.

#[export] Instance cmp_up_comparator : Comparator cmp_up.
Proof.
  unfold cmp_up. split; intros; repeat case_match;
    rewrite ?Z.ltb_lt, ?Z.ltb_ge, ?Z.eqb_eq, ?Z.eqb_neq in *; try lia; auto.
Qed.

(** Comparison through a field, and of one field after another. *)
#[export] Instance comparator_proj {A K} (comp : K → K → Z) (f : A → K) :
  Comparator comp → Comparator (λ a b, comp (f a) (f b)).
Proof.
  intros H. split; intros; [apply comp_range|apply (comp_flip (comp := comp))|].
  by eapply (comp_trans (comp := comp)).
Qed.

Definition lex (c1 c2 : Z) : Z := if (c1 =? 0)%Z then c2 else c1.

#[export] Instance comparator_lex {K} (comp1 comp2 : K → K → Z) :
  Comparator comp1 → Comparator comp2 → Comparator (λ a b, lex (comp1 a b) (comp2 a b)).
Proof.
  intros H1 H2. unfold lex. split.
  - intros a b. destruct (comp1 a b =? 0)%Z; apply comp_range.
  - intros a b. rewrite (comp_flip (comp := comp1) a b), (comp_flip (comp := comp2) a b).
    destruct (Z.eqb_spec (- comp1 a b) 0), (Z.eqb_spec (comp1 a b) 0); lia.
  - intros a b c.
    pose proof (comp_range (comp := comp1) a b). pose proof (comp_range (comp := comp1) b c).
    pose proof (comp_range (comp := comp1) a c).
    pose proof (comp_trans (comp := comp1) a b c). pose proof (comp_trans (comp := comp2) a b c).
    pose proof (comp_trans (comp := comp1) c a b). pose proof (comp_trans (comp := comp1) b c a).
    rewrite (comp_flip (comp := comp1) a c), (comp_flip (comp := comp1) a b),
      (comp_flip (comp := comp1) b c) in *.
    destruct (Z.eqb_spec (comp1 a b) 0), (Z.eqb_spec (comp1 b c) 0), (Z.eqb_spec (comp1 a c) 0); lia.
Qed.

(** The opposite convention: -1 when the first argument is the smaller one. *)
#[export] Instance comparator_opp {K} (comp : K → K → Z) :
  Comparator comp → Comparator (λ a b, (- comp a b)%Z).
Proof.
  intros H. split.
  - intros a b. pose proof (comp_range (comp := comp) a b). lia.
  - intros a b. rewrite (comp_flip (comp := comp) a b). lia.
  - intros a b c Hab Hbc. pose proof (comp_trans (comp := comp) c b a).
    rewrite (comp_flip (comp := comp) b c), (comp_flip (comp := comp) a b),
      (comp_flip (comp := comp) a c) in *. lia.
Qed.

Section spec.
Context {K V : Type} (comp : K → K → Z).

(** The entries of a container, in the order of iteration. *)
Definition sorted (L : list (K * V)) : Prop :=
  StronglySorted (λ a b, comp a.1 b.1 ≠ (-1)%Z) L.

(** A new entry goes after those with a key that is not greater. *)
Fixpoint ord_insert (k : K) (v : V) (L : list (K * V)) : list (K * V) :=
  match L with
  | [] => [(k, v)]
  | e :: L => if (comp k e.1 =? 1)%Z then (k, v) :: e :: L else e :: ord_insert k v L
  end.

Lemma sorted_app L1 L2 : sorted (L1 ++ L2) ↔
  sorted L1 ∧ sorted L2 ∧ ∀ a b, a ∈ L1 → b ∈ L2 → comp a.1 b.1 ≠ (-1)%Z.
Proof.
  unfold sorted. induction L1 as [|e L1 IH]; cbn.
  - split; [|tauto]. intros. split; [constructor|]. set_solver.
  - split.
    + inversion 1 as [|? ? Hs Hf]; subst. apply IH in Hs as (Hs1 & Hs2 & Hs3).
      rewrite Forall_app in Hf. destruct Hf as [Hf1 Hf2]. split; [by constructor|].
      split; [done|]. intros a b Ha Hb. apply elem_of_cons in Ha as [->|Ha]; [|by apply Hs3].
      rewrite Forall_forall in Hf2. by apply Hf2.
    + intros (Hs1 & Hs2 & Hs3). inversion Hs1 as [|? ? Hs Hf]; subst. constructor.
      * apply IH. split; [done|]. split; [done|]. intros a b Ha Hb. apply Hs3; [by right|done].
      * apply Forall_app. split; [done|]. apply Forall_forall. intros b Hb. apply Hs3; [by left|done].
Qed.

Lemma ord_insert_split k v L1 L2 :
  Forall (λ e, comp k e.1 ≠ 1%Z) L1 → Forall (λ e, comp k e.1 = 1%Z) L2 →
  ord_insert k v (L1 ++ L2) = L1 ++ (k, v) :: L2.
Proof.
  intros H1 H2. induction H1 as [|e L1 He H1 IH]; cbn.
  - destruct H2 as [|e L2 He H2]; cbn; [done|]. by rewrite He.
  - rewrite (proj2 (Z.eqb_neq _ _) He). by rewrite IH.
Qed.

Lemma ord_insert_is_split k v L : ∃ L1 L2, L = L1 ++ L2 ∧ ord_insert k v L = L1 ++ (k, v) :: L2 ∧
  Forall (λ e, comp k e.1 ≠ 1%Z) L1 ∧ match L2 with [] => True | e :: _ => comp k e.1 = 1%Z end.
Proof.
  induction L as [|e L (L1 & L2 & -> & Hi & HF & Hh)]; cbn.
  - by exists [], [].
  - destruct (Z.eqb_spec (comp k e.1) 1).
    + exists [], (e :: L1 ++ L2). done.
    + exists (e :: L1), L2. rewrite Hi. split_and!; try done. by constructor.
Qed.

Lemma ord_insert_length k v L : length (ord_insert k v L) = S (length L).
Proof. induction L as [|e L IH]; cbn; [done|]. case_match; cbn; by rewrite ?IH. Qed.

Lemma ord_insert_perm k v L : ord_insert k v L ≡ₚ (k, v) :: L.
Proof. induction L as [|e L IH]; cbn; [done|]. case_match; [done|]. rewrite IH. constructor. Qed.

Lemma sorted_delete L1 e L2 : sorted (L1 ++ e :: L2) → sorted (L1 ++ L2).
Proof.
  rewrite !sorted_app. intros (H1 & H2 & H3). inversion H2; subst. split_and!; try done.
  intros a b Ha Hb. apply H3; [done|by right].
Qed.

Context `{!Comparator comp}.

Lemma comp_refl a : comp a a = 0%Z.
Proof. pose proof (comp_flip (comp:=comp) a a). lia. Qed.

Lemma comp_lt_le_trans a b c : comp a b = 1%Z → comp b c ≠ (-1)%Z → comp a c = 1%Z.
Proof.
  intros Hab Hbc. destruct (comp_range a c) as [|Hac]; [done|].
  assert (comp c a ≠ (-1)%Z) as Hca by (rewrite (comp_flip (comp:=comp) a c); lia).
  pose proof (comp_trans (comp:=comp) b c a Hbc Hca) as Hba. rewrite (comp_flip (comp:=comp) a b) in Hba. lia.
Qed.

Lemma comp_le_lt_trans a b c : comp a b ≠ (-1)%Z → comp b c = 1%Z → comp a c = 1%Z.
Proof.
  intros Hab Hbc. destruct (comp_range a c) as [|Hac]; [done|].
  assert (comp c a ≠ (-1)%Z) as Hca by (rewrite (comp_flip (comp:=comp) a c); lia).
  pose proof (comp_trans (comp:=comp) c a b Hca Hab) as Hcb. rewrite (comp_flip (comp:=comp) b c) in Hcb. lia.
Qed.

(** [a] comes after [b] when [comp a b] is -1. *)
Lemma comp_gt a b : comp a b = (-1)%Z ↔ comp b a = 1%Z.
Proof. rewrite (comp_flip (comp:=comp) a b). lia. Qed.

Lemma ord_insert_sorted k v L : sorted L → sorted (ord_insert k v L).
Proof.
  intros Hs. destruct (ord_insert_is_split k v L) as (L1 & L2 & -> & -> & HF & Hh).
  apply sorted_app in Hs as (Hs1 & Hs2 & Hs3). apply sorted_app. split; [done|]. split.
  - constructor; [done|]. destruct L2 as [|e L2]; [done|]. inversion Hs2 as [|? ? ? Hf]; subst.
    constructor; cbn; [lia|]. eapply Forall_impl; [exact Hf|]. cbn. intros a Ha.
    rewrite (comp_lt_le_trans _ _ _ Hh Ha). lia.
  - intros a b Ha Hb. apply elem_of_cons in Hb as [->|Hb]; [|by apply Hs3]. cbn.
    rewrite Forall_forall in HF. specialize (HF a Ha). rewrite (comp_flip (comp:=comp) k a.1). lia.
Qed.
End spec.

(** ** The interface of [assoc_generic.h]

    [a_entries] is the loop from [assoc_front] to [assoc_end] that reads every
    key and value. *)
Class AssocOps (K V T : Type) := {
  a_insert : (K → K → Z) → K → V → st T ();
  a_extract : (K → K → Z) → K → st T V;
  a_size : T → nat;
  a_entries : st T (list (K * V)) }.

Class AssocLaws {K V T : Type} (comp : K → K → Z) `{AssocOps K V T} := {
  a_rep : T → list (K * V) → Prop;
  a_rep_sorted t L : a_rep t L → sorted comp L;
  a_rep_size t L : a_rep t L → a_size t = length L;
  a_rep_entries t L : a_rep t L → a_entries t = Ret (L, t);
  a_insert_ok t L k v : a_rep t L →
    ∃ t', a_insert comp k v t = Ret ((), t') ∧ a_rep t' (ord_insert comp k v L);
  a_extract_ok t L k : a_rep t L → Exists (λ e, comp k e.1 = 0%Z) L →
    ∃ t' L1 k' v L2, a_extract comp k t = Ret (v, t') ∧ L = L1 ++ (k', v) :: L2 ∧
      comp k k' = 0%Z ∧ a_rep t' (L1 ++ L2);
  a_extract_absent t L k : a_rep t L → Forall (λ e, comp k e.1 ≠ 0%Z) L →
    a_extract comp k t = Abort }.

(** ** Strictly sorted sequences: at most one entry per key *)

Section strict.
Context {K V : Type} (comp : K → K → Z) `{!Comparator comp}.

Definition strict (L : list (K * V)) : Prop := StronglySorted (λ a b, comp a.1 b.1 = 1%Z) L.

Definition fresh_key (k : K) (L : list (K * V)) : bool := forallb (λ e, negb (comp k e.1 =? 0)%Z) L.

Lemma fresh_key_spec k L : fresh_key k L = true ↔ Forall (λ e, comp k e.1 ≠ 0%Z) L.
Proof using Type.
  unfold fresh_key. induction L as [|e L IH]; cbn; [done|].
  rewrite andb_true_iff, IH, Forall_cons_iff, negb_true_iff, Z.eqb_neq. done.
Qed.

Lemma not_fresh_key k L : fresh_key k L = false → Exists (λ e, comp k e.1 = 0%Z) L.
Proof using Type.
  unfold fresh_key. induction L as [|e L IH]; cbn; [done|].
  rewrite andb_false_iff, negb_false_iff, Z.eqb_eq. intros [|]; [by left|right; auto].
Qed.

Lemma strict_app L1 L2 : strict (L1 ++ L2) ↔
  strict L1 ∧ strict L2 ∧ ∀ a b, a ∈ L1 → b ∈ L2 → comp a.1 b.1 = 1%Z.
Proof using Type.
  unfold strict. induction L1 as [|e L1 IH]; cbn.
  - split; [|tauto]. intros Hs. split; [constructor|]. split; [exact Hs|].
    intros a b Ha. by apply not_elem_of_nil in Ha.
  - split.
    + inversion 1 as [|? ? Hs Hf]; subst. apply IH in Hs as (Hs1 & Hs2 & Hs3).
      rewrite Forall_app in Hf. destruct Hf as [Hf1 Hf2]. split; [by constructor|].
      split; [done|]. intros a b Ha Hb. apply elem_of_cons in Ha as [->|Ha]; [|by apply Hs3].
      rewrite Forall_forall in Hf2. by apply Hf2.
    + intros (Hs1 & Hs2 & Hs3). inversion Hs1 as [|? ? Hs Hf]; subst. constructor.
      * apply IH. split; [done|]. split; [done|]. intros a b Ha Hb. apply Hs3; [by right|done].
      * apply Forall_app. split; [done|]. apply Forall_forall. intros b Hb. apply Hs3; [by left|done].
Qed.

Lemma ord_insert_strict k v L : strict L → Forall (λ e, comp k e.1 ≠ 0%Z) L →
  strict (ord_insert comp k v L).
Proof.
  intros Hs Hfr. destruct (ord_insert_is_split comp k v L) as (L1 & L2 & -> & -> & HF & Hh).
  apply Forall_app in Hfr as [Hf1 _].
  apply strict_app in Hs as (Hs1 & Hs2 & Hs3). apply strict_app. split; [done|]. split.
  - constructor; [done|]. destruct L2 as [|e L2]; [done|]. inversion Hs2 as [|? ? ? Hf]; subst.
    constructor; cbn; [done|]. eapply Forall_impl; [exact Hf|]. cbn. intros a Ha.
    apply (comp_lt_le_trans comp _ _ _ Hh). lia.
  - intros a b Ha Hb. apply elem_of_cons in Hb as [->|Hb]; [|by apply Hs3]. cbn.
    rewrite Forall_forall in HF, Hf1. specialize (HF a Ha). specialize (Hf1 a Ha). cbn in *.
    apply (comp_gt comp). destruct (comp_range k a.1) as [|[|]]; done.
Qed.

Lemma strict_delete L1 e L2 : strict (L1 ++ e :: L2) → strict (L1 ++ L2).
Proof using Type.
  rewrite !strict_app. intros (H1 & H2 & H3). inversion H2; subst. split_and!; try done.
  intros a b Ha Hb. apply H3; [done|by right].
Qed.

(** A key occurs at one position only. *)
Lemma strict_unique k L1 e L2 L1' e' L2' : strict (L1 ++ e :: L2) →
  L1 ++ e :: L2 = L1' ++ e' :: L2' → comp k e.1 = 0%Z → comp k e'.1 = 0%Z →
  L1 = L1' ∧ e = e' ∧ L2 = L2'.
Proof.
  intros Hs Heq He He'.
  assert (∀ a b, comp k a = 0%Z → comp k b = 0%Z → comp a b ≠ 1%Z) as Hab.
  { intros a b Ha Hb Hlt. assert (comp k b = 1%Z); [|lia].
    apply (comp_le_lt_trans comp k a b); [lia|done]. }
  apply app_eq_inv in Heq as [(L & -> & HL)|(L & -> & HL)]; destruct L as [|x L]; cbn in HL.
  - injection HL as -> ->. by rewrite app_nil_r.
  - injection HL as <- ->. exfalso. apply (Hab e'.1 e.1 He' He).
    apply strict_app in Hs as (_ & _ & Hs). apply Hs; [|left]. apply elem_of_app. right. left.
  - injection HL as -> ->. by rewrite app_nil_r.
  - injection HL as <- ->. exfalso. apply (Hab e.1 e'.1 He He').
    apply strict_app in Hs as (_ & Hs & _). inversion Hs as [|? ? _ Hf]; subst.
    rewrite Forall_forall in Hf. apply Hf. apply elem_of_app. right. left.
Qed.

Lemma strict_member k L L1 e L2 e' : strict L → L = L1 ++ e :: L2 → e' ∈ L →
  comp k e.1 = 0%Z → comp k e'.1 = 0%Z → e = e'.
Proof.
  intros Hs -> (L1' & L2' & Heq)%list_elem_of_split He He'.
  by destruct (strict_unique k _ _ _ _ _ _ Hs Heq He He') as (_ & -> & _).
Qed.
End strict.

Lemma strict_NoDup {K V} (comp : K → K → Z) `{!Comparator comp} (L : list (K * V)) :
  strict comp L → NoDup L.*1.
Proof.
  induction 1 as [|e L Hs IH HF]; cbn; constructor; [|done]. intros (e' & He & Hin)%list_elem_of_fmap.
  rewrite Forall_forall in HF. specialize (HF e' Hin). rewrite <-He, (comp_refl comp) in HF. done.
Qed.

(** ** Programs over a container *)

Inductive assoc_op (K V : Type) := OpInsert (k : K) (v : V) | OpExtract (k : K) | OpEntries.
Arguments OpInsert {K V} k v.
Arguments OpExtract {K V} k.
Arguments OpEntries {K V}.

Inductive assoc_out (K V : Type) := OutUnit | OutValue (v : V) | OutEntries (n : nat) (L : list (K * V)).
Arguments OutUnit {K V}.
Arguments OutValue {K V} v.
Arguments OutEntries {K V} n L.

Definition a_step {K V T} `{AssocOps K V T} (comp : K → K → Z) (o : assoc_op K V) :
    st T (assoc_out K V) :=
  match o with
  | OpInsert k v => a_insert comp k v;; mret OutUnit
  | OpExtract k => v ← a_extract comp k; mret (OutValue v)
  | OpEntries => t ← st_get; L ← a_entries; mret (OutEntries (a_size t) L)
  end.

Fixpoint a_run {K V T} `{AssocOps K V T} (comp : K → K → Z) (os : list (assoc_op K V)) :
    st T (list (assoc_out K V)) :=
  match os with
  | [] => mret []
  | o :: os => x ← a_step comp o; xs ← a_run comp os; mret (x :: xs)
  end.

(** ** The reference implementation: the sequence itself *)

Section reference.
Context {K V : Type}.

Fixpoint ord_extract (comp : K → K → Z) (k : K) (L : list (K * V)) : outcome (V * list (K * V)) :=
  match L with
  | [] => Abort
  | e :: L => if (comp k e.1 =? 0)%Z then Ret (e.2, L)
              else '(v, L') ← ord_extract comp k L; Ret (v, e :: L')
  end.

#[export] Instance list_assoc : AssocOps K V (list (K * V)) := {
  a_insert comp k v := λ L, Ret ((), ord_insert comp k v L);
  a_extract comp k := λ L, ord_extract comp k L;
  a_size L := length L;
  a_entries := λ L, Ret (L, L) }.

Lemma ord_extract_ok comp k L : Exists (λ e, comp k e.1 = 0%Z) L →
  ∃ L1 k' v L2, ord_extract comp k L = Ret (v, L1 ++ L2) ∧ L = L1 ++ (k', v) :: L2 ∧ comp k k' = 0%Z.
Proof.
  induction L as [|[k' v] L IH]; [by inversion 1|]. intros Hex. cbn.
  destruct (Z.eqb_spec (comp k k') 0) as [Hc|Hc]; [by exists [], k', v, L|].
  destruct IH as (L1 & k2 & v2 & L2 & -> & -> & Hk); [by inversion Hex|].
  exists ((k', v) :: L1), k2, v2, L2. done.
Qed.

Lemma ord_extract_absent comp k L : Forall (λ e, comp k e.1 ≠ 0%Z) L → ord_extract comp k L = Abort.
Proof. induction 1 as [|e L He HL IH]; cbn; [done|]. by rewrite (proj2 (Z.eqb_neq _ _) He), IH. Qed.

#[export] Program Instance list_assoc_laws (comp : K → K → Z) `{!Comparator comp} :
  AssocLaws (T := list (K * V)) comp := { a_rep t L := t = L ∧ sorted comp L }.
Next Obligation. by intros comp ? t L [_ ?]. Qed.
Next Obligation. by intros comp ? t L [-> _]. Qed.
Next Obligation. by intros comp ? t L [-> _]. Qed.
Next Obligation.
  intros comp ? t L k v [-> Hs]. eexists. split; [done|]. split; [done|]. by apply ord_insert_sorted.
Qed.
Next Obligation.
  intros comp ? t L k [-> Hs] Hex. destruct (ord_extract_ok comp k L Hex) as (L1 & k' & v & L2 & Hx & -> & Hk).
  exists (L1 ++ L2), L1, k', v, L2. split_and!; try done. by eapply sorted_delete.
Qed.
Next Obligation. intros comp ? t L k [-> Hs]. apply ord_extract_absent. Qed.
End reference.

(** ** Any implementation behaves as the reference *)

(** Every insertion of the program is of a key that is not in the container. *)
Fixpoint fresh_run {K V} (comp : K → K → Z) (os : list (assoc_op K V)) (L : list (K * V)) : bool :=
  match os with
  | [] => true
  | o :: os =>
      match o with OpInsert k _ => fresh_key comp k L | _ => true end &&
      match a_step comp o L with Ret (_, L') => fresh_run comp os L' | _ => true end
  end.

Section refinement.
Context {K V T : Type} (comp : K → K → Z) `{!Comparator comp} `{!AssocOps K V T} `{!AssocLaws (V := V) (T := T) comp}.

Lemma a_run_refines os t L : a_rep t L → strict comp L → fresh_run comp os L = true →
  outputs (a_run comp os t) = outputs (a_run (T := list (K * V)) comp os L).
Proof.
  revert t L. induction os as [|o os IH]; intros t L Hrep Hs Hfr; [done|].
  cbn [fresh_run] in Hfr. apply andb_true_iff in Hfr as [Hk Hfr].
  assert (∀ x t' L', a_step comp o t = Ret (x, t') → a_step comp o L = Ret (x, L') →
    a_rep t' L' → strict comp L' →
    outputs (a_run comp (o :: os) t) = outputs (a_run comp (o :: os) L)) as Hstep.
  { intros x t' L' Hx Hy Hrep' Hs'. cbn [a_run]. rewrite Hy in Hfr.
    rewrite (st_bind_Ret _ _ _ _ _ Hx), (st_bind_Ret _ _ _ _ _ Hy).
    by rewrite !outputs_map, (IH t' L' Hrep' Hs' Hfr). }
  destruct o as [k v|k|].
  - apply fresh_key_spec in Hk. destruct (a_insert_ok t L k v Hrep) as (t' & Ht' & Hrep').
    eapply Hstep; [cbn; by rewrite (st_bind_Ret _ _ _ _ _ Ht')|done|done|by apply ord_insert_strict].
  - destruct (fresh_key comp k L) eqn:Hfk.
    + apply fresh_key_spec in Hfk. cbn.
      pose proof (a_extract_absent t L k Hrep Hfk) as Hab.
      pose proof (ord_extract_absent comp k L Hfk) as Hab'.
      unfold mbind, st_bind. rewrite Hab. cbn. by rewrite Hab'.
    + apply not_fresh_key in Hfk.
      destruct (a_extract_ok t L k Hrep Hfk) as (t' & L1 & k' & v & L2 & Ht' & -> & Hk' & Hrep').
      destruct (ord_extract_ok comp k _ Hfk) as (L1' & k2 & v2 & L2' & Hx & Heq & Hk2).
      destruct (strict_unique comp k _ _ _ _ _ _ Hs Heq Hk' Hk2) as (<- & [= <- <-] & <-).
      eapply (Hstep (OutValue v) t' (L1 ++ L2)).
      * cbn. by rewrite (st_bind_Ret _ _ _ _ _ Ht').
      * cbn. unfold mbind, st_bind. cbn. by rewrite Hx.
      * done.
      * by eapply strict_delete.
  - eapply (Hstep (OutEntries (length L) L) t L); [|done|done|done]. cbn.
    rewrite (st_bind_Ret st_get _ _ _ _ eq_refl), (st_bind_Ret _ _ _ _ _ (a_rep_entries t L Hrep)).
    by rewrite (a_rep_size t L Hrep).
Qed.
End refinement.
