(* ===== verification/RbTree.v ===== *)
(** * The red-black tree [assoc_rb_tree_t]: the code

    [src/src/util/alg_ds/ds/assoc_container/assoc_rb_tree.c].  Nodes live in a
    heap, a finite map from locations; every read and write through a node
    pointer is a lookup or an update of the heap, undefined when the location
    holds no node.  The sentinel [dummy] is a node of the heap.  The loops take
    fuel; the callers give them more than the number of nodes. *)
From S2P Require Import Prelude.
From stdpp Require Export gmap.

Abbreviation loc := positive.
Definition NULL : loc := 1%positive.

Inductive assoc_color_e := ASSOC_BLACK | ASSOC_RED.
#[export] Instance assoc_color_eq_dec : EqDecision assoc_color_e.
Proof. solve_decision. Defined.

Section rb_tree.
Context {K V : Type}.

(** The key and the value of the sentinel are NULL. *)
Record assoc_node_t := mk_node {
  key : option K;
  value : option V;
  parent : loc;
  left : loc;
  right : loc;
  color : assoc_color_e }.

(** [brk] is the next location [malloc] returns. *)
Record assoc_rb_tree_t := mk_tree {
  heap : gmap loc assoc_node_t;
  brk : loc;
  dummy : loc;
  root : loc;
  size : nat }.

Abbreviation M := (st assoc_rb_tree_t).

(** ** The heap *)

Definition load (p : loc) : M assoc_node_t := λ s,
  match heap s !! p with Some n => Ret (n, s) | None => Undef end.

Definition with_heap (h : gmap loc assoc_node_t) (s : assoc_rb_tree_t) : assoc_rb_tree_t :=
  mk_tree h (brk s) (dummy s) (root s) (size s).

Definition store (p : loc) (f : assoc_node_t → assoc_node_t) : M () := λ s,
  match heap s !! p with
  | Some n => Ret ((), with_heap (<[p := f n]> (heap s)) s)
  | None => Undef
  end.

Definition node_set_parent (q : loc) (n : assoc_node_t) : assoc_node_t :=
  mk_node (key n) (value n) q (left n) (right n) (color n).
Definition node_set_left (q : loc) (n : assoc_node_t) : assoc_node_t :=
  mk_node (key n) (value n) (parent n) q (right n) (color n).
Definition node_set_right (q : loc) (n : assoc_node_t) : assoc_node_t :=
  mk_node (key n) (value n) (parent n) (left n) q (color n).
Definition node_set_color (c : assoc_color_e) (n : assoc_node_t) : assoc_node_t :=
  mk_node (key n) (value n) (parent n) (left n) (right n) c.

Definition set_parent (p q : loc) : M () := store p (node_set_parent q).
Definition set_left (p q : loc) : M () := store p (node_set_left q).
Definition set_right (p q : loc) : M () := store p (node_set_right q).
Definition set_color (p : loc) (c : assoc_color_e) : M () := store p (node_set_color c).
Definition set_root (p : loc) : M () :=
  st_mod (λ s, mk_tree (heap s) (brk s) (dummy s) p (size s)).
Definition set_size (f : nat → nat) : M () :=
  st_mod (λ s, mk_tree (heap s) (brk s) (dummy s) (root s) (f (size s))).

(** [malloc] of a node and its initialisation. *)
Definition init_node (k : option K) (v : option V) : M loc := λ s,
  Ret (brk s, mk_tree (<[brk s := mk_node k v NULL NULL NULL ASSOC_RED]> (heap s))
                (Pos.succ (brk s)) (dummy s) (root s) (size s)).

Definition create_node_rb_tree (k : K) (v : V) : M loc :=
  tree ← st_get;
  x ← init_node (Some k) (Some v);
  set_parent x (dummy tree);;
  set_left x (dummy tree);;
  set_right x (dummy tree);;
  mret x.

(** [free] of a node and its key. *)
Definition free_node_rb_tree (p : loc) : M () := λ s,
  match heap s !! p with
  | Some _ => Ret ((), with_heap (delete p (heap s)) s)
  | None => Undef
  end.

(** [tree->dummy = init_node(NULL, NULL)], black; the tree is empty. *)
Definition assoc_rb_tree_init : assoc_rb_tree_t :=
  mk_tree {[ 2%positive := mk_node None None NULL NULL NULL ASSOC_BLACK ]} 3 2 2 0.

Definition left_rotate (x_node : loc) : M () :=
  tree ← st_get;
  x ← load x_node;
  st_assert (bool_decide (right x ≠ dummy tree));;
  let y_node := right x in
  y ← load y_node;
  set_right x_node (left y);;
  y ← load y_node;
  (if bool_decide (left y ≠ dummy tree) then set_parent (left y) x_node else mret ());;
  x ← load x_node;
  set_parent y_node (parent x);;
  x ← load x_node;
  (if bool_decide (parent x = dummy tree) then set_root y_node
   else p ← load (parent x);
        if bool_decide (x_node = left p) then set_left (parent x) y_node
        else set_right (parent x) y_node);;
  set_left y_node x_node;;
  set_parent x_node y_node.

Definition right_rotate (x_node : loc) : M () :=
  tree ← st_get;
  x ← load x_node;
  st_assert (bool_decide (left x ≠ dummy tree));;
  let y_node := left x in
  y ← load y_node;
  set_left x_node (right y);;
  y ← load y_node;
  (if bool_decide (right y ≠ dummy tree) then set_parent (right y) x_node else mret ());;
  x ← load x_node;
  set_parent y_node (parent x);;
  x ← load x_node;
  (if bool_decide (parent x = dummy tree) then set_root y_node
   else p ← load (parent x);
        if bool_decide (left p = x_node) then set_left (parent x) y_node
        else set_right (parent x) y_node);;
  set_right y_node x_node;;
  set_parent x_node y_node.

(** ** Insertion *)

Definition is_red (n : assoc_node_t) : bool := bool_decide (color n = ASSOC_RED).
Definition is_black (n : assoc_node_t) : bool := bool_decide (color n = ASSOC_BLACK).

(** The loop of [insert_fixup]. *)
Fixpoint insert_fixup_loop (fuel : nat) (z_node : loc) : M () :=
  match fuel with
  | O => st_no_fuel
  | S fuel =>
    z ← load z_node;
    par ← load (parent z);
    if is_red par then
      let parent_ := parent z in
      let grand_parent := parent par in
      gp ← load grand_parent;
      if bool_decide (parent_ = left gp) then
        let uncle := right gp in
        u ← load uncle;
        if is_red u then
          set_color parent_ ASSOC_BLACK;;
          set_color uncle ASSOC_BLACK;;
          set_color grand_parent ASSOC_RED;;
          insert_fixup_loop fuel grand_parent
        else
          zp ← (if bool_decide (z_node = right par) then
                  left_rotate parent_;;
                  z ← load parent_;
                  mret (parent_, parent z)
                else mret (z_node, parent_));
          set_color zp.2 ASSOC_BLACK;;
          set_color grand_parent ASSOC_RED;;
          right_rotate grand_parent;;
          insert_fixup_loop fuel zp.1
      else
        let uncle := left gp in
        u ← load uncle;
        if is_red u then
          set_color parent_ ASSOC_BLACK;;
          set_color uncle ASSOC_BLACK;;
          set_color grand_parent ASSOC_RED;;
          insert_fixup_loop fuel grand_parent
        else
          zp ← (if bool_decide (z_node = left par) then
                  right_rotate parent_;;
                  z ← load parent_;
                  mret (parent_, parent z)
                else mret (z_node, parent_));
          set_color zp.2 ASSOC_BLACK;;
          set_color grand_parent ASSOC_RED;;
          left_rotate grand_parent;;
          insert_fixup_loop fuel zp.1
    else mret ()
  end.

Definition insert_fixup (fuel : nat) (z_node : loc) : M () :=
  insert_fixup_loop fuel z_node;;
  tree ← st_get;
  set_color (root tree) ASSOC_BLACK.

Section comp.
Context (comp : K → K → Z).

(** [tree->comp(n->key, m->key)]. *)
Definition comp_keys (k1 k2 : option K) : M Z :=
  match k1, k2 with Some k1, Some k2 => mret (comp k1 k2) | _, _ => st_undef end.

(** The loop that finds the leaf; it returns [y_node]. *)
Fixpoint insert_find_leaf (fuel : nat) (zkey : option K) (x_node y_node : loc) : M loc :=
  match fuel with
  | O => st_no_fuel
  | S fuel =>
    tree ← st_get;
    if bool_decide (x_node ≠ dummy tree) then
      x ← load x_node;
      c ← comp_keys zkey (key x);
      if (c =? 1)%Z then insert_find_leaf fuel zkey (left x) x_node
      else insert_find_leaf fuel zkey (right x) x_node
    else mret y_node
  end.

Definition assoc_rb_tree_insert (k : K) (v : V) : M () :=
  z_node ← create_node_rb_tree k v;
  tree ← st_get;
  z ← load z_node;
  st_assert (bool_decide (z_node ≠ dummy tree));;
  st_assert (bool_decide (parent z = dummy tree));;
  st_assert (bool_decide (left z = dummy tree));;
  st_assert (bool_decide (right z = dummy tree));;
  st_assert (bool_decide (color z = ASSOC_RED));;
  let fuel := size tree + 2 in
  y_node ← insert_find_leaf fuel (key z) (root tree) (dummy tree);
  set_parent z_node y_node;;
  (if bool_decide (y_node = dummy tree) then set_root z_node
   else y ← load y_node;
        c ← comp_keys (key z) (key y);
        if (c =? 1)%Z then set_left y_node z_node else set_right y_node z_node);;
  insert_fixup fuel z_node;;
  set_size S.

(** ** Extraction *)

(** The loop of [delete_fixup]. *)
Fixpoint delete_fixup_loop (fuel : nat) (x_node : loc) : M loc :=
  match fuel with
  | O => st_no_fuel
  | S fuel =>
    tree ← st_get;
    x ← load x_node;
    if bool_decide (x_node ≠ root tree) && is_black x then
      par ← load (parent x);
      if bool_decide (x_node = left par) then
        let w_node := right par in
        w ← load w_node;
        w_node ← (if is_red w then
                    set_color w_node ASSOC_BLACK;;
                    set_color (parent x) ASSOC_RED;;
                    left_rotate (parent x);;
                    x ← load x_node;
                    par ← load (parent x);
                    mret (right par)
                  else mret w_node);
        w ← load w_node;
        st_assert (is_black w);;
        wl ← load (left w);
        wr ← load (right w);
        if is_black wl && is_black wr then
          set_color w_node ASSOC_RED;;
          x ← load x_node;
          delete_fixup_loop fuel (parent x)
        else
          w_node ← (if is_black wr then
                      st_assert (is_black w);;
                      st_assert (is_red wl);;
                      set_color (left w) ASSOC_BLACK;;
                      set_color w_node ASSOC_RED;;
                      right_rotate w_node;;
                      x ← load x_node;
                      par ← load (parent x);
                      mret (right par)
                    else mret w_node);
          w ← load w_node;
          st_assert (is_black w);;
          wr ← load (right w);
          st_assert (is_red wr);;
          x ← load x_node;
          par ← load (parent x);
          set_color w_node (color par);;
          set_color (parent x) ASSOC_BLACK;;
          set_color (right w) ASSOC_BLACK;;
          left_rotate (parent x);;
          tree ← st_get;
          delete_fixup_loop fuel (root tree)
      else
        let w_node := left par in
        w ← load w_node;
        w_node ← (if is_red w then
                    set_color w_node ASSOC_BLACK;;
                    set_color (parent x) ASSOC_RED;;
                    right_rotate (parent x);;
                    x ← load x_node;
                    par ← load (parent x);
                    mret (left par)
                  else mret w_node);
        w ← load w_node;
        st_assert (is_black w);;
        wl ← load (left w);
        wr ← load (right w);
        if is_black wl && is_black wr then
          set_color w_node ASSOC_RED;;
          x ← load x_node;
          delete_fixup_loop fuel (parent x)
        else
          w_node ← (if is_black wl then
                      st_assert (is_black w);;
                      st_assert (is_red wr);;
                      set_color (right w) ASSOC_BLACK;;
                      set_color w_node ASSOC_RED;;
                      left_rotate w_node;;
                      x ← load x_node;
                      par ← load (parent x);
                      mret (left par)
                    else mret w_node);
          w ← load w_node;
          st_assert (is_black w);;
          wl ← load (left w);
          st_assert (is_red wl);;
          x ← load x_node;
          par ← load (parent x);
          set_color w_node (color par);;
          set_color (parent x) ASSOC_BLACK;;
          set_color (left w) ASSOC_BLACK;;
          right_rotate (parent x);;
          tree ← st_get;
          delete_fixup_loop fuel (root tree)
    else mret x_node
  end.

Definition delete_fixup (fuel : nat) (x_node : loc) : M () :=
  x_node ← delete_fixup_loop fuel x_node;
  set_color x_node ASSOC_BLACK.

Definition transplant (u_node v_node : loc) : M () :=
  tree ← st_get;
  st_assert (bool_decide (u_node ≠ dummy tree));;
  u ← load u_node;
  (if bool_decide (parent u = dummy tree) then set_root v_node
   else p ← load (parent u);
        if bool_decide (u_node = left p) then set_left (parent u) v_node
        else set_right (parent u) v_node);;
  u ← load u_node;
  set_parent v_node (parent u).

(** [while(x_node->left != tree->dummy) x_node = x_node->left;] *)
Fixpoint minimum_loop (fuel : nat) (x_node : loc) : M loc :=
  match fuel with
  | O => st_no_fuel
  | S fuel =>
    tree ← st_get;
    x ← load x_node;
    if bool_decide (left x ≠ dummy tree) then minimum_loop fuel (left x) else mret x_node
  end.

Definition minimum (fuel : nat) (x_node : loc) : M loc :=
  tree ← st_get;
  if bool_decide (x_node = dummy tree) then mret (dummy tree) else minimum_loop fuel x_node.

Fixpoint find_rb_tree (fuel : nat) (node : loc) (k : K) : M loc :=
  match fuel with
  | O => st_no_fuel
  | S fuel =>
    tree ← st_get;
    if bool_decide (node ≠ dummy tree) then
      n ← load node;
      rc ← comp_keys (Some k) (key n);
      if (rc =? 1)%Z then find_rb_tree fuel (left n) k
      else if (rc =? -1)%Z then find_rb_tree fuel (right n) k
      else st_assert (rc =? 0)%Z;; mret node
    else mret node
  end.

Definition assoc_rb_tree_extract_node (fuel : nat) (z_node : loc) : M () :=
  tree ← st_get;
  st_assert (bool_decide (z_node ≠ dummy tree));;
  z ← load z_node;
  cx ← (if bool_decide (left z = dummy tree) then
          transplant z_node (right z);;
          mret (color z, right z)
        else if bool_decide (right z = dummy tree) then
          transplant z_node (left z);;
          mret (color z, left z)
        else
          y_node ← minimum fuel (right z);
          y ← load y_node;
          let original_color := color y in
          let x_node := right y in
          (if bool_decide (parent y = z_node) then set_parent x_node y_node
           else transplant y_node (right y);;
                z ← load z_node;
                set_right y_node (right z);;
                y ← load y_node;
                set_parent (right y) y_node);;
          transplant z_node y_node;;
          z ← load z_node;
          set_left y_node (left z);;
          y ← load y_node;
          set_parent (left y) y_node;;
          z ← load z_node;
          set_color y_node (color z);;
          mret (original_color, x_node));
  if bool_decide (cx.1 = ASSOC_BLACK) then delete_fixup fuel cx.2 else mret ().

Definition assoc_rb_tree_extract (k : K) : M V :=
  tree ← st_get;
  let fuel := size tree + 2 in
  z_node ← find_rb_tree fuel (root tree) k;
  st_assert (bool_decide (z_node ≠ dummy tree));;
  assoc_rb_tree_extract_node fuel z_node;;
  z ← load z_node;
  v ← (match value z with Some v => mret v | None => st_undef end);
  free_node_rb_tree z_node;;
  tree ← st_get;
  st_assert (negb (size tree =? 0));;
  set_size pred;;
  mret v.
End comp.

(** The node at an iterator, freed; the pair is what [tree->free_func] is called
    with. *)
Definition assoc_rb_tree_free_it (it : loc) : M (option K * option V) :=
  tree ← st_get;
  st_assert (bool_decide (it ≠ dummy tree));;
  assoc_rb_tree_extract_node (size tree + 2) it;;
  z ← load it;
  free_node_rb_tree it;;
  tree ← st_get;
  st_assert (negb (size tree =? 0));;
  set_size pred;;
  mret (key z, value z).

(** The recursion stops at the sentinel; the result lists the calls of [f]. *)
Fixpoint depth_first_search_free (fuel : nat) (node : loc) : M (list (option K * option V)) :=
  match fuel with
  | O => st_no_fuel
  | S fuel =>
    tree ← st_get;
    if bool_decide (node ≠ dummy tree) then
      n ← load node;
      cl ← depth_first_search_free fuel (left n);
      n ← load node;
      cr ← depth_first_search_free fuel (right n);
      n ← load node;
      free_node_rb_tree node;;
      mret (cl ++ cr ++ [(key n, value n)])
    else mret []
  end.

Definition assoc_rb_tree_free : M (list (option K * option V)) :=
  tree ← st_get;
  calls ← depth_first_search_free (size tree + 2) (root tree);
  tree ← st_get;
  free_node_rb_tree (dummy tree);;
  mret calls.

(** ** Iteration *)

Definition assoc_rb_tree_front : M loc :=
  tree ← st_get;
  minimum (size tree + 2) (root tree).

Definition assoc_rb_tree_end : M loc := tree ← st_get; mret (dummy tree).

(** The loop of [assoc_rb_tree_next] up to the ancestor reached from its left. *)
Fixpoint next_up (fuel : nat) (node p : loc) : M loc :=
  match fuel with
  | O => st_no_fuel
  | S fuel =>
    tree ← st_get;
    if bool_decide (p = dummy tree) then mret p
    else pn ← load p;
         if bool_decide (left pn = node) then mret p
         else next_up fuel p (parent pn)
  end.

Definition assoc_rb_tree_next (node : loc) : M loc :=
  tree ← st_get;
  st_assert (bool_decide (node ≠ dummy tree));;
  n ← load node;
  if bool_decide (right n ≠ dummy tree) then minimum (size tree + 2) (right n)
  else next_up (size tree + 2) node (parent n).

Definition assoc_rb_tree_key (it : loc) : M K :=
  tree ← st_get;
  st_assert (bool_decide (it ≠ dummy tree));;
  n ← load it;
  match key n with Some k => mret k | None => st_undef end.

Definition assoc_rb_tree_value (it : loc) : M V :=
  tree ← st_get;
  st_assert (bool_decide (it ≠ dummy tree));;
  n ← load it;
  match value n with Some v => mret v | None => st_undef end.

Definition assoc_rb_tree_size (s : assoc_rb_tree_t) : nat := size s.

(** Iterating from an iterator to the end, as the users of the tree do:
    [for(it = it0; it != assoc_end(tree); it = assoc_next(tree, it))]. *)
Fixpoint iterate (fuel : nat) (it : loc) : M (list (loc * (K * V))) :=
  match fuel with
  | O => st_no_fuel
  | S fuel =>
    e ← assoc_rb_tree_end;
    if bool_decide (it = e) then mret []
    else k ← assoc_rb_tree_key it;
         v ← assoc_rb_tree_value it;
         it' ← assoc_rb_tree_next it;
         rest ← iterate fuel it';
         mret ((it, (k, v)) :: rest)
  end.

(** All entries from [assoc_front] to [assoc_end]. *)
Definition rb_entries : M (list (loc * (K * V))) :=
  tree ← st_get;
  it ← assoc_rb_tree_front;
  iterate (size tree + 1) it.
End rb_tree.
Arguments assoc_node_t : clear implicits.
Arguments assoc_rb_tree_t : clear implicits.
