(* ===== verification/RbHeap.v ===== *)
(** * The red-black tree: what the heap represents

    Functional trees that remember the location of each node, contexts (the
    path from a node to the root, with the siblings), the relation between a
    heap and a tree in focus, and the lemmas that say what each primitive of the
    code (a colour change, a rotation) does to the tree in focus.  Everything
    above this file works on trees, never on heaps.

    The code comes in mirrored pairs; [side] states each lemma once. *)
From S2P Require Import Prelude RbTree.
#[local] Set Warnings "-clear-no-such-hyp".

Inductive side := L | R.
Definition opp (d : side) : side := match d with L => R | R => L end.

Section rb_heap.
Context {K V : Type}.
Abbreviation M := (st (assoc_rb_tree_t K V)).
Implicit Types (s : assoc_rb_tree_t K V) (p q : loc).

(** ** The code by side *)

Definition child (d : side) (n : assoc_node_t K V) : loc :=
  match d with L => left n | R => right n end.
Definition node_set_child (d : side) (q : loc) (n : assoc_node_t K V) : assoc_node_t K V :=
  match d with L => node_set_left q n | R => node_set_right q n end.
Definition set_child (d : side) (p q : loc) : M () := store p (node_set_child d q).

(** Both rotations: [rotate L] is [left_rotate], [rotate R] is [right_rotate]
    (which writes its comparison the other way round). *)
Definition rotate (d : side) (x_node : loc) : M () :=
  tree ← st_get;
  x ← load x_node;
  st_assert (bool_decide (child (opp d) x ≠ dummy tree));;
  let y_node := child (opp d) x in
  y ← load y_node;
  set_child (opp d) x_node (child d y);;
  y ← load y_node;
  (if bool_decide (child d y ≠ dummy tree) then set_parent (child d y) x_node else mret ());;
  x ← load x_node;
  set_parent y_node (parent x);;
  x ← load x_node;
  (if bool_decide (parent x = dummy tree) then set_root y_node
   else p ← load (parent x);
        if bool_decide (x_node = left p) then set_left (parent x) y_node
        else set_right (parent x) y_node);;
  set_child d y_node x_node;;
  set_parent x_node y_node.

Lemma left_rotate_side : left_rotate (K := K) (V := V) = rotate L.
Proof. reflexivity. Qed.

Lemma right_rotate_side x_node s : right_rotate x_node s = rotate R x_node s.
Proof.
  unfold right_rotate, rotate.
  repeat (apply st_bind_ext; [try reflexivity|intros; cbn [child opp]]).
  - destruct (bool_decide (parent _ = _)); [reflexivity|].
    apply st_bind_ext; [reflexivity|intros n s2].
    by rewrite (bool_decide_ext (left n = x_node) (x_node = left n)) by (split; congruence).
  - reflexivity.
Qed.

(** ** Trees and contexts *)

Inductive tree :=
| Leaf
| Node (p : loc) (c : assoc_color_e) (l : tree) (k : K) (v : V) (r : tree).

(** A frame of a context: the node [p] whose child on side [d] is the hole. *)
Inductive frame := F (d : side) (p : loc) (c : assoc_color_e) (k : K) (v : V) (sib : tree).

Abbreviation ctx := (list frame).

(** A node by its child on side [d] and the other one. *)
Definition mk (d : side) (p : loc) (c : assoc_color_e) (k : K) (v : V) (near far : tree) : tree :=
  match d with L => Node p c near k v far | R => Node p c far k v near end.

Definition plug1 (f : frame) (t : tree) : tree :=
  match f with F d p c k v sib => mk d p c k v t sib end.
Definition plug (C : ctx) (t : tree) : tree := foldl (λ t f, plug1 f t) t C.

Fixpoint locs (t : tree) : list loc :=
  match t with Leaf => [] | Node p _ l _ _ r => p :: locs l ++ locs r end.
Definition flocs (f : frame) : list loc :=
  match f with F _ p _ _ _ sib => p :: locs sib end.
Definition clocs (C : ctx) : list loc := concat (flocs <$> C).

(** ** Representation *)

Section repr.
Context (d0 : loc).   (** the sentinel *)

Definition ptr (t : tree) : loc := match t with Leaf => d0 | Node p _ _ _ _ _ => p end.
Definition par_of (C : ctx) : loc := match C with [] => d0 | F _ p _ _ _ _ :: _ => p end.

Definition node_of (d : side) (c : assoc_color_e) (k : K) (v : V) (par near far : loc) :
    assoc_node_t K V :=
  match d with
  | L => mk_node (Some k) (Some v) par near far c
  | R => mk_node (Some k) (Some v) par far near c
  end.

Fixpoint tree_at (h : gmap loc (assoc_node_t K V)) (par : loc) (t : tree) : Prop :=
  match t with
  | Leaf => True
  | Node p c l k v r =>
      h !! p = Some (mk_node (Some k) (Some v) par (ptr l) (ptr r) c) ∧
      tree_at h p l ∧ tree_at h p r
  end.

Fixpoint ctx_at (h : gmap loc (assoc_node_t K V)) (root hole : loc) (C : ctx) : Prop :=
  match C with
  | [] => root = hole
  | F d p c k v sib :: C' =>
      h !! p = Some (node_of d c k v (par_of C') hole (ptr sib)) ∧
      tree_at h p sib ∧ ctx_at h root p C'
  end.

End repr.

(** What an operation on the tree leaves alone: the sentinel's location, the
    size, the allocator and nodes of the heap that are not in the tree. *)
Record env := mk_env {
  e_dummy : loc;
  e_size : nat;
  e_brk : loc;
  e_heap : gmap loc (assoc_node_t K V) }.

(** The nodes of [s] are the sentinel, those at [ls] and those of the
    environment. *)
Record env_heap_ok (E : env) (h : gmap loc (assoc_node_t K V)) (d b : loc) (n : nat)
    (ls : list loc) : Prop := mk_env_ok {
  eo_dummy : d = e_dummy E;
  eo_brk : b = e_brk E;
  eo_size : n = e_size E;
  eo_nodup : NoDup (e_dummy E :: ls);
  eo_other : ∀ q n, e_heap E !! q = Some n → h !! q = Some n ∧ q ∉ e_dummy E :: ls;
  eo_dom : ∀ q, is_Some (h !! q) → q ∈ e_dummy E :: ls ∨ is_Some (e_heap E !! q) }.

Abbreviation env_ok E s ls := (env_heap_ok E (heap s) (dummy s) (brk s) (size s) ls).

(** [focus s E C t pd]: the tree of [s] is [plug C t], its sentinel is black and
    has the parent pointer [pd]. *)
Record focus s (E : env) (C : ctx) (t : tree) (pd : loc) : Prop := mk_focus {
  fo_tree : tree_at (e_dummy E) (heap s) (par_of (e_dummy E) C) t;
  fo_ctx : ctx_at (e_dummy E) (heap s) (root s) (ptr (e_dummy E) t) C;
  fo_dummy : heap s !! e_dummy E = Some (mk_node None None pd NULL NULL ASSOC_BLACK);
  fo_env : env_ok E s (locs t ++ clocs C) }.

(** ** Frame properties *)

Lemma tree_at_frame d0 h h' par t :
  (∀ q, q ∈ locs t → h' !! q = h !! q) → tree_at d0 h par t → tree_at d0 h' par t.
Proof.
  revert par. induction t as [|p c l IHl k v r IHr]; intros par Hh; [done|].
  cbn. intros (Hp & Hl & Hr). cbn in Hh. split; [by rewrite Hh by (by left)|].
  split; [apply IHl|apply IHr]; set_solver.
Qed.

Lemma ctx_at_frame d0 h h' rt hole C :
  (∀ q, q ∈ clocs C → h' !! q = h !! q) → ctx_at d0 h rt hole C → ctx_at d0 h' rt hole C.
Proof.
  revert hole. induction C as [|[d p c k v sib] C IH]; intros hole Hh; [done|].
  unfold clocs in Hh. cbn in Hh |- *. intros (Hp & Hs & HC).
  split; [by rewrite Hh by (by left)|]. split.
  - eapply tree_at_frame; [|done]. set_solver.
  - apply IH; [|done]. unfold clocs. set_solver.
Qed.

(** The nodes of a tree whose root has got another parent. *)
Lemma tree_at_reparent d0 h h' par par' t : NoDup (locs t) →
  (∀ q, q ∈ locs t → q ≠ ptr d0 t → h' !! q = h !! q) →
  (t ≠ Leaf → h' !! ptr d0 t = node_set_parent par' <$> h !! ptr d0 t) →
  tree_at d0 h par t → tree_at d0 h' par' t.
Proof.
  destruct t as [|p c l k v r]; [done|]. cbn. intros Hnd Hh Hp (Hn & Hl & Hr).
  apply NoDup_cons in Hnd as [Hni _]. rewrite Hp, Hn by done. split; [done|].
  split; (eapply tree_at_frame; [|done]); intros q Hq; apply Hh; set_solver.
Qed.

(** ** Moving the focus *)

Lemma env_ok_perm E h d b n ls ls' : ls ≡ₚ ls' →
  env_heap_ok E h d b n ls → env_heap_ok E h d b n ls'.
Proof.
  intros Hp [Hd Hs Hb Hn Ho Hdom]. split; [done|done|done| | |].
  - by rewrite <-Hp.
  - intros q m Hq. by rewrite <-Hp; apply Ho.
  - intros q Hq. rewrite <-Hp. by apply Hdom.
Qed.

Lemma clocs_cons f C : clocs (f :: C) = flocs f ++ clocs C.
Proof. done. Qed.

Lemma locs_mk d p c k v a b : locs (mk d p c k v a b) ≡ₚ p :: locs a ++ locs b.
Proof. destruct d; cbn; [done|]. by rewrite (Permutation_app_comm (locs a)). Qed.

Lemma ptr_mk d0 d p c k v a b : ptr d0 (mk d p c k v a b) = p.
Proof. by destruct d. Qed.

Lemma locs_up d p c k v sib C t :
  locs t ++ clocs (F d p c k v sib :: C) ≡ₚ locs (mk d p c k v t sib) ++ clocs C.
Proof. rewrite clocs_cons, locs_mk. cbn. solve_Permutation. Qed.

Lemma focus_up s E C t pd d p c k v sib :
  focus s E (F d p c k v sib :: C) t pd ↔ focus s E C (mk d p c k v t sib) pd.
Proof.
  split; intros [Ht HC Hd He]; (split; [| |done|]).
  3, 6: eapply env_ok_perm; [|done]; by rewrite locs_up.
  all: destruct d; cbn in *; tauto.
Qed.

(** From one child to the other. *)
Lemma focus_sib s E C t pd d p c k v sib :
  focus s E (F d p c k v sib :: C) t pd → focus s E (F (opp d) p c k v t :: C) sib pd.
Proof. rewrite !focus_up. by destruct d. Qed.

(** ** Reads *)

Lemma load_eq s p n : heap s !! p = Some n → load p s = Ret (n, s).
Proof. unfold load. by intros ->. Qed.

Lemma store_eq s p f n : heap s !! p = Some n →
  store p f s = Ret ((), with_heap (<[p := f n]> (heap s)) s).
Proof. unfold store. by intros ->. Qed.

Lemma focus_lookup s E C d p c k v a b pd : focus s E C (mk d p c k v a b) pd →
  heap s !! p = Some (node_of d c k v (par_of (e_dummy E) C) (ptr (e_dummy E) a) (ptr (e_dummy E) b)).
Proof. intros [Ht _ _ _]. destruct d; apply Ht. Qed.

Lemma focus_lookup_par s E C t pd d p c k v sib : focus s E (F d p c k v sib :: C) t pd →
  heap s !! p = Some (node_of d c k v (par_of (e_dummy E) C) (ptr (e_dummy E) t) (ptr (e_dummy E) sib)).
Proof. rewrite focus_up. apply focus_lookup. Qed.

(** The colour of a tree: its root's, the sentinel's for the empty tree. *)
Definition tcolor (t : tree) : assoc_color_e :=
  match t with Leaf => ASSOC_BLACK | Node _ c _ _ _ _ => c end.

Lemma focus_color s E C t pd : focus s E C t pd →
  ∃ n, heap s !! ptr (e_dummy E) t = Some n ∧ color n = tcolor t.
Proof.
  intros [Ht _ Hd _]. destruct t as [|p c l k v r]; cbn in *; [eauto|].
  destruct Ht as [Hp _]. eauto.
Qed.

Lemma focus_root s E t pd : focus s E [] t pd → root s = ptr (e_dummy E) t.
Proof. by intros [_ HC _ _]. Qed.

Lemma focus_dummy s E C t pd : focus s E C t pd → dummy s = e_dummy E.
Proof. intros [_ _ _ He]. apply He. Qed.

Lemma focus_nodup s E C t pd : focus s E C t pd → NoDup (e_dummy E :: locs t ++ clocs C).
Proof. intros [_ _ _ He]. apply He. Qed.

Lemma focus_ptr_dummy s E C t pd : focus s E C t pd →
  ptr (e_dummy E) t = e_dummy E ↔ t = Leaf.
Proof.
  intros Hf%focus_nodup. destruct t as [|p c l k v r]; cbn in *; [done|].
  apply NoDup_cons in Hf as [Hn _]. split; [intros ->; set_solver|done].
Qed.

(** ** Writes *)

(** A store into a node of the tree keeps the environment. *)
Lemma env_ok_store E h d b n ls p m : p ∈ e_dummy E :: ls →
  env_heap_ok E h d b n ls → env_heap_ok E (<[p := m]> h) d b n ls.
Proof.
  intros Hp [Hd Hs Hb Hn Ho Hdom]. split; [done..| |].
  - intros q m' Hq. destruct (Ho q m' Hq) as [Hq1 Hq2].
    rewrite lookup_insert_ne; [done|]. by intros ->.
  - intros q. destruct (decide (p = q)) as [->|Hne]; [by left|].
    rewrite lookup_insert_ne by done. apply Hdom.
Qed.

(** Distinct locations, from the [NoDup] of the environment. *)
Lemma env_ok_neq E h d b n ls p q : env_heap_ok E h d b n (p :: ls) → q ∈ ls → q ≠ p.
Proof. intros [_ _ _ Hn _ _]. rewrite !NoDup_cons in Hn. set_solver. Qed.

Lemma env_ok_dummy E h d b n ls p : env_heap_ok E h d b n ls → p ∈ ls → p ≠ e_dummy E.
Proof. intros [_ _ _ Hn _ _]. rewrite !NoDup_cons in Hn. set_solver. Qed.

Lemma set_color_focus s E C d p c k v a b pd c' : focus s E C (mk d p c k v a b) pd →
  ∃ s', set_color p c' s = Ret ((), s') ∧ focus s' E C (mk d p c' k v a b) pd.
Proof.
  intros Hf. pose proof (focus_lookup _ _ _ _ _ _ _ _ _ _ _ Hf) as Hp.
  unfold set_color. rewrite (store_eq _ _ _ _ Hp). eexists. split; [done|].
  destruct Hf as [Ht HC Hd He].
  assert (env_ok E s (p :: locs a ++ locs b ++ clocs C)) as He'.
  { eapply env_ok_perm; [|exact He]. rewrite locs_mk. solve_Permutation. }
  assert (∀ q, q ∈ locs a ++ locs b ++ clocs C → q ≠ p) as Hne by (intros q; by eapply env_ok_neq).
  assert (p ≠ e_dummy E) as Hpd by (eapply env_ok_dummy; [exact He'|left]).
  split; cbn.
  - assert (∀ par t, tree_at (e_dummy E) (heap s) par t → (∀ q, q ∈ locs t → q ≠ p) →
      tree_at (e_dummy E) (<[p := node_set_color c' (node_of d c k v
        (par_of (e_dummy E) C) (ptr (e_dummy E) a) (ptr (e_dummy E) b))]> (heap s)) par t) as Hfr.
    { intros par t Ht' Hq. eapply tree_at_frame; [|exact Ht']. intros q Hin.
      apply lookup_insert_ne. intros ->. by apply (Hq q). }
    destruct d; cbn in Ht |- *; rewrite lookup_insert_eq; destruct Ht as (_ & Hl & Hr);
      (split; [done|]); split; apply Hfr; (done || (intros; apply Hne; set_solver)).
  - rewrite ptr_mk in *. eapply ctx_at_frame; [|exact HC]. intros q Hq.
    apply lookup_insert_ne. intros ->. apply (Hne q); [set_solver|done].
  - by rewrite lookup_insert_ne.
  - eapply env_ok_perm; [|apply env_ok_store; [|exact He']].
    + rewrite locs_mk. solve_Permutation.
    + right. left.
Qed.

Definition blacken (t : tree) : tree :=
  match t with Leaf => Leaf | Node p _ l k v r => Node p ASSOC_BLACK l k v r end.

Lemma set_black_focus s E C t pd : focus s E C t pd →
  ∃ s', set_color (ptr (e_dummy E) t) ASSOC_BLACK s = Ret ((), s') ∧ focus s' E C (blacken t) pd.
Proof.
  intros Hf. destruct t as [|p c l k v r].
  - unfold set_color. pose proof (fo_dummy _ _ _ _ _ Hf) as Hd. cbn.
    rewrite (store_eq _ _ _ _ Hd). eexists. split; [done|].
    replace (with_heap _ s) with s; [done|]. unfold with_heap.
    rewrite insert_id by done. by destruct s.
  - apply (set_color_focus s E C L p c k v l r pd ASSOC_BLACK Hf).
Qed.

Lemma set_parent_dummy_focus s E C pd q : focus s E C Leaf pd →
  ∃ s', set_parent (e_dummy E) q s = Ret ((), s') ∧ focus s' E C Leaf q ∧ root s' = root s ∧
        (∀ p, p ≠ e_dummy E → heap s' !! p = heap s !! p).
Proof.
  intros [Ht HC Hd He]. unfold set_parent. rewrite (store_eq _ _ _ _ Hd).
  eexists. split; [done|].
  assert (∀ p, p ≠ e_dummy E → <[e_dummy E := node_set_parent q (mk_node None None pd NULL NULL
    ASSOC_BLACK)]> (heap s) !! p = heap s !! p) as Hh.
  { intros p Hp. by rewrite lookup_insert_ne. }
  split; [|by split]. split; cbn; [done| |by rewrite lookup_insert_eq|].
  - eapply ctx_at_frame; [|exact HC]. intros p Hp. apply Hh. eapply env_ok_dummy; [exact He|done].
  - apply env_ok_store; [left|done].
Qed.

(** The nodes the code writes to, [ws], are distinct and none is in the rest. *)
Lemma nodup_split (ls ws rest : list loc) : NoDup ls → ls ≡ₚ ws ++ rest →
  NoDup ws ∧ (∀ q, q ∈ rest → q ∉ ws).
Proof. intros Hn Hp. rewrite Hp in Hn. apply NoDup_app in Hn as (Hw & Hd & _). firstorder. Qed.

Lemma ptr_neq d0 t x : x ≠ d0 → x ∉ locs t → x ≠ ptr d0 t.
Proof. destruct t; cbn; set_solver. Qed.

End rb_heap.
