(* ===== verification/RbRotate.v ===== *)
(** * The red-black tree: rotations

    The tactics that run the pointer code on a focused tree, and what a rotation
    does to the tree in focus. *)
From S2P Require Import Prelude RbTree RbHeap.
#[local] Set Warnings "-clear-no-such-hyp".

(** ** Running the code on a focused tree *)

Ltac neq := first [assumption | apply not_eq_sym; assumption | tauto].

(** Looks a location up in a heap written as insertions. *)
Ltac lk :=
  cbn [heap root dummy with_heap];
  lazymatch goal with
  | |- <[?a := _]> _ !! ?p = _ =>
      first [ constr_eq a p; apply lookup_insert_eq
            | rewrite lookup_insert_ne by neq; lk ]
  | _ => first [eassumption | reflexivity]
  end.

(** Runs the code at the head of a bind. *)
Ltac sstep :=
  lazymatch goal with
  | |- ((_ ≫= _) ≫= _) _ = _ => rewrite st_bind_assoc
  | |- (st_get ≫= _) _ = _ => rewrite (st_bind_Ret st_get _ _ _ _ eq_refl)
  | |- (mret ?x ≫= _) ?s = _ => rewrite (st_bind_Ret (mret x) _ s x s eq_refl)
  | |- (load _ ≫= _) _ = _ => erewrite st_bind_Ret by (apply load_eq; lk)
  | |- (store _ _ ≫= _) _ = _ => erewrite st_bind_Ret by (apply store_eq; lk)
  | |- (set_parent _ _ ≫= _) _ = _ => unfold set_parent; erewrite st_bind_Ret by (apply store_eq; lk)
  | |- (set_child _ _ _ ≫= _) _ = _ => unfold set_child; erewrite st_bind_Ret by (apply store_eq; lk)
  | |- (set_left _ _ ≫= _) _ = _ => unfold set_left; erewrite st_bind_Ret by (apply store_eq; lk)
  | |- (set_right _ _ ≫= _) _ = _ => unfold set_right; erewrite st_bind_Ret by (apply store_eq; lk)
  | |- (set_color _ _ ≫= _) _ = _ => unfold set_color; erewrite st_bind_Ret by (apply store_eq; lk)
  | |- (comp_keys _ _ _ ≫= _) _ = _ => unfold comp_keys
  | |- (set_root _ ≫= _) _ = _ => unfold set_root; erewrite st_bind_Ret by reflexivity
  | |- (st_assert (bool_decide _) ≫= _) _ = _ =>
      rewrite bool_decide_eq_true_2 by neq; erewrite st_bind_Ret by reflexivity
  | |- ((if bool_decide _ then _ else _) ≫= _) _ = _ =>
      first [ rewrite bool_decide_eq_true_2 by (reflexivity || neq)
            | rewrite bool_decide_eq_false_2 by (neq || tauto) ]
  | |- set_parent _ _ _ = _ => unfold set_parent; erewrite store_eq by lk; reflexivity
  | |- store _ _ _ = _ => erewrite store_eq by lk; reflexivity
  end; cbn [key value parent left right color child opp node_of node_set_child node_set_parent
            node_set_left node_set_right node_set_color ptr par_of dummy heap with_heap brk root size].

(** Membership in an explicit list. *)
Ltac mem_disj := first [reflexivity | assumption | left; mem_disj | right; mem_disj].
Ltac mem := rewrite ?elem_of_cons, ?elem_of_app in *; mem_disj.

(** The subtrees and the context after writes to other nodes: [Hr] says that
    their nodes are not among those written. *)
Ltac rest_frame Hr :=
  let q := fresh "q" in let Hq := fresh "Hq" in let Hn := fresh "Hn" in
  intros q Hq; assert (Hn := Hr q ltac:(mem)); rewrite !not_elem_of_cons in Hn;
  rewrite !lookup_insert_ne by (apply not_eq_sym; tauto); reflexivity.
Ltac fin_tree Hr :=
  cbn in *; repeat match goal with H : _ ∧ _ |- _ => destruct H end;
  repeat match goal with
  | |- _ ∧ _ => split
  | |- True => exact I
  | |- _ !! _ = Some _ => lk
  | |- tree_at _ _ _ _ => first [eassumption | eapply tree_at_frame; [rest_frame Hr|eassumption]]
  | |- ctx_at _ _ _ _ _ => eapply ctx_at_frame; [rest_frame Hr|eassumption]
  | |- _ = _ => reflexivity
  end.
Ltac fin_env Hd He :=
  lazymatch type of He with env_heap_ok ?E _ _ _ _ ?ls => apply (env_ok_perm E _ _ _ _ ls) end;
  [cbn; solve_Permutation|cbn in *; rewrite ?Hd;
   repeat (apply env_ok_store; [mem|]); exact He].

Ltac rotate_case Hd Hr He :=
  cbn in *; repeat match goal with H : _ ∧ _ |- _ => destruct H end;
  eexists; split; [unfold rotate; repeat (sstep; rewrite ?Hd)
                  |split; [fin_tree Hr|fin_tree Hr|cbn; lk|fin_env Hd He]].

Ltac link_run Hd := repeat (sstep; rewrite ?Hd).

Section rb_rotate.
Context {K V : Type}.
Implicit Types (s : assoc_rb_tree_t K V) (p q : loc) (E : env (K := K) (V := V)).

Lemma rotate_focus s E C d x cx kx vx a y cy ky vy b c pd :
  focus s E C (mk d x cx kx vx a (mk d y cy ky vy b c)) pd →
  ∃ s', rotate d x s = Ret ((), s') ∧
        focus s' E C (mk d y cy ky vy (mk d x cx kx vx a b) c) pd.
Proof.
  intros Hf. pose proof (focus_dummy _ _ _ _ _ Hf) as Hd.
  pose proof (focus_nodup _ _ _ _ _ Hf) as Hnd.
  pose proof Hf as [Ht HC Hpd He]. rewrite ptr_mk in HC. rewrite Hd in He.
  assert (Hx := focus_lookup _ _ _ _ _ _ _ _ _ _ _ Hf). rewrite ptr_mk in Hx.
  assert (heap s !! y = Some (node_of d cy ky vy x (ptr (e_dummy E) b) (ptr (e_dummy E) c))) as Hy.
  { destruct d; cbn in Ht; tauto. }
  destruct C as [|[dp p cp kp vp sib] C].
  - destruct b as [|pb cb lb kb vb rb].
    + destruct (nodup_split _ [e_dummy E; x; y] (locs a ++ locs c) Hnd) as [Hw Hr].
      { destruct d; cbn; solve_Permutation. }
      rewrite !NoDup_cons, !not_elem_of_cons in Hw. destruct_and!.
      destruct d; rotate_case Hd Hr He.
    + destruct (nodup_split _ [e_dummy E; x; y; pb] (locs a ++ locs lb ++ locs rb ++ locs c) Hnd)
        as [Hw Hr].
      { destruct d; cbn; solve_Permutation. }
      rewrite !NoDup_cons, !not_elem_of_cons in Hw. destruct_and!.
      destruct d; rotate_case Hd Hr He.
  - destruct b as [|pb cb lb kb vb rb].
    + destruct (nodup_split _ [e_dummy E; x; y; p] (locs a ++ locs c ++ locs sib ++ clocs C) Hnd)
        as [Hw Hr].
      { destruct d; unfold clocs; cbn; solve_Permutation. }
      rewrite !NoDup_cons, !not_elem_of_cons in Hw. destruct_and!.
      assert (x ≠ ptr (e_dummy E) sib) as Hsib.
      { apply ptr_neq; [neq|]. intros Hin. apply (Hr x); mem. }
      destruct d, dp; rotate_case Hd Hr He.
    + destruct (nodup_split _ [e_dummy E; x; y; pb; p]
        (locs a ++ locs lb ++ locs rb ++ locs c ++ locs sib ++ clocs C) Hnd) as [Hw Hr].
      { destruct d; unfold clocs; cbn; solve_Permutation. }
      rewrite !NoDup_cons, !not_elem_of_cons in Hw. destruct_and!.
      assert (x ≠ ptr (e_dummy E) sib) as Hsib.
      { apply ptr_neq; [neq|]. intros Hin. apply (Hr x); mem. }
      destruct d, dp; rotate_case Hd Hr He.
Qed.

End rb_rotate.
