(* ===== verification/RbLink.v ===== *)
(** * The red-black tree: linking and unlinking nodes

    What [transplant] and the pointer surgery of [assoc_rb_tree_insert] and
    [assoc_rb_tree_extract_node] do to the tree in focus.  A node that is not in
    the tree (not yet linked, or unlinked and not yet freed) is one of the
    environment's. *)
From S2P Require Import Prelude RbTree RbHeap RbRotate.
#[local] Set Warnings "-clear-no-such-hyp".

Section rb_link.
Context {K V : Type}.
Implicit Types (s : assoc_rb_tree_t K V) (p q : loc) (E : env (K := K) (V := V)).

Definition env_add (p : loc) (n : assoc_node_t K V) (E : env) : env :=
  mk_env (e_dummy E) (e_size E) (e_brk E) (<[p := n]> (e_heap E)).
Definition env_del (p : loc) (E : env) : env :=
  mk_env (K := K) (V := V) (e_dummy E) (e_size E) (e_brk E) (delete p (e_heap E)).

Lemma env_ok_detach E h d b n z nz ls : h !! z = Some nz →
  env_heap_ok E h d b n (z :: ls) → env_heap_ok (env_add z nz E) h d b n ls.
Proof.
  intros Hz [Hd Hs Hb Hn Ho Hdom]. rewrite !NoDup_cons, not_elem_of_cons in Hn.
  destruct Hn as ((Hdz & Hdl) & Hzl & Hnl). split; cbn; [done..| | |].
  - by apply NoDup_cons.
  - intros q m. destruct (decide (z = q)) as [<-|Hne].
    + rewrite lookup_insert_eq. intros [= <-]. split; [done|].
      rewrite not_elem_of_cons. by split; [apply not_eq_sym|].
    + rewrite lookup_insert_ne by done. intros Hq. destruct (Ho q m Hq) as [? Hnq].
      split; [done|]. rewrite !not_elem_of_cons in *. tauto.
  - intros q Hq. destruct (decide (z = q)) as [<-|Hne].
    + right. by rewrite lookup_insert_eq.
    + rewrite lookup_insert_ne by done. destruct (Hdom q Hq) as [Hin|]; [left|by right].
      rewrite !elem_of_cons in *. naive_solver.
Qed.

Lemma env_ok_attach E h d b n y ny ls : e_heap E !! y = Some ny →
  env_heap_ok E h d b n ls → env_heap_ok (env_del y E) h d b n (y :: ls).
Proof.
  intros Hy [Hd Hs Hb Hn Ho Hdom]. destruct (Ho y ny Hy) as [Hhy Hny].
  rewrite not_elem_of_cons in Hny. destruct Hny as [Hyd Hyl].
  rewrite NoDup_cons in Hn. destruct Hn as [Hdl Hnl]. split; cbn; [done..| | |].
  - rewrite !NoDup_cons, not_elem_of_cons. split; [split; [by apply not_eq_sym|done]|done].
  - intros q m Hq. apply lookup_delete_Some in Hq as [Hne Hq].
    destruct (Ho q m Hq) as [? Hnq]. split; [done|].
    rewrite !not_elem_of_cons in *. naive_solver.
  - intros q Hq. destruct (decide (y = q)) as [<-|Hne]; [left; right; left|].
    rewrite lookup_delete_ne by done. destruct (Hdom q Hq) as [Hin|]; [left|by right].
    rewrite !elem_of_cons in *. tauto.
Qed.

(** The parent pointer of the sentinel after [v->parent = p] for the root [v]
    of [t]. *)
Definition dummy_parent (t : tree (K := K) (V := V)) (p pd : loc) : loc :=
  match t with Leaf => p | Node _ _ _ _ _ _ => pd end.

End rb_link.

Ltac link_setup Hnd ws rest :=
  let Hw := fresh "Hw" in let Hr := fresh "Hr" in
  destruct (nodup_split _ ws rest Hnd) as [Hw Hr];
  [repeat match goal with d : side |- _ => destruct d end; unfold clocs; cbn; solve_Permutation|];
  rewrite !NoDup_cons, !not_elem_of_cons in Hw; destruct_and!.

Ltac link_case Hd Hr He env_tac :=
  cbn in *; repeat match goal with H : _ ∧ _ |- _ => destruct H end;
  eexists; split; [unfold transplant; link_run Hd; reflexivity|];
  split; [split; [fin_tree Hr|fin_tree Hr|cbn; lk|env_tac; fin_env Hd He]|cbn; lk].

Section rb_link.
Context {K V : Type}.
Implicit Types (s : assoc_rb_tree_t K V) (p q : loc) (E : env (K := K) (V := V)).

(** [transplant(z, child)] for a node [z] with one empty child. *)
Lemma transplant_focus s E C d z c k v r pd :
  focus s E C (mk d z c k v Leaf r) pd →
  let nz := node_of d c k v (par_of (e_dummy E) C) (e_dummy E) (ptr (e_dummy E) r) in
  ∃ s', transplant z (ptr (e_dummy E) r) s = Ret ((), s') ∧
        focus s' (env_add z nz E) C r (dummy_parent r (par_of (e_dummy E) C) pd) ∧
        heap s' !! z = Some nz.
Proof.
  intros Hf nz. pose proof (focus_dummy _ _ _ _ _ Hf) as Hd.
  pose proof (focus_nodup _ _ _ _ _ Hf) as Hnd.
  pose proof Hf as [Ht HC Hpd He]. rewrite ptr_mk in HC. rewrite Hd in He.
  assert (Hz := focus_lookup _ _ _ _ _ _ _ _ _ _ _ Hf). subst nz.
  destruct C as [|[dp p cp kp vp sib] C]; destruct r as [|pr cr lr kr vr rr].
  - link_setup Hnd [e_dummy E; z] (@nil loc).
    destruct d; link_case Hd Hr He ltac:(apply env_ok_detach; [cbn; lk|]).
  - link_setup Hnd [e_dummy E; z; pr] (locs lr ++ locs rr).
    destruct d; link_case Hd Hr He ltac:(apply env_ok_detach; [cbn; lk|]).
  - link_setup Hnd [e_dummy E; z; p] (locs sib ++ clocs C).
    assert (z ≠ ptr (e_dummy E) sib) as Hsib.
    { apply ptr_neq; [neq|]. intros Hin. apply (Hr z); mem. }
    destruct d, dp; link_case Hd Hr He ltac:(apply env_ok_detach; [cbn; lk|]).
  - link_setup Hnd [e_dummy E; z; pr; p] (locs lr ++ locs rr ++ locs sib ++ clocs C).
    assert (z ≠ ptr (e_dummy E) sib) as Hsib.
    { apply ptr_neq; [neq|]. intros Hin. apply (Hr z); mem. }
    destruct d, dp; link_case Hd Hr He ltac:(apply env_ok_detach; [cbn; lk|]).
Qed.

(** The successor [y] of a node [z] with two children takes its place; here [y]
    is the right child of [z].  [cont] is the code that follows. *)
Lemma splice_child_focus {B} s E C z cz l kz vz y cy ky vy ry pd (cont : st _ B) :
  l ≠ Leaf → focus s E C (Node z cz l kz vz (Node y cy Leaf ky vy ry)) pd →
  let nz := mk_node (Some kz) (Some vz) (par_of (e_dummy E) C) (ptr (e_dummy E) l) y cz in
  ∃ s', (set_parent (ptr (e_dummy E) ry) y;;
         transplant z y;;
         z' ← load z;
         set_left y (left z');;
         y' ← load y;
         set_parent (left y') y;;
         z' ← load z;
         set_color y (color z');;
         cont) s = cont s' ∧
        focus s' (env_add z nz E) C (Node y cz l ky vy ry) (dummy_parent ry y pd) ∧
        heap s' !! z = Some nz.
Proof.
  intros Hl Hf nz. destruct l as [|pl cl ll kl vl rl]; [done|]. subst nz.
  pose proof (focus_dummy _ _ _ _ _ Hf) as Hd.
  pose proof (focus_nodup _ _ _ _ _ Hf) as Hnd.
  pose proof Hf as [Ht HC Hpd He]. rewrite Hd in He.
  destruct C as [|[dp p cp kp vp sib] C]; destruct ry as [|pr cr lr kr vr rr].
  - link_setup Hnd [e_dummy E; z; y; pl] (locs ll ++ locs rl).
    link_case Hd Hr He ltac:(apply env_ok_detach; [cbn; lk|]).
  - link_setup Hnd [e_dummy E; z; y; pl; pr] (locs ll ++ locs rl ++ locs lr ++ locs rr).
    link_case Hd Hr He ltac:(apply env_ok_detach; [cbn; lk|]).
  - link_setup Hnd [e_dummy E; z; y; pl; p] (locs ll ++ locs rl ++ locs sib ++ clocs C).
    assert (z ≠ ptr (e_dummy E) sib) as Hsib.
    { apply ptr_neq; [neq|]. intros Hin. apply (Hr z); mem. }
    destruct dp; link_case Hd Hr He ltac:(apply env_ok_detach; [cbn; lk|]).
  - link_setup Hnd [e_dummy E; z; y; pl; pr; p]
      (locs ll ++ locs rl ++ locs lr ++ locs rr ++ locs sib ++ clocs C).
    assert (z ≠ ptr (e_dummy E) sib) as Hsib.
    { apply ptr_neq; [neq|]. intros Hin. apply (Hr z); mem. }
    destruct dp; link_case Hd Hr He ltac:(apply env_ok_detach; [cbn; lk|]).
Qed.

(** The successor [y] is deeper and has been unlinked already. *)
Lemma splice_deep_focus {B} s E C z cz l kz vz r y ny ky vy pd (cont : st _ B) :
  l ≠ Leaf → r ≠ Leaf → focus s E C (Node z cz l kz vz r) pd →
  e_heap E !! y = Some ny → key ny = Some ky → value ny = Some vy →
  let nz := mk_node (Some kz) (Some vz) (par_of (e_dummy E) C)
              (ptr (e_dummy E) l) (ptr (e_dummy E) r) cz in
  ∃ s', (z' ← load z;
         set_right y (right z');;
         y' ← load y;
         set_parent (right y') y;;
         transplant z y;;
         z' ← load z;
         set_left y (left z');;
         y' ← load y;
         set_parent (left y') y;;
         z' ← load z;
         set_color y (color z');;
         cont) s = cont s' ∧
        focus s' (env_add z nz (env_del y E)) C (Node y cz l ky vy r) pd ∧
        heap s' !! z = Some nz.
Proof.
  intros Hl Hr0 Hf HyE Hky Hvy nz. destruct l as [|pl cl ll kl vl rl]; [done|].
  destruct r as [|pr cr lr kr vr rr]; [done|]. subst nz.
  pose proof (focus_dummy _ _ _ _ _ Hf) as Hd.
  pose proof Hf as [Ht HC Hpd He0].
  destruct (eo_other _ _ _ _ _ _ He0 _ _ HyE) as [Hy _].
  pose proof (env_ok_attach _ _ _ _ _ _ _ _ HyE He0) as He. clear He0.
  pose proof (eo_nodup _ _ _ _ _ _ He) as Hnd. rewrite Hd in He.
  destruct ny as [ky' vy' py ly rry cyy]. cbn in Hky, Hvy. subst ky' vy'.
  destruct C as [|[dp p cp kp vp sib] C].
  - link_setup Hnd [e_dummy E; z; y; pl; pr] (locs ll ++ locs rl ++ locs lr ++ locs rr).
    link_case Hd Hr He ltac:(apply env_ok_detach; [cbn; lk|]).
  - link_setup Hnd [e_dummy E; z; y; pl; pr; p]
      (locs ll ++ locs rl ++ locs lr ++ locs rr ++ locs sib ++ clocs C).
    assert (z ≠ ptr (e_dummy E) sib) as Hsib.
    { apply ptr_neq; [neq|]. intros Hin. apply (Hr z); mem. }
    destruct dp; link_case Hd Hr He ltac:(apply env_ok_detach; [cbn; lk|]).
Qed.

(** The side [insert] takes at a node: left when the new key is the smaller. *)
Definition go_left (c : Z) : bool := (c =? 1)%Z.

(** Linking a fresh node below the context that leads to its place. *)
Lemma link_leaf_focus {B} (comp : K → K → Z) s E C z k v pz cz pd (cont : st _ B) :
  focus s E C Leaf pd →
  e_heap E !! z = Some (mk_node (Some k) (Some v) pz (e_dummy E) (e_dummy E) cz) →
  match C with
  | [] => True
  | F d _ _ kp _ _ :: _ => go_left (comp k kp) = match d with L => true | R => false end
  end →
  ∃ s', (set_parent z (par_of (e_dummy E) C);;
         (if bool_decide (par_of (e_dummy E) C = e_dummy E) then set_root z
          else y' ← load (par_of (e_dummy E) C);
               c ← comp_keys comp (Some k) (key y');
               if (c =? 1)%Z then set_left (par_of (e_dummy E) C) z
               else set_right (par_of (e_dummy E) C) z);;
         cont) s = cont s' ∧
        focus s' (env_del z E) C (Node z cz Leaf k v Leaf) pd.
Proof.
  intros Hf HzE Hside. unfold go_left in Hside.
  pose proof (focus_dummy _ _ _ _ _ Hf) as Hd.
  pose proof Hf as [Ht HC Hpd He0].
  destruct (eo_other _ _ _ _ _ _ He0 _ _ HzE) as [Hz _].
  pose proof (env_ok_attach _ _ _ _ _ _ _ _ HzE He0) as He. clear He0.
  pose proof (eo_nodup _ _ _ _ _ _ He) as Hnd. rewrite Hd in He.
  destruct C as [|[dp p cp kp vp sib] C].
  - link_setup Hnd [e_dummy E; z] (@nil loc). cbn in *.
    eexists; split; [link_run Hd; reflexivity|].
    split; [fin_tree Hr|fin_tree Hr|cbn; lk|fin_env Hd He].
  - link_setup Hnd [e_dummy E; z; p] (locs sib ++ clocs C).
    destruct dp; cbn in *; repeat match goal with H : _ ∧ _ |- _ => destruct H end;
      (eexists; split; [link_run Hd; rewrite Hside; link_run Hd; reflexivity|]);
      (split; [fin_tree Hr|fin_tree Hr|cbn; lk|fin_env Hd He]).
Qed.
End rb_link.
