(* ===== verification/RbInsert.v ===== *)
(** * The red-black tree: insertion restores the red-black properties

    The red-black properties of trees and contexts, the in-order sequence of a
    tree, and the loop of [insert_fixup]. *)
From S2P Require Import Prelude RbTree RbHeap RbRotate.
#[local] Set Warnings "-clear-no-such-hyp".

Section rb_insert.
Context {K V : Type}.
Implicit Types (s : assoc_rb_tree_t K V) (p q : loc) (E : env (K := K) (V := V)).
Abbreviation tree := (tree (K := K) (V := V)).
Abbreviation ctx := (list (frame (K := K) (V := V))).
Implicit Types (t : tree) (C : ctx).
Abbreviation M := (st (assoc_rb_tree_t K V)).

(** ** The in-order sequence *)

Fixpoint inorder t : list (loc * (K * V)) :=
  match t with
  | Leaf => []
  | Node p _ l k v r => inorder l ++ (p, (k, v)) :: inorder r
  end.

Lemma inorder_plug_eq C t t' : inorder t = inorder t' → inorder (plug C t) = inorder (plug C t').
Proof.
  revert t t'. induction C as [|[d p c k v sib] C IH]; intros t t' Ht; [done|].
  cbn. apply IH. destruct d; cbn; by rewrite Ht.
Qed.

Lemma focus_plug s E C t pd : focus s E C t pd ↔ focus s E [] (plug C t) pd.
Proof.
  revert t. induction C as [|[d p c k v sib] C IH]; intros t; [done|].
  rewrite focus_up. cbn. apply IH.
Qed.

Lemma mk_opp d p c k v t t' : mk (opp d) p c k v t t' = mk d p c k v t' t.
Proof. by destruct d. Qed.

Lemma opp_opp d : opp (opp d) = d.
Proof. by destruct d. Qed.

(** ** The red-black properties *)

(** [rb c n t]: the root of [t] has colour [c] (black for the empty tree), no
    red node of [t] has a red child, and every path to a leaf has [n] black
    nodes. *)
Inductive rb : assoc_color_e → nat → tree → Prop :=
| rb_leaf : rb ASSOC_BLACK 0 Leaf
| rb_red p l k v r n : rb ASSOC_BLACK n l → rb ASSOC_BLACK n r →
    rb ASSOC_RED n (Node p ASSOC_RED l k v r)
| rb_black p l k v r cl cr n : rb cl n l → rb cr n r →
    rb ASSOC_BLACK (S n) (Node p ASSOC_BLACK l k v r).

(** [crb b n C]: plugging a tree of [n] black nodes per path into [C] gives a
    red-black tree with a black root, provided the plugged tree is black or [b]
    is true. *)
Inductive crb : bool → nat → ctx → Prop :=
| crb_nil n : crb true n []
| crb_black d p k v sib c b n C : rb c n sib → crb b (S n) C →
    crb true n (F d p ASSOC_BLACK k v sib :: C)
| crb_red d p k v sib n C : rb ASSOC_BLACK n sib → crb true n C → C ≠ [] →
    crb false n (F d p ASSOC_RED k v sib :: C).

Lemma rb_mk_red d p k v a b n : rb ASSOC_BLACK n a → rb ASSOC_BLACK n b →
  rb ASSOC_RED n (mk d p ASSOC_RED k v a b).
Proof. destruct d; by constructor. Qed.

Lemma rb_mk_black d p k v a b ca cb n : rb ca n a → rb cb n b →
  rb ASSOC_BLACK (S n) (mk d p ASSOC_BLACK k v a b).
Proof. destruct d; by econstructor. Qed.

Lemma rb_mk_inv d p c k v a b c' n : rb c' n (mk d p c k v a b) →
  c' = c ∧ match c with
  | ASSOC_RED => rb ASSOC_BLACK n a ∧ rb ASSOC_BLACK n b
  | ASSOC_BLACK => ∃ ca cb m, n = S m ∧ rb ca m a ∧ rb cb m b
  end.
Proof. destruct d; cbn; inversion 1; subst; eauto 10. Qed.

Lemma rb_color c n t : rb c n t → tcolor t = c.
Proof. by destruct 1. Qed.

(** A red tree is a node, seen from either side. *)
Lemma rb_red_mk d n t : rb ASSOC_RED n t →
  ∃ p k v a b, t = mk d p ASSOC_RED k v a b ∧ rb ASSOC_BLACK n a ∧ rb ASSOC_BLACK n b.
Proof. inversion 1; subst. destruct d; [exists p, k, v, l, r|exists p, k, v, r, l]; done. Qed.

Lemma crb_top b n d p c k v sib C : crb b n (F d p c k v sib :: C) →
  b = match c with ASSOC_BLACK => true | ASSOC_RED => false end.
Proof. by inversion 1. Qed.

(** Plugging. *)
Lemma rb_plug C t c n b : rb c n t → crb b n C → (c = ASSOC_RED → b = true) →
  ∃ c' m, rb c' m (plug C t) ∧ (C ≠ [] → c' = ASSOC_BLACK).
Proof.
  intros Ht HC. revert c t Ht. induction HC as [n|d p k v sib c' b n C Hs HC IH|d p k v sib n C Hs HC IH Hne];
    intros c t Ht Hc.
  - by exists c, n.
  - destruct (IH ASSOC_BLACK (mk d p ASSOC_BLACK k v t sib)) as (c2 & m & Hp & Hb);
      [by eapply rb_mk_black|done|].
    exists c2, m. split; [done|]. intros _. destruct C; [|by apply Hb].
    cbn in Hp. by apply rb_mk_inv in Hp as [-> _].
  - destruct c; [|by specialize (Hc eq_refl)].
    destruct (IH ASSOC_RED (mk d p ASSOC_RED k v t sib)) as (c2 & m & Hp & Hb);
      [by apply rb_mk_red|done|].
    exists c2, m. split; [done|]. intros _. by apply Hb.
Qed.

Lemma rb_blacken c n t : rb c n t → ∃ m, rb ASSOC_BLACK m (blacken t).
Proof. destruct 1; cbn; eexists; econstructor; eauto. Qed.

Lemma inorder_blacken t : inorder (blacken t) = inorder t.
Proof. by destruct t. Qed.

(** ** One iteration of [insert_fixup], by side *)

Definition ins_case (d : side) (loop : loc → M ()) (z_node parent_ grand_parent : loc)
    (par gp : assoc_node_t K V) : M () :=
  let uncle := child (opp d) gp in
  u ← load uncle;
  if is_red u then
    set_color parent_ ASSOC_BLACK;;
    set_color uncle ASSOC_BLACK;;
    set_color grand_parent ASSOC_RED;;
    loop grand_parent
  else
    zp ← (if bool_decide (z_node = child (opp d) par) then
            rotate d parent_;;
            z ← load parent_;
            mret (parent_, parent z)
          else mret (z_node, parent_));
    set_color zp.2 ASSOC_BLACK;;
    set_color grand_parent ASSOC_RED;;
    rotate (opp d) grand_parent;;
    loop zp.1.

Lemma insert_fixup_loop_eq fuel z_node s :
  insert_fixup_loop (K := K) (V := V) (S fuel) z_node s =
  (z ← load z_node;
   par ← load (parent z);
   if is_red par then
     gp ← load (parent par);
     if bool_decide (parent z = left gp)
     then ins_case L (insert_fixup_loop fuel) z_node (parent z) (parent par) par gp
     else ins_case R (insert_fixup_loop fuel) z_node (parent z) (parent par) par gp
   else mret ()) s.
Proof.
  cbn [insert_fixup_loop]. unfold ins_case.
  apply st_bind_ext; [done|intros z s1]. apply st_bind_ext; [done|intros par s2].
  destruct (is_red par); [|done]. apply st_bind_ext; [done|intros gp s3]. cbn [child opp].
  destruct (bool_decide _).
  - apply st_bind_ext; [done|intros u s4]. destruct (is_red u); [done|].
    apply st_bind_ext; [done|intros zp s5].
    do 2 (apply st_bind_ext; [done|intros]). by apply st_bind_ext; [apply right_rotate_side|].
  - apply st_bind_ext; [done|intros u s4]. destruct (is_red u); [done|].
    apply st_bind_ext; [|intros zp s5; done]. destruct (bool_decide _); [|done].
    by apply st_bind_ext; [apply right_rotate_side|].
Qed.

(** A location of one subtree is not the root of another. *)
Lemma focus_ptr_ne s E C d p c k v a b pd q : focus s E C (mk d p c k v a b) pd →
  q ∈ p :: locs a → ptr (e_dummy E) b ≠ q.
Proof.
  intros Hf Hq. pose proof (focus_nodup _ _ _ _ _ Hf) as Hn. rewrite locs_mk in Hn.
  assert (∀ q, q ∈ p :: locs a → q ≠ e_dummy E ∧ q ∉ locs b) as Hr.
  { apply NoDup_cons in Hn as [Hn1 Hn2]. intros q' Hq'.
    assert (NoDup ((p :: locs a) ++ locs b)) as Hn3.
    { rewrite NoDup_app in Hn2. destruct Hn2 as [Hn2 _]. exact Hn2. }
    rewrite NoDup_app in Hn3. destruct Hn3 as (_ & Hn3 & _). split; [|by apply Hn3].
    intros ->. apply Hn1. apply elem_of_app. left. cbn in Hq'. set_solver. }
  destruct (Hr q Hq) as [Hq1 Hq2]. apply not_eq_sym. by apply ptr_neq.
Qed.

Lemma loop_exit_black fuel s E C d p k v sib t pd : t ≠ Leaf →
  focus s E (F d p ASSOC_BLACK k v sib :: C) t pd →
  insert_fixup_loop (S fuel) (ptr (e_dummy E) t) s = Ret ((), s).
Proof.
  intros Ht Hf. destruct t as [|pt ct l kt vt r]; [done|]. rewrite insert_fixup_loop_eq. cbn [ptr].
  pose proof (focus_lookup s E _ L pt ct kt vt l r pd Hf) as Hz.
  rewrite (st_bind_Ret _ _ _ _ _ (load_eq _ _ _ Hz)). cbn [parent node_of par_of].
  pose proof (focus_lookup_par _ _ _ _ _ _ _ _ _ _ _ Hf) as Hp.
  rewrite (st_bind_Ret _ _ _ _ _ (load_eq _ _ _ Hp)). by destruct d.
Qed.

#[local] Ltac inorder_eq :=
  repeat match goal with d : side |- _ => destruct d end;
  cbn; rewrite ?inorder_blacken, <-?(assoc_L (++)); cbn; rewrite <-?(assoc_L (++)); done.

(** Takes one step of the code whose effect on the focus is known. *)
#[local] Ltac do_step H s' Hf' :=
  let Hs := fresh "Hs" in
  destruct H as (s' & Hs & Hf'); rewrite (st_bind_Ret _ _ _ _ _ Hs); clear Hs.

(** Case 3: the node, red, and its red parent on the same side. *)
Lemma ins_outer {B} d (k : st _ B) s E za p kp vp sib g kg vg u C n cu pd :
  focus s E (F d p ASSOC_RED kp vp sib :: F d g ASSOC_BLACK kg vg u :: C) za pd →
  rb ASSOC_RED n za → rb ASSOC_BLACK n sib → rb cu n u → cu = ASSOC_BLACK →
  ∃ s', (set_color p ASSOC_BLACK;; set_color g ASSOC_RED;; rotate (opp d) g;; k) s = k s' ∧
    focus s' E (F d p ASSOC_BLACK kp vp (mk (opp d) g ASSOC_RED kg vg u sib) :: C) za pd ∧
    rb ASSOC_BLACK (S n) (mk d p ASSOC_BLACK kp vp za (mk (opp d) g ASSOC_RED kg vg u sib)) ∧
    inorder (mk d p ASSOC_BLACK kp vp za (mk (opp d) g ASSOC_RED kg vg u sib)) =
    inorder (plug [F d p ASSOC_RED kp vp sib; F d g ASSOC_BLACK kg vg u] za).
Proof.
  intros Hf Hz Hsib Hu ->. rewrite focus_up in Hf.
  do_step (set_color_focus _ _ _ _ _ _ _ _ _ _ _ ASSOC_BLACK Hf) s1 Hf1.
  rewrite focus_up in Hf1.
  do_step (set_color_focus _ _ _ _ _ _ _ _ _ _ _ ASSOC_RED Hf1) s2 Hf2.
  rewrite <-(mk_opp d g), <-(mk_opp d p) in Hf2.
  do_step (rotate_focus _ _ _ _ _ _ _ _ _ _ _ _ _ _ _ _ Hf2) s3 Hf3.
  exists s3. split; [done|]. split; [by rewrite mk_opp, <-focus_up in Hf3|]. split.
  - eapply rb_mk_black; [exact Hz|by apply rb_mk_red].
  - inorder_eq.
Qed.

(** The iteration: either the uncle is red and the loop goes on with the
    grandparent, now red, or the subtree of the grandparent is rebuilt, black,
    and the loop stops at its red child. *)
Lemma ins_case_spec d d' loop s E z zt p kp vp sib g kg vg u C n cu pd par gp :
  focus s E (F d' p ASSOC_RED kp vp sib :: F d g ASSOC_BLACK kg vg u :: C) zt pd →
  rb ASSOC_RED n zt → rb ASSOC_BLACK n sib → rb cu n u →
  z = ptr (e_dummy E) zt →
  heap s !! p = Some par → heap s !! g = Some gp →
  ∃ s' zr, ins_case d loop z p g par gp s = loop zr s' ∧
    ((∃ t', focus s' E C t' pd ∧ zr = ptr (e_dummy E) t' ∧ rb ASSOC_RED (S n) t' ∧
            inorder t' = inorder (plug [F d' p ASSOC_RED kp vp sib; F d g ASSOC_BLACK kg vg u] zt)) ∨
     (∃ d2 p2 k2 v2 sib2 t2,
        focus s' E (F d2 p2 ASSOC_BLACK k2 v2 sib2 :: C) t2 pd ∧ zr = ptr (e_dummy E) t2 ∧
        t2 ≠ Leaf ∧ rb ASSOC_BLACK (S n) (mk d2 p2 ASSOC_BLACK k2 v2 t2 sib2) ∧
        inorder (mk d2 p2 ASSOC_BLACK k2 v2 t2 sib2) =
        inorder (plug [F d' p ASSOC_RED kp vp sib; F d g ASSOC_BLACK kg vg u] zt))).
Proof.
  intros Hf Hz Hsib Hu Hzp Hpar Hgp.
  pose proof (focus_lookup_par _ _ _ _ _ _ _ _ _ _ _ Hf) as Hp. rewrite Hpar in Hp.
  injection Hp as ->. assert (Hf2 := Hf). apply focus_up in Hf2.
  pose proof (focus_lookup_par _ _ _ _ _ _ _ _ _ _ _ Hf2) as Hg. rewrite Hgp in Hg.
  injection Hg as ->. rewrite ptr_mk in *.
  assert (Hf3 := focus_sib _ _ _ _ _ _ _ _ _ _ _ Hf2).
  destruct (focus_color _ _ _ _ _ Hf3) as (nu & Hnu & Hcu). rewrite (rb_color _ _ _ Hu) in Hcu.
  unfold ins_case.
  replace (child (opp d) (node_of d _ _ _ _ _ _)) with (ptr (e_dummy E) u) by (by destruct d).
  rewrite (st_bind_Ret _ _ _ _ _ (load_eq _ _ _ Hnu)).
  unfold is_red. rewrite Hcu. destruct cu.
  - (* the uncle is black *)
    rewrite bool_decide_eq_false_2 by done.
    assert (d' = d ∨ d' = opp d) as [->| ->] by (destruct d, d'; auto).
    + (* outer *)
      rewrite bool_decide_eq_false_2.
      2:{ subst z. intros Heq. apply focus_up in Hf.
          destruct (rb_red_mk L _ _ Hz) as (pz & kz & vz & az & bz & -> & _). cbn in Heq.
          apply (focus_ptr_ne _ _ _ _ _ _ _ _ _ _ _ pz Hf); [right; left|].
          by destruct d. }
      rewrite (st_bind_Ret (mret _) _ _ _ _ eq_refl). cbn [fst snd].
      destruct (ins_outer d (loop z) _ _ _ _ _ _ _ _ _ _ _ _ _ _ _ Hf Hz Hsib Hu eq_refl)
        as (s' & Hs & Hf' & Hrb & Hin).
      exists s', z. split; [done|]. right. exists d, p, kp, vp, (mk (opp d) g ASSOC_RED kg vg u sib), zt.
      split_and!; try done. by inversion Hz.
    + (* inner *)
      destruct (rb_red_mk d _ _ Hz) as (pz & kz & vz & az & bz & -> & Haz & Hbz).
      rewrite ptr_mk in Hzp. subst z.
      rewrite bool_decide_eq_true_2 by (by destruct d; cbn).
      rewrite focus_up, mk_opp in Hf.
      destruct (rotate_focus _ _ _ _ _ _ _ _ _ _ _ _ _ _ _ _ Hf) as (s1 & Hs1 & Hf1).
      rewrite st_bind_assoc, (st_bind_Ret _ _ _ _ _ Hs1), st_bind_assoc.
      rewrite <-focus_up in Hf1.
      rewrite (st_bind_Ret _ _ _ _ _ (load_eq _ _ _ (focus_lookup _ _ _ _ _ _ _ _ _ _ _ Hf1))).
      rewrite (st_bind_Ret (mret _) _ _ _ _ eq_refl). cbn [fst snd].
      replace (parent (node_of d _ _ _ _ _ _)) with pz by (by destruct d).
      destruct (ins_outer d (loop p) _ _ _ _ _ _ _ _ _ _ _ _ _ _ _ Hf1
        (rb_mk_red _ _ _ _ _ _ _ Hsib Haz) Hbz Hu eq_refl) as (s' & Hs & Hf' & Hrb & Hin).
      exists s', p. split; [done|]. right. do 6 eexists. split; [exact Hf'|].
      split; [by rewrite ptr_mk|]. split; [by destruct d|]. split; [exact Hrb|].
      rewrite Hin. inorder_eq.
  - (* the uncle is red *)
    rewrite bool_decide_eq_true_2 by done.
    rewrite focus_up in Hf.
    do_step (set_color_focus _ _ _ _ _ _ _ _ _ _ _ ASSOC_BLACK Hf) s1 Hf4.
    apply focus_sib in Hf4.
    do_step (set_black_focus _ _ _ _ _ Hf4) s2 Hf5. rewrite focus_up in Hf5.
    do_step (set_color_focus _ _ _ _ _ _ _ _ _ _ _ ASSOC_RED Hf5) s3 Hf6.
    exists s3, g. split; [done|]. left. eexists. split; [exact Hf6|].
    split; [by rewrite ptr_mk|]. split.
    + apply rb_mk_red; [|by eapply rb_mk_black].
      inversion Hu; subst. cbn. by econstructor.
    + inorder_eq.
Qed.

(** ** The loop and [insert_fixup] *)

Lemma insert_fixup_loop_spec fuel s E C t n b pd :
  focus s E C t pd → rb ASSOC_RED n t → crb b n C → length C < fuel →
  ∃ s' T' c m, insert_fixup_loop fuel (ptr (e_dummy E) t) s = Ret ((), s') ∧
    focus s' E [] T' pd ∧ rb c m T' ∧ inorder T' = inorder (plug C t).
Proof.
  revert s C t n b. induction fuel as [|fuel IH]; intros s C t n b Hf Ht HC Hlt; [lia|].
  destruct C as [|[dp p cp kp vp sib] C].
  - exists s, t, ASSOC_RED, n. split; [|done].
    destruct (rb_red_mk L _ _ Ht) as (pt & kt & vt & at_ & bt & -> & _).
    rewrite insert_fixup_loop_eq, ptr_mk.
    rewrite (st_bind_Ret _ _ _ _ _ (load_eq _ _ _ (focus_lookup _ _ _ _ _ _ _ _ _ _ _ Hf))).
    cbn [parent node_of par_of].
    by rewrite (st_bind_Ret _ _ _ _ _ (load_eq _ _ _ (fo_dummy _ _ _ _ _ Hf))).
  - destruct cp.
    + destruct (rb_plug _ _ _ _ _ Ht HC) as (c' & m & Hrb & _).
      { intros _. by rewrite (crb_top _ _ _ _ _ _ _ _ _ HC). }
      exists s, (plug (F dp p ASSOC_BLACK kp vp sib :: C) t), c', m.
      split; [|by apply focus_plug in Hf]. eapply loop_exit_black; [by inversion Ht|exact Hf].
    + inversion HC as [| |? ? ? ? ? ? ? Hsib HC1 Hne]; subst.
      destruct C as [|[d g cg kg vg u] C]; [done|].
      inversion HC1 as [|? ? ? ? ? cu b' ? ? Hu HC2|]; subst.
      assert (Hf2 := Hf). rewrite focus_up in Hf2.
      assert (Hp := focus_lookup_par _ _ _ _ _ _ _ _ _ _ _ Hf).
      assert (Hg := focus_lookup_par _ _ _ _ _ _ _ _ _ _ _ Hf2). rewrite ptr_mk in Hg.
      cbn [par_of] in Hp. assert (insert_fixup_loop (S fuel) (ptr (e_dummy E) t) s =
        ins_case d (insert_fixup_loop fuel) (ptr (e_dummy E) t) p g
          (node_of dp ASSOC_RED kp vp g (ptr (e_dummy E) t) (ptr (e_dummy E) sib))
          (node_of d ASSOC_BLACK kg vg (par_of (e_dummy E) C) p (ptr (e_dummy E) u)) s) as ->.
      { destruct (rb_red_mk L _ _ Ht) as (pt & kt & vt & at_ & bt & -> & _).
        rewrite insert_fixup_loop_eq, ptr_mk in *.
        rewrite (st_bind_Ret _ _ _ _ _ (load_eq _ _ _ (focus_lookup _ _ _ _ _ _ _ _ _ _ _ Hf))).
        cbn [parent node_of par_of]. rewrite (st_bind_Ret _ _ _ _ _ (load_eq _ _ _ Hp)).
        replace (is_red (node_of dp _ _ _ _ _ _)) with true by (by destruct dp).
        replace (parent (node_of dp _ _ _ _ _ _)) with g by (by destruct dp). cbn [par_of].
        rewrite (st_bind_Ret _ _ _ _ _ (load_eq _ _ _ Hg)). destruct d; cbn [left node_of].
        - by rewrite bool_decide_eq_true_2.
        - rewrite bool_decide_eq_false_2; [done|]. apply not_eq_sym.
          rewrite focus_up in Hf2. eapply focus_ptr_ne; [exact Hf2|].
          right. destruct dp; left. }
      destruct (ins_case_spec d dp (insert_fixup_loop fuel) s E _ t _ _ _ _ _ _ _ _ _ _ _ _ _ _
        Hf Ht Hsib Hu eq_refl Hp Hg) as (s1 & zr & -> & [(t' & Hf' & -> & Hrb & Hin)|Hdone]).
      * destruct (IH s1 C t' _ _ Hf' Hrb HC2) as (s' & T' & c & m & Hs & HfT & HrT & HiT);
          [cbn in Hlt; lia|].
        exists s', T', c, m. split_and!; try done. rewrite HiT. exact (inorder_plug_eq C _ _ Hin).
      * destruct Hdone as (d2 & p2 & k2 & v2 & sib2 & t2 & Hf' & -> & Hne2 & Hrb & Hin).
        destruct fuel as [|fuel]; [cbn in Hlt; lia|].
        destruct (rb_plug _ _ _ _ _ Hrb HC2) as (c' & m & HrT & _); [done|].
        exists s1, (plug C (mk d2 p2 ASSOC_BLACK k2 v2 t2 sib2)), c', m.
        split; [by eapply loop_exit_black|]. split; [by rewrite focus_up, focus_plug in Hf'|].
        split; [done|]. exact (inorder_plug_eq C _ _ Hin).
Qed.

(** After [insert_fixup] the tree is a red-black tree with a black root and the
    same in-order sequence. *)
Lemma insert_fixup_spec fuel s E C t n b pd :
  focus s E C t pd → rb ASSOC_RED n t → crb b n C → length C < fuel →
  ∃ s' T' m, insert_fixup fuel (ptr (e_dummy E) t) s = Ret ((), s') ∧
    focus s' E [] T' pd ∧ rb ASSOC_BLACK m T' ∧ inorder T' = inorder (plug C t).
Proof.
  intros Hf Ht HC Hlt.
  destruct (insert_fixup_loop_spec _ _ _ _ _ _ _ _ Hf Ht HC Hlt) as (s1 & T & c & m & Hs & HfT & HrT & HiT).
  destruct (set_black_focus _ _ _ _ _ HfT) as (s2 & Hs2 & Hf2).
  destruct (rb_blacken _ _ _ HrT) as (m' & Hm').
  exists s2, (blacken T), m'. split.
  - unfold insert_fixup. rewrite (st_bind_Ret _ _ _ _ _ Hs), (st_bind_Ret st_get _ _ _ _ eq_refl).
    by rewrite (focus_root _ _ _ _ HfT).
  - split_and!; try done. by rewrite inorder_blacken.
Qed.
End rb_insert.
