(* ===== verification/RbDelete.v ===== *)
(** * The red-black tree: extraction restores the red-black properties

    The loop of [delete_fixup].  The node it works at is short of one black node
    on every path; each iteration moves the shortage up or removes it. *)
From S2P Require Import Prelude RbTree RbHeap RbRotate RbInsert.
#[local] Set Warnings "-clear-no-such-hyp".

Section rb_delete.
Context {K V : Type}.
Implicit Types (s : assoc_rb_tree_t K V) (p q : loc) (E : env (K := K) (V := V)).
Abbreviation tree := (tree (K := K) (V := V)).
Abbreviation ctx := (list (frame (K := K) (V := V))).
Implicit Types (t : tree) (C : ctx).
Abbreviation M := (st (assoc_rb_tree_t K V)).

(** ** The code by side *)

(** From the moment the sibling [w_node] is black. *)
Definition del_black (d : side) (loop : loc → M loc) (x_node w_node : loc) : M loc :=
  w ← load w_node;
  st_assert (is_black w);;
  wl ← load (left w);
  wr ← load (right w);
  if is_black wl && is_black wr then
    set_color w_node ASSOC_RED;;
    x ← load x_node;
    loop (parent x)
  else
    w_node ← (if is_black (match d with L => wr | R => wl end) then
                st_assert (is_black w);;
                st_assert (is_red (match d with L => wl | R => wr end));;
                set_color (child d w) ASSOC_BLACK;;
                set_color w_node ASSOC_RED;;
                rotate (opp d) w_node;;
                x ← load x_node;
                par ← load (parent x);
                mret (child (opp d) par)
              else mret w_node);
    w ← load w_node;
    st_assert (is_black w);;
    wf ← load (child (opp d) w);
    st_assert (is_red wf);;
    x ← load x_node;
    par ← load (parent x);
    set_color w_node (color par);;
    set_color (parent x) ASSOC_BLACK;;
    set_color (child (opp d) w) ASSOC_BLACK;;
    rotate d (parent x);;
    tree ← st_get;
    loop (root tree).

Definition del_case (d : side) (loop : loc → M loc) (x_node : loc) (x par : assoc_node_t K V) : M loc :=
  let w_node := child (opp d) par in
  w ← load w_node;
  w_node ← (if is_red w then
              set_color w_node ASSOC_BLACK;;
              set_color (parent x) ASSOC_RED;;
              rotate d (parent x);;
              x ← load x_node;
              par ← load (parent x);
              mret (child (opp d) par)
            else mret w_node);
  del_black d loop x_node w_node.

Lemma delete_fixup_loop_eq fuel x_node s :
  delete_fixup_loop (K := K) (V := V) (S fuel) x_node s =
  (tree ← st_get;
   x ← load x_node;
   if bool_decide (x_node ≠ root tree) && is_black x then
     par ← load (parent x);
     if bool_decide (x_node = left par) then del_case L (delete_fixup_loop fuel) x_node x par
     else del_case R (delete_fixup_loop fuel) x_node x par
   else mret x_node) s.
Proof.
  cbn [delete_fixup_loop]. unfold del_case, del_black. cbn [child opp].
  apply st_bind_ext; [done|intros tr s1]. apply st_bind_ext; [done|intros x s2].
  destruct (_ && _); [|done]. apply st_bind_ext; [done|intros par s3].
  destruct (bool_decide _).
  - apply st_bind_ext; [done|intros w s4]. apply st_bind_ext; [done|intros w_node s5].
    do 4 (apply st_bind_ext; [done|intros]). destruct (_ && _); [done|].
    apply st_bind_ext; [|done]. destruct (is_black _); [|done].
    do 4 (apply st_bind_ext; [done|intros]). apply st_bind_ext; [apply right_rotate_side|done].
  - apply st_bind_ext; [done|intros w s4]. apply st_bind_ext.
    { destruct (is_red w); [|done]. do 2 (apply st_bind_ext; [done|intros]).
      apply st_bind_ext; [apply right_rotate_side|done]. }
    intros w_node s5. do 4 (apply st_bind_ext; [done|intros]). destruct (_ && _); [done|].
    apply st_bind_ext; [done|]. intros. do 9 (apply st_bind_ext; [done|intros]).
    apply st_bind_ext; [apply right_rotate_side|done].
Qed.

Lemma st_assert_true {B} b (k : () → M B) s : b = true → (st_assert b ≫= k) s = k () s.
Proof. by intros ->. Qed.

(** ** The shortage *)

(** [t] is one black node short of [S n]: black with [n], or red and complete
    once blackened. *)
Definition deficient (n : nat) t : Prop :=
  match tcolor t with
  | ASSOC_BLACK => rb ASSOC_BLACK n t
  | ASSOC_RED => rb ASSOC_BLACK (S n) (blacken t)
  end.

Lemma deficient_blacken n t : deficient n t → ∃ m, rb ASSOC_BLACK m (blacken t).
Proof.
  unfold deficient. destruct (tcolor t); [|eauto]. intros Hr. by eapply rb_blacken.
Qed.

Lemma blacken_mk d p c (k : K) (v : V) a b : blacken (mk d p c k v a b) = mk d p ASSOC_BLACK k v a b.
Proof. by destruct d. Qed.

Lemma tcolor_mk d p c (k : K) (v : V) a b : tcolor (mk d p c k v a b) = c.
Proof. by destruct d. Qed.

Lemma is_black_color (n : assoc_node_t K V) c : color n = c → is_black n = bool_decide (c = ASSOC_BLACK).
Proof. by intros <-. Qed.

Lemma is_red_color (n : assoc_node_t K V) c : color n = c → is_red n = bool_decide (c = ASSOC_RED).
Proof. by intros <-. Qed.

Lemma color_node_of d c (k : K) (v : V) q1 q2 q3 : color (node_of d c k v q1 q2 q3) = c.
Proof. by destruct d. Qed.

Lemma child_opp_node_of d c (k : K) (v : V) q1 q2 q3 : child (opp d) (node_of d c k v q1 q2 q3) = q3.
Proof. by destruct d. Qed.

Lemma child_node_of d c (k : K) (v : V) q1 q2 q3 : child d (node_of d c k v q1 q2 q3) = q2.
Proof. by destruct d. Qed.

(** The node at the focus, the sentinel if it is empty, knows its parent. *)
Lemma focus_parent s E C t pd : focus s E C t pd → (t = Leaf → pd = par_of (e_dummy E) C) →
  ∃ n, heap s !! ptr (e_dummy E) t = Some n ∧ parent n = par_of (e_dummy E) C ∧ color n = tcolor t.
Proof.
  intros [Ht _ Hd _] Hpd. destruct t as [|p c l k v r]; cbn in *.
  - rewrite Hd. eexists. split; [done|]. by rewrite Hpd.
  - destruct Ht as [Hp _]. eauto.
Qed.

Lemma ctx_at_root d0 h rt hole C : ctx_at d0 h rt hole C → C ≠ [] → rt ∈ clocs C.
Proof.
  revert hole. induction C as [|[d p c k v sib] C IH]; intros hole HC Hne; [done|].
  destruct HC as (_ & _ & HC). rewrite clocs_cons. destruct C as [|f C].
  - cbn in HC. subst rt. left.
  - apply elem_of_app. right. by eapply IH.
Qed.

Lemma focus_not_root s E f C t pd : focus s E (f :: C) t pd → ptr (e_dummy E) t ≠ root s.
Proof.
  intros [_ HC _ He]. apply ctx_at_root in HC; [|done].
  destruct He as [_ _ _ Hn _ _]. rewrite NoDup_cons, NoDup_app in Hn.
  destruct Hn as (Hd & _ & Hdis & _). intros Heq. rewrite <-Heq in HC. destruct t as [|p c l k v r].
  - apply Hd. apply elem_of_app. by right.
  - apply (Hdis p); [left|done].
Qed.

(** Both children of a node, read left to right, by side. *)
Lemma load_children s E C d p c k v near far pd :
  focus s E C (mk d p c k v near far) pd →
  ∃ n m, color n = tcolor near ∧ color m = tcolor far ∧
    ∀ B (f : assoc_node_t K V → assoc_node_t K V → M B),
    (wl ← load (left (node_of d c k v (par_of (e_dummy E) C) (ptr (e_dummy E) near) (ptr (e_dummy E) far)));
     wr ← load (right (node_of d c k v (par_of (e_dummy E) C) (ptr (e_dummy E) near) (ptr (e_dummy E) far)));
     f wl wr) s = f (match d with L => n | R => m end) (match d with L => m | R => n end) s.
Proof.
  intros Hf. assert (Hn := Hf). rewrite <-focus_up in Hn.
  assert (Hm := focus_sib _ _ _ _ _ _ _ _ _ _ _ Hn).
  destruct (focus_color _ _ _ _ _ Hn) as (n & Hln & Hcn).
  destruct (focus_color _ _ _ _ _ Hm) as (m & Hlm & Hcm).
  exists n, m. split; [done|]. split; [done|]. intros B f.
  destruct d; cbn [left right node_of];
    (erewrite st_bind_Ret by (apply load_eq; eassumption));
    by erewrite st_bind_Ret by (apply load_eq; eassumption).
Qed.

Lemma black_both d (n m : assoc_node_t K V) :
  is_black (match d with L => n | R => m end) && is_black (match d with L => m | R => n end) =
  is_black n && is_black m.
Proof. destruct d; [done|apply andb_comm]. Qed.

Lemma side_far {A} d (n m : A) : match d with
  | L => match d with L => m | R => n end | R => match d with L => n | R => m end end = m.
Proof. by destruct d. Qed.

Lemma side_near {A} d (n m : A) : match d with
  | L => match d with L => n | R => m end | R => match d with L => m | R => n end end = n.
Proof. by destruct d. Qed.

(** ** The cases with a black sibling *)

#[local] Ltac do_load H := rewrite (st_bind_Ret _ _ _ _ _ (load_eq _ _ _ H)).
#[local] Ltac do_assert :=
  rewrite st_assert_true by done.
#[local] Ltac do_step H s' Hf' :=
  let Hs := fresh "Hs" in
  destruct H as (s' & Hs & Hf'); rewrite (st_bind_Ret _ _ _ _ _ Hs); clear Hs.
#[local] Ltac inorder_eq :=
  repeat match goal with d : side |- _ => destruct d end;
  cbn; rewrite ?inorder_blacken, <-?(assoc_L (++)); cbn; rewrite <-?(assoc_L (++)); done.

(** Case 4: the far child of the sibling is red. *)
Lemma del_far_red {B} d (k : loc → M B) s E C t p c kp vp w kw vw near far pd x :
  focus s E (F d p c kp vp (mk d w ASSOC_BLACK kw vw near far) :: C) t pd →
  (t = Leaf → pd = p) → x = ptr (e_dummy E) t →
  tcolor far = ASSOC_RED →
  ∃ s', (w' ← load w;
         st_assert (is_black w');;
         wf ← load (child (opp d) w');
         st_assert (is_red wf);;
         x' ← load x;
         par ← load (parent x');
         set_color w (color par);;
         set_color (parent x') ASSOC_BLACK;;
         set_color (child (opp d) w') ASSOC_BLACK;;
         rotate d (parent x');;
         tree ← st_get;
         k (root tree)) s = k (root s') s' ∧
    focus s' E C (mk d w c kw vw (mk d p ASSOC_BLACK kp vp t near) (blacken far)) pd.
Proof.
  intros Hf Hpd -> Hfar.
  destruct (focus_parent _ _ _ _ _ Hf Hpd) as (nx & Hnx & Hpx & _). cbn [par_of] in Hpx.
  assert (Hp := focus_lookup_par _ _ _ _ _ _ _ _ _ _ _ Hf).
  assert (Hfw := focus_sib _ _ _ _ _ _ _ _ _ _ _ Hf).
  assert (Hw := focus_lookup _ _ _ _ _ _ _ _ _ _ _ Hfw).
  assert (Hff := Hfw). rewrite <-focus_up in Hff. apply focus_sib in Hff.
  destruct (focus_color _ _ _ _ _ Hff) as (nf & Hnf & Hcf). rewrite Hfar in Hcf.
  do_load Hw. rewrite (is_black_color _ _ (color_node_of _ _ _ _ _ _ _)), child_opp_node_of. do_assert.
  do_load Hnf. rewrite (is_red_color _ _ Hcf). do_assert.
  do_load Hnx. rewrite Hpx. do_load Hp. rewrite color_node_of.
  do_step (set_color_focus _ _ _ _ _ _ _ _ _ _ _ c Hfw) s1 Hf1.
  apply focus_sib in Hf1. rewrite opp_opp, focus_up in Hf1.
  do_step (set_color_focus _ _ _ _ _ _ _ _ _ _ _ ASSOC_BLACK Hf1) s2 Hf2.
  rewrite <-focus_up in Hf2. apply focus_sib in Hf2. rewrite <-focus_up in Hf2.
  apply focus_sib in Hf2.
  do_step (set_black_focus _ _ _ _ _ Hf2) s3 Hf3.
  apply focus_sib in Hf3. rewrite opp_opp, focus_up in Hf3. apply focus_sib in Hf3.
  rewrite opp_opp, focus_up in Hf3.
  do_step (rotate_focus _ _ _ _ _ _ _ _ _ _ _ _ _ _ _ _ Hf3) s4 Hf4.
  exists s4. by rewrite (st_bind_Ret st_get _ _ _ _ eq_refl).
Qed.

Lemma far_red_rb d w c kw vw p kp vp t near far n cn :
  rb ASSOC_BLACK n t → rb cn n near → rb ASSOC_RED n far →
  rb c (match c with ASSOC_BLACK => S (S n) | ASSOC_RED => S n end)
    (mk d w c kw vw (mk d p ASSOC_BLACK kp vp t near) (blacken far)).
Proof.
  intros Ht Hn Hf. assert (rb ASSOC_BLACK (S n) (mk d p ASSOC_BLACK kp vp t near)) as H1.
  { by eapply rb_mk_black. }
  assert (rb ASSOC_BLACK (S n) (blacken far)) as H2 by (inversion Hf; subst; by econstructor).
  destruct c; [by eapply rb_mk_black|by apply rb_mk_red].
Qed.

(** The iteration with a black sibling: the shortage moves to the parent, or the
    tree below the context is complete again. *)
Definition del_done d loop s E C t p c kp vp w kw vw near far pd n (code : M loc) : Prop :=
  ∃ s' t' x', code s = loop x' s' ∧ focus s' E C t' pd ∧ t' ≠ Leaf ∧
    inorder t' = inorder (mk (K := K) (V := V) d p c kp vp t (mk d w ASSOC_BLACK kw vw near far)) ∧
    ((x' = ptr (e_dummy E) t' ∧ tcolor t' = c ∧ rb ASSOC_BLACK (S n) (blacken t')) ∨
     (x' = root s' ∧ rb c (match c with ASSOC_BLACK => S (S n) | ASSOC_RED => S n end) t')).

Lemma del_black_spec d loop s E C t p c kp vp w kw vw near far pd n cn cf :
  focus s E (F d p c kp vp (mk d w ASSOC_BLACK kw vw near far) :: C) t pd →
  (t = Leaf → pd = p) → rb ASSOC_BLACK n t → rb cn n near → rb cf n far →
  del_done d loop s E C t p c kp vp w kw vw near far pd n
    (del_black d loop (ptr (e_dummy E) t) w).
Proof.
  intros Hf Hpd Ht Hnear Hfar. unfold del_black, del_done.
  destruct (focus_parent _ _ _ _ _ Hf Hpd) as (nx & Hnx & Hpx & _). cbn [par_of] in Hpx.
  assert (Hfw := focus_sib _ _ _ _ _ _ _ _ _ _ _ Hf).
  assert (Hw := focus_lookup _ _ _ _ _ _ _ _ _ _ _ Hfw).
  destruct (load_children _ _ _ _ _ _ _ _ _ _ _ Hfw) as (nn & nf & Hnn & Hnf & Hch).
  rewrite (rb_color _ _ _ Hnear) in Hnn. rewrite (rb_color _ _ _ Hfar) in Hnf.
  do_load Hw. rewrite (is_black_color _ _ (color_node_of _ _ _ _ _ _ _)). do_assert.
  rewrite Hch, black_both, side_far, side_near, child_node_of.
  rewrite (is_black_color _ _ Hnn), (is_black_color _ _ Hnf), (is_red_color _ _ Hnn).
  destruct cf; [destruct cn|rewrite andb_false_r].
  - (* both children are black *)
    rewrite !bool_decide_eq_true_2 by done. cbn [andb].
    do_step (set_color_focus _ _ _ _ _ _ _ _ _ _ _ ASSOC_RED Hfw) s1 Hf1.
    apply focus_sib in Hf1. rewrite opp_opp in Hf1.
    destruct (focus_parent _ _ _ _ _ Hf1 Hpd) as (nx1 & Hnx1 & Hpx1 & _). cbn [par_of] in Hpx1.
    do_load Hnx1. rewrite Hpx1. rewrite focus_up in Hf1.
    do 3 eexists. split; [reflexivity|]. split; [exact Hf1|]. split; [by destruct d|].
    split; [inorder_eq|]. left. rewrite ptr_mk, tcolor_mk, blacken_mk. split_and!; [done..|].
    eapply rb_mk_black; [done|by apply rb_mk_red].
  - (* the near child is red *)
    destruct (rb_red_mk d _ _ Hnear) as (q & kq & vq & na & nb & -> & Hna & Hnb). rewrite ptr_mk.
    rewrite (bool_decide_eq_false_2 (ASSOC_RED = ASSOC_BLACK)) by done. cbn [andb].
    rewrite (bool_decide_eq_true_2 (ASSOC_BLACK = _)) by done.
    rewrite st_bind_assoc. do_assert. rewrite st_bind_assoc. do_assert.
    rewrite <-focus_up in Hfw. rewrite !st_bind_assoc.
    do_step (set_color_focus _ _ _ _ _ _ _ _ _ _ _ ASSOC_BLACK Hfw) s1 Hf1.
    rewrite focus_up in Hf1. rewrite !st_bind_assoc.
    do_step (set_color_focus _ _ _ _ _ _ _ _ _ _ _ ASSOC_RED Hf1) s2 Hf2.
    rewrite <-(mk_opp d w), <-(mk_opp d q) in Hf2. rewrite !st_bind_assoc.
    do_step (rotate_focus _ _ _ _ _ _ _ _ _ _ _ _ _ _ _ _ Hf2) s3 Hf3.
    rewrite !mk_opp in Hf3. apply focus_sib in Hf3. rewrite opp_opp in Hf3.
    destruct (focus_parent _ _ _ _ _ Hf3 Hpd) as (nx3 & Hnx3 & Hpx3 & _). cbn [par_of] in Hpx3.
    assert (Hp3 := focus_lookup_par _ _ _ _ _ _ _ _ _ _ _ Hf3).
    rewrite st_bind_assoc. do_load Hnx3. rewrite Hpx3, st_bind_assoc. do_load Hp3.
    rewrite (st_bind_Ret (mret _) _ _ _ _ eq_refl), child_opp_node_of, ptr_mk.
    destruct (del_far_red d loop _ _ _ _ _ _ _ _ _ _ _ _ _ _ _ Hf3 Hpd eq_refl
      (tcolor_mk _ _ _ _ _ _ _)) as (s' & Hs & Hf').
    do 3 eexists. split; [exact Hs|]. split; [exact Hf'|]. split; [by destruct d|].
    split; [inorder_eq|]. right. split; [done|]. eapply far_red_rb; [done|done|by apply rb_mk_red].
  - (* the far child is red *)
    rewrite (bool_decide_eq_false_2 (ASSOC_RED = ASSOC_BLACK)) by done.
    rewrite (st_bind_Ret (mret _) _ _ _ _ eq_refl).
    destruct (del_far_red d loop _ _ _ _ _ _ _ _ _ _ _ _ _ _ _ Hf Hpd eq_refl
      (rb_color _ _ _ Hfar)) as (s' & Hs & Hf').
    do 3 eexists. split; [exact Hs|]. split; [exact Hf'|]. split; [by destruct d|].
    split; [inorder_eq|]. right. split; [done|]. by eapply far_red_rb.
Qed.

(** ** One iteration *)

Lemma rb_black_mk d n t : rb ASSOC_BLACK (S n) t →
  ∃ p k v a b ca cb, t = mk d p ASSOC_BLACK k v a b ∧ rb ca n a ∧ rb cb n b.
Proof.
  inversion 1; subst. destruct d; [exists p, k, v, l, r|exists p, k, v, r, l]; eauto.
Qed.

(** Where the loop stands after an iteration: at a red node that completes the
    tree once blackened, at a black node with the shortage, or at the root of a
    complete tree. *)
Inductive del_next s (E : env (K := K) (V := V)) C : ctx → tree → loc → Prop :=
| del_red C' t b m : tcolor t = ASSOC_RED → rb ASSOC_BLACK m (blacken t) → crb b m C' →
    del_next s E C C' t (ptr (e_dummy E) t)
| del_up t b m : t ≠ Leaf → rb ASSOC_BLACK m t → crb b (S m) C → del_next s E C C t (ptr (e_dummy E) t)
| del_root C' t c b m : rb c m t → crb b m C' → (c = ASSOC_RED → b = true) →
    del_next s E C C' t (root s).

Lemma del_case_spec d loop s E C t p c kp vp w pd n b x par :
  focus s E (F d p c kp vp w :: C) t pd → (t = Leaf → pd = p) →
  rb ASSOC_BLACK n t → crb b (S n) (F d p c kp vp w :: C) →
  heap s !! ptr (e_dummy E) t = Some x → heap s !! p = Some par →
  ∃ s' C' t' x', del_case d loop (ptr (e_dummy E) t) x par s = loop x' s' ∧
    focus s' E C' t' pd ∧ del_next s' E C C' t' x' ∧
    inorder (plug C' t') = inorder (plug (F d p c kp vp w :: C) t).
Proof.
  intros Hf Hpd Ht HC Hx Hpar. unfold del_case.
  assert (Hp := focus_lookup_par _ _ _ _ _ _ _ _ _ _ _ Hf). rewrite Hpar in Hp.
  injection Hp as ->. rewrite child_opp_node_of.
  assert (Hfw := focus_sib _ _ _ _ _ _ _ _ _ _ _ Hf).
  destruct (focus_parent _ _ _ _ _ Hf Hpd) as (nx & Hnx & Hpx & _). rewrite Hx in Hnx.
  injection Hnx as <-. cbn [par_of] in Hpx.
  assert (∃ cw, rb cw (S n) w ∧ (cw = ASSOC_RED → c = ASSOC_BLACK)) as (cw & Hw & Hcw).
  { inversion HC; subst; eauto. }
  destruct cw.
  - destruct (rb_black_mk d _ _ Hw) as (q & kq & vq & a & a' & ca & ca' & -> & Ha & Ha').
    rewrite ptr_mk. do_load (focus_lookup _ _ _ _ _ _ _ _ _ _ _ Hfw).
    rewrite (is_red_color _ _ (color_node_of _ _ _ _ _ _ _)), bool_decide_eq_false_2 by done.
    rewrite (st_bind_Ret (mret _) _ _ _ _ eq_refl).
    destruct (del_black_spec d loop _ _ _ _ _ _ _ _ _ _ _ _ _ _ _ _ _ Hf Hpd Ht Ha Ha')
      as (s' & t' & x' & Hs & Hf' & Hne & Hin & Hcase).
    exists s', C, t', x'. split; [done|]. split; [done|]. split.
    + destruct Hcase as [(-> & Hcol & Hb)|(-> & Hb)].
      * destruct c; inversion HC; subst.
        -- eapply del_up; [done| |eassumption]. destruct t'; cbn in *; [done|]. by subst.
        -- by eapply del_red.
      * destruct c; inversion HC; subst; by eapply del_root.
    + exact (inorder_plug_eq C _ _ Hin).
  - rewrite (Hcw eq_refl) in *. destruct (rb_red_mk d _ _ Hw) as (q & kq & vq & a & a' & -> & Ha & Ha').
    rewrite ptr_mk. do_load (focus_lookup _ _ _ _ _ _ _ _ _ _ _ Hfw).
    rewrite (is_red_color _ _ (color_node_of _ _ _ _ _ _ _)), bool_decide_eq_true_2 by done.
    rewrite Hpx, st_bind_assoc.
    do_step (set_color_focus _ _ _ _ _ _ _ _ _ _ _ ASSOC_BLACK Hfw) s1 Hf1.
    apply focus_sib in Hf1. rewrite opp_opp, focus_up in Hf1. rewrite st_bind_assoc.
    do_step (set_color_focus _ _ _ _ _ _ _ _ _ _ _ ASSOC_RED Hf1) s2 Hf2. rewrite st_bind_assoc.
    do_step (rotate_focus _ _ _ _ _ _ _ _ _ _ _ _ _ _ _ _ Hf2) s3 Hf3.
    rewrite <-!focus_up in Hf3.
    destruct (focus_parent _ _ _ _ _ Hf3 Hpd) as (nx3 & Hnx3 & Hpx3 & _). cbn [par_of] in Hpx3.
    assert (Hp3 := focus_lookup_par _ _ _ _ _ _ _ _ _ _ _ Hf3).
    rewrite st_bind_assoc. do_load Hnx3. rewrite Hpx3, st_bind_assoc. do_load Hp3.
    rewrite (st_bind_Ret (mret _) _ _ _ _ eq_refl), child_opp_node_of.
    destruct (rb_black_mk d _ _ Ha) as (r & kr & vr & a1 & a2 & c1 & c2 & -> & Ha1 & Ha2).
    rewrite ptr_mk.
    destruct (del_black_spec d loop _ _ _ _ _ _ _ _ _ _ _ _ _ _ _ _ _ Hf3 Hpd Ht Ha1 Ha2)
      as (s' & t' & x' & Hs & Hf' & Hne & Hin & Hcase).
    do 4 eexists. split; [exact Hs|]. split; [exact Hf'|].
    assert (crb true (S n) (F d q ASSOC_BLACK kq vq a' :: C)) as HC'.
    { inversion HC; subst. by econstructor. }
    split.
    + destruct Hcase as [(-> & Hcol & Hb)|(-> & Hb)]; [by eapply del_red|by eapply del_root].
    + transitivity (inorder (plug C (mk d q ASSOC_BLACK kq vq
        (mk d p ASSOC_RED kp vp t (mk d r ASSOC_BLACK kr vr a1 a2)) a'))).
      * exact (inorder_plug_eq (F d q ASSOC_BLACK kq vq a' :: C) _ _ Hin).
      * apply (inorder_plug_eq C). inorder_eq.
Qed.

(** ** The loop and [delete_fixup] *)

Lemma del_exit fuel s E C t pd : focus s E C t pd → tcolor t = ASSOC_RED ∨ C = [] →
  delete_fixup_loop (S fuel) (ptr (e_dummy E) t) s = Ret (ptr (e_dummy E) t, s).
Proof.
  intros Hf Hor. destruct (focus_color _ _ _ _ _ Hf) as (x & Hx & Hc).
  rewrite delete_fixup_loop_eq, (st_bind_Ret st_get _ _ _ _ eq_refl). do_load Hx.
  rewrite (is_black_color _ _ Hc). destruct Hor as [->| ->].
  - by rewrite (bool_decide_eq_false_2 (_ = ASSOC_BLACK)), andb_false_r.
  - rewrite bool_decide_eq_false_2; [done|]. rewrite (focus_root _ _ _ _ Hf). tauto.
Qed.

Lemma delete_fixup_loop_spec fuel s E C t pd n b :
  focus s E C t pd → (t = Leaf → pd = par_of (e_dummy E) C) →
  deficient n t → crb b (S n) C → length C < fuel →
  ∃ s' C' t' b' m, delete_fixup_loop fuel (ptr (e_dummy E) t) s = Ret (ptr (e_dummy E) t', s') ∧
    focus s' E C' t' pd ∧ rb ASSOC_BLACK m (blacken t') ∧ crb b' m C' ∧
    inorder (plug C' t') = inorder (plug C t).
Proof.
  revert s C t n b. induction fuel as [|fuel IH]; intros s C t n b Hf Hpd Ht HC Hlt; [lia|].
  unfold deficient in Ht. destruct (tcolor t) eqn:Hcol.
  2:{ exists s, C, t, b, (S n). split; [by eapply del_exit; [|left]|done]. }
  destruct C as [|[d p c kp vp w] C].
  { destruct (rb_blacken _ _ _ Ht) as (m & Hm). exists s, [], t, true, m.
    split; [by eapply del_exit; [|right]|]. split_and!; try done. constructor. }
  destruct (focus_parent _ _ _ _ _ Hf Hpd) as (x & Hx & Hpx & Hcx). cbn [par_of] in Hpx, Hpd.
  assert (Hp := focus_lookup_par _ _ _ _ _ _ _ _ _ _ _ Hf).
  assert (delete_fixup_loop (S fuel) (ptr (e_dummy E) t) s =
    del_case d (delete_fixup_loop fuel) (ptr (e_dummy E) t) x
      (node_of d c kp vp (par_of (e_dummy E) C) (ptr (e_dummy E) t) (ptr (e_dummy E) w)) s) as Heq.
  { rewrite delete_fixup_loop_eq, (st_bind_Ret st_get _ _ _ _ eq_refl). do_load Hx.
    rewrite (is_black_color _ _ Hcx), Hcol, !bool_decide_eq_true_2
      by (done || by eapply focus_not_root). cbn [andb]. rewrite Hpx. do_load Hp.
    destruct d; cbn [left node_of]; [by rewrite bool_decide_eq_true_2|].
    rewrite bool_decide_eq_false_2; [done|]. apply not_eq_sym. destruct t as [|pt ct l kt vt r].
    - assert (Hfw := focus_sib _ _ _ _ _ _ _ _ _ _ _ Hf). cbn [ptr].
      rewrite (focus_ptr_dummy _ _ _ _ _ Hfw). intros ->. inversion Ht; subst.
      inversion HC as [|? ? ? ? ? ? ? ? ? Hw|? ? ? ? ? ? ? Hw]; inversion Hw.
    - rewrite focus_up in Hf. eapply focus_ptr_ne; [exact Hf|]. right. left. }
  rewrite Heq. clear Heq.
  destruct (del_case_spec d (delete_fixup_loop fuel) _ _ _ _ _ _ _ _ _ _ _ _ _ _ Hf Hpd Ht HC Hx Hp)
    as (s1 & C1 & t1 & x1 & -> & Hf1 & Hnext & Hin).
  destruct fuel as [|fuel]; [cbn in Hlt; lia|]. rewrite <-Hin.
  destruct Hnext as [C1 t1 b1 m Hred Hrb HC1|t1 b1 m Hne Hrb HC1|C1 t1 c1 b1 m Hrb HC1 Himp].
  - exists s1, C1, t1, b1, m. split; [by eapply del_exit; [|left]|done].
  - destruct (IH s1 C t1 m b1) as (s' & C' & t' & b' & m' & Hs & Hf' & Hrb' & HC' & Hin'); try done.
    + unfold deficient. by rewrite (rb_color _ _ _ Hrb).
    + cbn in Hlt. lia.
    + by exists s', C', t', b', m'.
  - destruct (rb_plug _ _ _ _ _ Hrb HC1 Himp) as (c2 & m2 & Hp2 & _).
    destruct (rb_blacken _ _ _ Hp2) as (m3 & Hm3). rewrite focus_plug in Hf1.
    exists s1, [], (plug C1 t1), true, m3. rewrite (focus_root _ _ _ _ Hf1).
    split; [by eapply del_exit; [|right]|]. split_and!; try done. constructor.
Qed.

Lemma rb_plug_black C t n b : rb ASSOC_BLACK n t → crb b n C → ∃ m, rb ASSOC_BLACK m (plug C t).
Proof.
  intros Ht HC. destruct (rb_plug _ _ _ _ _ Ht HC) as (c & m & Hp & Hc); [done|].
  destruct C as [|f C]; [by exists n|]. rewrite Hc in Hp by done. by exists m.
Qed.

(** After [delete_fixup] the tree is a red-black tree with a black root and the
    same in-order sequence. *)
Lemma delete_fixup_spec fuel s E C t pd n b :
  focus s E C t pd → (t = Leaf → pd = par_of (e_dummy E) C) →
  deficient n t → crb b (S n) C → length C < fuel →
  ∃ s' T m, delete_fixup fuel (ptr (e_dummy E) t) s = Ret ((), s') ∧
    focus s' E [] T pd ∧ rb ASSOC_BLACK m T ∧ inorder T = inorder (plug C t).
Proof.
  intros Hf Hpd Ht HC Hlt.
  destruct (delete_fixup_loop_spec _ _ _ _ _ _ _ _ Hf Hpd Ht HC Hlt)
    as (s1 & C1 & t1 & b1 & m & Hs & Hf1 & Hrb & HC1 & Hin).
  destruct (set_black_focus _ _ _ _ _ Hf1) as (s2 & Hs2 & Hf2).
  destruct (rb_plug_black _ _ _ _ Hrb HC1) as (m2 & Hp2).
  exists s2, (plug C1 (blacken t1)), m2. split_and!.
  - unfold delete_fixup. by rewrite (st_bind_Ret _ _ _ _ _ Hs).
  - by apply focus_plug in Hf2.
  - done.
  - rewrite <-Hin. apply inorder_plug_eq, inorder_blacken.
Qed.
End rb_delete.
