(* ===== verification/RbPath.v ===== *)
(** * The red-black tree: descents and iteration

    Where the loops that walk the tree without changing it stop: the search for
    a leaf or a key, [minimum] and [assoc_rb_tree_next].  A context splits the
    in-order sequence of the whole tree around the tree in focus. *)
From S2P Require Import Prelude RbTree RbHeap RbRotate RbInsert RbDelete.
#[local] Set Warnings "-clear-no-such-hyp".

Section rb_path.
Context {K V : Type}.
Implicit Types (s : assoc_rb_tree_t K V) (p q : loc) (E : env (K := K) (V := V)).
Abbreviation tree := (tree (K := K) (V := V)).
Abbreviation ctx := (list (frame (K := K) (V := V))).
Implicit Types (t : tree) (C : ctx).
Abbreviation M := (st (assoc_rb_tree_t K V)).
Abbreviation entry := (loc * (K * V))%type.

#[local] Ltac do_load H := rewrite (st_bind_Ret _ _ _ _ _ (load_eq _ _ _ H)).
#[local] Ltac do_get := rewrite (st_bind_Ret st_get _ _ _ _ eq_refl).

(** ** What lies on either side of the focus *)

Fixpoint cleft C : list entry :=
  match C with
  | [] => []
  | F L _ _ _ _ _ :: C => cleft C
  | F R p _ k v sib :: C => cleft C ++ inorder sib ++ [(p, (k, v))]
  end.

Fixpoint cright C : list entry :=
  match C with
  | [] => []
  | F L p _ k v sib :: C => (p, (k, v)) :: inorder sib ++ cright C
  | F R _ _ _ _ _ :: C => cright C
  end.

Lemma inorder_plug C t : inorder (plug C t) = cleft C ++ inorder t ++ cright C.
Proof.
  revert t. induction C as [|[d p c k v sib] C IH]; intros t; cbn; [by rewrite app_nil_r|].
  etransitivity; [apply IH|]. destruct d; cbn; by rewrite <-!(assoc_L (++)).
Qed.

Lemma plug_app C1 C2 t : plug (C1 ++ C2) t = plug C2 (plug C1 t).
Proof. apply foldl_app. Qed.

Lemma focus_app s E C1 C2 t pd : focus s E (C1 ++ C2) t pd ↔ focus s E C2 (plug C1 t) pd.
Proof. rewrite focus_plug, plug_app, <-focus_plug. done. Qed.

Lemma cleft_app C1 C2 : cleft (C1 ++ C2) = cleft C2 ++ cleft C1.
Proof.
  induction C1 as [|[[] p c k v sib] C1 IH]; cbn; [by rewrite app_nil_r|done|].
  by rewrite IH, <-(assoc_L (++)).
Qed.

Lemma length_ctx C t : length C ≤ length (inorder (plug C t)).
Proof.
  rewrite inorder_plug, !length_app.
  induction C as [|[[] p c k v sib] C IH]; cbn; rewrite ?length_app; cbn; lia.
Qed.

Fixpoint height t : nat :=
  match t with Leaf => 0 | Node _ _ l _ _ r => S (height l `max` height r) end.

Lemma height_inorder t : height t ≤ length (inorder t).
Proof. induction t; cbn; rewrite ?length_app; cbn; lia. Qed.

Lemma height_plug C t : height t ≤ length (inorder (plug C t)).
Proof. pose proof (height_inorder t). rewrite inorder_plug, !length_app. lia. Qed.

Lemma cright_app C1 C2 : cright (C1 ++ C2) = cright C1 ++ cright C2.
Proof.
  induction C1 as [|[[] p c k v sib] C1 IH]; cbn; [done| |done].
  by rewrite IH, <-(assoc_L (++)).
Qed.

(** An entry of the sequence is the root of a tree in focus. *)
Lemma inorder_split t L1 p k v L2 : inorder t = L1 ++ (p, (k, v)) :: L2 →
  ∃ C c l r, t = plug C (Node p c l k v r) ∧
    L1 = cleft C ++ inorder l ∧ L2 = inorder r ++ cright C.
Proof.
  revert L1 L2. induction t as [|q c l IHl kq vq r IHr]; intros L1 L2 Ht; cbn in Ht.
  { by destruct L1. }
  apply app_eq_inv in Ht as [(L & HL1 & HL)|(L & HL1 & HL)]; destruct L as [|e L]; cbn in HL.
  - injection HL as -> -> -> ->. exists [], c, l, r. rewrite app_nil_r in *. by rewrite HL1.
  - injection HL as <- ->. destruct (IHl L1 L HL1) as (C & c' & l' & r' & -> & -> & ->).
    exists (C ++ [F L q c kq vq r]), c', l', r'. rewrite plug_app, cleft_app, cright_app. cbn.
    split; [done|]. by rewrite app_nil_r, <-(assoc_L (++)).
  - injection HL as <- <- <- <-. exists [], c, l, r. rewrite app_nil_r in *. by rewrite HL1.
  - injection HL as <- HL. destruct (IHr L L2 HL) as (C & c' & l' & r' & -> & -> & ->).
    exists (C ++ [F R q c kq vq l]), c', l', r'. rewrite plug_app, cleft_app, cright_app. cbn.
    split; [done|]. rewrite HL1, app_nil_r, <-!(assoc_L (++)). by cbn.
Qed.

(** ** The red-black properties at the focus *)

Lemma rb_unplug C t m : rb ASSOC_BLACK m (plug C t) →
  ∃ c n b, rb c n t ∧ crb b n C ∧ (c = ASSOC_RED → b = true ∧ C ≠ []).
Proof.
  revert t. induction C as [|[d p c k v sib] C IH]; intros t Ht.
  { exists ASSOC_BLACK, m, true. split_and!; [done|constructor|done]. }
  destruct (IH _ Ht) as (c0 & n & b & Hrb & HC & Hc). apply rb_mk_inv in Hrb as [-> Hrb].
  destruct c.
  - destruct Hrb as (ca & cb & n' & -> & Ha & Hb). exists ca, n', true.
    split_and!; [done|by econstructor|done].
  - destruct Hrb as [Ha Hb]. destruct (Hc eq_refl) as [-> Hne].
    exists ASSOC_BLACK, n, false. split_and!; [done|by constructor|done].
Qed.

Definition is_leaf t : bool := match t with Leaf => true | _ => false end.

(** [node != tree->dummy]. *)
Lemma ptr_not_dummy s E C t pd : focus s E C t pd →
  bool_decide (ptr (e_dummy E) t ≠ e_dummy E) = negb (is_leaf t).
Proof.
  intros Hf. destruct t eqn:Ht; cbn.
  - by rewrite bool_decide_eq_false_2 by naive_solver.
  - rewrite bool_decide_eq_true_2; [done|]. rewrite <-Ht in Hf.
    assert (Hp := focus_ptr_dummy _ _ _ _ _ Hf). rewrite Ht in Hp. cbn in Hp. naive_solver.
Qed.

(** ** [minimum] *)

Lemma minimum_loop_spec fuel s E C t pd : focus s E C t pd → t ≠ Leaf → height t ≤ fuel →
  ∃ Cm y cy ky vy ry, minimum_loop fuel (ptr (e_dummy E) t) s = Ret (y, s) ∧
    t = plug Cm (Node y cy Leaf ky vy ry) ∧ cleft Cm = [].
Proof.
  revert C t. induction fuel as [|fuel IH]; intros C t Hf Hne Hfuel;
    destruct t as [|y cy l ky vy ry]; [done|cbn in Hfuel; lia|done|].
  cbn [minimum_loop ptr]. do_get. do_load (focus_lookup s E C L y cy ky vy l ry pd Hf).
  cbn [node_of left].
  assert (focus s E (F L y cy ky vy ry :: C) l pd) as Hfl by (by apply focus_up).
  rewrite (focus_dummy _ _ _ _ _ Hf), (ptr_not_dummy _ _ _ _ _ Hfl). destruct l as [|p c ll k v lr]; cbn [is_leaf negb].
  - exists [], y, cy, ky, vy, ry. done.
  - destruct (IH _ _ Hfl) as (Cm & z & cz & kz & vz & rz & Hs & Heq & Hl); [done|cbn in *; lia|].
    exists (Cm ++ [F L y cy ky vy ry]), z, cz, kz, vz, rz.
    rewrite plug_app, <-Heq, cleft_app. by split; [exact Hs|].
Qed.

Lemma minimum_spec fuel s E C t pd : focus s E C t pd → t ≠ Leaf → height t ≤ fuel →
  ∃ Cm y cy ky vy ry, minimum fuel (ptr (e_dummy E) t) s = Ret (y, s) ∧
    t = plug Cm (Node y cy Leaf ky vy ry) ∧ cleft Cm = [].
Proof.
  intros Hf Hne Hfuel. unfold minimum. do_get.
  rewrite (focus_dummy _ _ _ _ _ Hf), bool_decide_eq_false_2
    by (by rewrite (focus_ptr_dummy _ _ _ _ _ Hf)).
  by eapply minimum_loop_spec.
Qed.

(** The first location of a sequence, the sentinel if it is empty. *)
Definition hd_loc (d0 : loc) (L : list entry) : loc :=
  match L with [] => d0 | (p, _) :: _ => p end.

Lemma minimum_hd fuel s E C t pd : focus s E C t pd → height t ≤ fuel →
  minimum fuel (ptr (e_dummy E) t) s = Ret (hd_loc (e_dummy E) (inorder t), s).
Proof.
  intros Hf Hfuel. destruct t as [|p c l k v r] eqn:Ht.
  - unfold minimum. do_get. rewrite (focus_dummy _ _ _ _ _ Hf). cbn.
    by rewrite bool_decide_eq_true_2.
  - rewrite <-Ht in *. destruct (minimum_spec fuel _ _ _ _ _ Hf) as (Cm & y & cy & ky & vy & ry & Hs & -> & Hl);
      [by rewrite Ht|done|].
    rewrite Hs, inorder_plug, Hl. done.
Qed.

(** ** [assoc_rb_tree_next] *)

Lemma next_up_spec fuel s E C p c l k v r pd : focus s E C (Node p c l k v r) pd → length C < fuel →
  next_up fuel p (par_of (e_dummy E) C) s = Ret (hd_loc (e_dummy E) (cright C), s).
Proof.
  revert C p c l k v r. induction fuel as [|fuel IH]; intros C p c l k v r Hf Hlt; [lia|].
  cbn [next_up]. do_get. rewrite (focus_dummy _ _ _ _ _ Hf).
  destruct C as [|[d q cq kq vq sib] C]; cbn [par_of].
  { by rewrite bool_decide_eq_true_2. }
  assert (Hq := focus_lookup_par _ _ _ _ _ _ _ _ _ _ _ Hf).
  assert (Hfu := Hf). rewrite focus_up in Hfu.
  rewrite bool_decide_eq_false_2.
  2:{ intros Heq. assert (ptr (e_dummy E) (mk d q cq kq vq (Node p c l k v r) sib) = e_dummy E) as Hp
        by (by rewrite ptr_mk).
      rewrite (focus_ptr_dummy _ _ _ _ _ Hfu) in Hp. by destruct d. }
  do_load Hq. destruct d; cbn [left node_of parent cright hd_loc].
  - by rewrite bool_decide_eq_true_2.
  - rewrite bool_decide_eq_false_2.
    + apply (IH C q cq sib kq vq (Node p c l k v r)); [done|cbn in Hlt; lia].
    + eapply focus_ptr_ne; [exact Hfu|right; left].
Qed.

Lemma next_spec s E C p c l k v r pd : focus s E C (Node p c l k v r) pd →
  length (inorder (plug C (Node p c l k v r))) ≤ size s + 1 →
  assoc_rb_tree_next p s = Ret (hd_loc (e_dummy E) (inorder r ++ cright C), s).
Proof.
  intros Hf Hlen. unfold assoc_rb_tree_next. do_get. rewrite (focus_dummy _ _ _ _ _ Hf).
  rewrite bool_decide_eq_true_2.
  2:{ intros Heq. assert (Hp := focus_ptr_dummy _ _ _ _ _ Hf). cbn in Hp. naive_solver. }
  rewrite st_assert_true by done.
  do_load (focus_lookup s E C L p c k v l r pd Hf). cbn [right node_of parent].
  assert (focus s E (F R p c k v l :: C) r pd) as Hfr by (by apply focus_up).
  rewrite (ptr_not_dummy _ _ _ _ _ Hfr).
  pose proof (height_plug C (Node p c l k v r)) as Hh. cbn [height] in Hh.
  pose proof (length_ctx C (Node p c l k v r)) as HlC.
  destruct r as [|q cq rl kq vq rr] eqn:Hr; cbn [is_leaf negb].
  - by eapply next_up_spec; [|lia].
  - rewrite <-Hr in *.
    rewrite (minimum_hd _ _ _ _ _ _ Hfr) by lia. destruct (inorder r) eqn:Hin; [|done].
    rewrite Hr in Hin. cbn in Hin. by destruct (inorder rl).
Qed.
End rb_path.
