(* ===== verification/RbMap.v ===== *)
(** * The red-black tree: a sorted map

    The invariant of [assoc_rb_tree_t] and the refinement: insertion, extraction
    and iteration behave as on the sorted sequence of the entries. *)
From S2P Require Import Prelude AssocSpec RbTree RbHeap RbRotate RbLink RbInsert RbDelete RbPath.
#[local] Set Warnings "-clear-no-such-hyp".
#[local] Set Default Proof Using "Type*".

Section rb_alloc.
Context {K V : Type}.
Implicit Types (s : assoc_rb_tree_t K V) (p q : loc) (E : env (K := K) (V := V)).

(** ** Allocation, release and the size *)

Lemma alloc_focus s E C t pd n : focus s E C t pd → e_heap E = ∅ →
  (∀ q, q ∈ e_dummy E :: locs t ++ clocs C → (q < brk s)%positive) →
  focus (mk_tree (<[brk s := n]> (heap s)) (Pos.succ (brk s)) (dummy s) (root s) (size s))
    (mk_env (e_dummy E) (e_size E) (Pos.succ (e_brk E)) {[ brk s := n ]}) C t pd.
Proof.
  intros [Ht HC Hd [Hed Heb Hes Hn _ Hdom]] HE Hlt.
  assert (∀ q, q ∈ e_dummy E :: locs t ++ clocs C → <[brk s := n]> (heap s) !! q = heap s !! q) as Hh.
  { intros q Hq. apply lookup_insert_ne. specialize (Hlt q Hq). lia. }
  split; cbn.
  - eapply tree_at_frame; [|exact Ht]. intros q Hq. apply Hh. set_solver.
  - eapply ctx_at_frame; [|exact HC]. intros q Hq. apply Hh. set_solver.
  - rewrite Hh; [done|left].
  - split; cbn; [done|by rewrite Heb|done|done| |].
    + intros q m Hq. apply lookup_singleton_Some in Hq as [<- <-]. rewrite lookup_insert_eq.
      split; [done|]. intros Hin. specialize (Hlt _ Hin). lia.
    + intros q Hq. destruct (decide (q = brk s)) as [->|Hne].
      * right. by rewrite lookup_singleton_eq.
      * left. rewrite lookup_insert_ne in Hq by done. rewrite HE in Hdom.
        destruct (Hdom q Hq) as [|[m Hm]]; [done|]. by rewrite lookup_empty in Hm.
Qed.

(** [create_node_rb_tree]: a red node without links, at a new location. *)
Lemma create_node_eq s k v : create_node_rb_tree (K := K) (V := V) k v s =
  Ret (brk s, mk_tree (<[brk s := mk_node (Some k) (Some v) (dummy s) (dummy s) (dummy s) ASSOC_RED]>
    (heap s)) (Pos.succ (brk s)) (dummy s) (root s) (size s)).
Proof.
  unfold create_node_rb_tree. rewrite (st_bind_Ret st_get _ _ _ _ eq_refl).
  rewrite (st_bind_Ret _ _ _ _ _ (eq_refl : init_node _ _ s = _)).
  unfold set_parent, set_left, set_right.
  do 3 (erewrite st_bind_Ret by (apply store_eq; cbn; apply lookup_insert_eq)).
  unfold with_heap. cbn. by rewrite !insert_insert_eq.
Qed.

Lemma free_focus s E C t pd z nz : focus s (env_add z nz E) C t pd → e_heap E !! z = None →
  ∃ s', free_node_rb_tree z s = Ret ((), s') ∧ focus s' E C t pd.
Proof.
  intros [Ht HC Hd [Hed Heb Hes Hn Ho Hdom]] HE. cbn in *.
  destruct (Ho z nz) as [Hz Hni]; [apply lookup_insert_eq|].
  unfold free_node_rb_tree. rewrite Hz. eexists. split; [done|].
  assert (∀ q, q ∈ e_dummy E :: locs t ++ clocs C → delete z (heap s) !! q = heap s !! q) as Hh.
  { intros q Hq. apply lookup_delete_ne. by intros ->. }
  split; cbn.
  - eapply tree_at_frame; [|exact Ht]. intros q Hq. apply Hh. set_solver.
  - eapply ctx_at_frame; [|exact HC]. intros q Hq. apply Hh. set_solver.
  - rewrite Hh; [done|left].
  - split; cbn; [done..| |].
    + intros q m Hq. assert (q ≠ z) as Hne by congruence.
      rewrite lookup_delete_ne by done. apply Ho. by rewrite lookup_insert_ne.
    + intros q Hq. destruct (decide (z = q)) as [->|Hne].
      { rewrite lookup_delete_eq in Hq. by destruct Hq. }
      rewrite lookup_delete_ne in Hq by done. specialize (Hdom q Hq).
      by rewrite lookup_insert_ne in Hdom.
Qed.

Lemma set_size_focus s E C t pd f : focus s E C t pd →
  focus (mk_tree (heap s) (brk s) (dummy s) (root s) (f (size s)))
    (mk_env (e_dummy E) (f (e_size E)) (e_brk E) (e_heap E)) C t pd.
Proof. intros [Ht HC Hd [Hed Heb Hes Hn Ho Hdom]]. split; try done. by split; cbn; rewrite ?Hes. Qed.

Lemma inorder_locs t : (inorder (K := K) (V := V) t).*1 ≡ₚ locs t.
Proof.
  induction t as [|p c l IHl k v r IHr]; [done|].
  cbn. rewrite fmap_app. cbn. rewrite IHl, IHr. by rewrite Permutation_middle.
Qed.
End rb_alloc.

Section rb_map.
Context {K V : Type} (comp : K → K → Z) `{!Comparator comp}.
Implicit Types (s : assoc_rb_tree_t K V) (p q : loc) (E : env (K := K) (V := V)).
Abbreviation tree := (tree (K := K) (V := V)).
Abbreviation ctx := (list (frame (K := K) (V := V))).
Implicit Types (t : tree) (C : ctx).
Abbreviation M := (st (assoc_rb_tree_t K V)).
Abbreviation entry := (loc * (K * V))%type.

#[local] Ltac do_load H := rewrite (st_bind_Ret _ _ _ _ _ (load_eq _ _ _ H)).
#[local] Ltac do_get := rewrite (st_bind_Ret st_get _ _ _ _ eq_refl).

(** ** The invariant *)

Definition own_env s : env := mk_env (dummy s) (size s) (brk s) (∅ : gmap loc (assoc_node_t K V)).

(** [rep s L]: the nodes of the heap are the sentinel and those of a red-black
    tree with a black root whose in-order sequence is [L], sorted; [size] is the
    length of [L] and every node is below [brk]. *)
Definition rep s (L : list entry) : Prop :=
  ∃ T pd m, focus s (own_env s) [] T pd ∧ rb ASSOC_BLACK m T ∧ inorder T = L ∧
    size s = length L ∧ sorted comp L.*2 ∧ ∀ q, q ∈ dummy s :: L.*1 → (q < brk s)%positive.

(** The nodes of the heap are the sentinel and the entries, all distinct. *)
Lemma rep_heap s L : rep s L →
  NoDup (dummy s :: L.*1) ∧ ∀ q, is_Some (heap s !! q) ↔ q ∈ dummy s :: L.*1.
Proof using Type.
  intros (T & pd & m & Hf & _ & <- & _). pose proof (focus_nodup _ _ _ _ _ Hf) as Hnd.
  pose proof Hf as [Ht _ Hd [_ _ _ _ _ Hdom]]. cbn in *. rewrite app_nil_r in *.
  assert (∀ q, q ∈ (inorder T).*1 ↔ q ∈ locs T) as Hin by (intros q; by rewrite inorder_locs).
  split; [by rewrite inorder_locs|]. intros q. rewrite elem_of_cons, Hin, <-elem_of_cons. split.
  - intros Hq. destruct (Hdom q Hq) as [|[n Hn]]; [done|]. by rewrite lookup_empty in Hn.
  - intros Hq. apply elem_of_cons in Hq as [->|Hq]; [by rewrite Hd|]. clear -Ht Hq.
    revert Ht Hq. generalize (dummy s) at 2. induction T as [|p c l IHl k v r IHr]; intros par Ht Hq.
    { by apply not_elem_of_nil in Hq. }
    cbn in Ht, Hq. destruct Ht as (Hp & Hl & Hr).
    apply elem_of_cons in Hq as [->|Hq]; [by rewrite Hp|].
    apply elem_of_app in Hq as [Hq|Hq]; [by eapply IHl|by eapply IHr].
Qed.

Lemma rep_init : rep assoc_rb_tree_init [].
Proof using Type.
  exists Leaf, NULL, 0. split_and!; [|constructor|done|done|constructor|].
  - split; cbn; [done|done|by rewrite lookup_singleton_eq|]. split; cbn; try done.
    + apply NoDup_singleton.
    + intros q [m Hq]. apply lookup_singleton_Some in Hq as [<- _]. left. left.
  - cbn. intros q Hq. apply list_elem_of_singleton in Hq. subst q. cbn. lia.
Qed.

(** ** Where a descent leads *)

(** The keys met on the way to the hole: [PL] of those left behind to the right,
    [PR] of those left behind to the left. *)
Definition path_ok (PL PR : K → Prop) C : Prop :=
  Forall (λ '(F d _ _ k _ _), match d with L => PL k | R => PR k end) C.

Lemma path_split (PL PR : K → Prop) C t :
  (∀ a b, PL a → comp a b ≠ (-1)%Z → PL b) → (∀ a b, comp a b ≠ (-1)%Z → PR b → PR a) →
  path_ok PL PR C → sorted comp (inorder (plug C t)).*2 →
  Forall (λ e, PR e.1) (cleft C).*2 ∧ Forall (λ e, PL e.1) (cright C).*2.
Proof.
  intros HL HR. revert t. induction C as [|[d p c k v sib] C IH]; intros t HC Hs; [done|].
  unfold path_ok in HC. apply Forall_cons_iff in HC as [Hk HC].
  destruct (IH (mk d p c k v t sib) HC Hs) as [IHl IHr].
  change (plug (F d p c k v sib :: C) t) with (plug C (mk d p c k v t sib)) in Hs.
  rewrite inorder_plug, !fmap_app, !sorted_app in Hs. destruct Hs as (_ & (Hs & _) & _).
  destruct d; cbn in *; rewrite fmap_app in Hs |- *; apply sorted_app in Hs as (Hs1 & Hs2 & Hs3).
  - split; [done|]. inversion Hs2 as [|? ? _ Hf]; subst.
    constructor; [done|]. apply Forall_app. split; [|done].
    eapply Forall_impl; [exact Hf|]. cbn. intros a Ha. by eapply HL.
  - split; [|done]. apply Forall_app. split; [done|]. rewrite fmap_app. apply Forall_app.
    split; [|by constructor]. apply Forall_forall. intros a Ha. eapply HR; [|exact Hk].
    apply (Hs3 a (k, v)); [done|left].
Qed.

(** ** Insertion *)

Abbreviation ins_path k := (path_ok (λ kp, comp k kp = 1%Z) (λ kp, comp k kp ≠ 1%Z)).

Lemma ins_path_split k C t : ins_path k C → sorted comp (inorder (plug C t)).*2 →
  Forall (λ e, comp k e.1 ≠ 1%Z) (cleft C).*2 ∧ Forall (λ e, comp k e.1 = 1%Z) (cright C).*2.
Proof.
  apply path_split.
  - intros a b Ha Hab. by apply (comp_lt_le_trans comp k a b).
  - intros a b Hab Hb Ha. by apply Hb, (comp_lt_le_trans comp k a b).
Qed.

Lemma insert_find_leaf_spec k fuel s E C t pd : focus s E C t pd → height t < fuel → ins_path k C →
  ∃ C', insert_find_leaf comp fuel (Some k) (ptr (e_dummy E) t) (par_of (e_dummy E) C) s =
          Ret (par_of (e_dummy E) C', s) ∧ plug C' Leaf = plug C t ∧ ins_path k C'.
Proof.
  revert C t. induction fuel as [|fuel IH]; intros C t Hf Hlt HC; [lia|]. cbn [insert_find_leaf].
  do_get. rewrite (focus_dummy _ _ _ _ _ Hf), (ptr_not_dummy _ _ _ _ _ Hf).
  destruct t as [|p c l kp vp r]; cbn [is_leaf negb]; [by exists C|]. cbn [ptr].
  do_load (focus_lookup s E C L p c kp vp l r pd Hf). cbn [node_of key left right comp_keys].
  rewrite (st_bind_Ret (mret _) _ _ _ _ eq_refl). cbn [height] in Hlt.
  destruct (Z.eqb_spec (comp k kp) 1) as [Hc|Hc].
  - destruct (IH (F L p c kp vp r :: C) l) as (C' & Hs & Hp & HC');
      [by apply focus_up|lia|by constructor|].
    exists C'. split; [exact Hs|done].
  - destruct (IH (F R p c kp vp l :: C) r) as (C' & Hs & Hp & HC');
      [by apply focus_up|lia|by constructor|].
    exists C'. split; [exact Hs|done].
Qed.

Lemma ins_path_side k C : ins_path k C →
  match C with
  | [] => True
  | F d _ _ kp _ _ :: _ => go_left (comp k kp) = match d with L => true | R => false end
  end.
Proof.
  destruct C as [|[d p c kp vp sib] C]; [done|]. intros HC. apply Forall_cons_iff in HC as [Hk _].
  unfold go_left. destruct d; [by apply Z.eqb_eq|by apply Z.eqb_neq].
Qed.

Lemma own_env_eq s E C t pd : focus s E C t pd → e_heap E = ∅ → own_env s = E.
Proof using Type.
  intros [_ _ _ [Hd Hb Hs _ _ _]] HE. destruct E as [d n b h]. cbn in *. subst. done.
Qed.

(** Insertion adds one node, after those with a key that is not greater. *)
Lemma insert_rep k v s L : rep s L →
  ∃ s' L1 L2, assoc_rb_tree_insert comp k v s = Ret ((), s') ∧ L = L1 ++ L2 ∧
    rep s' (L1 ++ (brk s, (k, v)) :: L2) ∧
    Forall (λ e, comp k e.1 ≠ 1%Z) L1.*2 ∧ Forall (λ e, comp k e.1 = 1%Z) L2.*2.
Proof.
  intros (T & pd & m & Hf & Hrb & HL & Hsz & Hsort & Hlt).
  unfold assoc_rb_tree_insert. rewrite (st_bind_Ret _ _ _ _ _ (create_node_eq s k v)). do_get.
  cbn [dummy size root]. set (nz := mk_node _ _ _ _ _ _).
  assert (∀ q, q ∈ e_dummy (own_env s) :: locs T ++ clocs ([] : ctx) → (q < brk s)%positive) as Hlt'.
  { intros q Hq. apply Hlt. rewrite <-HL. cbn in Hq. rewrite app_nil_r in Hq.
    apply elem_of_cons in Hq as [->|Hq]; [left|right]. by rewrite inorder_locs. }
  assert (Hf1 := alloc_focus s (own_env s) [] T pd nz Hf eq_refl Hlt'). cbn [e_dummy own_env e_size e_brk] in Hf1.
  set (s1 := mk_tree _ _ _ _ _) in *. set (E1 := mk_env _ _ _ _) in Hf1.
  assert (heap s1 !! brk s = Some nz) as Hz by (cbn; apply lookup_insert_eq).
  do_load Hz. assert (brk s ≠ dummy s) as Hne.
  { intros Heq. assert (dummy s < brk s)%positive as Hd by (apply Hlt; left). lia. }
  cbn [nz parent left right color key].
  rewrite !(bool_decide_eq_true_2 _) by done. do 5 rewrite st_assert_true by done.
  assert (height T < size s + 2) as Hh.
  { pose proof (height_inorder T). rewrite HL in *. lia. }
  destruct (insert_find_leaf_spec k _ s1 E1 [] T pd Hf1 Hh) as (C & Hs2 & Hp & HC); [constructor|].
  rewrite <-(focus_root _ _ _ _ Hf1) in Hs2. cbn [par_of e_dummy E1] in Hs2.
  change (root s1) with (root s) in Hs2. rewrite (st_bind_Ret _ _ _ _ _ Hs2).
  rewrite focus_plug in Hf1. cbn [plug foldl] in *. rewrite <-Hp in Hf1, Hrb, HL.
  rewrite <-focus_plug in Hf1.
  destruct (link_leaf_focus comp s1 E1 C (brk s) k v (dummy s) ASSOC_RED pd
    (insert_fixup (size s + 2) (brk s);; set_size S) Hf1) as (s2 & Hrun & Hf2);
    [by cbn; rewrite lookup_singleton_eq|by apply ins_path_side|].
  cbn [e_dummy E1] in Hrun. rewrite Hrun. clear Hrun.
  destruct (rb_unplug _ _ _ Hrb) as (c0 & n0 & b0 & Hleaf & HcC & _).
  inversion Hleaf; subst c0 n0.
  destruct (insert_fixup_spec (size s + 2) s2 _ C _ 0 b0 pd Hf2) as (s3 & T' & m' & Hs3 & Hf3 & Hrb3 & Hin3);
    [by constructor|done| |].
  { pose proof (length_ctx C Leaf) as Hlen. rewrite HL in Hlen. lia. }
  cbn [ptr] in Hs3. rewrite (st_bind_Ret _ _ _ _ _ Hs3).
  rewrite inorder_plug in HL, Hin3. cbn in HL, Hin3.
  destruct (ins_path_split k C Leaf HC) as [HFl HFr].
  { rewrite inorder_plug. cbn. by rewrite HL. }
  assert (Hf4 := set_size_focus _ _ _ _ _ S Hf3). do 3 eexists. split; [reflexivity|].
  split; [by rewrite HL|]. split; [|done].
  assert ((cleft C ++ (brk s, (k, v)) :: cright C).*2 = ord_insert comp k v L.*2) as Hord.
  { rewrite <-HL, !fmap_app. symmetry. by apply ord_insert_split. }
  exists T', pd, m'. rewrite Hord. split_and!.
  - rewrite (own_env_eq _ _ _ _ _ Hf4); [exact Hf4|]. cbn. apply delete_singleton_eq.
  - done.
  - done.
  - rewrite length_app. cbn. destruct Hf3 as [_ _ _ [_ _ -> _ _ _]]. cbn.
    rewrite Hsz, <-HL, length_app. lia.
  - by apply ord_insert_sorted.
  - assert (brk s3 = Pos.succ (brk s)) as Hb by (destruct Hf3 as [_ _ _ [_ -> _ _ _ _]]; done).
    assert (dummy s3 = dummy s) as Hd by (by rewrite (focus_dummy _ _ _ _ _ Hf3)).
    intros q. cbn. rewrite Hb, Hd, <-HL in *. rewrite !fmap_app. cbn. intros Hq.
    assert (q = brk s ∨ q ∈ dummy s :: (cleft C ++ cright C).*1) as [->|Hq'].
    { rewrite !fmap_app. set_solver. }
    + lia.
    + specialize (Hlt q Hq'). lia.
Qed.
End rb_map.
