(* ===== verification/RbExtract.v ===== *)
(** * The red-black tree: extraction refines the removal of an entry *)
From S2P Require Import Prelude AssocSpec RbTree RbHeap RbRotate RbLink RbInsert RbDelete RbPath RbMap.
#[local] Set Warnings "-clear-no-such-hyp".

Section rb_extract_node.
Context {K V : Type}.
Implicit Types (s : assoc_rb_tree_t K V) (p q : loc) (E : env (K := K) (V := V)).
Abbreviation tree := (tree (K := K) (V := V)).
Abbreviation ctx := (list (frame (K := K) (V := V))).
Implicit Types (t : tree) (C : ctx).
Abbreviation M := (st (assoc_rb_tree_t K V)).

#[local] Ltac do_load H := rewrite (st_bind_Ret _ _ _ _ _ (load_eq _ _ _ H)).
#[local] Ltac do_get := rewrite (st_bind_Ret st_get _ _ _ _ eq_refl).
#[local] Ltac flat := repeat (rewrite ?st_bind_assoc; apply st_bind_ext; [reflexivity|intros]).

Lemma ptr_is_dummy s E C t pd : focus s E C t pd →
  bool_decide (ptr (e_dummy E) t = e_dummy E) = is_leaf t.
Proof.
  intros Hf. pose proof (ptr_not_dummy _ _ _ _ _ Hf) as H. rewrite bool_decide_not in H.
  destruct (bool_decide _), (is_leaf t); done.
Qed.

Lemma locs_plug C t : locs (plug C t) ≡ₚ locs t ++ clocs C.
Proof.
  revert t. induction C as [|[d p c k v sib] C IH]; intros t; [by rewrite app_nil_r|].
  rewrite locs_up. apply IH.
Qed.

Lemma par_of_not_outer s E Cm d z cz kz vz l C t pd : focus s E (Cm ++ F d z cz kz vz l :: C) t pd →
  Cm ≠ [] → par_of (e_dummy E) (Cm ++ F d z cz kz vz l :: C) ≠ z.
Proof.
  intros Hf Hne. destruct Cm as [|[dp p cp kp vp sib] Cm]; [done|]. cbn.
  rewrite focus_app, focus_up in Hf. apply focus_nodup in Hf.
  rewrite locs_mk, locs_plug in Hf. unfold clocs in Hf. cbn in Hf.
  apply NoDup_cons in Hf as [_ Hf]. apply NoDup_cons in Hf as [Hz _].
  intros ->. apply Hz. apply elem_of_app. left. apply elem_of_app. left. apply elem_of_app. right. left.
Qed.

(** A context is as good with another entry at one of its nodes. *)
Lemma crb_rename Cm d p p' c (k k' : K) (v v' : V) sib C b n :
  crb b n (Cm ++ F d p c k v sib :: C) → crb b n (Cm ++ F d p' c k' v' sib :: C).
Proof.
  revert b n. induction Cm as [|[dm pm cm km vm sm] Cm IH]; intros b n; cbn.
  - inversion 1; subst; by econstructor.
  - inversion 1 as [|? ? ? ? ? ? ? ? ? ? HC|? ? ? ? ? ? ? ? HC]; subst; econstructor;
      [done|by apply IH|done|by apply IH|by destruct Cm].
Qed.

(** ** After the removal of a node with an empty child *)

(** [cy]: the colour of the node removed above [t]. *)
Definition removed (cy : assoc_color_e) t C : Prop :=
  ∃ n b, match cy with
  | ASSOC_BLACK => deficient n t ∧ crb b (S n) C
  | ASSOC_RED => rb ASSOC_BLACK n t ∧ crb b n C
  end.

Lemma removed_one_child d y cy k v r C m :
  rb ASSOC_BLACK m (plug C (mk d y cy k v Leaf r)) → removed cy r C.
Proof.
  intros Hrb. destruct (rb_unplug _ _ _ Hrb) as (c & n & b & Ht & HC & Hc).
  apply rb_mk_inv in Ht as [-> Ht]. unfold removed. destruct cy.
  - destruct Ht as (ca & cb & n1 & -> & Ha & Hb). inversion Ha; subst. exists 0, b. split; [|exact HC].
    unfold deficient. rewrite (rb_color _ _ _ Hb). destruct cb; [done|].
    inversion Hb; subst. cbn. eapply rb_black; eassumption.
  - destruct Ht as [Ha Hb]. inversion Ha; subst. by exists 0, b.
Qed.

Lemma del_finish fuel s E C x pd cy :
  focus s E C x pd → (x = Leaf → pd = par_of (e_dummy E) C) → length C < fuel → removed cy x C →
  ∃ s' T m, (if bool_decide (cy = ASSOC_BLACK) then delete_fixup fuel (ptr (e_dummy E) x)
             else mret ()) s = Ret ((), s') ∧
    focus s' E [] T pd ∧ rb ASSOC_BLACK m T ∧ inorder T = inorder (plug C x).
Proof.
  intros Hf Hpd Hlt (n & b & Hrem). destruct cy.
  - destruct Hrem as [Hx HC]. rewrite bool_decide_eq_true_2 by done. by eapply delete_fixup_spec.
  - destruct Hrem as [Hx HC]. rewrite bool_decide_eq_false_2 by done.
    destruct (rb_plug_black _ _ _ _ Hx HC) as (m & Hm). exists s, (plug C x), m.
    split_and!; [done|by rewrite <-focus_plug|done|done].
Qed.
(** ** [assoc_rb_tree_extract_node] *)

(** The branch of [assoc_rb_tree_extract_node] for two children. *)
Definition splice_succ (fuel : nat) (z r : loc) : M (assoc_color_e * loc) :=
  y_node ← minimum fuel r;
  y ← load y_node;
  let original_color := color y in
  let x_node := right y in
  (if bool_decide (parent y = z) then set_parent x_node y_node
      else transplant y_node (right y);;
           z' ← load z;
           set_right y_node (right z');;
           y ← load y_node;
           set_parent (right y) y_node);;
  transplant z y_node;;
  z' ← load z;
  set_left y_node (left z');;
  y ← load y_node;
  set_parent (left y) y_node;;
  z' ← load z;
  set_color y_node (color z');;
  mret (original_color, x_node).

(** Unlinking a node with two children: its successor takes its place. *)
Lemma extract_two s E C z cz l kz vz r pd m fuel : e_heap E = ∅ → l ≠ Leaf → r ≠ Leaf →
  focus s E C (Node z cz l kz vz r) pd → rb ASSOC_BLACK m (plug C (Node z cz l kz vz r)) →
  height r ≤ fuel →
  ∃ s' C' x cy pd' nz,
    splice_succ fuel z (ptr (e_dummy E) r) s = Ret ((cy, ptr (e_dummy E) x), s') ∧
    focus s' (env_add z nz E) C' x pd' ∧ (x = Leaf → pd' = par_of (e_dummy E) C') ∧
    removed cy x C' ∧ (key nz = Some kz ∧ value nz = Some vz) ∧
    inorder (plug C' x) = cleft C ++ inorder l ++ inorder r ++ cright C.
Proof.
  intros HE Hl Hr Hf Hrb Hfuel. unfold splice_succ.
  assert (Hfr := Hf). apply (focus_up _ _ _ _ _ R) in Hfr.
  destruct (minimum_spec fuel _ _ _ _ _ Hfr Hr Hfuel) as (Cm & y & cy & ky & vy & ry & Hmin & -> & HCm).
  rewrite (st_bind_Ret _ _ _ _ _ Hmin). rewrite <-focus_app in Hfr.
  do_load (focus_lookup s E _ L y cy ky vy Leaf ry pd Hfr). cbn [node_of color right parent].
  assert (removed cy ry (Cm ++ F R z cz kz vz l :: C)) as Hrem.
  { eapply (removed_one_child L y cy ky vy). rewrite plug_app. exact Hrb. }
  assert (removed cy ry (Cm ++ F R y cz ky vy l :: C)) as Hrem'.
  { destruct Hrem as (n & b & Hrem). exists n, b.
    destruct cy; (split; [apply Hrem|eapply crb_rename, Hrem]). }
  assert (inorder (plug (Cm ++ F R y cz ky vy l :: C) ry) =
    cleft C ++ inorder l ++ inorder (plug Cm (Node y cy Leaf ky vy ry)) ++ cright C) as Hin.
  { rewrite plug_app. change (plug (F R y cz ky vy l :: C)) with (λ t, plug C (Node y cz l ky vy t)).
    cbv beta. rewrite inorder_plug. cbn [inorder]. rewrite !inorder_plug, HCm. cbn.
    rewrite <-!(assoc_L (++)). cbn. by rewrite <-!(assoc_L (++)). }
  destruct Cm as [|f Cm].
  - cbn [app par_of]. rewrite bool_decide_eq_true_2 by done.
    destruct (splice_child_focus s E C z cz l kz vz y cy ky vy ry pd
      (mret (cy, ptr (e_dummy E) ry)) Hl Hf) as (s' & Hs & Hf' & _).
    exists s', (F R y cz ky vy l :: C), ry, cy. do 2 eexists. split; [exact Hs|].
    split; [apply (focus_up _ _ _ _ _ R); exact Hf'|]. split; [by intros ->|].
    split; [exact Hrem'|]. split; [by split|exact Hin].
  - rewrite bool_decide_eq_false_2 by (by eapply par_of_not_outer).
    destruct (transplant_focus s E _ L y cy ky vy ry pd Hfr) as (s1 & Hs1 & Hf1 & Hy1).
    assert (Hf2 := Hf1). rewrite focus_app, focus_up in Hf2.
    assert (plug (f :: Cm) ry ≠ Leaf) as Hne.
    { intros Heq. pose proof (length_ctx (f :: Cm) ry) as Hlen. rewrite Heq in Hlen. cbn in Hlen. lia. }
    destruct (splice_deep_focus s1 _ C z cz l kz vz _ y _ ky vy _ (mret (cy, ptr (e_dummy E) ry))
      Hl Hne Hf2 (lookup_insert_eq _ _ _) eq_refl eq_refl) as (s' & Hs & Hf' & _).
    exists s', (f :: Cm ++ F R y cz ky vy l :: C), ry, cy. do 2 eexists. split_and!.
    + rewrite !st_bind_assoc, (st_bind_Ret _ _ _ _ _ Hs1). etransitivity; [|exact Hs]. flat. done.
    + assert (env_del y (env_add y (node_of L cy ky vy
        (par_of (e_dummy E) ((f :: Cm) ++ F R z cz kz vz l :: C)) (e_dummy E) (ptr (e_dummy E) ry)) E) = E)
        as HE'.
      { destruct E as [ed en eb eh]. cbn in *. subst eh. unfold env_del, env_add. cbn.
        by rewrite delete_insert_id. }
      rewrite HE' in Hf'.
      change (f :: Cm ++ F R y cz ky vy l :: C) with ((f :: Cm) ++ F R y cz ky vy l :: C).
      rewrite focus_app, focus_up. exact Hf'.
    + intros ->. by destruct f.
    + done.
    + done.
    + done.
    + exact Hin.
Qed.

(** Unlinking a node with an empty child: the other child takes its place. *)
Lemma extract_one s E C d z cz kz vz r pd m :
  focus s E C (mk d z cz kz vz Leaf r) pd → rb ASSOC_BLACK m (plug C (mk d z cz kz vz Leaf r)) →
  ∃ s' pd' nz,
    (transplant z (ptr (e_dummy E) r);; mret (cz, ptr (e_dummy E) r)) s =
      Ret ((cz, ptr (e_dummy E) r), s') ∧
    focus s' (env_add z nz E) C r pd' ∧ (r = Leaf → pd' = par_of (e_dummy E) C) ∧
    removed cz r C ∧ key nz = Some kz ∧ value nz = Some vz.
Proof.
  intros Hf Hrb. destruct (transplant_focus s E C d z cz kz vz r pd Hf) as (s1 & Hs1 & Hf1 & _).
  do 3 eexists. split; [by rewrite (st_bind_Ret _ _ _ _ _ Hs1)|]. split; [exact Hf1|].
  split; [by intros ->|]. split; [by eapply removed_one_child|]. by destruct d.
Qed.

Lemma extract_node_spec fuel s E C z cz l kz vz r pd m : e_heap E = ∅ →
  focus s E C (Node z cz l kz vz r) pd → rb ASSOC_BLACK m (plug C (Node z cz l kz vz r)) →
  length (inorder (plug C (Node z cz l kz vz r))) ≤ fuel →
  ∃ s' T pd' m' nz, assoc_rb_tree_extract_node fuel z s = Ret ((), s') ∧
    focus s' (env_add z nz E) [] T pd' ∧ rb ASSOC_BLACK m' T ∧ (key nz = Some kz ∧ value nz = Some vz) ∧
    inorder T = cleft C ++ inorder l ++ inorder r ++ cright C.
Proof.
  intros HE Hf Hrb Hfuel. unfold assoc_rb_tree_extract_node. do_get.
  pose proof (ptr_not_dummy _ _ _ _ _ Hf) as Hz. cbn [ptr is_leaf negb] in Hz.
  rewrite (focus_dummy _ _ _ _ _ Hf), Hz, st_assert_true by done.
  do_load (focus_lookup s E C L z cz kz vz l r pd Hf). cbn [node_of left right color].
  assert (focus s E (F L z cz kz vz r :: C) l pd) as Hfl by (by apply focus_up).
  assert (focus s E (F R z cz kz vz l :: C) r pd) as Hfr by (by apply focus_up).
  rewrite (ptr_is_dummy _ _ _ _ _ Hfl), (ptr_is_dummy _ _ _ _ _ Hfr).
  assert (∃ s' C' x cy pd' nz,
    (if is_leaf l then transplant z (ptr (e_dummy E) r);; mret (cz, ptr (e_dummy E) r)
     else if is_leaf r then transplant z (ptr (e_dummy E) l);; mret (cz, ptr (e_dummy E) l)
     else splice_succ fuel z (ptr (e_dummy E) r)) s = Ret ((cy, ptr (e_dummy E) x), s') ∧
    focus s' (env_add z nz E) C' x pd' ∧ (x = Leaf → pd' = par_of (e_dummy E) C') ∧
    removed cy x C' ∧ (key nz = Some kz ∧ value nz = Some vz) ∧
    inorder (plug C' x) = cleft C ++ inorder l ++ inorder r ++ cright C)
    as (s1 & C1 & x & cy & pd1 & nz & Hs1 & Hf1 & Hpd1 & Hrem & Hv & Hin).
  2:{ unfold splice_succ in Hs1. cbv zeta in *. rewrite (st_bind_Ret _ _ _ _ _ Hs1). cbn [fst snd].
      assert (length C1 < fuel) as Hlt.
      { pose proof (length_ctx C1 x) as Hlen. rewrite Hin in Hlen. rewrite inorder_plug in Hfuel.
        cbn [inorder] in Hfuel. rewrite !length_app in *. cbn in Hfuel. rewrite ?length_app in Hfuel. cbn in Hfuel. lia. }
      destruct (del_finish fuel s1 (env_add z nz E) C1 x pd1 cy Hf1 Hpd1 Hlt Hrem)
        as (s' & T & m' & Hs' & Hf' & Hrb' & Hin').
      exists s', T, pd1, m', nz. rewrite Hin in Hin'. split; [exact Hs'|]. split_and!; try done; apply Hv. }
  destruct l as [|pl cl ll kl vl lr] eqn:Hl; [|destruct r as [|pr cr rl kr vr rr] eqn:Hr].
  - destruct (extract_one s E C L z cz kz vz r pd m Hf Hrb) as (s' & pd' & nz & Hs & Hf' & Hpd' & Hrem & Hv).
    exists s', C, r, cz, pd', nz. split_and!; try done; try apply Hv. by rewrite inorder_plug.
  - rewrite <-Hl in *.
    destruct (extract_one s E C R z cz kz vz l pd m Hf Hrb) as (s' & pd' & nz & Hs & Hf' & Hpd' & Hrem & Hv).
    exists s', C, l, cz, pd', nz. split; [by rewrite Hl in Hs |- *|]. split_and!; try done; try apply Hv.
    by rewrite inorder_plug.
  - rewrite <-Hl, <-Hr in *. replace (is_leaf l) with false by (by rewrite Hl).
    replace (is_leaf r) with false by (by rewrite Hr).
    eapply extract_two; try done; [by rewrite Hl|by rewrite Hr|].
    pose proof (height_inorder r). rewrite inorder_plug in Hfuel. cbn in Hfuel.
    rewrite !length_app in Hfuel. cbn in Hfuel. lia.
Qed.
End rb_extract_node.

Section rb_extract.
Context {K V : Type} (comp : K → K → Z) `{!Comparator comp}.
#[local] Set Default Proof Using "Type*".
Implicit Types (s : assoc_rb_tree_t K V) (p q : loc) (E : env (K := K) (V := V)).
Abbreviation tree := (tree (K := K) (V := V)).
Abbreviation ctx := (list (frame (K := K) (V := V))).
Implicit Types (t : tree) (C : ctx).
Abbreviation entry := (loc * (K * V))%type.

#[local] Ltac do_load H := rewrite (st_bind_Ret _ _ _ _ _ (load_eq _ _ _ H)).
#[local] Ltac do_get := rewrite (st_bind_Ret st_get _ _ _ _ eq_refl).

(** ** [find_rb_tree] *)

Abbreviation find_path k := (path_ok (λ kp, comp k kp = 1%Z) (λ kp, comp k kp = (-1)%Z)).

Lemma find_path_split k C t : find_path k C → sorted comp (inorder (plug C t)).*2 →
  Forall (λ e, comp k e.1 = (-1)%Z) (cleft C).*2 ∧ Forall (λ e, comp k e.1 = 1%Z) (cright C).*2.
Proof.
  apply (path_split comp (λ kp, comp k kp = 1%Z) (λ kp, comp k kp = (-1)%Z)).
  - intros a b Ha Hab. by apply (comp_lt_le_trans comp k a b).
  - intros a b Hab Hb. rewrite (comp_gt comp) in Hb. rewrite (comp_gt comp). exact (comp_le_lt_trans comp a b k Hab Hb).
Qed.

Lemma find_rb_tree_spec k fuel s E C t pd : focus s E C t pd → height t < fuel → find_path k C →
  ∃ C' t', find_rb_tree comp fuel (ptr (e_dummy E) t) k s = Ret (ptr (e_dummy E) t', s) ∧
    plug C' t' = plug C t ∧ find_path k C' ∧
    match t' with Leaf => True | Node _ _ _ kz _ _ => comp k kz = 0%Z end.
Proof.
  revert C t. induction fuel as [|fuel IH]; intros C t Hf Hlt HC; [lia|]. cbn [find_rb_tree].
  do_get. rewrite (focus_dummy _ _ _ _ _ Hf), (ptr_not_dummy _ _ _ _ _ Hf).
  destruct t as [|p c l kp vp r]; cbn [is_leaf negb]; [by exists C, Leaf|].
  do_load (focus_lookup s E C L p c kp vp l r pd Hf). cbn [node_of key left right comp_keys].
  rewrite (st_bind_Ret (mret _) _ _ _ _ eq_refl). cbn [height] in Hlt.
  destruct (comp_range k kp) as [Hc|[Hc|Hc]]; rewrite Hc; cbn [Z.eqb Z.opp Pos.eqb].
  - destruct (IH (F L p c kp vp r :: C) l) as (C' & t' & Hs & Hp & HC' & Ht');
      [by apply focus_up|lia|by constructor|].
    exists C', t'. split; [exact Hs|done].
  - exists C, (Node p c l kp vp r). split_and!; done.
  - destruct (IH (F R p c kp vp l :: C) r) as (C' & t' & Hs & Hp & HC' & Ht');
      [by apply focus_up|lia|by constructor|].
    exists C', t'. split; [exact Hs|done].
Qed.

(** ** [assoc_rb_tree_extract] *)

(** Unlinking and freeing the node of an entry. *)
Lemma unlink_rep s L1 z k v L2 : rep comp s (L1 ++ (z, (k, v)) :: L2) →
  ∃ s1 nz s2, assoc_rb_tree_extract_node (size s + 2) z s = Ret ((), s1) ∧
    heap s1 !! z = Some nz ∧ key nz = Some k ∧ value nz = Some v ∧
    free_node_rb_tree z s1 = Ret ((), s2) ∧ negb (size s2 =? 0) = true ∧ dummy s2 = dummy s ∧
    rep comp (mk_tree (heap s2) (brk s2) (dummy s2) (root s2) (pred (size s2))) (L1 ++ L2).
Proof.
  intros (T & pd & m & Hf & Hrb & HL & Hsz & Hsort & Hlt).
  destruct (inorder_split _ _ _ _ _ _ HL) as (C & cz & l & r & -> & HL1 & HL2).
  rewrite focus_plug in Hf. cbn [plug foldl] in Hf. rewrite <-focus_plug in Hf.
  destruct (extract_node_spec (size s + 2) s (own_env s) C z cz l k v r pd m eq_refl Hf Hrb)
    as (s1 & T & pd1 & m1 & nz & Hs1 & Hf1 & Hrb1 & [Hk Hv] & HT); [rewrite HL; lia|].
  destruct (eo_other _ _ _ _ _ _ (fo_env _ _ _ _ _ Hf1) z nz (lookup_insert_eq _ _ _)) as [Hnz _].
  destruct (free_focus s1 _ [] T pd1 z nz Hf1) as (s2 & Hs2 & Hf2); [apply lookup_empty|].
  assert (size s2 = size s) as Hsz2 by (destruct Hf2 as [_ _ _ [_ _ -> _ _ _]]; done).
  assert (dummy s2 = dummy s) as Hd by (by rewrite (focus_dummy _ _ _ _ _ Hf2)).
  assert (brk s2 = brk s) as Hb by (destruct Hf2 as [_ _ _ [_ -> _ _ _ _]]; done).
  assert (Hf3 := set_size_focus _ _ _ _ _ pred Hf2).
  exists s1, nz, s2. split_and!; try done.
  { rewrite Hsz2, Hsz, length_app. cbn. by rewrite Nat.add_succ_r. }
  exists T, pd1, m1. split_and!.
  - rewrite (own_env_eq _ _ _ _ _ Hf3); [exact Hf3|done].
  - done.
  - rewrite HT, HL1, HL2. by rewrite <-!(assoc_L (++)).
  - cbn. rewrite Hsz2, Hsz, !length_app. cbn [length]. lia.
  - rewrite fmap_app. rewrite fmap_app in Hsort. by eapply sorted_delete.
  - cbn [brk dummy]. rewrite Hb, Hd. intros q Hq. apply Hlt. revert Hq.
    rewrite !fmap_app. cbn. set_solver.
Qed.

(** Extraction removes one entry with an equal key and frees its node. *)
Lemma extract_rep k s L : rep comp s L → Exists (λ e, comp k e.2.1 = 0%Z) L →
  ∃ s' L1 z k' v L2, assoc_rb_tree_extract comp k s = Ret (v, s') ∧
    L = L1 ++ (z, (k', v)) :: L2 ∧ comp k k' = 0%Z ∧ rep comp s' (L1 ++ L2) ∧
    dummy s' = dummy s.
Proof.
  intros (T & pd & m & Hf & Hrb & HL & Hsz & Hsort & Hlt) Hex.
  unfold assoc_rb_tree_extract. do_get.
  assert (height T < size s + 2) as Hh.
  { pose proof (height_inorder T). rewrite HL in *. lia. }
  destruct (find_rb_tree_spec k (size s + 2) s (own_env s) [] T pd Hf Hh) as (C & t & Hs & Hp & HC & Ht);
    [constructor|].
  assert (root s = ptr (dummy s) T) as Hroot by exact (focus_root _ _ _ _ Hf).
  cbn [e_dummy own_env] in Hs. rewrite <-Hroot in Hs.
  rewrite (st_bind_Ret _ _ _ _ _ Hs). cbn [plug foldl] in Hp. subst T.
  destruct (find_path_split k C t HC) as [HFl HFr]; [by rewrite HL|].
  rewrite focus_plug in Hf. cbn [plug foldl] in Hf. rewrite <-focus_plug in Hf.
  destruct t as [|z cz l kz vz r].
  { exfalso. rewrite inorder_plug in HL. cbn in HL. rewrite Exists_exists in Hex.
    destruct Hex as (e & He & Heq). rewrite <-HL, elem_of_app in He.
    rewrite Forall_fmap, Forall_forall in HFl. rewrite Forall_fmap, Forall_forall in HFr.
    destruct He as [He|He]; [specialize (HFl e He)|specialize (HFr e He)]; cbn in *; lia. }
  pose proof (ptr_not_dummy _ _ _ _ _ Hf) as Hz. cbn [ptr is_leaf negb own_env e_dummy] in Hz |- *.
  rewrite Hz, st_assert_true by done. rewrite inorder_plug in HL. cbn [inorder] in HL.
  rewrite <-(assoc_L (++)) in HL. cbn [app] in HL. rewrite (assoc_L (++)) in HL.
  destruct (unlink_rep s (cleft C ++ inorder l) z kz vz (inorder r ++ cright C))
    as (s1 & nz & s2 & Hs1 & Hnz & _ & Hv & Hs2 & Hsz2 & Hd & Hrep').
  { rewrite HL. do 3 eexists. rewrite focus_plug in Hf. split_and!; try done.
    rewrite <-HL, inorder_plug. cbn. by rewrite <-!(assoc_L (++)). }
  rewrite (st_bind_Ret _ _ _ _ _ Hs1). do_load Hnz.
  rewrite Hv, (st_bind_Ret (mret _) _ _ _ _ eq_refl).
  rewrite (st_bind_Ret _ _ _ _ _ Hs2). do_get. rewrite st_assert_true by done.
  do 6 eexists. split; [reflexivity|]. split_and!; [by rewrite <-HL|done|exact Hrep'|exact Hd].
Qed.

(** Extracting a key that is not there fails the assertion. *)
Lemma extract_absent k s L : rep comp s L → Forall (λ e, comp k e.2.1 ≠ 0%Z) L →
  assoc_rb_tree_extract comp k s = Abort.
Proof.
  intros (T & pd & m & Hf & Hrb & HL & Hsz & Hsort & Hlt) Hall.
  unfold assoc_rb_tree_extract. do_get.
  assert (height T < size s + 2) as Hh.
  { pose proof (height_inorder T). rewrite HL in *. lia. }
  destruct (find_rb_tree_spec k (size s + 2) s (own_env s) [] T pd Hf Hh) as (C & t & Hs & Hp & HC & Ht);
    [constructor|].
  assert (root s = ptr (dummy s) T) as Hroot by exact (focus_root _ _ _ _ Hf).
  cbn [e_dummy own_env] in Hs. rewrite <-Hroot in Hs.
  rewrite (st_bind_Ret _ _ _ _ _ Hs). cbn [plug foldl] in Hp.
  destruct t as [|z cz l kz vz r]; cbn [ptr].
  - by rewrite bool_decide_eq_false_2 by tauto.
  - exfalso. rewrite Forall_forall in Hall. apply (Hall (z, (kz, vz))); [|done].
    rewrite <-HL, <-Hp, inorder_plug. apply elem_of_app. right. apply elem_of_app. left. cbn.
    apply elem_of_app. right. left.
Qed.

(** ** Iteration *)

Lemma front_rep s L : rep comp s L → assoc_rb_tree_front s = Ret (hd_loc (dummy s) L, s).
Proof.
  intros (T & pd & m & Hf & Hrb & HL & Hsz & _). unfold assoc_rb_tree_front. do_get.
  rewrite (focus_root _ _ _ _ Hf), (minimum_hd _ _ _ _ _ _ Hf), HL; [done|].
  pose proof (height_inorder T). rewrite HL in *. lia.
Qed.

(** What an iterator at the entry [(p, (k, v))] gives. *)
Lemma iterator_rep s L1 p k v L2 : rep comp s (L1 ++ (p, (k, v)) :: L2) →
  p ≠ dummy s ∧ assoc_rb_tree_key p s = Ret (k, s) ∧ assoc_rb_tree_value p s = Ret (v, s) ∧
  assoc_rb_tree_next p s = Ret (hd_loc (dummy s) L2, s).
Proof.
  intros (T & pd & m & Hf & Hrb & HL & Hsz & _).
  destruct (inorder_split _ _ _ _ _ _ HL) as (C & c & l & r & -> & -> & ->).
  assert (Hfc := Hf). rewrite focus_plug in Hfc. cbn [plug foldl] in Hfc. rewrite <-focus_plug in Hfc.
  pose proof (ptr_not_dummy _ _ _ _ _ Hfc) as Hz. cbn [ptr is_leaf negb own_env e_dummy] in Hz.
  assert (Hp := focus_lookup s _ C L p c k v l r pd Hfc).
  assert (p ≠ dummy s) as Hne by (by apply bool_decide_eq_true in Hz).
  split; [done|]. split; [|split].
  - unfold assoc_rb_tree_key. do_get. rewrite Hz, st_assert_true by done. by do_load Hp.
  - unfold assoc_rb_tree_value. do_get. rewrite Hz, st_assert_true by done. by do_load Hp.
  - apply (next_spec s (own_env s) C p c l k v r pd Hfc). rewrite HL. lia.
Qed.

Lemma iterate_rep fuel s L1 L2 : rep comp s (L1 ++ L2) → length L2 < fuel →
  iterate fuel (hd_loc (dummy s) L2) s = Ret (L2, s).
Proof.
  revert L1 L2. induction fuel as [|fuel IH]; intros L1 L2 Hrep Hlt; [lia|]. cbn [iterate].
  assert (assoc_rb_tree_end s = Ret (dummy s, s)) as He by done. rewrite (st_bind_Ret _ _ _ _ _ He).
  destruct L2 as [|[p [k v]] L2]; cbn [hd_loc].
  { by rewrite bool_decide_eq_true_2. }
  destruct (iterator_rep s L1 p k v L2 Hrep) as (Hne & Hk & Hv & Hn).
  rewrite bool_decide_eq_false_2, (st_bind_Ret _ _ _ _ _ Hk), (st_bind_Ret _ _ _ _ _ Hv),
    (st_bind_Ret _ _ _ _ _ Hn) by done.
  rewrite (st_bind_Ret _ _ _ _ _ (IH (L1 ++ [(p, (k, v))]) L2 ltac:(by rewrite <-(assoc_L (++)))
    ltac:(cbn in Hlt; lia))). done.
Qed.

Lemma entries_rep s L : rep comp s L → rb_entries s = Ret (L, s).
Proof.
  intros Hrep. unfold rb_entries. do_get. rewrite (st_bind_Ret _ _ _ _ _ (front_rep s L Hrep)).
  apply (iterate_rep _ s [] L Hrep). destruct Hrep as (? & ? & ? & ? & ? & ? & -> & _). lia.
Qed.
End rb_extract.
