(* ===== verification/RbAssoc.v ===== *)
(** * The red-black tree meets the interface of the associative containers *)
From S2P Require Import Prelude AssocSpec RbTree RbHeap RbInsert RbPath RbMap RbExtract.
#[local] Set Warnings "-clear-no-such-hyp".

Section rb_assoc.
Context {K V : Type}.
Implicit Types (s : assoc_rb_tree_t K V).

#[export] Instance rb_tree_assoc : AssocOps K V (assoc_rb_tree_t K V) := {
  a_insert comp k v := assoc_rb_tree_insert comp k v;
  a_extract comp k := assoc_rb_tree_extract comp k;
  a_size := assoc_rb_tree_size;
  a_entries := L ← rb_entries; mret L.*2 }.

Lemma rep_ord_insert (comp : K → K → Z) (k : K) (v : V) p (L1 L2 : list (loc * (K * V))) :
  Forall (λ e, comp k e.1 ≠ 1%Z) L1.*2 → Forall (λ e, comp k e.1 = 1%Z) L2.*2 →
  (L1 ++ (p, (k, v)) :: L2).*2 = ord_insert comp k v (L1 ++ L2).*2.
Proof. intros H1 H2. rewrite !fmap_app. symmetry. by apply ord_insert_split. Qed.

#[export] Program Instance rb_tree_assoc_laws (comp : K → K → Z) `{!Comparator comp} :
  AssocLaws (T := assoc_rb_tree_t K V) comp := { a_rep s L := ∃ Ll, rep comp s Ll ∧ L = Ll.*2 }.
Next Obligation. intros comp ? s L (Ll & (T & pd & m & _ & _ & _ & _ & Hs & _) & ->). done. Qed.
Next Obligation.
  intros comp ? s L (Ll & (T & pd & m & _ & _ & _ & Hs & _) & ->). by rewrite length_fmap.
Qed.
Next Obligation.
  intros comp ? s L (Ll & Hrep & ->). cbn.
  by rewrite (st_bind_Ret _ _ _ _ _ (entries_rep comp s Ll Hrep)).
Qed.
Next Obligation.
  intros comp ? s L k v (Ll & Hrep & ->).
  destruct (insert_rep comp k v s Ll Hrep) as (s' & L1 & L2 & Hs & -> & Hrep' & HF1 & HF2).
  exists s'. split; [done|]. eexists. split; [exact Hrep'|]. symmetry. by apply rep_ord_insert.
Qed.
Next Obligation.
  intros comp ? s L k (Ll & Hrep & ->) Hex. rewrite Exists_fmap in Hex.
  destruct (extract_rep comp k s Ll Hrep Hex) as (s' & L1 & z & k' & v & L2 & Hs & -> & Hk & Hrep' & _).
  exists s', L1.*2, k', v, L2.*2. rewrite !fmap_app. split_and!; try done.
  eexists. split; [exact Hrep'|by rewrite fmap_app].
Qed.
Next Obligation.
  intros comp ? s L k (Ll & Hrep & ->) HF. rewrite Forall_fmap in HF. by eapply extract_absent.
Qed.

(** ** Balance *)

Lemma rb_size c n (t : tree (K := K) (V := V)) : rb c n t → 2 ^ n ≤ S (length (inorder t)).
Proof.
  induction 1 as [|p l k v r n Hl IHl Hr IHr|p l k v r cl cr n Hl IHl Hr IHr]; cbn;
    rewrite ?length_app; cbn; lia.
Qed.

Lemma rb_height c n (t : tree (K := K) (V := V)) : rb c n t →
  height t ≤ 2 * n + match c with ASSOC_RED => 1 | ASSOC_BLACK => 0 end.
Proof.
  induction 1 as [|p l k v r n Hl IHl Hr IHr|p l k v r cl cr n Hl IHl Hr IHr]; cbn in *;
    [done|lia|destruct cl, cr; lia].
Qed.
End rb_assoc.

Section properties.
Context {K V : Type} (comp : K → K → Z) `{!Comparator comp}.
#[local] Set Default Proof Using "Type*".
Implicit Types (s : assoc_rb_tree_t K V).

(** C13. A program of insertions (of keys not in the container), extractions and
    full iterations sees the same outputs from the red-black tree as from the
    sorted sequence of entries, false assertions included. *)
Theorem rb_tree_run_refines (os : list (assoc_op K V)) :
  fresh_run comp os [] = true →
  outputs (a_run comp os assoc_rb_tree_init) = outputs (a_run (T := list (K * V)) comp os []).
Proof.
  intros Hfr. apply (a_run_refines comp os assoc_rb_tree_init []); [|constructor|done].
  exists []. split; [apply rep_init|done].
Qed.

(** C34. [assoc_rb_tree_insert] returns on every well-formed tree, duplicates
    included: the tree is again a red-black tree with exactly one more node, at
    a new location, placed after the entries whose key is not greater; no other
    node is moved or lost. *)
Theorem rb_insert_correct k v s L : rep comp s L →
  ∃ s' L1 L2, assoc_rb_tree_insert comp k v s = Ret ((), s') ∧ L = L1 ++ L2 ∧
    rep comp s' (L1 ++ (brk s, (k, v)) :: L2) ∧
    (L1 ++ (brk s, (k, v)) :: L2).*2 = ord_insert comp k v L.*2.
Proof.
  intros Hrep. destruct (insert_rep comp k v s L Hrep) as (s' & L1 & L2 & Hs & -> & Hrep' & HF1 & HF2).
  exists s', L1, L2. split_and!; try done. by apply rep_ord_insert.
Qed.

(** C35. [assoc_rb_tree_extract] of a key that is in the tree returns the value
    of an entry with that key, and leaves a red-black tree of the other nodes;
    the removed node is freed. *)
Theorem rb_extract_correct k s L : rep comp s L → Exists (λ e, comp k e.2.1 = 0%Z) L →
  ∃ s' L1 z k' v L2, assoc_rb_tree_extract comp k s = Ret (v, s') ∧
    L = L1 ++ (z, (k', v)) :: L2 ∧ comp k k' = 0%Z ∧ rep comp s' (L1 ++ L2) ∧ heap s' !! z = None.
Proof.
  intros Hrep Hex.
  destruct (extract_rep comp k s L Hrep Hex) as (s' & L1 & z & k' & v & L2 & Hs & -> & Hk & Hrep' & Hd).
  exists s', L1, z, k', v, L2. split_and!; try done.
  destruct (heap s' !! z) as [n|] eqn:Hz; [|done]. exfalso.
  assert (is_Some (heap s' !! z)) as Hsome by (by rewrite Hz).
  apply (proj2 (rep_heap _ _ _ Hrep')) in Hsome. apply rep_heap in Hrep as [Hnd _].
  rewrite Hd in Hsome. rewrite !fmap_app in *. cbn in Hnd.
  rewrite <-Permutation_middle, perm_swap in Hnd. by apply NoDup_cons in Hnd as [Hnd _].
Qed.

(** Extracting a key that is not in the tree fails an assertion. *)
Theorem rb_extract_absent_aborts k s L : rep comp s L → Forall (λ e, comp k e.2.1 ≠ 0%Z) L →
  assoc_rb_tree_extract comp k s = Abort.
Proof. apply (extract_absent comp). Qed.

(** The iterators of a well-formed tree: the loop from [assoc_front] to
    [assoc_end] visits every entry once, in key order, and changes nothing. *)
Theorem rb_iteration_correct s L : rep comp s L →
  rb_entries s = Ret (L, s) ∧ sorted comp L.*2 ∧ length L = assoc_rb_tree_size s.
Proof.
  intros Hrep. split; [by eapply (entries_rep comp)|]. destruct Hrep as (T & pd & m & _ & _ & _ & Hs & Hsort & _).
  done.
Qed.

(** C36. A lookup visits at most [2 * log2 (n + 1) + 1] nodes of a tree of [n]
    entries, and finds an entry with the key if there is one. *)
Theorem rb_lookup_logarithmic k s L fuel : rep comp s L →
  2 * Nat.log2 (S (length L)) < fuel →
  ∃ p, find_rb_tree comp fuel (root s) k s = Ret (p, s) ∧
    if fresh_key comp k L.*2 then p = dummy s
    else ∃ k' v, (p, (k', v)) ∈ L ∧ comp k k' = 0%Z.
Proof.
  intros (T & pd & m & Hf & Hrb & HL & Hsz & Hsort & _) Hfuel.
  assert (height T < fuel) as Hh.
  { pose proof (rb_height _ _ _ Hrb) as Hh. cbv iota in Hh.
    pose proof (rb_size _ _ _ Hrb) as Hn. rewrite HL in Hn.
    apply Nat.log2_le_pow2 in Hn; lia. }
  destruct (find_rb_tree_spec comp k fuel s (own_env s) [] T pd Hf Hh) as (C & t & Hs & Hp & HC & Ht);
    [constructor|].
  assert (root s = ptr (dummy s) T) as Hroot by exact (focus_root _ _ _ _ Hf).
  cbn [e_dummy own_env] in Hs. rewrite <-Hroot in Hs. eexists. split; [exact Hs|].
  cbn [plug foldl] in Hp. rewrite <-Hp in HL.
  destruct (find_path_split comp k C t HC) as [HFl HFr]; [by rewrite HL|].
  rewrite inorder_plug in HL. destruct (fresh_key comp k L.*2) eqn:Hfr.
  - apply fresh_key_spec in Hfr. destruct t as [|z cz l kz vz r]; [done|]. exfalso.
    rewrite Forall_fmap, Forall_forall in Hfr. apply (Hfr (z, (kz, vz))); [|done].
    rewrite <-HL. set_solver.
  - destruct t as [|z cz l kz vz r]; cbn [ptr].
    + exfalso. apply not_fresh_key, Exists_exists in Hfr as (e & He & Heq).
      rewrite <-HL in He. cbn in He. rewrite fmap_app, elem_of_app in He.
      rewrite Forall_forall in HFl, HFr.
      destruct He as [He|He]; [specialize (HFl e He)|specialize (HFr e He)]; cbn in *; lia.
    + exists kz, vz. split; [|done]. rewrite <-HL. set_solver.
Qed.
End properties.

(** ** The theorems at concrete trees *)

(** Keys 5, 3, 8, ... with the usual order. *)
Definition ops_ex : list (assoc_op Z Z) :=
  [OpInsert 5%Z 50%Z; OpInsert 3%Z 30%Z; OpInsert 8%Z 80%Z; OpInsert 1%Z 10%Z; OpInsert 4%Z 40%Z;
   OpInsert 2%Z 20%Z; OpInsert 9%Z 90%Z; OpEntries; OpExtract 3%Z; OpExtract 5%Z; OpExtract 9%Z; OpEntries;
   OpExtract 3%Z].

Lemma rb_tree_run_refines_witness :
  fresh_run cmp_up ops_ex [] = true ∧
  outputs (a_run cmp_up ops_ex assoc_rb_tree_init) =
  outputs (a_run (T := list (Z * Z)) cmp_up ops_ex []).
Proof. split; [vm_compute; reflexivity|]. apply (rb_tree_run_refines cmp_up ops_ex). vm_compute. reflexivity. Defined.

Lemma rb_insert_correct_witness : ∃ s' L1 L2,
  assoc_rb_tree_insert cmp_up 5%Z 50%Z assoc_rb_tree_init = Ret ((), s') ∧ [] = L1 ++ L2 ∧
  rep cmp_up s' (L1 ++ (3%positive, (5, 50)%Z) :: L2) ∧
  (L1 ++ (3%positive, (5, 50)%Z) :: L2).*2 = ord_insert cmp_up 5%Z 50%Z [].
Proof. apply (rb_insert_correct cmp_up 5%Z 50%Z assoc_rb_tree_init []). apply rep_init. Defined.

(** The tree after two insertions. *)
Lemma two_rep : ∃ s, rep cmp_up s [(4%positive, (3, 30)%Z); (3%positive, (5, 50)%Z)].
Proof.
  destruct (insert_rep cmp_up 5%Z 50%Z _ _ (rep_init cmp_up)) as (s1 & L1 & L2 & Hs1 & HL & Hrep & _).
  symmetry in HL. apply app_eq_nil in HL as [-> ->]. vm_compute in Hs1. injection Hs1 as <-.
  destruct (insert_rep cmp_up 3%Z 30%Z _ _ Hrep) as (s2 & L1 & L2 & Hs2 & HL & Hrep2 & H1 & _).
  exists s2. destruct L1 as [|e L1]; cbn in HL.
  - subst L2. exact Hrep2.
  - injection HL as <- _. apply Forall_cons_iff in H1 as [H1 _]. by contradict H1.
Qed.

Lemma rb_extract_correct_witness : ∃ s s' L1 z k' v L2,
  assoc_rb_tree_extract cmp_up 3%Z s = Ret (v, s') ∧
  [(4%positive, (3, 30)%Z); (3%positive, (5, 50)%Z)] = L1 ++ (z, (k', v)) :: L2 ∧
  cmp_up 3%Z k' = 0%Z ∧ rep cmp_up s' (L1 ++ L2) ∧ heap s' !! z = None.
Proof.
  destruct two_rep as [s Hs]. exists s. apply (rb_extract_correct cmp_up 3%Z s _ Hs).
  left. reflexivity.
Defined.

Lemma rb_extract_absent_aborts_witness :
  ∃ s, assoc_rb_tree_extract cmp_up 4%Z s = Abort ∧
       rep cmp_up s [(4%positive, (3, 30)%Z); (3%positive, (5, 50)%Z)].
Proof.
  destruct two_rep as [s Hs]. exists s. split; [|exact Hs].
  apply (rb_extract_absent_aborts cmp_up 4%Z s _ Hs). repeat constructor; discriminate.
Defined.

Lemma rb_iteration_correct_witness : ∃ s,
  rb_entries s = Ret ([(4%positive, (3, 30)%Z); (3%positive, (5, 50)%Z)], s) ∧
  sorted cmp_up [(3, 30)%Z; (5, 50)%Z] ∧ 2 = assoc_rb_tree_size s.
Proof. destruct two_rep as [s Hs]. exists s. apply (rb_iteration_correct cmp_up s _ Hs). Defined.

Lemma rb_lookup_logarithmic_witness : ∃ (s : assoc_rb_tree_t Z Z) p,
  find_rb_tree cmp_up 3 (root s) 5%Z s = Ret (p, s) ∧
  if fresh_key cmp_up 5%Z [(3, 30)%Z; (5, 50)%Z] then p = dummy s
  else ∃ k' v, (p, (k', v)) ∈ [(4%positive, (3, 30)%Z); (3%positive, (5, 50)%Z)] ∧ cmp_up 5%Z k' = 0%Z.
Proof.
  destruct two_rep as [s Hs]. exists s. apply (rb_lookup_logarithmic cmp_up 5%Z s _ 3 Hs).
  cbn. lia.
Defined.
