(* ===== verification/RbFree.v ===== *)
(** * The red-black tree: release of a node and of the whole tree *)
From S2P Require Import Prelude AssocSpec RbTree RbHeap RbRotate RbLink RbInsert RbDelete RbPath RbMap RbExtract RbAssoc.
#[local] Set Warnings "-clear-no-such-hyp".

Section rb_free.
Context {K V : Type}.
Implicit Types (s : assoc_rb_tree_t K V) (p q : loc).
Abbreviation tree := (tree (K := K) (V := V)).
Implicit Types (t : tree).

#[local] Ltac do_load H := rewrite (st_bind_Ret _ _ _ _ _ (load_eq _ _ _ H)).
#[local] Ltac do_get := rewrite (st_bind_Ret st_get _ _ _ _ eq_refl).

(** The call [f(node->key, node->value)] for an entry. *)
Definition call_of (e : loc * (K * V)) : option K * option V := (Some e.2.1, Some e.2.2).

Lemma depth_first_search_free_spec fuel s d par t :
  d = dummy s → tree_at d (heap s) par t → NoDup (d :: locs t) → height t < fuel →
  ∃ h calls, depth_first_search_free fuel (ptr d t) s = Ret (calls, with_heap h s) ∧
    (∀ q, q ∈ locs t → h !! q = None) ∧ (∀ q, q ∉ locs t → h !! q = heap s !! q) ∧
    calls ≡ₚ call_of <$> inorder t.
Proof.
  intros ->. revert s par t. induction fuel as [|fuel IH]; intros s par t Ht Hnd Hlt; [lia|].
  cbn [depth_first_search_free]. do_get. destruct t as [|p c l k v r]; cbn [ptr].
  { rewrite bool_decide_eq_false_2 by tauto. exists (heap s), []. split; [by destruct s|].
    split; [|done]. intros q Hq. by apply not_elem_of_nil in Hq. }
  cbn in Ht, Hlt, Hnd. destruct Ht as (Hp & Hl & Hr).
  rewrite !NoDup_cons, NoDup_app, not_elem_of_cons, not_elem_of_app in Hnd.
  destruct Hnd as ((Hdp & Hdl & Hdr) & Hpn & Hndl & Hdis & Hndr).
  rewrite not_elem_of_app in Hpn. destruct Hpn as [Hpl Hpr].
  rewrite bool_decide_eq_true_2 by done. do_load Hp. cbn [left].
  destruct (IH s p l) as (hl & cl & Hsl & Hinl & Houtl & Hcl); [done|by constructor|lia|].
  rewrite (st_bind_Ret _ _ _ _ _ Hsl).
  assert (heap (with_heap hl s) !! p = heap s !! p) as Hp' by (by apply Houtl).
  rewrite Hp in Hp'. do_load Hp'. cbn [right].
  assert (tree_at (dummy s) (heap (with_heap hl s)) p r) as Hr'.
  { eapply tree_at_frame; [|exact Hr]. intros q Hq. apply Houtl. intros Hql. by eapply Hdis. }
  destruct (IH (with_heap hl s) p r) as (hr & cr & Hsr & Hinr & Houtr & Hcr);
    [done|by constructor|lia|]. cbn [dummy with_heap heap] in *.
  rewrite (st_bind_Ret _ _ _ _ _ Hsr).
  assert (heap (with_heap hr (with_heap hl s)) !! p = Some (mk_node (Some k) (Some v) par
    (ptr (dummy s) l) (ptr (dummy s) r) c)) as Hp2 by (cbn; by rewrite Houtr).
  do_load Hp2. erewrite st_bind_Ret by (unfold free_node_rb_tree; rewrite Hp2; reflexivity).
  exists (delete p hr). eexists. split; [reflexivity|]. split_and!.
  - intros q Hq. destruct (decide (p = q)) as [->|Hne]; [apply lookup_delete_eq|].
    rewrite lookup_delete_ne by done. destruct (decide (q ∈ locs r)) as [Hqr|Hqr]; [by apply Hinr|].
    rewrite Houtr by done. apply Hinl. set_solver.
  - intros q Hq. cbn in Hq. rewrite not_elem_of_cons, not_elem_of_app in Hq. destruct Hq as (Hq1 & Hq2 & Hq3).
    rewrite lookup_delete_ne by done. by rewrite Houtr, Houtl.
  - cbn. rewrite Hcl, Hcr, fmap_app. cbn. apply Permutation_app_head. by rewrite Permutation_app_comm.
Qed.
End rb_free.

Section properties.
Context {K V : Type} (comp : K → K → Z).
Implicit Types (s : assoc_rb_tree_t K V).

(** The nodes and the calls of [assoc_rb_tree_free]. *)
Lemma rb_tree_free_rep s L : rep comp s L →
  ∃ s' calls, assoc_rb_tree_free s = Ret (calls, s') ∧ heap s' = ∅ ∧ calls ≡ₚ call_of <$> L.
Proof.
  intros Hrep. pose proof (rep_heap _ _ _ Hrep) as [Hnd Hdom].
  destruct Hrep as (T & pd & m & Hf & _ & <- & Hsz & _). unfold assoc_rb_tree_free.
  rewrite (st_bind_Ret st_get _ _ _ _ eq_refl).
  pose proof (height_inorder T) as Hh.
  destruct (depth_first_search_free_spec (size s + 2) s (dummy s) (dummy s) T) as
    (h & calls & Hs & Hin & Hout & Hc); [done|apply Hf|by rewrite inorder_locs in Hnd|lia|].
  assert (root s = ptr (dummy s) T) as -> by exact (focus_root _ _ _ _ Hf).
  rewrite (st_bind_Ret _ _ _ _ _ Hs), (st_bind_Ret st_get _ _ _ _ eq_refl). cbn [dummy with_heap].
  rewrite inorder_locs in Hnd. apply NoDup_cons in Hnd as [Hdn _].
  assert (h !! dummy s = Some (mk_node None None pd NULL NULL ASSOC_BLACK)) as Hd.
  { rewrite Hout by done. apply Hf. }
  erewrite st_bind_Ret by (unfold free_node_rb_tree; cbn; rewrite Hd; reflexivity).
  do 2 eexists. split; [reflexivity|]. split; [|done]. cbn. apply map_eq. intros q.
  rewrite lookup_empty. destruct (decide (dummy s = q)) as [<-|Hne]; [apply lookup_delete_eq|].
  rewrite lookup_delete_ne by done. destruct (decide (q ∈ locs T)) as [Hq|Hq]; [by apply Hin|].
  rewrite Hout by done. destruct (heap s !! q) eqn:Hq2; [|done]. exfalso.
  assert (q ∈ dummy s :: (inorder T).*1) as Hq3 by (apply Hdom; by rewrite Hq2).
  apply elem_of_cons in Hq3 as [->|Hq3]; [done|]. by rewrite inorder_locs in Hq3.
Qed.

(** C37. [assoc_rb_tree_free] frees every node once, the sentinel included, and
    calls [free_func] exactly once for every entry. *)
Theorem rb_free_correct s L : rep comp s L →
  ∃ s' calls, assoc_rb_tree_free s = Ret (calls, s') ∧ heap s' = ∅ ∧ calls ≡ₚ call_of <$> L.
Proof. apply rb_tree_free_rep. Qed.

Context `{!Comparator comp}.
#[local] Set Default Proof Using "Type*".

Lemma free_it_rep s L1 z k v L2 : rep comp s (L1 ++ (z, (k, v)) :: L2) →
  ∃ s', assoc_rb_tree_free_it z s = Ret ((Some k, Some v), s') ∧ rep comp s' (L1 ++ L2).
Proof.
  intros Hrep. destruct (iterator_rep comp s L1 z k v L2 Hrep) as (Hne & _).
  destruct (unlink_rep comp s L1 z k v L2 Hrep) as (s1 & nz & s2 & Hs1 & Hnz & Hk & Hv & Hs2 & Hsz & _ & Hrep').
  unfold assoc_rb_tree_free_it. rewrite (st_bind_Ret st_get _ _ _ _ eq_refl).
  rewrite st_assert_true by (by apply bool_decide_eq_true).
  rewrite (st_bind_Ret _ _ _ _ _ Hs1), (st_bind_Ret _ _ _ _ _ (load_eq _ _ _ Hnz)).
  rewrite (st_bind_Ret _ _ _ _ _ Hs2), (st_bind_Ret st_get _ _ _ _ eq_refl), st_assert_true by done.
  rewrite Hk, Hv. eexists. split; [reflexivity|exact Hrep'].
Qed.

(** [assoc_rb_tree_free_it] removes the entry of its iterator, and no
    other, whatever the keys. *)
Theorem rb_free_it_correct s L1 z k v L2 : rep comp s (L1 ++ (z, (k, v)) :: L2) →
  ∃ s', assoc_rb_tree_free_it z s = Ret ((Some k, Some v), s') ∧ rep comp s' (L1 ++ L2).
Proof. apply free_it_rep. Qed.
End properties.

(** ** The theorems at a concrete tree *)

Lemma rb_free_correct_witness : ∃ (s s' : assoc_rb_tree_t Z Z) calls,
  assoc_rb_tree_free s = Ret (calls, s') ∧ heap s' = ∅ ∧
  calls ≡ₚ [(Some 3%Z, Some 30%Z); (Some 5%Z, Some 50%Z)].
Proof. destruct two_rep as [s Hs]. exists s. apply (rb_free_correct cmp_up s _ Hs). Defined.

Lemma rb_free_it_correct_witness : ∃ s s',
  assoc_rb_tree_free_it 3%positive s = Ret ((Some 5%Z, Some 50%Z), s') ∧
  rep cmp_up s' [(4%positive, (3, 30)%Z)].
Proof.
  destruct two_rep as [s Hs]. exists s.
  apply (rb_free_it_correct cmp_up s [(4%positive, (3, 30)%Z)] 3%positive 5%Z 50%Z [] Hs).
Defined.
