(* ===== verification/AssocIter.v ===== *)
(** * Iterators of the associative containers

    The iterator operations of [assoc_generic.h] as an interface, the search
    [find_if_rb_tree] of [src/src/util/alg_ds/alg/find.c] over it, and the
    instance of the red-black tree. *)
From S2P Require Import Prelude AssocSpec RbTree RbHeap RbPath RbMap RbExtract RbAssoc.
#[local] Set Warnings "-clear-no-such-hyp".

Class AssocIterOps (K V T I : Type) := {
  a_front : st T I;
  a_end : st T I;
  a_next : I → st T I;
  a_key : I → st T K;
  a_value : I → st T V;
  #[global] a_it_eq :: EqDecision I }.

(** [a_it_at t L i it]: the iterator [it] of [t] stands at position [i] of the
    entries [L]; the end is at position [length L]. *)
Class AssocIterLaws {K V T I : Type} (comp : K → K → Z)
    `{AL : AssocLaws K V T comp} `{!AssocIterOps K V T I} := {
  a_it_at : T → list (K * V) → nat → I → Prop;
  a_it_inj t L i j it it' : a_rep t L → i ≤ length L → j ≤ length L →
    a_it_at t L i it → a_it_at t L j it' → it = it' → i = j;
  a_it_fun t L i it it' : a_rep t L → a_it_at t L i it → a_it_at t L i it' → it = it';
  a_front_ok t L : a_rep t L → ∃ it, a_front t = Ret (it, t) ∧ a_it_at t L 0 it;
  a_end_ok t L : a_rep t L → ∃ it, a_end t = Ret (it, t) ∧ a_it_at t L (length L) it;
  a_next_ok t L i it : a_rep t L → a_it_at t L i it → i < length L →
    ∃ it', a_next it t = Ret (it', t) ∧ a_it_at t L (S i) it';
  a_entry_ok t L i it k v : a_rep t L → a_it_at t L i it → L !! i = Some (k, v) →
    a_key it t = Ret (k, t) ∧ a_value it t = Ret (v, t) }.

Section find_if.
Context {K V T I : Type} `{AO : AssocOps K V T} `{AI : !AssocIterOps K V T I}.

(** [find_if_rb_tree]; [f k] is [f(value, key)]. *)
Fixpoint find_if_rb_tree (fuel : nat) (f : K → bool) (start_it end_it : I) : st T I :=
  match fuel with
  | O => st_no_fuel
  | S fuel =>
    if bool_decide (start_it = end_it) then mret start_it
    else k ← a_key start_it;
         if f k then mret start_it
         else start_it ← a_next start_it;
              find_if_rb_tree fuel f start_it end_it
  end.

(** The search as all callers make it: from [assoc_front] to [assoc_end]. *)
Definition find_in_tree (f : K → bool) : st T (option I) :=
  t ← st_get;
  it ← a_front;
  end_it ← a_end;
  it ← find_if_rb_tree (S (a_size t)) f it end_it;
  mret (if bool_decide (it = end_it) then None else Some it).
End find_if.

Section laws.
Context {K V T I : Type} (comp : K → K → Z) `{AL : AssocLaws K V T comp}
  `{AI : !AssocIterOps K V T I} `{AIL : !AssocIterLaws comp}.

(** The loops compare their iterator with the end. *)
Lemma it_neq_end t L i it e : a_rep t L → a_it_at t L i it → a_it_at t L (length L) e → i ≤ length L →
  if bool_decide (it = e) then i = length L else i < length L.
Proof using AIL.
  intros Hrep Hit He Hi. case_bool_decide as Heq.
  - by apply (a_it_inj t L i (length L) it e).
  - destruct (decide (i = length L)) as [->|]; [|lia]. exfalso. apply Heq. by eapply (a_it_fun t L).
Qed.

Lemma find_if_spec fuel f t L i it e : a_rep t L → a_it_at t L i it → a_it_at t L (length L) e →
  i ≤ length L → length L - i < fuel →
  ∃ j it', find_if_rb_tree fuel f it e t = Ret (it', t) ∧ a_it_at t L j it' ∧ i ≤ j ≤ length L ∧
    Forall (λ e, f e.1 = false) (take (j - i) (drop i L)) ∧
    match L !! j with Some e => f e.1 = true | None => True end.
Proof using AIL.
  intros Hrep. revert i it. induction fuel as [|fuel IH]; intros i it Hit He Hi Hf; [lia|].
  cbn [find_if_rb_tree]. destruct (decide (it = e)) as [->|Hne].
  - rewrite bool_decide_eq_true_2 by done.
    assert (i = length L) as -> by (eapply (a_it_inj t L); eauto).
    exists (length L), e. rewrite Nat.sub_diag, lookup_ge_None_2 by done. cbn. eauto 10.
  - rewrite bool_decide_eq_false_2 by done. assert (i < length L) as Hlt.
    { destruct (decide (i = length L)) as [->|]; [|lia]. exfalso. apply Hne. by eapply (a_it_fun t L). }
    destruct (lookup_lt_is_Some_2 L i Hlt) as [[k v] Hk].
    destruct (a_entry_ok t L i it k v Hrep Hit Hk) as [Hkey _].
    rewrite (st_bind_Ret _ _ _ _ _ Hkey). destruct (f k) eqn:Hfk.
    + exists i, it. rewrite Nat.sub_diag, Hk. cbn. eauto 10.
    + destruct (a_next_ok t L i it Hrep Hit Hlt) as (it2 & Hn & Hit2).
      rewrite (st_bind_Ret _ _ _ _ _ Hn).
      destruct (IH (S i) it2 Hit2 He) as (j & it' & Hs & Hj & Hij & HF & Hm); [lia|lia|].
      exists j, it'. split; [done|]. split; [done|]. split; [lia|]. split; [|done].
      rewrite (drop_S L (k, v) i Hk). replace (j - i) with (S (j - S i)) by lia. cbn. by constructor.
Qed.

(** The search finds the first entry whose key satisfies [f], if there is one,
    and changes nothing. *)
Lemma find_in_tree_spec f t L : a_rep t L →
  ∃ r, find_in_tree f t = Ret (r, t) ∧
    match r with
    | None => Forall (λ e, f e.1 = false) L
    | Some it => ∃ j k v, a_it_at t L j it ∧ L !! j = Some (k, v) ∧ f k = true ∧
        Forall (λ e, f e.1 = false) (take j L)
    end.
Proof using AIL.
  intros Hrep. unfold find_in_tree. rewrite (st_bind_Ret st_get _ _ _ _ eq_refl).
  destruct (a_front_ok t L Hrep) as (it & Hf & Hit). rewrite (st_bind_Ret _ _ _ _ _ Hf).
  destruct (a_end_ok t L Hrep) as (e & He & Hie). rewrite (st_bind_Ret _ _ _ _ _ He).
  destruct (find_if_spec (S (a_size t)) f t L 0 it e Hrep Hit Hie) as (j & it' & Hs & Hj & Hij & HF & Hm);
    [lia|rewrite (a_rep_size t L Hrep); lia|].
  rewrite (st_bind_Ret _ _ _ _ _ Hs). eexists. split; [done|].
  rewrite Nat.sub_0_r, drop_0 in HF. destruct (decide (it' = e)) as [->|Hne].
  - rewrite bool_decide_eq_true_2 by done. assert (j = length L) as ->.
    { apply (a_it_inj t L j (length L) e e); try done. lia. }
    by rewrite firstn_all in HF.
  - rewrite bool_decide_eq_false_2 by done. destruct (L !! j) as [[k v]|] eqn:Hk.
    + exists j, k, v. done.
    + exfalso. apply Hne. apply lookup_ge_None in Hk. assert (j = length L) as -> by lia.
      by eapply (a_it_fun t L).
Qed.
End laws.

(** ** The reference implementation: positions of the sequence *)

#[export] Instance list_iter {K V} : AssocIterOps K V (list (K * V)) nat := {
  a_front := λ L, Ret (0, L);
  a_end := λ L, Ret (length L, L);
  a_next i := λ L, if decide (i < length L) then Ret (S i, L) else Undef;
  a_key i := λ L, match L !! i with Some e => Ret (e.1, L) | None => Undef end;
  a_value i := λ L, match L !! i with Some e => Ret (e.2, L) | None => Undef end;
  a_it_eq := _ }.

#[export] Program Instance list_iter_laws {K V} (comp : K → K → Z) `{!Comparator comp} :
  AssocIterLaws (V := V) (T := list (K * V)) (I := nat) comp := { a_it_at t L i it := it = i }.
Next Obligation. naive_solver. Qed.
Next Obligation. naive_solver. Qed.
Next Obligation. intros K V comp ? t L _. by exists 0. Qed.
Next Obligation. intros K V comp ? t L [-> _]. by eexists. Qed.
Next Obligation.
  intros K V comp ? t L i it [-> _] -> Hi. exists (S i). split; [|done]. cbn.
  by rewrite decide_True.
Qed.
Next Obligation. intros K V comp ? t L i it k v [-> _] -> Hk. cbn. by rewrite Hk. Qed.

(** ** The red-black tree *)

Section rb_iter.
Context {K V : Type}.
Implicit Types (s : assoc_rb_tree_t K V).

#[export] Instance rb_tree_iter : AssocIterOps K V (assoc_rb_tree_t K V) loc := {
  a_front := assoc_rb_tree_front;
  a_end := assoc_rb_tree_end;
  a_next := assoc_rb_tree_next;
  a_key := assoc_rb_tree_key;
  a_value := assoc_rb_tree_value;
  a_it_eq := _ }.

Definition rb_it_at (comp : K → K → Z) s (L : list (K * V)) (i : nat) (it : loc) : Prop :=
  ∃ Ll, rep comp s Ll ∧ L = Ll.*2 ∧ it = hd_loc (dummy s) (drop i Ll) ∧ i ≤ length L.

Lemma rep_unique (comp : K → K → Z) `{!Comparator comp} s Ll Ll' :
  rep comp s Ll → rep comp s Ll' → Ll = Ll'.
Proof.
  intros H1 H2. apply (entries_rep comp) in H1, H2. rewrite H1 in H2. by injection H2.
Qed.

Lemma drop_lookup {A} (L : list A) i : i < length L → ∃ x, drop i L = x :: drop (S i) L ∧ L !! i = Some x.
Proof. intros [x Hx]%lookup_lt_is_Some_2. exists x. split; [by apply drop_S|done]. Qed.

#[export] Program Instance rb_tree_iter_laws (comp : K → K → Z) `{!Comparator comp} :
  AssocIterLaws (T := assoc_rb_tree_t K V) (I := loc) comp := { a_it_at := rb_it_at comp }.
Next Obligation.
  intros comp ? s L i j it it' _ Hi Hj (Ll & Hrep & -> & Hit & _) (Ll' & Hrep' & _ & Hit' & _) <-.
  rewrite (rep_unique comp s Ll' Ll Hrep' Hrep) in Hit'. rewrite length_fmap in *.
  apply rep_heap in Hrep as [Hnd _]. rewrite Hit in Hit'. clear -Hi Hj Hit' Hnd.
  apply NoDup_cons in Hnd as [Hd Hnd].
  assert (∀ i x, Ll !! i = Some x → x.1 ≠ dummy s) as Hdum.
  { intros n x Hx Heq. apply Hd. rewrite <-Heq. apply list_elem_of_fmap. exists x. split; [done|].
    by eapply list_elem_of_lookup_2. }
  destruct (decide (i < length Ll)) as [Hli|Hli], (decide (j < length Ll)) as [Hlj|Hlj]; [| | |lia].
  - destruct (drop_lookup Ll i Hli) as ([pi ei] & Hdi & Hxi), (drop_lookup Ll j Hlj) as ([pj ej] & Hdj & Hxj).
    rewrite Hdi, Hdj in Hit'. cbn in Hit'. subst pj.
    eapply NoDup_lookup; [exact Hnd| |]; rewrite list_lookup_fmap; [by rewrite Hxi|by rewrite Hxj].
  - destruct (drop_lookup Ll i Hli) as ([pi ei] & Hdi & Hxi). rewrite Hdi, (drop_ge Ll j) in Hit' by lia.
    by apply Hdum in Hxi.
  - destruct (drop_lookup Ll j Hlj) as ([pj ej] & Hdj & Hxj). rewrite Hdj, (drop_ge Ll i) in Hit' by lia.
    by apply Hdum in Hxj.
Qed.
Next Obligation.
  intros comp ? s L i it it' _ (Ll & Hrep & -> & -> & _) (Ll' & Hrep' & _ & -> & _).
  by rewrite (rep_unique comp s Ll Ll' Hrep Hrep').
Qed.
Next Obligation.
  intros comp ? s L (Ll & Hrep & ->). eexists. split; [by apply (front_rep comp)|].
  exists Ll. rewrite drop_0. split_and!; try done. lia.
Qed.
Next Obligation.
  intros comp ? s L (Ll & Hrep & ->). eexists. split; [reflexivity|].
  exists Ll. rewrite length_fmap, drop_ge by done. done.
Qed.
Next Obligation.
  intros comp ? s L i it _ (Ll & Hrep & -> & -> & _) Hlt. rewrite length_fmap in *.
  destruct (drop_lookup Ll i Hlt) as ([p [k v]] & Hd & Hx).
  assert (Ll = take i Ll ++ (p, (k, v)) :: drop (S i) Ll) as HLl by (by rewrite <-Hd, take_drop).
  assert (Hrep2 := Hrep). rewrite HLl in Hrep2.
  destruct (iterator_rep comp s _ p k v _ Hrep2) as (_ & _ & _ & Hn).
  rewrite Hd. cbn [hd_loc a_next rb_tree_iter]. eexists. split; [exact Hn|].
  exists Ll. rewrite length_fmap. split_and!; try done.
Qed.
Next Obligation.
  intros comp ? s L i it k v _ (Ll & Hrep & -> & -> & _) Hk.
  rewrite list_lookup_fmap in Hk. destruct (Ll !! i) as [[p e]|] eqn:Hx; [|done].
  injection Hk as ->. assert (Ll = take i Ll ++ (p, (k, v)) :: drop (S i) Ll) as HLl.
  { symmetry. by apply take_drop_middle. }
  rewrite (drop_S _ _ _ Hx). cbn [hd_loc]. rewrite HLl in Hrep.
  destruct (iterator_rep comp s _ p k v _ Hrep) as (_ & Hkey & Hval & _). done.
Qed.
End rb_iter.
