(* ===== verification/AssocFree.v ===== *)
(** * More operations of the associative containers

    [assoc_init] and [assoc_free_it] of [assoc_generic.h], with what the code
    that uses them relies on, for the red-black tree and for the sequences. *)
From S2P Require Import Prelude AssocSpec RbTree RbHeap RbPath RbMap RbExtract RbAssoc RbFree AssocIter.
#[local] Set Warnings "-clear-no-such-hyp".

Class AssocFreeOps (K V T I : Type) := {
  a_init : T;
  a_free_it : I → st T () }.

Class AssocFreeLaws {K V T I : Type} (comp : K → K → Z)
    `{AIL : AssocIterLaws K V T I comp} `{!AssocFreeOps K V T I} := {
  a_init_ok : a_rep a_init [];
  a_free_it_ok t L i it : a_rep t L → a_it_at t L i it → i < length L →
    ∃ t', a_free_it it t = Ret ((), t') ∧ a_rep t' (delete i L) }.

#[export] Instance list_free {K V} : AssocFreeOps K V (list (K * V)) nat := {
  a_init := [];
  a_free_it i := λ L, if decide (i < length L) then Ret ((), delete i L) else Undef }.

Lemma sorted_delete_nth {K V} (comp : K → K → Z) (L : list (K * V)) i : sorted comp L → sorted comp (delete i L).
Proof.
  destruct (L !! i) as [e|] eqn:He.
  - rewrite <-(take_drop_middle L i e He) at 1. rewrite delete_take_drop. apply sorted_delete.
  - apply lookup_ge_None in He. by rewrite delete_take_drop, take_ge, drop_ge, app_nil_r by lia.
Qed.

#[export] Program Instance list_free_laws {K V} (comp : K → K → Z) `{!Comparator comp} :
  AssocFreeLaws (V := V) (T := list (K * V)) (I := nat) comp.
Next Obligation. intros K V comp ?. split; [done|constructor]. Qed.
Next Obligation.
  intros K V comp ? t L i it [-> Hs] -> Hi. eexists. split; [cbn; by rewrite decide_True|].
  split; [done|by apply sorted_delete_nth].
Qed.

Section rb_free.
Context {K V : Type}.

#[export] Instance rb_tree_free : AssocFreeOps K V (assoc_rb_tree_t K V) loc := {
  a_init := assoc_rb_tree_init;
  a_free_it it := _ ← assoc_rb_tree_free_it it; mret () }.

#[export] Program Instance rb_tree_free_laws (comp : K → K → Z) `{!Comparator comp} :
  AssocFreeLaws (T := assoc_rb_tree_t K V) (I := loc) comp.
Next Obligation. intros comp ?. exists []. split; [apply rep_init|done]. Qed.
Next Obligation.
  intros comp ? s L i it _ (Ll & Hrep & -> & -> & _) Hlt. rewrite length_fmap in Hlt.
  destruct (drop_lookup Ll i Hlt) as ([p [k v]] & Hd & Hx).
  assert (Ll = take i Ll ++ (p, (k, v)) :: drop (S i) Ll) as HLl by (by rewrite <-Hd, take_drop).
  rewrite Hd. cbn [hd_loc]. rewrite HLl in Hrep.
  destruct (free_it_rep comp s _ p k v _ Hrep) as (s' & Hs' & Hrep').
  exists s'. split; [cbn; by rewrite (st_bind_Ret _ _ _ _ _ Hs')|].
  exists (take i Ll ++ drop (S i) Ll). split; [done|].
  by rewrite delete_take_drop, fmap_app, fmap_take, fmap_drop.
Qed.
End rb_free.
