(* ===== verification/BiMap.v ===== *)
(** * The bidirectional map [bi_map_t]

    [src/src/util/alg_ds/ds/assoc_container/bimap.c], over any implementation of
    the associative containers: [left] maps key 1 to key 2, [right] maps key 2
    to key 1. *)
From S2P Require Import Prelude AssocSpec.
#[local] Set Warnings "-clear-no-such-hyp".

Section bi_map.
Context {K1 K2 TL TR : Type} `{OL : AssocOps K1 K2 TL} `{OR : AssocOps K2 K1 TR}.
Context (comp1 : K1 → K1 → Z) (comp2 : K2 → K2 → Z).

(** [right_free]: [map->right.free_func != NULL]. *)
Record bi_map_t := mk_bi_map { left : TL; right : TR; right_free : bool }.

Abbreviation M := (st bi_map_t).

(** The code on [&map->left], on [&map->right]. *)
Definition on_left {A} (m : st TL A) : M A := λ b,
  '(a, l) ← m (left b); Ret (a, mk_bi_map l (right b) (right_free b)).
Definition on_right {A} (m : st TR A) : M A := λ b,
  '(a, r) ← m (right b); Ret (a, mk_bi_map (left b) r (right_free b)).

(** [val1], [val2] are copies of the keys. *)
Definition bi_map_insert (key1 : K1) (key2 : K2) : M () :=
  let val1 := key2 in
  st_assert (comp2 key2 val1 =? 0)%Z;;
  on_left (a_insert comp1 key1 val1);;
  let val2 := key1 in
  st_assert (comp1 key1 val2 =? 0)%Z;;
  on_right (a_insert comp2 key2 val2).

Definition bi_map_extract_left (key1 : K1) : M K2 :=
  key2 ← on_left (a_extract comp1 key1);
  key3 ← on_right (a_extract comp2 key2);
  st_assert (comp1 key1 key3 =? 0)%Z;;
  map ← st_get;
  st_assert (a_size (left map) =? a_size (right map));;
  mret key2.

Definition bi_map_extract_right (key2 : K2) : M K1 :=
  key1 ← on_right (a_extract comp2 key2);
  key3 ← on_left (a_extract comp1 key1);
  st_assert (comp2 key2 key3 =? 0)%Z;;
  map ← st_get;
  st_assert (right_free map);;
  st_assert (a_size (left map) =? a_size (right map));;
  mret key1.

Definition bi_map_size : M nat :=
  map ← st_get;
  st_assert (a_size (left map) =? a_size (right map));;
  mret (a_size (left map)).

(** ** The reference: a list of pairs *)

Fixpoint take_pair (f : K1 * K2 → bool) (P : list (K1 * K2)) : option ((K1 * K2) * list (K1 * K2)) :=
  match P with
  | [] => None
  | p :: P => if f p then Some (p, P)
              else '(q, P') ← take_pair f P; Some (q, p :: P')
  end.

Inductive bm_op := BmInsert (k1 : K1) (k2 : K2) | BmLeft (k1 : K1) | BmRight (k2 : K2) | BmSize.
Inductive bm_out := BmUnit | BmKey2 (k2 : K2) | BmKey1 (k1 : K1) | BmNat (n : nat).

Definition bm_step (o : bm_op) : M bm_out :=
  match o with
  | BmInsert k1 k2 => bi_map_insert k1 k2;; mret BmUnit
  | BmLeft k1 => k2 ← bi_map_extract_left k1; mret (BmKey2 k2)
  | BmRight k2 => k1 ← bi_map_extract_right k2; mret (BmKey1 k1)
  | BmSize => n ← bi_map_size; mret (BmNat n)
  end.

Definition pairs_step (o : bm_op) : st (list (K1 * K2)) bm_out := λ P,
  match o with
  | BmInsert k1 k2 => Ret (BmUnit, (k1, k2) :: P)
  | BmLeft k1 =>
      match take_pair (λ p, comp1 k1 p.1 =? 0)%Z P with
      | Some (p, P') => Ret (BmKey2 p.2, P')
      | None => Abort
      end
  | BmRight k2 =>
      match take_pair (λ p, comp2 k2 p.2 =? 0)%Z P with
      | Some (p, P') => Ret (BmKey1 p.1, P')
      | None => Abort
      end
  | BmSize => Ret (BmNat (length P), P)
  end.

Definition bm_run_with {S} (step : bm_op → st S bm_out) : list bm_op → st S (list bm_out) :=
  fix go os := match os with
               | [] => mret []
               | o :: os => x ← step o; xs ← go os; mret (x :: xs)
               end.
Definition bm_run := bm_run_with bm_step.
Definition pairs_run := bm_run_with pairs_step.

(** Insertions are of keys that are not in the map, on either side. *)
Definition fresh_pair (k1 : K1) (k2 : K2) (P : list (K1 * K2)) : bool :=
  forallb (λ p, negb (comp1 k1 p.1 =? 0)%Z && negb (comp2 k2 p.2 =? 0)%Z) P.

Fixpoint bm_fresh (os : list bm_op) (P : list (K1 * K2)) : bool :=
  match os with
  | [] => true
  | o :: os =>
      match o with BmInsert k1 k2 => fresh_pair k1 k2 P | _ => true end &&
      match pairs_step o P with Ret (_, P') => bm_fresh os P' | _ => true end
  end.

(** ** The invariant *)

Context `{!Comparator comp1} `{!Comparator comp2}.
Context `{LL : !AssocLaws (T := TL) comp1} `{LR : !AssocLaws (T := TR) comp2}.

Definition swap (p : K1 * K2) : K2 * K1 := (p.2, p.1).

(** Both containers hold the pairs [P], one per key on either side. *)
Definition bm_rep (b : bi_map_t) (P : list (K1 * K2)) : Prop := ∃ L R,
  a_rep (left b) L ∧ a_rep (right b) R ∧ strict comp1 L ∧ strict comp2 R ∧
  L ≡ₚ P ∧ R ≡ₚ swap <$> P ∧ right_free b = true.

Lemma on_left_Ret {A} (m : st TL A) b a l : m (left b) = Ret (a, l) →
  on_left m b = Ret (a, mk_bi_map l (right b) (right_free b)).
Proof using Type. unfold on_left. by intros ->. Qed.

Lemma on_right_Ret {A} (m : st TR A) b a r : m (right b) = Ret (a, r) →
  on_right m b = Ret (a, mk_bi_map (left b) r (right_free b)).
Proof using Type. unfold on_right. by intros ->. Qed.

Lemma fresh_pair_spec k1 k2 P : fresh_pair k1 k2 P = true ↔
  Forall (λ p, comp1 k1 p.1 ≠ 0%Z) P ∧ Forall (λ p, comp2 k2 p.2 ≠ 0%Z) P.
Proof using Type.
  unfold fresh_pair. induction P as [|p P IH]; cbn; [done|].
  rewrite !andb_true_iff, !negb_true_iff, !Z.eqb_neq, IH, !Forall_cons_iff. tauto.
Qed.

Lemma take_pair_Some f P p P' : take_pair f P = Some (p, P') → f p = true ∧ P ≡ₚ p :: P'.
Proof using Type.
  revert p P'. induction P as [|q P IH]; intros p P'; cbn; [done|]. destruct (f q) eqn:Hf.
  - intros [= <- <-]. done.
  - destruct (take_pair f P) as [[q' Q]|] eqn:Ht; cbn; [|done]. intros [= <- <-].
    destruct (IH q' Q eq_refl) as [Hq ->]. split; [done|]. apply perm_swap.
Qed.

Lemma take_pair_None f P : take_pair f P = None → Forall (λ p, f p = false) P.
Proof using Type.
  induction P as [|q P IH]; cbn; [constructor|]. destruct (f q) eqn:Hf; [done|].
  destruct (take_pair f P) as [[q' Q]|]; cbn; [done|]. intros _. constructor; auto.
Qed.

(** Removing the pair [p] from either side. *)
Lemma extract_pair {K V T} (comp : K → K → Z) `{!Comparator comp} `{O : AssocOps K V T}
    `{A : !AssocLaws (T := T) comp} t L k p : a_rep t L → strict comp L → p ∈ L → comp k p.1 = 0%Z →
  ∃ t' L', a_extract comp k t = Ret (p.2, t') ∧ a_rep t' L' ∧ strict comp L' ∧ L ≡ₚ p :: L'.
Proof using Type.
  intros Hrep Hs Hp Hk.
  destruct (a_extract_ok t L k Hrep) as (t' & L1 & k' & v & L2 & Hx & -> & Hk' & Hrep').
  { apply Exists_exists. by exists p. }
  assert ((k', v) = p) as <- by (by eapply (strict_member comp k)).
  exists t', (L1 ++ L2). split_and!; try done; [by eapply strict_delete|].
  by rewrite Permutation_middle.
Qed.

Lemma elem_of_swap (P : list (K1 * K2)) p : p ∈ P → swap p ∈ swap <$> P.
Proof using Type. intros Hp. by apply list_elem_of_fmap_2. Qed.

Lemma bm_rep_sizes b P : bm_rep b P →
  a_size (left b) = length P ∧ a_size (right b) = length P ∧
  (a_size (left b) =? a_size (right b)) = true.
Proof using Type.
  intros (L & R & HL & HR & _ & _ & HPL & HPR & _).
  rewrite (a_rep_size _ _ HL), (a_rep_size _ _ HR), HPL, HPR, length_fmap.
  by rewrite Nat.eqb_refl.
Qed.

Lemma absent_Forall {K V} (comp : K → K → Z) k (L L' : list (K * V)) : L ≡ₚ L' →
  Forall (λ p, (comp k p.1 =? 0)%Z = false) L' → Forall (λ e, comp k e.1 ≠ 0%Z) L.
Proof using Type.
  intros -> HF. eapply Forall_impl; [exact HF|]. intros e. by rewrite Z.eqb_neq.
Qed.

Lemma bm_rep_perm b P P' : P ≡ₚ P' → bm_rep b P → bm_rep b P'.
Proof using Type.
  intros HP (L & R & HL & HR & HsL & HsR & HPL & HPR & Hfree). exists L, R.
  split_and!; try done; by rewrite <-HP.
Qed.

Lemma bm_insert_ok b P k1 k2 : bm_rep b P → fresh_pair k1 k2 P = true →
  ∃ b', bi_map_insert k1 k2 b = Ret ((), b') ∧ bm_rep b' ((k1, k2) :: P).
Proof using Comparator0 Comparator1.
  intros (L & R & HL & HR & HsL & HsR & HPL & HPR & Hfree) [HF1 HF2]%fresh_pair_spec.
  destruct (a_insert_ok _ L k1 k2 HL) as (l' & Hl & HL').
  destruct (a_insert_ok _ R k2 k1 HR) as (r' & Hr & HR').
  exists (mk_bi_map l' r' true). split.
  - unfold bi_map_insert. cbv zeta. rewrite (comp_refl comp1), (comp_refl comp2). cbn.
    rewrite (st_bind_Ret _ _ _ _ _ eq_refl), (st_bind_Ret _ _ _ _ _ (on_left_Ret _ _ _ _ Hl)).
    rewrite (st_bind_Ret _ _ _ _ _ eq_refl). erewrite on_right_Ret by exact Hr. cbn. by rewrite Hfree.
  - exists (ord_insert comp1 k1 k2 L), (ord_insert comp2 k2 k1 R). split_and!; try done.
    + apply ord_insert_strict; [done..|]. by rewrite HPL.
    + apply ord_insert_strict; [done..|]. rewrite HPR, Forall_fmap. done.
    + by rewrite ord_insert_perm, HPL.
    + by rewrite ord_insert_perm, HPR.
Qed.

(** Taking one pair out of both sides. *)
Lemma bm_remove b P p k1 k2 : bm_rep b P → p ∈ P → comp1 k1 p.1 = 0%Z → comp2 k2 p.2 = 0%Z →
  ∃ l' r' P', a_extract comp1 k1 (left b) = Ret (p.2, l') ∧ a_extract comp2 k2 (right b) = Ret (p.1, r') ∧
    P ≡ₚ p :: P' ∧ bm_rep (mk_bi_map l' r' true) P'.
Proof using Comparator0 Comparator1.
  intros (L & R & HL & HR & HsL & HsR & HPL & HPR & Hfree) Hp H1 H2.
  destruct (extract_pair comp1 _ L k1 p HL HsL) as (l' & L' & Hl & HL' & HsL' & HPL');
    [by rewrite HPL|done|].
  destruct (extract_pair comp2 _ R k2 (swap p) HR HsR) as (r' & R' & Hr & HR' & HsR' & HPR');
    [rewrite HPR; by apply elem_of_swap|done|].
  exists l', r', L'. split_and!; [done|done|by rewrite <-HPL|]. exists L', R'. split_and!; try done.
  rewrite HPR, <-HPL, HPL' in HPR'. cbn in HPR'. by apply Permutation_cons_inv in HPR'.
Qed.

Lemma bm_left_ok b P p k1 : bm_rep b P → p ∈ P → comp1 k1 p.1 = 0%Z →
  ∃ b' P', bi_map_extract_left k1 b = Ret (p.2, b') ∧ P ≡ₚ p :: P' ∧ bm_rep b' P'.
Proof using Comparator0 Comparator1.
  intros Hb Hp H1.
  destruct (bm_remove b P p k1 p.2 Hb Hp H1 (comp_refl comp2 _)) as (l' & r' & P' & Hl & Hr & HP & Hb').
  exists (mk_bi_map l' r' true), P'. split_and!; [|done..]. unfold bi_map_extract_left.
  rewrite (st_bind_Ret _ _ _ _ _ (on_left_Ret _ _ _ _ Hl)).
  erewrite st_bind_Ret by (apply on_right_Ret; exact Hr). cbn [left right right_free].
  assert (right_free b = true) as -> by (by destruct Hb as (? & ? & ? & ? & ? & ? & ? & ? & ?)).
  rewrite H1, (st_bind_Ret _ _ _ _ _ eq_refl), (st_bind_Ret st_get _ _ _ _ eq_refl).
  destruct (bm_rep_sizes _ _ Hb') as (_ & _ & ->). done.
Qed.

Lemma bm_right_ok b P p k2 : bm_rep b P → p ∈ P → comp2 k2 p.2 = 0%Z →
  ∃ b' P', bi_map_extract_right k2 b = Ret (p.1, b') ∧ P ≡ₚ p :: P' ∧ bm_rep b' P'.
Proof using Comparator0 Comparator1.
  intros Hb Hp H2.
  destruct (bm_remove b P p p.1 k2 Hb Hp (comp_refl comp1 _) H2) as (l' & r' & P' & Hl & Hr & HP & Hb').
  exists (mk_bi_map l' r' true), P'. split_and!; [|done..]. unfold bi_map_extract_right.
  rewrite (st_bind_Ret _ _ _ _ _ (on_right_Ret _ _ _ _ Hr)).
  erewrite st_bind_Ret by (apply on_left_Ret; exact Hl). cbn [left right right_free].
  assert (right_free b = true) as -> by (by destruct Hb as (? & ? & ? & ? & ? & ? & ? & ? & ?)).
  rewrite H2, (st_bind_Ret _ _ _ _ _ eq_refl), (st_bind_Ret st_get _ _ _ _ eq_refl).
  rewrite (st_bind_Ret _ _ _ _ _ eq_refl).
  destruct (bm_rep_sizes _ _ Hb') as (_ & _ & ->). done.
Qed.

Lemma bm_left_absent b P k1 : bm_rep b P → Forall (λ p, (comp1 k1 p.1 =? 0)%Z = false) P →
  bi_map_extract_left k1 b = Abort.
Proof using Type.
  intros (L & R & HL & _ & _ & _ & HPL & _) HF. unfold bi_map_extract_left, on_left, mbind, st_bind.
  by rewrite (a_extract_absent _ L k1 HL (absent_Forall _ _ _ _ HPL HF)).
Qed.

Lemma bm_right_absent b P k2 : bm_rep b P → Forall (λ p, (comp2 k2 p.2 =? 0)%Z = false) P →
  bi_map_extract_right k2 b = Abort.
Proof using Type.
  intros (L & R & _ & HR & _ & _ & _ & HPR & _) HF. unfold bi_map_extract_right, on_right, mbind, st_bind.
  rewrite (a_extract_absent _ R k2 HR); [done|]. apply (absent_Forall _ _ _ _ HPR). by rewrite Forall_fmap.
Qed.

Lemma bm_step_refines o b P : bm_rep b P →
  match o with BmInsert k1 k2 => fresh_pair k1 k2 P = true | _ => True end →
  (∃ x b' P', bm_step o b = Ret (x, b') ∧ pairs_step o P = Ret (x, P') ∧ bm_rep b' P') ∨
  (bm_step o b = Abort ∧ pairs_step o P = Abort).
Proof using Comparator0 Comparator1.
  intros Hb. destruct o as [k1 k2|k1|k2|].
  - intros Hfr. left. destruct (bm_insert_ok b P k1 k2 Hb Hfr) as (b' & Hi & Hb').
    exists BmUnit, b', ((k1, k2) :: P). cbn. by rewrite (st_bind_Ret _ _ _ _ _ Hi).
  - intros _. cbn. destruct (take_pair _ P) as [[p P']|] eqn:Ht.
    + apply take_pair_Some in Ht as [Hk%Z.eqb_eq Hperm]. left.
      destruct (bm_left_ok b P p k1 Hb) as (b' & Q & Hx & HQ & Hb'); [rewrite Hperm; left|done|].
      exists (BmKey2 p.2), b', P'. rewrite (st_bind_Ret _ _ _ _ _ Hx). split_and!; [done..|].
      apply (bm_rep_perm _ Q); [|done]. rewrite Hperm in HQ. by apply Permutation_cons_inv in HQ.
    + right. unfold mbind, st_bind. by rewrite (bm_left_absent b P k1 Hb (take_pair_None _ _ Ht)).
  - intros _. cbn. destruct (take_pair _ P) as [[p P']|] eqn:Ht.
    + apply take_pair_Some in Ht as [Hk%Z.eqb_eq Hperm]. left.
      destruct (bm_right_ok b P p k2 Hb) as (b' & Q & Hx & HQ & Hb'); [rewrite Hperm; left|done|].
      exists (BmKey1 p.1), b', P'. rewrite (st_bind_Ret _ _ _ _ _ Hx). split_and!; [done..|].
      apply (bm_rep_perm _ Q); [|done]. rewrite Hperm in HQ. by apply Permutation_cons_inv in HQ.
    + right. unfold mbind, st_bind. by rewrite (bm_right_absent b P k2 Hb (take_pair_None _ _ Ht)).
  - intros _. left. destruct (bm_rep_sizes b P Hb) as (Hsz & _ & Heq).
    exists (BmNat (length P)), b, P. split_and!; [|done|done]. cbn. unfold bi_map_size.
    rewrite !st_bind_assoc, (st_bind_Ret st_get _ _ _ _ eq_refl), Heq, Hsz. done.
Qed.

Lemma bm_run_ok os b P : bm_rep b P → bm_fresh os P = true →
  outputs (bm_run os b) = outputs (pairs_run os P).
Proof using Comparator0 Comparator1 LL LR.
  revert b P. induction os as [|o os IH]; intros b P Hb Hfr; [done|].
  cbn [bm_fresh] in Hfr. apply andb_true_iff in Hfr as [Hk Hfr].
  change (bm_run (o :: os)) with (x ← bm_step o; xs ← bm_run os; mret (x :: xs)).
  change (pairs_run (o :: os)) with (x ← pairs_step o; xs ← pairs_run os; mret (x :: xs)).
  destruct (bm_step_refines o b P Hb) as [(x & b' & P' & Hx & Hy & Hb')|[Hx Hy]].
  - by destruct o.
  - rewrite Hy in Hfr. rewrite (st_bind_Ret _ _ _ _ _ Hx), (st_bind_Ret _ _ _ _ _ Hy).
    by rewrite !outputs_map, (IH b' P' Hb' Hfr).
  - unfold mbind, st_bind. by rewrite Hx, Hy.
Qed.
End bi_map.
