(* ===== verification/BiMapRb.v ===== *)
(** * [bi_map_t] over red-black trees

    [assoc_generic.h] selects the red-black tree for both sides; [bi_map_free] frees both. *)
From S2P Require Import Prelude AssocSpec BiMap RbTree RbHeap RbMap RbAssoc RbFree.

Section bi_map_rb.
Context {K1 K2 : Type} (comp1 : K1 → K1 → Z) (comp2 : K2 → K2 → Z).

Abbreviation bi_map := (bi_map_t (TL := assoc_rb_tree_t K1 K2) (TR := assoc_rb_tree_t K2 K1)).

(** [free2]: whether the caller passes a function to free the right keys. *)
Definition bi_map_init (free2 : bool) : bi_map :=
  mk_bi_map assoc_rb_tree_init assoc_rb_tree_init free2.

(** What [free1] and [free2] are called with. *)
Definition bi_map_free : st bi_map (list (option K1 * option K2) * list (option K2 * option K1)) :=
  calls1 ← on_left assoc_rb_tree_free;
  calls2 ← on_right assoc_rb_tree_free;
  mret (calls1, calls2).

Context `{!Comparator comp1} `{!Comparator comp2}.
#[local] Set Default Proof Using "Type*".

(** C14. A program of insertions (of pairs of new keys), extractions from either
    side and size queries sees from [bi_map_t] what it sees from a list of
    pairs: both sides stay inverse of each other, no assertion of [bimap.c] is
    false except for the extraction of an absent key. *)
Theorem bi_map_run_refines (os : list bm_op) : bm_fresh comp1 comp2 os [] = true →
  outputs (bm_run comp1 comp2 os (bi_map_init true)) = outputs (pairs_run comp1 comp2 os []).
Proof.
  intros Hfr. apply (bm_run_ok comp1 comp2 os (bi_map_init true) []); [|done].
  exists [], []. split_and!; try done; [| |constructor|constructor];
    exists []; (split; [apply rep_init|done]).
Qed.

(** Freeing a map frees all its memory, and gives every pair once to the function of
    either side. *)
Lemma bi_map_free_ok (b : bi_map) (P : list (K1 * K2)) : bm_rep comp1 comp2 b P →
  ∃ b' calls1 calls2, bi_map_free b = Ret ((calls1, calls2), b') ∧ RbTree.heap (BiMap.left b') = ∅ ∧ RbTree.heap (BiMap.right b') = ∅ ∧
    calls1 ≡ₚ (λ p, (Some p.1, Some p.2)) <$> P ∧ calls2 ≡ₚ (λ p, (Some p.2, Some p.1)) <$> P.
Proof.
  intros (L & R & (Ll & HL & ->) & (Lr & HR & ->) & _ & _ & HP1 & HP2 & _).
  destruct (rb_tree_free_rep comp1 _ _ HL) as (l' & calls1 & Hl & Hh1 & Hc1).
  destruct (rb_tree_free_rep comp2 _ _ HR) as (r' & calls2 & Hr & Hh2 & Hc2).
  unfold bi_map_free. rewrite (st_bind_Ret _ _ _ _ _ (on_left_Ret _ _ _ _ Hl)).
  erewrite st_bind_Ret by (by apply on_right_Ret).
  do 3 eexists. split; [reflexivity|]. split_and!; cbn; [done..| |].
  - rewrite Hc1, <-HP1, <-list_fmap_compose. done.
  - rewrite Hc2. transitivity ((λ p : K2 * K1, (Some p.1, Some p.2)) <$> (swap <$> P)); [rewrite <-HP2, <-list_fmap_compose; done|].
    by rewrite <-list_fmap_compose.
Qed.
End bi_map_rb.

(** Two pairs with the same right key do not fit: the second insertion succeeds,
    and the extraction of the second left key then finds the first pair on the
    right and fails the comparison of the keys. *)
Lemma bi_map_duplicate_right_aborts :
  outputs (bm_run cmp_up cmp_up [BmInsert 1 7; BmInsert 2 7; BmSize]%Z (bi_map_init true)) =
    Ret [BmUnit; BmUnit; BmNat 2] ∧
  bm_run cmp_up cmp_up [BmInsert 1 7; BmInsert 2 7; BmLeft 2]%Z (bi_map_init true) = Abort.
Proof. vm_compute. done. Qed.

Definition bm_ops_ex : list (bm_op (K1 := Z) (K2 := Z)) :=
  [BmInsert 4 40; BmInsert 2 90; BmInsert 7 10; BmSize; BmLeft 2; BmRight 10; BmSize; BmLeft 2]%Z.

Lemma bi_map_run_refines_witness :
  bm_fresh cmp_up cmp_up bm_ops_ex [] = true ∧
  outputs (bm_run cmp_up cmp_up bm_ops_ex (bi_map_init true)) =
  outputs (pairs_run cmp_up cmp_up bm_ops_ex []).
Proof.
  split; [vm_compute; reflexivity|]. apply (bi_map_run_refines cmp_up cmp_up bm_ops_ex).
  vm_compute. reflexivity.
Defined.

