(* ===== verification/RicIds.v ===== *)
(** * Identifiers of the RIC and their orders

    Request ids, E2 node ids, socket addresses and pending events, with the
    comparison functions the containers are ordered by. *)
From S2P Require Import Prelude AssocSpec.
#[local] Set Warnings "-clear-no-such-hyp".

(** ** [ric_gen_id_t], [src/src/lib/e2ap/v2_03/e2ap_types/common/ric_gen_id.c] *)

Record ric_gen_id_t := mk_ric_gen_id {
  ric_req_id : Z;      (** uint32_t *)
  ric_inst_id : Z;     (** uint16_t *)
  ran_func_id : Z }.   (** uint16_t *)
#[export] Instance ric_gen_id_eq_dec : EqDecision ric_gen_id_t.
Proof. solve_decision. Defined.

Definition eq_ric_gen_id (m0 m1 : ric_gen_id_t) : bool :=
  (ric_req_id m0 =? ric_req_id m1)%Z && (ric_inst_id m0 =? ric_inst_id m1)%Z &&
  (ran_func_id m0 =? ran_func_id m1)%Z.

Definition cmp_ric_gen_id (m0 m1 : ric_gen_id_t) : Z :=
  if (ran_func_id m0 <? ran_func_id m1)%Z then 1
  else if (ran_func_id m0 >? ran_func_id m1)%Z then -1
  else if (ric_inst_id m0 <? ric_inst_id m1)%Z then 1
  else if (ric_inst_id m0 >? ric_inst_id m1)%Z then -1
  else if (ric_req_id m0 <? ric_req_id m1)%Z then 1
  else if (ric_req_id m0 >? ric_req_id m1)%Z then -1
  else 0.

(** One step of such a chain of comparisons. *)
Lemma cmp_chain (x y r : Z) :
  (if (x <? y)%Z then 1%Z else if (x >? y)%Z then (-1)%Z else r) = lex (cmp_up x y) r.
Proof.
  unfold lex, cmp_up. rewrite Z.gtb_ltb.
  destruct (Z.ltb_spec x y), (Z.ltb_spec y x), (Z.eqb_spec x y); try lia; done.
Qed.

Lemma comparator_ext {K} (c c' : K → K → Z) :
  (∀ a b, c a b = c' a b) → Comparator c' → Comparator c.
Proof.
  intros Heq H. split; intros; rewrite !Heq in *;
    [apply comp_range|apply (comp_flip (comp := c'))|by eapply (comp_trans (comp := c'))].
Qed.

#[export] Instance cmp_ric_gen_id_comparator : Comparator cmp_ric_gen_id.
Proof.
  apply (comparator_ext _ (λ a b, lex (cmp_up (ran_func_id a) (ran_func_id b))
    (lex (cmp_up (ric_inst_id a) (ric_inst_id b))
      (lex (cmp_up (ric_req_id a) (ric_req_id b)) ((λ _ _, 0%Z) a b))))).
  - intros a b. unfold cmp_ric_gen_id. by rewrite !cmp_chain.
  - assert (Comparator (λ _ _ : ric_gen_id_t, 0%Z)) by (split; auto; lia). exact _.
Qed.

Lemma eq_ric_gen_id_spec m0 m1 : eq_ric_gen_id m0 m1 = true ↔ m0 = m1.
Proof.
  unfold eq_ric_gen_id. rewrite !andb_true_iff, !Z.eqb_eq. destruct m0, m1; cbn.
  split; [intros [[-> ->] ->]; done|by intros [= -> -> ->]].
Qed.

Lemma cmp_up_eq x y : cmp_up x y = 0%Z ↔ x = y.
Proof. unfold cmp_up. destruct (Z.ltb_spec x y), (Z.eqb_spec x y); split; intros; lia. Qed.

Lemma lex_eq a b : lex a b = 0%Z ↔ a = 0%Z ∧ b = 0%Z.
Proof. unfold lex. destruct (Z.eqb_spec a 0); naive_solver. Qed.

Lemma cmp_ric_gen_id_eq m0 m1 : cmp_ric_gen_id m0 m1 = 0%Z ↔ m0 = m1.
Proof.
  unfold cmp_ric_gen_id. rewrite !cmp_chain, !lex_eq, !cmp_up_eq. destruct m0, m1; cbn.
  split; [by intros (-> & -> & -> & _)|by intros [= -> -> ->]].
Qed.

(** ** [global_e2_node_id_t], [.../common/e2ap_global_node_id.c], [e2ap_plmn.c],
    [src/src/lib/3gpp/ie/e2ap_gnb_id.c] *)

Record e2ap_plmn_t := mk_plmn { mcc : Z; mnc : Z; mnc_digit_len : Z }.
Record e2ap_gnb_id_t := mk_gnb_id { nb_id_ : Z; unused : Z }.

(** [cu_du_id] is a pointer to a uint64_t, or NULL. *)
Record global_e2_node_id_t := mk_global_e2_node_id {
  type : Z;
  plmn : e2ap_plmn_t;
  nb_id : e2ap_gnb_id_t;
  cu_du_id : option Z }.
#[export] Instance plmn_eq_dec : EqDecision e2ap_plmn_t.
Proof. solve_decision. Defined.
#[export] Instance gnb_id_eq_dec : EqDecision e2ap_gnb_id_t.
Proof. solve_decision. Defined.
#[export] Instance global_e2_node_id_eq_dec : EqDecision global_e2_node_id_t.
Proof. solve_decision. Defined.

(** [ngran_node_t] and the macros of [src/src/util/ngran_types.h]. *)
Definition ngran_gNB : Z := 2.
Definition NODE_IS_CU (t : Z) : bool :=
  (t =? 3)%Z || (t =? 4)%Z || (t =? 5)%Z || (t =? 9)%Z || (t =? 10)%Z.
Definition NODE_IS_DU (t : Z) : bool := (t =? 6)%Z || (t =? 7)%Z.
Definition NODE_IS_CUUP (t : Z) : bool := (t =? 10)%Z.

Definition eq_e2ap_plmn (m0 m1 : e2ap_plmn_t) : bool :=
  (mcc m0 =? mcc m1)%Z && (mnc m0 =? mnc m1)%Z && (mnc_digit_len m0 =? mnc_digit_len m1)%Z.

Definition cmp_e2ap_plmn (m0 m1 : e2ap_plmn_t) : Z :=
  if (mcc m0 <? mcc m1)%Z then -1 else if (mcc m0 >? mcc m1)%Z then 1
  else if (mnc m0 <? mnc m1)%Z then -1 else if (mnc m0 >? mnc m1)%Z then 1
  else if (mnc_digit_len m0 <? mnc_digit_len m1)%Z then -1
  else if (mnc_digit_len m0 >? mnc_digit_len m1)%Z then 1
  else 0.

Definition eq_e2ap_gnb_id (m0 m1 : e2ap_gnb_id_t) : bool :=
  (nb_id_ m0 =? nb_id_ m1)%Z && (unused m0 =? unused m1)%Z.

(** The arguments are distinct objects. *)
Definition eq_global_e2_node_id (m0 m1 : global_e2_node_id_t) : outcome bool :=
  if negb (type m0 =? type m1)%Z then Ret false
  else if negb (eq_e2ap_plmn (plmn m0) (plmn m1)) then Ret false
  else if negb (eq_e2ap_gnb_id (nb_id m0) (nb_id m1)) then Ret false
  else if NODE_IS_CUUP (type m0) || NODE_IS_DU (type m0) then
    match cu_du_id m0, cu_du_id m1 with
    | Some c0, Some c1 => Ret (c0 =? c1)%Z
    | _, _ => Abort
    end
  else Ret true.

Definition cmp_global_e2_node_id (m0 m1 : global_e2_node_id_t) : outcome Z :=
  if (type m0 <? type m1)%Z then Ret (-1)%Z else if (type m0 >? type m1)%Z then Ret 1%Z
  else
    let rc := cmp_e2ap_plmn (plmn m0) (plmn m1) in
    if negb (rc =? 0)%Z then Ret rc
    else if (nb_id_ (nb_id m0) <? nb_id_ (nb_id m1))%Z then Ret (-1)%Z
    else if (nb_id_ (nb_id m0) >? nb_id_ (nb_id m1))%Z then Ret 1%Z
    else if (unused (nb_id m0) <? unused (nb_id m1))%Z then Ret 1%Z
    else if (unused (nb_id m0) >? unused (nb_id m1))%Z then Ret (-1)%Z
    else if NODE_IS_CU (type m0) || NODE_IS_CUUP (type m0) || NODE_IS_DU (type m0) then
      match cu_du_id m0, cu_du_id m1 with
      | Some c0, Some c1 =>
          if (c0 <? c1)%Z then Ret (-1)%Z else if (c0 >? c1)%Z then Ret 1%Z else Ret 0%Z
      | _, _ => Abort
      end
    else Ret 0%Z.

(** The id is copied with the number it points to. *)
Definition cp_global_e2_node_id (src : global_e2_node_id_t) : global_e2_node_id_t :=
  mk_global_e2_node_id (type src) (plmn src) (nb_id src) (cu_du_id src).

(** The two comparisons agree except for the CU types other than CU-UP: there
    only [cmp_global_e2_node_id] looks at the CU id. *)
Lemma cmp_eq_global_e2_node_id m0 m1 :
  NODE_IS_CU (type m0) && negb (NODE_IS_CUUP (type m0)) = false →
  eq_global_e2_node_id m0 m1 = (rc ← cmp_global_e2_node_id m0 m1; Ret (rc =? 0)%Z).
Proof.
  destruct m0 as [t0 [a0 b0 c0] [n0 u0] i0], m1 as [t1 [a1 b1 c1] [n1 u1] i1].
  unfold eq_global_e2_node_id, cmp_global_e2_node_id, eq_e2ap_plmn, cmp_e2ap_plmn, eq_e2ap_gnb_id. cbn.
  intros Ht. rewrite !Z.gtb_ltb.
  destruct (Z.ltb_spec t0 t1), (Z.ltb_spec t1 t0), (Z.eqb_spec t0 t1); try lia; cbn; try done.
  destruct (Z.ltb_spec a0 a1), (Z.ltb_spec a1 a0), (Z.eqb_spec a0 a1); try lia; cbn; try done.
  destruct (Z.ltb_spec b0 b1), (Z.ltb_spec b1 b0), (Z.eqb_spec b0 b1); try lia; cbn; try done.
  destruct (Z.ltb_spec c0 c1), (Z.ltb_spec c1 c0), (Z.eqb_spec c0 c1); try lia; cbn; try done.
  destruct (Z.ltb_spec n0 n1), (Z.ltb_spec n1 n0), (Z.eqb_spec n0 n1); try lia; cbn; try done.
  destruct (Z.ltb_spec u0 u1), (Z.ltb_spec u1 u0), (Z.eqb_spec u0 u1); try lia; cbn; try done.
  replace (NODE_IS_CU t0 || NODE_IS_CUUP t0 || NODE_IS_DU t0) with (NODE_IS_CUUP t0 || NODE_IS_DU t0)
    by (destruct (NODE_IS_CU t0), (NODE_IS_CUUP t0); done).
  destruct (NODE_IS_CUUP t0 || NODE_IS_DU t0); [|done].
  destruct i0 as [i0|], i1 as [i1|]; cbn; try done.
  rewrite Z.gtb_ltb. destruct (Z.ltb_spec i0 i1), (Z.ltb_spec i1 i0), (Z.eqb_spec i0 i1); try lia; done.
Qed.

(** Two CUs of one gNB are equal for one and different for the other. *)
Lemma eq_cmp_global_e2_node_id_differ :
  let cu i := mk_global_e2_node_id 5 (mk_plmn 505 1 2) (mk_gnb_id 1 0) (Some i) in
  eq_global_e2_node_id (cu 1%Z) (cu 2%Z) = Ret true ∧
  cmp_global_e2_node_id (cu 1%Z) (cu 2%Z) = Ret (-1)%Z.
Proof. done. Qed.

(** The order of the containers, for ids that have the CU or DU id their type
    needs: the E2 setup handler reads it before it registers the node. *)
Definition node_id_wf (m : global_e2_node_id_t) : bool :=
  negb (NODE_IS_CU (type m) || NODE_IS_CUUP (type m) || NODE_IS_DU (type m)) ||
  bool_decide (is_Some (cu_du_id m)).

Definition cu_du_key (m : global_e2_node_id_t) : Z :=
  if NODE_IS_CU (type m) || NODE_IS_CUUP (type m) || NODE_IS_DU (type m)
  then default (-1)%Z (cu_du_id m) else 0%Z.

Definition cmp_node (m0 m1 : global_e2_node_id_t) : Z :=
  lex (- cmp_up (type m0) (type m1)) (lex (- cmp_up (mcc (plmn m0)) (mcc (plmn m1)))
  (lex (- cmp_up (mnc (plmn m0)) (mnc (plmn m1))) (lex (- cmp_up (mnc_digit_len (plmn m0)) (mnc_digit_len (plmn m1)))
  (lex (- cmp_up (nb_id_ (nb_id m0)) (nb_id_ (nb_id m1))) (lex (cmp_up (unused (nb_id m0)) (unused (nb_id m1)))
  (- cmp_up (cu_du_key m0) (cu_du_key m1))))))).

#[export] Instance cmp_node_comparator : Comparator cmp_node.
Proof.
  assert (∀ f : global_e2_node_id_t → Z, Comparator (λ a b, - cmp_up (f a) (f b))%Z) as H.
  { intros f. exact (comparator_opp _ (comparator_proj cmp_up f _)). }
  unfold cmp_node.
  apply (comparator_lex _ _ (H type)). apply (comparator_lex _ _ (H (λ m, mcc (plmn m)))).
  apply (comparator_lex _ _ (H (λ m, mnc (plmn m)))). apply (comparator_lex _ _ (H (λ m, mnc_digit_len (plmn m)))).
  apply (comparator_lex _ _ (H (λ m, nb_id_ (nb_id m)))).
  apply (comparator_lex _ _ (comparator_proj cmp_up (λ m, unused (nb_id m)) _)). apply H.
Qed.

Lemma lex_cmp (x y r : Z) : lex (- cmp_up x y) r = if (x =? y)%Z then r else (- cmp_up x y)%Z.
Proof. unfold lex, cmp_up. destruct (Z.ltb_spec x y), (Z.eqb_spec x y); try lia; done. Qed.

(** On such ids it is the comparison of the code. *)
Lemma cmp_node_spec m0 m1 : node_id_wf m0 = true → node_id_wf m1 = true →
  cmp_global_e2_node_id m0 m1 = Ret (cmp_node m0 m1).
Proof.
  destruct m0 as [t0 [a0 b0 c0] [n0 u0] i0], m1 as [t1 [a1 b1 c1] [n1 u1] i1].
  unfold node_id_wf, cmp_global_e2_node_id, cmp_node, cmp_e2ap_plmn, cu_du_key. cbn. intros H0 H1.
  rewrite !lex_cmp. unfold lex, cmp_up. rewrite !Z.gtb_ltb.
  destruct (Z.ltb_spec t0 t1), (Z.ltb_spec t1 t0), (Z.eqb_spec t0 t1); try lia; try done. subst t1.
  destruct (Z.ltb_spec a0 a1), (Z.ltb_spec a1 a0), (Z.eqb_spec a0 a1); try lia; cbn; try done.
  destruct (Z.ltb_spec b0 b1), (Z.ltb_spec b1 b0), (Z.eqb_spec b0 b1); try lia; cbn; try done.
  destruct (Z.ltb_spec c0 c1), (Z.ltb_spec c1 c0), (Z.eqb_spec c0 c1); try lia; cbn; try done.
  destruct (Z.ltb_spec n0 n1), (Z.ltb_spec n1 n0), (Z.eqb_spec n0 n1); try lia; cbn; try done.
  destruct (Z.ltb_spec u0 u1), (Z.ltb_spec u1 u0), (Z.eqb_spec u0 u1); try lia; cbn; try done.
  destruct (NODE_IS_CU t0 || NODE_IS_CUUP t0 || NODE_IS_DU t0); cbn in *; [|done].
  apply bool_decide_eq_true in H0 as [i0' ->], H1 as [i1' ->]. cbn. rewrite Z.gtb_ltb.
  destruct (Z.ltb_spec i0' i1'), (Z.ltb_spec i1' i0'), (Z.eqb_spec i0' i1'); try lia; done.
Qed.

(** The predicate of the searches; on two ids of one type that both have what
    the type needs it does not abort. *)
Definition eq_node (m0 m1 : global_e2_node_id_t) : bool :=
  match eq_global_e2_node_id m0 m1 with Ret b => b | _ => false end.

Lemma eq_node_spec m0 m1 : node_id_wf m0 = true → node_id_wf m1 = true →
  eq_global_e2_node_id m0 m1 = Ret (eq_node m0 m1).
Proof.
  destruct m0 as [t0 p0 n0 i0], m1 as [t1 p1 n1 i1].
  unfold node_id_wf, eq_node, eq_global_e2_node_id. cbn. intros H0 H1.
  destruct (Z.eqb_spec t0 t1) as [<-|]; [|done]. cbn. destruct (eq_e2ap_plmn p0 p1); [|done]. cbn.
  destruct (eq_e2ap_gnb_id n0 n1); [|done]. cbn.
  destruct (NODE_IS_CUUP t0 || NODE_IS_DU t0) eqn:Ht; [|done].
  assert (NODE_IS_CU t0 || NODE_IS_CUUP t0 || NODE_IS_DU t0 = true) as Hc.
  { destruct (NODE_IS_CU t0), (NODE_IS_CUUP t0), (NODE_IS_DU t0); done. }
  rewrite Hc in H0, H1. cbn in H0, H1. by apply bool_decide_eq_true in H0 as [? ->], H1 as [? ->].
Qed.

(** Two ids the order does not tell apart are equal. *)
Lemma cmp_node_eq_node m0 m1 : node_id_wf m0 = true → node_id_wf m1 = true → cmp_node m0 m1 = 0%Z →
  eq_node m0 m1 = true.
Proof.
  destruct m0 as [t0 [a0 b0 c0] [n0 u0] i0], m1 as [t1 [a1 b1 c1] [n1 u1] i1].
  unfold node_id_wf, cmp_node, cu_du_key, eq_node, eq_global_e2_node_id, eq_e2ap_plmn, eq_e2ap_gnb_id. cbn.
  intros H0 H1 Hc. assert (∀ x : Z, (- x = 0 ↔ x = 0)%Z) as Ho by lia. rewrite !lex_eq, !Ho, !cmp_up_eq in Hc. destruct Hc as (-> & -> & -> & -> & -> & -> & Hk).
  rewrite !Z.eqb_refl. cbn.
  destruct (NODE_IS_CU t1), (NODE_IS_CUUP t1), (NODE_IS_DU t1); cbn in *; try done;
    apply bool_decide_eq_true in H0 as [i0' ->], H1 as [i1' ->]; cbn in *; by rewrite Hk, Z.eqb_refl.
Qed.

(** ** Pending events, [src/src/lib/pending_events.c], [pending_event_ric.c] *)

Inductive pending_event_t :=
| SETUP_REQUEST_PENDING_EVENT
| SUBSCRIPTION_REQUEST_PENDING_EVENT
| SUBSCRIPTION_DELETE_REQUEST_PENDING_EVENT
| CONTROL_REQUEST_PENDING_EVENT
| E42_SETUP_REQUEST_PENDING_EVENT
| E42_RIC_SUBSCRIPTION_REQUEST_PENDING_EVENT
| RIC_SUBSCRIPTION_DELETE_REQUEST_PENDING_EVENT
| E42_RIC_SUBSCRIPTION_DELETE_REQUEST_PENDING_EVENT
| E42_RIC_CONTROL_REQUEST_PENDING_EVENT.
#[export] Instance pending_event_eq_dec : EqDecision pending_event_t.
Proof. solve_decision. Defined.

Definition pending_event_num (ev : pending_event_t) : Z :=
  match ev with
  | SETUP_REQUEST_PENDING_EVENT => 0
  | SUBSCRIPTION_REQUEST_PENDING_EVENT => 1
  | SUBSCRIPTION_DELETE_REQUEST_PENDING_EVENT => 2
  | CONTROL_REQUEST_PENDING_EVENT => 3
  | E42_SETUP_REQUEST_PENDING_EVENT => 4
  | E42_RIC_SUBSCRIPTION_REQUEST_PENDING_EVENT => 5
  | RIC_SUBSCRIPTION_DELETE_REQUEST_PENDING_EVENT => 6
  | E42_RIC_SUBSCRIPTION_DELETE_REQUEST_PENDING_EVENT => 7
  | E42_RIC_CONTROL_REQUEST_PENDING_EVENT => 8
  end.

Definition cmp_pending_event (ev1 ev2 : pending_event_t) : Z :=
  if (pending_event_num ev1 <? pending_event_num ev2)%Z then 1
  else if (pending_event_num ev1 =? pending_event_num ev2)%Z then 0 else -1.

Definition valid_pending_event (ev : pending_event_t) : outcome bool :=
  c_assert (bool_decide (ev = SETUP_REQUEST_PENDING_EVENT) ||
            bool_decide (ev = SUBSCRIPTION_REQUEST_PENDING_EVENT) ||
            bool_decide (ev = SUBSCRIPTION_DELETE_REQUEST_PENDING_EVENT) ||
            bool_decide (ev = E42_SETUP_REQUEST_PENDING_EVENT));;
  Ret true.

Record pending_event_ric_t := mk_pending_event_ric { ev : pending_event_t; id : ric_gen_id_t }.
#[export] Instance pending_event_ric_eq_dec : EqDecision pending_event_ric_t.
Proof. solve_decision. Defined.

Definition cmp_pending_event_ric (p1 p2 : pending_event_ric_t) : Z :=
  let cmp_ev := cmp_pending_event (ev p1) (ev p2) in
  if negb (cmp_ev =? 0)%Z then cmp_ev else cmp_ric_gen_id (id p1) (id p2).

Definition eq_pending_event_ric (p1 p2 : pending_event_ric_t) : bool :=
  (cmp_pending_event_ric p1 p2 =? 0)%Z.

#[export] Instance cmp_pending_event_comparator : Comparator cmp_pending_event.
Proof. exact (comparator_proj cmp_up pending_event_num _). Qed.

#[export] Instance cmp_pending_event_ric_comparator : Comparator cmp_pending_event_ric.
Proof.
  apply (comparator_ext _ (λ a b, lex (cmp_pending_event (ev a) (ev b)) (cmp_ric_gen_id (id a) (id b))));
    [|exact _].
  intros a b. unfold cmp_pending_event_ric, lex. by destruct (_ =? 0)%Z.
Qed.

Lemma cmp_pending_event_ric_eq p1 p2 : cmp_pending_event_ric p1 p2 = 0%Z ↔ p1 = p2.
Proof.
  unfold cmp_pending_event_ric. destruct (Z.eqb_spec (cmp_pending_event (ev p1) (ev p2)) 0) as [He|He]; cbn.
  - change (cmp_up (pending_event_num (ev p1)) (pending_event_num (ev p2)) = 0%Z) in He.
    apply cmp_up_eq in He. rewrite cmp_ric_gen_id_eq. destruct p1 as [[] i1], p2 as [[] i2]; cbn in *;
      try done; naive_solver.
  - split; [done|]. intros ->. by rewrite (comp_refl cmp_pending_event) in He.
Qed.

(** ** Socket addresses, [src/src/lib/ep/sctp_msg.c] *)

(** [sri]: the fields of [struct sctp_sndrcvinfo], which the code only copies. *)
Record sctp_info_t := mk_sctp_info {
  sin_family : Z;
  sin_addr : Z;
  sin_port : Z;
  sri : list Z }.

Definition cmp_sockaddr_in (m0 m1 : sctp_info_t) : Z :=
  if (sin_port m0 <? sin_port m1)%Z then 1 else if (sin_port m0 >? sin_port m1)%Z then -1
  else if (sin_addr m0 <? sin_addr m1)%Z then 1 else if (sin_addr m0 >? sin_addr m1)%Z then -1
  else if (sin_family m0 <? sin_family m1)%Z then 1 else if (sin_family m0 >? sin_family m1)%Z then -1
  else 0.

Definition cmp_sctp_sndrcvinfo (m0 m1 : list Z) : Z := 0.

Definition cmp_sctp_info_wrapper (m0 m1 : sctp_info_t) : Z :=
  let cmp := cmp_sockaddr_in m0 m1 in
  if negb (cmp =? 0)%Z then cmp else cmp_sctp_sndrcvinfo (sri m0) (sri m1).

Definition eq_sctp_info_wrapper (m0 m1 : sctp_info_t) : bool := (cmp_sctp_info_wrapper m0 m1 =? 0)%Z.

#[export] Instance cmp_sctp_info_comparator : Comparator cmp_sctp_info_wrapper.
Proof.
  apply (comparator_ext _ (λ a b, lex (cmp_up (sin_port a) (sin_port b))
    (lex (cmp_up (sin_addr a) (sin_addr b))
      (lex (cmp_up (sin_family a) (sin_family b)) ((λ _ _, 0%Z) a b))))).
  - intros a b. unfold cmp_sctp_info_wrapper, cmp_sockaddr_in, cmp_sctp_sndrcvinfo.
    rewrite !cmp_chain. by destruct (Z.eqb_spec (lex (cmp_up (sin_port a) (sin_port b))
      (lex (cmp_up (sin_addr a) (sin_addr b)) (lex (cmp_up (sin_family a) (sin_family b)) 0))) 0) as [->|].
  - assert (Comparator (λ _ _ : sctp_info_t, 0%Z)) by (split; auto; lia). exact _.
Qed.

(** ** Ids of the iApp, [src/src/ric/iApp/xapp_ric_id.c], [e2_node_ric_id.c] *)

Record xapp_ric_id_t := mk_xapp_ric_id { x_ric_id : ric_gen_id_t; xapp_id : Z }.

#[export] Instance xapp_ric_id_eq_dec : EqDecision xapp_ric_id_t.
Proof. solve_decision. Defined.

Definition cmp_xapp_ric_gen_id (m0 m1 : xapp_ric_id_t) : Z :=
  if (xapp_id m0 <? xapp_id m1)%Z then 1
  else if (xapp_id m0 >? xapp_id m1)%Z then -1
  else cmp_ric_gen_id (x_ric_id m0) (x_ric_id m1).

Definition eq_xapp_id (m0 m1 : Z) : bool := if negb (m0 =? m1)%Z then false else true.

(** As written: the xApp id of the first argument is compared with itself. *)
Definition eq_xapp_ric_gen_id (m0 m1 : xapp_ric_id_t) : bool :=
  if negb (eq_xapp_id (xapp_id m0) (xapp_id m0)) then false
  else eq_ric_gen_id (x_ric_id m0) (x_ric_id m1).

Definition eq_xapp_ric_gen_id2 (m0 m1 : xapp_ric_id_t) : bool := (xapp_id m0 =? xapp_id m1)%Z.

#[export] Instance cmp_xapp_ric_gen_id_comparator : Comparator cmp_xapp_ric_gen_id.
Proof.
  apply (comparator_ext _ (λ a b, lex (cmp_up (xapp_id a) (xapp_id b))
    (cmp_ric_gen_id (x_ric_id a) (x_ric_id b)))); [|exact _].
  intros a b. unfold cmp_xapp_ric_gen_id. by rewrite cmp_chain.
Qed.

Lemma cmp_xapp_ric_gen_id_eq m0 m1 : cmp_xapp_ric_gen_id m0 m1 = 0%Z ↔ m0 = m1.
Proof.
  unfold cmp_xapp_ric_gen_id. rewrite cmp_chain, lex_eq, cmp_up_eq, cmp_ric_gen_id_eq.
  destruct m0, m1; cbn. split; [by intros [-> ->]|by intros [= -> ->]].
Qed.

(** So the search compares the request ids only. *)
Lemma eq_xapp_ric_gen_id_spec m0 m1 : eq_xapp_ric_gen_id m0 m1 = eq_ric_gen_id (x_ric_id m0) (x_ric_id m1).
Proof. unfold eq_xapp_ric_gen_id, eq_xapp_id. by rewrite Z.eqb_refl. Qed.

Inductive ric_request_type_e := SUBSCRIPTION_RIC_REQUEST_TYPE | CONTROL_RIC_REQUEST_TYPE.
#[export] Instance ric_request_type_eq_dec : EqDecision ric_request_type_e.
Proof. solve_decision. Defined.

Record e2_node_ric_id_t := mk_e2_node_ric_id {
  e2_node_id : global_e2_node_id_t;
  n_ric_id : ric_gen_id_t;
  ric_req_type : ric_request_type_e }.
#[export] Instance e2_node_ric_id_eq_dec : EqDecision e2_node_ric_id_t.
Proof. solve_decision. Defined.

Definition cp_e2_node_ric_id (src : e2_node_ric_id_t) : e2_node_ric_id_t :=
  mk_e2_node_ric_id (cp_global_e2_node_id (e2_node_id src)) (n_ric_id src) (ric_req_type src).

(** The order of [map_ric_id.c]: by request id alone, with the opposite sign. *)
Definition cmp_uint32 (m0 m1 : Z) : Z :=
  if (m0 <? m1)%Z then -1 else if (m0 =? m1)%Z then 0 else 1.

Definition cmp_e2_node_ric_req_wrapper (m0 m1 : e2_node_ric_id_t) : Z :=
  cmp_uint32 (ric_req_id (n_ric_id m0)) (ric_req_id (n_ric_id m1)).

Definition eq_e2_node_ric_req (m0 m1 : e2_node_ric_id_t) : bool :=
  (ric_req_id (n_ric_id m0) =? ric_req_id (n_ric_id m1))%Z.

#[export] Instance cmp_e2_node_ric_req_comparator : Comparator cmp_e2_node_ric_req_wrapper.
Proof.
  apply (comparator_ext _ (λ a b, (- cmp_up (ric_req_id (n_ric_id a)) (ric_req_id (n_ric_id b)))%Z)).
  - intros a b. unfold cmp_e2_node_ric_req_wrapper, cmp_uint32, cmp_up. by repeat case_match.
  - exact (comparator_opp _ (comparator_proj cmp_up (λ m, ric_req_id (n_ric_id m)) _)).
Qed.

Lemma cmp_e2_node_ric_req_eq m0 m1 :
  cmp_e2_node_ric_req_wrapper m0 m1 = 0%Z ↔ ric_req_id (n_ric_id m0) = ric_req_id (n_ric_id m1).
Proof.
  unfold cmp_e2_node_ric_req_wrapper, cmp_uint32.
  destruct (Z.ltb_spec (ric_req_id (n_ric_id m0)) (ric_req_id (n_ric_id m1))),
    (Z.eqb_spec (ric_req_id (n_ric_id m0)) (ric_req_id (n_ric_id m1))); split; intros; lia.
Qed.
