(* ===== verification/E2apMsg.v ===== *)
(** * E2AP and E42 messages

    The structs of [src/src/lib/e2ap/v2_03/e2ap_types] the handlers of the RIC,
    of the iApp and of the xApps read and build, and the union over the message
    type ([e2_msg_type_t], [src/src/lib/e2ap/v2_03/type_defs.h]). *)
From S2P Require Import Prelude AssocSpec RicIds.

(** [byte_array_t]. *)
Abbreviation bytes := (list Z).

(** Actions have no subsequent action in this code. *)
Record ric_action_t := mk_ric_action {
  act_id : Z;
  act_type : Z;
  definition : option bytes }.
Definition RIC_ACT_REPORT : Z := 0.

Record ric_subscription_request_t := mk_ric_subscription_request {
  sr_ric_id : ric_gen_id_t;
  event_trigger : bytes;
  action : list ric_action_t }.

(** Action ids; the causes of the actions that are not admitted are left out. *)
Record ric_subscription_response_t := mk_ric_subscription_response {
  resp_ric_id : ric_gen_id_t;
  admitted : list Z;
  not_admitted : list Z }.

Record ric_subscription_delete_request_t := mk_ric_subscription_delete_request { sdr_ric_id : ric_gen_id_t }.
Record ric_subscription_delete_response_t := mk_ric_subscription_delete_response { del_ric_id : ric_gen_id_t }.

Record ric_indication_t := mk_ric_indication {
  ind_ric_id : ric_gen_id_t;
  action_id : Z;
  sn : option Z;
  ind_type : Z;
  hdr : bytes;
  msg : bytes;
  call_process_id : option bytes }.

Record ric_control_request_t := mk_ric_control_request {
  cr_ric_id : ric_gen_id_t;
  cr_call_process_id : option bytes;
  cr_hdr : bytes;
  cr_msg : bytes;
  ack_req : option Z }.
Definition RIC_CONTROL_REQUEST_ACK : Z := 1.

Record ric_control_acknowledge_t := mk_ric_control_acknowledge {
  ack_ric_id : ric_gen_id_t;
  ack_call_process_id : option bytes;
  control_outcome : option bytes }.

Record ran_function_t := mk_ran_function { rf_id : Z; rf_rev : Z; rf_defn : bytes; rf_oid : bytes }.
#[export] Instance ran_function_eq_dec : EqDecision ran_function_t.
Proof. solve_decision. Defined.
Definition cp_ran_function (src : ran_function_t) : ran_function_t :=
  mk_ran_function (rf_id src) (rf_rev src) (rf_defn src) (rf_oid src).

(** *** E2 setup *)

(** [e2ap_node_comp_id_t]: a union over the interface type; the code supports
    four of them. *)
Inductive e2ap_node_comp_id_t :=
| NG_COMP_ID (ng_amf_name : bytes)
| E1_COMP_ID (e1_gnb_cu_up_id : Z)
| F1_COMP_ID (f1_gnb_du_id : Z)
| S1_COMP_ID (s1_mme_name : bytes)
| UNSUPPORTED_COMP_ID (type : Z).
#[export] Instance node_comp_id_eq_dec : EqDecision e2ap_node_comp_id_t.
Proof. solve_decision. Defined.

Definition supported_type (m : e2ap_node_comp_id_t) : bool :=
  match m with UNSUPPORTED_COMP_ID _ => false | _ => true end.

Definition cp_e2ap_node_comp_id (src : e2ap_node_comp_id_t) : outcome e2ap_node_comp_id_t :=
  c_assert (supported_type src);;
  match src with
  | F1_COMP_ID du => c_assert (du <? 2 ^ 36)%Z;; Ret src
  | _ => Ret src
  end.

Record e2ap_node_component_config_add_t := mk_node_component_config_add {
  e2_node_comp_interface_type : Z;
  e2_node_comp_id : e2ap_node_comp_id_t;
  conf_request : bytes;                       (** [e2_node_comp_conf.request] *)
  conf_response : bytes }.
#[export] Instance node_component_config_add_eq_dec : EqDecision e2ap_node_component_config_add_t.
Proof. solve_decision. Defined.

Definition cp_e2ap_node_component_config_add (src : e2ap_node_component_config_add_t) :
    outcome e2ap_node_component_config_add_t :=
  i ← cp_e2ap_node_comp_id (e2_node_comp_id src);
  Ret (mk_node_component_config_add (e2_node_comp_interface_type src) i (conf_request src) (conf_response src)).

(** Copies element by element. *)
Fixpoint mapM_outcome {A B} (f : A → outcome B) (l : list A) : outcome (list B) :=
  match l with
  | [] => Ret []
  | a :: l => b ← f a; bs ← mapM_outcome f l; Ret (b :: bs)
  end.

Record e2_setup_request_t := mk_e2_setup_request {
  stp_trans_id : Z;
  stp_id : global_e2_node_id_t;
  stp_ran_func_item : list ran_function_t;
  comp_conf_add : list e2ap_node_component_config_add_t }.

(** The acknowledgement of a component: its outcome is always SUCCESS (0). *)
Record e2ap_node_comp_config_add_ack_t := mk_node_comp_config_add_ack {
  ack_interface_type : Z;
  ack_comp_id : e2ap_node_comp_id_t;
  ack_outcome : Z }.
Definition SUCCESS_E2AP_NODE_COMP_CONF_ACK : Z := 0.

(** No RAN function is ever rejected: the code aborts instead. *)
Record e2_setup_response_t := mk_e2_setup_response {
  resp_trans_id : Z;
  resp_plmn : e2ap_plmn_t;
  near_ric_id : Z;
  accepted : list Z;
  rejected : list Z;
  comp_config_add_ack : list e2ap_node_comp_config_add_ack_t }.

Record e2_node_connected_t := mk_e2_node_connected {
  enc_id : global_e2_node_id_t;
  cca : list e2ap_node_component_config_add_t;
  ack_rf : list ran_function_t }.

Record e42_setup_response_t := mk_e42_setup_response {
  resp_xapp_id : Z;
  len_e2_nodes_conn : Z;
  nodes : list e2_node_connected_t }.

Record e42_ric_subscription_request_t := mk_e42_ric_subscription_request {
  e42_sr_xapp_id : Z;
  e42_sr_id : global_e2_node_id_t;
  sr : ric_subscription_request_t }.

Record e42_ric_subscription_delete_request_t := mk_e42_ric_subscription_delete_request {
  e42_sdr_xapp_id : Z;
  sdr : ric_subscription_delete_request_t }.

Record e42_ric_control_request_t := mk_e42_ric_control_request {
  e42_cr_xapp_id : Z;
  e42_cr_id : global_e2_node_id_t;
  ctrl_req : ric_control_request_t }.

(** The messages the modelled handlers treat; [OTHER_E2_MSG] is a message of
    another type, by its number. *)
Inductive e2ap_msg_t :=
| RIC_SUBSCRIPTION_REQUEST (m : ric_subscription_request_t)
| RIC_SUBSCRIPTION_RESPONSE (m : ric_subscription_response_t)
| RIC_SUBSCRIPTION_DELETE_REQUEST (m : ric_subscription_delete_request_t)
| RIC_SUBSCRIPTION_DELETE_RESPONSE (m : ric_subscription_delete_response_t)
| RIC_INDICATION (m : ric_indication_t)
| RIC_CONTROL_REQUEST (m : ric_control_request_t)
| RIC_CONTROL_ACKNOWLEDGE (m : ric_control_acknowledge_t)
| E2_SETUP_REQUEST (m : e2_setup_request_t)
| E2_SETUP_RESPONSE (m : e2_setup_response_t)
| E2_SETUP_FAILURE (present value : Z)   (** the cause *)
| E42_SETUP_REQUEST (ran_func_item : list ran_function_t)
| E42_SETUP_RESPONSE (m : e42_setup_response_t)
| E42_RIC_SUBSCRIPTION_REQUEST (m : e42_ric_subscription_request_t)
| E42_RIC_SUBSCRIPTION_DELETE_REQUEST (m : e42_ric_subscription_delete_request_t)
| E42_RIC_CONTROL_REQUEST (m : e42_ric_control_request_t)
| OTHER_E2_MSG (type : Z)
| NONE_E2_MSG_TYPE.

Lemma cp_node_comp_id_inv m r : cp_e2ap_node_comp_id m = Ret r → r = m.
Proof. destruct m; cbn; try congruence. by destruct (_ <? _)%Z; cbn; intros [= <-]. Qed.

Lemma cp_component_config_inv m r : cp_e2ap_node_component_config_add m = Ret r → r = m.
Proof.
  unfold cp_e2ap_node_component_config_add. intros (i & Hi & H)%bind_Ret_inv.
  apply cp_node_comp_id_inv in Hi as ->. injection H as <-. by destruct m.
Qed.

Lemma mapM_outcome_copy {A} (f : A → outcome A) l r :
  (∀ a b, f a = Ret b → b = a) → mapM_outcome f l = Ret r → r = l.
Proof.
  intros Hf. revert r. induction l as [|a l IH]; cbn; [congruence|].
  intros r (b & Hb & H)%bind_Ret_inv. apply bind_Ret_inv in H as (bs & Hbs & H). injection H as <-.
  by rewrite (Hf _ _ Hb), (IH _ Hbs).
Qed.

(** Replacing the request id of a request id triple. *)
Definition with_req_id (i : ric_gen_id_t) (r : Z) : ric_gen_id_t :=
  mk_ric_gen_id r (ric_inst_id i) (ran_func_id i).

(** ** Calls of the iApp by the near-RT RIC, [src/src/ric/iApp/e42_iapp_api.c] *)

Inductive iapp_call :=
| NotifyMsg (m : e2ap_msg_t)
| AddE2Node (id : global_e2_node_id_t) (ran_func : list ran_function_t)
    (cca : list e2ap_node_component_config_add_t)
| RmE2Node (id : global_e2_node_id_t).
