(* ===== verification/SubRegistry.v ===== *)
(** * The subscription registry of the iApp

    [src/src/ric/iApp/subscription_registry.c]: one entry per xApp and RAN
    function, in an array that doubles when it is full.  One call at a time. *)
From S2P Require Import Prelude.
From stdpp Require Import gmap.
#[local] Set Default Proof Using "Type*".

Record subscription_entry_t := mk_subscription_entry {
  e_xapp_id : Z;
  e_ran_func_id : Z;
  e_ric_req_id : Z;
  active : bool }.
#[export] Instance subscription_entry_eq_dec : EqDecision subscription_entry_t.
Proof. solve_decision. Defined.

(** [entries]: the buffer, of [capacity] entries. *)
Record subscription_registry_t := mk_subscription_registry {
  entries : list subscription_entry_t;
  count : nat;
  capacity : nat }.

Definition zero_entry : subscription_entry_t := mk_subscription_entry 0 0 0 false.

Definition init_subscription_registry : subscription_registry_t :=
  mk_subscription_registry (replicate 32 zero_entry) 0 32.

Section registry.
(** [realloc_ok]: whether [realloc] gives a buffer of that size; [junk]: what is
    in the memory it adds. *)
Context (realloc_ok : nat → bool) (junk : subscription_entry_t).

Abbreviation M := (st subscription_registry_t).

Definition entry_at (i : nat) : M subscription_entry_t := λ r,
  match entries r !! i with Some e => Ret (e, r) | None => Undef end.
Definition set_entry (i : nat) (e : subscription_entry_t) : M () := λ r,
  if decide (i < length (entries r))
  then Ret ((), mk_subscription_registry (<[i := e]> (entries r)) (count r) (capacity r))
  else Undef.

(** The loop of the three functions: the first entry of the xApp and the RAN
    function, from [i] on, [n] entries left. *)
Fixpoint registry_find (n i : nat) (xapp_id ran_func_id : Z) : M (option nat) :=
  match n with
  | O => mret None
  | S n =>
      e ← entry_at i;
      if (e_xapp_id e =? xapp_id)%Z && (e_ran_func_id e =? ran_func_id)%Z then mret (Some i)
      else registry_find n (S i) xapp_id ran_func_id
  end.

Definition register_subscription (xapp_id ran_func_id ric_req_id : Z) : M bool :=
  registry ← st_get;
  it ← registry_find (count registry) 0 xapp_id ran_func_id;
  match it with
  | Some i => set_entry i (mk_subscription_entry xapp_id ran_func_id ric_req_id true);; mret true
  | None =>
      let add : M bool :=
        registry ← st_get;
        set_entry (count registry) (mk_subscription_entry xapp_id ran_func_id ric_req_id true);;
        st_mod (λ r, mk_subscription_registry (entries r) (S (count r)) (capacity r));;
        mret true in
      if capacity registry <=? count registry then
        let new_capacity := capacity registry * 2 in
        if realloc_ok new_capacity then
          st_mod (λ r, mk_subscription_registry
                         (entries r ++ replicate (new_capacity - capacity r) junk) (count r) new_capacity);;
          add
        else mret false
      else add
  end.

Definition deactivate_subscription (xapp_id ran_func_id : Z) : M bool :=
  registry ← st_get;
  it ← registry_find (count registry) 0 xapp_id ran_func_id;
  match it with
  | Some i =>
      e ← entry_at i;
      set_entry i (mk_subscription_entry (e_xapp_id e) (e_ran_func_id e) (e_ric_req_id e) false);;
      mret true
  | None => mret false
  end.

Definition is_subscription_active (xapp_id ran_func_id : Z) : M bool :=
  registry ← st_get;
  it ← registry_find (count registry) 0 xapp_id ran_func_id;
  match it with
  | Some i => e ← entry_at i; mret (active e)
  | None => mret false
  end.

(** ** The specification: a finite map *)

Inductive reg_op := Register (x f q : Z) | Deactivate (x f : Z) | IsActive (x f : Z).

Definition reg_step (o : reg_op) : M bool :=
  match o with
  | Register x f q => register_subscription x f q
  | Deactivate x f => deactivate_subscription x f
  | IsActive x f => is_subscription_active x f
  end.

Definition map_step (o : reg_op) (m : gmap (Z * Z) (Z * bool)) : bool * gmap (Z * Z) (Z * bool) :=
  match o with
  | Register x f q => (true, <[(x, f) := (q, true)]> m)
  | Deactivate x f =>
      match m !! (x, f) with
      | Some (q, _) => (true, <[(x, f) := (q, false)]> m)
      | None => (false, m)
      end
  | IsActive x f => (match m !! (x, f) with Some (_, b) => b | None => false end, m)
  end.

Fixpoint reg_run (os : list reg_op) : M (list bool) :=
  match os with
  | [] => mret []
  | o :: os => b ← reg_step o; bs ← reg_run os; mret (b :: bs)
  end.

Fixpoint map_run (os : list reg_op) (m : gmap (Z * Z) (Z * bool)) : list bool :=
  match os with
  | [] => []
  | o :: os => let (b, m') := map_step o m in b :: map_run os m'
  end.
End registry.

(** ** The invariant *)

Definition e_key (e : subscription_entry_t) : Z * Z := (e_xapp_id e, e_ran_func_id e).
Definition e_val (e : subscription_entry_t) : Z * bool := (e_ric_req_id e, active e).

(** The entries in use are [L], one for each xApp and RAN function, in the order
    of their first registration. *)
Definition reg_rep (r : subscription_registry_t) (L : list subscription_entry_t) : Prop :=
  ∃ rest, entries r = L ++ rest ∧ count r = length L ∧ length (entries r) = capacity r ∧
    0 < capacity r ∧ NoDup (e_key <$> L).

(** The map they stand for. *)
Definition reg_map (L : list subscription_entry_t) : gmap (Z * Z) (Z * bool) :=
  list_to_map ((λ e, (e_key e, e_val e)) <$> L).

(** The position of a key. *)
Definition key_pos (x f : Z) (L : list subscription_entry_t) : option (nat * subscription_entry_t) :=
  list_find (λ e, e_key e = (x, f)) L.

(** Registration of an entry: in place, or at the end. *)
Definition reg_put (e : subscription_entry_t) (L : list subscription_entry_t) : list subscription_entry_t :=
  match key_pos (e_xapp_id e) (e_ran_func_id e) L with
  | Some (i, _) => <[i := e]> L
  | None => L ++ [e]
  end.

Lemma registry_find_from x f r L1 L2 : reg_rep r (L1 ++ L2) → Forall (λ e, e_key e ≠ (x, f)) L1 →
  registry_find (length L2) (length L1) x f r = Ret (fst <$> key_pos x f (L1 ++ L2), r).
Proof.
  unfold key_pos. revert L1. induction L2 as [|e L2 IH]; intros L1 Hr HF; cbn.
  - rewrite app_nil_r. by rewrite (proj2 (list_find_None (λ e, e_key e = (x, f)) L1) HF).
  - pose proof Hr as (rest & He & _). unfold mbind, st_bind, entry_at.
    rewrite He, <-app_assoc. cbn [app]. rewrite list_lookup_middle by done. cbn.
    destruct (decide (e_key e = (x, f))) as [Hk|Hk].
    + injection Hk as Hx Hf. rewrite Hx, Hf, !Z.eqb_refl. cbn.
      rewrite list_find_app_r by (by apply (list_find_None (λ e, e_key e = (x, f)))). cbn. rewrite decide_True by (by unfold e_key; congruence).
      done.
    + replace ((e_xapp_id e =? x)%Z && (e_ran_func_id e =? f)%Z) with false.
      * specialize (IH (L1 ++ [e])). rewrite <-app_assoc, length_app, Nat.add_1_r in IH. apply IH; [done|].
        apply Forall_app. by repeat constructor.
      * symmetry. apply andb_false_iff. rewrite !Z.eqb_neq. unfold e_key in Hk.
        destruct (decide (e_xapp_id e = x)); [right|left]; congruence.
Qed.

Lemma registry_find_ok x f r L : reg_rep r L →
  registry_find (count r) 0 x f r = Ret (fst <$> key_pos x f L, r).
Proof.
  intros Hr. pose proof Hr as (rest & _ & -> & _). by apply (registry_find_from x f r [] L).
Qed.

Lemma reg_map_lookup x f L : NoDup (e_key <$> L) →
  reg_map L !! (x, f) = e_val ∘ snd <$> key_pos x f L.
Proof.
  intros Hnd. unfold key_pos. destruct (list_find _ L) as [[i e]|] eqn:Hf; cbn.
  - apply list_find_Some in Hf as (Hi & Hk & _). apply elem_of_list_to_map.
    + by rewrite <-list_fmap_compose.
    + apply list_elem_of_fmap. exists e. split; [by rewrite <-Hk|]. by eapply list_elem_of_lookup_2.
  - apply list_find_None in Hf. apply not_elem_of_list_to_map. rewrite <-list_fmap_compose.
    intros (e & He & Hin)%list_elem_of_fmap. rewrite Forall_forall in Hf. by apply (Hf e Hin).
Qed.

(** Changing the entry of a key, and adding one for a new key. *)
Lemma reg_map_middle L1 e L2 e' : NoDup (e_key <$> L1 ++ e :: L2) → e_key e' = e_key e →
  reg_map (L1 ++ e' :: L2) = <[e_key e := e_val e']> (reg_map (L1 ++ e :: L2)).
Proof.
  intros Hnd Hk. unfold reg_map. rewrite !fmap_app, !fmap_cons.
  rewrite fmap_app, fmap_cons in Hnd. cbn in Hnd.
  assert (∀ v, list_to_map (((λ e, (e_key e, e_val e)) <$> L1) ++ (e_key e, v) ::
      ((λ e, (e_key e, e_val e)) <$> L2)) =@{gmap (Z * Z) (Z * bool)}
      <[e_key e := v]> (list_to_map (((λ e, (e_key e, e_val e)) <$> L1) ++ ((λ e, (e_key e, e_val e)) <$> L2))))
    as Hm.
  { intros v. rewrite <-list_to_map_cons. apply list_to_map_proper; [|by rewrite Permutation_middle].
    rewrite fmap_app, fmap_cons, <-!list_fmap_compose. exact Hnd. }
  rewrite Hk, !Hm. by rewrite insert_insert_eq.
Qed.

Lemma reg_map_snoc L e : e_key e ∉ e_key <$> L → NoDup (e_key <$> L) →
  reg_map (L ++ [e]) = <[e_key e := e_val e]> (reg_map L).
Proof.
  intros Hk Hnd. unfold reg_map. rewrite fmap_app.
  rewrite <-list_to_map_cons. apply list_to_map_proper; [|by rewrite Permutation_app_comm].
  rewrite fmap_app. cbn. rewrite <-!list_fmap_compose. apply NoDup_app. split_and!; [done| |apply NoDup_singleton].
  intros k Hin ->%list_elem_of_singleton. done.
Qed.

Lemma key_pos_Some x f L i e : key_pos x f L = Some (i, e) →
  ∃ L1 L2, L = L1 ++ e :: L2 ∧ length L1 = i ∧ e_key e = (x, f).
Proof.
  unfold key_pos. intros (Hi & Hk & _)%list_find_Some. exists (take i L), (drop (S i) L).
  split_and!; [by rewrite take_drop_middle| |done]. apply length_take_le.
  apply lookup_lt_Some in Hi. lia.
Qed.

Lemma key_pos_None x f L : key_pos x f L = None → (x, f) ∉ e_key <$> L.
Proof.
  unfold key_pos. intros HF%list_find_None (e & He & Hin)%list_elem_of_fmap. rewrite Forall_forall in HF.
  by apply (HF e Hin).
Qed.

(** Writing the entry at the position of a key. *)
Lemma set_entry_ok r L1 e L2 e' : reg_rep r (L1 ++ e :: L2) → e_key e' = e_key e →
  ∃ r', set_entry (length L1) e' r = Ret ((), r') ∧ reg_rep r' (L1 ++ e' :: L2).
Proof.
  intros (rest & He & Hc & Hcap & Hpos & Hnd) Hk. rewrite <-app_assoc in He. unfold set_entry.
  rewrite decide_True by (rewrite He, length_app; cbn; lia). eexists. split; [reflexivity|].
  exists rest. cbn. split_and!.
  - rewrite He, insert_app_r_alt, Nat.sub_diag by done. cbn. by rewrite <-app_assoc.
  - rewrite Hc, !length_app. done.
  - by rewrite length_insert.
  - done.
  - rewrite fmap_app, fmap_cons, Hk, <-fmap_cons, <-fmap_app. done.
Qed.

(** When the buffer is full and cannot grow, a new key is refused and nothing
    changes. *)
Lemma register_full realloc_ok junk r L x f q : reg_rep r L → (x, f) ∉ e_key <$> L →
  capacity r ≤ count r → realloc_ok (capacity r * 2) = false →
  register_subscription realloc_ok junk x f q r = Ret (false, r).
Proof.
  intros Hr Hk Hfull Hno. unfold register_subscription.
  rewrite (st_bind_Ret st_get _ _ _ _ eq_refl), (st_bind_Ret _ _ _ _ _ (registry_find_ok x f r L Hr)).
  destruct (key_pos x f L) as [[i e]|] eqn:Hpos; cbn [fst fmap option_fmap option_map].
  - exfalso. destruct (key_pos_Some x f L i e Hpos) as (L1 & L2 & -> & _ & Hke). apply Hk.
    rewrite fmap_app, <-Hke. apply elem_of_app. right. left.
  - rewrite (proj2 (Nat.leb_le _ _) Hfull). cbv zeta. by rewrite Hno.
Qed.

Section refinement.
Context (realloc_ok : nat → bool) (junk : subscription_entry_t).
Context (realloc_total : ∀ n, realloc_ok n = true).

Lemma add_entry_ok r L e : reg_rep r L → e_key e ∉ e_key <$> L → length L < capacity r →
  ∃ r', (registry ← st_get;
         set_entry (count registry) e;;
         st_mod (λ r, mk_subscription_registry (entries r) (S (count r)) (capacity r));;
         mret true) r = Ret (true, r') ∧ reg_rep r' (L ++ [e]).
Proof using Type.
  intros (rest & He & Hc & Hcap & Hpos & Hnd) Hk Hlt.
  assert (length rest = capacity r - length L) as Hrest by (rewrite <-Hcap, He, length_app; lia).
  destruct rest as [|x rest]; [cbn in *; lia|].
  rewrite (st_bind_Ret st_get _ _ _ _ eq_refl). unfold set_entry.
  unfold mbind at 1, st_bind. rewrite decide_True by (rewrite He, length_app; cbn; lia).
  eexists. split; [reflexivity|]. exists rest. cbn.
  rewrite Hc, He, insert_app_r_alt, Nat.sub_diag by done. cbn. rewrite <-app_assoc. cbn.
  split_and!; [done|rewrite length_app; cbn; lia| |done|].
  - rewrite <-Hcap, He, !length_app. done.
  - rewrite fmap_app. apply NoDup_app. split_and!; [done| |apply NoDup_singleton].
    intros k Hin ->%list_elem_of_singleton. done.
Qed.

Lemma register_ok r L x f q : reg_rep r L →
  let L' := reg_put (mk_subscription_entry x f q true) L in
  ∃ r', register_subscription realloc_ok junk x f q r = Ret (true, r') ∧ reg_rep r' L' ∧
    reg_map L' = <[(x, f) := (q, true)]> (reg_map L).
Proof.
  cbv zeta. unfold reg_put. cbn [e_xapp_id e_ran_func_id].
  intros Hr. pose proof Hr as (rest & He & Hc & Hcap & Hpos & Hnd). unfold register_subscription.
  rewrite (st_bind_Ret st_get _ _ _ _ eq_refl), (st_bind_Ret _ _ _ _ _ (registry_find_ok x f r L Hr)).
  set (e' := mk_subscription_entry x f q true).
  destruct (key_pos x f L) as [[i e]|] eqn:Hpos'; cbn [fst fmap option_fmap option_map].
  - destruct (key_pos_Some x f L i e Hpos') as (L1 & L2 & -> & <- & Hk).
    destruct (set_entry_ok r L1 e L2 e' Hr) as (r' & Hs & Hr'); [by rewrite Hk|].
    rewrite insert_app_r_alt, Nat.sub_diag by done. cbn [insert list_insert].
    exists r'. split; [by rewrite (st_bind_Ret _ _ _ _ _ Hs)|]. split; [done|].
    by rewrite (reg_map_middle L1 e L2 e' Hnd), Hk.
  - pose proof (key_pos_None x f L Hpos') as Hk. cbv zeta.
    assert (∀ r1, reg_rep r1 L → length L < capacity r1 → ∃ r',
      (registry ← st_get; set_entry (count registry) e';;
       st_mod (λ r, mk_subscription_registry (entries r) (S (count r)) (capacity r));; mret true) r1
        = Ret (true, r') ∧ reg_rep r' (L ++ [e']) ∧
      reg_map (L ++ [e']) = <[(x, f) := (q, true)]> (reg_map L)) as Hadd.
    { intros r1 Hr1 Hlt. destruct (add_entry_ok r1 L e' Hr1 Hk Hlt) as (r' & Ha & Hr').
      exists r'. split_and!; [done|done|]. by apply (reg_map_snoc L e'). }
    assert (length L ≤ capacity r) as Hle by (rewrite <-Hcap, He, length_app; lia).
    destruct (Nat.leb_spec (capacity r) (count r)) as [Hfull|Hroom]; [|apply Hadd; [done|lia]].
    rewrite realloc_total, (st_bind_Ret _ _ _ _ _ eq_refl). apply Hadd; [|cbn; lia].
    exists (rest ++ replicate (capacity r * 2 - capacity r) junk). cbn.
    rewrite He, <-app_assoc. split_and!; try done; [|lia].
    rewrite app_assoc, <-He, length_app, length_replicate. lia.
Qed.

Lemma reg_step_refines o r L : reg_rep r L →
  ∃ r' L', reg_step realloc_ok junk o r = Ret ((map_step o (reg_map L)).1, r') ∧ reg_rep r' L' ∧
    reg_map L' = (map_step o (reg_map L)).2.
Proof.
  intros Hr. pose proof Hr as (rest & He & Hc & Hcap & Hpos & Hnd). destruct o as [x f q|x f|x f].
  - destruct (register_ok r L x f q Hr) as (r' & H). by eexists r', _.
  - cbn [reg_step map_step]. unfold deactivate_subscription.
    rewrite (st_bind_Ret st_get _ _ _ _ eq_refl), (st_bind_Ret _ _ _ _ _ (registry_find_ok x f r L Hr)).
    rewrite (reg_map_lookup x f L Hnd).
    destruct (key_pos x f L) as [[i e]|] eqn:Hpos'; cbn [fst fmap option_fmap option_map compose snd].
    + destruct (key_pos_Some x f L i e Hpos') as (L1 & L2 & -> & <- & Hk).
      assert (entry_at (length L1) r = Ret (e, r)) as Hat.
      { unfold entry_at. rewrite He, <-app_assoc. cbn [app]. by rewrite list_lookup_middle. }
      rewrite (st_bind_Ret _ _ _ _ _ Hat).
      destruct (set_entry_ok r L1 e L2 (mk_subscription_entry (e_xapp_id e) (e_ran_func_id e) (e_ric_req_id e) false)
        Hr eq_refl) as (r' & Hs & Hr').
      eexists r', _. rewrite (st_bind_Ret _ _ _ _ _ Hs). split_and!; [done|exact Hr'|].
      by rewrite (reg_map_middle L1 e L2 _ Hnd), Hk.
    + by exists r, L.
  - cbn [reg_step map_step]. unfold is_subscription_active.
    rewrite (st_bind_Ret st_get _ _ _ _ eq_refl), (st_bind_Ret _ _ _ _ _ (registry_find_ok x f r L Hr)).
    rewrite (reg_map_lookup x f L Hnd).
    destruct (key_pos x f L) as [[i e]|] eqn:Hpos'; cbn [fst fmap option_fmap option_map compose snd].
    + destruct (key_pos_Some x f L i e Hpos') as (L1 & L2 & -> & <- & Hk).
      exists r, (L1 ++ e :: L2). split_and!; [|done|done]. unfold entry_at, mbind, st_bind.
      rewrite He, <-app_assoc. cbn [app]. by rewrite list_lookup_middle.
    + by exists r, L.
Qed.

Lemma init_reg_rep : reg_rep init_subscription_registry [].
Proof using Type. exists (replicate 32 zero_entry). split_and!; try done; [cbn; lia|constructor]. Qed.

(** C17. Programs of registrations, deactivations and queries see from the
    registry what they see from a finite map from (xApp, RAN function) to the
    last request id and the active flag, as long as [realloc] succeeds: every
    access is inside the buffer, however often it grows. *)
Theorem registry_run_refines os :
  outputs (reg_run realloc_ok junk os init_subscription_registry) = Ret (map_run os ∅).
Proof.
  assert (∀ r L, reg_rep r L → outputs (reg_run realloc_ok junk os r) = Ret (map_run os (reg_map L))) as H;
    [|exact (H _ [] init_reg_rep)].
  induction os as [|o os IH]; intros r L Hr; [done|]. cbn [reg_run map_run].
  destruct (reg_step_refines o r L Hr) as (r' & L' & Hs & Hr' & Hm).
  rewrite (st_bind_Ret _ _ _ _ _ Hs). destruct (map_step o (reg_map L)) as [b m]. cbn in Hm |- *. subst m.
  by rewrite outputs_map, (IH r' L' Hr').
Qed.
End refinement.

(** Forty registrations: the buffer grows once. *)
Definition ex_regs : list reg_op :=
  ((λ i, Register (Z.of_nat i) 142 (Z.of_nat i + 100)) <$> seq 0 40) ++
  [IsActive 39 142; Deactivate 39 142; IsActive 39 142; Register 39 142 7; IsActive 39 142; Deactivate 40 142]%Z.

Lemma registry_run_refines_witness :
  outputs (reg_run (λ _, true) zero_entry ex_regs init_subscription_registry) = Ret (map_run ex_regs ∅).
Proof. by apply (registry_run_refines (λ _, true) zero_entry (λ _, eq_refl) ex_regs). Defined.
