(* ===== verification/RegNodes.v ===== *)
(** * The E2 nodes registered in the iApp

    [src/src/lib/msg_hand/reg_e2_nodes.c]: the RAN functions and the components
    of every connected node, in a container ordered by node id, and the array of
    nodes an xApp gets in its setup response.  One call at a time. *)
From S2P Require Import Prelude RbTree RbAssoc AssocSpec AssocIter AssocFree RicIds E2apMsg.
#[local] Set Warnings "-clear-no-such-hyp".
#[local] Set Default Proof Using "Type*".

Record pair_rf_cca_t := mk_pair_rf_cca {
  ran_func : list ran_function_t;
  rf_comp_conf_add : list e2ap_node_component_config_add_t }.

Section reg_e2_nodes.
(** [node_to_rf]. *)
Context {T I : Type} `{AO : AssocOps global_e2_node_id_t pair_rf_cca_t T}
  `{AI : !AssocIterOps global_e2_node_id_t pair_rf_cca_t T I}
  `{AF : !AssocFreeOps global_e2_node_id_t pair_rf_cca_t T I}.

Definition init_reg_e2_node : T := a_init.

Definition add_reg_e2_node (id : global_e2_node_id_t) (rf : list ran_function_t)
    (cca : list e2ap_node_component_config_add_t) : st T () :=
  st_assert (0 <? length rf);;
  st_assert (0 <? length cca);;
  let arr_rf := cp_ran_function <$> rf in
  arr_cca ← st_lift (mapM_outcome cp_e2ap_node_component_config_add cca);
  i ← st_get;
  (if 0 <? a_size i then
     it_node ← find_in_tree (eq_node id);
     st_assert (match it_node with None => true | Some _ => false end)
   else mret ());;
  a_insert cmp_node (cp_global_e2_node_id id) (mk_pair_rf_cca arr_rf arr_cca).

Definition sz_reg_e2_node : st T nat := n ← st_get; mret (a_size n).

(** The loop of the copy; [ans] is the copy so far. *)
Fixpoint cp_reg_loop (fuel : nat) (it_node end_node : I) (ans : T) : st T T :=
  match fuel with
  | O => st_no_fuel
  | S fuel =>
    if bool_decide (it_node = end_node) then mret ans
    else
      tmp ← a_key it_node;
      rf_cca ← a_value it_node;
      let dst_rf := cp_ran_function <$> ran_func rf_cca in
      dst_cca ← st_lift (mapM_outcome cp_e2ap_node_component_config_add (rf_comp_conf_add rf_cca));
      '(_, ans) ← st_lift (a_insert cmp_node (cp_global_e2_node_id tmp) (mk_pair_rf_cca dst_rf dst_cca) ans);
      it_node ← a_next it_node;
      cp_reg_loop fuel it_node end_node ans
  end.

Definition cp_reg_e2_node : st T T :=
  n ← st_get;
  it_node ← a_front;
  end_node ← a_end;
  ans ← cp_reg_loop (S (a_size n)) it_node end_node a_init;
  st_assert (a_size ans =? a_size n);;
  mret ans.

(** The components of a node must be between 1 and 255. *)
Definition cp_cca (cca_arr : list e2ap_node_component_config_add_t) :
    outcome (list e2ap_node_component_config_add_t) :=
  c_assert ((0 <? length cca_arr) && (length cca_arr <? 256));;
  mapM_outcome cp_e2ap_node_component_config_add cca_arr.

(** The loop over the copied container; [len]: the elements of the array. *)
Fixpoint node_arr_loop (fuel len i : nat) (it end_it : I) : st T (list e2_node_connected_t) :=
  match fuel with
  | O => st_no_fuel
  | S fuel =>
    if bool_decide (it = end_it) then mret []
    else
      st_lift (in_bounds (i <? len));;
      tmp_id ← a_key it;
      rf_cca ← a_value it;
      span ← st_lift (cp_cca (rf_comp_conf_add rf_cca));
      let n := mk_e2_node_connected (cp_global_e2_node_id tmp_id) span (cp_ran_function <$> ran_func rf_cca) in
      it ← a_next it;
      l ← node_arr_loop fuel len (S i) it end_it;
      mret (n :: l)
  end.

(** [len] is a uint8_t; with no element the array is NULL. *)
Definition generate_e2_node_arr : st T (list e2_node_connected_t) :=
  t ← cp_reg_e2_node;
  let len := a_size t mod 256 in
  '(l, _) ← st_lift ((it ← a_front; end_it ← a_end; node_arr_loop (S (a_size t)) len 0 it end_it) t);
  mret l.

Definition rm_reg_e2_node (id : global_e2_node_id_t) : st T () :=
  it ← find_in_tree (eq_node id);
  match it with
  | None => st_abort
  | Some it => a_free_it it
  end.

(** ** Laws *)

Context {AL : AssocLaws (V := pair_rf_cca_t) (T := T) cmp_node} {AIL : AssocIterLaws (I := I) cmp_node}
  {AFL : AssocFreeLaws (I := I) cmp_node}.

Abbreviation entries := (list (global_e2_node_id_t * pair_rf_cca_t)).

(** What [cp_e2ap_node_component_config_add] can copy. *)
Definition cca_ok (c : e2ap_node_component_config_add_t) : bool :=
  match cp_e2ap_node_component_config_add c with Ret _ => true | _ => false end.

Lemma cp_cca_cases c :
  cp_e2ap_node_component_config_add c = Ret c ∨ cp_e2ap_node_component_config_add c = Abort.
Proof using Type.
  destruct c as [t [n|n|du|n|n] rq rs]; unfold cp_e2ap_node_component_config_add; [by left|by left| |by left|by right].
  cbn -[Z.ltb]. destruct (du <? 2 ^ 36)%Z; [by left|by right].
Qed.

Lemma copies_eq l : mapM_outcome cp_e2ap_node_component_config_add l = if forallb cca_ok l then Ret l else Abort.
Proof using Type.
  induction l as [|c l IH]; [done|]. cbn [mapM_outcome forallb]. rewrite IH. unfold cca_ok.
  destruct (cp_cca_cases c) as [-> | ->]; [|done]. cbn. by destruct (forallb _ l).
Qed.

Lemma cp_rf_id (l : list ran_function_t) : cp_ran_function <$> l = l.
Proof using Type. induction l as [|[] l IH]; cbn; [done|]. by rewrite IH. Qed.

Lemma cp_node_id id : cp_global_e2_node_id id = id.
Proof using Type. by destruct id. Qed.

(** The entries the container can hold: what [add_reg_e2_node] copied. *)
Definition entry_ok (e : global_e2_node_id_t * pair_rf_cca_t) : Prop :=
  forallb cca_ok (rf_comp_conf_add e.2) = true ∧ ran_func e.2 ≠ [] ∧ rf_comp_conf_add e.2 ≠ [].

(** The registered nodes: at most one per id, in order. *)
Definition reg_rep (t : T) (L : entries) : Prop := a_rep t L ∧ strict cmp_node L ∧ Forall entry_ok L.

Lemma ord_insert_last {V} (L : list (global_e2_node_id_t * V)) k v : strict cmp_node (L ++ [(k, v)]) →
  ord_insert cmp_node k v L = L ++ [(k, v)].
Proof using Type.
  intros Hs. rewrite <-(app_nil_r L) at 1. apply ord_insert_split; [|constructor].
  apply (strict_app cmp_node) in Hs as (_ & _ & Hs). apply Forall_forall. intros e He.
  specialize (Hs e (k, v) He (list_elem_of_here _ _)). cbn in Hs. rewrite (comp_flip (comp := cmp_node)). lia.
Qed.

Lemma cp_reg_loop_ok fuel t L i it e ans : reg_rep t L → a_it_at t L i it → a_it_at t L (length L) e →
  i ≤ length L → length L - i < fuel → a_rep ans (take i L) →
  ∃ ans', cp_reg_loop fuel it e ans t = Ret (ans', t) ∧ a_rep ans' L.
Proof using AIL.
  intros (Hrep & Hs & Hok). revert i it ans. induction fuel as [|fuel IH]; intros i it ans Hit He Hi Hf Hans; [lia|].
  cbn [cp_reg_loop]. pose proof (it_neq_end cmp_node t L i it e Hrep Hit He Hi) as Hend. case_bool_decide as Heq.
  { exists ans. subst i. by rewrite firstn_all in Hans. }
  destruct (lookup_lt_is_Some_2 L i Hend) as [[k v] Hk].
  destruct (a_entry_ok t L i it k v Hrep Hit Hk) as [Hkey Hval].
  rewrite (st_bind_Ret _ _ _ _ _ Hkey), (st_bind_Ret _ _ _ _ _ Hval). cbv zeta.
  rewrite Forall_forall in Hok. destruct (Hok (k, v)) as (Hc & _); [by eapply list_elem_of_lookup_2|].
  cbn [snd] in Hc. rewrite copies_eq, Hc, (st_bind_Ret _ _ _ _ _ eq_refl), cp_rf_id, cp_node_id.
  replace (mk_pair_rf_cca (ran_func v) (rf_comp_conf_add v)) with v by (by destruct v).
  destruct (a_insert_ok ans (take i L) k v Hans) as (ans2 & Hins & Hans2).
  erewrite st_bind_Ret by (unfold st_lift; by rewrite Hins).
  destruct (a_next_ok t L i it Hrep Hit Hend) as (it2 & Hn & Hit2). rewrite (st_bind_Ret _ _ _ _ _ Hn).
  apply (IH (S i) it2 ans2); [done|done|lia|lia|].
  assert (strict cmp_node (take (S i) L)) as Hsi.
  { rewrite <-(take_drop (S i) L) in Hs. by apply (strict_app cmp_node) in Hs as (? & _). }
  rewrite (take_S_r _ _ _ Hk) in *. by rewrite ord_insert_last in Hans2.
Qed.

Lemma cp_reg_ok t L : reg_rep t L → ∃ t', cp_reg_e2_node t = Ret (t', t) ∧ a_rep t' L.
Proof.
  intros Hreg. pose proof Hreg as (Hrep & _). unfold cp_reg_e2_node. rewrite (st_bind_Ret st_get _ _ _ _ eq_refl).
  destruct (a_front_ok t L Hrep) as (it & Hf & Hit). rewrite (st_bind_Ret _ _ _ _ _ Hf).
  destruct (a_end_ok t L Hrep) as (e & He & Hie). rewrite (st_bind_Ret _ _ _ _ _ He).
  destruct (cp_reg_loop_ok (S (a_size t)) t L 0 it e a_init Hreg Hit Hie) as (t' & Hl & Hrep');
    [lia|rewrite (a_rep_size t L Hrep); lia|apply a_init_ok|].
  exists t'. rewrite (st_bind_Ret _ _ _ _ _ Hl), (a_rep_size t L Hrep), (a_rep_size t' L Hrep'), Nat.eqb_refl.
  by split.
Qed.

(** The element of the array for an entry. *)
Definition connected_of (e : global_e2_node_id_t * pair_rf_cca_t) : e2_node_connected_t :=
  mk_e2_node_connected e.1 (rf_comp_conf_add e.2) (ran_func e.2).

Definition few_components (e : global_e2_node_id_t * pair_rf_cca_t) : bool :=
  length (rf_comp_conf_add e.2) <? 256.

Lemma node_arr_loop_ok fuel len t L i it e : a_rep t L → Forall entry_ok L → length L ≤ len →
  a_it_at t L i it → a_it_at t L (length L) e → i ≤ length L → length L - i < fuel →
  node_arr_loop fuel len i it e t =
  if forallb few_components (drop i L) then Ret (connected_of <$> drop i L, t) else Abort.
Proof using AIL.
  intros Hrep Hok Hlen. revert i it. induction fuel as [|fuel IH]; intros i it Hit He Hi Hf; [lia|].
  cbn [node_arr_loop]. pose proof (it_neq_end cmp_node t L i it e Hrep Hit He Hi) as Hend. case_bool_decide as Heq.
  { subst i. by rewrite drop_all. }
  destruct (Nat.ltb_spec i len) as [_|?]; [|lia]. rewrite (st_bind_Ret _ _ _ _ _ eq_refl).
  destruct (lookup_lt_is_Some_2 L i Hend) as [[k v] Hk].
  destruct (a_entry_ok t L i it k v Hrep Hit Hk) as [Hkey Hval].
  rewrite (st_bind_Ret _ _ _ _ _ Hkey), (st_bind_Ret _ _ _ _ _ Hval), (drop_S _ _ _ Hk).
  rewrite Forall_forall in Hok. destruct (Hok (k, v)) as (Hc & _ & Hne); [by eapply list_elem_of_lookup_2|].
  cbn [snd] in Hc, Hne. cbn [forallb]. unfold few_components at 1. cbn [snd].
  unfold mbind at 1, st_bind at 1, st_lift at 1, cp_cca.
  destruct (Nat.ltb_spec 0 (length (rf_comp_conf_add v))); [|by destruct (rf_comp_conf_add v); [|cbn in *; lia]].
  destruct (Nat.ltb_spec (length (rf_comp_conf_add v)) 256); [|done]. cbn [andb].
  rewrite c_assert_true by done. rewrite outcome_bind_ret_l, copies_eq, Hc. cbn [mbind outcome_bind].
  destruct (a_next_ok t L i it Hrep Hit Hend) as (it2 & Hn & Hit2). rewrite (st_bind_Ret _ _ _ _ _ Hn).
  unfold mbind, st_bind. rewrite (IH (S i) it2 Hit2 He) by lia. rewrite cp_rf_id, cp_node_id.
  by destruct (forallb few_components (drop (S i) L)).
Qed.

Lemma generate_e2_node_arr_ok t L : reg_rep t L → length L < 256 →
  generate_e2_node_arr t = if forallb few_components L then Ret (connected_of <$> L, t) else Abort.
Proof.
  intros Hreg Hlen. pose proof Hreg as (Hrep & Hs & Hok). unfold generate_e2_node_arr.
  destruct (cp_reg_ok t L Hreg) as (t' & Hcp & Hrep'). rewrite (st_bind_Ret _ _ _ _ _ Hcp). cbv zeta.
  destruct (a_front_ok t' L Hrep') as (it & Hf & Hit). destruct (a_end_ok t' L Hrep') as (e & He & Hie).
  unfold mbind at 1, st_bind at 1, st_lift at 1.
  rewrite (st_bind_Ret _ _ _ _ _ Hf), (st_bind_Ret _ _ _ _ _ He), (a_rep_size t' L Hrep').
  rewrite (Nat.mod_small _ 256) by done.
  rewrite (node_arr_loop_ok _ _ t' L 0 it e Hrep' Hok); [|done..|lia|lia]. rewrite drop_0.
  by destruct (forallb few_components L).
Qed.

(** With more registered nodes than the array has elements, the loop writes past
    its end (to NULL when their number is a multiple of 256). *)
Lemma node_arr_loop_overrun fuel len t L i it e : a_rep t L → Forall entry_ok L → len < length L →
  a_it_at t L i it → a_it_at t L (length L) e → i ≤ len → length L - i < fuel →
  forallb few_components L = true → node_arr_loop fuel len i it e t = Undef.
Proof using AIL.
  intros Hrep Hok Hlen Hit He Hi Hf Hfew. revert i it Hit Hi Hf.
  induction fuel as [|fuel IH]; intros i it Hit Hi Hf; [lia|].
  cbn [node_arr_loop]. pose proof (it_neq_end cmp_node t L i it e Hrep Hit He ltac:(lia)) as Hend.
  case_bool_decide as Heq; [lia|]. destruct (Nat.ltb_spec i len) as [Hlt|]; [|done].
  rewrite (st_bind_Ret _ _ _ _ _ eq_refl). destruct (lookup_lt_is_Some_2 L i Hend) as [[k v] Hk].
  destruct (a_entry_ok t L i it k v Hrep Hit Hk) as [Hkey Hval].
  rewrite (st_bind_Ret _ _ _ _ _ Hkey), (st_bind_Ret _ _ _ _ _ Hval).
  pose proof (list_elem_of_lookup_2 L i (k, v) Hk) as Hin.
  rewrite Forall_forall in Hok. destruct (Hok (k, v) Hin) as (Hc & _ & Hne). cbn [snd] in Hc, Hne.
  assert (cp_cca (rf_comp_conf_add v) = Ret (rf_comp_conf_add v)) as Hcp.
  { unfold cp_cca. rewrite forallb_forall in Hfew. specialize (Hfew (k, v) (proj1 (list_elem_of_In _ _) Hin)).
    unfold few_components in Hfew. cbn [snd] in Hfew. rewrite Hfew.
    destruct (Nat.ltb_spec 0 (length (rf_comp_conf_add v))); [|by destruct (rf_comp_conf_add v); [|cbn in *; lia]].
    cbn [andb c_assert]. by rewrite outcome_bind_ret_l, copies_eq, Hc. }
  erewrite st_bind_Ret by (unfold st_lift; by rewrite Hcp). cbv zeta.
  destruct (a_next_ok t L i it Hrep Hit Hend) as (it2 & Hn & Hit2). rewrite (st_bind_Ret _ _ _ _ _ Hn).
  unfold mbind, st_bind. by rewrite IH by (done || lia).
Qed.

Lemma generate_e2_node_arr_overrun t L : reg_rep t L → 256 ≤ length L → forallb few_components L = true →
  generate_e2_node_arr t = Undef.
Proof.
  intros Hreg Hlen Hfew. pose proof Hreg as (Hrep & Hs & Hok). unfold generate_e2_node_arr.
  destruct (cp_reg_ok t L Hreg) as (t' & Hcp & Hrep'). rewrite (st_bind_Ret _ _ _ _ _ Hcp). cbv zeta.
  destruct (a_front_ok t' L Hrep') as (it & Hf & Hit). destruct (a_end_ok t' L Hrep') as (e & He & Hie).
  unfold mbind at 1, st_bind at 1, st_lift at 1.
  rewrite (st_bind_Ret _ _ _ _ _ Hf), (st_bind_Ret _ _ _ _ _ He), (a_rep_size t' L Hrep').
  rewrite (node_arr_loop_overrun _ _ t' L 0 it e Hrep' Hok); [done| |done..|lia|lia|done].
  pose proof (Nat.mod_upper_bound (length L) 256). lia.
Qed.

(** *** Additions and removals *)

(** The same on the sequence of entries; the ids have what their types need. *)
Definition nodes_add (id : global_e2_node_id_t) (rf : list ran_function_t)
    (cca : list e2ap_node_component_config_add_t) (L : entries) : outcome entries :=
  if bool_decide (rf ≠ [] ∧ cca ≠ []) && forallb cca_ok cca && negb (existsb (λ e, eq_node id e.1) L)
  then Ret (ord_insert cmp_node id (mk_pair_rf_cca rf cca) L) else Abort.

Definition nodes_rm (id : global_e2_node_id_t) (L : entries) : outcome entries :=
  match list_find (λ e, eq_node id e.1 = true) L with
  | Some (i, _) => Ret (delete i L)
  | None => Abort
  end.

Lemma find_eq_node t L id : a_rep t L → ∃ r, find_in_tree (eq_node id) t = Ret (r, t) ∧
  match r with
  | None => existsb (λ e, eq_node id e.1) L = false ∧ list_find (λ e, eq_node id e.1 = true) L = None
  | Some it => existsb (λ e, eq_node id e.1) L = true ∧
      ∃ i e, list_find (λ e, eq_node id e.1 = true) L = Some (i, e) ∧ a_it_at t L i it ∧ i < length L
  end.
Proof using AIL.
  intros Hrep. destruct (find_in_tree_spec cmp_node (eq_node id) t L Hrep) as (r & Hf & Hr).
  exists r. split; [done|]. destruct r as [it|].
  - destruct Hr as (j & k & v & Hat & Hk & Hfk & HF). split.
    + apply existsb_exists. exists (k, v). split; [|done]. apply list_elem_of_In. by eapply list_elem_of_lookup_2.
    + exists j, (k, v). split_and!; [|done|by eapply lookup_lt_Some].
      apply list_find_Some. split_and!; [done|done|]. intros i e He Hi Hfe.
      rewrite Forall_forall in HF. rewrite (HF e) in Hfe; [done|].
      apply list_elem_of_lookup_2 with i. by rewrite lookup_take_lt.
  - split.
    + apply not_true_is_false. intros (e & He & Hfe)%existsb_exists. rewrite Forall_forall in Hr.
      apply list_elem_of_In in He. by rewrite (Hr e He) in Hfe.
    + apply list_find_None. eapply Forall_impl; [exact Hr|]. intros e He. by rewrite He.
Qed.

Lemma add_reg_eq t L id rf cca : reg_rep t L → add_reg_e2_node id rf cca t =
  match nodes_add id rf cca L with
  | Ret _ => a_insert cmp_node id (mk_pair_rf_cca rf cca) t
  | _ => Abort
  end.
Proof using AIL.
  intros (Hrep & Hs & Hok). unfold nodes_add, add_reg_e2_node.
  destruct rf as [|rf0 rf']; [done|]. set (rf := rf0 :: rf').
  destruct cca as [|c0 cca']; [done|]. set (cca := c0 :: cca').
  rewrite bool_decide_eq_true_2 by done. cbn [andb]. rewrite !(st_bind_Ret _ _ _ _ _ eq_refl). cbv zeta.
  unfold mbind at 1, st_bind at 1, st_lift at 1. rewrite copies_eq.
  destruct (forallb cca_ok cca) eqn:Hcca; [|done]. cbn [andb mbind outcome_bind].
  rewrite (st_bind_Ret st_get _ _ _ _ eq_refl), cp_rf_id, cp_node_id.
  destruct (find_eq_node t L id Hrep) as (r & Hf & Hr).
  rewrite (a_rep_size t L Hrep). unfold mbind at 1, st_bind at 1.
  destruct L as [|e L']; [done|]. change (0 <? length (e :: L')) with true. cbv iota.
  rewrite (st_bind_Ret _ _ _ _ _ Hf). by destruct r as [it|]; destruct Hr as [-> _].
Qed.

Lemma add_reg_ok t L id rf cca : reg_rep t L → node_id_wf id = true → Forall (λ e, node_id_wf e.1 = true) L →
  match nodes_add id rf cca L with
  | Ret L' => ∃ t', add_reg_e2_node id rf cca t = Ret ((), t') ∧ reg_rep t' L'
  | _ => add_reg_e2_node id rf cca t = Abort
  end.
Proof.
  intros Hreg Hid Hwf. rewrite (add_reg_eq t L id rf cca Hreg). destruct Hreg as (Hrep & Hs & Hok).
  unfold nodes_add. case_bool_decide as Hne; [|done]. destruct (forallb cca_ok cca) eqn:Hcca; [|done].
  destruct (existsb _ L) eqn:Hex; [done|]. cbn [andb negb].
  destruct (a_insert_ok t L id (mk_pair_rf_cca rf cca) Hrep) as (t' & Hins & Hrep').
  exists t'. split; [done|]. split_and!; [done| |].
  - apply (ord_insert_strict cmp_node); [done|]. rewrite Forall_forall in Hwf |- *. intros e He Hc.
    assert (existsb (λ e, eq_node id e.1) L = true) as Ht; [|congruence].
    apply existsb_exists. exists e. split; [by apply list_elem_of_In|]. apply cmp_node_eq_node; [done| |done].
    by apply Hwf.
  - rewrite ord_insert_perm. constructor; [|done]. by split_and!; [|apply Hne..].
Qed.

Lemma rm_reg_ok t L id : reg_rep t L →
  match nodes_rm id L with
  | Ret L' => ∃ t', rm_reg_e2_node id t = Ret ((), t') ∧ reg_rep t' L'
  | _ => rm_reg_e2_node id t = Abort
  end.
Proof.
  intros (Hrep & Hs & Hok). unfold nodes_rm, rm_reg_e2_node.
  destruct (find_eq_node t L id Hrep) as (r & Hf & Hr). rewrite (st_bind_Ret _ _ _ _ _ Hf).
  destruct r as [it|]; [|by destruct Hr as [_ ->]]. destruct Hr as (_ & i & e & -> & Hat & Hi).
  destruct (a_free_it_ok t L i it Hrep Hat Hi) as (t' & Ht' & Hrep'). exists t'. split; [done|].
  rewrite delete_take_drop in *. split_and!; [done| |].
  - destruct (lookup_lt_is_Some_2 L i Hi) as [x Hx]. rewrite <-(take_drop_middle L i x Hx) in Hs.
    by eapply strict_delete.
  - apply Forall_app. split; [by apply Forall_take|by apply Forall_drop].
Qed.

(** *** Programs *)

Inductive node_op :=
| AddNode (id : global_e2_node_id_t) (rf : list ran_function_t) (cca : list e2ap_node_component_config_add_t)
| RmNode (id : global_e2_node_id_t)
| ListNodes.

Definition node_step (o : node_op) : st T (list e2_node_connected_t) :=
  match o with
  | AddNode id rf cca => add_reg_e2_node id rf cca;; mret []
  | RmNode id => rm_reg_e2_node id;; mret []
  | ListNodes => generate_e2_node_arr
  end.

Definition nodes_step (o : node_op) (L : entries) : outcome (list e2_node_connected_t * entries) :=
  match o with
  | AddNode id rf cca => L' ← nodes_add id rf cca L; Ret ([], L')
  | RmNode id => L' ← nodes_rm id L; Ret ([], L')
  | ListNodes => if bool_decide (length L < 256) then Ret (connected_of <$> L, L) else Undef
  end.

Fixpoint node_run (os : list node_op) : st T (list (list e2_node_connected_t)) :=
  match os with
  | [] => mret []
  | o :: os => x ← node_step o; xs ← node_run os; mret (x :: xs)
  end.

Fixpoint nodes_run (os : list node_op) (L : entries) : outcome (list (list e2_node_connected_t)) :=
  match os with
  | [] => Ret []
  | o :: os => '(x, L') ← nodes_step o L; xs ← nodes_run os L'; Ret (x :: xs)
  end.

(** The ids have what their types need, and a component list has at most 255
    elements. *)
Definition node_op_ok (o : node_op) : bool :=
  match o with
  | AddNode id _ cca => node_id_wf id && (length cca <? 256)
  | _ => true
  end.

Definition entry_fine (e : global_e2_node_id_t * pair_rf_cca_t) : Prop :=
  node_id_wf e.1 = true ∧ few_components e = true.

Lemma entries_fine L : Forall entry_fine L → Forall (λ e, node_id_wf e.1 = true) L ∧ forallb few_components L = true.
Proof using Type.
  intros H. split; [eapply Forall_impl; [exact H|]; by intros e []|].
  apply forallb_forall. intros e He. rewrite Forall_forall in H. apply H. by apply list_elem_of_In.
Qed.

Lemma node_step_refines o t L : reg_rep t L → Forall entry_fine L → node_op_ok o = true →
  match nodes_step o L with
  | Ret (x, L') => ∃ t', node_step o t = Ret (x, t') ∧ reg_rep t' L' ∧ Forall entry_fine L'
  | Undef => node_step o t = Undef
  | _ => node_step o t = Abort
  end.
Proof.
  intros Hreg Hfine Ho. destruct (entries_fine L Hfine) as [Hwf Hfew].
  destruct o as [id rf cca|id|]; cbn [nodes_step node_step].
  - cbn in Ho. apply andb_true_iff in Ho as [Hid Hlen]. pose proof (add_reg_ok t L id rf cca Hreg Hid Hwf) as Hadd.
    unfold nodes_add in *. destruct (_ && _); cbn.
    + destruct Hadd as (t' & Ht' & Hreg'). exists t'. rewrite (st_bind_Ret _ _ _ _ _ Ht'). split_and!; try done.
      rewrite ord_insert_perm. constructor; [by split|done].
    + unfold mbind, st_bind. by rewrite Hadd.
  - pose proof (rm_reg_ok t L id Hreg) as Hrm. unfold nodes_rm in *.
    destruct (list_find _ L) as [[i e]|]; cbn [mbind outcome_bind].
    + destruct Hrm as (t' & Ht' & Hreg'). exists t'. rewrite (st_bind_Ret _ _ _ _ _ Ht'). split_and!; try done.
      rewrite delete_take_drop. apply Forall_app. split; [by apply Forall_take|by apply Forall_drop].
    + unfold mbind, st_bind. by rewrite Hrm.
  - case_bool_decide as Hlen.
    + exists t. rewrite (generate_e2_node_arr_ok t L Hreg Hlen), Hfew. done.
    + apply (generate_e2_node_arr_overrun t L Hreg); [lia|done].
Qed.

Lemma nodes_step_outcomes o L : nodes_step o L ≠ Stuck ∧ nodes_step o L ≠ NoFuel.
Proof using Type.
  destruct o; cbn; [unfold nodes_add; by destruct (_ && _)|unfold nodes_rm; by destruct (list_find _ L) as [[]|]|].
  by case_bool_decide.
Qed.

Lemma node_run_simulates os t L : reg_rep t L → Forall entry_fine L → forallb node_op_ok os = true →
  outputs (node_run os t) = nodes_run os L.
Proof.
  revert t L. induction os as [|o os IH]; intros t L Hreg Hfine Hos; [done|].
  cbn [forallb] in Hos. apply andb_true_iff in Hos as [Ho Hos].
  pose proof (node_step_refines o t L Hreg Hfine Ho) as Hst. cbn [node_run nodes_run].
  assert (∀ A B (m : st T A) (f : A → st T B), m t = Abort → outputs ((m ≫= f) t) = Abort) as Hab.
  { intros A B m f Hm. unfold mbind, st_bind. by rewrite Hm. }
  destruct (nodes_step o L) as [[x L']| | | |] eqn:Hn.
  - destruct Hst as (t' & Ht' & Hreg' & Hfine'). rewrite (st_bind_Ret _ _ _ _ _ Ht'), outputs_map, (IH t' L'); done.
  - by apply Hab.
  - unfold mbind at 1, st_bind. by rewrite Hst.
  - by destruct (nodes_step_outcomes o L) as [].
  - by destruct (nodes_step_outcomes o L) as [].
Qed.

End reg_e2_nodes.

(** Two gNBs; two CUs of one of them do not fit. *)
Definition ex_gnb (n : Z) : global_e2_node_id_t := mk_global_e2_node_id 2 (mk_plmn 505 1 2) (mk_gnb_id n 0) None.
Definition ex_gnb_cu (i : Z) : global_e2_node_id_t := mk_global_e2_node_id 5 (mk_plmn 505 1 2) (mk_gnb_id 1 0) (Some i).
Definition ex_node_ops : list node_op :=
  let rf := [mk_ran_function 142 1 [7%Z] []] in
  let cca := [mk_node_component_config_add 3 (F1_COMP_ID 7) [1%Z] [2%Z]] in
  [AddNode (ex_gnb 2) rf cca; AddNode (ex_gnb 1) rf cca; ListNodes; RmNode (ex_gnb 2); AddNode (ex_gnb_cu 1) rf cca;
   ListNodes; AddNode (ex_gnb_cu 2) rf cca].

