(* ===== verification/BiMapFind.v ===== *)
(** * Searches in a bidirectional map

    The searches the maps of the RIC and of the iApp make in one side of a
    [bi_map_t], from front to end, and the value at what they find; and the iterators
    of [bimap.c]. *)
From S2P Require Import Prelude AssocSpec AssocIter BiMap.
#[local] Set Warnings "-clear-no-such-hyp".
#[local] Set Default Proof Using "Type*".

Section find_value.
Context {K V T I : Type} `{AO : AssocOps K V T} `{AI : !AssocIterOps K V T I}.

(** [find_if] over the container, then [assoc_value]. *)
Definition find_value (f : K → bool) : st T (option V) :=
  it ← find_in_tree f;
  match it with
  | None => mret None
  | Some it => v ← a_value it; mret (Some v)
  end.
End find_value.

Lemma find_value_spec {K V T I} (comp : K → K → Z) `{AL : AssocLaws K V T comp}
    `{AI : !AssocIterOps K V T I} `{AIL : !AssocIterLaws comp} (f : K → bool) t L : a_rep t L →
  find_value f t = Ret (snd ∘ snd <$> list_find (λ e, f e.1 = true) L, t).
Proof.
  intros Hrep. unfold find_value. destruct (find_in_tree_spec comp f t L Hrep) as (r & Hf & Hr).
  rewrite (st_bind_Ret _ _ _ _ _ Hf). destruct r as [it|].
  - destruct Hr as (j & k & v & Hat & Hk & Hfk & HF).
    destruct (a_entry_ok t L j it k v Hrep Hat Hk) as [_ Hv]. rewrite (st_bind_Ret _ _ _ _ _ Hv).
    assert (list_find (λ e, f e.1 = true) L = Some (j, (k, v))) as ->; [|done].
    apply list_find_Some. split_and!; [done|done|]. intros i e He Hi Hfe.
    rewrite Forall_forall in HF. rewrite (HF e) in Hfe; [done|].
    apply list_elem_of_lookup_2 with i. by rewrite lookup_take_lt.
  - assert (list_find (λ e, f e.1 = true) L = None) as ->; [|done].
    apply list_find_None. eapply Forall_impl; [exact Hr|]. intros e He. by rewrite He.
Qed.

Section bi_map.
Context {K1 K2 TL TR IL IR : Type} `{OL : AssocOps K1 K2 TL} `{OR : AssocOps K2 K1 TR}
  `{IOL : !AssocIterOps K1 K2 TL IL} `{IOR : !AssocIterOps K2 K1 TR IR}.
Context (comp1 : K1 → K1 → Z) (comp2 : K2 → K2 → Z).
Context {LL : AssocLaws (T := TL) comp1} {LR : AssocLaws (T := TR) comp2}.
Context {ILL : AssocIterLaws (I := IL) comp1} {ILR : AssocIterLaws (I := IR) comp2}.

Abbreviation bi_map := (bi_map_t (TL := TL) (TR := TR)).

(** The iterators of either side. *)
Definition bi_map_front_left : st bi_map IL := on_left a_front.
Definition bi_map_next_left (it : IL) : st bi_map IL := on_left (a_next it).
Definition bi_map_end_left : st bi_map IL := on_left a_end.
Definition bi_map_front_right : st bi_map IR := on_right a_front.
Definition bi_map_next_right (it : IR) : st bi_map IR := on_right (a_next it).
Definition bi_map_end_right : st bi_map IR := on_right a_end.
Definition bi_map_value_left (it : IL) : st bi_map K2 := on_left (a_value it).
Definition bi_map_value_right (it : IR) : st bi_map K1 := on_right (a_value it).

Lemma find_perm {K V} (f : K → bool) (L : list (K * V)) (P : list (K * V)) : L ≡ₚ P →
  match snd ∘ snd <$> list_find (λ e, f e.1 = true) L with
  | Some v => ∃ k, (k, v) ∈ P ∧ f k = true
  | None => Forall (λ e, f e.1 = false) P
  end.
Proof using Type.
  intros HP. destruct (list_find _ L) as [[i [k v]]|] eqn:Hf; cbn.
  - apply list_find_Some in Hf as (Hi & Hk & _). exists k. split; [|done]. rewrite <-HP.
    by eapply list_elem_of_lookup_2.
  - rewrite <-HP. apply list_find_None in Hf. eapply Forall_impl; [exact Hf|]. cbn. intros e.
    by destruct (f e.1).
Qed.

(** The search in the left side finds the right key of a pair whose left key
    satisfies [f], if there is one. *)
Lemma find_left_ok (b : bi_map) P (f : K1 → bool) : bm_rep comp1 comp2 b P →
  ∃ r, on_left (find_value f) b = Ret (r, b) ∧
    match r with
    | Some k2 => ∃ k1, (k1, k2) ∈ P ∧ f k1 = true
    | None => Forall (λ p, f p.1 = false) P
    end.
Proof using ILL.
  intros (L & R & HL & _ & _ & _ & HPL & _).
  eexists. split; [|exact (find_perm f L P HPL)].
  unfold on_left. rewrite (find_value_spec comp1 f _ L HL). by destruct b.
Qed.

Lemma find_right_ok (b : bi_map) P (f : K2 → bool) : bm_rep comp1 comp2 b P →
  ∃ r, on_right (find_value f) b = Ret (r, b) ∧
    match r with
    | Some k1 => ∃ k2, (k1, k2) ∈ P ∧ f k2 = true
    | None => Forall (λ p, f p.2 = false) P
    end.
Proof using ILR.
  intros (L & R & _ & HR & _ & _ & _ & HPR & _).
  eexists (snd ∘ snd <$> list_find (λ e, f e.1 = true) R). split.
  { unfold on_right. rewrite (find_value_spec comp2 f _ R HR). by destruct b. }
  pose proof (find_perm f R (swap <$> P) HPR) as H.
  destruct (snd ∘ snd <$> list_find _ R) as [k1|].
  - destruct H as (k2 & Hin & Hf). apply list_elem_of_fmap in Hin as ([a c] & [= -> ->] & Hin).
    by exists c.
  - by rewrite Forall_fmap in H.
Qed.
End bi_map.
