(* ===== verification/AddrMaps.v ===== *)
(** * Address books

    The addresses of the E2 nodes ([src/src/ric/map_e2_node_sockaddr.c]) and of
    the xApps ([src/src/ric/iApp/map_xapps_sockaddr.c]), one call at a time. *)
From S2P Require Import Prelude AssocSpec AssocIter BiMap BiMapFind RicIds.
#[local] Set Warnings "-clear-no-such-hyp".
#[local] Set Default Proof Using "Type*".

(** ** E2 nodes: node id to address and back *)

Section e2_nodes.
Context {TL TR IL : Type} `{OL : AssocOps global_e2_node_id_t sctp_info_t TL}
  `{OR : AssocOps sctp_info_t global_e2_node_id_t TR}
  `{IOL : !AssocIterOps global_e2_node_id_t sctp_info_t TL IL}.

Abbreviation map_e2_node_sockaddr_t := (bi_map_t (TL := TL) (TR := TR)).

Definition add_map_e2_node_sad (id : global_e2_node_id_t) (s : sctp_info_t) : st map_e2_node_sockaddr_t () :=
  let id_cp := cp_global_e2_node_id id in
  bi_map_insert cmp_node cmp_sctp_info_wrapper id_cp s.

Definition rm_map_sad_e2_node (s : sctp_info_t) : st map_e2_node_sockaddr_t global_e2_node_id_t :=
  bi_map_extract_right cmp_node cmp_sctp_info_wrapper s.

Definition rm_map_e2_node_sad (id : global_e2_node_id_t) : st map_e2_node_sockaddr_t sctp_info_t :=
  bi_map_extract_left cmp_node cmp_sctp_info_wrapper id.

Definition find_map_e2_node_sad (id : global_e2_node_id_t) : st map_e2_node_sockaddr_t sctp_info_t :=
  s ← on_left (find_value (eq_node id));
  match s with
  | None => st_abort
  | Some s => mret s
  end.
End e2_nodes.

(** ** xApps: xApp id to address and back *)

Definition cmp_uint16_wrapper := cmp_up.
Definition eq_uint16_wrapper (a b : Z) : bool := (a =? b)%Z.

Section xapps.
Context {TL TR IL IR : Type} `{OL : AssocOps Z sctp_info_t TL} `{OR : AssocOps sctp_info_t Z TR}
  `{IOL : !AssocIterOps Z sctp_info_t TL IL} `{IOR : !AssocIterOps sctp_info_t Z TR IR}.

Abbreviation map_xapps_sockaddr_t := (bi_map_t (TL := TL) (TR := TR)).

Definition add_map_xapps_sad (xapp_id : Z) (s : sctp_info_t) : st map_xapps_sockaddr_t () :=
  it ← on_left (find_in_tree (eq_uint16_wrapper xapp_id));
  st_assert (match it with None => true | Some _ => false end);;
  bi_map_insert cmp_uint16_wrapper cmp_sctp_info_wrapper xapp_id s.

(** The first statement is a false assertion. *)
Definition rm_map_xapps_sad (xapp_id : Z) : st map_xapps_sockaddr_t () :=
  st_assert false;;
  _ ← bi_map_extract_left cmp_uint16_wrapper cmp_sctp_info_wrapper xapp_id; mret ().

Definition find_map_xapps_sad (xapp_id : Z) : st map_xapps_sockaddr_t sctp_info_t :=
  s ← on_left (find_value (eq_uint16_wrapper xapp_id));
  match s with
  | None => st_abort
  | Some s => mret s
  end.

Definition find_map_xapps_xid (s : sctp_info_t) : st map_xapps_sockaddr_t Z :=
  xapp_id ← on_right (find_value (eq_sctp_info_wrapper s));
  match xapp_id with
  | None => st_abort
  | Some xapp_id => mret xapp_id
  end.

Context {LL : AssocLaws (T := TL) cmp_uint16_wrapper} {LR : AssocLaws (T := TR) cmp_sctp_info_wrapper}.
Context {ILL : AssocIterLaws (I := IL) cmp_uint16_wrapper}.
Implicit Types (m : map_xapps_sockaddr_t).

Abbreviation xapps_rep := (bm_rep cmp_uint16_wrapper cmp_sctp_info_wrapper).

Lemma bm_rep_keys m P : xapps_rep m P → NoDup P.*1.
Proof using LL.
  intros (L & R & _ & _ & HsL & _ & HPL & _). rewrite <-HPL. by apply (strict_NoDup cmp_uint16_wrapper).
Qed.

Lemma find_map_xapps_sad_ok m P x s : xapps_rep m P → (x, s) ∈ P → find_map_xapps_sad x m = Ret (s, m).
Proof using ILL.
  intros Hr Hin. unfold find_map_xapps_sad.
  destruct (find_left_ok cmp_uint16_wrapper cmp_sctp_info_wrapper m P (eq_uint16_wrapper x) Hr) as (r & Hf & Hm).
  rewrite (st_bind_Ret _ _ _ _ _ Hf). pose proof (bm_rep_keys m P Hr) as Hnd. destruct r as [s'|].
  - destruct Hm as (x' & Hin' & Hx). apply Z.eqb_eq in Hx as <-.
    by rewrite (NoDup_fst_inj P x s s' Hnd Hin Hin').
  - rewrite Forall_forall in Hm. specialize (Hm _ Hin). unfold eq_uint16_wrapper in Hm. cbn in Hm. lia.
Qed.

Lemma find_map_xapps_sad_absent m P x : xapps_rep m P → x ∉ P.*1 → find_map_xapps_sad x m = Abort.
Proof using ILL.
  intros Hr Hx. unfold find_map_xapps_sad.
  destruct (find_left_ok cmp_uint16_wrapper cmp_sctp_info_wrapper m P (eq_uint16_wrapper x) Hr) as (r & Hf & Hm).
  rewrite (st_bind_Ret _ _ _ _ _ Hf). destruct r as [s|]; [|done].
  exfalso. destruct Hm as (x' & Hin' & Hx'). apply Z.eqb_eq in Hx' as <-. apply Hx.
  by apply (list_elem_of_fmap_2' fst P (x, s)).
Qed.

(** The xApp of an address. *)
Lemma find_map_xapps_xid_ok {ILR : AssocIterLaws (V := Z) (I := IR) cmp_sctp_info_wrapper} m P x s : xapps_rep m P →
  (x, s) ∈ P → find_map_xapps_xid s m = Ret (x, m).
Proof using LR.
  intros Hr Hin. unfold find_map_xapps_xid.
  destruct (find_right_ok cmp_uint16_wrapper cmp_sctp_info_wrapper m P (eq_sctp_info_wrapper s) Hr) as (r & Hf & Hm).
  rewrite (st_bind_Ret _ _ _ _ _ Hf). destruct r as [x'|].
  - destruct Hm as (s' & Hin' & Hs). apply Z.eqb_eq in Hs. destruct Hr as (_ & R & _ & _ & _ & HsR & _ & HPR & _).
    assert (∀ y t, (y, t) ∈ P → (t, y) ∈ R) as HR.
    { intros y t Hy. rewrite HPR. by apply (list_elem_of_fmap_2 swap P (y, t)). }
    pose proof (HR _ _ Hin) as Hsin. apply list_elem_of_split in Hsin as (R1 & R2 & HeqR).
    pose proof (strict_member cmp_sctp_info_wrapper s R R1 (s, x) R2 (s', x') HsR HeqR (HR _ _ Hin')
      (comp_refl cmp_sctp_info_wrapper s) Hs) as [= _ ->]. done.
  - rewrite Forall_forall in Hm. specialize (Hm _ Hin). cbn in Hm. unfold eq_sctp_info_wrapper in Hm.
    by rewrite (comp_refl cmp_sctp_info_wrapper) in Hm.
Qed.

(** A new xApp at a new address. *)
Lemma add_map_xapps_sad_ok m P x s : xapps_rep m P → x ∉ P.*1 →
  Forall (λ p, cmp_sctp_info_wrapper s p.2 ≠ 0%Z) P →
  ∃ m', add_map_xapps_sad x s m = Ret ((), m') ∧ xapps_rep m' ((x, s) :: P).
Proof using ILL LR.
  intros Hr Hx Hs. unfold add_map_xapps_sad.
  assert (on_left (find_in_tree (eq_uint16_wrapper x)) m = Ret (None, m)) as Hf.
  { destruct Hr as (L & R & HL & _ & _ & _ & HPL & _).
    destruct (find_in_tree_spec cmp_uint16_wrapper (eq_uint16_wrapper x) _ L HL) as (r & Hf & Hm).
    unfold on_left. rewrite Hf. destruct r as [it|]; [|by destruct m]. exfalso.
    destruct Hm as (j & k & v & _ & Hk & Hxk & _). apply Z.eqb_eq in Hxk as <-. apply Hx. rewrite <-HPL.
    apply (list_elem_of_fmap_2' fst L (x, v)); [by eapply list_elem_of_lookup_2|done]. }
  rewrite (st_bind_Ret _ _ _ _ _ Hf), (st_bind_Ret _ _ _ _ _ eq_refl).
  apply (bm_insert_ok cmp_uint16_wrapper cmp_sctp_info_wrapper m P x s Hr).
  apply (fresh_pair_spec cmp_uint16_wrapper cmp_sctp_info_wrapper). split; [|done].
  apply Forall_forall. intros p Hp Hc. apply (proj1 (cmp_up_eq _ _)) in Hc as ->.
  apply Hx. by apply list_elem_of_fmap_2.
Qed.

(** An xApp id that has an address. *)
Lemma add_map_xapps_sad_dup m P x s : xapps_rep m P → x ∈ P.*1 → add_map_xapps_sad x s m = Abort.
Proof using ILL.
  intros (L & R & HL & _ & _ & _ & HPL & _) Hx. unfold add_map_xapps_sad.
  destruct (find_in_tree_spec cmp_uint16_wrapper (eq_uint16_wrapper x) _ L HL) as (r & Hf & Hm).
  unfold mbind at 1, st_bind, on_left. rewrite Hf. destruct r as [it|]; [done|]. exfalso.
  rewrite <-HPL in Hx. apply list_elem_of_fmap in Hx as (e & -> & He). rewrite Forall_forall in Hm.
  specialize (Hm e He). unfold eq_uint16_wrapper in Hm. lia.
Qed.
End xapps.
