(* ===== verification/MapRicId.v ===== *)
(** * The map of request ids of the iApp

    [src/src/ric/iApp/map_ric_id.c]: which xApp a request id at an E2 node
    belongs to, and back, under a read-write lock.  The state of the lock is that
    of the thread that runs; the other threads wait. *)
From S2P Require Import Prelude AssocSpec AssocIter BiMap BiMapFind RicIds E2apMsg.
#[local] Set Warnings "-clear-no-such-hyp".
#[local] Set Default Proof Using "Type*".

Inductive rwlock_t := Unlocked | ReadLocked (n : nat) | WriteLocked.
#[export] Instance rwlock_eq_dec : EqDecision rwlock_t.
Proof. solve_decision. Defined.

Section map_ric_id.
Context {TL TR IL IR : Type} `{OL : AssocOps e2_node_ric_id_t xapp_ric_id_t TL}
  `{OR : AssocOps xapp_ric_id_t e2_node_ric_id_t TR}
  `{IOL : !AssocIterOps e2_node_ric_id_t xapp_ric_id_t TL IL}
  `{IOR : !AssocIterOps xapp_ric_id_t e2_node_ric_id_t TR IR}.

(** What a lock call gives to a thread that holds the lock for writing already:
    an error ([EDEADLK]), or it blocks ([None]).  POSIX leaves the choice to the
    implementation. *)
Context (relock : option Z).

Record map_ric_id_t := mk_map_ric_id { bimap : bi_map_t (TL := TL) (TR := TR); rw : rwlock_t }.

Abbreviation M := (st map_ric_id_t).

Definition on_bimap {A} (m : st bi_map_t A) : M A := λ s,
  '(a, b) ← m (bimap s); Ret (a, mk_map_ric_id b (rw s)).
Definition set_rw (l : rwlock_t) (s : map_ric_id_t) : map_ric_id_t := mk_map_ric_id (bimap s) l.

Definition relocked : M Z := match relock with Some rc => mret rc | None => λ _, Stuck end.

Definition pthread_rwlock_wrlock : M Z :=
  map ← st_get;
  match rw map with
  | Unlocked => st_mod (set_rw WriteLocked);; mret 0%Z
  | _ => relocked
  end.
Definition pthread_rwlock_rdlock : M Z :=
  map ← st_get;
  match rw map with
  | Unlocked => st_mod (set_rw (ReadLocked 1));; mret 0%Z
  | ReadLocked n => st_mod (set_rw (ReadLocked (S n)));; mret 0%Z
  | WriteLocked => relocked
  end.
Definition pthread_rwlock_unlock : M Z :=
  map ← st_get;
  match rw map with
  | Unlocked => st_undef
  | ReadLocked (S (S n)) => st_mod (set_rw (ReadLocked (S n)));; mret 0%Z
  | _ => st_mod (set_rw Unlocked);; mret 0%Z
  end.

Definition add_map_ric_id (node : e2_node_ric_id_t) (xapp : xapp_ric_id_t) : M () :=
  rc ← pthread_rwlock_wrlock;
  if negb (rc =? 0)%Z then mret ()
  else
    it ← on_bimap (on_left (find_in_tree (eq_e2_node_ric_req node)));
    match it with
    | Some _ => _ ← on_bimap (bi_map_extract_left cmp_e2_node_ric_req_wrapper cmp_xapp_ric_gen_id node); mret ()
    | None => mret ()
    end;;
    on_bimap (bi_map_insert cmp_e2_node_ric_req_wrapper cmp_xapp_ric_gen_id node xapp);;
    _ ← pthread_rwlock_unlock;
    mret ().

Definition rm_map_ric_id (ric_id : xapp_ric_id_t) : M () :=
  rc ← pthread_rwlock_wrlock;
  st_assert (rc =? 0)%Z;;
  _ ← on_bimap (bi_map_extract_right cmp_e2_node_ric_req_wrapper cmp_xapp_ric_gen_id ric_id);
  rc ← pthread_rwlock_unlock;
  st_assert (rc =? 0)%Z.

(** [n] tries to lock, with a pause between them. *)
Fixpoint rdlock_retry (n : nat) : M Z :=
  rc ← pthread_rwlock_rdlock;
  if (rc =? 0)%Z then mret rc
  else match n with
       | S (S n as n') => rdlock_retry n'
       | _ => mret rc
       end.

(** [ric_req_id] is a uint16_t: callers pass a request id of 32 bits. *)
Definition find_xapp_map_ric_id (ric_req_id : Z) : M (option xapp_ric_id_t) :=
  let dummy_node := mk_e2_node_ric_id (mk_global_e2_node_id 0 (mk_plmn 0 0 0) (mk_gnb_id 0 0) None)
                      (mk_ric_gen_id (wrap 16 ric_req_id) 0 0) SUBSCRIPTION_RIC_REQUEST_TYPE in
  rc ← rdlock_retry 3;
  if negb (rc =? 0)%Z then mret None
  else
    ans ← on_bimap (on_left (find_value (eq_e2_node_ric_req dummy_node)));
    _ ← pthread_rwlock_unlock;
    mret ans.

Definition find_ric_req_map_ric_id (x : xapp_ric_id_t) : M e2_node_ric_id_t :=
  rc ← pthread_rwlock_rdlock;
  st_assert (rc =? 0)%Z;;
  id ← on_bimap (on_right (find_value (eq_xapp_ric_gen_id x)));
  match id with
  | None => st_abort
  | Some id =>
      rc ← pthread_rwlock_unlock;
      st_assert (rc =? 0)%Z;;
      mret id
  end.

(** The loop over the subscriptions of an xApp, from iterator [it]. *)
Fixpoint find_subs_loop (fuel : nat) (x : xapp_ric_id_t) (it end_it : IR) : st TR (list e2_node_ric_id_t) :=
  match fuel with
  | O => st_no_fuel
  | S fuel =>
    if bool_decide (it = end_it) then mret []
    else
      n ← a_value it;
      right ← st_get;
      it ← a_next it;
      it ← find_if_rb_tree (S (a_size right)) (eq_xapp_ric_gen_id2 x) it end_it;
      arr ← find_subs_loop fuel x it end_it;
      mret (if bool_decide (ric_req_type n = SUBSCRIPTION_RIC_REQUEST_TYPE) then cp_e2_node_ric_id n :: arr else arr)
  end.

Definition find_all_subs_map_ric_id (xapp_id : Z) : M (list e2_node_ric_id_t) :=
  let first_xapp_id := mk_xapp_ric_id (mk_ric_gen_id 0 0 0) xapp_id in
  rc ← pthread_rwlock_rdlock;
  st_assert (rc =? 0)%Z;;
  arr ← on_bimap (on_right (
    right ← st_get;
    it ← a_front;
    end_it ← a_end;
    it ← find_if_rb_tree (S (a_size right)) (eq_xapp_ric_gen_id2 first_xapp_id) it end_it;
    find_subs_loop (S (a_size right)) first_xapp_id it end_it));
  rc ← pthread_rwlock_unlock;
  st_assert (rc =? 0)%Z;;
  mret arr.

(** ** Laws *)

Context {LL : AssocLaws (V := xapp_ric_id_t) (T := TL) cmp_e2_node_ric_req_wrapper}
  {LR : AssocLaws (V := e2_node_ric_id_t) (T := TR) cmp_xapp_ric_gen_id}.
Context {ILL : AssocIterLaws (V := xapp_ric_id_t) (I := IL) cmp_e2_node_ric_req_wrapper}
  {ILR : AssocIterLaws (V := e2_node_ric_id_t) (I := IR) cmp_xapp_ric_gen_id}.
Implicit Types (s : map_ric_id_t).

Abbreviation pairs := (list (e2_node_ric_id_t * xapp_ric_id_t)).

(** An unlocked map that holds the pairs [P]. *)
Definition map_rep s (P : pairs) : Prop :=
  bm_rep cmp_e2_node_ric_req_wrapper cmp_xapp_ric_gen_id (bimap s) P ∧ rw s = Unlocked.

Definition node_req (n : e2_node_ric_id_t) : Z := ric_req_id (n_ric_id n).

(** At most one pair per request id, at most one per xApp and request id. *)
Lemma map_rep_unique s P : map_rep s P → NoDup ((λ p, node_req p.1) <$> P) ∧ NoDup P.*2.
Proof.
  intros ((L & R & _ & _ & HsL & HsR & HPL & HPR & _) & _). split.
  - rewrite <-HPL. clear -HsL. induction HsL as [|e L Hs IH HF]; cbn; constructor; [|done].
    intros (e' & He & Hin)%list_elem_of_fmap. rewrite Forall_forall in HF. specialize (HF e' Hin).
    assert (cmp_e2_node_ric_req_wrapper e.1 e'.1 = 0%Z) as H0 by (by apply cmp_e2_node_ric_req_eq).
    by rewrite H0 in HF.
  - assert (P.*2 = (swap <$> P).*1) as -> by (rewrite <-list_fmap_compose; by apply list_fmap_ext; intros i [] ?).
    rewrite <-HPR. by apply (strict_NoDup cmp_xapp_ric_gen_id).
Qed.

(** The lock around a search and around a change. *)
Abbreviation rd s := (set_rw (ReadLocked 1) s).

Lemma rdlock_ok s : rw s = Unlocked → pthread_rwlock_rdlock s = Ret (0%Z, rd s).
Proof using Type. intros Hs. unfold pthread_rwlock_rdlock. rewrite (st_bind_Ret st_get _ _ _ _ eq_refl). by rewrite Hs. Qed.

Lemma rdunlock_ok s : rw s = Unlocked → pthread_rwlock_unlock (rd s) = Ret (0%Z, s).
Proof using Type. destruct s as [b l]. cbn. by intros ->. Qed.

Lemma wrlock_ok s : rw s = Unlocked → pthread_rwlock_wrlock s = Ret (0%Z, set_rw WriteLocked s).
Proof using Type. intros Hs. unfold pthread_rwlock_wrlock. rewrite (st_bind_Ret st_get _ _ _ _ eq_refl). by rewrite Hs. Qed.

(** A thread that holds the write lock does not record anything. *)
Lemma add_map_relocked s n x : rw s = WriteLocked → relock ≠ Some 0%Z →
  add_map_ric_id n x s = match relock with None => Stuck | Some _ => Ret ((), s) end.
Proof using Type.
  intros Hs Hr. unfold add_map_ric_id. assert (pthread_rwlock_wrlock s = relocked s) as Hl.
  { unfold pthread_rwlock_wrlock. rewrite (st_bind_Ret st_get _ _ _ _ eq_refl). by rewrite Hs. }
  unfold mbind at 1, st_bind at 1. rewrite Hl. unfold relocked. destruct relock as [rc|]; [|done].
  change ((mret rc : M Z) s) with (@Ret (Z * map_ric_id_t) (rc, s)). rewrite outcome_bind_ret_l, (proj2 (Z.eqb_neq rc 0)) by congruence. done.
Qed.

Lemma on_bimap_Ret {A} (m : st bi_map_t A) s l a b : m (bimap s) = Ret (a, b) →
  on_bimap m (set_rw l s) = Ret (a, mk_map_ric_id b l).
Proof using Type. intros Hm. unfold on_bimap. cbn [bimap set_rw]. by rewrite Hm. Qed.

Lemma on_bimap_read {A} (m : st bi_map_t A) s a : m (bimap s) = Ret (a, bimap s) → on_bimap m (rd s) = Ret (a, rd s).
Proof using Type. apply on_bimap_Ret. Qed.

Lemma find_xapp_ok s P q : map_rep s P → ∃ r, find_xapp_map_ric_id q s = Ret (r, s) ∧
  match r with
  | Some x => ∃ n, (n, x) ∈ P ∧ node_req n = wrap 16 q
  | None => Forall (λ p, node_req p.1 ≠ wrap 16 q) P
  end.
Proof using ILL.
  intros [Hb Hrw]. unfold find_xapp_map_ric_id. cbv zeta. set (d := mk_e2_node_ric_id _ _ _).
  destruct (find_left_ok cmp_e2_node_ric_req_wrapper cmp_xapp_ric_gen_id (bimap s) P (eq_e2_node_ric_req d) Hb)
    as (r & Hf & Hr). exists r. split.
  - assert (rdlock_retry 3 s = Ret (0%Z, rd s)) as Hlk.
    { cbn [rdlock_retry]. by rewrite (st_bind_Ret _ _ _ _ _ (rdlock_ok s Hrw)). }
    rewrite (st_bind_Ret _ _ _ _ _ Hlk). cbn [Z.eqb negb].
    rewrite (st_bind_Ret _ _ _ _ _ (on_bimap_read _ _ _ Hf)).
    by rewrite (st_bind_Ret _ _ _ _ _ (rdunlock_ok s Hrw)).
  - destruct r as [x|].
    + destruct Hr as (n & Hin & Hn). exists n. split; [done|]. by apply Z.eqb_eq in Hn.
    + eapply Forall_impl; [exact Hr|]. cbn. intros p Hp Hq. unfold eq_e2_node_ric_req in Hp. cbn in Hp.
      apply Z.eqb_neq in Hp. by apply Hp.
Qed.

Lemma find_ric_req_ok s P x : map_rep s P →
  (∃ n x', find_ric_req_map_ric_id x s = Ret (n, s) ∧ (n, x') ∈ P ∧ x_ric_id x' = x_ric_id x) ∨
  (find_ric_req_map_ric_id x s = Abort ∧ Forall (λ p, x_ric_id p.2 ≠ x_ric_id x) P).
Proof using ILR.
  intros [Hb Hrw]. unfold find_ric_req_map_ric_id.
  destruct (find_right_ok cmp_e2_node_ric_req_wrapper cmp_xapp_ric_gen_id (bimap s) P (eq_xapp_ric_gen_id x) Hb)
    as (r & Hf & Hr).
  rewrite (st_bind_Ret _ _ _ _ _ (rdlock_ok s Hrw)), (st_bind_Ret _ _ _ _ _ eq_refl).
  rewrite (st_bind_Ret _ _ _ _ _ (on_bimap_read _ _ _ Hf)). destruct r as [n|].
  - left. destruct Hr as (x' & Hin & Hx). exists n, x'. split_and!; [by rewrite (st_bind_Ret _ _ _ _ _ (rdunlock_ok s Hrw))|done|].
    rewrite eq_xapp_ric_gen_id_spec in Hx. apply eq_ric_gen_id_spec in Hx. done.
  - right. split; [done|]. eapply Forall_impl; [exact Hr|]. cbn. intros p Hp Hx.
    rewrite eq_xapp_ric_gen_id_spec in Hp. rewrite Hx in Hp.
    by rewrite (proj2 (eq_ric_gen_id_spec _ _) eq_refl) in Hp.
Qed.

Lemma rm_map_ok s P n x : map_rep s P → (n, x) ∈ P →
  ∃ s' P', rm_map_ric_id x s = Ret ((), s') ∧ P ≡ₚ (n, x) :: P' ∧ map_rep s' P'.
Proof using LL LR.
  intros [Hb Hrw] Hin.
  destruct (bm_right_ok cmp_e2_node_ric_req_wrapper cmp_xapp_ric_gen_id (bimap s) P (n, x) x Hb Hin)
    as (b' & P' & Hx & HP & Hb'); [by apply (comp_refl cmp_xapp_ric_gen_id)|].
  exists (mk_map_ric_id b' Unlocked), P'. split_and!; [|done|done].
  unfold rm_map_ric_id. rewrite (st_bind_Ret _ _ _ _ _ (wrlock_ok s Hrw)), (st_bind_Ret _ _ _ _ _ eq_refl).
  by rewrite (st_bind_Ret _ _ _ _ _ (on_bimap_Ret _ s WriteLocked _ _ Hx)).
Qed.

(** The subscriptions of an xApp. *)
Definition xapp_sub (x : Z) (n : e2_node_ric_id_t) (xid : xapp_ric_id_t) : Prop :=
  xapp_id xid = x ∧ ric_req_type n = SUBSCRIPTION_RIC_REQUEST_TYPE.
#[local] Instance xapp_sub_dec x n xid : Decision (xapp_sub x n xid).
Proof using Type. unfold xapp_sub. apply _. Defined.

Definition subs_of (x : Z) (R : list (xapp_ric_id_t * e2_node_ric_id_t)) : list e2_node_ric_id_t :=
  (filter (λ e, xapp_sub x e.2 e.1) R).*2.

Lemma subs_of_none x R : Forall (λ e, (x =? xapp_id e.1)%Z = false) R → subs_of x R = [].
Proof using Type.
  intros H. unfold subs_of. induction H as [|e R He _ IH]; [done|]. rewrite filter_cons_False; [done|].
  intros [Hx _]. rewrite Hx, Z.eqb_refl in He. done.
Qed.

Lemma subs_of_app x R1 R2 : subs_of x (R1 ++ R2) = subs_of x R1 ++ subs_of x R2.
Proof using Type. unfold subs_of. by rewrite filter_app, fmap_app. Qed.

Lemma subs_of_cons k n R : subs_of (xapp_id k) ((k, n) :: R) =
  if bool_decide (ric_req_type n = SUBSCRIPTION_RIC_REQUEST_TYPE)
  then cp_e2_node_ric_id n :: subs_of (xapp_id k) R else subs_of (xapp_id k) R.
Proof using Type.
  unfold subs_of. replace (cp_e2_node_ric_id n) with n by (destruct n as [[]]; done). case_bool_decide as Ht.
  - by rewrite filter_cons_True.
  - rewrite filter_cons_False; [done|]. by intros [_ ?].
Qed.

Lemma find_subs_loop_ok fuel t R j it e x : a_rep t R → a_it_at t R j it → a_it_at t R (length R) e →
  j ≤ length R → length R - j < fuel →
  match R !! j with Some p => eq_xapp_ric_gen_id2 x p.1 = true | None => True end →
  find_subs_loop fuel x it e t = Ret (subs_of (xapp_id x) (drop j R), t).
Proof using ILR.
  intros Hrep. revert j it. induction fuel as [|fuel IH]; intros j it Hit He Hj Hf Hm; [lia|].
  cbn [find_subs_loop]. pose proof (it_neq_end cmp_xapp_ric_gen_id t R j it e Hrep Hit He Hj) as Hend.
  case_bool_decide as Heq; [by rewrite Hend, drop_all|].
  destruct (lookup_lt_is_Some_2 R j Hend) as [[k n] Hk]. rewrite Hk in Hm. cbn in Hm. apply Z.eqb_eq in Hm.
  destruct (a_entry_ok t R j it k n Hrep Hit Hk) as [_ Hval].
  rewrite (st_bind_Ret _ _ _ _ _ Hval), (st_bind_Ret st_get _ _ _ _ eq_refl).
  destruct (a_next_ok t R j it Hrep Hit Hend) as (it2 & Hn & Hit2). rewrite (st_bind_Ret _ _ _ _ _ Hn).
  destruct (find_if_spec cmp_xapp_ric_gen_id (S (a_size t)) (eq_xapp_ric_gen_id2 x) t R (S j) it2 e Hrep Hit2 He)
    as (j' & it' & Hs & Hat' & Hj' & HF & Hm'); [lia|rewrite (a_rep_size t R Hrep); lia|].
  rewrite (st_bind_Ret _ _ _ _ _ Hs). erewrite st_bind_Ret by (apply IH; [done|done|lia|lia|done]).
  rewrite (drop_S _ _ _ Hk). assert (drop (S j) R = take (j' - S j) (drop (S j) R) ++ drop j' R) as Hd.
  { rewrite <-(take_drop (j' - S j) (drop (S j) R)) at 1. rewrite drop_drop. do 2 f_equal. lia. }
  rewrite Hm, subs_of_cons, <-Hm, Hd, subs_of_app, (subs_of_none (xapp_id x) (take _ _)) by done.
  by case_bool_decide.
Qed.

Lemma find_all_subs_ok s P x : map_rep s P →
  ∃ arr, find_all_subs_map_ric_id x s = Ret (arr, s) ∧ arr ≡ₚ (filter (λ p, xapp_sub x p.1 p.2) P).*1.
Proof using ILR.
  intros [Hb Hrw]. pose proof Hb as (L & R & _ & HR & _ & _ & _ & HPR & _).
  exists (subs_of x R). split.
  - unfold find_all_subs_map_ric_id. cbv zeta.
    rewrite (st_bind_Ret _ _ _ _ _ (rdlock_ok s Hrw)), (st_bind_Ret _ _ _ _ _ eq_refl).
    rewrite (st_bind_Ret _ _ _ (subs_of x R) (rd s)).
    2: { apply on_bimap_read. unfold on_right. rewrite (st_bind_Ret st_get _ _ _ _ eq_refl).
      destruct (a_front_ok _ R HR) as (it & Hf & Hit). rewrite (st_bind_Ret _ _ _ _ _ Hf).
      destruct (a_end_ok _ R HR) as (e & He & Hie). rewrite (st_bind_Ret _ _ _ _ _ He).
      set (x0 := mk_xapp_ric_id _ _).
      destruct (find_if_spec cmp_xapp_ric_gen_id (S (a_size (right (bimap s)))) (eq_xapp_ric_gen_id2 x0) _ R 0 it e HR Hit Hie)
        as (j & it' & Hs & Hat & Hj & HF & Hm); [lia|rewrite (a_rep_size _ R HR); lia|].
      rewrite (st_bind_Ret _ _ _ _ _ Hs).
      rewrite (find_subs_loop_ok _ _ R j it' e x0 HR Hat Hie) by (done || rewrite ?(a_rep_size _ R HR); lia).
      rewrite Nat.sub_0_r, drop_0 in HF. assert (subs_of x R = subs_of x (drop j R)) as ->.
      { rewrite <-(take_drop j R) at 1. by rewrite subs_of_app, (subs_of_none x (take j R)). }
      by destruct (bimap s). }
    by rewrite (st_bind_Ret _ _ _ _ _ (rdunlock_ok s Hrw)).
  - unfold subs_of. rewrite HPR. clear. induction P as [|[n xid] P IH]; [done|]. cbn [fmap list_fmap swap].
    destruct (decide (xapp_sub x n xid)).
    + rewrite !filter_cons_True by done. cbn. by rewrite IH.
    + rewrite !filter_cons_False by done. done.
Qed.
End map_ric_id.
