(* ===== verification/NearRic.v ===== *)
(** * The near-RT RIC: pending events and message handlers

    [src/src/ric/near_ric.c], [src/src/ric/msg_handler_ric.c].  Every request to
    an E2 node arms a timer and records a pending event; the answer of the node
    stops it.  The timers are file descriptors the kernel gives out; messages
    sent, calls of the iApp and of the listeners are collected in the state,
    latest first.  The containers are any implementation of the
    interface.  One call at a time: the mutexes are not modelled. *)
From Stdlib Require Import String.
From S2P Require Import Prelude AssocSpec AssocIter BiMap BiMapFind RicIds E2apMsg AddrMaps.
From stdpp Require Import gmap.
#[local] Set Warnings "-clear-no-such-hyp".

Definition cmp_fd := cmp_up.
Definition cmp_ran_func_id := cmp_up.
Definition eq_ran_func_id (a b : Z) : bool := (a =? b)%Z.
Abbreviation comp_pend := cmp_pending_event_ric.

(** ** Service models, [sm_ric_t] of [src/src/sm/sm_ric.h]

    The functions a plugin provides.  An indication decodes to a type of
    statistics and its data; commands [C] come from the user. *)
Record sm_ric_t {C D : Type} := mk_sm_ric {
  sm_ran_func_id : Z;
  on_subscription : C → outcome (bytes * option bytes);   (** event trigger, action definition *)
  on_indication : ric_indication_t → outcome (Z * D);
  on_control_req : C → outcome (bytes * bytes);           (** header, message *)
  free_ind_data : D → outcome () }.                       (** may abort *)
Arguments sm_ric_t : clear implicits.
Arguments mk_sm_ric {C D} _ _ _ _ _.

(** ** Connected nodes, [src/src/ric/e2_node.c] *)

Record e2_node_t := mk_e2_node { n_id : global_e2_node_id_t; n_accepted : list Z }.

Definition init_e2_node (id : global_e2_node_id_t) (accepted : list Z) : e2_node_t :=
  mk_e2_node (mk_global_e2_node_id (type id) (plmn id) (nb_id id) (cu_du_id id)) accepted.

Section near_ric.
(** The containers: [pending] with its two sides, the addresses of the nodes,
    [pub_sub] from a RAN function to the array of its listeners (by its
    location), and the service models. *)
Context {TL TR TEL TER TP TS IR IE IP IS C D : Type}
  `{OL : AssocOps Z pending_event_ric_t TL} `{OR : AssocOps pending_event_ric_t Z TR}
  `{IOR : !AssocIterOps pending_event_ric_t Z TR IR}
  `{OEL : AssocOps global_e2_node_id_t sctp_info_t TEL} `{OER : AssocOps sctp_info_t global_e2_node_id_t TER}
  `{IOE : !AssocIterOps global_e2_node_id_t sctp_info_t TEL IE}
  `{OP : AssocOps Z positive TP} `{IOP : !AssocIterOps Z positive TP IP}
  `{OS : AssocOps Z (sm_ric_t C D) TS} `{IOS : !AssocIterOps Z (sm_ric_t C D) TS IS}.

(** [timerfd_create]: a descriptor that is not open, given the open ones; -1 on
    failure. *)
Context (timerfd_create : list Z → Z).

Abbreviation bi_map := (bi_map_t (TL := TL) (TR := TR)).
Abbreviation map_e2_node_sockaddr := (bi_map_t (TL := TEL) (TR := TER)).

Record near_ric_t := mk_near_ric {
  req_id : Z;   (** atomic_int *)
  last_req_id : Z;   (** uint16_t *)
  pending : bi_map;   (** left: fd, right: event *)
  timers : list Z;   (** armed, in the epoll set *)
  e2_nodes : map_e2_node_sockaddr;   (** [ep.e2_nodes] *)
  conn_e2_nodes : list e2_node_t;
  sm_ds : TS;   (** [plugin.sm_ds] *)
  pub_sub : TP;
  listeners : gmap positive (list string);   (** the arrays [pub_sub] points to *)
  sent : list (sctp_info_t * e2ap_msg_t);
  to_iapp : list iapp_call;
  notified : list (string * D) }.   (** calls of the listeners *)

Abbreviation M := (st near_ric_t).

Definition set_req_ids (q l : Z) (r : near_ric_t) : near_ric_t :=
  mk_near_ric q l (pending r) (timers r) (e2_nodes r) (conn_e2_nodes r) (sm_ds r) (pub_sub r)
    (listeners r) (sent r) (to_iapp r) (notified r).
Definition set_pending (x : bi_map) (r : near_ric_t) : near_ric_t :=
  mk_near_ric (req_id r) (last_req_id r) x (timers r) (e2_nodes r) (conn_e2_nodes r) (sm_ds r)
    (pub_sub r) (listeners r) (sent r) (to_iapp r) (notified r).
Definition set_timers (x : list Z) (r : near_ric_t) : near_ric_t :=
  mk_near_ric (req_id r) (last_req_id r) (pending r) x (e2_nodes r) (conn_e2_nodes r) (sm_ds r)
    (pub_sub r) (listeners r) (sent r) (to_iapp r) (notified r).
Definition set_e2_nodes (x : map_e2_node_sockaddr) (r : near_ric_t) : near_ric_t :=
  mk_near_ric (req_id r) (last_req_id r) (pending r) (timers r) x (conn_e2_nodes r) (sm_ds r)
    (pub_sub r) (listeners r) (sent r) (to_iapp r) (notified r).
Definition set_conn_e2_nodes (x : list e2_node_t) (r : near_ric_t) : near_ric_t :=
  mk_near_ric (req_id r) (last_req_id r) (pending r) (timers r) (e2_nodes r) x (sm_ds r)
    (pub_sub r) (listeners r) (sent r) (to_iapp r) (notified r).
Definition set_sm_ds (x : TS) (r : near_ric_t) : near_ric_t :=
  mk_near_ric (req_id r) (last_req_id r) (pending r) (timers r) (e2_nodes r) (conn_e2_nodes r)
    x (pub_sub r) (listeners r) (sent r) (to_iapp r) (notified r).
Definition set_pub_sub (x : TP) (r : near_ric_t) : near_ric_t :=
  mk_near_ric (req_id r) (last_req_id r) (pending r) (timers r) (e2_nodes r) (conn_e2_nodes r)
    (sm_ds r) x (listeners r) (sent r) (to_iapp r) (notified r).
Definition set_listeners (x : gmap positive (list string)) (r : near_ric_t) : near_ric_t :=
  mk_near_ric (req_id r) (last_req_id r) (pending r) (timers r) (e2_nodes r) (conn_e2_nodes r)
    (sm_ds r) (pub_sub r) x (sent r) (to_iapp r) (notified r).
Definition add_sent (to : sctp_info_t) (m : e2ap_msg_t) (r : near_ric_t) : near_ric_t :=
  mk_near_ric (req_id r) (last_req_id r) (pending r) (timers r) (e2_nodes r) (conn_e2_nodes r)
    (sm_ds r) (pub_sub r) (listeners r) ((to, m) :: sent r) (to_iapp r) (notified r).
Definition add_to_iapp (c : iapp_call) (r : near_ric_t) : near_ric_t :=
  mk_near_ric (req_id r) (last_req_id r) (pending r) (timers r) (e2_nodes r) (conn_e2_nodes r)
    (sm_ds r) (pub_sub r) (listeners r) (sent r) (c :: to_iapp r) (notified r).
Definition add_notified (l : list (string * D)) (r : near_ric_t) : near_ric_t :=
  mk_near_ric (req_id r) (last_req_id r) (pending r) (timers r) (e2_nodes r) (conn_e2_nodes r)
    (sm_ds r) (pub_sub r) (listeners r) (sent r) (to_iapp r) (l ++ notified r).

(** The code on one container. *)
Definition on_pending {A} (m : st bi_map A) : M A := λ r,
  '(a, x) ← m (pending r); Ret (a, set_pending x r).
Definition on_e2_nodes {A} (m : st map_e2_node_sockaddr A) : M A := λ r,
  '(a, x) ← m (e2_nodes r); Ret (a, set_e2_nodes x r).
Definition on_pub_sub {A} (m : st TP A) : M A := λ r,
  '(a, x) ← m (pub_sub r); Ret (a, set_pub_sub x r).
Definition on_sm_ds {A} (m : st TS A) : M A := λ r,
  '(a, x) ← m (sm_ds r); Ret (a, set_sm_ds x r).

(** Encoding, and sending to the address of the E2 node. *)
Definition e2ap_send_bytes_ric (id : global_e2_node_id_t) (m : e2ap_msg_t) : M () :=
  s ← on_e2_nodes (find_map_e2_node_sad id);
  st_mod (add_sent s m).
Definition notify_msg_iapp_api (m : e2ap_msg_t) : M () := st_mod (add_to_iapp (NotifyMsg m)).

(** ** Timers, [src/src/ric/asio_ric.c] *)

Definition create_timer_ms_asio_ric (initial_ms interval_ms : Z) : M Z :=
  if (initial_ms <=? 0)%Z || (interval_ms <=? 0)%Z then mret (-1)%Z
  else
    ric ← st_get;
    let tfd := timerfd_create (timers ric) in
    if (tfd =? -1)%Z then mret (-1)%Z
    else st_mod (set_timers (tfd :: timers ric));; mret tfd.

(** [epoll_ctl] fails for a descriptor that is not in the set. *)
Definition rm_fd_asio_ric (fd : Z) : M () :=
  ric ← st_get;
  st_assert (bool_decide (fd ∈ timers ric));;
  st_mod (set_timers (filter (λ t, t ≠ fd) (timers ric))).

(** ** Pending events *)

(** A timer of 3000 ms and the event it stands for.  [cmp_fd] asserts that the
    descriptor is valid. *)
Definition insert_pending (ev : pending_event_ric_t) : M () :=
  fd_timer ← create_timer_ms_asio_ric 3000 3000;
  st_assert (fd_timer >? -1)%Z;;
  on_pending (bi_map_insert cmp_fd comp_pend fd_timer ev).

Definition stop_pending_event (ev : pending_event_ric_t) : M () :=
  fd ← on_pending (bi_map_extract_right cmp_fd comp_pend ev);
  st_assert (fd >? 0)%Z;;
  rm_fd_asio_ric fd.

(** ** Service models *)

Definition sm_plugin_ric (ran_func_id : Z) : M (sm_ric_t C D) :=
  st_assert (ran_func_id >? 0)%Z;;
  it ← on_sm_ds (find_in_tree (eq_ran_func_id ran_func_id));
  match it with
  | None => st_abort
  | Some it =>
      sm ← on_sm_ds (a_value it);
      st_assert (sm_ran_func_id sm =? ran_func_id)%Z;;
      mret sm
  end.

(** ** Requests forwarded for the iApp *)

(** [ric->req_id++]. *)
Definition next_req_id : M Z :=
  ric ← st_get;
  st_mod (set_req_ids (to_int32 (req_id ric + 1)) (last_req_id ric));;
  mret (req_id ric).

Definition fwd_ric_subscription_request (id : global_e2_node_id_t)
    (sr : ric_subscription_request_t) : M Z :=
  let original_ric_req_id := wrap 16 (ric_req_id (sr_ric_id sr)) in
  ric ← st_get;
  st_mod (set_req_ids original_ric_req_id
    (if (original_ric_req_id >? last_req_id ric)%Z then original_ric_req_id else last_req_id ric));;
  insert_pending (mk_pending_event_ric SUBSCRIPTION_REQUEST_PENDING_EVENT (sr_ric_id sr));;
  e2ap_send_bytes_ric id (RIC_SUBSCRIPTION_REQUEST sr);;
  mret original_ric_req_id.

Definition fwd_ric_subscription_request_delete (id : global_e2_node_id_t)
    (sdr : ric_subscription_delete_request_t) : M () :=
  let ev := mk_pending_event_ric SUBSCRIPTION_DELETE_REQUEST_PENDING_EVENT (sdr_ric_id sdr) in
  it ← on_pending (on_right (find_in_tree (eq_pending_event_ric ev)));
  match it with
  | Some _ => mret ()
  | None => insert_pending ev;;
            e2ap_send_bytes_ric id (RIC_SUBSCRIPTION_DELETE_REQUEST sdr)
  end.

(** The new id overwrites the low 16 bits of the request's id. *)
Definition fwd_ric_control_request (id : global_e2_node_id_t) (cr : ric_control_request_t) :
    M (Z * ric_control_request_t) :=
  old_id ← next_req_id;
  let new_ric_req_id := wrap 16 old_id in
  let old := ric_req_id (cr_ric_id cr) in
  let cr := mk_ric_control_request
              (with_req_id (cr_ric_id cr) (Z.lor (Z.land old 0xFFFF0000) new_ric_req_id))
              (cr_call_process_id cr) (cr_hdr cr) (cr_msg cr) (ack_req cr) in
  insert_pending (mk_pending_event_ric CONTROL_REQUEST_PENDING_EVENT (cr_ric_id cr));;
  e2ap_send_bytes_ric id (RIC_CONTROL_REQUEST cr);;
  mret (new_ric_req_id, cr).

(** ** Requests of the near-RT RIC itself *)

Definition generate_subscription_request (sm : sm_ric_t C D) (ran_func_id : Z) (cmd : C) :
    M ric_subscription_request_t :=
  old_id ← next_req_id;
  let ric_id := mk_ric_gen_id (wrap 32 old_id) 0 ran_func_id in
  data ← st_lift (on_subscription sm cmd);
  mret (mk_ric_subscription_request ric_id data.1 [mk_ric_action 0 RIC_ACT_REPORT data.2]).

Definition report_service_near_ric (id : global_e2_node_id_t) (ran_func_id : Z) (cmd : C) : M Z :=
  st_assert (negb (ran_func_id =? 0)%Z);;
  st_assert (ran_func_id <? 150)%Z;;
  sm ← sm_plugin_ric ran_func_id;
  sr ← generate_subscription_request sm ran_func_id cmd;
  insert_pending (mk_pending_event_ric SUBSCRIPTION_REQUEST_PENDING_EVENT (sr_ric_id sr));;
  e2ap_send_bytes_ric id (RIC_SUBSCRIPTION_REQUEST sr);;
  mret (wrap 16 (ric_req_id (sr_ric_id sr))).

Definition rm_report_service_near_ric (id : global_e2_node_id_t) (ran_func_id act_id : Z) : M () :=
  st_assert (act_id >? 0)%Z;;
  let sd := mk_ric_subscription_delete_request (mk_ric_gen_id act_id 0 ran_func_id) in
  insert_pending (mk_pending_event_ric SUBSCRIPTION_DELETE_REQUEST_PENDING_EVENT (sdr_ric_id sd));;
  e2ap_send_bytes_ric id (RIC_SUBSCRIPTION_DELETE_REQUEST sd).

Definition generate_control_request (sm : sm_ric_t C D) (ctrl : C) : M ric_control_request_t :=
  old_id ← next_req_id;
  let ric_id := mk_ric_gen_id (wrap 32 old_id) 0 (sm_ran_func_id sm) in
  data ← st_lift (on_control_req sm ctrl);
  mret (mk_ric_control_request ric_id None data.1 data.2 (Some RIC_CONTROL_REQUEST_ACK)).

Definition control_service_near_ric (id : global_e2_node_id_t) (ran_func_id : Z) (ctrl : C) : M () :=
  st_assert (ran_func_id >? 0)%Z;;
  st_assert ((ran_func_id =? 3) || (ran_func_id =? 145) || (ran_func_id =? 146))%Z;;
  sm ← sm_plugin_ric ran_func_id;
  ctrl_req ← generate_control_request sm ctrl;
  insert_pending (mk_pending_event_ric CONTROL_REQUEST_PENDING_EVENT (cr_ric_id ctrl_req));;
  e2ap_send_bytes_ric id (RIC_CONTROL_REQUEST ctrl_req).

(** ** Messages from the E2 nodes *)

Definition e2ap_handle_subscription_response_ric (resp : ric_subscription_response_t) : M e2ap_msg_t :=
  stop_pending_event (mk_pending_event_ric SUBSCRIPTION_REQUEST_PENDING_EVENT (resp_ric_id resp));;
  st_assert (bool_decide (not_admitted resp = []));;
  st_assert (length (admitted resp) =? 1);;
  st_assert (bool_decide (admitted resp !! 0 = Some 0%Z));;
  notify_msg_iapp_api (RIC_SUBSCRIPTION_RESPONSE resp);;
  mret NONE_E2_MSG_TYPE.

Definition e2ap_handle_subscription_delete_response_ric (resp : ric_subscription_delete_response_t) :
    M e2ap_msg_t :=
  stop_pending_event (mk_pending_event_ric SUBSCRIPTION_DELETE_REQUEST_PENDING_EVENT (del_ric_id resp));;
  notify_msg_iapp_api (RIC_SUBSCRIPTION_DELETE_RESPONSE resp);;
  mret NONE_E2_MSG_TYPE.

Definition e2ap_handle_control_ack_ric (ack : ric_control_acknowledge_t) : M e2ap_msg_t :=
  stop_pending_event (mk_pending_event_ric CONTROL_REQUEST_PENDING_EVENT (ack_ric_id ack));;
  notify_msg_iapp_api (RIC_CONTROL_ACKNOWLEDGE ack);;
  mret NONE_E2_MSG_TYPE.

(** *** The publish/subscribe table *)

Definition register_listeners_for_ran_func_id (ran_func_id : Z) (subs : string) : M () :=
  it ← on_pub_sub (find_in_tree (eq_ran_func_id ran_func_id));
  match it with
  | None =>
      ric ← st_get;
      let arr := fresh (dom (listeners ric)) in
      st_mod (set_listeners (<[arr := [subs]]> (listeners ric)));;
      on_pub_sub (a_insert cmp_ran_func_id ran_func_id arr)
  | Some it =>
      arr ← on_pub_sub (a_value it);
      ric ← st_get;
      st_mod (set_listeners (alter (λ l, l ++ [subs]) arr (listeners ric)))
  end.

(** Every service model gets the three standard listeners. *)
Fixpoint load_default_loop (fuel : nat) (it end_it : IS) : M () :=
  match fuel with
  | O => st_no_fuel
  | S fuel =>
    if bool_decide (it = end_it) then mret ()
    else
      ran_func_id ← on_sm_ds (a_key it);
      register_listeners_for_ran_func_id ran_func_id "stdout listener";;
      register_listeners_for_ran_func_id ran_func_id "redis listener";;
      register_listeners_for_ran_func_id ran_func_id "influx listener";;
      it ← on_sm_ds (a_next it);
      load_default_loop fuel it end_it
  end.

Definition load_default_pub_sub_ric : M () :=
  ric ← st_get;
  it ← on_sm_ds a_front;
  end_it ← on_sm_ds a_end;
  load_default_loop (S (a_size (sm_ds ric))) it end_it.

(** [sub->fp(d)] for every listener of the array. *)
Fixpoint call_listeners (l : list string) (d : D) : M () :=
  match l with
  | [] => mret ()
  | name :: l => st_mod (add_notified [(name, d)]);; call_listeners l d
  end.

(** As written: the listeners are those of the first RAN function of the table,
    not of the one found. *)
Definition publish_ind_msg (ran_func_id : Z) (d : D) : M () :=
  start_it ← on_pub_sub a_front;
  sm_it ← on_pub_sub (find_in_tree (eq_ran_func_id ran_func_id));
  st_assert (match sm_it with Some _ => true | None => false end);;
  arr ← on_pub_sub (a_value start_it);
  ric ← st_get;
  match listeners ric !! arr with
  | Some l => call_listeners l d
  | None => st_undef
  end.

(** MAC, RLC, PDCP, SLICE, TC, GTP, KPM and RAN control statistics. *)
Definition stats_type (t : Z) : bool := (0 <=? t)%Z && (t <? 8)%Z.

Definition e2ap_handle_indication_ric (ric_ind : ric_indication_t) : M e2ap_msg_t :=
  let ran_func_id := ran_func_id (ind_ric_id ric_ind) in
  sm ← sm_plugin_ric ran_func_id;
  d ← st_lift (on_indication sm ric_ind);
  st_assert (stats_type d.1);;
  publish_ind_msg ran_func_id d.2;;
  notify_msg_iapp_api (RIC_INDICATION ric_ind);;
  st_lift (free_ind_data sm d.2);;
  mret NONE_E2_MSG_TYPE.

(** *** E2 setup, [src/src/ric/generate_setup_response.c] *)

(** All the RAN functions are accepted, or the RIC aborts. *)
Fixpoint accept_ran_func (ran_func_item : list ran_function_t) : M (list Z) :=
  match ran_func_item with
  | [] => mret []
  | rf :: ran_func_item =>
      let id := rf_id rf in
      it ← on_sm_ds (find_in_tree (eq_ran_func_id id));
      match it with
      | None => st_abort
      | Some it =>
          key ← on_sm_ds (a_key it);
          st_assert (id =? key)%Z;;
          _ ← on_sm_ds (a_value it);
          acc ← accept_ran_func ran_func_item;
          mret (id :: acc)
      end
  end.

Definition add_ack (c : e2ap_node_component_config_add_t) : outcome e2ap_node_comp_config_add_ack_t :=
  i ← cp_e2ap_node_comp_id (e2_node_comp_id c);
  Ret (mk_node_comp_config_add_ack (e2_node_comp_interface_type c) i SUCCESS_E2AP_NODE_COMP_CONF_ACK).

Definition generate_setup_response_v2 (req : e2_setup_request_t) : M e2_setup_response_t :=
  acc ← accept_ran_func (stp_ran_func_item req);
  st_assert ((0 <? length (comp_conf_add req)) && (length (comp_conf_add req) <? 1025));;
  ack ← st_lift (mapM_outcome add_ack (comp_conf_add req));
  mret (mk_e2_setup_response (stp_trans_id req) (plmn (stp_id req)) 25 acc [] ack).

(** [get_ngran_name] asserts that the type is known; a node that is not
    monolithic has its CU or DU id read. *)
Definition get_ngran_name (t : Z) : outcome () := c_assert ((0 <=? t) && (t <? 11))%Z.
Definition NODE_IS_MONOLITHIC (t : Z) : bool := (t =? 0)%Z || (t =? 1)%Z || (t =? 2)%Z.

Definition add_e2_node_iapp_api (id : global_e2_node_id_t) (ran_func : list ran_function_t)
    (cca : list e2ap_node_component_config_add_t) : M () :=
  st_assert (0 <? length ran_func);;
  st_mod (add_to_iapp (AddE2Node id ran_func cca)).

Definition e2ap_handle_setup_request_ric (req : e2_setup_request_t) : M e2ap_msg_t :=
  st_lift (get_ngran_name (type (stp_id req)));;
  (if NODE_IS_MONOLITHIC (type (stp_id req)) then mret ()
   else match cu_du_id (stp_id req) with Some _ => mret () | None => st_undef end);;
  add_e2_node_iapp_api (stp_id req) (stp_ran_func_item req) (comp_conf_add req);;
  resp ← generate_setup_response_v2 req;
  let n := init_e2_node (stp_id req) (accepted resp) in
  st_mod (λ r, set_conn_e2_nodes (conn_e2_nodes r ++ [n]) r);;
  mret (E2_SETUP_RESPONSE resp).

(** The other types are not valid here, or their handlers are not implemented. *)
Definition e2ap_msg_handle_ric (msg : e2ap_msg_t) : M e2ap_msg_t :=
  match msg with
  | RIC_SUBSCRIPTION_RESPONSE m => e2ap_handle_subscription_response_ric m
  | RIC_SUBSCRIPTION_DELETE_RESPONSE m => e2ap_handle_subscription_delete_response_ric m
  | RIC_INDICATION m => e2ap_handle_indication_ric m
  | RIC_CONTROL_ACKNOWLEDGE m => e2ap_handle_control_ack_ric m
  | E2_SETUP_REQUEST m => e2ap_handle_setup_request_ric m
  | _ => st_abort
  end.

(** The task of one message: a setup request registers the address it came
    from before it is handled. *)
Definition sctp_msg_arrived_event (info : sctp_info_t) (msg : e2ap_msg_t) : M () :=
  match msg with
  | E2_SETUP_REQUEST req => on_e2_nodes (add_map_e2_node_sad (stp_id req) info)
  | _ => mret ()
  end;;
  ans ← e2ap_msg_handle_ric msg;
  match ans with
  | NONE_E2_MSG_TYPE => mret ()
  | _ => st_mod (add_sent info ans)
  end.

(** *** Disconnection, [src/src/ric/not_handler_ric.c] *)

Definition eq_global_e2_node_id_e2_node (id : global_e2_node_id_t) (n : e2_node_t) : bool :=
  eq_node (n_id n) id.

(** [find_if] and [seq_erase] on the array of connected nodes. *)
Fixpoint erase_first (f : e2_node_t → bool) (l : list e2_node_t) : option (list e2_node_t) :=
  match l with
  | [] => None
  | n :: l => if f n then Some l else cons n <$> erase_first f l
  end.

(** The notification is a shutdown. *)
Definition notification_handle_ric (info : sctp_info_t) : M () :=
  id ← on_e2_nodes (rm_map_sad_e2_node info);
  ric ← st_get;
  match erase_first (eq_global_e2_node_id_e2_node id) (conn_e2_nodes ric) with
  | None => st_abort
  | Some l => st_mod (set_conn_e2_nodes l)
  end;;
  st_mod (add_to_iapp (RmE2Node id)).
End near_ric.
