(* ===== verification/RicSpec.v ===== *)
(** * The near-RT RIC: specification

    What the near-RT RIC promises to the iApp: the pending requests are a list.
    [RicIf] is the interface the iApp calls ([src/src/ric/iApp/iapp_if_generic.h]),
    [RicIfLaws] says that an implementation of it simulates the specification. *)
From S2P Require Import Prelude RicIds E2apMsg NearRic.
#[local] Set Default Proof Using "Type*".

(** The event a message to a node waits for, and the one an answer clears. *)
Definition requested (m : sctp_info_t * e2ap_msg_t) : list pending_event_ric_t :=
  match m.2 with
  | RIC_SUBSCRIPTION_REQUEST sr =>
      [mk_pending_event_ric SUBSCRIPTION_REQUEST_PENDING_EVENT (sr_ric_id sr)]
  | RIC_SUBSCRIPTION_DELETE_REQUEST sdr =>
      [mk_pending_event_ric SUBSCRIPTION_DELETE_REQUEST_PENDING_EVENT (sdr_ric_id sdr)]
  | RIC_CONTROL_REQUEST cr =>
      [mk_pending_event_ric CONTROL_REQUEST_PENDING_EVENT (cr_ric_id cr)]
  | _ => []
  end.

Definition answered (c : iapp_call) : list pending_event_ric_t :=
  match c with
  | NotifyMsg (RIC_SUBSCRIPTION_RESPONSE r) =>
      [mk_pending_event_ric SUBSCRIPTION_REQUEST_PENDING_EVENT (resp_ric_id r)]
  | NotifyMsg (RIC_SUBSCRIPTION_DELETE_RESPONSE r) =>
      [mk_pending_event_ric SUBSCRIPTION_DELETE_REQUEST_PENDING_EVENT (del_ric_id r)]
  | NotifyMsg (RIC_CONTROL_ACKNOWLEDGE a) =>
      [mk_pending_event_ric CONTROL_REQUEST_PENDING_EVENT (ack_ric_id a)]
  | _ => []
  end.

(** ** The specification: a set of pending events *)

Inductive ric_op :=
| FwdSub (id : global_e2_node_id_t) (sr : ric_subscription_request_t)
| FwdDel (id : global_e2_node_id_t) (sdr : ric_subscription_delete_request_t)
| FwdCtrl (id : global_e2_node_id_t) (cr : ric_control_request_t)
| RmReport (id : global_e2_node_id_t) (ran_func_id act_id : Z)
| RxSubResp (resp : ric_subscription_response_t)
| RxDelResp (resp : ric_subscription_delete_response_t)
| RxCtrlAck (ack : ric_control_acknowledge_t).

Record ric_spec := mk_ric_spec {
  s_req_id : Z;
  s_last_req_id : Z;
  s_pending : list pending_event_ric_t;
  s_sent : list (sctp_info_t * e2ap_msg_t);
  s_to_iapp : list iapp_call }.

(** The address of a node: the first that equals the id, in the order of ids. *)
Definition node_addr (N : list (global_e2_node_id_t * sctp_info_t)) (id : global_e2_node_id_t) :
    option sctp_info_t :=
  snd ∘ snd <$> list_find (λ e, eq_node id e.1 = true) N.

Definition ctrl_with_id (cr : ric_control_request_t) (q : Z) : ric_control_request_t :=
  mk_ric_control_request
    (with_req_id (cr_ric_id cr) (Z.lor (Z.land (ric_req_id (cr_ric_id cr)) 0xFFFF0000) (wrap 16 q)))
    (cr_call_process_id cr) (cr_hdr cr) (cr_msg cr) (ack_req cr).

Section spec.
(** The connected nodes. *)
Context (N : list (global_e2_node_id_t * sctp_info_t)).

(** The event a request adds. *)
Definition op_event (o : ric_op) (q : Z) : option pending_event_ric_t :=
  match o with
  | FwdSub _ sr => Some (mk_pending_event_ric SUBSCRIPTION_REQUEST_PENDING_EVENT (sr_ric_id sr))
  | FwdCtrl _ cr =>
      Some (mk_pending_event_ric CONTROL_REQUEST_PENDING_EVENT (cr_ric_id (ctrl_with_id cr q)))
  | RmReport _ f a =>
      Some (mk_pending_event_ric SUBSCRIPTION_DELETE_REQUEST_PENDING_EVENT (mk_ric_gen_id a 0 f))
  | _ => None
  end.

(** A request to a node that is not connected aborts. *)
Definition s_request (q l : Z) (ev : pending_event_ric_t) (id : global_e2_node_id_t) (m : e2ap_msg_t)
    (s : ric_spec) : outcome ric_spec :=
  match node_addr N id with
  | Some to => Ret (mk_ric_spec q l (ev :: s_pending s) ((to, m) :: s_sent s) (s_to_iapp s))
  | None => Abort
  end.

(** One occurrence of [ev] less. *)
Fixpoint remove_one (ev : pending_event_ric_t) (l : list pending_event_ric_t) :
    option (list pending_event_ric_t) :=
  match l with
  | [] => None
  | e :: l => if bool_decide (e = ev) then Some l else cons e <$> remove_one ev l
  end.

(** An answer to nothing aborts. *)
Definition s_answer (ev : pending_event_ric_t) (ok : bool) (m : e2ap_msg_t) (s : ric_spec) :
    outcome ric_spec :=
  match remove_one ev (s_pending s) with
  | None => Abort
  | Some l => c_assert ok;; Ret (mk_ric_spec (s_req_id s) (s_last_req_id s) l (s_sent s) (NotifyMsg m :: s_to_iapp s))
  end.

Definition ric_spec_step (o : ric_op) (s : ric_spec) : outcome ric_spec :=
  match o with
  | FwdSub id sr =>
      let q := wrap 16 (ric_req_id (sr_ric_id sr)) in
      s_request q (Z.max q (s_last_req_id s))
        (mk_pending_event_ric SUBSCRIPTION_REQUEST_PENDING_EVENT (sr_ric_id sr))
        id (RIC_SUBSCRIPTION_REQUEST sr) s
  | FwdDel id sdr =>
      let ev := mk_pending_event_ric SUBSCRIPTION_DELETE_REQUEST_PENDING_EVENT (sdr_ric_id sdr) in
      if bool_decide (ev ∈ s_pending s) then Ret s
      else s_request (s_req_id s) (s_last_req_id s) ev id (RIC_SUBSCRIPTION_DELETE_REQUEST sdr) s
  | FwdCtrl id cr =>
      let cr := ctrl_with_id cr (s_req_id s) in
      s_request (to_int32 (s_req_id s + 1)) (s_last_req_id s)
        (mk_pending_event_ric CONTROL_REQUEST_PENDING_EVENT (cr_ric_id cr))
        id (RIC_CONTROL_REQUEST cr) s
  | RmReport id f a =>
      c_assert (a >? 0)%Z;;
      let sd := mk_ric_subscription_delete_request (mk_ric_gen_id a 0 f) in
      s_request (s_req_id s) (s_last_req_id s)
        (mk_pending_event_ric SUBSCRIPTION_DELETE_REQUEST_PENDING_EVENT (sdr_ric_id sd))
        id (RIC_SUBSCRIPTION_DELETE_REQUEST sd) s
  | RxSubResp resp =>
      s_answer (mk_pending_event_ric SUBSCRIPTION_REQUEST_PENDING_EVENT (resp_ric_id resp))
        (bool_decide (not_admitted resp = [] ∧ admitted resp = [0%Z])) (RIC_SUBSCRIPTION_RESPONSE resp) s
  | RxDelResp resp =>
      s_answer (mk_pending_event_ric SUBSCRIPTION_DELETE_REQUEST_PENDING_EVENT (del_ric_id resp))
        true (RIC_SUBSCRIPTION_DELETE_RESPONSE resp) s
  | RxCtrlAck ack =>
      s_answer (mk_pending_event_ric CONTROL_REQUEST_PENDING_EVENT (ack_ric_id ack))
        true (RIC_CONTROL_ACKNOWLEDGE ack) s
  end.

Definition op_fresh (o : ric_op) (s : ric_spec) : bool :=
  match op_event o (s_req_id s) with
  | Some ev => negb (bool_decide (ev ∈ s_pending s))
  | None => true
  end.

(** The requests are for events that are not pending. *)
Fixpoint ric_fresh (os : list ric_op) (s : ric_spec) : bool :=
  match os with
  | [] => true
  | o :: os => op_fresh o s && match ric_spec_step o s with Ret s' => ric_fresh os s' | _ => true end
  end.

Fixpoint ric_spec_run (os : list ric_op) (s : ric_spec) : outcome ric_spec :=
  match os with
  | [] => Ret s
  | o :: os => s' ← ric_spec_step o s; ric_spec_run os s'
  end.

Lemma remove_one_spec ev l :
  match remove_one ev l with Some l' => l ≡ₚ ev :: l' | None => ev ∉ l end.
Proof.
  induction l as [|e l IH]; cbn; [apply not_elem_of_nil|].
  destruct (decide (e = ev)) as [->|Hne]; [by rewrite bool_decide_eq_true_2|].
  rewrite bool_decide_eq_false_2 by done. destruct (remove_one ev l) as [l'|]; cbn.
  - rewrite IH. apply perm_swap.
  - apply not_elem_of_cons. done.
Qed.

Lemma filter_ne (l : list Z) (x : Z) : x ∉ l → filter (λ t, t ≠ x) l = l.
Proof.
  induction l as [|y l IH]; [done|]. intros [Hy Hl]%not_elem_of_cons.
  rewrite filter_cons_True by done. by rewrite IH.
Qed.

(** On the specification: what is pending is what was requested and not answered. *)
Definition accounted (s : ric_spec) : Prop :=
  s_pending s ++ (s_to_iapp s ≫= answered) ≡ₚ (s_sent s ≫= requested).

Lemma answer_accounted ev ok m s s' : answered (NotifyMsg m) = [ev] → accounted s → s_answer ev ok m s = Ret s' →
  accounted s'.
Proof.
  unfold accounted, s_answer. intros Hm Hs. pose proof (remove_one_spec ev (s_pending s)) as Hrm.
  destruct (remove_one ev (s_pending s)) as [l|]; [|done]. destruct ok; [|done]. cbn. intros [= <-].
  cbn [s_pending s_to_iapp s_sent]. rewrite bind_cons, Hm, <-Hs, Hrm. cbn. by rewrite Permutation_middle.
Qed.

Lemma request_accounted q l ev id m s s' : (∀ to, requested (to, m) = [ev]) → accounted s →
  s_request q l ev id m s = Ret s' → accounted s'.
Proof using Type.
  unfold accounted, s_request. intros Hm Hs. destruct (node_addr N id) as [to|]; [|done].
  intros [= <-]. cbn. by rewrite Hm, <-Hs.
Qed.

Lemma ric_spec_step_accounted o s s' : accounted s → ric_spec_step o s = Ret s' → accounted s'.
Proof.
  intros Hs. destruct o as [id sr|id sdr|id cr|id f a|resp|resp|ack]; cbn [ric_spec_step]; cbv zeta.
  - by apply request_accounted.
  - case_bool_decide; [by intros [= <-]|by apply request_accounted].
  - by apply request_accounted.
  - destruct (a >? 0)%Z; [|done]. by apply request_accounted.
  - by apply answer_accounted.
  - by apply answer_accounted.
  - by apply answer_accounted.
Qed.

Lemma ric_spec_run_accounted os s s' : accounted s → ric_spec_run os s = Ret s' → accounted s'.
Proof.
  revert s. induction os as [|o os IH]; intros s Hs; cbn; [by intros [= <-]|].
  intros (s1 & H1 & H)%bind_Ret_inv. eapply IH; [|exact H]. by eapply ric_spec_step_accounted.
Qed.

End spec.

(** ** The interface *)

Class RicIf (R : Type) := {
  fwd_ric_subscription_request_gen : global_e2_node_id_t → ric_subscription_request_t → st R Z;
  fwd_ric_subscription_request_delete_gen : global_e2_node_id_t → ric_subscription_delete_request_t → st R ();
  fwd_ric_control_request_gen : global_e2_node_id_t → ric_control_request_t → st R (Z * ric_control_request_t) }.

Class RicIfLaws (R : Type) `{!RicIf R} (N : list (global_e2_node_id_t * sctp_info_t)) := {
  if_sim : R → ric_spec → Prop;
  if_sub_ok r s id sr : if_sim r s → op_fresh (FwdSub id sr) s = true →
    simulates if_sim (wrap 16 (ric_req_id (sr_ric_id sr)))
      (fwd_ric_subscription_request_gen id sr r) (ric_spec_step N (FwdSub id sr) s);
  if_del_ok r s id sdr : if_sim r s →
    simulates if_sim () (fwd_ric_subscription_request_delete_gen id sdr r) (ric_spec_step N (FwdDel id sdr) s);
  if_ctrl_ok r s id cr : if_sim r s → op_fresh (FwdCtrl id cr) s = true →
    simulates if_sim (wrap 16 (s_req_id s), ctrl_with_id cr (s_req_id s))
      (fwd_ric_control_request_gen id cr r) (ric_spec_step N (FwdCtrl id cr) s) }.

(** One more call of the iApp. *)
Definition s_called (c : iapp_call) (s : ric_spec) : ric_spec :=
  mk_ric_spec (s_req_id s) (s_last_req_id s) (s_pending s) (s_sent s) (c :: s_to_iapp s).

(** ** The other side: a message of a node, and the calls of the iApp it makes *)

Class RicNode (R : Type) := {
  node_msg_gen : sctp_info_t → e2ap_msg_t → st R (list iapp_call) }.

(** The answers of the nodes. *)
Definition answer_op (m : e2ap_msg_t) : option ric_op :=
  match m with
  | RIC_SUBSCRIPTION_RESPONSE resp => Some (RxSubResp resp)
  | RIC_SUBSCRIPTION_DELETE_RESPONSE resp => Some (RxDelResp resp)
  | RIC_CONTROL_ACKNOWLEDGE ack => Some (RxCtrlAck ack)
  | _ => None
  end.

Class RicNodeLaws (R : Type) `{!RicIf R} `{!RicNode R} (N : list (global_e2_node_id_t * sctp_info_t))
    {IL : RicIfLaws R N} := {
  node_answer_ok r s info m o : if_sim r s → answer_op m = Some o →
    simulates if_sim [NotifyMsg m] (node_msg_gen info m r) (ric_spec_step N o s) }.

(** The messages the near-RT RIC has sent to the nodes, latest first. *)
Class RicSent (R : Type) `{!RicIf R} (N : list (global_e2_node_id_t * sctp_info_t)) {IL : RicIfLaws R N} := {
  ric_sent : R → list (sctp_info_t * e2ap_msg_t);
  ric_sent_ok r s : if_sim r s → ric_sent r = s_sent s }.

(** Indications: [ric_loaded r f sm] says that the near-RT RIC has the service model
    [sm] for the RAN function [f] and takes its indications, which it hands over. *)
Class RicInd (R C D : Type) `{!RicIf R} `{!RicNode R} (N : list (global_e2_node_id_t * sctp_info_t)) {IL : RicIfLaws R N} := {
  ric_loaded : R → Z → sm_ric_t C D → Prop;
  node_ind_ok r s info ind sm t d : if_sim r s → ric_loaded r (ran_func_id (ind_ric_id ind)) sm →
    on_indication sm ind = Ret (t, d) → stats_type t = true → free_ind_data sm d = Ret () →
    ∃ r', node_msg_gen info (RIC_INDICATION ind) r = Ret ([NotifyMsg (RIC_INDICATION ind)], r') ∧
      if_sim r' (s_called (NotifyMsg (RIC_INDICATION ind)) s) }.
