(* ===== verification/NearRicInv.v ===== *)
(** * The near-RT RIC: requests, timers and answers

    The invariant of [near_ric_t]: the pending events, the armed timers and the
    requests without an answer are the same thing. *)
From Stdlib Require Import String.
From stdpp Require Import gmap.
From S2P Require Import Prelude AssocSpec AssocIter BiMap BiMapFind RicIds E2apMsg AddrMaps NearRic RicSpec.
#[local] Set Warnings "-clear-no-such-hyp".
#[local] Set Default Proof Using "Type*".

Lemma gtb_max (a b : Z) : (if (a >? b)%Z then a else b) = Z.max a b.
Proof. rewrite Z.gtb_ltb. destruct (Z.ltb_spec b a); lia. Qed.

Section near_ric.
Context {TL TR TEL TER TP TS IR IE IP IS C D : Type}
  `{OL : AssocOps Z pending_event_ric_t TL} `{OR : AssocOps pending_event_ric_t Z TR}
  `{IOR : !AssocIterOps pending_event_ric_t Z TR IR}
  `{OEL : AssocOps global_e2_node_id_t sctp_info_t TEL} `{OER : AssocOps sctp_info_t global_e2_node_id_t TER}
  `{IOE : !AssocIterOps global_e2_node_id_t sctp_info_t TEL IE}
  `{OP : AssocOps Z positive TP} `{IOP : !AssocIterOps Z positive TP IP}
  `{OS : AssocOps Z (sm_ric_t C D) TS} `{IOS : !AssocIterOps Z (sm_ric_t C D) TS IS}.
Context {LL : AssocLaws (V := pending_event_ric_t) (T := TL) cmp_fd}
  {LR : AssocLaws (V := Z) (T := TR) comp_pend} {ILR : AssocIterLaws (I := IR) comp_pend}.
Context {LE : AssocLaws (V := sctp_info_t) (T := TEL) cmp_node} {ILE : AssocIterLaws (I := IE) cmp_node}.
Context (N : list (global_e2_node_id_t * sctp_info_t)).
Context (timerfd_create : list Z → Z)
  (timerfd_create_fresh : ∀ open, (0 < timerfd_create open)%Z ∧ timerfd_create open ∉ open).

Abbreviation ric := (near_ric_t (TL := TL) (TR := TR) (TEL := TEL) (TER := TER) (TP := TP) (TS := TS) (D := D)).
Implicit Types (r : ric).

(** Every pending event has its timer. *)
Definition armed r (P : list (Z * pending_event_ric_t)) : Prop :=
  bm_rep cmp_fd comp_pend (pending r) P ∧ timers r ≡ₚ P.*1 ∧ Forall (λ fd, (0 < fd)%Z) (timers r).

Lemma pending_fresh fd ev P : fd ∉ P.*1 → ev ∉ P.*2 → fresh_pair cmp_fd comp_pend fd ev P = true.
Proof using Type.
  intros Hfd Hev. apply (fresh_pair_spec cmp_fd comp_pend). split; apply Forall_forall; intros p Hp Hc.
  - apply Hfd. unfold cmp_fd in Hc. apply cmp_up_eq in Hc as ->. by apply list_elem_of_fmap_2.
  - apply Hev. apply cmp_pending_event_ric_eq in Hc as ->. by apply list_elem_of_fmap_2.
Qed.

Lemma insert_pending_ok r P ev : armed r P → ev ∉ P.*2 → ∃ fd p,
  insert_pending timerfd_create ev r = Ret ((), set_pending p (set_timers (fd :: timers r) r)) ∧
  armed (set_pending p (set_timers (fd :: timers r) r)) ((fd, ev) :: P).
Proof.
  intros (Hb & Ht & Hpos) Hev. destruct (timerfd_create_fresh (timers r)) as [Hfd Hfr].
  set (fd := timerfd_create (timers r)) in *.
  destruct (bm_insert_ok cmp_fd comp_pend (pending r) P fd ev Hb) as (p & Hp & Hb').
  { apply pending_fresh; [|done]. by rewrite <-Ht. }
  exists fd, p. split.
  - assert (create_timer_ms_asio_ric timerfd_create 3000 3000 r = Ret (fd, set_timers (fd :: timers r) r)) as Hc.
    { unfold create_timer_ms_asio_ric. change ((3000 <=? 0)%Z || (3000 <=? 0)%Z) with false. cbv iota.
      rewrite (st_bind_Ret st_get _ _ _ _ eq_refl). cbv zeta. fold fd.
      by rewrite (proj2 (Z.eqb_neq fd (-1)%Z)) by lia. }
    unfold insert_pending. rewrite (st_bind_Ret _ _ _ _ _ Hc).
    assert ((fd >? -1)%Z = true) as -> by lia. rewrite (st_bind_Ret _ _ _ _ _ eq_refl).
    unfold on_pending. cbn. by rewrite Hp.
  - split_and!; cbn; [done|by constructor|by constructor].
Qed.

Lemma armed_event r P p : armed r P → p ∈ P → (0 < p.1)%Z ∧ p.1 ∈ timers r.
Proof using Type.
  intros (_ & Ht & Hpos) Hp. assert (p.1 ∈ timers r) as Hin by (rewrite Ht; by apply list_elem_of_fmap_2).
  split; [|done]. rewrite Forall_forall in Hpos. by apply Hpos.
Qed.

Lemma armed_filter r P p P' b : armed r P → P ≡ₚ p :: P' → bm_rep cmp_fd comp_pend b P' →
  armed (set_pending b (set_timers (filter (λ t, t ≠ p.1) (timers r)) r)) P'.
Proof using Type.
  intros (Hb & Ht & Hpos) HP Hb'. assert (NoDup P.*1) as Hnd.
  { destruct Hb as (L & R & _ & _ & HsL & _ & HPL & _). apply (strict_NoDup cmp_fd) in HsL.
    by rewrite <-HPL. }
  rewrite HP in Hnd, Ht. cbn in Hnd, Ht. apply NoDup_cons in Hnd as [Hp Hnd]. split_and!; cbn.
  - done.
  - rewrite Ht. rewrite filter_cons_False by (by intros []).
    by rewrite filter_ne.
  - rewrite Forall_forall in *. intros t [_ Hin]%list_elem_of_filter. by apply Hpos.
Qed.

Lemma stop_pending_event_ok r P ev : armed r P → ev ∈ P.*2 → ∃ p P' b,
  stop_pending_event ev r = Ret ((), set_pending b (set_timers (filter (λ t, t ≠ p.1) (timers r)) r)) ∧
  P ≡ₚ p :: P' ∧ p.2 = ev ∧
  armed (set_pending b (set_timers (filter (λ t, t ≠ p.1) (timers r)) r)) P'.
Proof using LL LR.
  intros Ha (p & -> & Hp)%list_elem_of_fmap.
  destruct (bm_right_ok cmp_fd comp_pend (pending r) P p p.2 (proj1 Ha) Hp (comp_refl comp_pend _))
    as (b & P' & Hx & HP & Hb).
  destruct (armed_event r P p Ha Hp) as [Hpos Hin].
  exists p, P', b. split_and!; [|done|done|by apply (armed_filter r P)].
  unfold stop_pending_event, mbind, st_bind, on_pending. rewrite Hx. cbn -[Z.gtb].
  unfold st_assert, st_lift. rewrite c_assert_true by lia. cbn.
  unfold rm_fd_asio_ric, mbind, st_bind, st_assert, st_lift. cbn.
  by rewrite bool_decide_eq_true_2.
Qed.

Lemma stop_pending_event_absent r P ev : armed r P → ev ∉ P.*2 → stop_pending_event ev r = Abort.
Proof using LL LR.
  intros Ha Hev. unfold stop_pending_event, mbind, st_bind, on_pending.
  rewrite (bm_right_absent cmp_fd comp_pend (pending r) P ev (proj1 Ha)); [done|].
  apply Forall_forall. intros p Hp. apply Z.eqb_neq. intros ->%cmp_pending_event_ric_eq.
  apply Hev. by apply list_elem_of_fmap_2.
Qed.

Lemma find_pending r P ev : armed r P → ∃ it,
  on_pending (on_right (find_in_tree (eq_pending_event_ric ev))) r = Ret (it, r) ∧
  (it = None ↔ ev ∉ P.*2).
Proof using LL ILR.
  intros ((L & R & HL & HR & _ & _ & _ & HPR & _) & _).
  destruct (find_in_tree_spec comp_pend (eq_pending_event_ric ev) (right (pending r)) R HR)
    as (it & Hf & Hit).
  exists it. split.
  { unfold on_pending, on_right. rewrite Hf. destruct r as [? ? [] ? ? ? ? ? ? ? ? ?]. done. }
  assert (∀ e, e ∈ R ↔ (e.2, e.1) ∈ P) as HR'.
  { intros [a b]. rewrite HPR, list_elem_of_fmap. split.
    - by intros ([c d] & [= -> ->] & ?).
    - intros Hp. by exists (b, a). }
  destruct it as [it|].
  - split; [done|]. intros Hev. exfalso. destruct Hit as (j & k & v & _ & Hk & Hfk & _).
    apply list_elem_of_lookup_2 in Hk. apply HR' in Hk. cbn in Hk. unfold eq_pending_event_ric in Hfk.
    apply Z.eqb_eq, cmp_pending_event_ric_eq in Hfk as ->. apply Hev. by eapply list_elem_of_fmap_2'.
  - split; [|done]. intros _ (p & -> & Hp)%list_elem_of_fmap.
    rewrite Forall_forall in Hit. assert ((p.2, p.1) ∈ R) as Hin by (apply HR'; by destruct p).
    specialize (Hit _ Hin). unfold eq_pending_event_ric in Hit. cbn in Hit.
    by rewrite (comp_refl comp_pend) in Hit.
Qed.

(** ** The refinement *)

Definition ric_step (o : ric_op) : st ric () :=
  match o with
  | FwdSub id sr => fwd_ric_subscription_request timerfd_create id sr;; mret ()
  | FwdDel id sdr => fwd_ric_subscription_request_delete timerfd_create id sdr
  | FwdCtrl id cr => fwd_ric_control_request timerfd_create id cr;; mret ()
  | RmReport id f a => rm_report_service_near_ric timerfd_create id f a
  | RxSubResp resp => e2ap_msg_handle_ric (RIC_SUBSCRIPTION_RESPONSE resp);; mret ()
  | RxDelResp resp => e2ap_msg_handle_ric (RIC_SUBSCRIPTION_DELETE_RESPONSE resp);; mret ()
  | RxCtrlAck ack => e2ap_msg_handle_ric (RIC_CONTROL_ACKNOWLEDGE ack);; mret ()
  end.

Fixpoint ric_run (os : list ric_op) : st ric () :=
  match os with
  | [] => mret ()
  | o :: os => ric_step o;; ric_run os
  end.

(** What the state of the near-RT RIC stands for. *)
Definition ric_sim r (s : ric_spec) : Prop :=
  req_id r = s_req_id s ∧ last_req_id r = s_last_req_id s ∧
  sent r = s_sent s ∧ to_iapp r = s_to_iapp s ∧ a_rep (left (e2_nodes r)) N ∧
  ∃ P, armed r P ∧ P.*2 ≡ₚ s_pending s.

Lemma send_bytes r id m : a_rep (left (e2_nodes r)) N →
  e2ap_send_bytes_ric id m r =
  match node_addr N id with Some to => Ret ((), add_sent to m r) | None => Abort end.
Proof using ILE.
  intros HN. unfold e2ap_send_bytes_ric, find_map_e2_node_sad, node_addr, mbind, st_bind, on_e2_nodes, on_left.
  rewrite (find_value_spec cmp_node (eq_node id) _ N HN). cbn.
  destruct (list_find _ N) as [[i [k v]]|]; cbn; [|done].
  destruct r as [? ? ? ? [] ? ? ? ? ? ? ?]. done.
Qed.

(** A request: the timer, the event and the message. *)
Lemma request_sim r s q l ev id m : ric_sim r s → ev ∉ s_pending s →
  simulates ric_sim () ((st_mod (set_req_ids q l);; insert_pending timerfd_create ev;; e2ap_send_bytes_ric id m) r)
    (s_request N q l ev id m s).
Proof.
  intros (Hq & Hl & Hs & Hi & HN & P & Ha & HP) Hev. assert (armed (set_req_ids q l r) P) as Ha' by done.
  destruct (insert_pending_ok _ P ev Ha') as (fd & p & Hins & Ha2); [by rewrite HP|].
  rewrite (st_bind_Ret _ _ _ _ _ eq_refl), (st_bind_Ret _ _ _ _ _ Hins), send_bytes by done.
  unfold s_request. destruct (node_addr N id) as [to|]; [|done].
  eexists. split; [reflexivity|]. split_and!; cbn; try done; [by rewrite Hs|].
  exists ((fd, ev) :: P). split; [done|]. cbn. by rewrite HP.
Qed.

Lemma set_req_ids_same r : set_req_ids (req_id r) (last_req_id r) r = r.
Proof using Type. by destruct r. Qed.

Lemma request_sim_same r s ev id m : ric_sim r s → ev ∉ s_pending s →
  simulates ric_sim () ((insert_pending timerfd_create ev;; e2ap_send_bytes_ric id m) r)
    (s_request N (s_req_id s) (s_last_req_id s) ev id m s).
Proof.
  intros Hsim Hev. pose proof (request_sim r s (req_id r) (last_req_id r) ev id m Hsim Hev) as H.
  rewrite (st_bind_Ret _ _ _ _ _ eq_refl), set_req_ids_same in H.
  destruct Hsim as (<- & <- & _). exact H.
Qed.

(** An answer: the event, its timer and the call of the iApp. *)
Lemma answer_sim r s ev (f : st ric e2ap_msg_t) (ok : bool) m : ric_sim r s →
  (∀ r' : ric, f r' = if ok then Ret (NONE_E2_MSG_TYPE, add_to_iapp (NotifyMsg m) r') else Abort) →
  simulates ric_sim () (((stop_pending_event ev;; f);; mret ()) r) (s_answer ev ok m s).
Proof using LL LR.
  intros (Hq & Hl & Hs & Hi & HN & P & Ha & HP) Hf. unfold s_answer. pose proof (remove_one_spec ev (s_pending s)) as Hrm.
  destruct (remove_one ev (s_pending s)) as [l'|].
  - destruct (stop_pending_event_ok r P ev Ha) as (p & P' & b & Hst & HPP & Hp & Ha'); [rewrite HP, Hrm; left|].
    rewrite st_bind_assoc, (st_bind_Ret _ _ _ _ _ Hst). unfold mbind at 1, st_bind. rewrite Hf.
    destruct ok; [|done]. cbn. eexists. split; [reflexivity|]. split_and!; cbn; try done; [by rewrite Hi|].
    exists P'. split; [done|]. rewrite HPP, Hrm in HP. cbn in HP. rewrite Hp in HP.
    by apply Permutation_cons_inv in HP.
  - unfold mbind, st_bind. rewrite (stop_pending_event_absent r P ev Ha); [done|]. by rewrite HP.
Qed.

(** The result of three steps. *)
Lemma st_bind_cut3 {A} (m1 m2 m3 : st ric ()) (a : A) r r' :
  (m1;; m2;; m3) r = Ret ((), r') → (m1;; m2;; m3;; mret a) r = Ret (a, r').
Proof using Type.
  unfold mbind, st_bind. destruct (m1 r) as [[? r1]| | | |]; try done. cbn.
  destruct (m2 r1) as [[? r2]| | | |]; try done. cbn. by intros ->.
Qed.

Lemma st_bind_cut3_abort {A} (m1 m2 m3 : st ric ()) (a : A) r :
  (m1;; m2;; m3) r = Abort → (m1;; m2;; m3;; mret a) r = Abort.
Proof using Type.
  unfold mbind, st_bind. destruct (m1 r) as [[? r1]| | | |]; try done. cbn.
  destruct (m2 r1) as [[? r2]| | | |]; try done. cbn. by intros ->.
Qed.

(** The two requests with their ids as three steps and a result. *)
Lemma fwd_subscription_eq id sr r :
  let q := wrap 16 (ric_req_id (sr_ric_id sr)) in
  fwd_ric_subscription_request timerfd_create id sr r =
  (st_mod (set_req_ids q (Z.max q (last_req_id r)));;
   insert_pending timerfd_create (mk_pending_event_ric SUBSCRIPTION_REQUEST_PENDING_EVENT (sr_ric_id sr));;
   e2ap_send_bytes_ric id (RIC_SUBSCRIPTION_REQUEST sr);; mret q) r.
Proof using Type.
  intros q. unfold fwd_ric_subscription_request. cbv zeta.
  by rewrite (st_bind_Ret st_get _ _ _ _ eq_refl), gtb_max.
Qed.

Lemma fwd_control_eq id cr r :
  let cr' := ctrl_with_id cr (req_id r) in
  fwd_ric_control_request timerfd_create id cr r =
  (st_mod (set_req_ids (to_int32 (req_id r + 1)) (last_req_id r));;
   insert_pending timerfd_create (mk_pending_event_ric CONTROL_REQUEST_PENDING_EVENT (cr_ric_id cr'));;
   e2ap_send_bytes_ric id (RIC_CONTROL_REQUEST cr');; mret (wrap 16 (req_id r), cr')) r.
Proof using Type.
  intros cr'. unfold fwd_ric_control_request, next_req_id.
  by rewrite !st_bind_assoc, (st_bind_Ret st_get _ _ _ _ eq_refl), !st_bind_assoc.
Qed.

(** The requests with their results. *)
Lemma request_sim_result {A} (m : st ric A) (a : A) r s q l ev id msg :
  m r = (st_mod (set_req_ids q l);; insert_pending timerfd_create ev;; e2ap_send_bytes_ric id msg;; mret a) r →
  ric_sim r s → ev ∉ s_pending s → simulates ric_sim a (m r) (s_request N q l ev id msg s).
Proof.
  intros Hm Hsim Hev. pose proof (request_sim r s q l ev id msg Hsim Hev) as H. rewrite Hm.
  unfold s_request in *. destruct (node_addr N id) as [to|].
  - destruct H as (r' & Hr' & Hsim'). exists r'. split; [by apply st_bind_cut3|done].
  - by apply st_bind_cut3_abort.
Qed.

Lemma fwd_subscription_sim r s id sr : ric_sim r s → op_fresh (FwdSub id sr) s = true →
  simulates ric_sim (wrap 16 (ric_req_id (sr_ric_id sr))) (fwd_ric_subscription_request timerfd_create id sr r)
    (ric_spec_step N (FwdSub id sr) s).
Proof.
  intros Hsim Hfr%negb_true_iff%bool_decide_eq_false. cbn [ric_spec_step]. cbv zeta.
  pose proof Hsim as (_ & <- & _). apply (request_sim_result _ _ _ _ _ _ _ _ _ (fwd_subscription_eq id sr r)); done.
Qed.

Lemma fwd_control_sim r s id cr : ric_sim r s → op_fresh (FwdCtrl id cr) s = true →
  simulates ric_sim (wrap 16 (s_req_id s), ctrl_with_id cr (s_req_id s))
    (fwd_ric_control_request timerfd_create id cr r) (ric_spec_step N (FwdCtrl id cr) s).
Proof.
  intros Hsim Hfr%negb_true_iff%bool_decide_eq_false. cbn [ric_spec_step]. cbv zeta.
  pose proof Hsim as (Hq & Hl & _). cbn in Hfr. rewrite <-Hq, <-Hl in *.
  apply (request_sim_result _ _ _ _ _ _ _ _ _ (fwd_control_eq id cr r)); done.
Qed.

Lemma fwd_delete_sim r s id sdr : ric_sim r s →
  simulates ric_sim () (fwd_ric_subscription_request_delete timerfd_create id sdr r)
    (ric_spec_step N (FwdDel id sdr) s).
Proof.
  intros Hsim. cbn [ric_spec_step]. unfold fwd_ric_subscription_request_delete. cbv zeta.
  pose proof Hsim as (_ & _ & _ & _ & _ & P & Ha & HP).
  destruct (find_pending r P (mk_pending_event_ric SUBSCRIPTION_DELETE_REQUEST_PENDING_EVENT (sdr_ric_id sdr)) Ha)
    as (it & Hf & Hit). rewrite HP in Hit.
  rewrite (st_bind_Ret _ _ _ _ _ Hf). destruct it as [it|].
  + rewrite bool_decide_eq_true_2 by (apply dec_stable; intros Hn; by apply Hit in Hn). by exists r.
  + rewrite bool_decide_eq_false_2 by (by apply Hit). by apply request_sim_same; [|apply Hit].
Qed.

(** The near-RT RIC is an implementation of the interface. *)
Definition near_ric_if : RicIf ric := {|
  fwd_ric_subscription_request_gen := fwd_ric_subscription_request timerfd_create;
  fwd_ric_subscription_request_delete_gen := fwd_ric_subscription_request_delete timerfd_create;
  fwd_ric_control_request_gen := fwd_ric_control_request timerfd_create |}.

Definition near_ric_if_laws : RicIfLaws ric (RicIf0 := near_ric_if) N :=
  Build_RicIfLaws ric near_ric_if N ric_sim fwd_subscription_sim fwd_delete_sim fwd_control_sim.

Lemma resp_checks resp r :
  (st_assert (bool_decide (not_admitted resp = []));;
   st_assert (length (admitted resp) =? 1);;
   st_assert (bool_decide (admitted resp !! 0 = Some 0%Z));;
   notify_msg_iapp_api (RIC_SUBSCRIPTION_RESPONSE resp);;
   mret NONE_E2_MSG_TYPE) r =
  if bool_decide (not_admitted resp = [] ∧ admitted resp = [0%Z])
  then Ret (NONE_E2_MSG_TYPE, add_to_iapp (NotifyMsg (RIC_SUBSCRIPTION_RESPONSE resp)) r) else Abort.
Proof using Type.
  destruct (decide (not_admitted resp = [] ∧ admitted resp = [0%Z])) as [Hall|Hall];
    [rewrite (bool_decide_eq_true_2 (_ ∧ _)) by done|rewrite (bool_decide_eq_false_2 (_ ∧ _)) by done].
  - destruct Hall as [Hn Ha]. by rewrite Hn, Ha.
  - destruct (not_admitted resp) as [|x l']; [|done].
    destruct (admitted resp) as [|z [|z' l]]; [done| |done].
    unfold mbind, st_bind, st_assert, st_lift. cbn. rewrite (bool_decide_eq_false_2 (Some z = Some 0%Z)); [done|].
    intros [= ->]. by apply Hall.
Qed.

Lemma ric_step_refines o r s : ric_sim r s → op_fresh o s = true →
  simulates ric_sim () (ric_step o r) (ric_spec_step N o s).
Proof.
  intros Hsim Hfr. destruct o as [id sr|id sdr|id cr|id f a|resp|resp|ack]; cbn [ric_step].
  - eapply simulates_ret. by apply fwd_subscription_sim.
  - by apply fwd_delete_sim.
  - eapply simulates_ret. by apply fwd_control_sim.
  - apply negb_true_iff, bool_decide_eq_false in Hfr. cbn [ric_spec_step].
    unfold rm_report_service_near_ric, st_assert, st_lift. destruct (a >? 0)%Z; [|done].
    by apply request_sim_same.
  - apply (answer_sim r s _ _ (bool_decide (not_admitted resp = [] ∧ admitted resp = [0%Z]))); [done|].
    intros r'. apply resp_checks.
  - by apply (answer_sim r s _ _ true).
  - by apply (answer_sim r s _ _ true).
Qed.

(** A handler that has no answer to send. *)
Lemma none_answer_sim (h : st ric e2ap_msg_t) info r sres :
  (∀ x r', h r = Ret (x, r') → x = NONE_E2_MSG_TYPE) →
  simulates ric_sim () ((h;; mret ()) r) sres →
  simulates ric_sim () ((ans ← h; match ans with NONE_E2_MSG_TYPE => mret () | _ => st_mod (add_sent info ans) end) r) sres.
Proof using Type.
  intros Hh Hst. unfold mbind, st_bind in *. destruct (h r) as [[x r']| | | |] eqn:Hr; cbn in Hst |- *; try done.
  by rewrite (Hh x r' eq_refl).
Qed.

Lemma bind_none {A} (m : st ric A) (f : A → st ric e2ap_msg_t) r x r' : (m ≫= f) r = Ret (x, r') →
  (∀ a r1, f a r1 = Ret (x, r') → x = NONE_E2_MSG_TYPE) → x = NONE_E2_MSG_TYPE.
Proof using Type. unfold mbind, st_bind. destruct (m r) as [[a r1]| | | |]; try done. cbn. eauto. Qed.

(** A message of a node, with the calls of the iApp it made. *)
Definition node_msg_calls (info : sctp_info_t) (m : e2ap_msg_t) : st ric (list iapp_call) := λ r,
  '(_, r') ← sctp_msg_arrived_event info m r;
  Ret (reverse (take (length (to_iapp r') - length (to_iapp r)) (to_iapp r')), r').

Definition near_ric_node : RicNode ric := {| node_msg_gen := node_msg_calls |}.

Lemma node_answer_sim r s info m o : ric_sim r s → answer_op m = Some o →
  simulates ric_sim [NotifyMsg m] (node_msg_calls info m r) (ric_spec_step N o s).
Proof using All.
  intros Hsim Hm. assert (op_fresh o s = true) as Hfr by (destruct m; try done; by injection Hm as <-).
  pose proof (ric_step_refines o r s Hsim Hfr) as Hst.
  assert (simulates ric_sim () (sctp_msg_arrived_event info m r) (ric_spec_step N o s)) as Harr.
  { destruct m; try done; injection Hm as <-; cbn [ric_step] in Hst |- *.
    all: unfold sctp_msg_arrived_event; rewrite (st_bind_Ret _ _ _ _ _ eq_refl); cbn [e2ap_msg_handle_ric].
    all: apply none_answer_sim; [|exact Hst]; intros x r' Hx.
    all: repeat (apply (bind_none _ _ _ _ _ Hx); clear Hx; intros [] ? Hx); by injection Hx. }
  assert (∀ s', ric_spec_step N o s = Ret s' → s_to_iapp s' = NotifyMsg m :: s_to_iapp s) as Hcall.
  { destruct m; try done; injection Hm as <-; cbn [ric_spec_step]; intros s'.
    all: unfold s_answer; destruct (remove_one _ _); [|done].
    - destruct (bool_decide _); [|done]. by intros [= <-].
    - by intros [= <-].
    - by intros [= <-]. }
  unfold node_msg_calls. destruct (ric_spec_step N o s) as [s'| | | |]; cbn in Harr |- *; try done; try by rewrite Harr.
  destruct Harr as (r' & -> & Hsim'). cbn. exists r'. split; [|done].
  destruct Hsim' as (_ & _ & _ & -> & _), Hsim as (_ & _ & _ & -> & _). rewrite (Hcall s' eq_refl).
  cbn [length]. replace (S (length (s_to_iapp s)) - length (s_to_iapp s)) with 1 by lia. done.
Qed.

Definition near_ric_node_laws : RicNodeLaws ric (RicIf0 := near_ric_if) (RicNode0 := near_ric_node) N (IL := near_ric_if_laws) :=
  Build_RicNodeLaws ric near_ric_if near_ric_node N near_ric_if_laws node_answer_sim.

Lemma near_ric_sent_ok r s : ric_sim r s → sent r = s_sent s.
Proof using Type. by intros (_ & _ & H & _). Qed.
Definition near_ric_sent : RicSent ric (RicIf0 := near_ric_if) N (IL := near_ric_if_laws) :=
  Build_RicSent ric near_ric_if N near_ric_if_laws sent near_ric_sent_ok.

Lemma ric_run_simulates os r s : ric_sim r s → ric_fresh N os s = true →
  simulates ric_sim () (ric_run os r) (ric_spec_run N os s).
Proof.
  revert r s. induction os as [|o os IH]; intros r s Hsim Hfr; [by exists r|].
  cbn [ric_fresh] in Hfr. apply andb_true_iff in Hfr as [Ho Hfr].
  apply (simulates_bind _ _ _ _ _ _ _ _ (ric_step_refines o r s Hsim Ho)).
  intros r1 s1 Hs1 Hsim1. rewrite Hs1 in Hfr. by apply IH.
Qed.

Lemma ric_sim_init r : armed r [] → a_rep (left (e2_nodes r)) N → sent r = [] → to_iapp r = [] →
  ric_sim r (mk_ric_spec (req_id r) (last_req_id r) [] [] []).
Proof using Type. intros Ha HN Hs Hi. split_and!; try done. by exists []. Qed.

(** C7. A program of requests of the iApp and answers of the E2 nodes sees from
    [near_ric_t] what it sees from the specification, in which the pending
    requests are a list: the same messages to the nodes and to the iApp, and the
    same aborts (a request to a node that is not connected, an answer that no
    pending request waits for, a response other than one admitted action 0),
    whatever the containers, as long as no request is made for an event that is
    already pending. *)
Theorem near_ric_run_refines os r : armed r [] → a_rep (left (e2_nodes r)) N → sent r = [] → to_iapp r = [] →
  let s := mk_ric_spec (req_id r) (last_req_id r) [] [] [] in
  ric_fresh N os s = true →
  ('(_, r') ← ric_run os r; Ret (sent r', to_iapp r')) =
  (s' ← ric_spec_run N os s; Ret (s_sent s', s_to_iapp s')).
Proof.
  intros Ha HN Hs Hi s Hfr.
  pose proof (ric_run_simulates os r s (ric_sim_init r Ha HN Hs Hi) Hfr) as Hsim.
  destruct (ric_spec_run N os s) as [s'| | | |]; cbn in Hsim; try done; try by rewrite Hsim.
  destruct Hsim as (r' & -> & _ & _ & Hs' & Hi' & _). cbn. by rewrite Hs', Hi'.
Qed.

(** C12. At any point of such a program the armed timers are exactly the timers of
    the pending requests, and every message passed on to the iApp answers one
    request sent to a node before: the pending requests and the answered ones
    together are the requests sent. *)
Theorem near_ric_answers_accounted os r r' : armed r [] → a_rep (left (e2_nodes r)) N →
  sent r = [] → to_iapp r = [] →
  ric_fresh N os (mk_ric_spec (req_id r) (last_req_id r) [] [] []) = true →
  ric_run os r = Ret ((), r') →
  ∃ P, armed r' P ∧ P.*2 ++ (to_iapp r' ≫= answered) ≡ₚ (sent r' ≫= requested).
Proof.
  intros Ha HN Hs Hi Hfr Hrun.
  pose proof (ric_run_simulates os r _ (ric_sim_init r Ha HN Hs Hi) Hfr) as Hsim. rewrite Hrun in Hsim.
  destruct (ric_spec_run N os _) as [s'| | | |] eqn:Hspec; cbn in Hsim; try done.
  destruct Hsim as (r2 & [= <-] & _ & _ & Hs' & Hi' & _ & P & Ha' & HP). exists P. split; [done|].
  rewrite Hs', Hi', HP. eapply ric_spec_run_accounted; [|exact Hspec]. unfold accounted. done.
Qed.

(** The id given to a control request right after a subscription request was
    forwarded is the id of the subscription: forwarding sets the counter to the
    xApp's id, and the control request takes the counter. *)
Theorem control_id_is_subscription_id r s id sr id' cr to to' : ric_sim r s →
  node_addr N id = Some to → node_addr N id' = Some to' →
  let q := wrap 16 (ric_req_id (sr_ric_id sr)) in
  let cr' := ctrl_with_id cr q in
  mk_pending_event_ric SUBSCRIPTION_REQUEST_PENDING_EVENT (sr_ric_id sr) ∉ s_pending s →
  mk_pending_event_ric CONTROL_REQUEST_PENDING_EVENT (cr_ric_id cr') ∉ s_pending s →
  ∃ r', (q1 ← fwd_ric_subscription_request timerfd_create id sr;
         '(q2, _) ← fwd_ric_control_request timerfd_create id' cr; mret (q1, q2)) r = Ret ((q, q), r') ∧
    sent r' = (to', RIC_CONTROL_REQUEST cr') :: (to, RIC_SUBSCRIPTION_REQUEST sr) :: sent r.
Proof.
  intros Hsim Hto Hto' q cr' Hev Hev'. pose proof Hsim as (_ & _ & Hs & _).
  assert (op_fresh (FwdSub id sr) s = true) as Hf1 by (by apply negb_true_iff, bool_decide_eq_false).
  pose proof (fwd_subscription_sim r s id sr Hsim Hf1) as H1. cbn [ric_spec_step] in H1. unfold s_request in H1.
  rewrite Hto in H1. destruct H1 as (r1 & Hr1 & Hsim1). rewrite (st_bind_Ret _ _ _ _ _ Hr1).
  match type of Hsim1 with ric_sim _ ?s1 => pose proof (fwd_control_sim r1 s1 id' cr Hsim1) as H2 end.
  cbn [ric_spec_step s_req_id] in H2. unfold s_request in H2. rewrite Hto' in H2.
  destruct H2 as (r2 & Hr2 & Hsim2).
  { apply negb_true_iff, bool_decide_eq_false. apply not_elem_of_cons. by split. }
  exists r2. rewrite (st_bind_Ret _ _ _ _ _ Hr2), (wrap_id 16 (wrap 16 _)) by (apply wrap_ok; lia).
  split; [done|]. destruct Hsim2 as (_ & _ & Hs2 & _). rewrite Hs2. cbn. by rewrite Hs.
Qed.
End near_ric.
