(* ===== verification/NearRicPub.v ===== *)
(** * The near-RT RIC: listeners and indications

    The publish/subscribe table of [near_ric_t] and the handler of indications; and the
    near-RT RIC as an implementation of [RicInd], the interface the iApp relies on. *)
From Stdlib Require Import String.
From stdpp Require Import gmap.
From S2P Require Import Prelude AssocSpec AssocIter BiMap BiMapFind RicIds E2apMsg AddrMaps NearRic RicSpec NearRicInv.
#[local] Set Warnings "-clear-no-such-hyp".
#[local] Set Default Proof Using "Type*".

(** A search by key, and the value at the iterator it finds. *)
Lemma find_key_value {V T I} `{AL : AssocLaws Z V T cmp_up} `{AI : !AssocIterOps Z V T I}
    `{AIL : !AssocIterLaws cmp_up} (f : Z) t L : a_rep t L →
  ∃ r, find_in_tree (eq_ran_func_id f) t = Ret (r, t) ∧
    match r with
    | None => f ∉ L.*1
    | Some it => ∃ v, a_value it t = Ret (v, t) ∧ (f, v) ∈ L
    end.
Proof.
  intros Hrep. destruct (find_in_tree_spec cmp_up (eq_ran_func_id f) t L Hrep) as ([it|] & Hf & Hit).
  - exists (Some it). split; [done|]. destruct Hit as (j & k & v & Hat & Hk & Hfk & _).
    apply Z.eqb_eq in Hfk as <-. exists v. split; [by apply (a_entry_ok t L j it f v)|].
    by eapply list_elem_of_lookup_2.
  - exists None. split; [done|]. intros (e & -> & He)%list_elem_of_fmap.
    rewrite Forall_forall in Hit. specialize (Hit e He). unfold eq_ran_func_id in Hit. lia.
Qed.

Lemma strict_key_inj {V} (L : list (Z * V)) f v v' : strict cmp_up L → (f, v) ∈ L → (f, v') ∈ L → v = v'.
Proof.
  intros Hs H1 H2. pose proof H1 as (L1 & L2 & HL)%list_elem_of_split.
  destruct (list_elem_of_split _ _ H2) as (L1' & L2' & HL').
  rewrite HL in HL', Hs.
  destruct (strict_unique cmp_up f _ _ _ _ _ _ Hs HL') as (_ & [= ->] & _); [apply (comp_refl cmp_up)..|].
  done.
Qed.

Section near_ric.
Context {TL TR TEL TER TP TS IR IE IP IS C D : Type}
  `{OL : AssocOps Z pending_event_ric_t TL} `{OR : AssocOps pending_event_ric_t Z TR}
  `{IOR : !AssocIterOps pending_event_ric_t Z TR IR}
  `{OEL : AssocOps global_e2_node_id_t sctp_info_t TEL} `{OER : AssocOps sctp_info_t global_e2_node_id_t TER}
  `{IOE : !AssocIterOps global_e2_node_id_t sctp_info_t TEL IE}
  `{OP : AssocOps Z positive TP} `{IOP : !AssocIterOps Z positive TP IP}
  `{OS : AssocOps Z (sm_ric_t C D) TS} `{IOS : !AssocIterOps Z (sm_ric_t C D) TS IS}.
Context {LP : AssocLaws (V := positive) (T := TP) cmp_up} {ILP : AssocIterLaws (V := positive) (I := IP) cmp_up}.
Context {LS : AssocLaws (V := sm_ric_t C D) (T := TS) cmp_up}
  {ILS : AssocIterLaws (V := sm_ric_t C D) (I := IS) cmp_up}.

Abbreviation ric := (near_ric_t (TL := TL) (TR := TR) (TEL := TEL) (TER := TER) (TP := TP) (TS := TS) (D := D)).
Implicit Types (r : ric).

Lemma set_pub_sub_same r : set_pub_sub (pub_sub r) r = r.
Proof using Type. by destruct r. Qed.
Lemma set_sm_ds_same r : set_sm_ds (sm_ds r) r = r.
Proof using Type. by destruct r. Qed.

(** The table [L] maps every RAN function to an array of its own. *)
Definition pub_view r (L : list (Z * positive)) : Prop :=
  a_rep (pub_sub r) L ∧ strict cmp_up L ∧ NoDup L.*2 ∧ Forall (λ e, is_Some (listeners r !! e.2)) L.

(** The listeners of a RAN function. *)
Definition subs_of r (L : list (Z * positive)) (f : Z) : list string :=
  match list_find (λ e, e.1 = f) L with
  | Some (_, e) => default [] (listeners r !! e.2)
  | None => []
  end.

Lemma subs_of_in r L f a : strict cmp_up L → (f, a) ∈ L → subs_of r L f = default [] (listeners r !! a).
Proof using Type.
  intros Hs Hin. unfold subs_of. destruct (list_find (λ e, e.1 = f) L) as [[i [f' a']]|] eqn:Hf.
  - apply list_find_Some in Hf as (Hi & Heq & _). cbn in Heq. subst f'.
    by rewrite (strict_key_inj L f a a' Hs Hin (list_elem_of_lookup_2 _ _ _ Hi)).
  - apply list_find_None in Hf. rewrite Forall_forall in Hf. by apply Hf in Hin.
Qed.

Lemma subs_of_out r L f : f ∉ L.*1 → subs_of r L f = [].
Proof using Type.
  intros Hf. unfold subs_of. destruct (list_find (λ e, e.1 = f) L) as [[i e]|] eqn:Hl; [|done].
  apply list_find_Some in Hl as (Hi & <- & _). exfalso. apply Hf.
  apply list_elem_of_fmap_2. by eapply list_elem_of_lookup_2.
Qed.

Lemma on_pub_sub_find r L f : pub_view r L → ∃ it,
  on_pub_sub (find_in_tree (eq_ran_func_id f)) r = Ret (it, r) ∧
  match it with
  | None => f ∉ L.*1
  | Some it => ∃ a, on_pub_sub (a_value it) r = Ret (a, r) ∧ (f, a) ∈ L
  end.
Proof using ILP.
  intros (Hrep & _). destruct (find_key_value f (pub_sub r) L Hrep) as (it & Hf & Hit).
  exists it. split; [unfold on_pub_sub; rewrite Hf; by destruct r|].
  destruct it as [it|]; [|done]. destruct Hit as (a & Ha & Hin). exists a.
  split; [unfold on_pub_sub; rewrite Ha; by destruct r|done].
Qed.

(** Registering a listener adds it at the end of the listeners of its RAN
    function and changes those of no other: each RAN function keeps an array of
    its own. *)
Lemma register_listener_ok r L f name : pub_view r L →
  ∃ r' L', register_listeners_for_ran_func_id f name r = Ret ((), r') ∧ pub_view r' L' ∧ sm_ds r' = sm_ds r ∧
    ∀ f', subs_of r' L' f' = if (f' =? f)%Z then subs_of r L f ++ [name] else subs_of r L f'.
Proof using ILP LP.
  intros Hv. pose proof Hv as (Hrep & Hs & Hnd & Hl).
  destruct (on_pub_sub_find r L f Hv) as (it & Hf & Hit).
  unfold register_listeners_for_ran_func_id. rewrite (st_bind_Ret _ _ _ _ _ Hf). destruct it as [it|].
  - destruct Hit as (a & Ha & Hin). rewrite (st_bind_Ret _ _ _ _ _ Ha), (st_bind_Ret st_get _ _ _ _ eq_refl).
    eexists _, L. split; [reflexivity|]. split; [|split; [done|]].
    { split_and!; try done. cbn. eapply Forall_impl; [exact Hl|]. cbn. intros e [l He].
      rewrite lookup_alter. case_decide; [|by exists l]. subst. rewrite He. by eexists. }
    intros f'. destruct (Z.eqb_spec f' f) as [->|Hne].
    + rewrite !(subs_of_in _ L f a Hs Hin). cbn. rewrite lookup_alter_eq.
      rewrite Forall_forall in Hl. destruct (Hl _ Hin) as [l Hl']. cbn in Hl'. by rewrite Hl'.
    + destruct (decide (f' ∈ L.*1)) as [([? a'] & -> & Hin')%list_elem_of_fmap|Hout].
      * cbn in *. rewrite !(subs_of_in _ L _ a' Hs Hin'). cbn. rewrite lookup_alter_ne; [done|].
        intros ->. apply Hne. by apply (NoDup_snd_inj L _ _ a').
      * by rewrite !subs_of_out.
  - rewrite (st_bind_Ret st_get _ _ _ _ eq_refl). cbv zeta.
    set (arr := fresh (dom (listeners r))). assert (listeners r !! arr = None) as Harr.
    { apply not_elem_of_dom. apply is_fresh. }
    rewrite (st_bind_Ret _ _ _ _ _ eq_refl).
    destruct (a_insert_ok (pub_sub r) L f arr Hrep) as (t' & Ht' & Hrep'). change cmp_up with cmp_ran_func_id in Ht'.
    assert (Forall (λ e, cmp_up f e.1 ≠ 0%Z) L) as Hfr.
    { apply Forall_forall. intros e He Hc. apply (proj1 (cmp_up_eq _ _)) in Hc. apply Hit. rewrite Hc. by apply list_elem_of_fmap_2. }
    assert (arr ∉ L.*2) as Hout.
    { intros (e & He & Hin)%list_elem_of_fmap. rewrite Forall_forall in Hl. destruct (Hl e Hin) as [l Hel].
      rewrite <-He, Harr in Hel. done. }
    assert (strict cmp_up (ord_insert cmp_up f arr L)) as Hs' by (apply (ord_insert_strict cmp_up); done).
    eexists _, (ord_insert cmp_up f arr L). split; [unfold on_pub_sub; cbn; by rewrite Ht'|].
    split; [|split; [done|]].
    { split_and!; cbn; [done|done| |].
      - rewrite ord_insert_perm. cbn. by constructor.
      - rewrite ord_insert_perm. constructor; cbn; [rewrite lookup_insert_eq; by eexists|].
        eapply Forall_impl; [exact Hl|]. cbn. intros e [l He]. destruct (decide (arr = e.2)) as [->|].
        + by rewrite lookup_insert_eq; eexists.
        + rewrite lookup_insert_ne by done. by exists l. }
    intros f'. destruct (Z.eqb_spec f' f) as [->|Hne].
    + rewrite (subs_of_in _ _ f arr Hs') by (rewrite ord_insert_perm; left). cbn.
      rewrite lookup_insert_eq. by rewrite subs_of_out.
    + destruct (decide (f' ∈ L.*1)) as [([? a'] & -> & Hin')%list_elem_of_fmap|Hout'].
      * cbn in *. rewrite (subs_of_in _ _ _ a' Hs') by (rewrite ord_insert_perm; by right).
        rewrite (subs_of_in r L _ a' Hs Hin'). cbn. rewrite lookup_insert_ne; [done|].
        intros ->. apply Hout. by apply (list_elem_of_fmap_2' snd L (z, a')).
      * rewrite !subs_of_out; [done|done|]. rewrite ord_insert_perm. cbn.
        by apply not_elem_of_cons.
Qed.

(** *** The default listeners *)

Lemma bool_decide_ext_if {A} (P Q : Prop) `{Decision P, Decision Q} (a b : A) :
  (P ↔ Q) → (if bool_decide P then a else b) = (if bool_decide Q then a else b).
Proof using Type. intros HPQ. by rewrite (bool_decide_ext P Q HPQ). Qed.

Definition default_listeners : list string :=
  ["stdout listener"%string; "redis listener"%string; "influx listener"%string].

Lemma register_defaults r L f : pub_view r L → subs_of r L f = [] →
  ∃ r' L', (∀ (k : st ric ()), (register_listeners_for_ran_func_id f "stdout listener";;
     register_listeners_for_ran_func_id f "redis listener";;
     register_listeners_for_ran_func_id f "influx listener";; k) r = k r') ∧
    pub_view r' L' ∧ sm_ds r' = sm_ds r ∧
    ∀ f', subs_of r' L' f' = if (f' =? f)%Z then default_listeners else subs_of r L f'.
Proof using ILP LP.
  intros Hv Hf.
  destruct (register_listener_ok r L f "stdout listener" Hv) as (r1 & L1 & H1 & Hv1 & Hd1 & Hs1).
  destruct (register_listener_ok r1 L1 f "redis listener" Hv1) as (r2 & L2 & H2 & Hv2 & Hd2 & Hs2).
  destruct (register_listener_ok r2 L2 f "influx listener" Hv2) as (r3 & L3 & H3 & Hv3 & Hd3 & Hs3).
  exists r3, L3. split_and!; [|done|congruence|].
  - intros k. by rewrite (st_bind_Ret _ _ _ _ _ H1), (st_bind_Ret _ _ _ _ _ H2), (st_bind_Ret _ _ _ _ _ H3).
  - intros f'. rewrite Hs3, !Hs2, !Hs1, Hf, Z.eqb_refl. by destruct (f' =? f)%Z.
Qed.

(** The listeners after the first [i] service models of [SM]. *)
Definition defaults_upto (SM : list (Z * sm_ric_t C D)) (i : nat) r (L : list (Z * positive)) : Prop :=
  ∀ f, subs_of r L f = if bool_decide (f ∈ (take i SM).*1) then default_listeners else [].

Lemma load_default_loop_ok fuel t SM i it e r L : a_rep t SM → strict cmp_up SM → sm_ds r = t →
  a_it_at t SM i it → a_it_at t SM (length SM) e → i ≤ length SM → length SM - i < fuel →
  pub_view r L → defaults_upto SM i r L →
  ∃ r' L', load_default_loop fuel it e r = Ret ((), r') ∧ pub_view r' L' ∧ defaults_upto SM (length SM) r' L'.
Proof using ILP ILS.
  intros HS HsS. revert i it r L. induction fuel as [|fuel IH]; intros i it r L Ht Hit He Hi Hf Hv Hd; [lia|].
  cbn [load_default_loop]. destruct (decide (it = e)) as [->|Hne].
  - rewrite bool_decide_eq_true_2 by done.
    assert (i = length SM) as -> by (eapply (a_it_inj t SM); eauto). by exists r, L.
  - rewrite bool_decide_eq_false_2 by done. assert (i < length SM) as Hlt.
    { destruct (decide (i = length SM)) as [->|]; [|lia]. exfalso. apply Hne. by eapply (a_it_fun t SM). }
    destruct (lookup_lt_is_Some_2 SM i Hlt) as [[f sm] Hk].
    destruct (a_entry_ok t SM i it f sm HS Hit Hk) as [Hkey _].
    destruct (a_next_ok t SM i it HS Hit Hlt) as (it2 & Hn & Hit2).
    assert (∀ A (m : st TS A) a r0, sm_ds r0 = t → m t = Ret (a, t) → on_sm_ds m r0 = Ret (a, r0)) as Hon.
    { intros A m a r0 Hr0 Hm. unfold on_sm_ds. rewrite Hr0, Hm. destruct r0. cbn in *. by subst. }
    rewrite (st_bind_Ret _ _ _ _ _ (Hon _ _ _ r Ht Hkey)).
    assert (f ∉ (take i SM).*1) as Hfi.
    { rewrite <-(take_drop_middle SM i (f, sm) Hk) in HsS.
      intros (e' & Heq & Hin)%list_elem_of_fmap. apply (strict_app cmp_up) in HsS as (_ & _ & HsS).
      specialize (HsS e' (f, sm) Hin (list_elem_of_here _ _)). cbn in HsS. rewrite <-Heq in HsS.
      by rewrite (comp_refl cmp_up) in HsS. }
    destruct (register_defaults r L f Hv) as (r2 & L2 & Hk2 & Hv2 & Hd2 & Hs2).
    { rewrite Hd. by rewrite bool_decide_eq_false_2. }
    rewrite Hk2, (st_bind_Ret _ _ _ _ _ (Hon _ _ _ r2 (eq_trans Hd2 Ht) Hn)).
    apply (IH (S i) it2 r2 L2); [by rewrite Hd2|done..|lia|lia|done|].
    intros f'. rewrite Hs2, Hd, (take_S_r _ _ _ Hk), fmap_app. cbn.
    destruct (Z.eqb_spec f' f) as [->|Hff].
    + rewrite bool_decide_eq_true_2; [done|]. apply elem_of_app. right. left.
    + apply bool_decide_ext_if. rewrite elem_of_app, list_elem_of_singleton. naive_solver.
Qed.

(** After initialisation every RAN function of a loaded service model has
    the three standard listeners, in this order, and no other RAN function has
    any. *)
Theorem load_default_pub_sub_spec r SM : a_rep (pub_sub r) [] → a_rep (sm_ds r) SM → strict cmp_up SM →
  ∃ r' L, load_default_pub_sub_ric r = Ret ((), r') ∧ pub_view r' L ∧
    ∀ f, subs_of r' L f = if bool_decide (f ∈ SM.*1) then default_listeners else [].
Proof using ILP ILS.
  intros Hp HS HsS. unfold load_default_pub_sub_ric. rewrite (st_bind_Ret st_get _ _ _ _ eq_refl).
  destruct (a_front_ok (sm_ds r) SM HS) as (it & Hf & Hit).
  destruct (a_end_ok (sm_ds r) SM HS) as (e & He & Hie).
  erewrite st_bind_Ret by (unfold on_sm_ds; by rewrite Hf).
  erewrite st_bind_Ret by (unfold on_sm_ds; cbn; by rewrite He).
  rewrite ?set_sm_ds_same, ?set_pub_sub_same.
  rewrite (a_rep_size _ _ HS).
  destruct (load_default_loop_ok (S (length SM)) (sm_ds r) SM 0 it e r [] HS HsS eq_refl Hit Hie)
    as (r' & L' & Hl & Hv & Hd); [lia|lia| | |].
  - split_and!; [done|constructor|constructor|constructor].
  - by intros f.
  - exists r', L'. split_and!; [done|done|]. intros f. by rewrite Hd, firstn_all.
Qed.

(** *** Indications *)

Lemma call_listeners_spec (l : list string) (d : D) r :
  call_listeners l d r = Ret ((), add_notified (rev ((λ n, (n, d)) <$> l)) r).
Proof using Type.
  revert r. induction l as [|n l IH]; intros r; cbn [call_listeners]; [by destruct r|].
  rewrite (st_bind_Ret _ _ _ _ _ eq_refl), IH. unfold add_notified. cbn. by rewrite <-app_assoc.
Qed.

Lemma plugin_found r SM f (sm : sm_ric_t C D) : a_rep (sm_ds r) SM → strict cmp_up SM → (f, sm) ∈ SM →
  sm_ran_func_id sm = f → (0 < f)%Z → sm_plugin_ric f r = Ret (sm, r).
Proof using ILS.
  intros HS HsS Hsm Hid Hpos. unfold sm_plugin_ric. assert ((f >? 0)%Z = true) as -> by lia. rewrite (st_bind_Ret _ _ _ _ _ eq_refl).
  destruct (find_key_value f (sm_ds r) SM HS) as ([it|] & Hfi & Hit).
  - destruct Hit as (sm' & Hsm' & Hin). rewrite (strict_key_inj SM f sm' sm HsS Hin Hsm) in Hsm'.
    erewrite st_bind_Ret by (unfold on_sm_ds; by rewrite Hfi).
    cbv beta iota. erewrite st_bind_Ret by (unfold on_sm_ds; cbn; by rewrite Hsm').
    rewrite Hid, Z.eqb_refl. by destruct r.
  - exfalso. apply Hit. by apply (list_elem_of_fmap_2' fst SM (f, sm)).
Qed.

(** Publishing calls the listeners of the first RAN function of the table. *)
Lemma publish_first r L f0 a0 L' f (d : D) : pub_view r L → L = (f0, a0) :: L' → f ∈ L.*1 →
  publish_ind_msg f d r = Ret ((), add_notified (rev ((λ n, (n, d)) <$> subs_of r L f0)) r).
Proof using ILP.
  intros Hv HL Hf. pose proof Hv as (Hrep & Hs & Hnd & Hl).
  assert (subs_of r L f0 = default [] (listeners r !! a0)) as ->.
  { apply subs_of_in; [done|]. rewrite HL. left. }
  rewrite Forall_forall in Hl. destruct (Hl (f0, a0)) as [l Ha0]; [rewrite HL; left|]. cbn in Ha0. rewrite Ha0. cbn [default].
  rewrite <-call_listeners_spec. unfold publish_ind_msg. destruct (a_front_ok (pub_sub r) L Hrep) as (it0 & Hfr & Hat).
  erewrite st_bind_Ret by (unfold on_pub_sub; by rewrite Hfr).
  rewrite ?set_sm_ds_same, ?set_pub_sub_same.
  destruct (on_pub_sub_find r L f Hv) as ([it|] & Hfi & Hit); [|done].
  rewrite (st_bind_Ret _ _ _ _ _ Hfi), (st_bind_Ret _ _ _ _ _ eq_refl).
  destruct (a_entry_ok (pub_sub r) L 0 it0 f0 a0 Hrep Hat) as [_ Hval]; [by rewrite HL|].
  erewrite st_bind_Ret by (unfold on_pub_sub; by rewrite Hval).
  rewrite ?set_sm_ds_same, ?set_pub_sub_same.
  by rewrite (st_bind_Ret st_get _ _ _ _ eq_refl), Ha0.
Qed.

(** What an indication needs: a table, the RAN function in it, and its plugin. *)
Definition ind_ready r (L : list (Z * positive)) (f : Z) (sm : sm_ric_t C D) : Prop :=
  pub_view r L ∧ f ∈ L.*1 ∧ (0 < f)%Z ∧
  ∃ SM, a_rep (sm_ds r) SM ∧ strict cmp_up SM ∧ (f, sm) ∈ SM ∧ sm_ran_func_id sm = f.

(** An indication of a RAN function with a service model goes to the iApp and
    to the listeners of the FIRST RAN function of the table, whatever the RAN
    function it came from; pending requests and the messages to the nodes do not
    change. *)
Theorem indication_notifies_first_function r L f0 a0 L' ind (sm : sm_ric_t C D) t (d : D) :
  ind_ready r L (ran_func_id (ind_ric_id ind)) sm → L = (f0, a0) :: L' →
  on_indication sm ind = Ret (t, d) → stats_type t = true → free_ind_data sm d = Ret () →
  ∃ r', e2ap_msg_handle_ric (RIC_INDICATION ind) r = Ret (NONE_E2_MSG_TYPE, r') ∧
    notified r' = rev ((λ n, (n, d)) <$> subs_of r L f0) ++ notified r ∧
    to_iapp r' = NotifyMsg (RIC_INDICATION ind) :: to_iapp r ∧ sent r' = sent r ∧ pending r' = pending r.
Proof using ILP ILS.
  intros (Hv & Hf & Hpos & SM & HS & HsS & Hsm & Hid) HL Hd Ht Hfree.
  cbn [e2ap_msg_handle_ric]. unfold e2ap_handle_indication_ric. cbv zeta.
  rewrite (st_bind_Ret _ _ _ _ _ (plugin_found r SM _ sm HS HsS Hsm Hid Hpos)).
  erewrite st_bind_Ret by (unfold st_lift; by rewrite Hd). cbn [fst snd]. rewrite Ht, (st_bind_Ret _ _ _ _ _ eq_refl).
  rewrite (st_bind_Ret _ _ _ _ _ (publish_first r L f0 a0 L' _ d Hv HL Hf)), (st_bind_Ret _ _ _ _ _ eq_refl).
  erewrite st_bind_Ret by (unfold st_lift; by rewrite Hfree). eexists. by split.
Qed.
End near_ric.

(** ** Indications are handed over

    An indication of a RAN function with a service model goes to the listeners and to
    the iApp and leaves the pending requests as they are. *)
#[local] Set Default Proof Using "All".

Section handed_over.
Context {TL TR TEL TER TP TS IR IE IP IS C D : Type}
  `{OL : AssocOps Z pending_event_ric_t TL} `{OR : AssocOps pending_event_ric_t Z TR}
  `{IOR : !AssocIterOps pending_event_ric_t Z TR IR}
  `{OEL : AssocOps global_e2_node_id_t sctp_info_t TEL} `{OER : AssocOps sctp_info_t global_e2_node_id_t TER}
  `{IOE : !AssocIterOps global_e2_node_id_t sctp_info_t TEL IE}
  `{OP : AssocOps Z positive TP} `{IOP : !AssocIterOps Z positive TP IP}
  `{OS : AssocOps Z (sm_ric_t C D) TS} `{IOS : !AssocIterOps Z (sm_ric_t C D) TS IS}.
Context {LL : AssocLaws (V := pending_event_ric_t) (T := TL) cmp_fd}
  {LR : AssocLaws (V := Z) (T := TR) comp_pend} {ILR : AssocIterLaws (I := IR) comp_pend}.
Context {LE : AssocLaws (V := sctp_info_t) (T := TEL) cmp_node} {ILE : AssocIterLaws (I := IE) cmp_node}.
Context {LP : AssocLaws (V := positive) (T := TP) cmp_up} {ILP : AssocIterLaws (V := positive) (I := IP) cmp_up}.
Context {LS : AssocLaws (V := sm_ric_t C D) (T := TS) cmp_up}
  {ILS : AssocIterLaws (V := sm_ric_t C D) (I := IS) cmp_up}.
Context (N : list (global_e2_node_id_t * sctp_info_t)).
Context (timerfd_create : list Z → Z)
  (timerfd_create_fresh : ∀ open, (0 < timerfd_create open)%Z ∧ timerfd_create open ∉ open).

Abbreviation ric := (near_ric_t (TL := TL) (TR := TR) (TEL := TEL) (TER := TER) (TP := TP) (TS := TS) (D := D)).
Implicit Types (r : ric).

Lemma ind_handed_over r s info ind (sm : sm_ric_t C D) t d : ric_sim N r s →
  (∃ L, ind_ready r L (ran_func_id (ind_ric_id ind)) sm) → on_indication sm ind = Ret (t, d) → stats_type t = true → free_ind_data sm d = Ret () →
  ∃ r', node_msg_calls info (RIC_INDICATION ind) r = Ret ([NotifyMsg (RIC_INDICATION ind)], r') ∧
    ric_sim N r' (s_called (NotifyMsg (RIC_INDICATION ind)) s).
Proof.
  intros Hsim (L & Hv & Hf & Hpos & SM & HS & HsS & Hsm & Hid) Hd Ht Hfree.
  assert (∃ f0 a0 L', L = (f0, a0) :: L') as (f0 & a0 & L' & HL).
  { destruct L as [|[f0 a0] L']; [by apply not_elem_of_nil in Hf|by eexists _, _, _]. }
  set (r1 := add_notified (rev ((λ n, (n, d)) <$> subs_of r L f0)) r).
  assert (sctp_msg_arrived_event info (RIC_INDICATION ind) r = Ret ((), add_to_iapp (NotifyMsg (RIC_INDICATION ind)) r1)) as Harr.
  { unfold sctp_msg_arrived_event. rewrite (st_bind_Ret _ _ _ _ _ eq_refl). cbn [e2ap_msg_handle_ric].
    unfold e2ap_handle_indication_ric. cbv zeta. rewrite st_bind_assoc.
    rewrite (st_bind_Ret _ _ _ _ _ (plugin_found r SM _ sm HS HsS Hsm Hid Hpos)), st_bind_assoc.
    erewrite st_bind_Ret by (unfold st_lift; by rewrite Hd). cbn [fst snd]. rewrite Ht, st_bind_assoc, (st_bind_Ret _ _ _ _ _ eq_refl).
    rewrite st_bind_assoc, (st_bind_Ret _ _ _ _ _ (publish_first r L f0 a0 L' _ d Hv HL Hf)), st_bind_assoc, (st_bind_Ret _ _ _ _ _ eq_refl).
    rewrite st_bind_assoc. by erewrite st_bind_Ret by (unfold st_lift; by rewrite Hfree). }
  unfold node_msg_calls. rewrite Harr. eexists. split.
  - cbn [mbind outcome_bind to_iapp add_to_iapp add_notified r1 length].
    replace (S (length (to_iapp r)) - length (to_iapp r)) with 1 by lia. reflexivity.
  - destruct Hsim as (Hq & Hl & Hs & Hi & HN & P & Ha & HP). split_and!; cbn; try done; [by rewrite Hi|by exists P].
Qed.

Definition near_ric_ind : RicInd ric C D (RicIf0 := near_ric_if timerfd_create) (RicNode0 := near_ric_node) N
    (IL := near_ric_if_laws N timerfd_create timerfd_create_fresh) :=
  Build_RicInd ric C D (near_ric_if timerfd_create) near_ric_node N (near_ric_if_laws N timerfd_create timerfd_create_fresh)
    (λ r f sm, ∃ L, ind_ready r L f sm) ind_handed_over.
End handed_over.
