(* ===== verification/NearRicSetup.v ===== *)
(** * The near-RT RIC: E2 setup and disconnection

    A setup request registers the node (its address, the array of connected
    nodes, the iApp) and is answered; the shutdown of its connection undoes it. *)
From Stdlib Require Import String.
From stdpp Require Import gmap.
From S2P Require Import Prelude AssocSpec AssocIter BiMap BiMapFind RicIds E2apMsg AddrMaps NearRic NearRicPub.
#[local] Set Warnings "-clear-no-such-hyp".
#[local] Set Default Proof Using "Type*".

(** The components whose id the answer can carry, and their acknowledgement. *)
Definition copyable (c : e2ap_node_component_config_add_t) : bool :=
  match e2_node_comp_id c with
  | UNSUPPORTED_COMP_ID _ => false
  | F1_COMP_ID du => bool_decide (du < 2 ^ 36)%Z
  | _ => true
  end.

Definition comp_ack (c : e2ap_node_component_config_add_t) : e2ap_node_comp_config_add_ack_t :=
  mk_node_comp_config_add_ack (e2_node_comp_interface_type c) (e2_node_comp_id c) SUCCESS_E2AP_NODE_COMP_CONF_ACK.

Lemma add_ack_eq c : add_ack c = if copyable c then Ret (comp_ack c) else Abort.
Proof.
  unfold add_ack, copyable, comp_ack. destruct (e2_node_comp_id c) as [ | |du| | ]; try done. cbn.
  case_bool_decide as H; [by rewrite (proj2 (Z.ltb_lt _ _) H)|].
  by rewrite (proj2 (Z.ltb_ge _ _)) by lia.
Qed.

Lemma add_acks_eq l :
  mapM_outcome add_ack l = if forallb copyable l then Ret (comp_ack <$> l) else Abort.
Proof.
  induction l as [|c l IH]; cbn; [done|]. rewrite add_ack_eq. destruct (copyable c); [|done].
  cbn. rewrite IH. by destruct (forallb copyable l).
Qed.

Lemma eq_node_refl m : node_id_wf m = true → eq_node m m = true.
Proof.
  destruct m as [t [a b c] [n u] i]. unfold node_id_wf, eq_node, eq_global_e2_node_id, eq_e2ap_plmn, eq_e2ap_gnb_id.
  cbn. rewrite !Z.eqb_refl. cbn. destruct (NODE_IS_CU t), (NODE_IS_CUUP t), (NODE_IS_DU t); cbn; try done;
    destruct i; cbn; by rewrite ?Z.eqb_refl.
Qed.

Lemma init_e2_node_eq i acc : init_e2_node i acc = mk_e2_node i acc.
Proof. by destruct i. Qed.

(** The setup requests the RIC accepts, given the RAN functions it has a service
    model for. *)
Definition setup_ok (fs : list Z) (req : e2_setup_request_t) : bool :=
  forallb (λ rf, bool_decide (rf_id rf ∈ fs)) (stp_ran_func_item req) &&
  bool_decide (0 < length (comp_conf_add req) < 1025) && forallb copyable (comp_conf_add req).

(** What [e2ap_handle_setup_request_ric] reads and asserts of the node id. *)
Definition setup_id_ok (id : global_e2_node_id_t) : bool :=
  bool_decide (0 ≤ type id < 11)%Z && (NODE_IS_MONOLITHIC (type id) || bool_decide (is_Some (cu_du_id id))).

Definition setup_answer (req : e2_setup_request_t) : e2_setup_response_t :=
  mk_e2_setup_response (stp_trans_id req) (plmn (stp_id req)) 25 (rf_id <$> stp_ran_func_item req) []
    (comp_ack <$> comp_conf_add req).

Lemma setup_id_wf id : setup_id_ok id = true → node_id_wf id = true.
Proof.
  unfold setup_id_ok, node_id_wf, NODE_IS_MONOLITHIC, NODE_IS_CU, NODE_IS_DU, NODE_IS_CUUP.
  intros [_ H]%andb_true_iff. apply orb_true_iff. apply orb_true_iff in H as [H|H]; [left|by right].
  repeat rewrite orb_true_iff, ?Z.eqb_eq in H. destruct H as [[-> | ->]| ->]; done.
Qed.

Section near_ric.
Context {TL TR TEL TER TP TS IR IE IP IS C D : Type}
  `{OL : AssocOps Z pending_event_ric_t TL} `{OR : AssocOps pending_event_ric_t Z TR}
  `{IOR : !AssocIterOps pending_event_ric_t Z TR IR}
  `{OEL : AssocOps global_e2_node_id_t sctp_info_t TEL} `{OER : AssocOps sctp_info_t global_e2_node_id_t TER}
  `{IOE : !AssocIterOps global_e2_node_id_t sctp_info_t TEL IE}
  `{OP : AssocOps Z positive TP} `{IOP : !AssocIterOps Z positive TP IP}
  `{OS : AssocOps Z (sm_ric_t C D) TS} `{IOS : !AssocIterOps Z (sm_ric_t C D) TS IS}.
Context {LE : AssocLaws (V := sctp_info_t) (T := TEL) cmp_node}
  {LR : AssocLaws (V := global_e2_node_id_t) (T := TER) cmp_sctp_info_wrapper}.
Context {LS : AssocLaws (V := sm_ric_t C D) (T := TS) cmp_up}
  {ILS : AssocIterLaws (V := sm_ric_t C D) (I := IS) cmp_up}.

Abbreviation ric := (near_ric_t (TL := TL) (TR := TR) (TEL := TEL) (TER := TER) (TP := TP) (TS := TS) (D := D)).
Implicit Types (r : ric).

Abbreviation book := (bm_rep cmp_node cmp_sctp_info_wrapper).

Lemma accept_ran_func_eq r SM l : a_rep (sm_ds r) SM →
  accept_ran_func l r =
  if forallb (λ rf, bool_decide (rf_id rf ∈ SM.*1)) l then Ret (rf_id <$> l, r) else Abort.
Proof using ILS.
  intros HS. induction l as [|rf l IH]; [done|]. cbn [accept_ran_func forallb]. cbv zeta.
  destruct (find_in_tree_spec cmp_up (eq_ran_func_id (rf_id rf)) (sm_ds r) SM HS) as (it & Hf & Hit).
  assert (∀ A (m : st TS A) a, m (sm_ds r) = Ret (a, sm_ds r) → on_sm_ds m r = Ret (a, r)) as Hon.
  { intros A m a Hm. unfold on_sm_ds. rewrite Hm. cbn. by rewrite set_sm_ds_same. }
  rewrite (st_bind_Ret _ _ _ _ _ (Hon _ _ _ Hf)). destruct it as [it|].
  - destruct Hit as (j & k & v & Hat & Hk & Hfk & _). apply Z.eqb_eq in Hfk.
    destruct (a_entry_ok (sm_ds r) SM j it k v HS Hat Hk) as [Hkey Hval].
    rewrite (st_bind_Ret _ _ _ _ _ (Hon _ _ _ Hkey)), Hfk, Z.eqb_refl, (st_bind_Ret _ _ _ _ _ eq_refl),
      (st_bind_Ret _ _ _ _ _ (Hon _ _ _ Hval)), (bool_decide_eq_true_2 (k ∈ SM.*1)).
    + unfold mbind, st_bind. rewrite IH. cbn. destruct (forallb _ l); [by rewrite <-Hfk|done].
    + apply (list_elem_of_fmap_2' fst SM (k, v)); [by eapply list_elem_of_lookup_2|done].
  - rewrite bool_decide_eq_false_2; [done|]. intros (e & He & Hin)%list_elem_of_fmap.
    rewrite Forall_forall in Hit. specialize (Hit e Hin). unfold eq_ran_func_id in Hit. lia.
Qed.

Lemma generate_setup_response_eq r SM req : a_rep (sm_ds r) SM →
  generate_setup_response_v2 req r = if setup_ok SM.*1 req then Ret (setup_answer req, r) else Abort.
Proof using ILS.
  intros HS. unfold generate_setup_response_v2, setup_ok, mbind at 1, st_bind at 1.
  rewrite (accept_ran_func_eq r SM _ HS). destruct (forallb _ (stp_ran_func_item req)); [|done]. cbn [mbind outcome_bind].
  case_bool_decide as Hl; cbn [andb].
  - destruct (Nat.ltb_spec 0 (length (comp_conf_add req))); [|lia].
    destruct (Nat.ltb_spec (length (comp_conf_add req)) 1025); [|lia].
    rewrite (st_bind_Ret _ _ _ _ _ eq_refl). unfold mbind, st_bind, st_lift. rewrite add_acks_eq.
    by destruct (forallb copyable _).
  - destruct (Nat.ltb_spec 0 (length (comp_conf_add req))), (Nat.ltb_spec (length (comp_conf_add req)) 1025);
      try lia; done.
Qed.

(** The state after an accepted setup request. *)
Definition node_added (b : bi_map_t) (info : sctp_info_t) (req : e2_setup_request_t) r : ric :=
  let n := mk_e2_node (stp_id req) (rf_id <$> stp_ran_func_item req) in
  add_sent info (E2_SETUP_RESPONSE (setup_answer req))
    (set_conn_e2_nodes (conn_e2_nodes r ++ [n])
      (add_to_iapp (AddE2Node (stp_id req) (stp_ran_func_item req) (comp_conf_add req)) (set_e2_nodes b r))).

Lemma setup_event_eq r E SM info req : book (e2_nodes r) E → a_rep (sm_ds r) SM →
  fresh_pair cmp_node cmp_sctp_info_wrapper (stp_id req) info E = true →
  setup_id_ok (stp_id req) = true → stp_ran_func_item req ≠ [] →
  ∃ b, book b ((stp_id req, info) :: E) ∧
    sctp_msg_arrived_event info (E2_SETUP_REQUEST req) r =
    if setup_ok SM.*1 req then Ret ((), node_added b info req r) else Abort.
Proof.
  intros Hb HS Hfr Hid Hrf. destruct (bm_insert_ok cmp_node cmp_sctp_info_wrapper _ _ _ _ Hb Hfr) as (b & Hins & Hb').
  exists b. split; [done|]. unfold sctp_msg_arrived_event.
  assert (on_e2_nodes (add_map_e2_node_sad (stp_id req) info) r = Ret ((), set_e2_nodes b r)) as Hadd.
  { unfold on_e2_nodes, add_map_e2_node_sad. cbv zeta.
    replace (cp_global_e2_node_id (stp_id req)) with (stp_id req) by (by destruct (stp_id req)). by rewrite Hins. }
  rewrite (st_bind_Ret _ _ _ _ _ Hadd). cbn [e2ap_msg_handle_ric]. unfold e2ap_handle_setup_request_ric.
  unfold setup_id_ok in Hid. apply andb_true_iff in Hid as [Ht Hid]. apply bool_decide_eq_true in Ht.
  assert (get_ngran_name (type (stp_id req)) = Ret ()) as Hn.
  { unfold get_ngran_name. apply c_assert_true. lia. }
  rewrite !st_bind_assoc. erewrite st_bind_Ret by (unfold st_lift; by rewrite Hn).
  rewrite !st_bind_assoc.
  rewrite (st_bind_Ret _ _ _ () (set_e2_nodes b r)).
  2: { destruct (NODE_IS_MONOLITHIC _); [done|]. cbn in Hid. apply bool_decide_eq_true in Hid as [c ->]. done. }
  rewrite !st_bind_assoc. unfold add_e2_node_iapp_api. rewrite !st_bind_assoc.
  destruct (stp_ran_func_item req) as [|rf l] eqn:Hl; [done|]. rewrite <-Hl in *.
  rewrite (st_bind_Ret _ _ _ () (set_e2_nodes b r)) by (by rewrite Hl).
  rewrite (st_bind_Ret _ _ _ _ _ eq_refl), !st_bind_assoc.
  set (r1 := add_to_iapp _ _). unfold mbind at 1, st_bind at 1.
  rewrite (generate_setup_response_eq r1 SM req HS). destruct (setup_ok SM.*1 req); [|done].
  unfold mbind, outcome_bind, st_bind, st_mod, node_added. cbn. by rewrite init_e2_node_eq.
Qed.

Lemma erase_first_app f l1 n l2 : Forall (λ m, f m = false) l1 → f n = true →
  erase_first f (l1 ++ n :: l2) = Some (l1 ++ l2).
Proof using Type.
  intros H Hn. induction H as [|m l1 Hm _ IH]; cbn; [by rewrite Hn|]. by rewrite Hm, IH.
Qed.

(** The shutdown of a connection. *)
Lemma shutdown_eq r E id info : book (e2_nodes r) ((id, info) :: E) →
  ∃ b, (∃ E', E' ≡ₚ E ∧ book b E') ∧ notification_handle_ric info r =
    match erase_first (eq_global_e2_node_id_e2_node id) (conn_e2_nodes r) with
    | Some l => Ret ((), add_to_iapp (RmE2Node id) (set_conn_e2_nodes l (set_e2_nodes b r)))
    | None => Abort
    end.
Proof using LE LR.
  intros Hb. destruct (bm_right_ok cmp_node cmp_sctp_info_wrapper (e2_nodes r) _ (id, info) info Hb)
    as (b & E' & Hx & HE & Hb'); [left|apply (comp_refl cmp_sctp_info_wrapper)|].
  apply Permutation_cons_inv in HE. exists b. split; [by exists E'|].
  unfold notification_handle_ric, rm_map_sad_e2_node.
  assert (on_e2_nodes (bi_map_extract_right cmp_node cmp_sctp_info_wrapper info) r = Ret (id, set_e2_nodes b r)) as H1.
  { unfold on_e2_nodes. by rewrite Hx. }
  rewrite (st_bind_Ret _ _ _ _ _ H1), (st_bind_Ret st_get _ _ _ _ eq_refl). cbn [conn_e2_nodes set_e2_nodes].
  by destruct (erase_first _ (conn_e2_nodes r)).
Qed.

(** C28. A node that is not connected sends a setup request from a new address: the
    RIC accepts it exactly when it has a service model for every RAN function
    and the components have ids it can acknowledge (it aborts otherwise), and
    then registers the address and the node, tells the iApp, and answers with
    every RAN function accepted, in order. *)
Theorem setup_request_registers r E SM info req : book (e2_nodes r) E → a_rep (sm_ds r) SM →
  fresh_pair cmp_node cmp_sctp_info_wrapper (stp_id req) info E = true →
  setup_id_ok (stp_id req) = true → stp_ran_func_item req ≠ [] →
  if setup_ok SM.*1 req then
    ∃ r', sctp_msg_arrived_event info (E2_SETUP_REQUEST req) r = Ret ((), r') ∧
      book (e2_nodes r') ((stp_id req, info) :: E) ∧
      conn_e2_nodes r' = conn_e2_nodes r ++ [mk_e2_node (stp_id req) (rf_id <$> stp_ran_func_item req)] ∧
      to_iapp r' = AddE2Node (stp_id req) (stp_ran_func_item req) (comp_conf_add req) :: to_iapp r ∧
      sent r' = (info, E2_SETUP_RESPONSE (setup_answer req)) :: sent r ∧
      pending r' = pending r
  else sctp_msg_arrived_event info (E2_SETUP_REQUEST req) r = Abort.
Proof.
  intros Hb HS Hfr Hid Hrf. destruct (setup_event_eq r E SM info req Hb HS Hfr Hid Hrf) as (b & Hb' & ->).
  destruct (setup_ok SM.*1 req); [|done]. by exists (node_added b info req r).
Qed.

(** C29. The shutdown of its connection right after its setup leaves the addresses
    and the connected nodes as they were, and the iApp is told of both, when no
    connected node is equal to it for [eq_global_e2_node_id]. *)
Theorem shutdown_undoes_setup r E SM info req : book (e2_nodes r) E → a_rep (sm_ds r) SM →
  fresh_pair cmp_node cmp_sctp_info_wrapper (stp_id req) info E = true →
  setup_id_ok (stp_id req) = true → stp_ran_func_item req ≠ [] → setup_ok SM.*1 req = true →
  Forall (λ n, eq_global_e2_node_id_e2_node (stp_id req) n = false) (conn_e2_nodes r) →
  ∃ r' E', (sctp_msg_arrived_event info (E2_SETUP_REQUEST req);; notification_handle_ric info) r = Ret ((), r') ∧
    E' ≡ₚ E ∧ book (e2_nodes r') E' ∧ conn_e2_nodes r' = conn_e2_nodes r ∧
    to_iapp r' = RmE2Node (stp_id req) :: AddE2Node (stp_id req) (stp_ran_func_item req) (comp_conf_add req) :: to_iapp r.
Proof.
  intros Hb HS Hfr Hid Hrf Hok Hnew.
  destruct (setup_event_eq r E SM info req Hb HS Hfr Hid Hrf) as (b & Hb' & Hev). rewrite Hok in Hev.
  rewrite (st_bind_Ret _ _ _ _ _ Hev).
  destruct (shutdown_eq (node_added b info req r) E (stp_id req) info Hb') as (b2 & (E' & HE & Hb2) & ->).
  cbn [node_added conn_e2_nodes add_sent set_conn_e2_nodes].
  rewrite erase_first_app; [|done|by apply eq_node_refl, setup_id_wf].
  rewrite app_nil_r. eexists _, E'. split; [reflexivity|]. done.
Qed.

(** The connected node a shutdown takes out is the first one that is equal to
    the node of the connection for [eq_global_e2_node_id].  That function ignores
    the CU id, so for two CUs of a gNB it is the one that connected first: the
    node whose connection is gone can stay. *)
Theorem shutdown_removes_equal_node r E id info l1 n l2 : book (e2_nodes r) ((id, info) :: E) →
  conn_e2_nodes r = l1 ++ n :: l2 → Forall (λ m, eq_global_e2_node_id_e2_node id m = false) l1 →
  eq_global_e2_node_id_e2_node id n = true →
  ∃ r', notification_handle_ric info r = Ret ((), r') ∧ conn_e2_nodes r' = l1 ++ l2 ∧
    to_iapp r' = RmE2Node id :: to_iapp r.
Proof using LE LR.
  intros Hb Hc H1 Hn. destruct (shutdown_eq r E id info Hb) as (b & _ & ->).
  rewrite Hc, erase_first_app by done. by eexists.
Qed.
End near_ric.
