(* ===== verification/NearRicRb.v ===== *)
(** * The near-RT RIC over red-black trees

    The state [init_near_ric] builds, and the theorems at concrete programs. *)
From Stdlib Require Import String.
From stdpp Require Import gmap.
From S2P Require Import Prelude AssocSpec RbTree RbMap RbAssoc AssocIter BiMap BiMapRb RicIds E2apMsg AddrMaps.
From S2P Require Import NearRic RicSpec NearRicInv NearRicPub NearRicSetup.
#[local] Open Scope Z_scope.

(** The state before [load_default_pub_sub_ric], with the service models loaded. *)
Definition init_near_ric {C D} (sm : assoc_rb_tree_t Z (sm_ric_t C D)) :=
  mk_near_ric (TL := assoc_rb_tree_t Z pending_event_ric_t) (TR := assoc_rb_tree_t pending_event_ric_t Z)
    (TEL := assoc_rb_tree_t global_e2_node_id_t sctp_info_t) (TER := assoc_rb_tree_t sctp_info_t global_e2_node_id_t)
    (TP := assoc_rb_tree_t Z positive) (TS := assoc_rb_tree_t Z (sm_ric_t C D)) (D := D)
    0 0 (bi_map_init true) [] (bi_map_init true) [] sm assoc_rb_tree_init ∅ [] [] [].

(** A kernel that gives out the next descriptor. *)
Definition next_fd (open : list Z) : Z := 1 + foldr Z.max 2 open.

Lemma next_fd_fresh open : 0 < next_fd open ∧ next_fd open ∉ open.
Proof.
  assert (∀ x, x ∈ open → x ≤ foldr Z.max 2 open) as Hle.
  { induction open as [|y l IH]; intros x; [by intros ?%not_elem_of_nil|].
    intros [->|Hx]%elem_of_cons; cbn; [lia|]. specialize (IH x Hx). lia. }
  assert (2 ≤ foldr Z.max 2 open) as H2 by (clear Hle; induction open; cbn; lia).
  unfold next_fd. split; [lia|]. intros Hin. specialize (Hle _ Hin). lia.
Qed.

Lemma bi_map_init_rep {K1 K2} (comp1 : K1 → K1 → Z) (comp2 : K2 → K2 → Z)
    `{!Comparator comp1} `{!Comparator comp2} : bm_rep comp1 comp2 (bi_map_init true) [].
Proof.
  exists [], []. split_and!; try done; [| |constructor|constructor]; exists []; (split; [apply rep_init|done]).
Qed.

Lemma init_armed {C D} (sm : assoc_rb_tree_t Z (sm_ric_t C D)) : armed (init_near_ric sm) [].
Proof.
  split_and!; cbn; [apply (bi_map_init_rep _ _)|done|constructor].
Qed.

(** A node, a subscription, its deletion asked twice, a control request. *)
Definition ex_node : global_e2_node_id_t := mk_global_e2_node_id 2 (mk_plmn 505 1 2) (mk_gnb_id 1 0) None.
Definition ex_sub : ric_subscription_request_t :=
  mk_ric_subscription_request (mk_ric_gen_id 1021 0 142) [1; 0] [mk_ric_action 0 0 None].
Definition ex_ctrl : ric_control_request_t :=
  mk_ric_control_request (mk_ric_gen_id 5 0 145) None [1] [2] (Some 1).
Definition ex_ric_ops : list ric_op :=
  [FwdSub ex_node ex_sub;
   FwdCtrl ex_node ex_ctrl;
   RxSubResp (mk_ric_subscription_response (mk_ric_gen_id 1021 0 142) [0] []);
   FwdDel ex_node (mk_ric_subscription_delete_request (mk_ric_gen_id 1021 0 142));
   FwdDel ex_node (mk_ric_subscription_delete_request (mk_ric_gen_id 1021 0 142));
   RxCtrlAck (mk_ric_control_acknowledge (mk_ric_gen_id 1021 0 145) None None);
   RxDelResp (mk_ric_subscription_delete_response (mk_ric_gen_id 1021 0 142))].
(** The node's address, registered by its setup request. *)
Definition ex_addr : sctp_info_t := mk_sctp_info 2 2130706433 36421 [].
Definition ex_nodes := match add_map_e2_node_sad ex_node ex_addr (bi_map_init true) with
                       | Ret (_, b) => b | _ => bi_map_init true end.
Definition ex_N : list (global_e2_node_id_t * sctp_info_t) := [(ex_node, ex_addr)].
Definition ex_ric := set_e2_nodes ex_nodes (init_near_ric (C := ()) (D := ()) assoc_rb_tree_init).

Lemma ex_nodes_rep : a_rep (left (e2_nodes ex_ric)) ex_N.
Proof.
  destruct (bm_insert_ok cmp_node cmp_sctp_info_wrapper (bi_map_init true) [] ex_node ex_addr
    (bi_map_init_rep _ _) eq_refl) as (b & Hb & L & R & HL & _ & _ & _ & HPL & _).
  assert (ex_nodes = b) as Hn by (unfold ex_nodes, add_map_e2_node_sad; change (cp_global_e2_node_id ex_node) with ex_node; by rewrite Hb).
  change (a_rep (left ex_nodes) ex_N). rewrite Hn.
  apply Permutation_singleton_r in HPL as ->. exact HL.
Qed.

Lemma near_ric_run_refines_witness :
  ('(_, r') ← ric_run next_fd ex_ric_ops ex_ric; Ret (length (sent r'), length (to_iapp r'))) =
    Ret (3%nat, 3%nat) ∧
  ('(_, r') ← ric_run next_fd ex_ric_ops ex_ric; Ret (sent r', to_iapp r')) =
  (s' ← ric_spec_run ex_N ex_ric_ops (mk_ric_spec 0 0 [] [] []); Ret (s_sent s', s_to_iapp s')).
Proof.
  split; [vm_compute; reflexivity|].
  apply (near_ric_run_refines ex_N next_fd next_fd_fresh ex_ric_ops ex_ric (init_armed _) ex_nodes_rep);
    vm_compute; reflexivity.
Defined.

Definition ex_ric_end := match ric_run next_fd ex_ric_ops ex_ric with Ret (_, r) => r | _ => ex_ric end.

Lemma near_ric_answers_accounted_witness :
  ∃ P, armed ex_ric_end P ∧ P.*2 ++ (to_iapp ex_ric_end ≫= answered) ≡ₚ (sent ex_ric_end ≫= requested).
Proof.
  apply (near_ric_answers_accounted ex_N next_fd next_fd_fresh ex_ric_ops ex_ric _ (init_armed _) ex_nodes_rep);
    vm_compute; reflexivity.
Defined.

Lemma control_id_is_subscription_id_witness :
  let cr' := ctrl_with_id ex_ctrl 1021 in
  ∃ r', (q1 ← fwd_ric_subscription_request next_fd ex_node ex_sub;
         '(q2, _) ← fwd_ric_control_request next_fd ex_node ex_ctrl; mret (q1, q2)) ex_ric
        = Ret ((1021, 1021), r') ∧
    sent r' = [(ex_addr, RIC_CONTROL_REQUEST cr'); (ex_addr, RIC_SUBSCRIPTION_REQUEST ex_sub)].
Proof.
  apply (control_id_is_subscription_id ex_N next_fd next_fd_fresh ex_ric _ ex_node ex_sub ex_node ex_ctrl ex_addr ex_addr
    (ric_sim_init ex_N ex_ric (init_armed _) ex_nodes_rep eq_refl eq_refl)); try reflexivity; apply not_elem_of_nil.
Defined.

(** Two service models, over the sequences themselves; the table of listeners as
    a test could fill it, with one listener each. *)
Definition ex_sm (f : Z) : sm_ric_t () Z := mk_sm_ric f (λ _, Ret ([], None)) (λ _, Ret (1, f)) (λ _, Ret ([], [])) (λ _, Ret ()).
Definition ex_sms : list (Z * sm_ric_t () Z) := [(142, ex_sm 142); (145, ex_sm 145)].
Definition ex_list_ric (ps : list (Z * positive)) (ls : gmap positive (list string)) :=
  mk_near_ric (TL := list (Z * pending_event_ric_t)) (TR := list (pending_event_ric_t * Z))
    (TEL := list (global_e2_node_id_t * sctp_info_t)) (TER := list (sctp_info_t * global_e2_node_id_t))
    (TP := list (Z * positive)) (TS := list (Z * sm_ric_t () Z)) (D := Z)
    0 0 (mk_bi_map [] [] true) [] (mk_bi_map [] [] true) [] ex_sms ps ls [] [] [].

Lemma ex_strict {V} (a b : Z) (v w : V) : a < b → AssocSpec.strict cmp_up [(a, v); (b, w)].
Proof.
  intros Hab. repeat constructor. cbn. unfold cmp_up. destruct (Z.ltb_spec a b); [done|lia].
Qed.
Lemma ex_sorted {V} (a b : Z) (v w : V) : a < b → sorted cmp_up [(a, v); (b, w)].
Proof.
  intros Hab. repeat constructor. cbn. unfold cmp_up. destruct (Z.ltb_spec a b); [done|lia].
Qed.

Lemma load_default_pub_sub_spec_witness :
  ∃ r' L, load_default_pub_sub_ric (ex_list_ric [] ∅) = Ret ((), r') ∧ pub_view r' L ∧
    ∀ f, subs_of r' L f = if bool_decide (f ∈ ex_sms.*1) then default_listeners else [].
Proof.
  apply (load_default_pub_sub_spec (ex_list_ric [] ∅) ex_sms).
  - split; [done|constructor].
  - split; [done|by apply ex_sorted].
  - by apply ex_strict.
Defined.

(** An indication of RAN function 145 reaches the listener of 142. *)
Definition ex_ind : ric_indication_t := mk_ric_indication (mk_ric_gen_id 1 0 145) 0 None 0 [] [] None.

Lemma indication_notifies_first_function_witness :
  let r := ex_list_ric [(142, 1%positive); (145, 2%positive)]
             (<[1%positive := ["first"%string]]> (<[2%positive := ["second"%string]]> ∅)) in
  ∃ r', e2ap_msg_handle_ric (RIC_INDICATION ex_ind) r = Ret (NONE_E2_MSG_TYPE, r') ∧
    notified r' = [("first"%string, 145)] ∧ to_iapp r' = [NotifyMsg (RIC_INDICATION ex_ind)] ∧ sent r' = [] ∧
    pending r' = pending r.
Proof.
  intros r. apply (indication_notifies_first_function r [(142, 1%positive); (145, 2%positive)] 142 1
    [(145, 2%positive)] ex_ind (ex_sm 145) 1 145); try done. split_and!.
  - split_and!; [split; [done|by apply ex_sorted]|by apply ex_strict| |]; by_eval.
  - by_eval.
  - done.
  - exists ex_sms. split_and!; [split; [done|by apply ex_sorted]|by apply ex_strict|right; left|done].
Defined.

(** A gNB connects to the RIC with the two service models, and disconnects. *)
Definition ex_setup : e2_setup_request_t :=
  mk_e2_setup_request 1 ex_node [mk_ran_function 145 1 [] []; mk_ran_function 142 1 [] []]
    [mk_node_component_config_add 3 (F1_COMP_ID 7) [1] [2]].

Lemma ex_empty_book : bm_rep cmp_node cmp_sctp_info_wrapper (e2_nodes (ex_list_ric [] ∅)) [].
Proof. exists [], []. split_and!; try done; repeat constructor. Qed.

Lemma ex_sms_rep : a_rep (sm_ds (ex_list_ric [] ∅)) ex_sms.
Proof. split; [done|by apply ex_sorted]. Qed.

Lemma setup_request_registers_witness :
  ∃ r', sctp_msg_arrived_event ex_addr (E2_SETUP_REQUEST ex_setup) (ex_list_ric [] ∅) = Ret ((), r') ∧
    bm_rep cmp_node cmp_sctp_info_wrapper (e2_nodes r') [(ex_node, ex_addr)] ∧
    conn_e2_nodes r' = [mk_e2_node ex_node [145; 142]] ∧
    to_iapp r' = [AddE2Node ex_node (stp_ran_func_item ex_setup) (comp_conf_add ex_setup)] ∧
    sent r' = [(ex_addr, E2_SETUP_RESPONSE (setup_answer ex_setup))] ∧
    pending r' = pending (ex_list_ric [] ∅).
Proof.
  apply (setup_request_registers (ex_list_ric [] ∅) [] ex_sms ex_addr ex_setup ex_empty_book ex_sms_rep); done.
Defined.

Lemma shutdown_undoes_setup_witness :
  ∃ r' E', (sctp_msg_arrived_event ex_addr (E2_SETUP_REQUEST ex_setup);; notification_handle_ric ex_addr)
      (ex_list_ric [] ∅) = Ret ((), r') ∧
    E' ≡ₚ [] ∧ bm_rep cmp_node cmp_sctp_info_wrapper (e2_nodes r') E' ∧ conn_e2_nodes r' = [] ∧
    to_iapp r' = [RmE2Node ex_node; AddE2Node ex_node (stp_ran_func_item ex_setup) (comp_conf_add ex_setup)].
Proof.
  apply (shutdown_undoes_setup (ex_list_ric [] ∅) [] ex_sms ex_addr ex_setup ex_empty_book ex_sms_rep);
    try done; constructor.
Defined.

(** Two CUs of one gNB; the second disconnects. *)
Definition ex_cu (i : Z) : global_e2_node_id_t := mk_global_e2_node_id 5 (mk_plmn 505 1 2) (mk_gnb_id 1 0) (Some i).
Definition ex_addr2 : sctp_info_t := mk_sctp_info 2 2130706433 36422 [].
Definition ex_two_cus :=
  set_conn_e2_nodes [mk_e2_node (ex_cu 1) [142]; mk_e2_node (ex_cu 2) [142]]
    (set_e2_nodes (mk_bi_map [(ex_cu 2, ex_addr2); (ex_cu 1, ex_addr)] [(ex_addr, ex_cu 1); (ex_addr2, ex_cu 2)] true)
      (ex_list_ric [] ∅)).

Lemma shutdown_removes_equal_node_witness :
  ∃ r', notification_handle_ric ex_addr2 ex_two_cus = Ret ((), r') ∧
    conn_e2_nodes r' = [mk_e2_node (ex_cu 2) [142]] ∧ to_iapp r' = [RmE2Node (ex_cu 2)].
Proof.
  apply (shutdown_removes_equal_node ex_two_cus [(ex_cu 1, ex_addr)] (ex_cu 2) ex_addr2 []
    (mk_e2_node (ex_cu 1) [142]) [mk_e2_node (ex_cu 2) [142]]); [|done..].
  exists [(ex_cu 2, ex_addr2); (ex_cu 1, ex_addr)], [(ex_addr, ex_cu 1); (ex_addr2, ex_cu 2)].
  split_and!; try done; try (split; [done|]); try apply perm_swap; repeat (constructor; try done).
Defined.
