(* ===== verification/IApp.v ===== *)
(** * The iApp: the xApps' side of the near-RT RIC

    [src/src/ric/iApp/msg_handler_iapp.c], [e42_iapp.c]: the requests of the
    xApps (E42), the messages the near-RT RIC passes on, and the disconnection of
    an xApp.  The near-RT RIC is any implementation of [RicIf].  One message at a
    time; messages sent are collected in the state, latest first. *)
From S2P Require Import Prelude AssocSpec AssocIter AssocFree BiMap BiMapFind RicIds E2apMsg RegNodes AddrMaps MapRicId.
From S2P Require Import SubRegistry RicSpec.
#[local] Set Warnings "-clear-no-such-hyp".

Section iapp.
Context {R TN IN TXL TXR IXL IXR TML TMR IML IMR : Type} `{RI : !RicIf R}.
(** The registered nodes, the addresses of the xApps, the request ids. *)
Context `{ON : AssocOps global_e2_node_id_t pair_rf_cca_t TN} `{ION : !AssocIterOps global_e2_node_id_t pair_rf_cca_t TN IN}
  `{FN : !AssocFreeOps global_e2_node_id_t pair_rf_cca_t TN IN}
  `{OXL : AssocOps Z sctp_info_t TXL} `{OXR : AssocOps sctp_info_t Z TXR}
  `{IOXL : !AssocIterOps Z sctp_info_t TXL IXL} `{IOXR : !AssocIterOps sctp_info_t Z TXR IXR}
  `{OML : AssocOps e2_node_ric_id_t xapp_ric_id_t TML} `{OMR : AssocOps xapp_ric_id_t e2_node_ric_id_t TMR}
  `{IOML : !AssocIterOps e2_node_ric_id_t xapp_ric_id_t TML IML}
  `{IOMR : !AssocIterOps xapp_ric_id_t e2_node_ric_id_t TMR IMR}.
(** See [MapRicId] and [SubRegistry]. *)
Context (relock : option Z) (realloc_ok : nat → bool) (junk : subscription_entry_t).

Abbreviation map_xapps_sockaddr := (bi_map_t (TL := TXL) (TR := TXR)).
Abbreviation map_ric := (map_ric_id_t (TL := TML) (TR := TMR)).

(** [forward_depth]: how often the recursive mutex of the forwarding is held.
    [ind_freed]: the optional fields of the message at hand are freed. *)
Record e42_iapp_t := mk_e42_iapp {
  xapps : map_xapps_sockaddr;     (** [ep.xapps] *)
  next_xapp_id : Z;               (** [xapp_id], uint32_t *)
  subscription_registry : subscription_registry_t;
  iapp_e2_nodes : TN;             (** [e2_nodes] *)
  map_ric_id : map_ric;
  ric_if : R;
  forward_depth : nat;
  ind_freed : bool;
  sent_xapps : list (sctp_info_t * e2ap_msg_t) }.

Abbreviation M := (st e42_iapp_t).

Definition set_xapps (x : map_xapps_sockaddr) (i : e42_iapp_t) : e42_iapp_t :=
  mk_e42_iapp x (next_xapp_id i) (subscription_registry i) (iapp_e2_nodes i) (map_ric_id i) (ric_if i)
    (forward_depth i) (ind_freed i) (sent_xapps i).
Definition set_next_xapp_id (x : Z) (i : e42_iapp_t) : e42_iapp_t :=
  mk_e42_iapp (xapps i) x (subscription_registry i) (iapp_e2_nodes i) (map_ric_id i) (ric_if i)
    (forward_depth i) (ind_freed i) (sent_xapps i).
Definition set_registry (x : subscription_registry_t) (i : e42_iapp_t) : e42_iapp_t :=
  mk_e42_iapp (xapps i) (next_xapp_id i) x (iapp_e2_nodes i) (map_ric_id i) (ric_if i)
    (forward_depth i) (ind_freed i) (sent_xapps i).
Definition set_iapp_nodes (x : TN) (i : e42_iapp_t) : e42_iapp_t :=
  mk_e42_iapp (xapps i) (next_xapp_id i) (subscription_registry i) x (map_ric_id i) (ric_if i)
    (forward_depth i) (ind_freed i) (sent_xapps i).
Definition set_map (x : map_ric) (i : e42_iapp_t) : e42_iapp_t :=
  mk_e42_iapp (xapps i) (next_xapp_id i) (subscription_registry i) (iapp_e2_nodes i) x (ric_if i)
    (forward_depth i) (ind_freed i) (sent_xapps i).
Definition set_ric (x : R) (i : e42_iapp_t) : e42_iapp_t :=
  mk_e42_iapp (xapps i) (next_xapp_id i) (subscription_registry i) (iapp_e2_nodes i) (map_ric_id i) x
    (forward_depth i) (ind_freed i) (sent_xapps i).
Definition set_depth (x : nat) (i : e42_iapp_t) : e42_iapp_t :=
  mk_e42_iapp (xapps i) (next_xapp_id i) (subscription_registry i) (iapp_e2_nodes i) (map_ric_id i) (ric_if i)
    x (ind_freed i) (sent_xapps i).
Definition set_freed (x : bool) (i : e42_iapp_t) : e42_iapp_t :=
  mk_e42_iapp (xapps i) (next_xapp_id i) (subscription_registry i) (iapp_e2_nodes i) (map_ric_id i) (ric_if i)
    (forward_depth i) x (sent_xapps i).

(** Encoding and sending. *)
Definition send_xapp (to : sctp_info_t) (m : e2ap_msg_t) (i : e42_iapp_t) : e42_iapp_t :=
  mk_e42_iapp (xapps i) (next_xapp_id i) (subscription_registry i) (iapp_e2_nodes i) (map_ric_id i) (ric_if i)
    (forward_depth i) (ind_freed i) ((to, m) :: sent_xapps i).

Definition on_xapps {A} (m : st map_xapps_sockaddr A) : M A := λ i, '(a, x) ← m (xapps i); Ret (a, set_xapps x i).
Definition on_registry {A} (m : st subscription_registry_t A) : M A := λ i,
  '(a, x) ← m (subscription_registry i); Ret (a, set_registry x i).
Definition on_nodes {A} (m : st TN A) : M A := λ i, '(a, x) ← m (iapp_e2_nodes i); Ret (a, set_iapp_nodes x i).
Definition on_map {A} (m : st map_ric A) : M A := λ i, '(a, x) ← m (map_ric_id i); Ret (a, set_map x i).
Definition on_ric {A} (m : st R A) : M A := λ i, '(a, x) ← m (ric_if i); Ret (a, set_ric x i).

(** ** Messages the near-RT RIC passes on *)

Definition e2ap_handle_subscription_response_iapp (src : ric_subscription_response_t) : M e2ap_msg_t :=
  xpctd ← on_map (find_xapp_map_ric_id relock (ric_req_id (resp_ric_id src)));
  match xpctd with
  | None => mret NONE_E2_MSG_TYPE
  | Some x =>
      if negb (ran_func_id (resp_ric_id src) =? ran_func_id (x_ric_id x))%Z then mret NONE_E2_MSG_TYPE
      else if negb (ric_inst_id (resp_ric_id src) =? ric_inst_id (x_ric_id x))%Z then mret NONE_E2_MSG_TYPE
      else
        let dst := mk_ric_subscription_response (with_req_id (resp_ric_id src) (ric_req_id (x_ric_id x)))
                     (admitted src) (not_admitted src) in
        info ← on_xapps (find_map_xapps_sad (xapp_id x));
        if (sin_port info =? 0)%Z then mret NONE_E2_MSG_TYPE
        else st_mod (send_xapp info (RIC_SUBSCRIPTION_RESPONSE dst));; mret NONE_E2_MSG_TYPE
  end.

Definition e2ap_handle_subscription_delete_response_iapp (src : ric_subscription_delete_response_t) : M e2ap_msg_t :=
  xpctd ← on_map (find_xapp_map_ric_id relock (ric_req_id (del_ric_id src)));
  match xpctd with
  | None => mret NONE_E2_MSG_TYPE
  | Some x =>
      st_assert (ran_func_id (del_ric_id src) =? ran_func_id (x_ric_id x))%Z;;
      st_assert (ric_inst_id (del_ric_id src) =? ric_inst_id (x_ric_id x))%Z;;
      let dst := mk_ric_subscription_delete_response (x_ric_id x) in
      info ← on_xapps (find_map_xapps_sad (xapp_id x));
      st_mod (send_xapp info (RIC_SUBSCRIPTION_DELETE_RESPONSE dst));;
      on_map (rm_map_ric_id relock x);;
      mret NONE_E2_MSG_TYPE
  end.

Definition e2ap_handle_e42_ric_control_ack_iapp (src : ric_control_acknowledge_t) : M e2ap_msg_t :=
  xpctd ← on_map (find_xapp_map_ric_id relock (ric_req_id (ack_ric_id src)));
  match xpctd with
  | None => st_abort
  | Some x =>
      st_assert (ran_func_id (ack_ric_id src) =? ran_func_id (x_ric_id x))%Z;;
      st_assert (ric_inst_id (ack_ric_id src) =? ric_inst_id (x_ric_id x))%Z;;
      let dst := mk_ric_control_acknowledge (x_ric_id x) None None in
      info ← on_xapps (find_map_xapps_sad (xapp_id x));
      st_mod (send_xapp info (RIC_CONTROL_ACKNOWLEDGE dst));;
      on_map (rm_map_ric_id relock x);;
      mret NONE_E2_MSG_TYPE
  end.

(** The copy of the indication shares the sequence number and the call process id
    with the original; both are freed with the copy. *)
Definition shares_fields (ind : ric_indication_t) : bool :=
  match sn ind, call_process_id ind with None, None => false | _, _ => true end.

Definition forward_indication_to_xapp (xapp_id : Z) (ind : ric_indication_t) : M () :=
  st_mod (λ i, set_depth (S (forward_depth i)) i);;
  info ← on_xapps (find_map_xapps_sad (wrap 16 xapp_id));
  if (sin_port info =? 0)%Z then mret ()
  else
    iapp ← st_get;
    st_lift (in_bounds (negb (shares_fields ind && ind_freed iapp)));;
    st_mod (send_xapp info (RIC_INDICATION ind));;
    st_mod (set_freed (shares_fields ind || ind_freed iapp));;
    st_mod (λ i, set_depth (pred (forward_depth i)) i).

(** The loop over the registry, [n] entries left from [i] on. *)
Fixpoint forward_loop (n i : nat) (src : ric_indication_t) : M () :=
  match n with
  | O => mret ()
  | S n =>
      entry ← on_registry (entry_at i);
      (if active entry && (e_ran_func_id entry =? ran_func_id (ind_ric_id src))%Z
       then forward_indication_to_xapp (e_xapp_id entry) src else mret ());;
      forward_loop n (S i) src
  end.

Definition e2ap_handle_ric_indication_iapp (src : ric_indication_t) : M e2ap_msg_t :=
  iapp ← st_get;
  forward_loop (count (subscription_registry iapp)) 0 src;;
  mret NONE_E2_MSG_TYPE.

(** ** Requests of the xApps *)

(** [generate_setup_response] of this file; [xapp_id] of the response has 16 bits. *)
Definition generate_setup_response (ran_func_item : list ran_function_t) : M e42_setup_response_t :=
  st_assert (0 <? length ran_func_item);;
  nodes ← on_nodes generate_e2_node_arr;
  iapp ← st_get;
  st_mod (set_next_xapp_id (wrap 32 (next_xapp_id iapp + 1)));;
  mret (mk_e42_setup_response (wrap 16 (next_xapp_id iapp)) (Z.of_nat (length nodes)) nodes).

Definition e2ap_handle_e42_setup_request_iapp (ran_func_item : list ran_function_t) : M e2ap_msg_t :=
  resp ← generate_setup_response ran_func_item;
  mret (E42_SETUP_RESPONSE resp).

Definition valid_xapp_id (xapp_id : Z) : M bool :=
  st_assert (xapp_id <? 2 ^ 16)%Z;;
  iapp ← st_get;
  mret (xapp_id <=? next_xapp_id iapp)%Z.

Fixpoint any_e2_node (nodes : list e2_node_connected_t) (id : global_e2_node_id_t) : outcome bool :=
  match nodes with
  | [] => Ret false
  | n :: nodes => b ← eq_global_e2_node_id (enc_id n) id; if (b : bool) then Ret true else any_e2_node nodes id
  end.

Definition valid_global_e2_node (id : global_e2_node_id_t) : M bool :=
  nodes ← on_nodes generate_e2_node_arr;
  st_lift (any_e2_node nodes id).

Definition e2ap_handle_e42_ric_subscription_delete_request_iapp (src : e42_ric_subscription_delete_request_t) :
    M e2ap_msg_t :=
  let x := mk_xapp_ric_id (sdr_ric_id (sdr src)) (e42_sdr_xapp_id src) in
  n ← on_map (find_ric_req_map_ric_id relock x);
  st_assert (bool_decide (ric_req_type n = SUBSCRIPTION_RIC_REQUEST_TYPE));;
  let dst := mk_ric_subscription_delete_request (with_req_id (sdr_ric_id (sdr src)) (node_req n)) in
  on_ric (fwd_ric_subscription_request_delete_gen (e2_node_id n) dst);;
  mret NONE_E2_MSG_TYPE.

Definition e2ap_handle_e42_ric_subscription_request_iapp (e42_sr : e42_ric_subscription_request_t) : M e2ap_msg_t :=
  valid ← valid_xapp_id (e42_sr_xapp_id e42_sr);
  if negb valid then mret NONE_E2_MSG_TYPE
  else
    info ← on_xapps (find_map_xapps_sad (e42_sr_xapp_id e42_sr));
    if (sin_port info =? 0)%Z then mret NONE_E2_MSG_TYPE
    else
      new_ric_id ← on_ric (fwd_ric_subscription_request_gen (e42_sr_id e42_sr) (sr e42_sr));
      if (new_ric_id =? 0)%Z then mret NONE_E2_MSG_TYPE
      else
        reg_success ← on_registry (register_subscription realloc_ok junk (e42_sr_xapp_id e42_sr)
                        (ran_func_id (sr_ric_id (sr e42_sr))) new_ric_id);
        if negb reg_success then mret NONE_E2_MSG_TYPE
        else
          _ ← on_map (pthread_rwlock_wrlock relock);
          let ric_id := with_req_id (sr_ric_id (sr e42_sr)) new_ric_id in
          let node := mk_e2_node_ric_id (cp_global_e2_node_id (e42_sr_id e42_sr)) ric_id SUBSCRIPTION_RIC_REQUEST_TYPE in
          let xapp_ric_id := mk_xapp_ric_id ric_id (e42_sr_xapp_id e42_sr) in
          on_map (on_bimap (bi_map_insert cmp_e2_node_ric_req_wrapper cmp_xapp_ric_gen_id node xapp_ric_id));;
          _ ← on_map pthread_rwlock_unlock;
          mret NONE_E2_MSG_TYPE.

(** The forwarding changes the id of the request. *)
Definition e2ap_handle_e42_ric_control_request_iapp (e42_cr : e42_ric_control_request_t) : M e2ap_msg_t :=
  valid ← valid_xapp_id (e42_cr_xapp_id e42_cr);
  st_assert valid;;
  known ← valid_global_e2_node (e42_cr_id e42_cr);
  st_assert known;;
  let xapp_ric_id := mk_xapp_ric_id (cr_ric_id (ctrl_req e42_cr)) (e42_cr_xapp_id e42_cr) in
  rc ← on_map (pthread_rwlock_wrlock relock);
  st_assert (rc =? 0)%Z;;
  '(new_ric_id, cr) ← on_ric (fwd_ric_control_request_gen (e42_cr_id e42_cr) (ctrl_req e42_cr));
  let n := mk_e2_node_ric_id (cp_global_e2_node_id (e42_cr_id e42_cr)) (with_req_id (cr_ric_id cr) new_ric_id)
             CONTROL_RIC_REQUEST_TYPE in
  on_map (add_map_ric_id relock n xapp_ric_id);;
  rc ← on_map pthread_rwlock_unlock;
  st_assert (rc =? 0)%Z;;
  mret NONE_E2_MSG_TYPE.

Definition e2ap_msg_handle_iapp (msg : e2ap_msg_t) : M e2ap_msg_t :=
  match msg with
  | RIC_SUBSCRIPTION_RESPONSE m => e2ap_handle_subscription_response_iapp m
  | E42_SETUP_REQUEST rf => e2ap_handle_e42_setup_request_iapp rf
  | E42_RIC_SUBSCRIPTION_REQUEST m => e2ap_handle_e42_ric_subscription_request_iapp m
  | E42_RIC_SUBSCRIPTION_DELETE_REQUEST m => e2ap_handle_e42_ric_subscription_delete_request_iapp m
  | E42_RIC_CONTROL_REQUEST m => e2ap_handle_e42_ric_control_request_iapp m
  | RIC_CONTROL_ACKNOWLEDGE m => e2ap_handle_e42_ric_control_ack_iapp m
  | RIC_INDICATION m => e2ap_handle_ric_indication_iapp m
  | RIC_SUBSCRIPTION_DELETE_RESPONSE m => e2ap_handle_subscription_delete_response_iapp m
  | _ => st_abort
  end.

(** ** Events, [e42_iapp.c] *)

(** A message is decoded, handled and freed, here or by the near-RT RIC that
    passes it on. *)
Definition with_message (handle : M ()) : M () :=
  st_mod (set_freed false);;
  handle;;
  iapp ← st_get;
  st_lift (in_bounds (negb (ind_freed iapp))).

(** A message of an xApp: an answer goes back to where it came from; the
    answer to a setup request registers that address. *)
Definition handle_xapp_msg (info : sctp_info_t) (msg : e2ap_msg_t) : M () :=
  ans ← e2ap_msg_handle_iapp msg;
  match ans with
  | E42_SETUP_RESPONSE resp => on_xapps (add_map_xapps_sad (resp_xapp_id resp) info)
  | _ => mret ()
  end;;
  match ans with
  | NONE_E2_MSG_TYPE => mret ()
  | _ => st_mod (send_xapp info ans)
  end.

Definition xapp_msg_arrived (info : sctp_info_t) (msg : e2ap_msg_t) : M () := with_message (handle_xapp_msg info msg).

Fixpoint gen_e2ap_subs_delete (arr : list e2_node_ric_id_t) : M () :=
  match arr with
  | [] => mret ()
  | n :: arr =>
      on_ric (fwd_ric_subscription_request_delete_gen (e2_node_id n) (mk_ric_subscription_delete_request (n_ric_id n)));;
      gen_e2ap_subs_delete arr
  end.

Definition rm_if_pending_subs (xapp_id : Z) : M () :=
  arr ← on_map (find_all_subs_map_ric_id relock xapp_id);
  gen_e2ap_subs_delete arr.

(** The shutdown of an xApp's connection. *)
Definition xapp_shutdown (info : sctp_info_t) : M () :=
  xapp_id ← on_xapps (find_map_xapps_xid info);
  rm_if_pending_subs xapp_id.

Definition add_e2_node_iapp (id : global_e2_node_id_t) (rf : list ran_function_t)
    (cca : list e2ap_node_component_config_add_t) : M () :=
  st_assert (0 <? length rf);;
  on_nodes (add_reg_e2_node id rf cca).

Definition rm_e2_node_iapp (id : global_e2_node_id_t) : M () := on_nodes (rm_reg_e2_node id).

Definition notify_msg_iapp (msg : e2ap_msg_t) : M () :=
  st_assert (match msg with
             | RIC_INDICATION _ | RIC_SUBSCRIPTION_RESPONSE _ | RIC_SUBSCRIPTION_DELETE_RESPONSE _
             | RIC_CONTROL_ACKNOWLEDGE _ => true
             | _ => false
             end);;
  ans ← e2ap_msg_handle_iapp msg;
  st_assert (match ans with NONE_E2_MSG_TYPE => true | _ => false end).

(** A call of the near-RT RIC. *)
Definition iapp_call_step (c : iapp_call) : M () :=
  match c with
  | NotifyMsg m => with_message (notify_msg_iapp m)
  | AddE2Node id rf cca => add_e2_node_iapp id rf cca
  | RmE2Node id => rm_e2_node_iapp id
  end.

Definition init_e42_iapp (x : map_xapps_sockaddr) (m : map_ric) (ric : R) : e42_iapp_t :=
  mk_e42_iapp x 7 init_subscription_registry init_reg_e2_node m ric 0 false [].
End iapp.
