(* ===== verification/IAppSpec.v ===== *)
(** * The iApp: specification

    The state of the iApp as lists: addresses, registered subscriptions,
    registered nodes, request ids in use, and the specification of the near-RT
    RIC.  [ia_step] is one message of an xApp or one call of the near-RT RIC. *)
From S2P Require Import Prelude AssocSpec BiMap RicIds E2apMsg RegNodes AddrMaps MapRicId SubRegistry RicSpec IApp.

Record ia_spec := mk_ia_spec {
  ia_addr : list (Z * sctp_info_t);
  ia_next : Z;
  ia_regs : list subscription_entry_t;
  ia_nodes : list (global_e2_node_id_t * pair_rf_cca_t);
  ia_map : list (e2_node_ric_id_t * xapp_ric_id_t);
  ia_ric : ric_spec;
  ia_depth : nat;
  ia_freed : bool;
  ia_sent : list (sctp_info_t * e2ap_msg_t) }.

Definition ia_send (to : sctp_info_t) (m : e2ap_msg_t) (a : ia_spec) : ia_spec :=
  mk_ia_spec (ia_addr a) (ia_next a) (ia_regs a) (ia_nodes a) (ia_map a) (ia_ric a) (ia_depth a) (ia_freed a)
    ((to, m) :: ia_sent a).
Definition ia_set_map (x : list (e2_node_ric_id_t * xapp_ric_id_t)) (a : ia_spec) : ia_spec :=
  mk_ia_spec (ia_addr a) (ia_next a) (ia_regs a) (ia_nodes a) x (ia_ric a) (ia_depth a) (ia_freed a) (ia_sent a).
Definition ia_set_ric (x : ric_spec) (a : ia_spec) : ia_spec :=
  mk_ia_spec (ia_addr a) (ia_next a) (ia_regs a) (ia_nodes a) (ia_map a) x (ia_depth a) (ia_freed a) (ia_sent a).
Definition ia_set_regs (x : list subscription_entry_t) (a : ia_spec) : ia_spec :=
  mk_ia_spec (ia_addr a) (ia_next a) x (ia_nodes a) (ia_map a) (ia_ric a) (ia_depth a) (ia_freed a) (ia_sent a).
Definition ia_set_nodes (x : list (global_e2_node_id_t * pair_rf_cca_t)) (a : ia_spec) : ia_spec :=
  mk_ia_spec (ia_addr a) (ia_next a) (ia_regs a) x (ia_map a) (ia_ric a) (ia_depth a) (ia_freed a) (ia_sent a).
Definition ia_set_addr (x : list (Z * sctp_info_t)) (n : Z) (a : ia_spec) : ia_spec :=
  mk_ia_spec x n (ia_regs a) (ia_nodes a) (ia_map a) (ia_ric a) (ia_depth a) (ia_freed a) (ia_sent a).
Definition ia_set_fwd (d : nat) (f : bool) (a : ia_spec) : ia_spec :=
  mk_ia_spec (ia_addr a) (ia_next a) (ia_regs a) (ia_nodes a) (ia_map a) (ia_ric a) d f (ia_sent a).

(** The address of an xApp; an xApp without one makes the search abort. *)
Definition addr_of (X : list (Z * sctp_info_t)) (x : Z) : outcome sctp_info_t :=
  match list_find (λ e, e.1 = x) X with Some (_, e) => Ret e.2 | None => Abort end.

(** The xApp a request id of 16 bits belongs to. *)
Definition owner (P : list (e2_node_ric_id_t * xapp_ric_id_t)) (q : Z) : option xapp_ric_id_t :=
  snd ∘ snd <$> list_find (λ p, node_req p.1 = q) P.

Definition same_function (i : ric_gen_id_t) (x : xapp_ric_id_t) : bool :=
  (ran_func_id i =? ran_func_id (x_ric_id x))%Z && (ric_inst_id i =? ric_inst_id (x_ric_id x))%Z.

(** *** Calls of the near-RT RIC *)

Definition ia_sub_resp (src : ric_subscription_response_t) (a : ia_spec) : outcome ia_spec :=
  match owner (ia_map a) (wrap 16 (ric_req_id (resp_ric_id src))) with
  | Some x =>
      if same_function (resp_ric_id src) x then
        to ← addr_of (ia_addr a) (xapp_id x);
        Ret (if (sin_port to =? 0)%Z then a
             else ia_send to (RIC_SUBSCRIPTION_RESPONSE (mk_ric_subscription_response
                    (with_req_id (resp_ric_id src) (ric_req_id (x_ric_id x))) (admitted src) (not_admitted src))) a)
      else Ret a
  | None => Ret a
  end.

(** The answer that ends a request: the pair of the request id goes away. *)
Definition ia_end_resp (i : ric_gen_id_t) (m : ric_gen_id_t → e2ap_msg_t) (x : xapp_ric_id_t) (a : ia_spec) :
    outcome ia_spec :=
  c_assert (same_function i x);;
  to ← addr_of (ia_addr a) (xapp_id x);
  Ret (ia_set_map (filter (λ p, p.2 ≠ x) (ia_map a)) (ia_send to (m (x_ric_id x)) a)).

Definition ia_del_resp (src : ric_subscription_delete_response_t) (a : ia_spec) : outcome ia_spec :=
  match owner (ia_map a) (wrap 16 (ric_req_id (del_ric_id src))) with
  | Some x => ia_end_resp (del_ric_id src)
                (λ i, RIC_SUBSCRIPTION_DELETE_RESPONSE (mk_ric_subscription_delete_response i)) x a
  | None => Ret a
  end.

Definition ia_ctrl_ack (src : ric_control_acknowledge_t) (a : ia_spec) : outcome ia_spec :=
  match owner (ia_map a) (wrap 16 (ric_req_id (ack_ric_id src))) with
  | Some x => ia_end_resp (ack_ric_id src)
                (λ i, RIC_CONTROL_ACKNOWLEDGE (mk_ric_control_acknowledge i None None)) x a
  | None => Abort
  end.

(** The subscriptions an indication goes to. *)
Definition matching (f : Z) (L : list subscription_entry_t) : list subscription_entry_t :=
  filter (λ e, active e = true ∧ e_ran_func_id e = f) L.

Fixpoint ia_forward (L : list subscription_entry_t) (ind : ric_indication_t) (a : ia_spec) : outcome ia_spec :=
  match L with
  | [] => Ret a
  | e :: L =>
      to ← addr_of (ia_addr a) (wrap 16 (e_xapp_id e));
      if (sin_port to =? 0)%Z then ia_forward L ind (ia_set_fwd (S (ia_depth a)) (ia_freed a) a)
      else
        in_bounds (negb (shares_fields ind && ia_freed a));;
        ia_forward L ind (ia_send to (RIC_INDICATION ind)
          (ia_set_fwd (ia_depth a) (shares_fields ind || ia_freed a) a))
  end.

Definition ia_ind (ind : ric_indication_t) (a : ia_spec) : outcome ia_spec :=
  ia_forward (matching (ran_func_id (ind_ric_id ind)) (ia_regs a)) ind a.

(** *** Messages of the xApps *)

Definition ia_list (a : ia_spec) : outcome (list e2_node_connected_t) :=
  if bool_decide (length (ia_nodes a) < 256) then Ret (connected_of <$> ia_nodes a) else Undef.

Definition ia_setup (info : sctp_info_t) (rf : list ran_function_t) (a : ia_spec) : outcome ia_spec :=
  c_assert (0 <? length rf);;
  nodes ← ia_list a;
  let x := wrap 16 (ia_next a) in
  if bool_decide (x ∈ (ia_addr a).*1) then Abort
  else Ret (ia_send info (E42_SETUP_RESPONSE (mk_e42_setup_response x (Z.of_nat (length nodes)) nodes))
             (ia_set_addr ((x, info) :: ia_addr a) (wrap 32 (ia_next a + 1)) a)).

(** The pair recorded for a subscription. *)
Definition sub_pair (m : e42_ric_subscription_request_t) : e2_node_ric_id_t * xapp_ric_id_t :=
  let i := with_req_id (sr_ric_id (sr m)) (wrap 16 (ric_req_id (sr_ric_id (sr m)))) in
  (mk_e2_node_ric_id (e42_sr_id m) i SUBSCRIPTION_RIC_REQUEST_TYPE, mk_xapp_ric_id i (e42_sr_xapp_id m)).

(** The subscription in the registry and in the map; nothing for the id 0. *)
Definition sub_entry (m : e42_ric_subscription_request_t) : subscription_entry_t :=
  mk_subscription_entry (e42_sr_xapp_id m) (ran_func_id (sr_ric_id (sr m)))
    (wrap 16 (ric_req_id (sr_ric_id (sr m)))) true.

Definition ia_record (m : e42_ric_subscription_request_t) (a : ia_spec) : ia_spec :=
  if (wrap 16 (ric_req_id (sr_ric_id (sr m))) =? 0)%Z then a
  else ia_set_map (sub_pair m :: ia_map a) (ia_set_regs (reg_put (sub_entry m) (ia_regs a)) a).

Section step.
Context (N : list (global_e2_node_id_t * sctp_info_t)) (relock : option Z).

Definition ia_sub_req (m : e42_ric_subscription_request_t) (a : ia_spec) : outcome ia_spec :=
  c_assert (e42_sr_xapp_id m <? 2 ^ 16)%Z;;
  if (e42_sr_xapp_id m <=? ia_next a)%Z then
    to ← addr_of (ia_addr a) (e42_sr_xapp_id m);
    if (sin_port to =? 0)%Z then Ret a
    else
      s ← ric_spec_step N (FwdSub (e42_sr_id m) (sr m)) (ia_ric a);
      Ret (ia_record m (ia_set_ric s a))
  else Ret a.

Definition ia_del_req (m : e42_ric_subscription_delete_request_t) (a : ia_spec) : outcome ia_spec :=
  match list_find (λ p, x_ric_id p.2 = sdr_ric_id (sdr m)) (ia_map a) with
  | Some (_, (n, _)) =>
      c_assert (bool_decide (ric_req_type n = SUBSCRIPTION_RIC_REQUEST_TYPE));;
      s ← ric_spec_step N (FwdDel (e2_node_id n)
            (mk_ric_subscription_delete_request (with_req_id (sdr_ric_id (sdr m)) (node_req n)))) (ia_ric a);
      Ret (ia_set_ric s a)
  | None => Abort
  end.

(** [add_map_ric_id] takes the write lock again: it gets an error and does not
    record the request id, or it blocks. *)
Definition ia_ctrl_req (m : e42_ric_control_request_t) (a : ia_spec) : outcome ia_spec :=
  c_assert (e42_cr_xapp_id m <? 2 ^ 16)%Z;;
  c_assert (e42_cr_xapp_id m <=? ia_next a)%Z;;
  nodes ← ia_list a;
  c_assert (existsb (λ n, eq_node (enc_id n) (e42_cr_id m)) nodes);;
  s ← ric_spec_step N (FwdCtrl (e42_cr_id m) (ctrl_req m)) (ia_ric a);
  match relock with
  | None => Stuck
  | Some _ => Ret (ia_set_ric s a)
  end.

Inductive ia_op := XappMsg (info : sctp_info_t) (m : e2ap_msg_t) | RicCall (c : iapp_call).

Definition ia_notify (m : e2ap_msg_t) (a : ia_spec) : outcome ia_spec :=
  match m with
  | RIC_SUBSCRIPTION_RESPONSE src => ia_sub_resp src a
  | RIC_SUBSCRIPTION_DELETE_RESPONSE src => ia_del_resp src a
  | RIC_CONTROL_ACKNOWLEDGE src => ia_ctrl_ack src a
  | RIC_INDICATION ind => ia_ind ind a
  | _ => Abort
  end.

(** The optional fields of a message are its own when it comes and must still be
    when it is freed. *)
Definition ia_message (h : ia_spec → outcome ia_spec) (a : ia_spec) : outcome ia_spec :=
  a' ← h (ia_set_fwd (ia_depth a) false a);
  in_bounds (negb (ia_freed a'));;
  Ret a'.

Definition ia_xapp_msg (info : sctp_info_t) (m : e2ap_msg_t) (a : ia_spec) : outcome ia_spec :=
  match m with
  | E42_SETUP_REQUEST rf => ia_setup info rf a
  | E42_RIC_SUBSCRIPTION_REQUEST m => ia_sub_req m a
  | E42_RIC_SUBSCRIPTION_DELETE_REQUEST m => ia_del_req m a
  | E42_RIC_CONTROL_REQUEST m => ia_ctrl_req m a
  | m => ia_notify m a
  end.

Definition ia_step (o : ia_op) (a : ia_spec) : outcome ia_spec :=
  match o with
  | XappMsg info m => ia_message (ia_xapp_msg info m) a
  | RicCall (NotifyMsg m) => ia_message (ia_notify m) a
  | RicCall (AddE2Node id rf cca) => L ← nodes_add id rf cca (ia_nodes a); Ret (ia_set_nodes L a)
  | RicCall (RmE2Node id) => L ← nodes_rm id (ia_nodes a); Ret (ia_set_nodes L a)
  end.

(** A request is for an event that is not pending and a request id that is not
    in use; an xApp connects from a new address; node ids and component lists are
    as [node_op_ok] asks. *)
Definition ia_op_fresh (o : ia_op) (a : ia_spec) : bool :=
  match o with
  | XappMsg info (E42_SETUP_REQUEST _) => forallb (λ e, negb (cmp_sctp_info_wrapper info e.2 =? 0)%Z) (ia_addr a)
  | XappMsg _ (E42_RIC_SUBSCRIPTION_REQUEST m) =>
      op_fresh (FwdSub (e42_sr_id m) (sr m)) (ia_ric a) &&
      forallb (λ p, negb (node_req p.1 =? node_req (sub_pair m).1)%Z) (ia_map a)
  | XappMsg _ (E42_RIC_CONTROL_REQUEST m) =>
      op_fresh (FwdCtrl (e42_cr_id m) (ctrl_req m)) (ia_ric a) && node_id_wf (e42_cr_id m)
  | RicCall (AddE2Node id rf cca) => node_op_ok (AddNode id rf cca)
  | _ => true
  end.

Fixpoint ia_run (os : list ia_op) (a : ia_spec) : outcome ia_spec :=
  match os with
  | [] => Ret a
  | o :: os => a' ← ia_step o a; ia_run os a'
  end.

Fixpoint ia_fresh (os : list ia_op) (a : ia_spec) : bool :=
  match os with
  | [] => true
  | o :: os => ia_op_fresh o a && match ia_step o a with Ret a' => ia_fresh os a' | _ => true end
  end.
End step.

Definition ia_init (s : ric_spec) : ia_spec := mk_ia_spec [] 7 [] [] [] s 0 false [].
