(* ===== verification/IAppInv.v ===== *)
(** * The iApp: the handlers simulate the specification

    The state of the iApp against the lists of [IAppSpec], message by message. *)
From stdpp Require Import gmap.
From S2P Require Import Prelude AssocSpec AssocIter AssocFree BiMap BiMapFind RicIds E2apMsg RegNodes AddrMaps MapRicId.
From S2P Require Import SubRegistry RicSpec IApp IAppSpec.
#[local] Set Warnings "-clear-no-such-hyp".
#[local] Set Default Proof Using "All".

(** The pairs are those of subscriptions: the request id is the same on both
    sides. *)
Definition coherent (P : list (e2_node_ric_id_t * xapp_ric_id_t)) : Prop :=
  Forall (λ p, n_ric_id p.1 = x_ric_id p.2 ∧ ric_req_type p.1 = SUBSCRIPTION_RIC_REQUEST_TYPE) P.

Section iapp.
Context {R TN IN TXL TXR IXL IXR TML TMR IML IMR : Type} `{RI : !RicIf R}.
Context `{ON : AssocOps global_e2_node_id_t pair_rf_cca_t TN} `{ION : !AssocIterOps global_e2_node_id_t pair_rf_cca_t TN IN}
  `{FN : !AssocFreeOps global_e2_node_id_t pair_rf_cca_t TN IN}
  `{OXL : AssocOps Z sctp_info_t TXL} `{OXR : AssocOps sctp_info_t Z TXR}
  `{IOXL : !AssocIterOps Z sctp_info_t TXL IXL} `{IOXR : !AssocIterOps sctp_info_t Z TXR IXR}
  `{OML : AssocOps e2_node_ric_id_t xapp_ric_id_t TML} `{OMR : AssocOps xapp_ric_id_t e2_node_ric_id_t TMR}
  `{IOML : !AssocIterOps e2_node_ric_id_t xapp_ric_id_t TML IML}
  `{IOMR : !AssocIterOps xapp_ric_id_t e2_node_ric_id_t TMR IMR}.
Context {LN : AssocLaws (V := pair_rf_cca_t) (T := TN) cmp_node} {ILN : AssocIterLaws (I := IN) cmp_node}
  {FLN : AssocFreeLaws (I := IN) cmp_node}.
Context {LXL : AssocLaws (V := sctp_info_t) (T := TXL) cmp_uint16_wrapper}
  {LXR : AssocLaws (V := Z) (T := TXR) cmp_sctp_info_wrapper}
  {ILXL : AssocIterLaws (V := sctp_info_t) (I := IXL) cmp_uint16_wrapper}
  {ILXR : AssocIterLaws (V := Z) (I := IXR) cmp_sctp_info_wrapper}.
Context {LML : AssocLaws (V := xapp_ric_id_t) (T := TML) cmp_e2_node_ric_req_wrapper}
  {LMR : AssocLaws (V := e2_node_ric_id_t) (T := TMR) cmp_xapp_ric_gen_id}
  {ILML : AssocIterLaws (V := xapp_ric_id_t) (I := IML) cmp_e2_node_ric_req_wrapper}
  {ILMR : AssocIterLaws (V := e2_node_ric_id_t) (I := IMR) cmp_xapp_ric_gen_id}.
Context (N : list (global_e2_node_id_t * sctp_info_t)) {LR : RicIfLaws R N}.
Context (relock : option Z) (realloc_ok : nat → bool) (junk : subscription_entry_t).
Context (relock_fails : relock ≠ Some 0%Z) (realloc_total : ∀ n, realloc_ok n = true).

Abbreviation iapp := (e42_iapp_t (R := R) (TN := TN) (TXL := TXL) (TXR := TXR) (TML := TML) (TMR := TMR)).
Implicit Types (i : iapp) (a : ia_spec).

(** The state stands for the lists. *)
Record ia_sim i a : Prop := mk_ia_sim {
  sim_addr : bm_rep cmp_uint16_wrapper cmp_sctp_info_wrapper (xapps i) (ia_addr a);
  sim_next : next_xapp_id i = ia_next a;
  sim_regs : SubRegistry.reg_rep (subscription_registry i) (ia_regs a);
  sim_nodes : RegNodes.reg_rep (iapp_e2_nodes i) (ia_nodes a);
  sim_fine : Forall entry_fine (ia_nodes a);
  sim_map : map_rep (map_ric_id i) (ia_map a);
  sim_coherent : coherent (ia_map a);
  sim_ric : if_sim (ric_if i) (ia_ric a);
  sim_depth : forward_depth i = ia_depth a;
  sim_freed : ind_freed i = ia_freed a;
  sim_sent : sent_xapps i = ia_sent a }.

(** *** Reading and changing one part of the state *)

Lemma on_xapps_read {A} (m : st bi_map_t A) i x : m (xapps i) = Ret (x, xapps i) → on_xapps m i = Ret (x, i).
Proof using Type. intros H. unfold on_xapps. rewrite H. by destruct i. Qed.
Lemma on_map_read {A} (m : st map_ric_id_t A) i x : m (map_ric_id i) = Ret (x, map_ric_id i) → on_map m i = Ret (x, i).
Proof using Type. intros H. unfold on_map. rewrite H. by destruct i. Qed.
Lemma on_nodes_read {A} (m : st TN A) i x : m (iapp_e2_nodes i) = Ret (x, iapp_e2_nodes i) → on_nodes m i = Ret (x, i).
Proof using Type. intros H. unfold on_nodes. rewrite H. by destruct i. Qed.
Lemma on_registry_read {A} (m : st subscription_registry_t A) i x :
  m (subscription_registry i) = Ret (x, subscription_registry i) → on_registry m i = Ret (x, i).
Proof using Type. intros H. unfold on_registry. rewrite H. by destruct i. Qed.

Lemma ia_sim_send i a to m : ia_sim i a → ia_sim (send_xapp to m i) (ia_send to m a).
Proof using Type. intros []. constructor; try done. cbn. by f_equal. Qed.

Lemma ia_sim_ric i a r s : ia_sim i a → if_sim r s → ia_sim (set_ric r i) (ia_set_ric s a).
Proof using Type. intros [] H. by constructor. Qed.

Lemma ia_sim_map i a m P : ia_sim i a → map_rep m P → coherent P → ia_sim (set_map m i) (ia_set_map P a).
Proof using Type. intros [] H1 H2. by constructor. Qed.

Lemma ia_sim_fwd i a d f : ia_sim i a → ia_sim (set_freed f (set_depth d i)) (ia_set_fwd d f a).
Proof using Type. intros []. by constructor. Qed.

Lemma addr_of_cases X x : (∃ to, addr_of X x = Ret to) ∨ addr_of X x = Abort.
Proof using Type. unfold addr_of. destruct (list_find _ X) as [[]|]; [left; by eexists|by right]. Qed.
(** The address of an xApp. *)
Lemma find_addr_sim i a x : ia_sim i a →
  on_xapps (find_map_xapps_sad x) i = (to ← addr_of (ia_addr a) x; Ret (to, i)).
Proof.
  intros Hs. pose proof (sim_addr i a Hs) as Hx. unfold addr_of.
  destruct (list_find (λ e, e.1 = x) (ia_addr a)) as [[j [x' to]]|] eqn:Hf.
  - apply list_find_Some in Hf as (Hj & Hx' & _). cbn in Hx'. subst x'.
    rewrite (on_xapps_read _ i to); [done|]. apply (find_map_xapps_sad_ok (xapps i) (ia_addr a)); [done|].
    by eapply list_elem_of_lookup_2.
  - apply list_find_None in Hf. unfold on_xapps. rewrite (find_map_xapps_sad_absent (xapps i) (ia_addr a)); [done|done|].
    intros (e & He & Hin)%list_elem_of_fmap. rewrite Forall_forall in Hf. by apply (Hf e Hin).
Qed.

Lemma with_addr_sim {A} i a x (f : sctp_info_t → st iapp A) (y : A) g : ia_sim i a →
  (∀ to, simulates ia_sim y (f to i) (g to)) →
  simulates ia_sim y ((on_xapps (find_map_xapps_sad x) ≫= f) i) (to ← addr_of (ia_addr a) x; g to).
Proof.
  intros Hs Hf. unfold mbind at 1, st_bind at 1. rewrite (find_addr_sim i a _ Hs).
  destruct (addr_of_cases (ia_addr a) x) as [[to ->] | ->]; [|done]. apply Hf.
Qed.

(** The xApp of a request id. *)
Lemma find_owner_sim i a q : ia_sim i a →
  on_map (find_xapp_map_ric_id relock q) i = Ret (owner (ia_map a) (wrap 16 q), i).
Proof.
  intros Hs. pose proof (sim_map i a Hs) as Hm. destruct (find_xapp_ok relock (map_ric_id i) _ q Hm) as (r & Hf & Hr).
  rewrite (on_map_read _ i r Hf). do 2 f_equal. unfold owner.
  destruct (map_rep_unique _ _ Hm) as [Hnd _].
  destruct (list_find (λ p, node_req p.1 = wrap 16 q) (ia_map a)) as [[j [n x]]|] eqn:Hl.
  - apply list_find_Some in Hl as (Hj & Hn & _). cbn in Hn. destruct r as [x'|].
    + destruct Hr as (n' & Hin & Hn'). cbn. apply list_elem_of_lookup in Hin as [j' Hj'].
      assert (j = j') as <-; [|congruence]. eapply NoDup_lookup; [exact Hnd| |]; rewrite list_lookup_fmap.
      * by rewrite Hj.
      * rewrite Hj'. cbn. congruence.
    + exfalso. rewrite Forall_forall in Hr. apply (Hr (n, x)); [by eapply list_elem_of_lookup_2|done].
  - destruct r as [x'|]; [|done]. exfalso. destruct Hr as (n' & Hin & Hn'). apply list_find_None in Hl.
    rewrite Forall_forall in Hl. by apply (Hl _ Hin).
Qed.

Lemma owner_in P q x : owner P q = Some x → ∃ n, (n, x) ∈ P ∧ node_req n = q.
Proof using Type.
  unfold owner. destruct (list_find _ P) as [[j [n x']]|] eqn:Hl; [|done]. cbn. intros [= <-].
  apply list_find_Some in Hl as (Hj & Hn & _). exists n. split; [by eapply list_elem_of_lookup_2|done].
Qed.

Lemma filter_pairs P P' n x : P ≡ₚ (n, x) :: P' → NoDup P.*2 → filter (λ p : e2_node_ric_id_t * xapp_ric_id_t, p.2 ≠ x) P ≡ₚ P'.
Proof using Type.
  intros HP Hnd. rewrite HP in Hnd |- *. cbn in Hnd. apply NoDup_cons in Hnd as [Hx _].
  rewrite filter_cons_False by (intros []; done). clear HP. induction P' as [|p P' IH]; [done|].
  cbn in Hx. apply not_elem_of_cons in Hx as [Hp Hx]. rewrite filter_cons_True by done. by rewrite IH.
Qed.

Lemma rm_map_sim i a q x : ia_sim i a → owner (ia_map a) q = Some x →
  simulates ia_sim () (on_map (rm_map_ric_id relock x) i)
    (Ret (ia_set_map (filter (λ p, p.2 ≠ x) (ia_map a)) a)).
Proof.
  intros Hs Ho. pose proof (sim_map i a Hs) as Hm. destruct (owner_in _ _ _ Ho) as (n & Hin & _).
  destruct (rm_map_ok relock (map_ric_id i) _ n x Hm Hin) as (m' & P' & Hrm & HP & Hm').
  exists (set_map m' i). split; [unfold on_map; by rewrite Hrm|]. apply ia_sim_map; [done| |].
  - destruct Hm' as [Hb Hrw]. split; [|done]. eapply bm_rep_perm; [|exact Hb]. symmetry.
    apply (filter_pairs _ _ n); [done|]. by apply (map_rep_unique _ _ Hm).
  - pose proof (sim_coherent i a Hs) as Hc. unfold coherent in *. rewrite Forall_forall in Hc |- *.
    intros p [_ Hp]%list_elem_of_filter. by apply Hc.
Qed.

(** *** Messages the near-RT RIC passes on *)

Lemma sub_resp_sim i a src : ia_sim i a →
  simulates ia_sim NONE_E2_MSG_TYPE (e2ap_handle_subscription_response_iapp relock src i) (ia_sub_resp src a).
Proof.
  intros Hs. unfold e2ap_handle_subscription_response_iapp, ia_sub_resp, same_function.
  rewrite (st_bind_Ret _ _ _ _ _ (find_owner_sim i a _ Hs)).
  destruct (owner _ _) as [x|]; [|by exists i].
  destruct (_ =? _)%Z; [|by exists i]. destruct (_ =? _)%Z; [|by exists i]. cbn [negb andb]. cbv zeta.
  apply with_addr_sim; [done|]. intros to. cbv beta. destruct (_ =? 0)%Z; [by exists i|].
  eexists. split; [reflexivity|]. by apply ia_sim_send.
Qed.


Lemma end_resp_sim i a q x g (m : ric_gen_id_t → e2ap_msg_t) : ia_sim i a → owner (ia_map a) q = Some x →
  simulates ia_sim NONE_E2_MSG_TYPE
    ((st_assert (ran_func_id g =? ran_func_id (x_ric_id x))%Z;;
      st_assert (ric_inst_id g =? ric_inst_id (x_ric_id x))%Z;;
      info ← on_xapps (find_map_xapps_sad (xapp_id x));
      st_mod (send_xapp info (m (x_ric_id x)));;
      on_map (rm_map_ric_id relock x);;
      mret NONE_E2_MSG_TYPE) i)
    (ia_end_resp g m x a).
Proof.
  intros Hs Ho. unfold ia_end_resp, same_function. rewrite c_assert_andb. do 2 apply simulates_assert.
  apply with_addr_sim; [done|]. intros to. cbv beta.
  rewrite (st_bind_Ret _ _ _ _ _ eq_refl). eapply simulates_ret.
  apply (rm_map_sim _ (ia_send to (m (x_ric_id x)) a) q x); [by apply ia_sim_send|exact Ho].
Qed.

Lemma del_resp_sim i a src : ia_sim i a →
  simulates ia_sim NONE_E2_MSG_TYPE (e2ap_handle_subscription_delete_response_iapp relock src i) (ia_del_resp src a).
Proof.
  intros Hs. unfold e2ap_handle_subscription_delete_response_iapp, ia_del_resp.
  rewrite (st_bind_Ret _ _ _ _ _ (find_owner_sim i a _ Hs)).
  destruct (owner _ _) as [x|] eqn:Ho; [|by exists i].
  by apply (end_resp_sim i a _ x _ (λ j, RIC_SUBSCRIPTION_DELETE_RESPONSE (mk_ric_subscription_delete_response j)) Hs Ho).
Qed.

Lemma ctrl_ack_sim i a src : ia_sim i a →
  simulates ia_sim NONE_E2_MSG_TYPE (e2ap_handle_e42_ric_control_ack_iapp relock src i) (ia_ctrl_ack src a).
Proof.
  intros Hs. unfold e2ap_handle_e42_ric_control_ack_iapp, ia_ctrl_ack.
  rewrite (st_bind_Ret _ _ _ _ _ (find_owner_sim i a _ Hs)).
  destruct (owner _ _) as [x|] eqn:Ho; [|done].
  by apply (end_resp_sim i a _ x _ (λ j, RIC_CONTROL_ACKNOWLEDGE (mk_ric_control_acknowledge j None None)) Hs Ho).
Qed.

(** *** Indications *)

Lemma forward_one_sim i a e L ind : ia_sim i a →
  ∀ k : st iapp (), (∀ i' a', ia_regs a' = ia_regs a → ia_sim i' a' → simulates ia_sim () (k i') (ia_forward L ind a')) →
  simulates ia_sim () ((forward_indication_to_xapp (e_xapp_id e) ind;; k) i) (ia_forward (e :: L) ind a).
Proof.
  intros Hs k Hk. unfold forward_indication_to_xapp. cbn [ia_forward].
  rewrite st_bind_assoc, (st_bind_Ret _ _ _ _ _ eq_refl), st_bind_assoc.
  assert (ia_sim (set_depth (S (forward_depth i)) i) (ia_set_fwd (S (ia_depth a)) (ia_freed a) a)) as Hs1.
  { rewrite (sim_depth i a Hs). pose proof (sim_freed i a Hs) as Hf.
    destruct Hs. constructor; try done. }
  apply (with_addr_sim _ _ _ _ _ _ Hs1). intros to. destruct (_ =? 0)%Z; [by apply Hk|].
  rewrite !st_bind_assoc, (st_bind_Ret st_get _ _ _ _ eq_refl). cbn [ind_freed set_depth].
  rewrite (sim_freed i a Hs), st_bind_assoc.
  destruct (shares_fields ind && ia_freed a); [done|].
  rewrite (st_bind_Ret _ _ _ _ _ eq_refl), st_bind_assoc, (st_bind_Ret _ _ _ _ _ eq_refl),
    st_bind_assoc, (st_bind_Ret _ _ _ _ _ eq_refl), (st_bind_Ret _ _ _ _ _ eq_refl).
  cbn [negb in_bounds mbind outcome_bind]. apply Hk; [done|]. cbn. destruct Hs. constructor; try done.
  - cbn. by f_equal.
Qed.

Lemma matching_cons f e L : matching f (e :: L) =
  if active e && (e_ran_func_id e =? f)%Z then e :: matching f L else matching f L.
Proof using Type.
  unfold matching. destruct (active e) eqn:Ha; [destruct (Z.eqb_spec (e_ran_func_id e) f) as [Hf|Hf]|]; cbn [andb].
  - by rewrite filter_cons_True.
  - rewrite filter_cons_False; [done|]. by intros [].
  - rewrite filter_cons_False; [done|]. rewrite Ha. by intros [].
Qed.

Lemma forward_loop_sim i a L1 L2 ind : ia_sim i a → ia_regs a = L1 ++ L2 →
  simulates ia_sim () (forward_loop (length L2) (length L1) ind i)
    (ia_forward (matching (ran_func_id (ind_ric_id ind)) L2) ind a).
Proof.
  revert i a L1. induction L2 as [|e L2 IH]; intros i a L1 Hs Hregs; [by exists i|].
  cbn [length forward_loop]. rewrite matching_cons.
  assert (∀ i' a', ia_regs a' = ia_regs a → ia_sim i' a' → simulates ia_sim () (forward_loop (length L2) (S (length L1)) ind i')
    (ia_forward (matching (ran_func_id (ind_ric_id ind)) L2) ind a')) as Hrest.
  { intros i' a' Hr Hs'. specialize (IH i' a' (L1 ++ [e]) Hs'). rewrite length_app, Nat.add_1_r in IH.
    apply IH. by rewrite Hr, Hregs, <-app_assoc. }
  assert (on_registry (entry_at (length L1)) i = Ret (e, i)) as Hat.
  { apply on_registry_read. pose proof (sim_regs i a Hs) as (rest & He & _). unfold entry_at.
    rewrite He, Hregs, <-app_assoc. cbn [app]. by rewrite list_lookup_middle. }
  rewrite (st_bind_Ret _ _ _ _ _ Hat). destruct (active e && _).
  - by apply forward_one_sim.
  - rewrite (st_bind_Ret _ _ _ _ _ eq_refl). by apply Hrest.
Qed.

Lemma ind_sim i a ind : ia_sim i a →
  simulates ia_sim NONE_E2_MSG_TYPE (e2ap_handle_ric_indication_iapp ind i) (ia_ind ind a).
Proof.
  intros Hs. unfold e2ap_handle_ric_indication_iapp, ia_ind. rewrite (st_bind_Ret st_get _ _ _ _ eq_refl).
  eapply simulates_ret. pose proof (sim_regs i a Hs) as (rest & _ & -> & _).
  by apply (forward_loop_sim i a [] (ia_regs a)).
Qed.

(** *** Requests of the xApps *)

Lemma list_sim i a : ia_sim i a → on_nodes generate_e2_node_arr i = (l ← ia_list a; Ret (l, i)).
Proof.
  intros Hs. destruct (entries_fine _ (sim_fine i a Hs)) as [_ Hfew]. unfold ia_list. case_bool_decide as Hlen.
  - apply on_nodes_read. rewrite (generate_e2_node_arr_ok _ _ (sim_nodes i a Hs) Hlen). by rewrite Hfew.
  - unfold on_nodes. rewrite (generate_e2_node_arr_overrun _ _ (sim_nodes i a Hs)); [done|lia|done].
Qed.

Lemma setup_sim i a info rf : ia_sim i a → ia_op_fresh (XappMsg info (E42_SETUP_REQUEST rf)) a = true →
  simulates ia_sim () (handle_xapp_msg relock realloc_ok junk info (E42_SETUP_REQUEST rf) i) (ia_setup info rf a).
Proof.
  intros Hs Hfr. unfold handle_xapp_msg, ia_setup. cbn [e2ap_msg_handle_iapp].
  unfold e2ap_handle_e42_setup_request_iapp, generate_setup_response. rewrite !st_bind_assoc.
  apply simulates_assert. rewrite !st_bind_assoc. unfold mbind at 1, st_bind at 1. rewrite (list_sim i a Hs).
  destruct (ia_list a) as [nodes| | | |] eqn:Hl; try done; [|by unfold ia_list in Hl; case_bool_decide].
  cbn [mbind outcome_bind]. rewrite !st_bind_assoc, (st_bind_Ret st_get _ _ _ _ eq_refl), !st_bind_assoc.
  rewrite !(st_bind_Ret _ _ _ _ _ eq_refl). cbn [resp_xapp_id]. rewrite (sim_next i a Hs). cbv zeta.
  pose proof (sim_addr i a Hs) as Hx. unfold on_xapps. cbn [xapps set_next_xapp_id].
  case_bool_decide as Hid.
  - unfold mbind at 1, st_bind. cbn. by rewrite (add_map_xapps_sad_dup _ _ _ info Hx Hid).
  - destruct (add_map_xapps_sad_ok (xapps i) (ia_addr a) (wrap 16 (ia_next a)) info Hx Hid) as (m' & Hadd & Hm').
    { cbn in Hfr. rewrite forallb_forall in Hfr. apply Forall_forall. intros e He.
      apply list_elem_of_In in He. specialize (Hfr e He). by apply negb_true_iff, Z.eqb_neq in Hfr. }
    unfold mbind at 1, st_bind. cbn. rewrite Hadd. cbn. eexists. split; [reflexivity|].
    apply ia_sim_send. destruct Hs. constructor; try done.
Qed.

(** A call of the near-RT RIC. *)
Lemma on_ric_sim {A} (m : st R A) (x : A) i a sres : ia_sim i a → simulates if_sim x (m (ric_if i)) sres →
  simulates ia_sim x (on_ric m i) (s ← sres; Ret (ia_set_ric s a)).
Proof using LR.
  intros Hs Hm. unfold on_ric. destruct sres as [s| | | |]; cbn in Hm |- *.
  - destruct Hm as (r & -> & Hr). cbn. eexists. split; [reflexivity|]. by apply ia_sim_ric.
  - by rewrite Hm.
  - by rewrite Hm.
  - by rewrite Hm.
  - done.
Qed.

Lemma on_ric_bind_sim {A B} (m : st R A) (x : A) (f : A → st iapp B) (y : B) i a sres g : ia_sim i a →
  simulates if_sim x (m (ric_if i)) sres →
  (∀ i1 s, ia_sim i1 (ia_set_ric s a) → simulates ia_sim y (f x i1) (g s)) →
  simulates ia_sim y ((on_ric m ≫= f) i) (s ← sres; g s).
Proof using LR.
  intros Hs Hm Hf. unfold mbind at 1, st_bind at 1, on_ric. destruct sres as [s| | | |]; cbn in Hm |- *; try done; try by rewrite Hm.
  destruct Hm as (r & -> & Hr). cbn. apply Hf. by apply ia_sim_ric.
Qed.

Lemma del_req_sim i a m : ia_sim i a →
  simulates ia_sim NONE_E2_MSG_TYPE (e2ap_handle_e42_ric_subscription_delete_request_iapp relock m i) (ia_del_req N m a).
Proof.
  intros Hs. unfold e2ap_handle_e42_ric_subscription_delete_request_iapp, ia_del_req. cbv zeta.
  pose proof (sim_map i a Hs) as Hm. pose proof (sim_coherent i a Hs) as Hc.
  destruct (find_ric_req_ok relock (map_ric_id i) _ (mk_xapp_ric_id (sdr_ric_id (sdr m)) (e42_sdr_xapp_id m)) Hm)
    as [(n & x' & Hf & Hin & Hx')|[Hf HF]].
  - rewrite (st_bind_Ret _ _ _ _ _ (on_map_read _ _ _ Hf)). cbn in Hx'.
    destruct (list_find _ (ia_map a)) as [[j [n2 x2]]|] eqn:Hl.
    + apply list_find_Some in Hl as (Hj & Hx2 & _). cbn in Hx2.
      assert (n2 = n) as ->.
      { unfold coherent in Hc. rewrite Forall_forall in Hc. destruct (Hc _ Hin) as [Hn _].
        destruct (Hc (n2, x2)) as [Hn2 _]; [by eapply list_elem_of_lookup_2|]. cbn in Hn, Hn2.
        destruct (map_rep_unique _ _ Hm) as [Hnd _]. apply list_elem_of_lookup in Hin as [j' Hj'].
        assert (j = j') as <-; [|congruence]. eapply NoDup_lookup; [exact Hnd| |]; rewrite list_lookup_fmap.
        - by rewrite Hj.
        - rewrite Hj'. cbn. unfold node_req. by rewrite Hn, Hn2, Hx2, Hx'. }
      apply simulates_assert. eapply simulates_ret. apply on_ric_sim; [done|]. apply if_del_ok. by apply sim_ric.
    + exfalso. apply list_find_None in Hl. rewrite Forall_forall in Hl. by apply (Hl _ Hin).
  - unfold mbind at 1, st_bind at 1, on_map. rewrite Hf.
    destruct (list_find _ (ia_map a)) as [[j [n2 x2]]|] eqn:Hl; [|done].
    exfalso. apply list_find_Some in Hl as (Hj & Hx2 & _). cbn in Hx2. rewrite Forall_forall in HF.
    apply (HF (n2, x2)); [by eapply list_elem_of_lookup_2|done].
Qed.

Lemma valid_id_sim {A} i a x (f : bool → st iapp A) (y : A) sres : ia_sim i a →
  ((x <? 2 ^ 16)%Z = true → simulates ia_sim y (f (x <=? ia_next a)%Z i) sres) →
  simulates ia_sim y ((valid_xapp_id x ≫= f) i) (c_assert (x <? 2 ^ 16)%Z;; sres).
Proof.
  intros Hs Hf. unfold valid_xapp_id. rewrite st_bind_assoc. destruct (x <? 2 ^ 16)%Z; [|done].
  rewrite (st_bind_Ret _ _ _ _ _ eq_refl), st_bind_assoc, (st_bind_Ret st_get _ _ _ _ eq_refl),
    (st_bind_Ret _ _ _ _ _ eq_refl). rewrite (sim_next i a Hs). by apply Hf.
Qed.

(** The recording of a subscription in the registry and in the map. *)
Lemma sub_record_sim i a m : ia_sim i a →
  forallb (λ p, negb (node_req p.1 =? node_req (sub_pair m).1)%Z) (ia_map a) = true →
  let q := wrap 16 (ric_req_id (sr_ric_id (sr m))) in
  simulates ia_sim NONE_E2_MSG_TYPE
   ((reg_success ← on_registry (register_subscription realloc_ok junk (e42_sr_xapp_id m) (ran_func_id (sr_ric_id (sr m))) q);
     if negb reg_success then mret NONE_E2_MSG_TYPE
     else
       _ ← on_map (pthread_rwlock_wrlock relock);
       let ric_id := with_req_id (sr_ric_id (sr m)) q in
       let node := mk_e2_node_ric_id (cp_global_e2_node_id (e42_sr_id m)) ric_id SUBSCRIPTION_RIC_REQUEST_TYPE in
       let xapp_ric_id := mk_xapp_ric_id ric_id (e42_sr_xapp_id m) in
       on_map (on_bimap (bi_map_insert cmp_e2_node_ric_req_wrapper cmp_xapp_ric_gen_id node xapp_ric_id));;
       _ ← on_map pthread_rwlock_unlock;
       mret NONE_E2_MSG_TYPE) i)
   (Ret (ia_set_map (sub_pair m :: ia_map a) (ia_set_regs (reg_put (sub_entry m) (ia_regs a)) a))).
Proof.
  intros Hs Hfr q. destruct (register_ok realloc_ok junk realloc_total (subscription_registry i) (ia_regs a)
    (e42_sr_xapp_id m) (ran_func_id (sr_ric_id (sr m))) q (sim_regs i a Hs)) as (r' & Hreg & Hr' & _).
  assert (on_registry (register_subscription realloc_ok junk (e42_sr_xapp_id m) (ran_func_id (sr_ric_id (sr m))) q) i
    = Ret (true, set_registry r' i)) as H1 by (unfold on_registry; by rewrite Hreg).
  rewrite (st_bind_Ret _ _ _ _ _ H1). cbn [negb]. cbv zeta.
  destruct (sim_map i a Hs) as [Hb Hrw]. pose proof (sim_coherent i a Hs) as Hc.
  replace (cp_global_e2_node_id (e42_sr_id m)) with (e42_sr_id m) by (by destruct (e42_sr_id m)).
  change (mk_e2_node_ric_id _ _ _) with (sub_pair m).1. change (mk_xapp_ric_id _ _) with (sub_pair m).2.
  destruct (bm_insert_ok cmp_e2_node_ric_req_wrapper cmp_xapp_ric_gen_id (bimap (map_ric_id i)) (ia_map a)
    (sub_pair m).1 (sub_pair m).2 Hb) as (b' & Hins & Hb').
  { apply (fresh_pair_spec cmp_e2_node_ric_req_wrapper cmp_xapp_ric_gen_id).
    assert (∀ p, p ∈ ia_map a → node_req p.1 ≠ node_req (sub_pair m).1) as Hne.
    { intros p Hp. rewrite forallb_forall in Hfr. apply list_elem_of_In in Hp. specialize (Hfr p Hp).
      by apply negb_true_iff, Z.eqb_neq in Hfr. }
    split; apply Forall_forall; intros p Hp H0; apply (Hne p Hp).
    - apply cmp_e2_node_ric_req_eq in H0. done.
    - apply cmp_xapp_ric_gen_id_eq in H0. unfold coherent in Hc. rewrite Forall_forall in Hc.
      destruct (Hc p Hp) as [Hn _]. unfold node_req. by rewrite Hn, <-H0. }
  assert (on_map (pthread_rwlock_wrlock relock) (set_registry r' i)
    = Ret (0%Z, set_map (set_rw WriteLocked (map_ric_id i)) (set_registry r' i))) as H2.
  { unfold on_map. cbn [map_ric_id set_registry]. by rewrite (wrlock_ok relock _ Hrw). }
  rewrite (st_bind_Ret _ _ _ _ _ H2).
  set (s2 := set_map _ _). assert (on_map (on_bimap (bi_map_insert cmp_e2_node_ric_req_wrapper cmp_xapp_ric_gen_id
     (sub_pair m).1 (sub_pair m).2)) s2 = Ret ((), set_map (mk_map_ric_id b' WriteLocked) s2)) as H3.
  { unfold on_map. cbn [map_ric_id s2 set_map]. by rewrite (on_bimap_Ret _ _ WriteLocked _ _ Hins). }
  assert (on_map pthread_rwlock_unlock (set_map (mk_map_ric_id b' WriteLocked) s2)
    = Ret (0%Z, set_map (mk_map_ric_id b' Unlocked) s2)) as H4 by done.
  rewrite (st_bind_Ret _ _ _ _ _ H3), (st_bind_Ret _ _ _ _ _ H4).
  eexists. split; [reflexivity|]. destruct Hs. constructor; try done. by constructor.
Qed.

Lemma sub_req_sim i a info m : ia_sim i a → ia_op_fresh (XappMsg info (E42_RIC_SUBSCRIPTION_REQUEST m)) a = true →
  simulates ia_sim NONE_E2_MSG_TYPE (e2ap_handle_e42_ric_subscription_request_iapp relock realloc_ok junk m i)
    (ia_sub_req N m a).
Proof.
  intros Hs [Hev Hfr]%andb_true_iff. unfold e2ap_handle_e42_ric_subscription_request_iapp, ia_sub_req.
  apply (valid_id_sim i a); [done|]. intros _. destruct (e42_sr_xapp_id m <=? ia_next a)%Z; [|by exists i]. cbn [negb].
  apply with_addr_sim; [done|]. intros to. cbv beta.
  destruct (sin_port to =? 0)%Z; [by exists i|].
  apply (on_ric_bind_sim _ _ _ _ _ _ _ _ Hs (if_sub_ok _ _ _ _ (sim_ric i a Hs) Hev)).
  intros i1 s Hs1. cbv beta. unfold ia_record. destruct (wrap 16 _ =? 0)%Z; [by exists i1|].
  by apply (sub_record_sim i1 (ia_set_ric s a)).
Qed.

(** The locked map around a control request. *)
Lemma any_node_sim l id : Forall (λ n, node_id_wf (enc_id n) = true) l → node_id_wf id = true →
  any_e2_node l id = Ret (existsb (λ n, eq_node (enc_id n) id) l).
Proof using Type.
  intros Hl Hid. induction Hl as [|n l Hn _ IH]; [done|]. cbn. rewrite (eq_node_spec _ _ Hn Hid). cbn.
  by destruct (eq_node (enc_id n) id).
Qed.

Lemma ctrl_req_sim i a info m : ia_sim i a → ia_op_fresh (XappMsg info (E42_RIC_CONTROL_REQUEST m)) a = true →
  simulates ia_sim NONE_E2_MSG_TYPE (e2ap_handle_e42_ric_control_request_iapp relock m i) (ia_ctrl_req N relock m a).
Proof.
  intros Hs [Hev Hid]%andb_true_iff. unfold e2ap_handle_e42_ric_control_request_iapp, ia_ctrl_req.
  apply (valid_id_sim i a); [done|]. intros _. apply simulates_assert.
  unfold valid_global_e2_node. rewrite st_bind_assoc. unfold mbind at 1, st_bind at 1. rewrite (list_sim i a Hs).
  destruct (ia_list a) as [nodes| | | |] eqn:Hl; try done; [|by unfold ia_list in Hl; case_bool_decide].
  assert (Forall (λ n, node_id_wf (enc_id n) = true) nodes) as Hwf.
  { unfold ia_list in Hl. case_bool_decide; [|done]. injection Hl as <-. apply Forall_fmap.
    by apply (entries_fine _ (sim_fine i a Hs)). }
  cbn [mbind outcome_bind]. erewrite st_bind_Ret by (unfold st_lift; by rewrite any_node_sim).
  apply simulates_assert. cbv zeta. destruct (sim_map i a Hs) as [Hb Hrw].
  assert (on_map (pthread_rwlock_wrlock relock) i = Ret (0%Z, set_map (set_rw WriteLocked (map_ric_id i)) i)) as H1.
  { unfold on_map. by rewrite (wrlock_ok relock _ Hrw). }
  rewrite (st_bind_Ret _ _ _ _ _ H1), (st_bind_Ret _ _ _ _ _ eq_refl).
  pose proof (if_ctrl_ok _ _ (e42_cr_id m) (ctrl_req m) (sim_ric i a Hs) Hev) as Hric.
  unfold mbind at 1, st_bind at 1, on_ric at 1. cbn [ric_if set_map].
  destruct (ric_spec_step N _ (ia_ric a)) as [s| | | |]; cbn [simulates] in Hric; try done; try by rewrite Hric.
  destruct Hric as (r & -> & Hr). cbn [mbind outcome_bind]. set (i1 := set_ric r _).
  set (n := mk_e2_node_ric_id _ _ _). set (x := mk_xapp_ric_id _ _).
  assert (on_map (add_map_ric_id relock n x) i1 = match relock with None => Stuck | Some _ => Ret ((), i1) end) as H2.
  { unfold on_map. rewrite (add_map_relocked relock (map_ric_id i1) n x eq_refl relock_fails).
    destruct relock; [|done]. by destruct i. }
  unfold mbind at 1, st_bind at 1. rewrite H2. destruct relock as [rc|]; [|done]. cbn [mbind outcome_bind].
  assert (on_map pthread_rwlock_unlock i1 = Ret (0%Z, set_ric r i)) as H3.
  { unfold i1. clear -Hrw. destruct i as [? ? ? ? [b l] ? ? ? ?]. cbn in Hrw. by subst l. }
  rewrite (st_bind_Ret _ _ _ _ _ H3). eexists. split; [reflexivity|]. by apply ia_sim_ric.
Qed.

(** *** All messages *)

Lemma no_answer_sim info i m sres :
  simulates ia_sim NONE_E2_MSG_TYPE (e2ap_msg_handle_iapp relock realloc_ok junk m i) sres →
  simulates ia_sim () (handle_xapp_msg relock realloc_ok junk info m i) sres.
Proof using Type.
  intros H. unfold handle_xapp_msg, mbind at 1, st_bind at 1.
  destruct sres as [s| | | |]; cbn in H |- *; try done; try by rewrite H.
  destruct H as (i' & -> & Hs'). by exists i'.
Qed.

Lemma notify_sim m i sres :
  simulates ia_sim NONE_E2_MSG_TYPE (e2ap_msg_handle_iapp relock realloc_ok junk m i) sres →
  simulates ia_sim () ((ans ← e2ap_msg_handle_iapp relock realloc_ok junk m;
    st_assert (match ans with NONE_E2_MSG_TYPE => true | _ => false end)) i) sres.
Proof using Type.
  intros H. unfold mbind at 1, st_bind at 1.
  destruct sres as [s| | | |]; cbn in H |- *; try done; try by rewrite H.
  destruct H as (i' & -> & Hs'). by exists i'.
Qed.

Definition iapp_step (o : ia_op) : st iapp () :=
  match o with
  | XappMsg info m => xapp_msg_arrived relock realloc_ok junk info m
  | RicCall c => iapp_call_step relock realloc_ok junk c
  end.

Fixpoint iapp_run (os : list ia_op) : st iapp () :=
  match os with
  | [] => mret ()
  | o :: os => iapp_step o;; iapp_run os
  end.

Lemma iapp_handle_sim i a m : ia_sim i a →
  match m with
  | E42_SETUP_REQUEST _ | E42_RIC_SUBSCRIPTION_REQUEST _ | E42_RIC_SUBSCRIPTION_DELETE_REQUEST _
  | E42_RIC_CONTROL_REQUEST _ => True
  | _ => simulates ia_sim NONE_E2_MSG_TYPE (e2ap_msg_handle_iapp relock realloc_ok junk m i) (ia_notify m a)
  end.
Proof.
  intros Hs. destruct m; try done; cbn [e2ap_msg_handle_iapp ia_notify].
  - by apply sub_resp_sim.
  - by apply del_resp_sim.
  - by apply ind_sim.
  - by apply ctrl_ack_sim.
Qed.

Lemma nodes_sim (m : st TN ()) i a sres : ia_sim i a →
  match sres with
  | Ret L => ∃ t', m (iapp_e2_nodes i) = Ret ((), t') ∧ RegNodes.reg_rep t' L ∧ Forall entry_fine L
  | _ => m (iapp_e2_nodes i) = Abort
  end → sres ≠ Undef → sres ≠ Stuck → sres ≠ NoFuel →
  simulates ia_sim () (on_nodes m i) (L ← sres; Ret (ia_set_nodes L a)).
Proof using Type.
  intros Hs Hm H1 H2 H3. unfold on_nodes. destruct sres as [L| | | |]; try done; [|by rewrite Hm].
  destruct Hm as (t' & -> & Hr & Hf). eexists. split; [reflexivity|]. destruct Hs. by constructor.
Qed.

(** A message from its decoding to its end. *)
Lemma message_sim (m : st iapp ()) h i a : ia_sim i a →
  (∀ i' a', ia_sim i' a' → a' = ia_set_fwd (ia_depth a) false a → simulates ia_sim () (m i') (h a')) →
  simulates ia_sim () (with_message m i) (ia_message h a).
Proof using Type.
  intros Hs Hm. unfold with_message, ia_message. rewrite (st_bind_Ret _ _ _ _ _ eq_refl).
  eapply simulates_bind; [apply Hm; [|done]; destruct Hs; by constructor|].
  intros i' a' _ Hs'. rewrite (st_bind_Ret st_get _ _ _ _ eq_refl), (sim_freed i' a' Hs').
  destruct (ia_freed a'); [done|]. by exists i'.
Qed.

Lemma xapp_msg_sim info m i a : ia_sim i a → ia_op_fresh (XappMsg info m) a = true →
  simulates ia_sim () (handle_xapp_msg relock realloc_ok junk info m i) (ia_xapp_msg N relock info m a).
Proof.
  intros Hs Hfr. pose proof (iapp_handle_sim i a m Hs) as Hm.
  destruct m; cbn [ia_xapp_msg]; try by apply no_answer_sim.
  - by apply setup_sim.
  - apply no_answer_sim. by apply (sub_req_sim i a info).
  - apply no_answer_sim. by apply del_req_sim.
  - apply no_answer_sim. by apply (ctrl_req_sim i a info).
Qed.

Lemma notify_msg_sim m i a : ia_sim i a → simulates ia_sim () (notify_msg_iapp relock realloc_ok junk m i) (ia_notify m a).
Proof.
  intros Hs. pose proof (iapp_handle_sim i a m Hs) as Hm. unfold notify_msg_iapp.
  destruct m; try done; rewrite (st_bind_Ret _ _ _ _ _ eq_refl); by apply notify_sim.
Qed.

Lemma iapp_step_sim o i a : ia_sim i a → ia_op_fresh o a = true →
  simulates ia_sim () (iapp_step o i) (ia_step N relock o a).
Proof.
  intros Hs Hfr. destruct o as [info m|[m|id rf cca|id]].
  - apply message_sim; [done|]. intros i' a' Hs' ->. by apply xapp_msg_sim.
  - apply message_sim; [done|]. intros i' a' Hs' _. by apply notify_msg_sim.
  - cbn [iapp_step ia_step iapp_call_step]. unfold add_e2_node_iapp. cbn in Hfr. apply andb_true_iff in Hfr as [Hid Hlen].
    destruct (entries_fine _ (sim_fine i a Hs)) as [Hwf _].
    pose proof (add_reg_ok _ _ id rf cca (sim_nodes i a Hs) Hid Hwf) as Hadd. unfold nodes_add in *.
    destruct rf as [|rf0 rf]; [by rewrite bool_decide_eq_false_2 by naive_solver|].
    rewrite (st_bind_Ret _ _ _ _ _ eq_refl).
    apply nodes_sim; [done| |by destruct (_ && _)..].
    destruct (_ && _); [|done]. destruct Hadd as (t' & Ht' & Hr). exists t'. split_and!; [done|done|].
    rewrite ord_insert_perm. constructor; [by split|by apply (sim_fine i a)].
  - cbn [iapp_step ia_step iapp_call_step]. unfold rm_e2_node_iapp.
    pose proof (rm_reg_ok _ _ id (sim_nodes i a Hs)) as Hrm. unfold nodes_rm in *.
    apply nodes_sim; [done| |by destruct (list_find _ _) as [[]|]..].
    destruct (list_find _ _) as [[j e]|]; [|done]. destruct Hrm as (t' & Ht' & Hr). exists t'. split_and!; [done|done|].
    rewrite delete_take_drop. apply Forall_app. split; [apply Forall_take|apply Forall_drop]; by apply (sim_fine i a).
Qed.

Lemma iapp_run_sim os i a : ia_sim i a → ia_fresh N relock os a = true →
  simulates ia_sim () (iapp_run os i) (ia_run N relock os a).
Proof.
  revert i a. induction os as [|o os IH]; intros i a Hs Hfr; [by exists i|].
  cbn [ia_fresh] in Hfr. apply andb_true_iff in Hfr as [Ho Hfr].
  apply (simulates_bind _ _ _ _ _ _ _ _ (iapp_step_sim o i a Hs Ho)).
  intros i1 a1 Ha1 Hs1. rewrite Ha1 in Hfr. by apply IH.
Qed.
End iapp.
