(* ===== verification/IAppProps.v ===== *)
(** * The iApp: what its clients see

    Programs against the specification, the forwarding of indications, the
    deletion of subscriptions and the disconnection of an xApp. *)
From stdpp Require Import gmap.
From S2P Require Import Prelude AssocSpec AssocIter AssocFree BiMap BiMapFind RicIds E2apMsg RegNodes AddrMaps MapRicId.
From S2P Require Import SubRegistry RicSpec IApp IAppSpec IAppInv.
#[local] Set Warnings "-clear-no-such-hyp".
#[local] Set Default Proof Using "All".

(** ** On the specification *)

Definition ia_set_sent (l : list (sctp_info_t * e2ap_msg_t)) (a : ia_spec) : ia_spec :=
  mk_ia_spec (ia_addr a) (ia_next a) (ia_regs a) (ia_nodes a) (ia_map a) (ia_ric a) (ia_depth a) (ia_freed a) l.

(** The messages of one indication, the last one first. *)
Definition ind_msgs (ind : ric_indication_t) (tos : list sctp_info_t) : list (sctp_info_t * e2ap_msg_t) :=
  reverse ((λ to, (to, RIC_INDICATION ind)) <$> tos).

(** The registered xApps of the entries are connected, from [tos]. *)
Definition reached (X : list (Z * sctp_info_t)) : list subscription_entry_t → list sctp_info_t → Prop :=
  Forall2 (λ e to, addr_of X (wrap 16 (e_xapp_id e)) = Ret to ∧ sin_port to ≠ 0%Z).

Lemma ia_forward_ok L tos ind a : shares_fields ind = false → reached (ia_addr a) L tos →
  ia_forward L ind a = Ret (ia_set_sent (ind_msgs ind tos ++ ia_sent a) a).
Proof.
  intros Hsh H. revert tos a H. induction L as [|e L IH]; intros tos a H; unfold reached in H.
  - apply Forall2_nil_inv_l in H as ->. by destruct a.
  - apply Forall2_cons_inv_l in H as (to & tos' & [Ha Hp] & HL & ->). cbn [ia_forward]. rewrite Ha. cbn [mbind outcome_bind].
    rewrite (proj2 (Z.eqb_neq _ _) Hp), Hsh. cbn [andb negb in_bounds mbind outcome_bind orb].
    rewrite (IH tos') by done. f_equal. unfold ind_msgs. rewrite fmap_cons, reverse_cons, <-app_assoc. by destruct a.
Qed.

(** Once the optional fields are freed, one more forwarding or the end of the
    message frees them again. *)
Lemma ia_forward_freed L tos ind a : shares_fields ind = true → ia_freed a = true → reached (ia_addr a) L tos →
  (a' ← ia_forward L ind a; in_bounds (negb (ia_freed a'));; Ret a') = Undef.
Proof.
  intros Hsh Hf HL. destruct HL as [|e to L tos [Ha Hp] HL]; cbn [ia_forward mbind outcome_bind]; [by rewrite Hf|].
  by rewrite Ha, Hsh, Hf; cbn [mbind outcome_bind]; rewrite (proj2 (Z.eqb_neq _ _) Hp).
Qed.

Lemma ia_forward_shared L tos ind a : shares_fields ind = true → ia_freed a = false → tos ≠ [] → reached (ia_addr a) L tos →
  (a' ← ia_forward L ind a; in_bounds (negb (ia_freed a'));; Ret a') = Undef.
Proof.
  intros Hsh Hf Hne HL. destruct HL as [|e to L tos [Ha Hp] HL]; [done|]. cbn [ia_forward].
  rewrite Ha. cbn [mbind outcome_bind]. rewrite (proj2 (Z.eqb_neq _ _) Hp), Hsh, Hf.
  cbn [andb negb in_bounds mbind outcome_bind]. by apply (ia_forward_freed L tos).
Qed.

Lemma reached_in X L tos e to : reached X L tos → e ∈ L → addr_of X (wrap 16 (e_xapp_id e)) = Ret to → to ∈ tos.
Proof.
  intros HL He Ha. induction HL as [|e' to' L tos [Ha' _] HL IH]; [by apply not_elem_of_nil in He|].
  apply elem_of_cons in He as [<-|He]; [rewrite Ha in Ha'; injection Ha' as ->; left|right; by apply IH].
Qed.

Lemma addr_of_in X x to : addr_of X x = Ret to → (x, to) ∈ X.
Proof.
  unfold addr_of. destruct (list_find _ X) as [[j [y t]]|] eqn:Hl; [|done]. intros [= <-].
  apply list_find_Some in Hl as (Hj & Hy & _). cbn in Hy. subst y. by eapply list_elem_of_lookup_2.
Qed.

Lemma addr_of_ok X x to : NoDup X.*1 → (x, to) ∈ X → addr_of X x = Ret to.
Proof.
  intros Hnd Hin. unfold addr_of. destruct (list_find _ X) as [[j [y t]]|] eqn:Hl.
  - apply list_find_Some in Hl as (Hj & Hy & _). cbn in Hy. subst y.
    f_equal. by apply (NoDup_fst_inj X x); [|eapply list_elem_of_lookup_2|].
  - apply list_find_None in Hl. rewrite Forall_forall in Hl. by destruct (Hl _ Hin).
Qed.

Section iapp.
Context {R TN IN TXL TXR IXL IXR TML TMR IML IMR : Type} `{RI : !RicIf R}.
Context `{ON : AssocOps global_e2_node_id_t pair_rf_cca_t TN} `{ION : !AssocIterOps global_e2_node_id_t pair_rf_cca_t TN IN}
  `{FN : !AssocFreeOps global_e2_node_id_t pair_rf_cca_t TN IN}
  `{OXL : AssocOps Z sctp_info_t TXL} `{OXR : AssocOps sctp_info_t Z TXR}
  `{IOXL : !AssocIterOps Z sctp_info_t TXL IXL} `{IOXR : !AssocIterOps sctp_info_t Z TXR IXR}
  `{OML : AssocOps e2_node_ric_id_t xapp_ric_id_t TML} `{OMR : AssocOps xapp_ric_id_t e2_node_ric_id_t TMR}
  `{IOML : !AssocIterOps e2_node_ric_id_t xapp_ric_id_t TML IML}
  `{IOMR : !AssocIterOps xapp_ric_id_t e2_node_ric_id_t TMR IMR}.
Context {LN : AssocLaws (V := pair_rf_cca_t) (T := TN) cmp_node} {ILN : AssocIterLaws (I := IN) cmp_node}
  {FLN : AssocFreeLaws (I := IN) cmp_node}.
Context {LXL : AssocLaws (V := sctp_info_t) (T := TXL) cmp_uint16_wrapper}
  {LXR : AssocLaws (V := Z) (T := TXR) cmp_sctp_info_wrapper}
  {ILXL : AssocIterLaws (V := sctp_info_t) (I := IXL) cmp_uint16_wrapper}
  {ILXR : AssocIterLaws (V := Z) (I := IXR) cmp_sctp_info_wrapper}.
Context {LML : AssocLaws (V := xapp_ric_id_t) (T := TML) cmp_e2_node_ric_req_wrapper}
  {LMR : AssocLaws (V := e2_node_ric_id_t) (T := TMR) cmp_xapp_ric_gen_id}
  {ILML : AssocIterLaws (V := xapp_ric_id_t) (I := IML) cmp_e2_node_ric_req_wrapper}
  {ILMR : AssocIterLaws (V := e2_node_ric_id_t) (I := IMR) cmp_xapp_ric_gen_id}.
Context (N : list (global_e2_node_id_t * sctp_info_t)) {LR : RicIfLaws R N}.
Context (relock : option Z) (realloc_ok : nat → bool) (junk : subscription_entry_t).
Context (relock_fails : relock ≠ Some 0%Z) (realloc_total : ∀ n, realloc_ok n = true).

Abbreviation iapp := (e42_iapp_t (R := R) (TN := TN) (TXL := TXL) (TXR := TXR) (TML := TML) (TMR := TMR)).
Implicit Types (i : iapp) (a : ia_spec).
Abbreviation sim := (ia_sim N).


Lemma step_message m i a : sim i a →
  simulates sim () (iapp_call_step relock realloc_ok junk (NotifyMsg m) i) (ia_message (ia_notify m) a).
Proof.
  intros Hs. by apply (iapp_step_sim N relock realloc_ok junk relock_fails realloc_total (RicCall (NotifyMsg m)) i a Hs).
Qed.

(** The result of a message that frees nothing. *)
Lemma ia_message_ok h a a' : h (ia_set_fwd (ia_depth a) false a) = Ret a' → ia_freed a' = false →
  ia_message h a = Ret a'.
Proof using Type. intros Hh Hf. unfold ia_message. rewrite Hh. cbn [mbind outcome_bind]. by rewrite Hf. Qed.

(** C15. An indication goes to the connected xApps of exactly the active registry
    entries of its RAN function, once per entry and in the order of the registry,
    and changes nothing else; when it carries a sequence number or a call process
    id and goes to any xApp, these fields are freed twice. *)
Theorem indication_fanout i a ind tos : sim i a →
  reached (ia_addr a) (matching (ran_func_id (ind_ric_id ind)) (ia_regs a)) tos →
  let res := iapp_call_step relock realloc_ok junk (NotifyMsg (RIC_INDICATION ind)) i in
  (shares_fields ind = false → ∃ i', res = Ret ((), i') ∧ sent_xapps i' = ind_msgs ind tos ++ sent_xapps i ∧
     sim i' (ia_set_sent (ind_msgs ind tos ++ ia_sent a) (ia_set_fwd (ia_depth a) false a))) ∧
  (shares_fields ind = true → tos ≠ [] → res = Undef).
Proof.
  intros Hs HL res. pose proof (step_message (RIC_INDICATION ind) i a Hs) as Hst. fold res in Hst. split.
  - intros Hsh. assert (ia_message (ia_notify (RIC_INDICATION ind)) a =
      Ret (ia_set_sent (ind_msgs ind tos ++ ia_sent a) (ia_set_fwd (ia_depth a) false a))) as Hm.
    { apply ia_message_ok; [|done]. exact (ia_forward_ok _ tos ind (ia_set_fwd (ia_depth a) false a) Hsh HL). }
    rewrite Hm in Hst. destruct Hst as (i' & Hr & Hs'). exists i'. split_and!; [done| |done].
    rewrite (sim_sent _ _ _ Hs'), (sim_sent _ _ _ Hs). done.
  - intros Hsh Hne. assert (ia_message (ia_notify (RIC_INDICATION ind)) a = Undef) as Hm.
    { exact (ia_forward_shared _ tos ind (ia_set_fwd (ia_depth a) false a) Hsh eq_refl Hne HL). }
    by rewrite Hm in Hst.
Qed.

(** An xApp that unsubscribed still gets the indications: after the answer to
    the deletion its registry entry is as before, and the next indication of the
    RAN function goes to it too. *)
Theorem unsubscribed_still_notified i a src x to ind tos : sim i a →
  owner (ia_map a) (wrap 16 (ric_req_id (del_ric_id src))) = Some x → same_function (del_ric_id src) x = true →
  addr_of (ia_addr a) (xapp_id x) = Ret to →
  shares_fields ind = false → reached (ia_addr a) (matching (ran_func_id (ind_ric_id ind)) (ia_regs a)) tos →
  let call m := iapp_call_step relock realloc_ok junk (NotifyMsg m) in
  ∃ i', (call (RIC_SUBSCRIPTION_DELETE_RESPONSE src);; call (RIC_INDICATION ind)) i = Ret ((), i') ∧
    sent_xapps i' = ind_msgs ind tos ++
      (to, RIC_SUBSCRIPTION_DELETE_RESPONSE (mk_ric_subscription_delete_response (x_ric_id x))) :: sent_xapps i ∧
    ∀ e, e ∈ ia_regs a → active e = true → e_ran_func_id e = ran_func_id (ind_ric_id ind) →
      wrap 16 (e_xapp_id e) = xapp_id x → to ∈ tos.
Proof.
  intros Hs Ho Hf Ha Hsh HL call.
  set (m := RIC_SUBSCRIPTION_DELETE_RESPONSE (mk_ric_subscription_delete_response (x_ric_id x))).
  set (a0 := ia_set_fwd (ia_depth a) false a).
  set (a1 := ia_set_map (filter (λ p, p.2 ≠ x) (ia_map a)) (ia_send to m a0)).
  assert (ia_message (ia_notify (RIC_SUBSCRIPTION_DELETE_RESPONSE src)) a = Ret a1) as Hm1.
  { apply ia_message_ok; [|done]. fold a0. cbn [ia_notify]. unfold ia_del_resp. cbn [ia_map ia_set_fwd a0].
    rewrite Ho. unfold ia_end_resp. rewrite Hf. cbn [ia_addr ia_set_fwd c_assert mbind outcome_bind a0]. by rewrite Ha. }
  pose proof (step_message (RIC_SUBSCRIPTION_DELETE_RESPONSE src) i a Hs) as H1. rewrite Hm1 in H1.
  destruct H1 as (i1 & Hr1 & Hs1). fold (call (RIC_SUBSCRIPTION_DELETE_RESPONSE src)) in Hr1.
  assert (ia_message (ia_notify (RIC_INDICATION ind)) a1 =
    Ret (ia_set_sent (ind_msgs ind tos ++ ia_sent a1) (ia_set_fwd (ia_depth a1) false a1))) as Hm2.
  { apply ia_message_ok; [|done]. exact (ia_forward_ok _ tos ind (ia_set_fwd (ia_depth a1) false a1) Hsh HL). }
  pose proof (step_message (RIC_INDICATION ind) i1 a1 Hs1) as H2. rewrite Hm2 in H2.
  destruct H2 as (i2 & Hr2 & Hs2). exists i2. split_and!.
  - by rewrite (st_bind_Ret _ _ _ _ _ Hr1).
  - rewrite (sim_sent _ _ _ Hs2). cbn. by rewrite (sim_sent _ _ _ Hs).
  - intros e He Hact Hran Hx. apply (reached_in _ _ _ e to HL); [|by rewrite Hx].
    apply list_elem_of_filter. done.
Qed.

(** *** The disconnection of an xApp *)

Definition del_event (n : e2_node_ric_id_t) : pending_event_ric_t :=
  mk_pending_event_ric SUBSCRIPTION_DELETE_REQUEST_PENDING_EVENT (n_ric_id n).
(** The request to the node, if it is connected. *)
Definition deletion (n : e2_node_ric_id_t) : option (sctp_info_t * e2ap_msg_t) :=
  (λ to, (to, RIC_SUBSCRIPTION_DELETE_REQUEST (mk_ric_subscription_delete_request (n_ric_id n)))) <$>
    node_addr N (e2_node_id n).

Fixpoint ia_delete_all (L : list e2_node_ric_id_t) (s : ric_spec) : outcome ric_spec :=
  match L with
  | [] => Ret s
  | n :: L =>
      s ← ric_spec_step N (FwdDel (e2_node_id n) (mk_ric_subscription_delete_request (n_ric_id n))) s;
      ia_delete_all L s
  end.

Lemma gen_delete_sim L i a : sim i a →
  simulates sim () (gen_e2ap_subs_delete L i) (s ← ia_delete_all L (ia_ric a); Ret (ia_set_ric s a)).
Proof.
  revert i a. induction L as [|n L IH]; intros i a Hs.
  - exists i. split; [done|]. by destruct Hs.
  - cbn [gen_e2ap_subs_delete ia_delete_all]. rewrite outcome_bind_assoc.
    eapply on_ric_bind_sim; [exact Hs|exact (if_del_ok _ _ _ _ (sim_ric _ _ _ Hs))|].
    intros i1 s Hs1. apply (IH i1 (ia_set_ric s a) Hs1).
Qed.

Lemma fmap_sublist {A B} (f : A → B) (l k : list A) : l `sublist_of` k → f <$> l `sublist_of` f <$> k.
Proof using Type. induction 1; cbn; by constructor. Qed.

Lemma deletion_cons n L to : node_addr N (e2_node_id n) = Some to → omap deletion (n :: L) =
  (to, RIC_SUBSCRIPTION_DELETE_REQUEST (mk_ric_subscription_delete_request (n_ric_id n))) :: omap deletion L.
Proof using Type. intros Hto. cbn. unfold deletion at 1. by rewrite Hto. Qed.

Lemma delete_all_ok L s : NoDup (del_event <$> L) →
  Forall (λ n, is_Some (node_addr N (e2_node_id n)) ∧ del_event n ∉ s_pending s) L →
  ia_delete_all L s = Ret (mk_ric_spec (s_req_id s) (s_last_req_id s) (reverse (del_event <$> L) ++ s_pending s)
    (reverse (omap deletion L) ++ s_sent s) (s_to_iapp s)).
Proof.
  revert s. induction L as [|n L IH]; intros s Hnd HF; [by destruct s|].
  apply NoDup_cons in Hnd as [Hn Hnd]. apply Forall_cons in HF as [[[to Hto] Hev] HF].
  cbn [ia_delete_all ric_spec_step sdr_ric_id]. cbv zeta. fold (del_event n). rewrite bool_decide_eq_false_2 by done.
  unfold s_request. rewrite Hto. cbn [mbind outcome_bind]. rewrite IH; [|done|].
  - rewrite (deletion_cons n L to Hto), fmap_cons, !reverse_cons, <-!app_assoc. done.
  - apply Forall_forall. intros m Hm. rewrite Forall_forall in HF. destruct (HF m Hm) as [Hm1 Hm2].
    split; [done|]. cbn. apply not_elem_of_cons. split; [|done]. intros Heq. apply Hn. rewrite <-Heq.
    by apply list_elem_of_fmap_2.
Qed.

(** C27. When an xApp disconnects, the iApp asks for the deletion of all its
    subscriptions and of no other: one request per subscription goes to the node
    of the subscription, if all these nodes are connected and no deletion is
    pending.  The subscriptions, the registry and the address of the xApp stay. *)
Theorem xapp_shutdown_deletes i a x info : sim i a → (x, info) ∈ ia_addr a →
  (∀ n y, (n, y) ∈ ia_map a → xapp_id y = x →
     is_Some (node_addr N (e2_node_id n)) ∧ del_event n ∉ s_pending (ia_ric a)) →
  let s := ia_ric a in
  ∃ L i', L ≡ₚ (filter (λ p, xapp_id p.2 = x) (ia_map a)).*1 ∧ xapp_shutdown relock info i = Ret ((), i') ∧
    length (omap deletion L) = length L ∧
    sim i' (ia_set_ric (mk_ric_spec (s_req_id s) (s_last_req_id s) (reverse (del_event <$> L) ++ s_pending s)
                          (reverse (omap deletion L) ++ s_sent s) (s_to_iapp s)) a).
Proof.
  intros Hs Hin Hall s. pose proof (sim_map _ _ _ Hs) as Hm.
  destruct (find_all_subs_ok relock (map_ric_id i) _ x Hm) as (L & Hfind & HL).
  rewrite (filter_iff_on _ (λ p, xapp_id p.2 = x)) in HL.
  2: { pose proof (sim_coherent _ _ _ Hs) as Hc. eapply Forall_impl; [exact Hc|].
    intros [n y] [_ Ht]. unfold xapp_sub. naive_solver. }
  assert (Forall (λ n, is_Some (node_addr N (e2_node_id n)) ∧ del_event n ∉ s_pending s) L) as HF.
  { rewrite HL. apply Forall_fmap, Forall_forall. intros [n y] [Hy Hny]%list_elem_of_filter. by apply (Hall n y). }
  assert (NoDup (del_event <$> L)) as Hnd.
  { rewrite HL. destruct (map_rep_unique _ _ Hm) as [Hnd _].
    apply (NoDup_fmap_1 (λ e, ric_req_id (RicIds.id e))). rewrite <-!list_fmap_compose.
    eapply sublist_NoDup; [exact Hnd|]. apply (fmap_sublist (λ p : _ * xapp_ric_id_t, node_req p.1)).
    apply sublist_filter. }
  pose proof (gen_delete_sim L i a Hs) as Hdel. fold s in Hdel. rewrite (delete_all_ok L s Hnd HF) in Hdel.
  destruct Hdel as (i' & Hr & Hs'). exists L, i'. split_and!; [done| | |done].
  - unfold xapp_shutdown, rm_if_pending_subs.
    rewrite (st_bind_Ret _ _ _ _ _ (on_xapps_read _ _ _ (find_map_xapps_xid_ok _ _ _ _ (sim_addr _ _ _ Hs) Hin))).
    by rewrite (st_bind_Ret _ _ _ _ _ (on_map_read _ _ _ Hfind)).
  - clear -HF. induction HF as [|n L [[to Hto] _] _ IH]; [done|]. rewrite (deletion_cons n L to Hto). cbn. by f_equal.
Qed.
End iapp.
