(* ===== verification/System.v ===== *)
(** * The near-RT RIC and the iApp together

    A message of a node goes through the near-RT RIC to the iApp and on to an
    xApp; a request of an xApp goes the other way.  The near-RT RIC is any
    implementation of the two interfaces of [RicSpec]. *)
From stdpp Require Import gmap.
From S2P Require Import Prelude AssocSpec AssocIter AssocFree BiMap BiMapFind RicIds E2apMsg RegNodes AddrMaps MapRicId.
From S2P Require Import SubRegistry RicSpec IApp IAppSpec IAppInv IAppProps.
#[local] Set Warnings "-clear-no-such-hyp".
#[local] Set Default Proof Using "All".

(** An event of the iApp, or an answer of a node to the near-RT RIC. *)
Inductive sys_op := Iapp (o : ia_op) | FromNode (info : sctp_info_t) (m : e2ap_msg_t).

(** ** The specification *)

Section spec.
Context (N : list (global_e2_node_id_t * sctp_info_t)) (relock : option Z).

Definition sys_spec_step (o : sys_op) (a : ia_spec) : outcome ia_spec :=
  match o with
  | Iapp o => ia_step N relock o a
  | FromNode _ m =>
      match answer_op m with
      | Some o => s ← ric_spec_step N o (ia_ric a); ia_message (ia_notify m) (ia_set_ric s a)
      | None => Abort
      end
  end.

Definition sys_op_fresh (o : sys_op) (a : ia_spec) : bool :=
  match o with
  | Iapp o => ia_op_fresh o a
  | FromNode _ m => match answer_op m with Some _ => true | None => false end
  end.

Fixpoint sys_spec_run (os : list sys_op) (a : ia_spec) : outcome ia_spec :=
  match os with
  | [] => Ret a
  | o :: os => a' ← sys_spec_step o a; sys_spec_run os a'
  end.

Fixpoint sys_fresh (os : list sys_op) (a : ia_spec) : bool :=
  match os with
  | [] => true
  | o :: os => sys_op_fresh o a && match sys_spec_step o a with Ret a' => sys_fresh os a' | _ => true end
  end.

(** ** Waiting for the answer to a subscription

    No answer for the request id [q], of any kind. *)
Definition answers_id (m : e2ap_msg_t) (q : Z) : bool :=
  match m with
  | RIC_SUBSCRIPTION_RESPONSE r => wrap 16 (ric_req_id (resp_ric_id r)) =? q
  | RIC_SUBSCRIPTION_DELETE_RESPONSE r => wrap 16 (ric_req_id (del_ric_id r)) =? q
  | RIC_CONTROL_ACKNOWLEDGE r => wrap 16 (ric_req_id (ack_ric_id r)) =? q
  | _ => false
  end%Z.

Definition quiet (q : Z) (o : sys_op) : bool :=
  match o with
  | FromNode _ m | Iapp (XappMsg _ m) | Iapp (RicCall (NotifyMsg m)) => negb (answers_id m q)
  | _ => true
  end.

Definition sub_event (m : e42_ric_subscription_request_t) : pending_event_ric_t :=
  mk_pending_event_ric SUBSCRIPTION_REQUEST_PENDING_EVENT (sr_ric_id (sr m)).
Definition sub_req_id (m : e42_ric_subscription_request_t) : Z := wrap 16 (ric_req_id (sr_ric_id (sr m))).

(** The near-RT RIC waits for the answer, the pair and the address are there. *)
Record waiting (m : e42_ric_subscription_request_t) (to : sctp_info_t) (a : ia_spec) : Prop := mk_waiting {
  w_event : sub_event m ∈ s_pending (ia_ric a);
  w_pair : sub_pair m ∈ ia_map a;
  w_addr : addr_of (ia_addr a) (e42_sr_xapp_id m) = Ret to;
  w_coherent : coherent (ia_map a) }.

Lemma s_request_pending q l ev id m s s' e : s_request N q l ev id m s = Ret s' → e ∈ s_pending s → e ∈ s_pending s'.
Proof. unfold s_request. destruct (node_addr N id); [|done]. intros [= <-] He. by right. Qed.

Lemma s_answer_pending ev ok m s s' e : s_answer ev ok m s = Ret s' → e ∈ s_pending s → e ≠ ev → e ∈ s_pending s'.
Proof.
  unfold s_answer. pose proof (remove_one_spec ev (s_pending s)) as Hrm.
  destruct (remove_one ev (s_pending s)) as [l|]; [|done]. destruct ok; [|done]. intros [= <-]. cbn.
  rewrite Hrm. intros [->|He]%elem_of_cons; done.
Qed.

Definition ric_quiet (m : e42_ric_subscription_request_t) (o : ric_op) : Prop :=
  match o with
  | RxSubResp r => wrap 16 (ric_req_id (resp_ric_id r)) ≠ sub_req_id m
  | _ => True
  end.

Lemma ric_step_pending m o s s' : ric_spec_step N o s = Ret s' → ric_quiet m o →
  sub_event m ∈ s_pending s → sub_event m ∈ s_pending s'.
Proof.
  destruct o as [id sr|id sdr|id cr|id f x|resp|resp|ack]; cbn [ric_spec_step ric_quiet]; cbv zeta; intros Hst Hq He.
  - by eapply s_request_pending.
  - case_bool_decide; [by injection Hst as <-|by eapply s_request_pending].
  - by eapply s_request_pending.
  - destruct (x >? 0)%Z; [|done]. cbn [c_assert mbind outcome_bind] in Hst. by eapply s_request_pending.
  - eapply s_answer_pending; [exact Hst|done|]. intros [= Heq]. apply Hq. unfold sub_req_id. by rewrite Heq.
  - by eapply s_answer_pending.
  - by eapply s_answer_pending.
Qed.

(** What the messages do not touch stays. *)
Lemma waiting_same m to a a' : waiting m to a → ia_ric a' = ia_ric a → ia_map a' = ia_map a → ia_addr a' = ia_addr a →
  waiting m to a'.
Proof. intros [] Hr Hm Ha. constructor; congruence. Qed.

Lemma waiting_ric m to a s : waiting m to a → sub_event m ∈ s_pending s → waiting m to (ia_set_ric s a).
Proof. by intros [] He. Qed.

Lemma waiting_end m to a a' i f q x : waiting m to a → owner (ia_map a) q = Some x → q ≠ sub_req_id m →
  ia_end_resp i f x a = Ret a' → waiting m to a'.
Proof.
  intros [He Hp Ha Hc] Ho Hq. unfold ia_end_resp. destruct (same_function i x); [|done].
  destruct (addr_of_cases (ia_addr a) (xapp_id x)) as [[t ->] | ->]; [|done]. intros [= <-].
  destruct (owner_in _ _ _ Ho) as (n & Hin & Hn). unfold coherent in Hc. constructor; cbn; try done.
  - apply list_elem_of_filter. split; [|done]. intros <-. apply Hq. rewrite <-Hn.
    rewrite Forall_forall in Hc. destruct (Hc _ Hin) as [Hx _]. cbn in Hx. unfold node_req. by rewrite Hx.
  - apply Forall_forall. intros p [_ Hin']%list_elem_of_filter. rewrite Forall_forall in Hc. by apply Hc.
Qed.

Lemma waiting_forward m to L ind a a' : waiting m to a → ia_forward L ind a = Ret a' → waiting m to a'.
Proof.
  revert a. induction L as [|e L IH]; intros a Hw; cbn [ia_forward]; [by intros [= <-]|].
  destruct (addr_of_cases (ia_addr a) (wrap 16 (e_xapp_id e))) as [[t ->] | ->]; [|done]. cbn [mbind outcome_bind].
  destruct (sin_port t =? 0)%Z; [by apply IH; eapply waiting_same|].
  destruct (shares_fields ind && ia_freed a); [done|]. apply IH. by eapply waiting_same.
Qed.

Lemma waiting_notify m to msg a a' : waiting m to a → answers_id msg (sub_req_id m) = false →
  ia_notify msg a = Ret a' → waiting m to a'.
Proof.
  intros Hw Hq. destruct msg; try done; cbn [ia_notify answers_id] in *; try apply Z.eqb_neq in Hq.
  - unfold ia_sub_resp. destruct (owner _ _) as [x|]; [|by intros [= <-]].
    destruct (same_function _ _); [|by intros [= <-]].
    destruct (addr_of_cases (ia_addr a) (xapp_id x)) as [[t ->] | ->]; [|done]. cbn [mbind outcome_bind].
    intros [= <-]. destruct (sin_port t =? 0)%Z; [done|]. by eapply waiting_same.
  - unfold ia_del_resp. destruct (owner _ _) as [x|] eqn:Ho; [|by intros [= <-]]. by eapply waiting_end.
  - by apply waiting_forward.
  - unfold ia_ctrl_ack. destruct (owner _ _) as [x|] eqn:Ho; [|done]. by eapply waiting_end.
Qed.

Lemma waiting_message m to h a a' : waiting m to a → (∀ a0 a1, waiting m to a0 → h a0 = Ret a1 → waiting m to a1) →
  ia_message h a = Ret a' → waiting m to a'.
Proof.
  intros Hw Hh. unfold ia_message. intros (a1 & H1 & H)%bind_Ret_inv. destruct (ia_freed a1); [done|].
  injection H as <-. eapply Hh; [|exact H1]. by eapply waiting_same.
Qed.

Lemma waiting_setup m to info rf a a' : waiting m to a → ia_setup info rf a = Ret a' → waiting m to a'.
Proof.
  intros [He Hp Ha Hc]. unfold ia_setup. destruct (0 <? length rf); [|done]. cbn [c_assert mbind outcome_bind].
  destruct (ia_list a) as [nodes| | | |]; try done. cbn [mbind outcome_bind]. case_bool_decide as Hx; [done|].
  intros [= <-]. constructor; try done. cbn. unfold addr_of in *. cbn. rewrite decide_False.
  - by destruct (list_find _ (ia_addr a)) as [[]|].
  - intros Heq. apply Hx. rewrite Heq. clear -Ha.
    destruct (list_find _ (ia_addr a)) as [[j [y t]]|] eqn:Hl; [|done]. apply list_find_Some in Hl as (Hj & Hy & _).
    cbn in Hy. subst y. apply (list_elem_of_fmap_2' fst _ (e42_sr_xapp_id m, t)); [by eapply list_elem_of_lookup_2|done].
Qed.

Lemma waiting_sub_req m to m' a a' : waiting m to a → ia_sub_req N m' a = Ret a' → waiting m to a'.
Proof.
  intros Hw. unfold ia_sub_req. destruct (_ <? _)%Z; [|done]. cbn [c_assert mbind outcome_bind].
  destruct (_ <=? _)%Z; [|by intros [= <-]].
  destruct (addr_of_cases (ia_addr a) (e42_sr_xapp_id m')) as [[t ->] | ->]; [|done]. cbn [mbind outcome_bind].
  destruct (sin_port t =? 0)%Z; [by intros [= <-]|]. intros (s & Hst & [= <-])%bind_Ret_inv.
  assert (waiting m to (ia_set_ric s a)) as Hw'.
  { apply waiting_ric; [done|]. eapply ric_step_pending; [exact Hst|done|]. by apply Hw. }
  unfold ia_record. destruct (wrap 16 _ =? 0)%Z; [done|]. destruct Hw' as [He Hp Ha Hc].
  constructor; cbn; try done; [by right|]. constructor; [done|exact Hc].
Qed.

Lemma waiting_xapp_msg m to info msg a a' : waiting m to a → answers_id msg (sub_req_id m) = false →
  ia_xapp_msg N relock info msg a = Ret a' → waiting m to a'.
Proof.
  intros Hw Hq. destruct msg; cbn [ia_xapp_msg]; try by apply waiting_notify.
  - by apply waiting_setup.
  - by apply waiting_sub_req.
  - unfold ia_del_req. destruct (list_find _ _) as [[j [n x]]|]; [|done]. destruct (bool_decide _); [|done].
    cbn [c_assert mbind outcome_bind]. intros (s & Hst & [= <-])%bind_Ret_inv. apply waiting_ric; [done|].
    eapply ric_step_pending; [exact Hst|done|]. by apply Hw.
  - unfold ia_ctrl_req. destruct (_ <? _)%Z; [|done]. destruct (_ <=? _)%Z; [|done]. cbn [c_assert mbind outcome_bind].
    destruct (ia_list a) as [nodes| | | |]; try done. cbn [mbind outcome_bind]. destruct (existsb _ _); [|done].
    cbn [c_assert mbind outcome_bind]. intros (s & Hst & H)%bind_Ret_inv. destruct relock; [|done]. injection H as <-.
    apply waiting_ric; [done|]. eapply ric_step_pending; [exact Hst|done|]. by apply Hw.
Qed.

Lemma waiting_step m to o a a' : waiting m to a → quiet (sub_req_id m) o = true →
  sys_spec_step o a = Ret a' → waiting m to a'.
Proof.
  intros Hw Hq. destruct o as [[info msg|[msg|id rf cca|id]]|info msg]; cbn [sys_spec_step ia_step quiet] in *.
  - apply negb_true_iff in Hq. apply waiting_message; [done|]. intros a0 a1 Hw0. by apply waiting_xapp_msg.
  - apply negb_true_iff in Hq. apply waiting_message; [done|]. intros a0 a1 Hw0. by apply waiting_notify.
  - intros (L & _ & [= <-])%bind_Ret_inv. by eapply waiting_same.
  - intros (L & _ & [= <-])%bind_Ret_inv. by eapply waiting_same.
  - apply negb_true_iff in Hq. destruct (answer_op msg) as [o|] eqn:Ho; [|done]. intros (s & Hst & H)%bind_Ret_inv.
    revert H. apply waiting_message.
    + apply waiting_ric; [done|]. eapply ric_step_pending; [exact Hst| |by apply Hw].
      destruct msg; try done; injection Ho as <-; cbn in Hq |- *; [by apply Z.eqb_neq in Hq|done|done].
    + intros a0 a1 Hw0. by apply waiting_notify.
Qed.

Lemma waiting_run m to os a a' : waiting m to a → forallb (quiet (sub_req_id m)) os = true →
  sys_spec_run os a = Ret a' → waiting m to a'.
Proof.
  revert a. induction os as [|o os IH]; intros a Hw Hq; cbn [sys_spec_run]; [by intros [= <-]|].
  cbn [forallb] in Hq. apply andb_true_iff in Hq as [Ho Hq]. intros (a1 & H1 & H)%bind_Ret_inv.
  eapply IH; [|done|exact H]. by eapply waiting_step.
Qed.

Lemma owner_ok P n x : NoDup ((λ p : _ * xapp_ric_id_t, node_req p.1) <$> P) → (n, x) ∈ P → owner P (node_req n) = Some x.
Proof.
  intros Hnd Hin. unfold owner. destruct (list_find _ P) as [[j [n' x']]|] eqn:Hl.
  - apply list_find_Some in Hl as (Hj & Hn & _). cbn in Hn |- *. f_equal.
    apply (NoDup_fst_inj ((λ p, (node_req p.1, p.2)) <$> P) (node_req n)).
    + by rewrite <-list_fmap_compose.
    + rewrite <-Hn. apply (list_elem_of_fmap_2' _ _ (n', x')); [by eapply list_elem_of_lookup_2|done].
    + by apply (list_elem_of_fmap_2' _ _ (n, x)).
  - apply list_find_None in Hl. rewrite Forall_forall in Hl. by destruct (Hl _ Hin).
Qed.

(** A subscription that is accepted, and its answer. *)
Definition sub_answer (m : e42_ric_subscription_request_t) : ric_subscription_response_t :=
  mk_ric_subscription_response (sr_ric_id (sr m)) [0%Z] [].

Lemma sub_waiting info m to a a' : coherent (ia_map a) → (0 < sub_req_id m)%Z → sin_port to ≠ 0%Z →
  (e42_sr_xapp_id m <= ia_next a)%Z → addr_of (ia_addr a) (e42_sr_xapp_id m) = Ret to →
  ia_step N relock (XappMsg info (E42_RIC_SUBSCRIPTION_REQUEST m)) a = Ret a' → waiting m to a'.
Proof.
  intros Hc Hq Hp Hx Ha. cbn [ia_step]. unfold ia_message. intros (a1 & H1 & H)%bind_Ret_inv.
  destruct (ia_freed a1); [done|]. injection H as <-. revert H1. cbn [ia_xapp_msg]. unfold ia_sub_req.
  destruct (_ <? _)%Z; [|done]. cbn [c_assert mbind outcome_bind ia_next ia_addr ia_set_fwd].
  rewrite (proj2 (Z.leb_le _ _) Hx), Ha. cbn [mbind outcome_bind]. rewrite (proj2 (Z.eqb_neq _ _) Hp).
  intros (s & Hst & [= <-])%bind_Ret_inv. unfold ia_record. fold (sub_req_id m).
  rewrite (proj2 (Z.eqb_neq (sub_req_id m) 0)) by lia. constructor; cbn.
  - cbn [ric_spec_step] in Hst. unfold s_request in Hst. destruct (node_addr N _); [|done]. injection Hst as <-. left.
  - left.
  - done.
  - constructor; [done|exact Hc].
Qed.

Lemma wait_answer info m to a : waiting m to a → NoDup ((λ p, node_req p.1) <$> ia_map a) → sin_port to ≠ 0%Z →
  (0 <= ric_req_id (sr_ric_id (sr m)) < 2 ^ 16)%Z →
  ∃ a', sys_spec_step (FromNode info (RIC_SUBSCRIPTION_RESPONSE (sub_answer m))) a = Ret a' ∧
    ia_sent a' = (to, RIC_SUBSCRIPTION_RESPONSE (sub_answer m)) :: ia_sent a.
Proof.
  intros [He Hp Ha Hc] Hnd Hport Hq. cbn [sys_spec_step answer_op ric_spec_step]. unfold s_answer.
  change (mk_pending_event_ric _ _) with (sub_event m).
  pose proof (remove_one_spec (sub_event m) (s_pending (ia_ric a))) as Hrm.
  destruct (remove_one _ _) as [l|]; [|done]. cbn [admitted not_admitted sub_answer].
  rewrite bool_decide_eq_true_2 by done. cbn [c_assert mbind outcome_bind].
  assert (owner (ia_map a) (sub_req_id m) = Some (sub_pair m).2) as Ho by (by apply (owner_ok _ (sub_pair m).1)).
  assert (with_req_id (sr_ric_id (sr m)) (sub_req_id m) = sr_ric_id (sr m)) as Hid.
  { unfold sub_req_id. rewrite wrap_id by done. by destruct (sr_ric_id (sr m)). }
  match goal with |- context [ia_message _ ?x] => set (a1 := x) end.
  exists (ia_send to (RIC_SUBSCRIPTION_RESPONSE (sub_answer m)) (ia_set_fwd (ia_depth a1) false a1)). split; [|done].
  apply ia_message_ok; [|done]. cbn [ia_notify]. unfold ia_sub_resp. cbn [resp_ric_id sub_answer ia_map ia_set_fwd ia_set_ric a1].
  fold (sub_req_id m). rewrite Ho. assert (same_function (sr_ric_id (sr m)) (sub_pair m).2 = true) as ->.
  { unfold same_function. cbn. by rewrite !Z.eqb_refl. }
  cbn [sub_pair snd xapp_id x_ric_id]. change (ia_addr (ia_set_fwd _ _ a1)) with (ia_addr a). rewrite Ha. cbn [mbind outcome_bind].
  rewrite (proj2 (Z.eqb_neq _ _) Hport). cbn [ric_req_id with_req_id]. fold (sub_req_id m). by rewrite Hid.
Qed.
End spec.

Section system.
Context {R TN IN TXL TXR IXL IXR TML TMR IML IMR : Type} `{RI : !RicIf R} `{NI : !RicNode R}.
Context `{ON : AssocOps global_e2_node_id_t pair_rf_cca_t TN} `{ION : !AssocIterOps global_e2_node_id_t pair_rf_cca_t TN IN}
  `{FN : !AssocFreeOps global_e2_node_id_t pair_rf_cca_t TN IN}
  `{OXL : AssocOps Z sctp_info_t TXL} `{OXR : AssocOps sctp_info_t Z TXR}
  `{IOXL : !AssocIterOps Z sctp_info_t TXL IXL} `{IOXR : !AssocIterOps sctp_info_t Z TXR IXR}
  `{OML : AssocOps e2_node_ric_id_t xapp_ric_id_t TML} `{OMR : AssocOps xapp_ric_id_t e2_node_ric_id_t TMR}
  `{IOML : !AssocIterOps e2_node_ric_id_t xapp_ric_id_t TML IML}
  `{IOMR : !AssocIterOps xapp_ric_id_t e2_node_ric_id_t TMR IMR}.
Context {LN : AssocLaws (V := pair_rf_cca_t) (T := TN) cmp_node} {ILN : AssocIterLaws (I := IN) cmp_node}
  {FLN : AssocFreeLaws (I := IN) cmp_node}.
Context {LXL : AssocLaws (V := sctp_info_t) (T := TXL) cmp_uint16_wrapper}
  {LXR : AssocLaws (V := Z) (T := TXR) cmp_sctp_info_wrapper}
  {ILXL : AssocIterLaws (V := sctp_info_t) (I := IXL) cmp_uint16_wrapper}
  {ILXR : AssocIterLaws (V := Z) (I := IXR) cmp_sctp_info_wrapper}.
Context {LML : AssocLaws (V := xapp_ric_id_t) (T := TML) cmp_e2_node_ric_req_wrapper}
  {LMR : AssocLaws (V := e2_node_ric_id_t) (T := TMR) cmp_xapp_ric_gen_id}
  {ILML : AssocIterLaws (V := xapp_ric_id_t) (I := IML) cmp_e2_node_ric_req_wrapper}
  {ILMR : AssocIterLaws (V := e2_node_ric_id_t) (I := IMR) cmp_xapp_ric_gen_id}.
Context (N : list (global_e2_node_id_t * sctp_info_t)) {LR : RicIfLaws R N} {LND : RicNodeLaws R N}.
Context (relock : option Z) (realloc_ok : nat → bool) (junk : subscription_entry_t).
Context (relock_fails : relock ≠ Some 0%Z) (realloc_total : ∀ n, realloc_ok n = true).

Abbreviation iapp := (e42_iapp_t (R := R) (TN := TN) (TXL := TXL) (TXR := TXR) (TML := TML) (TMR := TMR)).
Implicit Types (i : iapp) (a : ia_spec).
Abbreviation sim := (ia_sim N).


(** ** The program *)

Fixpoint iapp_calls (l : list iapp_call) : st iapp () :=
  match l with
  | [] => mret ()
  | c :: l => iapp_call_step relock realloc_ok junk c;; iapp_calls l
  end.

Definition node_msg_arrived (info : sctp_info_t) (m : e2ap_msg_t) : st iapp () :=
  calls ← on_ric (node_msg_gen info m);
  iapp_calls calls.

Definition sys_step (o : sys_op) : st iapp () :=
  match o with
  | Iapp o => iapp_step relock realloc_ok junk o
  | FromNode info m => node_msg_arrived info m
  end.

Fixpoint sys_run (os : list sys_op) : st iapp () :=
  match os with
  | [] => mret ()
  | o :: os => sys_step o;; sys_run os
  end.

Lemma sys_step_sim o i a : sim i a → sys_op_fresh o a = true →
  simulates sim () (sys_step o i) (sys_spec_step N relock o a).
Proof.
  intros Hs Hfr. destruct o as [o|info m]; [by apply iapp_step_sim|]. cbn in Hfr |- *.
  destruct (answer_op m) as [o|] eqn:Hm; [|done]. unfold node_msg_arrived.
  eapply on_ric_bind_sim; [exact Hs|exact (node_answer_ok _ _ info m o (sim_ric _ _ _ Hs) Hm)|].
  intros i1 s Hs1. cbn [iapp_calls]. eapply simulates_ret. by apply (step_message N).
Qed.

Lemma sys_run_sim os i a : sim i a → sys_fresh N relock os a = true →
  simulates sim () (sys_run os i) (sys_spec_run N relock os a).
Proof.
  revert i a. induction os as [|o os IH]; intros i a Hs Hfr; [by exists i|].
  cbn [sys_fresh] in Hfr. apply andb_true_iff in Hfr as [Ho Hfr].
  apply (simulates_bind _ _ _ _ _ _ _ _ (sys_step_sim o i a Hs Ho)).
  intros i1 a1 Ha1 Hs1. rewrite Ha1 in Hfr. by apply IH.
Qed.

(** The state the iApp starts in. *)
Lemma sim_init x m r s : bm_rep cmp_uint16_wrapper cmp_sctp_info_wrapper x [] → map_rep m [] → if_sim r s →
  sim (init_e42_iapp x m r) (ia_init s).
Proof.
  intros Hx Hm Hr. constructor; cbn; try done; [apply init_reg_rep| |].
  - split_and!; [apply a_init_ok|apply SSorted_nil|apply Forall_nil_2].
  - apply Forall_nil_2.
Qed.



(** C26. A control request is never answered: the RIC forwards it, but the iApp,
    which holds the lock of its request ids already, does not record the request,
    and the acknowledgement of the node aborts the RIC, unless its id is the one of
    a subscription of the same RAN function. *)
Theorem control_ack_aborts i a rc info info' m nodes to : sim i a → relock = Some rc →
  (e42_cr_xapp_id m <= ia_next a)%Z → (e42_cr_xapp_id m < 2 ^ 16)%Z →
  ia_list a = Ret nodes → existsb (λ n, eq_node (enc_id n) (e42_cr_id m)) nodes = true →
  node_addr N (e42_cr_id m) = Some to → ia_op_fresh (XappMsg info (E42_RIC_CONTROL_REQUEST m)) a = true →
  let g := cr_ric_id (ctrl_with_id (ctrl_req m) (s_req_id (ia_ric a))) in
  match owner (ia_map a) (wrap 16 (ric_req_id g)) with Some x => same_function g x = false | None => True end →
  let req := xapp_msg_arrived relock realloc_ok junk info (E42_RIC_CONTROL_REQUEST m) in
  (∃ i', req i = Ret ((), i')) ∧
  (req;; node_msg_arrived info' (RIC_CONTROL_ACKNOWLEDGE (mk_ric_control_acknowledge g None None))) i = Abort.
Proof.
  intros Hs Hrc Hx Hx16 Hnodes Hknown Hto Hfr g Ho req.
  set (s1 := mk_ric_spec (to_int32 (s_req_id (ia_ric a) + 1)) (s_last_req_id (ia_ric a))
    (mk_pending_event_ric CONTROL_REQUEST_PENDING_EVENT g :: s_pending (ia_ric a))
    ((to, RIC_CONTROL_REQUEST (ctrl_with_id (ctrl_req m) (s_req_id (ia_ric a)))) :: s_sent (ia_ric a)) (s_to_iapp (ia_ric a))).
  set (a1 := ia_set_ric s1 (ia_set_fwd (ia_depth a) false a)).
  assert (ia_step N relock (XappMsg info (E42_RIC_CONTROL_REQUEST m)) a = Ret a1) as H1.
  { apply ia_message_ok; [|done]. cbn [ia_xapp_msg]. unfold ia_ctrl_req. cbn [ia_next ia_set_fwd].
    rewrite (proj2 (Z.ltb_lt _ _) Hx16), (proj2 (Z.leb_le _ _) Hx). change (ia_list (ia_set_fwd _ _ a)) with (ia_list a).
    rewrite Hnodes. cbn [c_assert mbind outcome_bind]. rewrite Hknown. cbn [c_assert mbind outcome_bind ric_spec_step ia_ric ia_set_fwd].
    cbv zeta. unfold s_request. rewrite Hto, Hrc. done. }
  pose proof (sys_step_sim (Iapp (XappMsg info (E42_RIC_CONTROL_REQUEST m))) i a Hs Hfr) as Hst.
  cbn [sys_spec_step sys_step iapp_step] in Hst. rewrite H1 in Hst. destruct Hst as (i1 & Hi1 & Hs1). fold req in Hi1.
  split; [by exists i1|]. rewrite (st_bind_Ret _ _ _ _ _ Hi1).
  pose proof (sys_step_sim (FromNode info' (RIC_CONTROL_ACKNOWLEDGE (mk_ric_control_acknowledge g None None))) i1 a1 Hs1 eq_refl) as H2.
  assert (sys_spec_step N relock (FromNode info' (RIC_CONTROL_ACKNOWLEDGE (mk_ric_control_acknowledge g None None))) a1 = Abort) as Hab.
  { cbn [sys_spec_step answer_op ric_spec_step]. unfold s_answer. cbn [a1 s1 ia_ric ia_set_ric s_pending ack_ric_id remove_one].
    rewrite bool_decide_eq_true_2 by done. cbn [c_assert mbind outcome_bind].
    unfold ia_message. cbn [ia_notify]. unfold ia_ctrl_ack. cbn [ia_map ia_set_fwd ia_set_ric ack_ric_id].
    destruct (owner _ _) as [x|]; [|done]. unfold ia_end_resp. by rewrite Ho. }
  by rewrite Hab in H2.
Qed.
End system.
