(* ===== verification/SystemRb.v ===== *)
(** * The near-RT RIC and the iApp over red-black trees

    The near-RT RIC of [NearRic] under the iApp, both over the red-black tree, and
    the theorems at concrete programs. *)
From stdpp Require Import gmap.
From S2P Require Import Prelude AssocSpec RbTree RbMap RbAssoc AssocIter AssocFree BiMap BiMapRb RicIds E2apMsg RegNodes AddrMaps MapRicId.
From S2P Require Import SubRegistry NearRic RicSpec NearRicInv NearRicRb IApp IAppSpec IAppInv IAppProps System.
#[local] Set Warnings "-clear-no-such-hyp".
#[local] Open Scope Z_scope.

Abbreviation rb_near_ric := (near_ric_t (TL := assoc_rb_tree_t Z pending_event_ric_t) (TR := assoc_rb_tree_t pending_event_ric_t Z)
  (TEL := assoc_rb_tree_t global_e2_node_id_t sctp_info_t) (TER := assoc_rb_tree_t sctp_info_t global_e2_node_id_t)
  (TP := assoc_rb_tree_t Z positive) (TS := assoc_rb_tree_t Z (sm_ric_t () ())) (D := ())).

(** The near-RT RIC with the node of [ex_N] connected. *)
#[local] Instance rb_ric_if : RicIf rb_near_ric := near_ric_if next_fd.
#[local] Instance rb_ric_if_laws : RicIfLaws rb_near_ric ex_N := near_ric_if_laws ex_N next_fd next_fd_fresh.
#[local] Instance rb_ric_node : RicNode rb_near_ric := near_ric_node.
#[local] Instance rb_ric_node_laws : RicNodeLaws rb_near_ric ex_N := near_ric_node_laws ex_N next_fd next_fd_fresh.

(** The lock reports a deadlock, memory is available. *)
Definition EDEADLK : Z := 35.
Definition ex_relock : option Z := Some EDEADLK.
Definition ex_alloc (n : nat) : bool := true.

Definition ex_iapp0 := init_e42_iapp (TN := assoc_rb_tree_t global_e2_node_id_t pair_rf_cca_t)
  (TXL := assoc_rb_tree_t Z sctp_info_t) (TXR := assoc_rb_tree_t sctp_info_t Z)
  (TML := assoc_rb_tree_t e2_node_ric_id_t xapp_ric_id_t) (TMR := assoc_rb_tree_t xapp_ric_id_t e2_node_ric_id_t)
  (bi_map_init true) (mk_map_ric_id (bi_map_init true) Unlocked) ex_ric.
Definition ex_spec0 := ia_init (mk_ric_spec 0 0 [] [] []).

(** The node registers, an xApp connects and subscribes to its RAN function 142. *)
Definition ex_xaddr : sctp_info_t := mk_sctp_info 2 2130706433 36500 [].
Definition ex_rf : ran_function_t := mk_ran_function 142 1 [] [].
Definition ex_cca : e2ap_node_component_config_add_t := mk_node_component_config_add 3 (F1_COMP_ID 7) [1] [2].
Definition ex_xsub : e42_ric_subscription_request_t := mk_e42_ric_subscription_request 7 ex_node ex_sub.
Definition ex_connect : list sys_op :=
  [Iapp (RicCall (AddE2Node ex_node [ex_rf] [ex_cca])); Iapp (XappMsg ex_xaddr (E42_SETUP_REQUEST [ex_rf]))].
Definition ex_subscribe : list sys_op := ex_connect ++ [Iapp (XappMsg ex_xaddr (E42_RIC_SUBSCRIPTION_REQUEST ex_xsub))].

Abbreviation run os := (sys_run ex_relock ex_alloc zero_entry os ex_iapp0).
Definition ex_after (os : list sys_op) := match run os with Ret (_, i) => i | _ => ex_iapp0 end.
Definition ex_spec_after (os : list sys_op) :=
  match sys_spec_run ex_N ex_relock os ex_spec0 with Ret a => a | _ => ex_spec0 end.

Lemma ex_sim_init : ia_sim ex_N ex_iapp0 ex_spec0.
Proof.
  apply (sim_init ex_N ex_relock ex_alloc zero_entry); [done|done|apply (bi_map_init_rep _ _)|split; [apply (bi_map_init_rep _ _)|done]|].
  apply (ric_sim_init ex_N ex_ric (init_armed _) ex_nodes_rep); done.
Qed.

Lemma ex_sim os : sys_fresh ex_N ex_relock os ex_spec0 = true →
  (match sys_spec_run ex_N ex_relock os ex_spec0 with Ret _ => true | _ => false end) = true →
  ia_sim ex_N (ex_after os) (ex_spec_after os).
Proof.
  intros Hfr Hok. pose proof (sys_run_sim ex_N ex_relock ex_alloc zero_entry) as H.
  specialize (H ltac:(done) ltac:(done) os _ _ ex_sim_init Hfr). unfold ex_spec_after, ex_after.
  destruct (sys_spec_run ex_N ex_relock os ex_spec0) as [a| | | |]; try done.
  destruct H as (i & -> & Hs). exact Hs.
Qed.

(** The node answers the subscription, the xApp unsubscribes, the node confirms,
    and an indication comes. *)
Definition ex_del_resp : ric_subscription_delete_response_t := mk_ric_subscription_delete_response (mk_ric_gen_id 1021 0 142).
Definition ex_xind : ric_indication_t := mk_ric_indication (mk_ric_gen_id 1021 0 142) 0 None 0 [1] [2] None.
Definition ex_sys_ops : list sys_op :=
  ex_subscribe ++
  [FromNode ex_addr (RIC_SUBSCRIPTION_RESPONSE (sub_answer ex_xsub));
   Iapp (XappMsg ex_xaddr (E42_RIC_SUBSCRIPTION_DELETE_REQUEST
     (mk_e42_ric_subscription_delete_request 7 (mk_ric_subscription_delete_request (mk_ric_gen_id 1021 0 142)))));
   FromNode ex_addr (RIC_SUBSCRIPTION_DELETE_RESPONSE ex_del_resp);
   Iapp (RicCall (NotifyMsg (RIC_INDICATION ex_xind)))].


(** Another xApp connects between the subscription and its answer. *)
Definition ex_other : list sys_op :=
  [Iapp (XappMsg (mk_sctp_info 2 2130706433 36501 []) (E42_SETUP_REQUEST [ex_rf]))].
Definition ex_asked := match sys_run ex_relock ex_alloc zero_entry
    (Iapp (XappMsg ex_xaddr (E42_RIC_SUBSCRIPTION_REQUEST ex_xsub)) :: ex_other) (ex_after ex_connect) with
  Ret (_, i) => i | _ => ex_iapp0 end.


Definition ex_xctrl : e42_ric_control_request_t := mk_e42_ric_control_request 7 ex_node ex_ctrl.

Lemma control_ack_aborts_witness :
  let req := xapp_msg_arrived ex_relock ex_alloc zero_entry ex_xaddr (E42_RIC_CONTROL_REQUEST ex_xctrl) in
  let g := mk_ric_gen_id 1021 0 145 in
  (∃ i', req (ex_after ex_subscribe) = Ret ((), i')) ∧
  (req;; node_msg_arrived ex_relock ex_alloc zero_entry ex_addr
    (RIC_CONTROL_ACKNOWLEDGE (mk_ric_control_acknowledge g None None))) (ex_after ex_subscribe) = Abort.
Proof.
  apply (control_ack_aborts ex_N ex_relock ex_alloc zero_entry ltac:(done) ltac:(done)
    (ex_after ex_subscribe) (ex_spec_after ex_subscribe) EDEADLK ex_xaddr ex_addr ex_xctrl
    [mk_e2_node_connected ex_node [ex_cca] [ex_rf]] ex_addr);
    [apply ex_sim; vm_compute; reflexivity|vm_compute; done..].
Defined.

Lemma ex_reached :
  reached (ia_addr (ex_spec_after ex_subscribe)) (matching 142 (ia_regs (ex_spec_after ex_subscribe))) [ex_xaddr].
Proof.
  assert (ia_addr (ex_spec_after ex_subscribe) = [(7, ex_xaddr)]) as -> by (vm_compute; reflexivity).
  assert (ia_regs (ex_spec_after ex_subscribe) = [sub_entry ex_xsub]) as -> by (vm_compute; reflexivity).
  constructor; [done|constructor].
Qed.

Lemma indication_fanout_witness :
  ∃ i', iapp_call_step ex_relock ex_alloc zero_entry (NotifyMsg (RIC_INDICATION ex_xind)) (ex_after ex_subscribe) = Ret ((), i') ∧
    sent_xapps i' = (ex_xaddr, RIC_INDICATION ex_xind) :: sent_xapps (ex_after ex_subscribe).
Proof.
  destruct (indication_fanout ex_N ex_relock ex_alloc zero_entry ltac:(done) ltac:(done)
    (ex_after ex_subscribe) (ex_spec_after ex_subscribe) ex_xind [ex_xaddr]) as [(i' & Hr & Hs & _) _].
  - apply ex_sim; vm_compute; reflexivity.
  - exact ex_reached.
  - reflexivity.
  - exists i'. split; [exact Hr|exact Hs].
Defined.

Lemma unsubscribed_still_notified_witness :
  let call m := iapp_call_step ex_relock ex_alloc zero_entry (NotifyMsg m) in
  ∃ i', (call (RIC_SUBSCRIPTION_DELETE_RESPONSE ex_del_resp);; call (RIC_INDICATION ex_xind)) (ex_after ex_subscribe) = Ret ((), i') ∧
    sent_xapps i' = (ex_xaddr, RIC_INDICATION ex_xind) :: (ex_xaddr, RIC_SUBSCRIPTION_DELETE_RESPONSE ex_del_resp) ::
      sent_xapps (ex_after ex_subscribe).
Proof.
  destruct (unsubscribed_still_notified ex_N ex_relock ex_alloc zero_entry ltac:(done) ltac:(done)
    (ex_after ex_subscribe) (ex_spec_after ex_subscribe) ex_del_resp (mk_xapp_ric_id (mk_ric_gen_id 1021 0 142) 7)
    ex_xaddr ex_xind [ex_xaddr]) as (i' & Hr & Hs & _).
  - apply ex_sim; vm_compute; reflexivity.
  - vm_compute. reflexivity.
  - reflexivity.
  - vm_compute. reflexivity.
  - reflexivity.
  - exact ex_reached.
  - exists i'. split; [exact Hr|exact Hs].
Defined.

Lemma xapp_shutdown_deletes_witness :
  ∃ i', xapp_shutdown ex_relock ex_xaddr (ex_after ex_subscribe) = Ret ((), i') ∧
    ia_sim ex_N i' (ia_set_ric (mk_ric_spec 1021 1021
      [del_event (sub_pair ex_xsub).1; sub_event ex_xsub]
      [(ex_addr, RIC_SUBSCRIPTION_DELETE_REQUEST (mk_ric_subscription_delete_request (mk_ric_gen_id 1021 0 142)));
       (ex_addr, RIC_SUBSCRIPTION_REQUEST ex_sub)] []) (ex_spec_after ex_subscribe)).
Proof.
  destruct (xapp_shutdown_deletes ex_N ex_relock ex_alloc zero_entry ltac:(done) ltac:(done)
    (ex_after ex_subscribe) (ex_spec_after ex_subscribe) 7 ex_xaddr) as (L & i' & HL & Hr & _ & Hs).
  - apply ex_sim; vm_compute; reflexivity.
  - vm_compute. left.
  - intros n y Hin _. change (ia_map (ex_spec_after ex_subscribe)) with [sub_pair ex_xsub] in Hin.
    apply list_elem_of_singleton in Hin as [= -> _]. split; [by eexists|]. apply not_elem_of_cons. split; [done|apply not_elem_of_nil].
  - apply Permutation_singleton_r in HL as ->. exists i'. split; [exact Hr|exact Hs].
Defined.
