(* ===== verification/Agent.v ===== *)
(** * The E2 agent

    [src/src/agent/msg_handler_agent.c], [e2_agent.c], [gen_msg_agent.c],
    [asio_agent.c]: the side of the E2 node.  One event at a time; messages sent
    are collected in the state, latest first.  The service models are plugins that
    read and write the RAN, a state of any type. *)
From Stdlib Require Import String.
From stdpp Require Import pretty.
From S2P Require Import Prelude AssocSpec AssocIter AssocFree BiMap BiMapFind RicIds E2apMsg NearRic.
#[local] Set Warnings "-clear-no-such-hyp".
#[local] Open Scope Z_scope.

(** ** Service models, [sm_agent_t] of [src/src/sm/sm_agent.h] *)

Record sm_subs_data_t := mk_sm_subs_data {
  subs_ric_req_id : Z;
  subs_event_trigger : bytes;
  subs_action_def : option bytes }.

Record sm_ind_data_t := mk_sm_ind_data {
  d_ind_hdr : bytes;
  d_ind_msg : bytes;
  d_call_process_id : option bytes }.

(** [sm_ag_if_ans_subs_t]: the period in ms and the data for the indications, or
    the function that ends an aperiodic subscription. *)
Inductive sm_ag_if_ans_subs_t {RAN P : Type} :=
| PERIODIC_SUBSCRIPTION_FLRC (ms : Z) (act_def : P)
| APERIODIC_SUBSCRIPTION_FLRC (free_aper_subs : Z → st RAN ())
| END_SUBSCRIPTION_FLRC.
Arguments sm_ag_if_ans_subs_t : clear implicits.

(** [P]: what the [void*] of a service model points to. *)
Record sm_agent_t {RAN P : Type} := mk_sm_agent {
  ag_sm_id : Z;
  ag_sm_rev : Z;
  ag_sm_oid : bytes;
  ag_on_subscription : sm_subs_data_t → st RAN (sm_ag_if_ans_subs_t RAN P);
  ag_on_indication : P → st RAN (option sm_ind_data_t);
  ag_on_control : bytes → bytes → st RAN bytes;
  ag_on_e2_setup : st RAN bytes }.
Arguments sm_agent_t : clear implicits.
Arguments mk_sm_agent {RAN P} _ _ _ _ _ _ _.

(** ** Indication events, [src/src/lib/ind_event.c] *)

(** [ie_sub]: the type with the union; no service model in a key to search for. *)
Record ind_event_t {RAN P : Type} := mk_ind_event {
  ie_ric_id : ric_gen_id_t;
  ie_sm : option (sm_agent_t RAN P);
  ie_action_id : Z;
  ie_sub : sm_ag_if_ans_subs_t RAN P }.
Arguments ind_event_t : clear implicits.
Arguments mk_ind_event {RAN P} _ _ _ _.

Definition cmp_ind_event {RAN P} (m0 m1 : ind_event_t RAN P) : Z := cmp_ric_gen_id (ie_ric_id m0) (ie_ric_id m1).
Definition eq_ind_event {RAN P} (ric_id : ric_gen_id_t) (ind_ev : ind_event_t RAN P) : bool :=
  eq_ric_gen_id ric_id (ie_ric_id ind_ev).
Definition eq_ind_event_ric_req_id {RAN P} (ric_req : Z) (ind_ev : ind_event_t RAN P) : bool :=
  (ric_req =? ric_req_id (ie_ric_id ind_ev)).

(** [aind_event_t]. *)
Record aind_event_t {RAN P : Type} := mk_aind_event {
  ai_ric_id : ric_gen_id_t;
  ai_sm : option (sm_agent_t RAN P);
  ai_action_id : Z;
  ai_ind_data : P }.
Arguments aind_event_t : clear implicits.
Arguments mk_aind_event {RAN P} _ _ _ _.

Definition eq_fd (fd1 fd2 : Z) : bool := (fd1 =? fd2).

(** [ric_connection_t]; [active] is never read. *)
Record ric_connection_t := mk_ric_connection { ric_addr : string; retry_count : Z }.

Section agent.
(** The containers: [ind_event] and [pending] with their two sides, [plugin.sm_ds]. *)
Context {RAN P TIL TIR IIL IIR TPL TPR IPL IPR TS IS : Type}
  `{OIL : AssocOps Z (ind_event_t RAN P) TIL} `{OIR : AssocOps (ind_event_t RAN P) Z TIR}
  `{IOIL : !AssocIterOps Z (ind_event_t RAN P) TIL IIL} `{IOIR : !AssocIterOps (ind_event_t RAN P) Z TIR IIR}
  `{OPL : AssocOps Z pending_event_t TPL} `{OPR : AssocOps pending_event_t Z TPR}
  `{IOPL : !AssocIterOps Z pending_event_t TPL IPL} `{IOPR : !AssocIterOps pending_event_t Z TPR IPR}
  `{FPL : !AssocFreeOps Z pending_event_t TPL IPL} `{FPR : !AssocFreeOps pending_event_t Z TPR IPR}
  `{OS : AssocOps Z (sm_agent_t RAN P) TS} `{IOS : !AssocIterOps Z (sm_agent_t RAN P) TS IS}.
(** [timerfd_create], given the open descriptors; the socket and the reading end
    of the pipe; what the RAN says of its components; whether a setup request can
    be encoded. *)
Context (timerfd_create : list Z → Z) (ep_fd pipe_r : Z)
  (read_setup_ran : Z → st RAN (list e2ap_node_component_config_add_t))
  (encodes : e2_setup_request_t → bool).

Abbreviation ind_map := (bi_map_t (TL := TIL) (TR := TIR)).
Abbreviation pend_map := (bi_map_t (TL := TPL) (TR := TPR)).
Abbreviation ind_event := (ind_event_t RAN P).

Record e2_agent_t := mk_e2_agent {
  ric_connections : list ric_connection_t;
  init_ric_addr : string;
  connected : bool;              (** [connection_state] *)
  ag_ind_event : ind_map;        (** left: fd, 0 for aperiodic events; right: event *)
  ag_pending : pend_map;         (** left: fd, right: event *)
  ag_aind : list (aind_event_t RAN P);   (** the queue [aind] *)
  ag_pipe : nat;                 (** bytes in the pipe *)
  trans_id_setup_req : Z;        (** uint32_t *)
  global_e2_node_id : global_e2_node_id_t;
  ag_sm_ds : TS;
  open_timers : list Z;          (** in the epoll set *)
  ag_ran : RAN;
  left_loop : bool;              (** the loop returned or the process called [exit] *)
  ag_sent : list e2ap_msg_t }.

Abbreviation M := (st e2_agent_t).

Definition set_conns (x : list ric_connection_t) (a : e2_agent_t) : e2_agent_t :=
  mk_e2_agent x (init_ric_addr a) (connected a) (ag_ind_event a) (ag_pending a) (ag_aind a) (ag_pipe a)
    (trans_id_setup_req a) (global_e2_node_id a) (ag_sm_ds a) (open_timers a) (ag_ran a) (left_loop a) (ag_sent a).
Definition set_connected (x : bool) (a : e2_agent_t) : e2_agent_t :=
  mk_e2_agent (ric_connections a) (init_ric_addr a) x (ag_ind_event a) (ag_pending a) (ag_aind a) (ag_pipe a)
    (trans_id_setup_req a) (global_e2_node_id a) (ag_sm_ds a) (open_timers a) (ag_ran a) (left_loop a) (ag_sent a).
Definition set_ind (x : ind_map) (a : e2_agent_t) : e2_agent_t :=
  mk_e2_agent (ric_connections a) (init_ric_addr a) (connected a) x (ag_pending a) (ag_aind a) (ag_pipe a)
    (trans_id_setup_req a) (global_e2_node_id a) (ag_sm_ds a) (open_timers a) (ag_ran a) (left_loop a) (ag_sent a).
Definition set_pend (x : pend_map) (a : e2_agent_t) : e2_agent_t :=
  mk_e2_agent (ric_connections a) (init_ric_addr a) (connected a) (ag_ind_event a) x (ag_aind a) (ag_pipe a)
    (trans_id_setup_req a) (global_e2_node_id a) (ag_sm_ds a) (open_timers a) (ag_ran a) (left_loop a) (ag_sent a).
Definition set_aind (q : list (aind_event_t RAN P)) (n : nat) (a : e2_agent_t) : e2_agent_t :=
  mk_e2_agent (ric_connections a) (init_ric_addr a) (connected a) (ag_ind_event a) (ag_pending a) q n
    (trans_id_setup_req a) (global_e2_node_id a) (ag_sm_ds a) (open_timers a) (ag_ran a) (left_loop a) (ag_sent a).
Definition set_trans (x : Z) (a : e2_agent_t) : e2_agent_t :=
  mk_e2_agent (ric_connections a) (init_ric_addr a) (connected a) (ag_ind_event a) (ag_pending a) (ag_aind a) (ag_pipe a)
    x (global_e2_node_id a) (ag_sm_ds a) (open_timers a) (ag_ran a) (left_loop a) (ag_sent a).
Definition set_sms (x : TS) (a : e2_agent_t) : e2_agent_t :=
  mk_e2_agent (ric_connections a) (init_ric_addr a) (connected a) (ag_ind_event a) (ag_pending a) (ag_aind a) (ag_pipe a)
    (trans_id_setup_req a) (global_e2_node_id a) x (open_timers a) (ag_ran a) (left_loop a) (ag_sent a).
Definition set_open (x : list Z) (a : e2_agent_t) : e2_agent_t :=
  mk_e2_agent (ric_connections a) (init_ric_addr a) (connected a) (ag_ind_event a) (ag_pending a) (ag_aind a) (ag_pipe a)
    (trans_id_setup_req a) (global_e2_node_id a) (ag_sm_ds a) x (ag_ran a) (left_loop a) (ag_sent a).
Definition set_ran (x : RAN) (a : e2_agent_t) : e2_agent_t :=
  mk_e2_agent (ric_connections a) (init_ric_addr a) (connected a) (ag_ind_event a) (ag_pending a) (ag_aind a) (ag_pipe a)
    (trans_id_setup_req a) (global_e2_node_id a) (ag_sm_ds a) (open_timers a) x (left_loop a) (ag_sent a).
Definition leave_loop (a : e2_agent_t) : e2_agent_t :=
  mk_e2_agent (ric_connections a) (init_ric_addr a) (connected a) (ag_ind_event a) (ag_pending a) (ag_aind a) (ag_pipe a)
    (trans_id_setup_req a) (global_e2_node_id a) (ag_sm_ds a) (open_timers a) (ag_ran a) true (ag_sent a).
(** Encoding and sending to the near-RT RIC. *)
Definition e2ap_send (m : e2ap_msg_t) (a : e2_agent_t) : e2_agent_t :=
  mk_e2_agent (ric_connections a) (init_ric_addr a) (connected a) (ag_ind_event a) (ag_pending a) (ag_aind a) (ag_pipe a)
    (trans_id_setup_req a) (global_e2_node_id a) (ag_sm_ds a) (open_timers a) (ag_ran a) (left_loop a) (m :: ag_sent a).

Definition on_ind {A} (m : st ind_map A) : M A := λ a, '(r, x) ← m (ag_ind_event a); Ret (r, set_ind x a).
Definition on_pend {A} (m : st pend_map A) : M A := λ a, '(r, x) ← m (ag_pending a); Ret (r, set_pend x a).
Definition on_sms {A} (m : st TS A) : M A := λ a, '(r, x) ← m (ag_sm_ds a); Ret (r, set_sms x a).
Definition on_ran {A} (m : st RAN A) : M A := λ a, '(r, x) ← m (ag_ran a); Ret (r, set_ran x a).

(** ** Timers, [src/src/agent/asio_agent.c] *)

Definition create_timer_ms_asio_agent (initial_ms interval_ms : Z) : M Z :=
  st_assert (initial_ms >? -1);;
  st_assert (interval_ms >? -1);;
  ag ← st_get;
  let tfd := timerfd_create (open_timers ag) in
  st_assert (negb (tfd =? -1));;
  st_mod (set_open (tfd :: open_timers ag));;
  mret tfd.

(** A closed descriptor leaves the epoll set; closing one that is not open fails,
    and most callers ignore it. *)
Definition close_fd (fd : Z) : M () := st_mod (λ ag, set_open (filter (λ t, t ≠ fd) (open_timers ag)) ag).

Definition rm_fd_asio_agent (fd : Z) : M () :=
  ag ← st_get;
  st_assert (bool_decide (fd ∈ open_timers ag));;
  close_fd fd.

(** ** Service models, [src/src/agent/plugin_agent.c] *)

Definition sm_plugin_ag (key : Z) : M (sm_agent_t RAN P) :=
  st_assert (key >? 0);;
  it ← on_sms (find_in_tree (eq_ran_func_id key));
  match it with
  | None => st_abort
  | Some it =>
      sm ← on_sms (a_value it);
      st_assert (ag_sm_id sm =? key);;
      mret sm
  end.

(** ** Setup, [src/src/agent/gen_msg_agent.c] *)

(** The loop over the service models: [n] left. *)
Fixpoint setup_ran_func (n : nat) (it : IS) : M (list ran_function_t * IS) :=
  match n with
  | O => mret ([], it)
  | S n =>
      sm ← on_sms (a_value it);
      key ← on_sms (a_key it);
      st_assert (ag_sm_id sm =? key);;
      def ← on_ran (ag_on_e2_setup sm);
      let rf := mk_ran_function (ag_sm_id sm) (ag_sm_rev sm) def (ag_sm_oid sm) in
      it ← on_sms (a_next it);
      '(rfs, it) ← setup_ran_func n it;
      mret (rf :: rfs, it)
  end.

(** [sr.trans_id] has 8 bits. *)
Definition gen_setup_request : M e2_setup_request_t :=
  ag ← st_get;
  let len_rf := a_size (ag_sm_ds ag) in
  st_assert (0 <? len_rf)%nat;;
  let trans_id := wrap 8 (trans_id_setup_req ag) in
  st_mod (set_trans (wrap 32 (trans_id_setup_req ag + 1)));;
  let id := cp_global_e2_node_id (global_e2_node_id ag) in
  it ← on_sms a_front;
  '(ran_func, it) ← setup_ran_func len_rf it;
  end_it ← on_sms a_end;
  st_assert (bool_decide (it = end_it));;
  cca ← on_ran (read_setup_ran (type (global_e2_node_id ag)));
  mret (mk_e2_setup_request trans_id id ran_func cca).

(** *** Pending events *)

(** The loops over the left side: [f] on every key. *)
Fixpoint for_each_fd (fuel : nat) (f : Z → M ()) (start_it end_it : IPL) : M () :=
  match fuel with
  | O => st_no_fuel
  | S fuel =>
    if bool_decide (start_it = end_it) then mret ()
    else
      fd ← on_pend (on_left (a_key start_it));
      f fd;;
      start_it ← on_pend (on_left (a_next start_it));
      for_each_fd fuel f start_it end_it
  end.

Definition for_each_pending (f : Z → M ()) : M () :=
  ag ← st_get;
  start_it ← on_pend (on_left a_front);
  end_it ← on_pend (on_left a_end);
  for_each_fd (S (a_size (left (ag_pending ag)))) f start_it end_it.

(** [bi_map_free] with [free_fd] and [free_pending_ev]; then [init_pending_events]. *)
Definition free_fd (fd : Z) : M () := st_assert (fd >? 0).
Definition free_pending_ev (ev : pending_event_t) : M () := b ← st_lift (valid_pending_event ev); st_assert b.
Definition init_pending_events : M () := st_mod (set_pend (mk_bi_map a_init a_init true)).
Definition free_pending_agent : M () :=
  for_each_pending free_fd;;
  ag ← st_get;
  '(R, _) ← st_lift (a_entries (right (ag_pending ag)));
  foldr (λ e (m : M ()), free_pending_ev e.1;; m) (mret ()) R.

Definition insert_setup_pending (fd : Z) : M () :=
  on_pend (bi_map_insert cmp_fd cmp_pending_event fd SETUP_REQUEST_PENDING_EVENT).

(** [find_if] over the array of connections with [strcmp]. *)
Definition find_connection (l : list ric_connection_t) (addr : string) : option nat :=
  fst <$> list_find (λ c, ric_addr c = addr) l.

Definition bump (c : ric_connection_t) : ric_connection_t := mk_ric_connection (ric_addr c) (retry_count c + 1).

(** A setup request that cannot be encoded takes its timer away again. *)
Definition handle_pending_event : M () :=
  ag ← st_get;
  match find_connection (ric_connections ag) (init_ric_addr ag) with
  | None => mret ()
  | Some i =>
      for_each_pending close_fd;;
      free_pending_agent;;
      init_pending_events;;
      st_mod (λ ag, set_conns (alter bump i (ric_connections ag)) ag);;
      new_timer ← create_timer_ms_asio_agent 1000 0;
      if new_timer <? 0 then mret ()
      else
        insert_setup_pending new_timer;;
        sr ← gen_setup_request;
        (if encodes sr then st_mod (e2ap_send (E2_SETUP_REQUEST sr))
         else close_fd new_timer;; free_pending_agent;; init_pending_events);;
        st_assert (new_timer >? 0)
  end.

Definition free_pending_if_any : M () :=
  sz ← on_pend bi_map_size;
  (if (0 <? sz)%nat then free_pending_agent else mret ());;
  init_pending_events.

Definition handle_connection_shutdown : M () :=
  st_mod (set_connected false);;
  free_pending_if_any;;
  fd_timer ← create_timer_ms_asio_agent 3000 3000;
  if 0 <=? fd_timer then insert_setup_pending fd_timer else mret ().

(** [e2_start_agent], up to its call of the event loop. *)
Definition e2_start_agent : M () :=
  st_mod (set_connected false);;
  free_pending_if_any;;
  fd_timer ← create_timer_ms_asio_agent 3000 3000;
  if fd_timer <? 0 then mret ()
  else
    insert_setup_pending fd_timer;;
    sr ← gen_setup_request;
    if encodes sr then st_mod (e2ap_send (E2_SETUP_REQUEST sr)) else mret ().

(** ** Messages of the near-RT RIC, [src/src/agent/msg_handler_agent.c] *)

Definition not_aperiodic_ind_event (fd : Z) : bool := negb (fd =? 0).

Definition stop_ind_event (id : ric_gen_id_t) : M bool :=
  let tmp := mk_ind_event id None 0 END_SUBSCRIPTION_FLRC in
  it_r ← on_ind (on_right (find_in_tree (eq_ind_event id)));
  match it_r with
  | None => mret false
  | Some it_r =>
      ind_ev ← on_ind (on_right (a_key it_r));
      match ie_sub ind_ev with
      | APERIODIC_SUBSCRIPTION_FLRC free_subs_aperiodic => on_ran (free_subs_aperiodic (ric_req_id id))
      | _ => mret ()
      end;;
      fd ← on_ind (bi_map_extract_right cmp_fd cmp_ind_event tmp);
      st_assert (fd >? -1);;
      (if not_aperiodic_ind_event fd then rm_fd_asio_agent fd else mret ());;
      mret true
  end.

Definition supported_ric_subscription_request (sr : ric_subscription_request_t) : M ric_action_t :=
  match action sr with
  | [act] => st_assert (act_type act =? RIC_ACT_REPORT);; mret act
  | _ => st_abort
  end.

Definition generate_sm_subs_data (sr : ric_subscription_request_t) (act : ric_action_t) : sm_subs_data_t :=
  mk_sm_subs_data (ric_req_id (sr_ric_id sr)) (event_trigger sr) (definition act).

Definition generate_subscription_response (ric_id : ric_gen_id_t) (ric_act_id : Z) : ric_subscription_response_t :=
  mk_ric_subscription_response ric_id [ric_act_id] [].

Definition e2ap_handle_subscription_request_agent (sr : ric_subscription_request_t) : M e2ap_msg_t :=
  act ← supported_ric_subscription_request sr;
  let data := generate_sm_subs_data sr act in
  sm ← sm_plugin_ag (ran_func_id (sr_ric_id sr));
  subs ← on_ran (ag_on_subscription sm data);
  let ev := mk_ind_event (sr_ric_id sr) (Some sm) (act_id act) subs in
  match subs with
  | PERIODIC_SUBSCRIPTION_FLRC ms _ =>
      st_assert (ms <? 10001);;
      fd_timer ← create_timer_ms_asio_agent ms ms;
      on_ind (bi_map_insert cmp_fd cmp_ind_event fd_timer ev)
  | APERIODIC_SUBSCRIPTION_FLRC _ => on_ind (bi_map_insert cmp_fd cmp_ind_event 0 ev)
  | END_SUBSCRIPTION_FLRC => st_abort
  end;;
  mret (RIC_SUBSCRIPTION_RESPONSE (generate_subscription_response (sr_ric_id sr) (act_id act))).

Definition e2ap_handle_subscription_delete_request_agent (sdr : ric_subscription_delete_request_t) : M e2ap_msg_t :=
  _ ← stop_ind_event (sdr_ric_id sdr);
  mret (RIC_SUBSCRIPTION_DELETE_RESPONSE (mk_ric_subscription_delete_response (sdr_ric_id sdr))).

Definition ba_from_ctrl_out (data : bytes) : option bytes :=
  match data with [] => None | _ => Some data end.

Definition e2ap_handle_control_request_agent (ctrl_req : ric_control_request_t) : M e2ap_msg_t :=
  st_assert (bool_decide (ack_req ctrl_req = Some RIC_CONTROL_REQUEST_ACK));;
  sm ← sm_plugin_ag (ran_func_id (cr_ric_id ctrl_req));
  ctrl_ans ← on_ran (ag_on_control sm (cr_hdr ctrl_req) (cr_msg ctrl_req));
  mret (RIC_CONTROL_ACKNOWLEDGE (mk_ric_control_acknowledge (cr_ric_id ctrl_req) None (ba_from_ctrl_out ctrl_ans))).

Definition stop_pending_event (event : pending_event_t) : M () :=
  fd ← on_pend (bi_map_extract_right cmp_fd cmp_pending_event event);
  st_assert (fd >? 0);;
  rm_fd_asio_agent fd.

Definition e2ap_handle_setup_response_agent : M e2ap_msg_t :=
  stop_pending_event SETUP_REQUEST_PENDING_EVENT;;
  ag ← st_get;
  st_assert (trans_id_setup_req ag >? 0);;
  st_mod (set_trans 0);;
  mret NONE_E2_MSG_TYPE.

(** Prints the cause. *)
Definition e2ap_handle_setup_failure_agent (present value : Z) : M e2ap_msg_t :=
  st_assert (present <? 6);;
  st_assert (value <? 11);;
  mret NONE_E2_MSG_TYPE.

(** The other types are not valid here, or their handlers are not implemented. *)
Definition e2ap_msg_handle_agent (msg : e2ap_msg_t) : M e2ap_msg_t :=
  match msg with
  | RIC_SUBSCRIPTION_REQUEST m => e2ap_handle_subscription_request_agent m
  | RIC_SUBSCRIPTION_DELETE_REQUEST m => e2ap_handle_subscription_delete_request_agent m
  | RIC_CONTROL_REQUEST m => e2ap_handle_control_request_agent m
  | E2_SETUP_RESPONSE _ => e2ap_handle_setup_response_agent
  | E2_SETUP_FAILURE present value => e2ap_handle_setup_failure_agent present value
  | _ => st_abort
  end.

(** ** Events, [src/src/agent/e2_agent.c] *)

Definition generate_indication (ric_id : ric_gen_id_t) (action_id : Z) (data : sm_ind_data_t) : ric_indication_t :=
  mk_ric_indication ric_id action_id None 0 (d_ind_hdr data) (d_ind_msg data) (d_call_process_id data).

(** What the socket gives. *)
Inductive sctp_recv := SCTP_MSG_NOTIFICATION | SCTP_MSG_PAYLOAD (m : e2ap_msg_t).

Inductive async_event :=
| CHECK_STOP_TOKEN_EVENT
| SCTP_CONNECTION_SHUTDOWN_EVENT
| SCTP_MSG_ARRIVED_EVENT (m : e2ap_msg_t)
| APERIODIC_INDICATION_EVENT (ai_ev : list (aind_event_t RAN P))
| INDICATION_EVENT (i_ev : ind_event)
| PENDING_EVENT (fd : Z) (p_ev : pending_event_t).

Definition ind_event_of (fd : Z) : M (option ind_event) :=
  st_assert (fd >? 0);;
  on_ind (on_left (find_value (eq_fd fd))).

Definition pend_event (fd : Z) : M (option pending_event_t) :=
  sz ← on_pend bi_map_size;
  if (sz =? 0)%nat then mret None else on_pend (on_left (find_value (eq_fd fd))).

(** [fd]: the descriptor [epoll_wait] reports, -1 for none; [msg]: what the socket
    has, if it is the socket. *)
Definition next_async_event_agent (fd : Z) (msg : sctp_recv) : M async_event :=
  if fd =? -1 then mret CHECK_STOP_TOKEN_EVENT
  else
    st_assert (fd >? 0);;
    if fd =? ep_fd then
      mret match msg with
           | SCTP_MSG_NOTIFICATION => SCTP_CONNECTION_SHUTDOWN_EVENT
           | SCTP_MSG_PAYLOAD m => SCTP_MSG_ARRIVED_EVENT m
           end
    else if fd =? pipe_r then
      ag ← st_get;
      st_assert (0 <? length (ag_aind ag))%nat;;
      st_mod (set_aind [] (ag_pipe ag));;
      mret (APERIODIC_INDICATION_EVENT (ag_aind ag))
    else
      i_ev ← ind_event_of fd;
      match i_ev with
      | Some i_ev => mret (INDICATION_EVENT i_ev)
      | None =>
          p_ev ← pend_event fd;
          match p_ev with
          | Some p_ev => mret (PENDING_EVENT fd p_ev)
          | None => st_abort
          end
      end.

(** A read of 4 bytes blocks on an empty pipe; 1 byte is taken for an error. *)
Definition consume_fd_async : M () := λ ag,
  match Nat.min 4 (ag_pipe ag) with
  | O => Stuck
  | n => (st_assert (negb (n =? 1)%nat);; st_mod (set_aind (ag_aind ag) (ag_pipe ag - n))) ag
  end.

(** The first indication that is sent ends the process. *)
Fixpoint aperiodic_indications (arr : list (aind_event_t RAN P)) : M () :=
  match arr with
  | [] => mret ()
  | ai :: arr =>
      match ai_sm ai with
      | None => st_mod leave_loop
      | Some sm =>
          exp ← on_ran (ag_on_indication sm (ai_ind_data ai));
          match exp with
          | None => consume_fd_async;; aperiodic_indications arr
          | Some data =>
              st_mod (e2ap_send (RIC_INDICATION (generate_indication (ai_ric_id ai) (ai_action_id ai) data)));;
              consume_fd_async;;
              st_mod leave_loop
          end
      end
  end.

(** The timers do not block: [consume_fd_sync] never fails. *)
Definition handle_async_event (e : async_event) : M () :=
  match e with
  | SCTP_MSG_ARRIVED_EVENT msg =>
      ans ← e2ap_msg_handle_agent msg;
      match ans with
      | NONE_E2_MSG_TYPE => mret ()
      | _ => st_mod (e2ap_send ans)
      end
  | APERIODIC_INDICATION_EVENT arr => aperiodic_indications arr
  | INDICATION_EVENT i_ev =>
      match ie_sm i_ev, ie_sub i_ev with
      | Some sm, PERIODIC_SUBSCRIPTION_FLRC _ act_def =>
          exp ← on_ran (ag_on_indication sm act_def);
          match exp with
          | None => mret ()
          | Some data =>
              st_mod (e2ap_send (RIC_INDICATION (generate_indication (ie_ric_id i_ev) (ie_action_id i_ev) data)))
          end
      | _, _ => st_undef
      end
  | PENDING_EVENT fd _ => close_fd fd;; handle_pending_event
  | SCTP_CONNECTION_SHUTDOWN_EVENT => handle_connection_shutdown
  | CHECK_STOP_TOKEN_EVENT => mret ()
  end.

(** One turn of [e2_event_loop_agent]. *)
Definition e2_event_loop_agent (fd : Z) (msg : sctp_recv) : M () :=
  ag ← st_get;
  if left_loop ag then mret ()
  else e ← next_async_event_agent fd msg; handle_async_event e.

(** [e2_async_event_agent]: the RAN announces an aperiodic event; the search is
    tried ten times, always on the same container here. *)
Definition e2_async_event_agent (ric_req_id : Z) (ind_data : P) : M () :=
  it ← on_ind (on_right (find_in_tree (eq_ind_event_ric_req_id ric_req_id)));
  match it with
  | None => st_abort
  | Some it =>
      ind_ev ← on_ind (on_right (a_key it));
      let aind := mk_aind_event (ie_ric_id ind_ev) (ie_sm ind_ev) (ie_action_id ind_ev) ind_data in
      st_mod (λ ag, set_aind (ag_aind ag ++ [aind]) (ag_pipe ag + String.length (pretty (Z.to_N ric_req_id)))%nat ag)
  end.

(** The state [e2_init_agent] builds, with the plugins loaded. *)
Definition e2_init_agent (addr : string) (ric_ip_addresses : list string) (ge2nid : global_e2_node_id_t)
    (ind : ind_map) (sms : TS) (r : RAN) : e2_agent_t :=
  mk_e2_agent ((λ a, mk_ric_connection a 0) <$> ric_ip_addresses) addr false ind (mk_bi_map a_init a_init true) []
    0 0 ge2nid sms [] r false [].
End agent.
