(* ===== verification/Xapp.v ===== *)
(** * The xApp

    [src/src/xApp]: [e42_xapp.c], [e42_xapp_api.c], [msg_handler_xapp.c],
    [msg_generator_xapp.c], [act_proc.c], [pending_event_xapp.c], [asio_xapp.c],
    [sync_ui.c], [plugin_ric.c], [msg_dispatcher_xapp.c], [db/db.c].  Two threads: the user
    calls the API, which sends a request and waits; the event loop handles messages
    and timers.  Messages sent, database rows and calls of the callbacks are
    collected in the state, latest first.  [act_proc] is the registry of [AssocReg];
    the other containers are any implementation of the interface. *)
From S2P Require Import Prelude AssocReg AssocSpec AssocIter AssocFree BiMap BiMapFind RicIds E2apMsg RegNodes NearRic Agent.
#[local] Set Warnings "-clear-no-such-hyp".
#[local] Open Scope Z_scope.

(** ** Pending events *)

Record pending_event_xapp_t := mk_pending_event_xapp {
  x_ev : pending_event_t;
  x_id : ric_gen_id_t;
  wait_ms : Z }.

(** [cmp_pending_event] reads the [pending_event_t] at the address it gets: the first
    field of the struct. *)
Definition cmp_pending_event_xapp (p1 p2 : pending_event_xapp_t) : Z := cmp_pending_event (x_ev p1) (x_ev p2).

(** ** Statistics

    [src/src/sm/agent_if/read/sm_ag_if_rd.c]: the copy and the release of statistics,
    by their type; either may abort. *)
Class StatsOps (D : Type) := {
  cp_sm_ag_if_rd : D → outcome D;
  free_sm_ag_if_rd : D → outcome () }.

(** ** Active procedures *)

Inductive act_proc_val_e := RIC_SUBSCRIPTION_PROCEDURE_ACTIVE | RIC_CONTROL_PROCEDURE_ACTIVE.

(** [CB]: the callbacks of the user. *)
Record act_proc_val_t {CB : Type} := mk_act_proc_val {
  pv_type : act_proc_val_e;
  pv_id : ric_gen_id_t;
  sm_cb : option CB;
  pv_e2_node : global_e2_node_id_t }.
Arguments act_proc_val_t : clear implicits.
Arguments mk_act_proc_val {CB} _ _ _ _.

Section xapp.
(** The containers: [pending] with its two sides, [e2_nodes], the two plugins. *)
Context {CB C D RAN P TPL TPR IPL IPR TN IN TA IA TS IS : Type} `{SO : StatsOps D}
  `{OPL : AssocOps Z pending_event_xapp_t TPL} `{OPR : AssocOps pending_event_xapp_t Z TPR}
  `{IOPL : !AssocIterOps Z pending_event_xapp_t TPL IPL} `{IOPR : !AssocIterOps pending_event_xapp_t Z TPR IPR}
  `{FPL : !AssocFreeOps Z pending_event_xapp_t TPL IPL} `{FPR : !AssocFreeOps pending_event_xapp_t Z TPR IPR}
  `{ON : AssocOps global_e2_node_id_t pair_rf_cca_t TN} `{ION : !AssocIterOps global_e2_node_id_t pair_rf_cca_t TN IN}
  `{FN : !AssocFreeOps global_e2_node_id_t pair_rf_cca_t TN IN}
  `{OA : AssocOps Z (sm_agent_t RAN P) TA} `{IOA : !AssocIterOps Z (sm_agent_t RAN P) TA IA}
  `{OS : AssocOps Z (sm_ric_t C D) TS} `{IOS : !AssocIterOps Z (sm_ric_t C D) TS IS}.
(** [timerfd_create], given the open descriptors; the socket; a value of the registry
    with all bytes zero. *)
Context (timerfd_create : list Z → Z) (ep_fd : Z) (zero : act_proc_val_t CB).

Abbreviation pend_map := (bi_map_t (TL := TPL) (TR := TPR)).
Abbreviation act_proc_t := (assoc_reg_t (act_proc_val_t CB)).

(** A message for the worker of the dispatcher. *)
Record msg_dispatch_t := mk_msg_dispatch { md_rd : D; md_cb : option CB }.

Record e42_xapp_t := mk_e42_xapp {
  xa_id : Z;   (** uint16_t *)
  xa_connected : bool;
  xa_nodes : TN;   (** [e2_nodes] *)
  xa_act_proc : act_proc_t;
  xa_pending : pend_map;   (** left: fd, right: event *)
  xa_timers : list Z;   (** armed, in the epoll set *)
  xa_ready : list Z;   (** timers that expired and were not read: [epoll_wait] reports them *)
  xa_plugin_ag : TA;   (** [plugin_ag.sm_ds] *)
  xa_ran : RAN;   (** what the plugins of [plugin_ag] read *)
  xa_plugin_ric : TS;   (** [plugin_ric.sm_ds] *)
  xa_msg_ack : bool;   (** [sync.flag_sync], [sync.msg_ack]: set, never read *)
  xa_retry_count : Z;   (** local to the event loop *)
  xa_queue : list msg_dispatch_t;   (** [msg_disp.q] *)
  xa_called : list (CB * D);   (** calls of the callbacks of the user *)
  xa_db : list (global_e2_node_id_t * D);   (** rows written to the database *)
  xa_sent : list e2ap_msg_t }.   (** to the iApp *)

Abbreviation M := (st e42_xapp_t).

Definition set_xid (v : Z) (x : e42_xapp_t) : e42_xapp_t :=
  mk_e42_xapp v (xa_connected x) (xa_nodes x) (xa_act_proc x) (xa_pending x) (xa_timers x) (xa_ready x) (xa_plugin_ag x)
    (xa_ran x) (xa_plugin_ric x) (xa_msg_ack x) (xa_retry_count x) (xa_queue x) (xa_called x) (xa_db x)
    (xa_sent x).
Definition set_conn (v : bool) (x : e42_xapp_t) : e42_xapp_t :=
  mk_e42_xapp (xa_id x) v (xa_nodes x) (xa_act_proc x) (xa_pending x) (xa_timers x) (xa_ready x) (xa_plugin_ag x) (xa_ran x)
    (xa_plugin_ric x) (xa_msg_ack x) (xa_retry_count x) (xa_queue x) (xa_called x) (xa_db x) (xa_sent x).
Definition set_nodes (v : TN) (x : e42_xapp_t) : e42_xapp_t :=
  mk_e42_xapp (xa_id x) (xa_connected x) v (xa_act_proc x) (xa_pending x) (xa_timers x) (xa_ready x) (xa_plugin_ag x)
    (xa_ran x) (xa_plugin_ric x) (xa_msg_ack x) (xa_retry_count x) (xa_queue x) (xa_called x) (xa_db x)
    (xa_sent x).
Definition set_act (v : act_proc_t) (x : e42_xapp_t) : e42_xapp_t :=
  mk_e42_xapp (xa_id x) (xa_connected x) (xa_nodes x) v (xa_pending x) (xa_timers x) (xa_ready x) (xa_plugin_ag x) (xa_ran x)
    (xa_plugin_ric x) (xa_msg_ack x) (xa_retry_count x) (xa_queue x) (xa_called x) (xa_db x) (xa_sent x).
Definition set_xpend (v : pend_map) (x : e42_xapp_t) : e42_xapp_t :=
  mk_e42_xapp (xa_id x) (xa_connected x) (xa_nodes x) (xa_act_proc x) v (xa_timers x) (xa_ready x) (xa_plugin_ag x) (xa_ran x)
    (xa_plugin_ric x) (xa_msg_ack x) (xa_retry_count x) (xa_queue x) (xa_called x) (xa_db x) (xa_sent x).
Definition set_xtimers (v r : list Z) (x : e42_xapp_t) : e42_xapp_t :=
  mk_e42_xapp (xa_id x) (xa_connected x) (xa_nodes x) (xa_act_proc x) (xa_pending x) v r (xa_plugin_ag x)
    (xa_ran x) (xa_plugin_ric x) (xa_msg_ack x) (xa_retry_count x) (xa_queue x) (xa_called x) (xa_db x)
    (xa_sent x).
Definition set_plugin_ag (v : TA) (x : e42_xapp_t) : e42_xapp_t :=
  mk_e42_xapp (xa_id x) (xa_connected x) (xa_nodes x) (xa_act_proc x) (xa_pending x) (xa_timers x) (xa_ready x) v (xa_ran x)
    (xa_plugin_ric x) (xa_msg_ack x) (xa_retry_count x) (xa_queue x) (xa_called x) (xa_db x) (xa_sent x).
Definition set_xran (v : RAN) (x : e42_xapp_t) : e42_xapp_t :=
  mk_e42_xapp (xa_id x) (xa_connected x) (xa_nodes x) (xa_act_proc x) (xa_pending x) (xa_timers x) (xa_ready x)
    (xa_plugin_ag x) v (xa_plugin_ric x) (xa_msg_ack x) (xa_retry_count x) (xa_queue x) (xa_called x) (xa_db x)
    (xa_sent x).
Definition set_plugin_ric (v : TS) (x : e42_xapp_t) : e42_xapp_t :=
  mk_e42_xapp (xa_id x) (xa_connected x) (xa_nodes x) (xa_act_proc x) (xa_pending x) (xa_timers x) (xa_ready x)
    (xa_plugin_ag x) (xa_ran x) v (xa_msg_ack x) (xa_retry_count x) (xa_queue x) (xa_called x) (xa_db x)
    (xa_sent x).
Definition set_ack (v : bool) (x : e42_xapp_t) : e42_xapp_t :=
  mk_e42_xapp (xa_id x) (xa_connected x) (xa_nodes x) (xa_act_proc x) (xa_pending x) (xa_timers x) (xa_ready x)
    (xa_plugin_ag x) (xa_ran x) (xa_plugin_ric x) v (xa_retry_count x) (xa_queue x) (xa_called x) (xa_db x)
    (xa_sent x).
Definition set_retry (v : Z) (x : e42_xapp_t) : e42_xapp_t :=
  mk_e42_xapp (xa_id x) (xa_connected x) (xa_nodes x) (xa_act_proc x) (xa_pending x) (xa_timers x) (xa_ready x)
    (xa_plugin_ag x) (xa_ran x) (xa_plugin_ric x) (xa_msg_ack x) v (xa_queue x) (xa_called x) (xa_db x)
    (xa_sent x).
Definition set_queue (v : list msg_dispatch_t) (x : e42_xapp_t) : e42_xapp_t :=
  mk_e42_xapp (xa_id x) (xa_connected x) (xa_nodes x) (xa_act_proc x) (xa_pending x) (xa_timers x) (xa_ready x)
    (xa_plugin_ag x) (xa_ran x) (xa_plugin_ric x) (xa_msg_ack x) (xa_retry_count x) v (xa_called x) (xa_db x)
    (xa_sent x).
Definition add_called (c : CB * D) (x : e42_xapp_t) : e42_xapp_t :=
  mk_e42_xapp (xa_id x) (xa_connected x) (xa_nodes x) (xa_act_proc x) (xa_pending x) (xa_timers x) (xa_ready x)
    (xa_plugin_ag x) (xa_ran x) (xa_plugin_ric x) (xa_msg_ack x) (xa_retry_count x) (xa_queue x)
    (c :: xa_called x) (xa_db x) (xa_sent x).
Definition add_db (r : global_e2_node_id_t * D) (x : e42_xapp_t) : e42_xapp_t :=
  mk_e42_xapp (xa_id x) (xa_connected x) (xa_nodes x) (xa_act_proc x) (xa_pending x) (xa_timers x) (xa_ready x)
    (xa_plugin_ag x) (xa_ran x) (xa_plugin_ric x) (xa_msg_ack x) (xa_retry_count x) (xa_queue x) (xa_called x)
    (r :: xa_db x) (xa_sent x).
(** Encoding and sending to the iApp. *)
Definition xapp_send (m : e2ap_msg_t) (x : e42_xapp_t) : e42_xapp_t :=
  mk_e42_xapp (xa_id x) (xa_connected x) (xa_nodes x) (xa_act_proc x) (xa_pending x) (xa_timers x) (xa_ready x)
    (xa_plugin_ag x) (xa_ran x) (xa_plugin_ric x) (xa_msg_ack x) (xa_retry_count x) (xa_queue x) (xa_called x)
    (xa_db x) (m :: xa_sent x).

Definition on_nodes {A} (m : st TN A) : M A := λ x, '(r, n) ← m (xa_nodes x); Ret (r, set_nodes n x).
Definition on_act {A} (m : st act_proc_t A) : M A := λ x, '(r, p) ← m (xa_act_proc x); Ret (r, set_act p x).
Definition on_xpend {A} (m : st pend_map A) : M A := λ x, '(r, p) ← m (xa_pending x); Ret (r, set_xpend p x).
Definition on_ag {A} (m : st TA A) : M A := λ x, '(r, p) ← m (xa_plugin_ag x); Ret (r, set_plugin_ag p x).
Definition on_xran {A} (m : st RAN A) : M A := λ x, '(r, p) ← m (xa_ran x); Ret (r, set_xran p x).
Definition on_ric {A} (m : st TS A) : M A := λ x, '(r, p) ← m (xa_plugin_ric x); Ret (r, set_plugin_ric p x).

(** ** Active procedures, [act_proc.c] *)

Definition add_act_proc (type : act_proc_val_e) (id : ric_gen_id_t) (e2_node : global_e2_node_id_t)
    (cb : option CB) : st act_proc_t Z :=
  assoc_reg_push_back zero (mk_act_proc_val type id cb (cp_global_e2_node_id e2_node)).

Definition rm_act_proc (ric_req_id : Z) : st act_proc_t () := λ p,
  p ← reg_remove zero ric_req_id p;
  Ret ((), p).

(** The id of the procedure is written into the registry. *)
Definition find_act_proc (ric_req_id : Z) : st act_proc_t (option (act_proc_val_t CB)) := λ p,
  it ← assoc_reg_front p;
  let end_it := assoc_reg_end p in
  it ← find_reg p it end_it ric_req_id;
  if (it =? end_it)%nat then Ret (None, p)
  else
    v ← assoc_reg_value p it;
    let v := mk_act_proc_val (pv_type v) (with_req_id (pv_id v) ric_req_id) (sm_cb v) (pv_e2_node v) in
    b ← rd (rg_arr p) it;
    arr ← wr (rg_arr p) it (mk_bucket (b_key b) (b_has_value b) v);
    Ret (Some v, mk_reg arr (rg_sz p) (rg_cap p) (rg_occ_bucket p) (rg_key_id p)).

(** ** Timers and pending events *)

Definition create_timer_ms_asio_xapp (initial_ms interval_ms : Z) : M Z :=
  st_assert (initial_ms >? 0);;
  st_assert (interval_ms >? 0);;
  x ← st_get;
  let tfd := timerfd_create (xa_timers x) in
  st_assert (negb (tfd =? -1));;
  st_assert (tfd >? 0);;
  st_mod (set_xtimers (tfd :: xa_timers x) (xa_ready x));;
  mret tfd.

Definition rm_fd_asio_xapp (fd : Z) : M () :=
  x ← st_get;
  st_assert (bool_decide (fd ∈ xa_timers x));;
  st_mod (set_xtimers (filter (λ t, t ≠ fd) (xa_timers x)) (filter (λ t, t ≠ fd) (xa_ready x))).

Definition add_pending_event_xapp (ev : pending_event_xapp_t) : M () :=
  st_assert (wait_ms ev >? 0);;
  fd_timer ← create_timer_ms_asio_xapp (wait_ms ev) (wait_ms ev);
  st_assert (fd_timer >? 0);;
  on_xpend (bi_map_insert cmp_fd cmp_pending_event_xapp fd_timer ev).

Definition rm_pending_event_ev (ev : pending_event_xapp_t) : st pend_map Z :=
  sz ← bi_map_size;
  fd ← bi_map_extract_right cmp_fd cmp_pending_event_xapp ev;
  sz' ← bi_map_size;
  st_assert (sz =? sz' + 1)%nat;;
  st_assert (fd >? 0);;
  mret fd.

Definition rm_pending_event_xapp (ev : pending_event_xapp_t) : M () :=
  fd ← on_xpend (rm_pending_event_ev ev);
  rm_fd_asio_xapp fd.

(** ** Service models, [plugin_ric.c] *)

Definition sm_plugin_ric_xapp (ran_func_id : Z) : M (sm_ric_t C D) :=
  st_assert (ran_func_id >? 0);;
  it ← on_ric (find_in_tree (eq_ran_func_id ran_func_id));
  match it with
  | None => st_abort
  | Some it =>
      sm ← on_ric (a_value it);
      st_assert (sm_ran_func_id sm =? ran_func_id);;
      mret sm
  end.

(** ** Requests, [msg_generator_xapp.c] *)

Definition data_len (d : option bytes) : nat := match d with Some b => length b | None => 0%nat end.

Definition generate_subscription_request_xapp (ric_id : ric_gen_id_t) (sm : sm_ric_t C D) (cmd : C) :
    outcome ric_subscription_request_t :=
  data ← on_subscription sm cmd;
  c_assert (data_len data.2 <? 2048)%nat;;
  Ret (mk_ric_subscription_request ric_id data.1 [mk_ric_action 0 RIC_ACT_REPORT data.2]).

Definition generate_ric_control_request (ric_id : ric_gen_id_t) (sm : sm_ric_t C D) (ctrl_msg : C) :
    outcome ric_control_request_t :=
  data ← on_control_req sm ctrl_msg;
  c_assert (length data.1 <? 2049)%nat;;
  c_assert (length data.2 <? 2049)%nat;;
  Ret (mk_ric_control_request ric_id None data.1 data.2 (Some RIC_CONTROL_REQUEST_ACK)).

(** The loop over the service models: [n] left. *)
Fixpoint e42_ran_func (n : nat) (it : IA) : M (list ran_function_t * IA) :=
  match n with
  | O => mret ([], it)
  | S n =>
      sm ← on_ag (a_value it);
      key ← on_ag (a_key it);
      st_assert (ag_sm_id sm =? key);;
      def ← on_xran (ag_on_e2_setup sm);
      let rf := mk_ran_function (ag_sm_id sm) (ag_sm_rev sm) def (ag_sm_oid sm) in
      it ← on_ag (a_next it);
      '(rfs, it) ← e42_ran_func n it;
      mret (rf :: rfs, it)
  end.

Definition generate_e42_setup_request : M (list ran_function_t) :=
  x ← st_get;
  let len_rf := a_size (xa_plugin_ag x) in
  st_assert (0 <? len_rf)%nat;;
  st_assert (len_rf =? a_size (xa_plugin_ric x))%nat;;
  it ← on_ag a_front;
  '(ran_func, it) ← e42_ran_func len_rf it;
  end_it ← on_ag a_end;
  st_assert (bool_decide (it = end_it));;
  mret ran_func.

(** ** Requests to the iApp, [msg_handler_xapp.c]

    [between]: what the event loop does after the message is sent and before the
    pending event is recorded. *)

Definition e2ap_handle_e42_setup_request_xapp : M () :=
  sr ← generate_e42_setup_request;
  st_assert (0 <? length sr)%nat;;
  st_mod (xapp_send (E42_SETUP_REQUEST sr));;
  add_pending_event_xapp (mk_pending_event_xapp E42_SETUP_REQUEST_PENDING_EVENT (mk_ric_gen_id 0 0 0) 1000).

Definition e2ap_handle_e42_ric_subscription_request_xapp (e42_sr : e42_ric_subscription_request_t) : M () :=
  add_pending_event_xapp (mk_pending_event_xapp E42_RIC_SUBSCRIPTION_REQUEST_PENDING_EVENT (sr_ric_id (sr e42_sr)) 5000);;
  st_mod (xapp_send (E42_RIC_SUBSCRIPTION_REQUEST e42_sr)).

Definition e2ap_handle_e42_subscription_delete_request_xapp (between : M ())
    (e42_sdr : e42_ric_subscription_delete_request_t) : M () :=
  st_mod (xapp_send (E42_RIC_SUBSCRIPTION_DELETE_REQUEST e42_sdr));;
  between;;
  add_pending_event_xapp
    (mk_pending_event_xapp E42_RIC_SUBSCRIPTION_DELETE_REQUEST_PENDING_EVENT (sdr_ric_id (sdr e42_sdr)) 10000).

Definition e2ap_handle_e42_ric_control_request_xapp (between : M ()) (cr : e42_ric_control_request_t) : M () :=
  st_mod (xapp_send (E42_RIC_CONTROL_REQUEST cr));;
  between;;
  add_pending_event_xapp
    (mk_pending_event_xapp E42_RIC_CONTROL_REQUEST_PENDING_EVENT (cr_ric_id (ctrl_req cr)) 10000).

(** ** Messages of the iApp *)

Definition signal_sync_ui : M () := st_mod (set_ack true).

(** The procedure of the answer, its pending event and the user. *)
Definition answer_arrived (e : pending_event_t) (ric_id : ric_gen_id_t) : M e2ap_msg_t :=
  rv ← on_act (find_act_proc (wrap 16 (ric_req_id ric_id)));
  match rv with
  | None => st_abort
  | Some v =>
      rm_pending_event_xapp (mk_pending_event_xapp e (pv_id v) 0);;
      signal_sync_ui;;
      mret NONE_E2_MSG_TYPE
  end.

Definition e2ap_handle_subscription_response_xapp (resp : ric_subscription_response_t) : M e2ap_msg_t :=
  answer_arrived E42_RIC_SUBSCRIPTION_REQUEST_PENDING_EVENT (resp_ric_id resp).
Definition e2ap_handle_subscription_delete_response_xapp (resp : ric_subscription_delete_response_t) : M e2ap_msg_t :=
  answer_arrived E42_RIC_SUBSCRIPTION_DELETE_REQUEST_PENDING_EVENT (del_ric_id resp).
Definition e2ap_handle_control_ack_xapp (ack : ric_control_acknowledge_t) : M e2ap_msg_t :=
  answer_arrived E42_RIC_CONTROL_REQUEST_PENDING_EVENT (ack_ric_id ack).

(** The bytes the service model decodes; an empty call process id aborts. *)
Definition ind_sm_payload (src : ric_indication_t) : M () :=
  st_assert (match call_process_id src with Some [] => false | _ => true end).

(** TC statistics are missing here. *)
Definition stats_type_xapp (t : Z) : bool := stats_type t && negb (t =? 4).

Definition send_msg_dispatcher (m : msg_dispatch_t) : M () := st_mod (λ x, set_queue (xa_queue x ++ [m]) x).

(** The thread of the database gets a copy. *)
Definition write_db_xapp (id : global_e2_node_id_t) (rd : D) : M () :=
  d ← st_lift (cp_sm_ag_if_rd rd);
  st_mod (add_db (id, d)).

Definition e2ap_handle_indication_xapp (src : ric_indication_t) : M e2ap_msg_t :=
  sm ← sm_plugin_ric_xapp (ran_func_id (ind_ric_id src));
  ind_sm_payload src;;
  d ← st_lift (on_indication sm src);
  st_assert (stats_type_xapp d.1);;
  ans ← on_act (find_act_proc (wrap 16 (ric_req_id (ind_ric_id src))));
  match ans with
  | None => st_lift (free_sm_ag_if_rd d.2)
  | Some v =>
      write_db_xapp (pv_e2_node v) d.2;;
      send_msg_dispatcher (mk_msg_dispatch d.2 (sm_cb v))
  end;;
  mret NONE_E2_MSG_TYPE.

(** The loop over the nodes of the answer: [n] left. *)
Fixpoint add_nodes (n : nat) (l : list e2_node_connected_t) : M () :=
  match n, l with
  | O, _ => mret ()
  | S n, c :: l => on_nodes (add_reg_e2_node (enc_id c) (ack_rf c) (cca c));; add_nodes n l
  | S _, [] => st_undef
  end.

Definition e2ap_handle_e42_setup_response_xapp (resp : e42_setup_response_t) : M e2ap_msg_t :=
  x ← st_get;
  if xa_connected x then mret NONE_E2_MSG_TYPE
  else
    st_mod (set_xid (resp_xapp_id resp));;
    add_nodes (Z.to_nat (len_e2_nodes_conn resp)) (nodes resp);;
    rm_pending_event_xapp (mk_pending_event_xapp E42_SETUP_REQUEST_PENDING_EVENT (mk_ric_gen_id 0 0 0) 0);;
    st_mod (set_conn true);;
    mret NONE_E2_MSG_TYPE.

(** A control request from the network is sent out.  The other types are not valid
    here, or their handlers are not implemented. *)
Definition e2ap_msg_handle_xapp (msg : e2ap_msg_t) : M e2ap_msg_t :=
  match msg with
  | RIC_SUBSCRIPTION_RESPONSE m => e2ap_handle_subscription_response_xapp m
  | RIC_SUBSCRIPTION_DELETE_RESPONSE m => e2ap_handle_subscription_delete_response_xapp m
  | RIC_INDICATION m => e2ap_handle_indication_xapp m
  | RIC_CONTROL_ACKNOWLEDGE m => e2ap_handle_control_ack_xapp m
  | E42_SETUP_RESPONSE m => e2ap_handle_e42_setup_response_xapp m
  | E42_RIC_CONTROL_REQUEST m => e2ap_handle_e42_ric_control_request_xapp (mret ()) m;; mret NONE_E2_MSG_TYPE
  | _ => st_abort
  end.

(** ** The event loop, [e42_xapp.c] *)

Definition pend_event_xapp (fd : Z) : M pending_event_xapp_t :=
  p_ev ← on_xpend (on_left (find_value (eq_fd fd)));
  match p_ev with Some p_ev => mret p_ev | None => st_abort end.

Definition consume_fd (fd : Z) : M () :=
  st_assert (fd >? 0);;
  x ← st_get;
  st_assert (bool_decide (fd ∈ xa_ready x));;
  st_mod (set_xtimers (xa_timers x) (filter (λ t, t ≠ fd) (xa_ready x))).

Definition timeout_xapp (fd : Z) (p_ev : pending_event_t) : M () :=
  match p_ev with
  | E42_RIC_SUBSCRIPTION_REQUEST_PENDING_EVENT =>
      x ← st_get;
      if xa_retry_count x <? 3 then
        st_mod (set_retry (xa_retry_count x + 1));;
        sr ← generate_e42_setup_request;
        st_mod (xapp_send (E42_SETUP_REQUEST sr));;
        consume_fd fd
      else st_mod (set_retry 0)
  | _ => mret ()
  end.

(** One turn of [e2_event_loop_xapp]: the descriptor of the event, -1 for none, and
    the message if it is the socket. *)
Definition e2_event_loop_xapp (fd : Z) (msg : e2ap_msg_t) : M () :=
  if fd =? -1 then mret ()
  else
    st_assert (fd >? 0);;
    if fd =? ep_fd then
      ans ← e2ap_msg_handle_xapp msg;
      match ans with
      | NONE_E2_MSG_TYPE => mret ()
      | _ => st_mod (xapp_send ans)
      end
    else
      p_ev ← pend_event_xapp fd;
      timeout_xapp fd (x_ev p_ev).

(** A timer expires. *)
Definition timer_expires (fd : Z) (x : e42_xapp_t) : e42_xapp_t :=
  if bool_decide (fd ∈ xa_timers x) && negb (bool_decide (fd ∈ xa_ready x)) then set_xtimers (xa_timers x) (fd :: xa_ready x) x
  else x.

(** One turn of the worker of the dispatcher; it waits while the queue is empty. *)
Definition worker_thread : M () :=
  x ← st_get;
  match xa_queue x with
  | [] => mret ()
  | m :: q =>
      st_mod (set_queue q);;
      match md_cb m with
      | Some cb => st_mod (add_called (cb, md_rd m));; st_lift (free_sm_ag_if_rd (md_rd m))
      | None => st_undef
      end
  end.

(** ** The user, [e42_xapp.c] and [e42_xapp_api.c]

    [wait]: what the event loop does until [cond_wait_sync_ui] returns, for a signal,
    the timeout or no reason. *)

Definition valid_ran_func_id (ran_func_id : Z) : bool :=
  bool_decide (ran_func_id ∈ [145; 142; 143; 144; 146; 148; 2; 3]).

Definition generate_ric_gen_id (type : act_proc_val_e) (ran_func_id : Z) (id : global_e2_node_id_t) (cb : option CB) :
    M ric_gen_id_t :=
  st_assert (valid_ran_func_id ran_func_id);;
  let ric_req := mk_ric_gen_id 0 0 ran_func_id in
  req_id ← on_act (add_act_proc type ric_req id cb);
  st_assert (req_id <? 2 ^ 16);;
  mret (with_req_id ric_req req_id).

Definition send_subscription_request (id : global_e2_node_id_t) (ric_id : ric_gen_id_t) (data : C) : M () :=
  sm ← sm_plugin_ric_xapp (ran_func_id ric_id);
  sr ← st_lift (generate_subscription_request_xapp ric_id sm data);
  x ← st_get;
  e2ap_handle_e42_ric_subscription_request_xapp
    (mk_e42_ric_subscription_request (xa_id x) (cp_global_e2_node_id id) sr).

Definition report_sm_sync_xapp (wait : M ()) (id : global_e2_node_id_t) (rf_id : Z) (data : C) (cb : CB) : M Z :=
  ric_id ← generate_ric_gen_id RIC_SUBSCRIPTION_PROCEDURE_ACTIVE rf_id id (Some cb);
  send_subscription_request id ric_id data;;
  wait;;
  mret (ric_req_id ric_id).

Definition send_ric_subscription_delete (between : M ()) (ric_id : ric_gen_id_t) : M () :=
  x ← st_get;
  e2ap_handle_e42_subscription_delete_request_xapp between
    (mk_e42_ric_subscription_delete_request (xa_id x) (mk_ric_subscription_delete_request ric_id)).

Definition rm_report_sm_sync_xapp (between wait : M ()) (ric_req_id : Z) : M () :=
  st_assert ((ric_req_id >? -1) && (ric_req_id <? 2 ^ 16));;
  ans ← on_act (find_act_proc ric_req_id);
  match ans with
  | None => st_abort
  | Some v =>
      send_ric_subscription_delete between (pv_id v);;
      wait;;
      on_act (rm_act_proc ric_req_id)
  end.

Definition send_control_request (between : M ()) (id : global_e2_node_id_t) (ric_req : ric_gen_id_t) (ctrl_msg : C) : M () :=
  sm ← sm_plugin_ric_xapp (ran_func_id ric_req);
  ctrl_req ← st_lift (generate_ric_control_request ric_req sm ctrl_msg);
  x ← st_get;
  e2ap_handle_e42_ric_control_request_xapp between
    (mk_e42_ric_control_request (xa_id x) (cp_global_e2_node_id id) ctrl_req).

Definition control_sm_sync_xapp (between wait : M ()) (id : global_e2_node_id_t) (ran_func_id : Z) (ctrl_msg : C) : M () :=
  st_assert (valid_ran_func_id ran_func_id);;
  ric_id ← generate_ric_gen_id RIC_CONTROL_PROCEDURE_ACTIVE ran_func_id id None;
  send_control_request between id ric_id ctrl_msg;;
  wait;;
  on_act (rm_act_proc (ric_req_id ric_id)).

(** The search in a copy of the registered nodes. *)
Definition valid_global_e2_node (id : global_e2_node_id_t) : M bool :=
  t ← on_nodes (cp_reg_e2_node (I := IN));
  '(it, _) ← st_lift (find_in_tree (I := IN) (eq_node id) t);
  mret (match it with Some _ => true | None => false end).

Definition valid_sm_id (sm_id : Z) : bool := bool_decide (sm_id ∈ [2; 3; 142; 143; 144; 145; 146; 147; 148]).

Definition report_sm_xapp_api (wait : M ()) (id : global_e2_node_id_t) (rf_id : Z) (data : C) (handler : CB) : M Z :=
  ok ← valid_global_e2_node id;
  st_assert ok;;
  st_assert (valid_sm_id rf_id);;
  report_sm_sync_xapp wait id rf_id data handler.

Definition rm_report_sm_xapp_api (between wait : M ()) (handle : Z) : M () :=
  st_assert (handle >? -1);;
  rm_report_sm_sync_xapp between wait handle.

Definition control_sm_xapp_api (between wait : M ()) (id : global_e2_node_id_t) (ran_func_id : Z) (wr : C) : M () :=
  st_assert (bool_decide (ran_func_id ∈ [142; 145; 146; 3]));;
  control_sm_sync_xapp between wait id ran_func_id wr.

(** The state [init_e42_xapp] builds, with the plugins loaded. *)
Definition init_e42_xapp (ag : TA) (ric : TS) (ran : RAN) : e42_xapp_t :=
  mk_e42_xapp 0 false init_reg_e2_node (assoc_reg_init zero) (mk_bi_map a_init a_init true) [] [] ag ran ric
    false 0 [] [] [] [].
End xapp.
Arguments e42_xapp_t : clear implicits.
Arguments msg_dispatch_t : clear implicits.
