(* ===== verification/SmIf.v ===== *)
(** * Service models: what they exchange with the RAN and the user

    [src/src/sm/agent_if/read/sm_ag_if_rd.h], [agent_if/ans/sm_ag_if_ans.h],
    [sm_io.h] and the commands of the user, for the MAC, RLC, PDCP, slice, TC and GTP
    service models, with the copy and the release of statistics of
    [agent_if/read/sm_ag_if_rd.c].  [SmContract] is what the two halves of a service model, [sm_agent_t] in
    the E2 node and [sm_ric_t] in the RIC and the xApp, promise together. *)
From Stdlib Require Import String Ascii.
From S2P Require Import Prelude CLayout SmCodec.
From S2P Require Import RlcPlain.
From S2P Require Import MacPlain.
From S2P Require Import PdcpPlain.
From S2P Require Import GtpPlain.
From S2P Require SliceData SlicePlain TcData TcPlain.
From S2P Require Import RicIds E2apMsg NearRic Agent Xapp.
#[local] Open Scope Z_scope.

(** ** Strings of C *)

Definition char_code (a : ascii) : Z := Z.of_nat (nat_of_ascii a).

(** [cp_str_to_ba], and the bytes [memcpy] takes from a string. *)
Definition str_bytes (s : string) : bytes := char_code <$> list_ascii_of_string s.

(** [strncmp(s1, s2, n)]: a string has no character 0 and ends with one. *)
Fixpoint strncmp (s1 s2 : string) (n : nat) : Z :=
  match n with
  | O => 0
  | S n =>
      match s1, s2 with
      | EmptyString, EmptyString => 0
      | EmptyString, String b _ => - char_code b
      | String a _, EmptyString => char_code a
      | String a s1, String b s2 => if char_code a =? char_code b then strncmp s1 s2 n else char_code a - char_code b
      end
  end.

(** The periods of a report a user can ask for. *)
Definition period_ms (cmd : string) : outcome Z :=
  let same s := strncmp cmd s 1000 =? 0 in
  if same "1_ms"%string then Ret 1
  else if same "2_ms"%string then Ret 2
  else if same "5_ms"%string then Ret 5
  else if same "10_ms"%string then Ret 10
  else if same "100_ms"%string then Ret 100
  else if same "1000_ms"%string then Ret 1000
  else Abort.

(** ** Control requests *)

Record mac_ctrl_req_data_t := mk_mac_ctrl_req_data { mac_cr_hdr : mac_ctrl_hdr_t; mac_cr_msg : mac_ctrl_msg_t }.
Record rlc_ctrl_req_data_t := mk_rlc_ctrl_req_data { rlc_cr_hdr : rlc_ctrl_hdr_t; rlc_cr_msg : rlc_ctrl_msg_t }.
Record pdcp_ctrl_req_data_t := mk_pdcp_ctrl_req_data { pdcp_cr_hdr : pdcp_ctrl_hdr_t; pdcp_cr_msg : pdcp_ctrl_msg_t }.
Record gtp_ctrl_req_data_t := mk_gtp_ctrl_req_data { gtp_cr_hdr : gtp_ctrl_hdr_t; gtp_cr_msg : gtp_ctrl_msg_t }.

(** What the [void*] of the user points to. *)
Inductive user_data :=
| USER_NULL
| USER_STR (cmd : string)
| USER_MAC_CTRL (req : mac_ctrl_req_data_t)
| USER_RLC_CTRL (req : rlc_ctrl_req_data_t)
| USER_PDCP_CTRL (req : pdcp_ctrl_req_data_t)
| USER_GTP_CTRL (req : gtp_ctrl_req_data_t)
| USER_SLICE_CTRL (req : SliceData.slice_ctrl_req_data_t)
| USER_TC_CTRL (req : TcData.tc_ctrl_req_data_t).

(** ** Statistics *)

Inductive sm_ag_if_rd_ind_t :=
| MAC_STATS_V0 (mac : mac_ind_data_t)
| RLC_STATS_V0 (rlc : rlc_ind_data_t)
| PDCP_STATS_V0 (pdcp : pdcp_ind_data_t)
| SLICE_STATS_V0 (slice : SliceData.slice_ind_data_t)
| TC_STATS_V0 (tc : TcData.tc_ind_data_t)
| GTP_STATS_V0 (gtp : gtp_ind_data_t).

(** The value of the tag, [sm_ag_if_rd_ind_e]. *)
Definition rd_ind_type (d : sm_ag_if_rd_ind_t) : Z :=
  match d with
  | MAC_STATS_V0 _ => 0
  | RLC_STATS_V0 _ => 1
  | PDCP_STATS_V0 _ => 2
  | SLICE_STATS_V0 _ => 3
  | TC_STATS_V0 _ => 4
  | GTP_STATS_V0 _ => 5
  end.

(** The release of the message of each kind; NULL is the empty array. *)
Definition free_mac_ind_msg (src : mac_ind_msg_t) : outcome () :=
  if 0 <? len_ue_stats src then c_assert (match ue_stats src with [] => false | _ => true end) else Ret ().
Definition free_rlc_ind_msg (src : rlc_ind_msg_t) : outcome () :=
  if 0 <? RlcPlain.len src then c_assert (match RlcPlain.rb src with [] => false | _ => true end) else Ret ().
Definition free_gtp_ind_msg (src : gtp_ind_msg_t) : outcome () :=
  if 0 <? GtpPlain.len src then c_assert (match ngut src with None => false | Some _ => true end) else Ret ().

(** Their headers own nothing; a call process id is freed, NULL or not, but by slice and TC. *)
Definition free_sm_ag_if_rd_ind (d : sm_ag_if_rd_ind_t) : outcome () :=
  match d with
  | MAC_STATS_V0 x => free_mac_ind_msg (MacPlain.ind_msg x)
  | RLC_STATS_V0 x => free_rlc_ind_msg (RlcPlain.ind_msg x)
  | PDCP_STATS_V0 x => free_pdcp_ind_msg (PdcpPlain.ind_msg x)
  | SLICE_STATS_V0 x => SliceData.free_slice_ind_data x
  | TC_STATS_V0 x => TcData.free_tc_ind_data x
  | GTP_STATS_V0 x => free_gtp_ind_msg (GtpPlain.ind_msg x)
  end.

Definition cp_sm_ag_if_rd_ind (d : sm_ag_if_rd_ind_t) : outcome sm_ag_if_rd_ind_t :=
  match d with
  | MAC_STATS_V0 x => x ← cp_mac_ind_data x; Ret (MAC_STATS_V0 x)
  | RLC_STATS_V0 x => x ← cp_rlc_ind_data x; Ret (RLC_STATS_V0 x)
  | PDCP_STATS_V0 x => x ← cp_pdcp_ind_data x; Ret (PDCP_STATS_V0 x)
  | SLICE_STATS_V0 x => x ← SliceData.cp_slice_ind_data x; Ret (SLICE_STATS_V0 x)
  | TC_STATS_V0 x => x ← TcData.cp_tc_ind_data x; Ret (TC_STATS_V0 x)
  | GTP_STATS_V0 x => x ← cp_gtp_ind_data x; Ret (GTP_STATS_V0 x)
  end.

#[export] Instance stats_ops : StatsOps sm_ag_if_rd_ind_t :=
  {| cp_sm_ag_if_rd := cp_sm_ag_if_rd_ind; free_sm_ag_if_rd := free_sm_ag_if_rd_ind |}.

(** What the [void* act_def] of an indication points to: nothing, or the
    [sm_ind_data_t] of an event of the RAN, whose [ind_msg] points to a
    [gtp_ind_msg_t] or is NULL. *)
Inductive act_def_t := AD_NULL | AD_IND (ind_msg : option gtp_ind_msg_t).
Definition ad_is_null (d : act_def_t) : bool := match d with AD_NULL => true | _ => false end.

(** ** Answers of the RAN *)

Inductive sm_ag_if_ans_ctrl_e :=
| MAC_AGENT_IF_CTRL_ANS_V0 | RLC_AGENT_IF_CTRL_ANS_V0 | PDCP_AGENT_IF_CTRL_ANS_V0 | SLICE_AGENT_IF_CTRL_ANS_V0
| TC_AGENT_IF_CTRL_ANS_V0 | GTP_AGENT_IF_CTRL_ANS_V0 | RAN_CTRL_V1_3_AGENT_IF_CTRL_ANS_V0.
#[export] Instance sm_ag_if_ans_ctrl_e_dec : EqDecision sm_ag_if_ans_ctrl_e.
Proof. solve_decision. Defined.

(** The largest member of the union is that of slice; the others are an enumeration,
    which the one of slice starts with. *)
Record sm_ag_if_ans_ctrl_t := mk_ans_ctrl_slice { ans_ctrl_type : sm_ag_if_ans_ctrl_e; ans_ctrl_slice : SliceData.slice_ctrl_out_t }.
Definition mk_ans_ctrl (type : sm_ag_if_ans_ctrl_e) (ans : Z) : sm_ag_if_ans_ctrl_t :=
  mk_ans_ctrl_slice type (SliceData.mk_slice_ctrl_out ans 0 None).
Definition ans_ctrl_ans (a : sm_ag_if_ans_ctrl_t) : Z := SliceData.sl_ans (ans_ctrl_slice a).

Inductive sm_ag_if_ans_t :=
| CTRL_OUTCOME_SM_AG_IF_ANS_V0 (ctrl_out : sm_ag_if_ans_ctrl_t)
| SUBS_OUTCOME_SM_AG_IF_ANS_V0
| NONE_SM_AG_IF_ANS_V0.

(** The functions of the RAN, [sm_io_ag_ran_t], over its state: they fill the data
    they get, whose memory is zero, and tell whether there are any. *)
Record sm_io_ag_ran_t {RAN : Type} := mk_sm_io_ag_ran {
  read_mac : mac_ind_data_t → st RAN (bool * mac_ind_data_t);
  read_rlc : rlc_ind_data_t → st RAN (bool * rlc_ind_data_t);
  read_pdcp : pdcp_ind_data_t → st RAN (bool * pdcp_ind_data_t);
  read_gtp : gtp_ind_data_t → st RAN (bool * gtp_ind_data_t);
  read_slice : SliceData.slice_ind_data_t → st RAN (bool * SliceData.slice_ind_data_t);
  read_tc : TcData.tc_ind_data_t → st RAN (bool * TcData.tc_ind_data_t);
  write_mac : mac_ctrl_req_data_t → st RAN sm_ag_if_ans_t;
  write_rlc : rlc_ctrl_req_data_t → st RAN sm_ag_if_ans_t;
  write_pdcp : pdcp_ctrl_req_data_t → st RAN sm_ag_if_ans_t;
  write_gtp : gtp_ctrl_req_data_t → st RAN sm_ag_if_ans_t;
  write_slice : SliceData.slice_ctrl_req_data_t → st RAN sm_ag_if_ans_t;
  write_tc : TcData.tc_ctrl_req_data_t → st RAN sm_ag_if_ans_t }.
Arguments sm_io_ag_ran_t : clear implicits.

Definition zero_mac_data : mac_ind_data_t := mk_mac_ind_data_t (mk_mac_ind_hdr_t 0) (mk_mac_ind_msg_t 0 [] 0) None.
Definition zero_rlc_data : rlc_ind_data_t := mk_rlc_ind_data_t (mk_rlc_ind_hdr_t 0) (mk_rlc_ind_msg_t [] 0 0) None.
Definition zero_pdcp_data : pdcp_ind_data_t := mk_pdcp_ind_data_t (mk_pdcp_ind_hdr_t 0) (mk_pdcp_ind_msg_t 0 [] 0) None.
Definition zero_gtp_data : gtp_ind_data_t :=
  mk_gtp_ind_data_t (mk_gtp_ind_hdr_t 0) (mk_gtp_ind_msg_t None 0 0 zero_ho_info) None.
Definition zero_slice_data : SliceData.slice_ind_data_t :=
  let conf := SliceData.mk_ul_dl_slice_conf 0 [] 0 None in
  SliceData.mk_slice_ind_data (SliceData.mk_slice_ind_hdr 0)
    (SliceData.mk_slice_ind_msg (SliceData.mk_slice_conf conf conf) (SliceData.mk_ue_slice_conf 0 []) 0) None.
Definition zero_tc_data : TcData.tc_ind_data_t :=
  let zero := TcData.mk_tc_dummy 0 in
  TcData.mk_tc_ind_data (TcData.mk_tc_ind_hdr 0)
    (TcData.mk_tc_ind_msg (TcData.TC_SCHED_RR zero) (TcData.mk_tc_pcr 0 0 (TcData.mk_tc_mtr 0 0)) (TcData.TC_CLS_RR zero) 0 [] [] [] 0) None.

(** ** What the two halves of a service model promise

    [period]: the periods a user can ask for.  [reads r d r']: in state [r] the RAN has statistics, which the user shall see as
    [d], and is then in [r'].  [takes c r r']: the RAN takes the control request [c]
    of the user. *)
Class SmContract {RAN : Type} (period : string → outcome Z) (ag : sm_agent_t RAN act_def_t) (ric : sm_ric_t user_data sm_ag_if_rd_ind_t)
    (reads : RAN → sm_ag_if_rd_ind_t → RAN → Prop) (takes : user_data → RAN → RAN → Prop) := {
  sm_same_id : ag_sm_id ag = sm_ran_func_id ric;
  (** a report of the period the user asked for *)
  sm_period cmd ms : period cmd = Ret ms →
    ∃ et, on_subscription ric (USER_STR cmd) = Ret (et, None) ∧
      ∀ id ad r, ag_on_subscription ag (mk_sm_subs_data id et ad) r = Ret (PERIODIC_SUBSCRIPTION_FLRC ms AD_NULL, r);
  (** the statistics of the RAN reach the user *)
  sm_stats r d r' : reads r d r' →
    ∃ data, ag_on_indication ag AD_NULL r = Ret (Some data, r') ∧ d_call_process_id data = None ∧
      ∀ id act, on_indication ric (generate_indication id act data) = Ret (rd_ind_type d, d);
  (** they can be released by the RIC and the xApp; their copy is there or aborts *)
  sm_kept r d r' : reads r d r' → free_ind_data ric d = Ret () ∧ free_sm_ag_if_rd_ind d = Ret () ∧
    (cp_sm_ag_if_rd_ind d = Abort ∨ ∃ row, cp_sm_ag_if_rd_ind d = Ret row);
  (** the control request of the user reaches the RAN *)
  sm_control c r r' : takes c r r' →
    ∃ hdr msg out, on_control_req ric c = Ret (hdr, msg) ∧ ag_on_control ag hdr msg r = Ret (out, r') }.

(** ** The laws of the contract, for the plain codecs *)

Lemma period_ms_ok cmd ms : period_ms cmd = Ret ms → u_ok 32 ms ∧ 0 < ms < 10001.
Proof. unfold period_ms, u_ok. repeat case_match; intros [= <-]; lia. Qed.

(** [sm_period]: the encoders of the event trigger write the period, which the decoders read. *)
Tactic Notation "solve_period" reference(ric) reference(ric_sub) reference(enc) reference(ag) reference(ag_sub) reference(dec) :=
  let cmd := fresh in let ms := fresh in let Hms := fresh in let Hu := fresh in
  intros cmd ms Hms; destruct (period_ms_ok _ _ Hms) as [Hu _]; exists (enc_scalar CU32 ms); split;
  [ cbn [on_subscription ric]; unfold ric_sub; cbv beta iota; rewrite Hms, outcome_bind_ret_l; unfold enc; by rewrite fill_scalar
  | intros; cbn [ag_on_subscription ag]; unfold ag_sub, dec; cbn [subs_event_trigger]; by rewrite rd_scalar_whole ].

(** One step of a program that returns. *)
Ltac returns := rewrite (st_bind_Ret _ _ _ _ _ eq_refl).

(** [sm_control]: both halves check the same header and action. *)
Tactic Notation "solve_control" reference(ag) reference(ag_ctrl) reference(dec_hdr) reference(dec_msg) :=
  cbn [ag_on_control ag]; unfold ag_ctrl, dec_hdr, dec_msg; rewrite !dec_whole_enc by by_eval; repeat returns.

(** ** A RAN for examples

    It gives the same data each time, answers every request with 0, and counts. *)
Definition counting_ran (mac : mac_ind_data_t) (rlc : rlc_ind_data_t) (pdcp : pdcp_ind_data_t) (gtp : gtp_ind_data_t)
    (slice : SliceData.slice_ind_data_t) (tc : TcData.tc_ind_data_t) : sm_io_ag_ran_t nat :=
  let read {A} (x : A) (n : nat) := Ret ((true, x), S n) in
  let write {A} (t : sm_ag_if_ans_ctrl_e) (_ : A) (n : nat) := Ret (CTRL_OUTCOME_SM_AG_IF_ANS_V0 (mk_ans_ctrl t 0), S n) in
  mk_sm_io_ag_ran nat (λ _, read mac) (λ _, read rlc) (λ _, read pdcp) (λ _, read gtp) (λ _, read slice) (λ _, read tc)
    (write MAC_AGENT_IF_CTRL_ANS_V0) (write RLC_AGENT_IF_CTRL_ANS_V0) (write PDCP_AGENT_IF_CTRL_ANS_V0)
    (write GTP_AGENT_IF_CTRL_ANS_V0) (write SLICE_AGENT_IF_CTRL_ANS_V0) (write TC_AGENT_IF_CTRL_ANS_V0).

Definition one_of_each : sm_io_ag_ran_t nat :=
  counting_ran (mk_mac_ind_data_t (mk_mac_ind_hdr_t 0) mac_one_ue_msg None)
    (mk_rlc_ind_data_t (mk_rlc_ind_hdr_t 0) (rlc_one_bearer_msg 7) None)
    (mk_pdcp_ind_data_t (mk_pdcp_ind_hdr_t 0) (pdcp_one_bearer_msg 2) None)
    (mk_gtp_ind_data_t (mk_gtp_ind_hdr_t 0) gtp_one_tunnel_msg None)
    (SliceData.mk_slice_ind_data (SliceData.mk_slice_ind_hdr 0) SlicePlain.demo_slices None)
    (TcData.mk_tc_ind_data (TcData.mk_tc_ind_hdr 0) TcPlain.demo_tc None).
