(* ===== verification/MacSm.v ===== *)
(** * MAC service model: the plugins of the E2 node and of the RIC

    [src/src/sm/mac_sm/mac_sm_agent.c] and [mac_sm_ric.c], with the plain codec. *)
From Stdlib Require Import String.
From S2P Require Import Prelude CLayout SmCodec MacPlain RicIds E2apMsg NearRic Agent SmIf.
#[local] Open Scope Z_scope.

Definition SM_MAC_ID : Z := 142.
Definition SM_MAC_REV : Z := 1.
Definition SM_MAC_STR : string := "MAC_STATS_V0".
Definition SM_MAC_OID : string := "0.0.0.0.0.0.0.0.1.142.0".

(** ** The E2 node, [mac_sm_agent.c] *)

Section agent.
Context {RAN : Type} (io : sm_io_ag_ran_t RAN).

Definition on_subscription_mac_sm_ag (data : sm_subs_data_t) : st RAN (sm_ag_if_ans_subs_t RAN act_def_t) :=
  ev ← st_lift (mac_dec_event_trigger_plain (subs_event_trigger data));
  mret (PERIODIC_SUBSCRIPTION_FLRC (et_ms ev) AD_NULL).

(** The statistics the RAN filled are freed at the end, on both ways out. *)
Definition on_indication_mac_sm_ag (act_def : act_def_t) : st RAN (option sm_ind_data_t) :=
  st_assert (ad_is_null act_def);;
  ba_hdr ← st_lift (mac_enc_ind_hdr_plain (mk_mac_ind_hdr_t 0));
  '(ok, mac) ← read_mac io zero_mac_data;
  if ok : bool then
    ba ← st_lift (mac_enc_ind_msg_plain (ind_msg mac));
    st_lift (free_mac_ind_msg (ind_msg mac));;
    mret (Some (mk_sm_ind_data ba_hdr ba None))
  else
    st_lift (free_mac_ind_msg (ind_msg mac));;
    mret None.

Definition on_control_mac_sm_ag (ctrl_hdr ctrl_msg : bytes) : st RAN bytes :=
  hdr ← st_lift (mac_dec_ctrl_hdr_plain ctrl_hdr);
  st_assert (ch_dummy hdr =? 1);;
  msg ← st_lift (mac_dec_ctrl_msg_plain ctrl_msg);
  st_assert (cm_action msg =? 42);;
  _ ← write_mac io (mk_mac_ctrl_req_data (mk_mac_ctrl_hdr_t (ch_dummy hdr)) (mk_mac_ctrl_msg_t (cm_action msg)));
  mret [].

Definition on_e2_setup_mac_sm_ag : st RAN bytes :=
  let sz := String.length SM_MAC_STR in
  st_assert (sz <? 256)%nat;;
  mret (str_bytes SM_MAC_STR).

Definition make_mac_sm_agent : sm_agent_t RAN act_def_t :=
  mk_sm_agent SM_MAC_ID SM_MAC_REV (str_bytes SM_MAC_OID) on_subscription_mac_sm_ag on_indication_mac_sm_ag
    on_control_mac_sm_ag on_e2_setup_mac_sm_ag.
End agent.

(** ** The RIC and the xApp, [mac_sm_ric.c] *)

Definition on_subscription_mac_sm_ric (cmd : user_data) : outcome (bytes * option bytes) :=
  match cmd with
  | USER_STR cmd =>
      ms ← period_ms cmd;
      ba ← mac_enc_event_trigger_plain (mk_mac_event_trigger_t ms);
      Ret (ba, None)
  | USER_NULL => Abort
  | _ => Undef
  end.

(** The type of the statistics and the statistics; the decoded header. *)
Definition on_indication_mac_sm_ric (data : ric_indication_t) : outcome (Z * sm_ag_if_rd_ind_t) :=
  h ← mac_dec_ind_hdr_plain (hdr data);
  m ← mac_dec_ind_msg_plain (msg data);
  c_assert (match call_process_id data with None => true | _ => false end);;
  let rd_if := MAC_STATS_V0 (mk_mac_ind_data_t h m None) in
  Ret (rd_ind_type rd_if, rd_if).

Definition ric_on_control_req_mac_sm_ric (ctrl : user_data) : outcome (bytes * bytes) :=
  match ctrl with
  | USER_NULL => Abort
  | USER_MAC_CTRL req =>
      c_assert (ch_dummy (mac_cr_hdr req) =? 1);;
      c_assert (cm_action (mac_cr_msg req) =? 42);;
      ba_hdr ← mac_enc_ctrl_hdr_plain (mac_cr_hdr req);
      ba ← mac_enc_ctrl_msg_plain (mac_cr_msg req);
      Ret (ba_hdr, ba)
  | _ => Undef
  end.

(** The decoder of the outcome aborts. *)
Definition ric_on_control_out_mac_sm_ric (out : bytes) : outcome sm_ag_if_ans_ctrl_t :=
  ans ← mac_dec_ctrl_out_plain out;
  c_assert (ans =? 0);;
  Ret (mk_ans_ctrl MAC_AGENT_IF_CTRL_ANS_V0 ans).

Definition ric_on_e2_setup_mac_sm_ric (setup : bytes) : bytes := setup.

Definition free_ind_data_mac_sm_ric (rd_ind : sm_ag_if_rd_ind_t) : outcome () :=
  match rd_ind with MAC_STATS_V0 ind => free_mac_ind_msg (ind_msg ind);; c_assert (match ind_proc_id ind with None => true | Some _ => false end) | _ => Abort end.

Definition make_mac_sm_ric : sm_ric_t user_data sm_ag_if_rd_ind_t :=
  mk_sm_ric SM_MAC_ID on_subscription_mac_sm_ric on_indication_mac_sm_ric ric_on_control_req_mac_sm_ric
    free_ind_data_mac_sm_ric.

(** ** The two halves together *)

Section contract.
Context {RAN : Type} (io : sm_io_ag_ran_t RAN).

(** The RAN has a message of less than 4 GiB for the user, who sees it under a zero header. *)
Definition mac_reads (r : RAN) (d : sm_ag_if_rd_ind_t) (r' : RAN) : Prop :=
  ∃ x, read_mac io zero_mac_data r = Ret (true, x, r') ∧ (mac_ind_msg_ok (ind_msg x) ∧ 12 + 208 * len_ue_stats (ind_msg x) < 2 ^ 32) ∧
    d = MAC_STATS_V0 (mk_mac_ind_data_t (mk_mac_ind_hdr_t 0) (ind_msg x) None).

(** The only request the service model lets through. *)
Definition mac_request : mac_ctrl_req_data_t := mk_mac_ctrl_req_data (mk_mac_ctrl_hdr_t 1) (mk_mac_ctrl_msg_t 42).
Definition mac_takes (c : user_data) (r r' : RAN) : Prop :=
  c = USER_MAC_CTRL mac_request ∧ ∃ ans, write_mac io mac_request r = Ret (ans, r').

Lemma free_mac_ok m : mac_ind_msg_ok m → free_mac_ind_msg m = Ret ().
Proof. intros (_ & Hl & _). unfold free_mac_ind_msg. destruct (ue_stats m); cbn in *; [by rewrite <-Hl|]. by destruct (0 <? len_ue_stats m). Qed.

Lemma mac_stats_sent r x r' : read_mac io zero_mac_data r = Ret (true, x, r') → mac_ind_msg_ok (ind_msg x) ∧ 12 + 208 * len_ue_stats (ind_msg x) < 2 ^ 32 →
  ∃ data, on_indication_mac_sm_ag io AD_NULL r = Ret (Some data, r') ∧ d_call_process_id data = None ∧
    length (d_ind_msg data) = (12 + 208 * length (ue_stats (ind_msg x)))%nat ∧
    ∀ id act, on_indication_mac_sm_ric (generate_indication id act data) = Ret (0,
      MAC_STATS_V0 (mk_mac_ind_data_t (mk_mac_ind_hdr_t 0) (ind_msg x) None)).
Proof.
  intros Hr Hok. destruct Hok as [Hok Hsz]. destruct (mac_ind_msg_roundtrip _ Hok Hsz) as (bs & He & Hlen & Hd).
  exists (mk_sm_ind_data (enc_obj (mk_mac_ind_hdr_t 0)) bs None). split_and!; [|done..|].
  - unfold on_indication_mac_sm_ag, mac_enc_ind_hdr_plain. returns. rewrite fill_copy by by_eval. returns.
    rewrite (st_bind_Ret _ _ _ _ _ Hr), He. returns. by rewrite (free_mac_ok _ Hok).
  - intros id act. unfold on_indication_mac_sm_ric, generate_indication, mac_dec_ind_hdr_plain.
    cbn [msg hdr call_process_id d_ind_hdr d_ind_msg d_call_process_id]. rewrite dec_whole_enc by by_eval. by rewrite outcome_bind_ret_l, Hd.
Qed.

#[export] Instance mac_contract : SmContract period_ms (make_mac_sm_agent io) make_mac_sm_ric mac_reads mac_takes.
Proof.
  split.
  - done.
  - solve_period make_mac_sm_ric on_subscription_mac_sm_ric mac_enc_event_trigger_plain make_mac_sm_agent on_subscription_mac_sm_ag mac_dec_event_trigger_plain.
  - intros r d r' (x & Hr & Hok & ->). destruct (mac_stats_sent _ _ _ Hr Hok) as (data & Hs & Hc & _ & Hd). by exists data.
  - intros r d r' (x & _ & Hok & ->). cbn [free_ind_data make_mac_sm_ric free_ind_data_mac_sm_ric free_sm_ag_if_rd_ind cp_sm_ag_if_rd_ind MacPlain.ind_msg].
    split_and!; [by rewrite (free_mac_ok _ (proj1 Hok))..|]. right.
    destruct (cp_mac_ind_msg_spec (ind_msg x)) as (m & Hm & _); [apply Hok|]. eexists. unfold cp_mac_ind_data. cbn [MacPlain.ind_msg]. by rewrite Hm.
  - intros c r r' [-> (ans & Hw)]. exists (enc_obj (mk_mac_ctrl_hdr_t 1)), (enc_obj (mk_mac_ctrl_msg_t 42)), []. split; [by vm_compute|].
    solve_control make_mac_sm_agent on_control_mac_sm_ag mac_dec_ctrl_hdr_plain mac_dec_ctrl_msg_plain.
    unfold mac_request in Hw. by rewrite (st_bind_Ret _ _ _ _ _ Hw).
Qed.

(** What a user of the MAC service model gets: a report of the period asked for, in
    which the statistics the RAN gave, 208 bytes per UE, come back as they were; and the one
    control request the service model knows reaches the RAN. *)
Theorem mac_plugins_roundtrip r x r' cmd ms : read_mac io zero_mac_data r = Ret (true, x, r') →
  mac_ind_msg_ok (ind_msg x) ∧ 12 + 208 * len_ue_stats (ind_msg x) < 2 ^ 32 → period_ms cmd = Ret ms →
  (∃ et, on_subscription_mac_sm_ric (USER_STR cmd) = Ret (et, None) ∧
     ∀ id ad (r1 : RAN), on_subscription_mac_sm_ag (mk_sm_subs_data id et ad) r1 = Ret (PERIODIC_SUBSCRIPTION_FLRC ms AD_NULL, r1)) ∧
  (∃ data, on_indication_mac_sm_ag io AD_NULL r = Ret (Some data, r') ∧
     length (d_ind_msg data) = (12 + 208 * length (ue_stats (ind_msg x)))%nat ∧
     ∀ id act, on_indication_mac_sm_ric (generate_indication id act data) = Ret (0,
       MAC_STATS_V0 (mk_mac_ind_data_t (mk_mac_ind_hdr_t 0) (ind_msg x) None))) ∧
  (∀ ans r1 r2, write_mac io mac_request r1 = Ret (ans, r2) →
     ∃ hdr msg out, ric_on_control_req_mac_sm_ric (USER_MAC_CTRL mac_request) = Ret (hdr, msg) ∧
       on_control_mac_sm_ag io hdr msg r1 = Ret (out, r2)).
Proof.
  intros Hr Hok Hms. split_and!.
  - exact (sm_period (SmContract := mac_contract) cmd ms Hms).
  - destruct (mac_stats_sent _ _ _ Hr Hok) as (data & Hs & _ & Hl & Hd). by exists data.
  - intros ans r1 r2 Hw. destruct (sm_control (USER_MAC_CTRL mac_request) r1 r2) as (hdr & msg & out & Hc & Ha); [split; [done|by exists ans]|].
    by exists hdr, msg, out.
Qed.
End contract.

Lemma mac_plugins_roundtrip_witness :
  (∃ et, on_subscription_mac_sm_ric (USER_STR "10_ms") = Ret (et, None) ∧
     on_subscription_mac_sm_ag (RAN := nat) (mk_sm_subs_data 1 et None) 0%nat =
       Ret (PERIODIC_SUBSCRIPTION_FLRC 10 AD_NULL, 0%nat)) ∧
  ∃ data, on_indication_mac_sm_ag one_of_each AD_NULL 0%nat = Ret (Some data, 1%nat).
Proof.
  destruct (mac_plugins_roundtrip one_of_each 0%nat _ 1%nat "10_ms" 10 eq_refl) as ((et & He & Hs) & (data & Hd & _) & _).
  - by_eval.
  - by vm_compute.
  - exact (conj (ex_intro _ et (conj He (Hs 1 None 0%nat))) (ex_intro _ data Hd)).
Defined.
