(* ===== verification/RlcSm.v ===== *)
(** * RLC service model: the plugins of the E2 node and of the RIC

    [src/src/sm/rlc_sm/rlc_sm_agent.c] and [rlc_sm_ric.c], with the plain codec. *)
From Stdlib Require Import String.
From S2P Require Import Prelude CLayout SmCodec RlcPlain RicIds E2apMsg NearRic Agent SmIf.
#[local] Open Scope Z_scope.

Definition SM_RLC_ID : Z := 143.
Definition SM_RLC_REV : Z := 1.
Definition SM_RLC_STR : string := "RLC_STATS_V0".
Definition SM_RLC_OID : string := "0.0.0.0.0.0.0.0.1.143.0".

(** ** The E2 node, [rlc_sm_agent.c] *)

Section agent.
Context {RAN : Type} (io : sm_io_ag_ran_t RAN).

Definition on_subscription_rlc_sm_ag (data : sm_subs_data_t) : st RAN (sm_ag_if_ans_subs_t RAN act_def_t) :=
  ev ← st_lift (rlc_dec_event_trigger_plain (subs_event_trigger data));
  mret (PERIODIC_SUBSCRIPTION_FLRC (et_ms ev) AD_NULL).

(** The statistics the RAN filled are freed at the end, on both ways out. *)
Definition on_indication_rlc_sm_ag (act_def : act_def_t) : st RAN (option sm_ind_data_t) :=
  st_assert (ad_is_null act_def);;
  ba_hdr ← st_lift (rlc_enc_ind_hdr_plain (mk_rlc_ind_hdr_t 0));
  '(ok, rlc) ← read_rlc io zero_rlc_data;
  if ok : bool then
    ba ← st_lift (rlc_enc_ind_msg_plain (ind_msg rlc));
    st_lift (free_rlc_ind_msg (ind_msg rlc));;
    mret (Some (mk_sm_ind_data ba_hdr ba None))
  else
    st_lift (free_rlc_ind_msg (ind_msg rlc));;
    mret None.

Definition on_control_rlc_sm_ag (ctrl_hdr ctrl_msg : bytes) : st RAN bytes :=
  hdr ← st_lift (rlc_dec_ctrl_hdr_plain ctrl_hdr);
  st_assert (ch_dummy hdr =? 0);;
  msg ← st_lift (rlc_dec_ctrl_msg_plain ctrl_msg);
  st_assert (cm_action msg =? 42);;
  _ ← write_rlc io (mk_rlc_ctrl_req_data (mk_rlc_ctrl_hdr_t 0) (mk_rlc_ctrl_msg_t (cm_action msg)));
  mret [].

Definition on_e2_setup_rlc_sm_ag : st RAN bytes :=
  let sz := String.length SM_RLC_STR in
  st_assert (sz <? 256)%nat;;
  mret (str_bytes SM_RLC_STR).

Definition make_rlc_sm_agent : sm_agent_t RAN act_def_t :=
  mk_sm_agent SM_RLC_ID SM_RLC_REV (str_bytes SM_RLC_OID) on_subscription_rlc_sm_ag on_indication_rlc_sm_ag
    on_control_rlc_sm_ag on_e2_setup_rlc_sm_ag.
End agent.

(** ** The RIC and the xApp, [rlc_sm_ric.c] *)

(** [strncmp] reads through a NULL pointer. *)
Definition on_subscription_rlc_sm_ric (cmd : user_data) : outcome (bytes * option bytes) :=
  match cmd with
  | USER_STR cmd =>
      ms ← period_ms cmd;
      ba ← rlc_enc_event_trigger_plain (mk_rlc_event_trigger_t ms);
      Ret (ba, None)
  | _ => Undef
  end.

(** The type of the statistics and the statistics; the decoded header. *)
Definition on_indication_rlc_sm_ric (data : ric_indication_t) : outcome (Z * sm_ag_if_rd_ind_t) :=
  m ← rlc_dec_ind_msg_plain (msg data);
  h ← rlc_dec_ind_hdr_plain (hdr data);
  c_assert (match call_process_id data with None => true | _ => false end);;
  let rd_if := RLC_STATS_V0 (mk_rlc_ind_data_t h m None) in
  Ret (rd_ind_type rd_if, rd_if).

Definition ric_on_control_req_rlc_sm_ric (ctrl : user_data) : outcome (bytes * bytes) :=
  match ctrl with
  | USER_NULL => Abort
  | USER_RLC_CTRL req =>
      c_assert (ch_dummy (rlc_cr_hdr req) =? 0);;
      c_assert (cm_action (rlc_cr_msg req) =? 42);;
      ba_hdr ← rlc_enc_ctrl_hdr_plain (rlc_cr_hdr req);
      ba ← rlc_enc_ctrl_msg_plain (rlc_cr_msg req);
      Ret (ba_hdr, ba)
  | _ => Undef
  end.

(** The decoder of the outcome aborts. *)
Definition ric_on_control_out_rlc_sm_ric (out : bytes) : outcome sm_ag_if_ans_ctrl_t :=
  ans ← rlc_dec_ctrl_out_plain out;
  c_assert (ans =? 0);;
  Ret (mk_ans_ctrl MAC_AGENT_IF_CTRL_ANS_V0 ans).

Definition ric_on_e2_setup_rlc_sm_ric (setup : bytes) : bytes := setup.

Definition free_ind_data_rlc_sm_ric (rd_ind : sm_ag_if_rd_ind_t) : outcome () :=
  match rd_ind with RLC_STATS_V0 ind => free_rlc_ind_msg (ind_msg ind) | _ => Abort end.

Definition make_rlc_sm_ric : sm_ric_t user_data sm_ag_if_rd_ind_t :=
  mk_sm_ric SM_RLC_ID on_subscription_rlc_sm_ric on_indication_rlc_sm_ric ric_on_control_req_rlc_sm_ric
    free_ind_data_rlc_sm_ric.

(** ** The two halves together *)

Section contract.
Context {RAN : Type} (io : sm_io_ag_ran_t RAN).

(** The RAN has a message for the user, who sees it under a zero header. *)
Definition rlc_reads (r : RAN) (d : sm_ag_if_rd_ind_t) (r' : RAN) : Prop :=
  ∃ x, read_rlc io zero_rlc_data r = Ret (true, x, r') ∧ (rlc_ind_msg_ok (ind_msg x)) ∧
    d = RLC_STATS_V0 (mk_rlc_ind_data_t (mk_rlc_ind_hdr_t 0) (ind_msg x) None).

(** The only request the service model lets through. *)
Definition rlc_request : rlc_ctrl_req_data_t := mk_rlc_ctrl_req_data (mk_rlc_ctrl_hdr_t 0) (mk_rlc_ctrl_msg_t 42).
Definition rlc_takes (c : user_data) (r r' : RAN) : Prop :=
  c = USER_RLC_CTRL rlc_request ∧ ∃ ans, write_rlc io rlc_request r = Ret (ans, r').

Lemma free_rlc_ok m : rlc_ind_msg_ok m → free_rlc_ind_msg m = Ret ().
Proof. intros (_ & Hl & _). unfold free_rlc_ind_msg. destruct (rb m); cbn in *; [by rewrite <-Hl|]. by destruct (0 <? len m). Qed.

Lemma rlc_stats_sent r x r' : read_rlc io zero_rlc_data r = Ret (true, x, r') → rlc_ind_msg_ok (ind_msg x) →
  ∃ data, on_indication_rlc_sm_ag io AD_NULL r = Ret (Some data, r') ∧ d_call_process_id data = None ∧
    length (d_ind_msg data) = (12 + 152 * length (rb (ind_msg x)))%nat ∧
    ∀ id act, on_indication_rlc_sm_ric (generate_indication id act data) = Ret (1,
      RLC_STATS_V0 (mk_rlc_ind_data_t (mk_rlc_ind_hdr_t 0) (ind_msg x) None)).
Proof.
  intros Hr Hok. destruct (rlc_ind_msg_roundtrip _ Hok) as (bs & He & Hlen & Hd).
  exists (mk_sm_ind_data (enc_obj (mk_rlc_ind_hdr_t 0)) bs None). split_and!; [|done..|].
  - unfold on_indication_rlc_sm_ag, rlc_enc_ind_hdr_plain. returns. rewrite fill_copy by by_eval. returns.
    rewrite (st_bind_Ret _ _ _ _ _ Hr), He. returns. by rewrite (free_rlc_ok _ Hok).
  - intros id act. unfold on_indication_rlc_sm_ric, generate_indication, rlc_dec_ind_hdr_plain.
    cbn [msg hdr call_process_id d_ind_hdr d_ind_msg d_call_process_id]. by rewrite Hd, outcome_bind_ret_l, dec_whole_enc by by_eval.
Qed.

#[export] Instance rlc_contract : SmContract period_ms (make_rlc_sm_agent io) make_rlc_sm_ric rlc_reads rlc_takes.
Proof.
  split.
  - done.
  - solve_period make_rlc_sm_ric on_subscription_rlc_sm_ric rlc_enc_event_trigger_plain make_rlc_sm_agent on_subscription_rlc_sm_ag rlc_dec_event_trigger_plain.
  - intros r d r' (x & Hr & Hok & ->). destruct (rlc_stats_sent _ _ _ Hr Hok) as (data & Hs & Hc & _ & Hd). by exists data.
  - intros r d r' (x & _ & Hok & ->). cbn [free_ind_data make_rlc_sm_ric free_ind_data_rlc_sm_ric free_sm_ag_if_rd_ind cp_sm_ag_if_rd_ind RlcPlain.ind_msg].
    split_and!; [by rewrite (free_rlc_ok _ Hok)..|]. right. eexists.
    unfold cp_rlc_ind_data. cbn [RlcPlain.ind_msg]. by rewrite cp_rlc_ind_msg_ok.
  - intros c r r' [-> (ans & Hw)]. exists (enc_obj (mk_rlc_ctrl_hdr_t 0)), (enc_obj (mk_rlc_ctrl_msg_t 42)), []. split; [by vm_compute|].
    solve_control make_rlc_sm_agent on_control_rlc_sm_ag rlc_dec_ctrl_hdr_plain rlc_dec_ctrl_msg_plain.
    unfold rlc_request in Hw. by rewrite (st_bind_Ret _ _ _ _ _ Hw).
Qed.

(** C20. What a user of the RLC service model gets: a report of the period asked for, in
    which the statistics the RAN gave, 152 bytes per bearer, come back as they were; and the one
    control request the service model knows reaches the RAN. *)
Theorem rlc_plugins_roundtrip r x r' cmd ms : read_rlc io zero_rlc_data r = Ret (true, x, r') →
  rlc_ind_msg_ok (ind_msg x) → period_ms cmd = Ret ms →
  (∃ et, on_subscription_rlc_sm_ric (USER_STR cmd) = Ret (et, None) ∧
     ∀ id ad (r1 : RAN), on_subscription_rlc_sm_ag (mk_sm_subs_data id et ad) r1 = Ret (PERIODIC_SUBSCRIPTION_FLRC ms AD_NULL, r1)) ∧
  (∃ data, on_indication_rlc_sm_ag io AD_NULL r = Ret (Some data, r') ∧
     length (d_ind_msg data) = (12 + 152 * length (rb (ind_msg x)))%nat ∧
     ∀ id act, on_indication_rlc_sm_ric (generate_indication id act data) = Ret (1,
       RLC_STATS_V0 (mk_rlc_ind_data_t (mk_rlc_ind_hdr_t 0) (ind_msg x) None))) ∧
  (∀ ans r1 r2, write_rlc io rlc_request r1 = Ret (ans, r2) →
     ∃ hdr msg out, ric_on_control_req_rlc_sm_ric (USER_RLC_CTRL rlc_request) = Ret (hdr, msg) ∧
       on_control_rlc_sm_ag io hdr msg r1 = Ret (out, r2)).
Proof.
  intros Hr Hok Hms. split_and!.
  - exact (sm_period (SmContract := rlc_contract) cmd ms Hms).
  - destruct (rlc_stats_sent _ _ _ Hr Hok) as (data & Hs & _ & Hl & Hd). by exists data.
  - intros ans r1 r2 Hw. destruct (sm_control (USER_RLC_CTRL rlc_request) r1 r2) as (hdr & msg & out & Hc & Ha); [split; [done|by exists ans]|].
    by exists hdr, msg, out.
Qed.
End contract.

Lemma rlc_plugins_roundtrip_witness :
  (∃ et, on_subscription_rlc_sm_ric (USER_STR "10_ms") = Ret (et, None) ∧
     on_subscription_rlc_sm_ag (RAN := nat) (mk_sm_subs_data 1 et None) 0%nat =
       Ret (PERIODIC_SUBSCRIPTION_FLRC 10 AD_NULL, 0%nat)) ∧
  ∃ data, on_indication_rlc_sm_ag one_of_each AD_NULL 0%nat = Ret (Some data, 1%nat).
Proof.
  destruct (rlc_plugins_roundtrip one_of_each 0%nat _ 1%nat "10_ms" 10 eq_refl) as ((et & He & Hs) & (data & Hd & _) & _).
  - by_eval.
  - by vm_compute.
  - exact (conj (ex_intro _ et (conj He (Hs 1 None 0%nat))) (ex_intro _ data Hd)).
Defined.
