(* ===== verification/PdcpSm.v ===== *)
(** * PDCP service model: the plugins of the E2 node and of the RIC

    [src/src/sm/pdcp_sm/pdcp_sm_agent.c] and [pdcp_sm_ric.c], with the plain codec. *)
From Stdlib Require Import String.
From S2P Require SliceData.
From S2P Require Import Prelude CLayout SmCodec PdcpPlain RicIds E2apMsg NearRic Agent SmIf.
#[local] Open Scope Z_scope.

Definition SM_PDCP_ID : Z := 144.
Definition SM_PDCP_REV : Z := 1.
Definition SM_PDCP_STR : string := "PDCP_STATS_V0".
Definition SM_PDCP_OID : string := "0.0.0.0.0.0.0.0.1.144.0".

(** ** The E2 node, [pdcp_sm_agent.c] *)

Section agent.
Context {RAN : Type} (io : sm_io_ag_ran_t RAN).

Definition on_subscription_pdcp_sm_ag (data : sm_subs_data_t) : st RAN (sm_ag_if_ans_subs_t RAN act_def_t) :=
  ev ← st_lift (pdcp_dec_event_trigger_plain (subs_event_trigger data));
  mret (PERIODIC_SUBSCRIPTION_FLRC (et_ms ev) AD_NULL).

(** The statistics the RAN filled are freed at the end, on both ways out. *)
Definition on_indication_pdcp_sm_ag (act_def : act_def_t) : st RAN (option sm_ind_data_t) :=
  st_assert (ad_is_null act_def);;
  ba_hdr ← st_lift (pdcp_enc_ind_hdr_plain (mk_pdcp_ind_hdr_t 0));
  '(ok, pdcp) ← read_pdcp io zero_pdcp_data;
  if ok : bool then
    ba ← st_lift (pdcp_enc_ind_msg_plain (ind_msg pdcp));
    st_lift (free_pdcp_ind_msg (ind_msg pdcp));;
    mret (Some (mk_sm_ind_data ba_hdr ba None))
  else
    st_lift (free_pdcp_ind_msg (ind_msg pdcp));;
    mret None.

(** The RAN must answer with an outcome of its own kind, which is encoded. *)
Definition on_control_pdcp_sm_ag (ctrl_hdr ctrl_msg : bytes) : st RAN bytes :=
  hdr ← st_lift (pdcp_dec_ctrl_hdr_plain ctrl_hdr);
  st_assert (ch_dummy hdr =? 0);;
  msg ← st_lift (pdcp_dec_ctrl_msg_plain ctrl_msg);
  st_assert (cm_action msg =? 42);;
  ans ← write_pdcp io (mk_pdcp_ctrl_req_data hdr msg);
  match ans with
  | CTRL_OUTCOME_SM_AG_IF_ANS_V0 ctrl_out =>
      st_assert (bool_decide (ans_ctrl_type ctrl_out = PDCP_AGENT_IF_CTRL_ANS_V0));;
      st_lift (pdcp_enc_ctrl_out_plain (mk_pdcp_ctrl_out_t (ans_ctrl_ans ctrl_out)))
  | _ => st_abort
  end.

Definition on_e2_setup_pdcp_sm_ag : st RAN bytes :=
  let sz := String.length SM_PDCP_STR in
  st_assert (sz <? 256)%nat;;
  mret (str_bytes SM_PDCP_STR).

Definition make_pdcp_sm_agent : sm_agent_t RAN act_def_t :=
  mk_sm_agent SM_PDCP_ID SM_PDCP_REV (str_bytes SM_PDCP_OID) on_subscription_pdcp_sm_ag on_indication_pdcp_sm_ag
    on_control_pdcp_sm_ag on_e2_setup_pdcp_sm_ag.
End agent.

(** ** The RIC and the xApp, [pdcp_sm_ric.c] *)

(** [strncmp] reads through a NULL pointer. *)
Definition on_subscription_pdcp_sm_ric (cmd : user_data) : outcome (bytes * option bytes) :=
  match cmd with
  | USER_STR cmd =>
      ms ← period_ms cmd;
      ba ← pdcp_enc_event_trigger_plain (mk_pdcp_event_trigger_t ms);
      Ret (ba, None)
  | _ => Undef
  end.

(** The type of the statistics and the statistics; the decoded header; a call process id is ignored. *)
Definition on_indication_pdcp_sm_ric (data : ric_indication_t) : outcome (Z * sm_ag_if_rd_ind_t) :=
  h ← pdcp_dec_ind_hdr_plain (hdr data);
  m ← pdcp_dec_ind_msg_plain (msg data);
  let rd_if := PDCP_STATS_V0 (mk_pdcp_ind_data_t h m None) in
  Ret (rd_ind_type rd_if, rd_if).

Definition on_control_req_pdcp_sm_ric (ctrl : user_data) : outcome (bytes * bytes) :=
  match ctrl with
  | USER_NULL => Abort
  | USER_PDCP_CTRL req =>
      ba_hdr ← pdcp_enc_ctrl_hdr_plain (pdcp_cr_hdr req);
      ba ← pdcp_enc_ctrl_msg_plain (pdcp_cr_msg req);
      Ret (ba_hdr, ba)
  | _ => Undef
  end.

Definition on_control_out_pdcp_sm_ric (out : bytes) : outcome sm_ag_if_ans_ctrl_t :=
  c_assert (0 <? length out)%nat;;
  ans ← pdcp_dec_ctrl_out_plain out;
  Ret (mk_ans_ctrl PDCP_AGENT_IF_CTRL_ANS_V0 (co_ans ans)).

Definition on_e2_setup_pdcp_sm_ric (setup : bytes) : bytes := setup.

Definition free_ind_data_pdcp_sm_ric (rd_ind : sm_ag_if_rd_ind_t) : outcome () :=
  match rd_ind with PDCP_STATS_V0 ind => free_pdcp_ind_msg (ind_msg ind) | _ => Abort end.

Definition make_pdcp_sm_ric : sm_ric_t user_data sm_ag_if_rd_ind_t :=
  mk_sm_ric SM_PDCP_ID on_subscription_pdcp_sm_ric on_indication_pdcp_sm_ric on_control_req_pdcp_sm_ric
    free_ind_data_pdcp_sm_ric.

(** ** The two halves together *)

Section contract.
Context {RAN : Type} (io : sm_io_ag_ran_t RAN).

(** The RAN has a message whose bearers keep their invariants for the user, who sees it under a zero header. *)
Definition pdcp_reads (r : RAN) (d : sm_ag_if_rd_ind_t) (r' : RAN) : Prop :=
  ∃ x, read_pdcp io zero_pdcp_data r = Ret (true, x, r') ∧ (pdcp_ind_msg_ok (ind_msg x) ∧ Forall pdcp_bearer_inv (rb (ind_msg x))) ∧
    d = PDCP_STATS_V0 (mk_pdcp_ind_data_t (mk_pdcp_ind_hdr_t 0) (ind_msg x) None).

(** The only request the service model lets through; the RAN must answer it as its own. *)
Definition pdcp_request : pdcp_ctrl_req_data_t := mk_pdcp_ctrl_req_data (mk_pdcp_ctrl_hdr_t 0) (mk_pdcp_ctrl_msg_t 42).
Definition pdcp_takes (c : user_data) (r r' : RAN) : Prop :=
  c = USER_PDCP_CTRL pdcp_request ∧
  ∃ a, u_ok 32 a ∧ write_pdcp io pdcp_request r = Ret (CTRL_OUTCOME_SM_AG_IF_ANS_V0 (mk_ans_ctrl PDCP_AGENT_IF_CTRL_ANS_V0 a), r').

Lemma free_pdcp_ok m : pdcp_ind_msg_ok m → Forall pdcp_bearer_inv (rb m) → free_pdcp_ind_msg m = Ret ().
Proof. intros Hok Hinv. unfold free_pdcp_ind_msg. by rewrite check_pdcp_invariants_ok, decide_True by done. Qed.

Lemma pdcp_stats_sent r x r' : read_pdcp io zero_pdcp_data r = Ret (true, x, r') → pdcp_ind_msg_ok (ind_msg x) ∧ Forall pdcp_bearer_inv (rb (ind_msg x)) →
  ∃ data, on_indication_pdcp_sm_ag io AD_NULL r = Ret (Some data, r') ∧ d_call_process_id data = None ∧
    length (d_ind_msg data) = (12 + 68 * length (rb (ind_msg x)))%nat ∧
    ∀ id act, on_indication_pdcp_sm_ric (generate_indication id act data) = Ret (2,
      PDCP_STATS_V0 (mk_pdcp_ind_data_t (mk_pdcp_ind_hdr_t 0) (ind_msg x) None)).
Proof.
  intros Hr Hok. destruct Hok as [Hok Hinv]. destruct (pdcp_ind_msg_roundtrip _ Hok) as (bs & He & Hlen & Hd).
  exists (mk_sm_ind_data (enc_obj (mk_pdcp_ind_hdr_t 0)) bs None). split_and!; [|done..|].
  - unfold on_indication_pdcp_sm_ag, pdcp_enc_ind_hdr_plain. returns. rewrite fill_copy by by_eval. returns.
    rewrite (st_bind_Ret _ _ _ _ _ Hr), He. returns. by rewrite (free_pdcp_ok _ Hok Hinv).
  - intros id act. unfold on_indication_pdcp_sm_ric, generate_indication, pdcp_dec_ind_hdr_plain.
    cbn [msg hdr call_process_id d_ind_hdr d_ind_msg d_call_process_id]. rewrite dec_whole_enc by by_eval. by rewrite outcome_bind_ret_l, Hd.
Qed.

#[export] Instance pdcp_contract : SmContract period_ms (make_pdcp_sm_agent io) make_pdcp_sm_ric pdcp_reads pdcp_takes.
Proof.
  split.
  - done.
  - solve_period make_pdcp_sm_ric on_subscription_pdcp_sm_ric pdcp_enc_event_trigger_plain make_pdcp_sm_agent on_subscription_pdcp_sm_ag pdcp_dec_event_trigger_plain.
  - intros r d r' (x & Hr & Hok & ->). destruct (pdcp_stats_sent _ _ _ Hr Hok) as (data & Hs & Hc & _ & Hd). by exists data.
  - intros r d r' (x & _ & Hok & ->). cbn [free_ind_data make_pdcp_sm_ric free_ind_data_pdcp_sm_ric free_sm_ag_if_rd_ind cp_sm_ag_if_rd_ind PdcpPlain.ind_msg].
    split_and!; [destruct Hok; by rewrite free_pdcp_ok..|]. right. eexists.
    unfold cp_pdcp_ind_data. cbn [PdcpPlain.ind_msg]. destruct Hok. by rewrite cp_pdcp_ind_msg_spec, decide_True.
  - intros c r r' [-> (a & Ha & Hw)].
    exists (enc_obj (mk_pdcp_ctrl_hdr_t 0)), (enc_obj (mk_pdcp_ctrl_msg_t 42)), (enc_obj (mk_pdcp_ctrl_out_t a)). split; [by vm_compute|].
    solve_control make_pdcp_sm_agent on_control_pdcp_sm_ag pdcp_dec_ctrl_hdr_plain pdcp_dec_ctrl_msg_plain.
    unfold pdcp_request in Hw. rewrite (st_bind_Ret _ _ _ _ _ Hw). returns. cbn [ans_ctrl_ans ans_ctrl_slice mk_ans_ctrl SliceData.sl_ans]. unfold pdcp_enc_ctrl_out_plain.
    rewrite fill_copy; [done| |done]. split; [|done]. constructor; [exact Ha|constructor].
Qed.

(** What a user of the PDCP service model gets: a report of the period asked for, in
    which the statistics the RAN gave, 68 bytes per bearer, come back as they were; and the one
    control request the service model knows reaches the RAN. *)
Theorem pdcp_plugins_roundtrip r x r' cmd ms : read_pdcp io zero_pdcp_data r = Ret (true, x, r') →
  pdcp_ind_msg_ok (ind_msg x) ∧ Forall pdcp_bearer_inv (rb (ind_msg x)) → period_ms cmd = Ret ms →
  (∃ et, on_subscription_pdcp_sm_ric (USER_STR cmd) = Ret (et, None) ∧
     ∀ id ad (r1 : RAN), on_subscription_pdcp_sm_ag (mk_sm_subs_data id et ad) r1 = Ret (PERIODIC_SUBSCRIPTION_FLRC ms AD_NULL, r1)) ∧
  (∃ data, on_indication_pdcp_sm_ag io AD_NULL r = Ret (Some data, r') ∧
     length (d_ind_msg data) = (12 + 68 * length (rb (ind_msg x)))%nat ∧
     ∀ id act, on_indication_pdcp_sm_ric (generate_indication id act data) = Ret (2,
       PDCP_STATS_V0 (mk_pdcp_ind_data_t (mk_pdcp_ind_hdr_t 0) (ind_msg x) None))) ∧
  (∀ a r1 r2, u_ok 32 a → write_pdcp io pdcp_request r1 = Ret (CTRL_OUTCOME_SM_AG_IF_ANS_V0 (mk_ans_ctrl PDCP_AGENT_IF_CTRL_ANS_V0 a), r2) →
     ∃ hdr msg out, on_control_req_pdcp_sm_ric (USER_PDCP_CTRL pdcp_request) = Ret (hdr, msg) ∧
       on_control_pdcp_sm_ag io hdr msg r1 = Ret (out, r2)).
Proof.
  intros Hr Hok Hms. split_and!.
  - exact (sm_period (SmContract := pdcp_contract) cmd ms Hms).
  - destruct (pdcp_stats_sent _ _ _ Hr Hok) as (data & Hs & _ & Hl & Hd). by exists data.
  - intros a r1 r2 Ha Hw. destruct (sm_control (USER_PDCP_CTRL pdcp_request) r1 r2) as (hdr & msg & out & Hc & Hag); [split; [done|by exists a]|].
    by exists hdr, msg, out.
Qed.
End contract.

Lemma pdcp_plugins_roundtrip_witness :
  (∃ et, on_subscription_pdcp_sm_ric (USER_STR "10_ms") = Ret (et, None) ∧
     on_subscription_pdcp_sm_ag (RAN := nat) (mk_sm_subs_data 1 et None) 0%nat =
       Ret (PERIODIC_SUBSCRIPTION_FLRC 10 AD_NULL, 0%nat)) ∧
  ∃ data, on_indication_pdcp_sm_ag one_of_each AD_NULL 0%nat = Ret (Some data, 1%nat).
Proof.
  destruct (pdcp_plugins_roundtrip one_of_each 0%nat _ 1%nat "10_ms" 10 eq_refl) as ((et & He & Hs) & (data & Hd & _) & _).
  - by_eval.
  - by vm_compute.
  - exact (conj (ex_intro _ et (conj He (Hs 1 None 0%nat))) (ex_intro _ data Hd)).
Defined.
