(* ===== verification/GtpSm.v ===== *)
(** * GTP service model: the plugins of the E2 node and of the RIC

    [src/src/sm/gtp_sm/gtp_sm_agent.c] and [gtp_sm_ric.c], with the plain codec. *)
From Stdlib Require Import String.
From S2P Require Import Prelude CLayout SmCodec GtpPlain RicIds E2apMsg NearRic Agent SmIf.
#[local] Open Scope Z_scope.

Definition SM_GTP_ID : Z := 148.
Definition SM_GTP_REV : Z := 1.
Definition SM_GTP_STR : string := "GTP_STATS_V0".
Definition SM_GTP_OID : string := "0.0.0.0.0.0.0.0.1.148.0".

(** ** The E2 node, [gtp_sm_agent.c] *)

Section agent.
Context {RAN : Type} (io : sm_io_ag_ran_t RAN).

Definition on_subscription_gtp_sm_ag (data : sm_subs_data_t) : st RAN (sm_ag_if_ans_subs_t RAN act_def_t) :=
  ev ← st_lift (gtp_dec_event_trigger_plain (subs_event_trigger data));
  mret (PERIODIC_SUBSCRIPTION_FLRC (et_ms ev) AD_NULL).

(** The message of an event is copied; [AD_IND None] is an event without one. *)
Definition on_indication_gtp_sm_ag (act_def : act_def_t) : st RAN (option sm_ind_data_t) :=
  ba_hdr ← st_lift (gtp_enc_ind_hdr_plain (mk_gtp_ind_hdr_t 0));
  match act_def with
  | AD_NULL =>
      '(ok, gtp) ← read_gtp io zero_gtp_data;
      if ok : bool then
        ba ← st_lift (gtp_enc_ind_msg_plain (ind_msg gtp));
        st_lift (free_gtp_ind_msg (ind_msg gtp));;
        mret (Some (mk_sm_ind_data ba_hdr ba None))
      else
        st_lift (free_gtp_ind_msg (ind_msg gtp));;
        mret None
  | AD_IND None => mret (Some (mk_sm_ind_data ba_hdr [] None))
  | AD_IND (Some ind) =>
      '(ok, gtp) ← read_gtp io (mk_gtp_ind_data_t (mk_gtp_ind_hdr_t 0) ind None);
      if ok : bool then
        ba ← st_lift (gtp_enc_ind_msg_plain (ind_msg gtp));
        mret (Some (mk_sm_ind_data ba_hdr ba None))
      else mret None
  end.

Definition on_control_gtp_sm_ag (ctrl_hdr ctrl_msg : bytes) : st RAN bytes :=
  hdr ← st_lift (gtp_dec_ctrl_hdr_plain ctrl_hdr);
  st_assert (ch_dummy hdr =? 0);;
  msg ← st_lift (gtp_dec_ctrl_msg_plain ctrl_msg);
  st_assert (cm_action msg =? 42);;
  _ ← write_gtp io (mk_gtp_ctrl_req_data (mk_gtp_ctrl_hdr_t 0) (mk_gtp_ctrl_msg_t (cm_action msg)));
  mret [].

Definition on_e2_setup_gtp_sm_ag : st RAN bytes :=
  let sz := String.length SM_GTP_STR in
  st_assert (sz <? 256)%nat;;
  mret (str_bytes SM_GTP_STR).

Definition make_gtp_sm_agent : sm_agent_t RAN act_def_t :=
  mk_sm_agent SM_GTP_ID SM_GTP_REV (str_bytes SM_GTP_OID) on_subscription_gtp_sm_ag on_indication_gtp_sm_ag
    on_control_gtp_sm_ag on_e2_setup_gtp_sm_ag.
End agent.

(** ** The RIC and the xApp, [gtp_sm_ric.c] *)

Definition on_subscription_gtp_sm_ric (cmd : user_data) : outcome (bytes * option bytes) :=
  match cmd with
  | USER_STR cmd =>
      ms ← period_ms cmd;
      ba ← gtp_enc_event_trigger_plain (mk_gtp_event_trigger_t ms);
      Ret (ba, None)
  | USER_NULL => Abort
  | _ => Undef
  end.

(** The type of the statistics and the statistics; the decoded header; a call process id is ignored. *)
Definition on_indication_gtp_sm_ric (data : ric_indication_t) : outcome (Z * sm_ag_if_rd_ind_t) :=
  m ← gtp_dec_ind_msg_plain (msg data);
  h ← gtp_dec_ind_hdr_plain (hdr data);
  let rd_if := GTP_STATS_V0 (mk_gtp_ind_data_t h m None) in
  Ret (rd_ind_type rd_if, rd_if).

Definition ric_on_control_req_gtp_sm_ric (ctrl : user_data) : outcome (bytes * bytes) :=
  match ctrl with
  | USER_NULL => Abort
  | USER_GTP_CTRL req =>
      c_assert (ch_dummy (gtp_cr_hdr req) =? 0);;
      c_assert (cm_action (gtp_cr_msg req) =? 42);;
      ba_hdr ← gtp_enc_ctrl_hdr_plain (gtp_cr_hdr req);
      ba ← gtp_enc_ctrl_msg_plain (gtp_cr_msg req);
      Ret (ba_hdr, ba)
  | _ => Undef
  end.

(** The decoder of the outcome aborts. *)
Definition ric_on_control_out_gtp_sm_ric (out : bytes) : outcome sm_ag_if_ans_ctrl_t :=
  ans ← gtp_dec_ctrl_out_plain out;
  c_assert (ans =? 0);;
  Ret (mk_ans_ctrl MAC_AGENT_IF_CTRL_ANS_V0 ans).

(** The definition of the RAN function is not copied. *)
Definition ric_on_e2_setup_gtp_sm_ric (setup : bytes) : bytes := [].

Definition free_ind_data_gtp_sm_ric (rd_ind : sm_ag_if_rd_ind_t) : outcome () :=
  match rd_ind with GTP_STATS_V0 ind => free_gtp_ind_msg (ind_msg ind) | _ => Abort end.

Definition make_gtp_sm_ric : sm_ric_t user_data sm_ag_if_rd_ind_t :=
  mk_sm_ric SM_GTP_ID on_subscription_gtp_sm_ric on_indication_gtp_sm_ric ric_on_control_req_gtp_sm_ric
    free_ind_data_gtp_sm_ric.

(** ** The two halves together *)

Section contract.
Context {RAN : Type} (io : sm_io_ag_ran_t RAN).

(** The RAN has a message for the user, who sees it under a zero header. *)
Definition gtp_reads (r : RAN) (d : sm_ag_if_rd_ind_t) (r' : RAN) : Prop :=
  ∃ x, read_gtp io zero_gtp_data r = Ret (true, x, r') ∧ (gtp_ind_msg_ok (ind_msg x)) ∧
    d = GTP_STATS_V0 (mk_gtp_ind_data_t (mk_gtp_ind_hdr_t 0) (gtp_alloc (ind_msg x)) None).

(** The only request the service model lets through. *)
Definition gtp_request : gtp_ctrl_req_data_t := mk_gtp_ctrl_req_data (mk_gtp_ctrl_hdr_t 0) (mk_gtp_ctrl_msg_t 42).
Definition gtp_takes (c : user_data) (r r' : RAN) : Prop :=
  c = USER_GTP_CTRL gtp_request ∧ ∃ ans, write_gtp io gtp_request r = Ret (ans, r').

Lemma free_gtp_ok m : gtp_ind_msg_ok m → free_gtp_ind_msg m = Ret ().
Proof. intros (_ & Hl & _). unfold free_gtp_ind_msg. unfold ngut_arr in Hl. destruct (ngut m); cbn in *; [by destruct (0 <? len m)|by rewrite <-Hl]. Qed.

Lemma gtp_alloc_ok m : gtp_ind_msg_ok m → gtp_ind_msg_ok (gtp_alloc m).
Proof. by destruct m. Qed.

Lemma gtp_stats_sent r x r' : read_gtp io zero_gtp_data r = Ret (true, x, r') → gtp_ind_msg_ok (ind_msg x) →
  ∃ data, on_indication_gtp_sm_ag io AD_NULL r = Ret (Some data, r') ∧ d_call_process_id data = None ∧
    length (d_ind_msg data) = (25 + 48 * length (ngut_arr (ind_msg x)))%nat ∧
    ∀ id act, on_indication_gtp_sm_ric (generate_indication id act data) = Ret (5,
      GTP_STATS_V0 (mk_gtp_ind_data_t (mk_gtp_ind_hdr_t 0) (gtp_alloc (ind_msg x)) None)).
Proof.
  intros Hr Hok. destruct (gtp_ind_msg_roundtrip _ Hok) as (bs & He & Hlen & _ & Hd).
  exists (mk_sm_ind_data (enc_obj (mk_gtp_ind_hdr_t 0)) bs None). split_and!; [|done..|].
  - unfold on_indication_gtp_sm_ag, gtp_enc_ind_hdr_plain. rewrite fill_copy by by_eval. returns.
    rewrite (st_bind_Ret _ _ _ _ _ Hr), He. returns. by rewrite (free_gtp_ok _ Hok).
  - intros id act. unfold on_indication_gtp_sm_ric, generate_indication, gtp_dec_ind_hdr_plain.
    cbn [msg hdr call_process_id d_ind_hdr d_ind_msg d_call_process_id]. by rewrite Hd, outcome_bind_ret_l, dec_whole_enc by by_eval.
Qed.

#[export] Instance gtp_contract : SmContract period_ms (make_gtp_sm_agent io) make_gtp_sm_ric gtp_reads gtp_takes.
Proof.
  split.
  - done.
  - solve_period make_gtp_sm_ric on_subscription_gtp_sm_ric gtp_enc_event_trigger_plain make_gtp_sm_agent on_subscription_gtp_sm_ag gtp_dec_event_trigger_plain.
  - intros r d r' (x & Hr & Hok & ->). destruct (gtp_stats_sent _ _ _ Hr Hok) as (data & Hs & Hc & _ & Hd). by exists data.
  - intros r d r' (x & _ & Hok & ->). cbn [free_ind_data make_gtp_sm_ric free_ind_data_gtp_sm_ric free_sm_ag_if_rd_ind cp_sm_ag_if_rd_ind GtpPlain.ind_msg].
    split_and!; [by rewrite free_gtp_ok by (by apply gtp_alloc_ok)..|]. right. eexists.
    unfold cp_gtp_ind_data. cbn [GtpPlain.ind_msg]. destruct (cp_gtp_ind_msg_spec (gtp_alloc (ind_msg x))) as [Hcp _]; [apply Hok|]. by rewrite Hcp by (by apply gtp_alloc_ok).
  - intros c r r' [-> (ans & Hw)]. exists (enc_obj (mk_gtp_ctrl_hdr_t 0)), (enc_obj (mk_gtp_ctrl_msg_t 42)), []. split; [by vm_compute|].
    solve_control make_gtp_sm_agent on_control_gtp_sm_ag gtp_dec_ctrl_hdr_plain gtp_dec_ctrl_msg_plain.
    unfold gtp_request in Hw. by rewrite (st_bind_Ret _ _ _ _ _ Hw).
Qed.

(** What a user of the GTP service model gets: a report of the period asked for, in
    which the statistics the RAN gave, 48 bytes per tunnel, come back as they were; and the one
    control request the service model knows reaches the RAN. *)
Theorem gtp_plugins_roundtrip r x r' cmd ms : read_gtp io zero_gtp_data r = Ret (true, x, r') →
  gtp_ind_msg_ok (ind_msg x) → period_ms cmd = Ret ms →
  (∃ et, on_subscription_gtp_sm_ric (USER_STR cmd) = Ret (et, None) ∧
     ∀ id ad (r1 : RAN), on_subscription_gtp_sm_ag (mk_sm_subs_data id et ad) r1 = Ret (PERIODIC_SUBSCRIPTION_FLRC ms AD_NULL, r1)) ∧
  (∃ data, on_indication_gtp_sm_ag io AD_NULL r = Ret (Some data, r') ∧
     length (d_ind_msg data) = (25 + 48 * length (ngut_arr (ind_msg x)))%nat ∧
     ∀ id act, on_indication_gtp_sm_ric (generate_indication id act data) = Ret (5,
       GTP_STATS_V0 (mk_gtp_ind_data_t (mk_gtp_ind_hdr_t 0) (gtp_alloc (ind_msg x)) None))) ∧
  (∀ ans r1 r2, write_gtp io gtp_request r1 = Ret (ans, r2) →
     ∃ hdr msg out, ric_on_control_req_gtp_sm_ric (USER_GTP_CTRL gtp_request) = Ret (hdr, msg) ∧
       on_control_gtp_sm_ag io hdr msg r1 = Ret (out, r2)).
Proof.
  intros Hr Hok Hms. split_and!.
  - exact (sm_period (SmContract := gtp_contract) cmd ms Hms).
  - destruct (gtp_stats_sent _ _ _ Hr Hok) as (data & Hs & _ & Hl & Hd). by exists data.
  - intros ans r1 r2 Hw. destruct (sm_control (USER_GTP_CTRL gtp_request) r1 r2) as (hdr & msg & out & Hc & Ha); [split; [done|by exists ans]|].
    by exists hdr, msg, out.
Qed.
End contract.

Lemma gtp_plugins_roundtrip_witness :
  (∃ et, on_subscription_gtp_sm_ric (USER_STR "10_ms") = Ret (et, None) ∧
     on_subscription_gtp_sm_ag (RAN := nat) (mk_sm_subs_data 1 et None) 0%nat =
       Ret (PERIODIC_SUBSCRIPTION_FLRC 10 AD_NULL, 0%nat)) ∧
  ∃ data, on_indication_gtp_sm_ag one_of_each AD_NULL 0%nat = Ret (Some data, 1%nat).
Proof.
  destruct (gtp_plugins_roundtrip one_of_each 0%nat _ 1%nat "10_ms" 10 eq_refl) as ((et & He & Hs) & (data & Hd & _) & _).
  - by_eval.
  - by vm_compute.
  - exact (conj (ex_intro _ et (conj He (Hs 1 None 0%nat))) (ex_intro _ data Hd)).
Defined.
