(* ===== verification/SliceSm.v ===== *)
(** * Slice service model: the plugins of the E2 node and of the RIC

    [src/src/sm/slice_sm/slice_sm_agent.c] and [slice_sm_ric.c], with the plain codec. *)
From Stdlib Require Import String.
From S2P Require Import Prelude CLayout SmCodec SmWire SliceData SlicePlain RicIds E2apMsg NearRic Agent SmIf.
From S2P Require SliceEnc SliceDec.
#[local] Open Scope Z_scope.

Definition SM_SLICE_ID : Z := 145.
Definition SM_SLICE_REV : Z := 1.
Definition SM_SLICE_STR : string := "SLICE_STATS_V0".
Definition SM_SLICE_OID : string := "0.0.0.0.0.0.0.0.1.145.0".

(** ** The E2 node, [slice_sm_agent.c] *)

Section agent.
Context {RAN : Type} (io : sm_io_ag_ran_t RAN).

Definition on_subscription_slice_sm_ag (data : sm_subs_data_t) : st RAN (sm_ag_if_ans_subs_t RAN act_def_t) :=
  ev ← st_lift (SliceDec.slice_dec_event_trigger_plain (subs_event_trigger data));
  mret (PERIODIC_SUBSCRIPTION_FLRC (sl_et_ms ev) AD_NULL).

(** The statistics the RAN filled are freed at the end, on both ways out. *)
Definition on_indication_slice_sm_ag (act_def : act_def_t) : st RAN (option sm_ind_data_t) :=
  st_assert (ad_is_null act_def);;
  ba_hdr ← st_lift (SliceEnc.slice_enc_ind_hdr_plain (mk_slice_ind_hdr 0));
  '(ok, slice) ← read_slice io zero_slice_data;
  if ok : bool then
    ba ← st_lift (SliceEnc.slice_enc_ind_msg_plain (sl_msg slice));
    st_lift (free_slice_ind_data slice);;
    mret (Some (mk_sm_ind_data ba_hdr ba None))
  else
    st_lift (free_slice_ind_data slice);;
    mret None.

(** The answer of the RAN and the request are freed at the end, the answer first. *)
Definition on_control_slice_sm_ag (ctrl_hdr ctrl_msg : bytes) : st RAN bytes :=
  hdr ← st_lift (SliceDec.slice_dec_ctrl_hdr_plain ctrl_hdr);
  msg ← st_lift (SliceDec.slice_dec_ctrl_msg_plain ctrl_msg);
  ans ← write_slice io (mk_slice_ctrl_req_data hdr msg);
  match ans with
  | CTRL_OUTCOME_SM_AG_IF_ANS_V0 ctrl_out =>
      st_assert (bool_decide (ans_ctrl_type ctrl_out = SLICE_AGENT_IF_CTRL_ANS_V0));;
      ba ← st_lift (SliceEnc.slice_enc_ctrl_out_plain (ans_ctrl_slice ctrl_out));
      st_lift (free_slice_ctrl_out (ans_ctrl_slice ctrl_out));;
      st_lift (free_slice_ctrl_msg msg);;
      mret ba
  | _ => st_abort
  end.

Definition on_e2_setup_slice_sm_ag : st RAN bytes :=
  let sz := String.length SM_SLICE_STR in
  st_assert (sz <? 256)%nat;;
  mret (str_bytes SM_SLICE_STR).

Definition make_slice_sm_agent : sm_agent_t RAN act_def_t :=
  mk_sm_agent SM_SLICE_ID SM_SLICE_REV (str_bytes SM_SLICE_OID) on_subscription_slice_sm_ag on_indication_slice_sm_ag
    on_control_slice_sm_ag on_e2_setup_slice_sm_ag.
End agent.

(** ** The RIC and the xApp, [slice_sm_ric.c] *)

(** The periods a user can ask for: fewer than for the other service models. *)
Definition slice_period_ms (cmd : string) : outcome Z :=
  let same s := strncmp cmd s 10 =? 0 in
  if same "1_ms"%string then Ret 1
  else if same "2_ms"%string then Ret 2
  else if same "5_ms"%string then Ret 5
  else if same "10_ms"%string then Ret 10
  else Abort.

(** NULL is not checked for. *)
Definition on_subscription_slice_sm_ric (cmd : user_data) : outcome (bytes * option bytes) :=
  match cmd with
  | USER_STR cmd =>
      ms ← slice_period_ms cmd;
      ba ← SliceEnc.slice_enc_event_trigger_plain (mk_slice_event_trigger ms);
      Ret (ba, None)
  | _ => Undef
  end.

(** The header is not decoded. *)
Definition on_indication_slice_sm_ric (data : ric_indication_t) : outcome (Z * sm_ag_if_rd_ind_t) :=
  m ← SliceDec.slice_dec_ind_msg_plain (msg data);
  let rd_if := SLICE_STATS_V0 (mk_slice_ind_data (mk_slice_ind_hdr 0) m None) in
  Ret (rd_ind_type rd_if, rd_if).

Definition ric_on_control_req_slice_sm_ric (ctrl : user_data) : outcome (bytes * bytes) :=
  match ctrl with
  | USER_NULL => Abort
  | USER_SLICE_CTRL data =>
      ba_hdr ← SliceEnc.slice_enc_ctrl_hdr_plain (sl_cr_hdr data);
      ba ← SliceEnc.slice_enc_ctrl_msg_plain (sl_cr_msg data);
      Ret (ba_hdr, ba)
  | _ => Undef
  end.

(** An answer without a diagnostic aborts. *)
Definition ric_on_control_out_slice_sm_ric (out : bytes) : outcome sm_ag_if_ans_ctrl_t :=
  slice ← SliceDec.slice_dec_ctrl_out_plain out;
  c_assert (0 <? len_diag slice);;
  Ret (mk_ans_ctrl_slice SLICE_AGENT_IF_CTRL_ANS_V0 slice).

(** Nothing of the definition of the RAN function is kept. *)
Definition ric_on_e2_setup_slice_sm_ric (setup : bytes) : bytes := [].

Definition free_ind_data_slice_sm_ric (rd_ind : sm_ag_if_rd_ind_t) : outcome () :=
  match rd_ind with SLICE_STATS_V0 ind => free_slice_ind_msg (sl_msg ind) | _ => Abort end.

Definition make_slice_sm_ric : sm_ric_t user_data sm_ag_if_rd_ind_t :=
  mk_sm_ric SM_SLICE_ID on_subscription_slice_sm_ric on_indication_slice_sm_ric ric_on_control_req_slice_sm_ric
    free_ind_data_slice_sm_ric.

(** ** What is sent can be released *)

Lemma free_ptr_str n p : str_ok n p → free_ptr n p = Ret ().
Proof. intros [_ Hp]. unfold free_ptr. destruct (Z.ltb_spec 0 n) as [H|H]; [|done]. specialize (Hp H). by destruct p. Qed.

Lemma free_arr_ok {A} n (l : list A) : Z.of_nat (length l) = n → free_arr n l = Ret ().
Proof. intros <-. unfold free_arr. by destruct l. Qed.

Lemma free_params_ok p : params_ok p → free_slice_param p = Ret ().
Proof.
  destruct p as [|?|?|e|]; try done. intros (_ & _ & _ & Ho). unfold free_slice_param. revert Ho. unfold u32s_ok.
  destruct e as [d g m n o]. cbn. destruct (Z.ltb_spec 0 n) as [H|H]; destruct o; try done; intros [? Ho]; lia.
Qed.

Lemma free_slice_ok s : slice_ok s → free_fr_slice s = Ret ().
Proof. intros (_ & Hl & Hs & Hp). unfold free_fr_slice. by rewrite !free_ptr_str, free_params_ok. Qed.

Lemma free_ul_dl_ok c : ul_dl_ok c → free_ul_dl_slice_conf c = Ret ().
Proof.
  intros (_ & Hl & Hs & _). unfold free_ul_dl_slice_conf. rewrite <-Hl, Nat2Z.id, (map_for_ok _ (λ _, ())); [done|].
  eapply Forall_impl; [|exact Hs]. apply free_slice_ok.
Qed.

Lemma free_conf_ok c : conf_ok c → free_slice_conf c = Ret ().
Proof. intros [Hd Hu]. unfold free_slice_conf. by rewrite !free_ul_dl_ok. Qed.

Lemma free_ind_msg_ok m : slice_ind_msg_ok m → free_slice_ind_msg m = Ret ().
Proof. intros (Hc & (_ & Hl & _) & _). unfold free_slice_ind_msg, free_ue_slice_conf. by rewrite free_conf_ok, free_arr_ok. Qed.

Lemma free_ctrl_msg_ok m : slice_ctrl_msg_ok m → free_slice_ctrl_msg m = Ret ().
Proof.
  destruct m as [c|d|u|t]; cbn [slice_ctrl_msg_ok free_slice_ctrl_msg]; [apply free_conf_ok| | |done].
  - intros [(_ & Hd & _) (_ & Hu & _)]. unfold free_del_slice_conf. by rewrite !free_arr_ok.
  - intros (_ & Hl & _). by apply free_arr_ok.
Qed.

Lemma ctrl_read_ok m : slice_ctrl_msg_ok m → slice_ctrl_msg_ok (ctrl_read m).
Proof. destruct m as [c|d|u|t]; try done. intros [Hd Hu]. split; by apply ul_dl_read_ok. Qed.

(** The answer of the RAN, as the RIC decodes it: OK, whatever it was. *)
Lemma ctrl_out_decoded o : str_ok (len_diag o) (diagnostic o) →
  ∃ bs, SliceEnc.slice_enc_ctrl_out_plain o = Ret bs ∧
    SliceDec.slice_dec_ctrl_out_plain bs = Ret (mk_slice_ctrl_out 0 (len_diag o)
      (if 0 <? len_diag o then Some (take (Z.to_nat (len_diag o)) (default [] (diagnostic o))) else None)).
Proof.
  intros Ho. pose proof Ho as [Hn Hp]. set (n := len_diag o) in *. set (s := take (Z.to_nat n) (default [] (diagnostic o))).
  assert (length s = Z.to_nat n) as Hs.
  { unfold s. rewrite length_take. destruct (decide (0 < n)) as [H|H]; [|lia]. specialize (Hp H). destruct (diagnostic o); [cbn; lia|done]. }
  exists (enc_scalar CU32 n ++ s). split.
  - unfold SliceEnc.slice_enc_ctrl_out_plain. fold n. replace (4 + Z.to_nat n)%nat with (Z.to_nat (wrap 64 (4 + n))).
    + apply fill_puts; [|rewrite length_app, length_enc_scalar, Hs; cbn [csize]; lia|lia]. apply puts_seq; [apply puts_scalar|].
      intros buf it Hit. unfold w_ptr. rewrite (ptr_prefix_ok n) by (lia || done). cbn [mbind outcome_bind].
      by apply writes_puts; [apply writes_memcpy|].
    + rewrite wrap_id by (unfold u_ok; lia). lia.
  - unfold SliceDec.slice_dec_ctrl_out_plain. rewrite rd_scalar_enc by (change (u_ok 32 n); unfold u_ok; lia). rewrite outcome_bind_ret_l.
    rewrite <-(app_nil_r s) at 1. by rewrite rd_bytes_app by done.
Qed.

(** ** The two halves together *)

Section contract.
Context {RAN : Type} (io : sm_io_ag_ran_t RAN).

(** The RAN has a message for the user, who sees it under a zero header, its strings
    ended by a 0. *)
Definition slice_sent (x : slice_ind_data_t) : Prop :=
  slice_ind_msg_ok (sl_msg x) ∧ sz_ind (sl_msg x) < 2 ^ 64 ∧ sl_proc_id x = None.
Definition slice_seen (x : slice_ind_data_t) : sm_ag_if_rd_ind_t :=
  SLICE_STATS_V0 (mk_slice_ind_data (mk_slice_ind_hdr 0) (ind_read (sl_msg x)) None).
Definition slice_reads (r : RAN) (d : sm_ag_if_rd_ind_t) (r' : RAN) : Prop :=
  ∃ x, read_slice io zero_slice_data r = Ret (true, x, r') ∧ slice_sent x ∧ d = slice_seen x.

(** The RAN answers a request, as its own, with [o]. *)
Definition slice_asked (req : slice_ctrl_req_data_t) (o : slice_ctrl_out_t) (r r' : RAN) : Prop :=
  (c_ok (sl_cr_hdr req) ∧ slice_ctrl_msg_ok (sl_cr_msg req) ∧ sz_ctrl (sl_cr_msg req) < 2 ^ 64) ∧ str_ok (len_diag o) (diagnostic o) ∧
  write_slice io (mk_slice_ctrl_req_data (sl_cr_hdr req) (ctrl_read (sl_cr_msg req))) r =
    Ret (CTRL_OUTCOME_SM_AG_IF_ANS_V0 (mk_ans_ctrl_slice SLICE_AGENT_IF_CTRL_ANS_V0 o), r').
Definition slice_takes (c : user_data) (r r' : RAN) : Prop :=
  ∃ req o, c = USER_SLICE_CTRL req ∧ slice_asked req o r r'.

(** The diagnostic as the RIC gets it. *)
Definition diag_read (o : slice_ctrl_out_t) : option bytes := Some (take (Z.to_nat (len_diag o)) (default [] (diagnostic o))).

Lemma slice_period cmd ms : slice_period_ms cmd = Ret ms →
  ∃ et, on_subscription_slice_sm_ric (USER_STR cmd) = Ret (et, None) ∧
    ∀ id ad (r : RAN), on_subscription_slice_sm_ag (mk_sm_subs_data id et ad) r = Ret (PERIODIC_SUBSCRIPTION_FLRC ms AD_NULL, r).
Proof.
  intros Hms. assert (u_ok 32 ms) as Hu by (revert Hms; unfold slice_period_ms, u_ok; repeat case_match; intros [= <-]; lia).
  exists (enc_scalar CU32 ms). split.
  - unfold on_subscription_slice_sm_ric, SliceEnc.slice_enc_event_trigger_plain. rewrite Hms, outcome_bind_ret_l. by rewrite fill_scalar.
  - intros. unfold on_subscription_slice_sm_ag, SliceDec.slice_dec_event_trigger_plain. cbn [subs_event_trigger]. by rewrite rd_scalar_whole.
Qed.

Lemma slice_stats_sent r x r' : read_slice io zero_slice_data r = Ret (true, x, r') → slice_sent x →
  ∃ data, on_indication_slice_sm_ag io AD_NULL r = Ret (Some data, r') ∧ d_call_process_id data = None ∧
    Z.of_nat (length (d_ind_msg data)) = sz_ind (sl_msg x) ∧
    ∀ id act, on_indication_slice_sm_ric (generate_indication id act data) = Ret (3, slice_seen x).
Proof.
  intros Hr (Hok & Hsz & Hp). destruct (slice_ind_msg_decoded _ Hok Hsz) as (bs & He & Hl & Hd).
  exists (mk_sm_ind_data (enc_obj (mk_slice_ind_hdr 0)) bs None). split_and!; [|done..|].
  - unfold on_indication_slice_sm_ag, SliceEnc.slice_enc_ind_hdr_plain. returns. rewrite fill_copy by by_eval. returns.
    rewrite (st_bind_Ret _ _ _ _ _ Hr), He. returns. unfold free_slice_ind_data. by rewrite (free_ind_msg_ok _ Hok), Hp.
  - intros id act. unfold on_indication_slice_sm_ric, generate_indication. cbn [msg d_ind_msg]. by rewrite Hd.
Qed.

Lemma slice_control_sent req o r r' : slice_asked req o r r' →
  ∃ hdr msg out, ric_on_control_req_slice_sm_ric (USER_SLICE_CTRL req) = Ret (hdr, msg) ∧
    on_control_slice_sm_ag io hdr msg r = Ret (out, r') ∧
    ric_on_control_out_slice_sm_ric out = if 0 <? len_diag o then Ret (mk_ans_ctrl_slice SLICE_AGENT_IF_CTRL_ANS_V0 (mk_slice_ctrl_out 0 (len_diag o) (diag_read o))) else Abort.
Proof.
  intros ((Hh & Hm & Hsz) & Ho & Hw). destruct (slice_ctrl_msg_decoded _ Hm Hsz) as (bs & He & _ & Hd).
  destruct (ctrl_out_decoded o Ho) as (out & Hoe & Hod). exists (enc_obj (sl_cr_hdr req)), bs, out. split_and!.
  - unfold ric_on_control_req_slice_sm_ric, SliceEnc.slice_enc_ctrl_hdr_plain. by rewrite fill_copy, outcome_bind_ret_l, He.
  - unfold on_control_slice_sm_ag, SliceDec.slice_dec_ctrl_hdr_plain. rewrite dec_whole_enc by done. returns. rewrite Hd. returns.
    rewrite (st_bind_Ret _ _ _ _ _ Hw). cbn [ans_ctrl_type ans_ctrl_slice]. returns. rewrite Hoe. returns.
    unfold free_slice_ctrl_out. rewrite (free_ptr_str _ _ Ho). returns. by rewrite (free_ctrl_msg_ok _ (ctrl_read_ok _ Hm)).
  - unfold ric_on_control_out_slice_sm_ric. rewrite Hod, outcome_bind_ret_l. cbn [len_diag]. by destruct (0 <? len_diag o).
Qed.

#[export] Instance slice_contract : SmContract slice_period_ms (make_slice_sm_agent io) make_slice_sm_ric slice_reads slice_takes.
Proof.
  split.
  - done.
  - exact slice_period.
  - intros r d r' (x & Hr & Hok & ->). destruct (slice_stats_sent _ _ _ Hr Hok) as (data & Hs & Hc & _ & Hd). by exists data.
  - intros r d r' (x & _ & (Hok & _) & ->). pose proof (ind_read_ok _ Hok) as Hr. pose proof (free_ind_msg_ok _ Hr) as Hf.
    split_and!; [exact Hf|cbn; unfold free_slice_ind_data; cbn [sl_msg]; by rewrite Hf|].
    cbn [slice_seen cp_sm_ag_if_rd_ind]. unfold cp_slice_ind_data. cbn [sl_msg sl_proc_id sl_hdr]. rewrite cp_ind_ok by done.
    destruct (conf_copies _); [right; by eexists|by left].
  - intros c r r' (req & o & -> & Ha). destruct (slice_control_sent _ _ _ _ Ha) as (hdr & msg & out & Hc & Hg & _). by exists hdr, msg, out.
Qed.

(** C39. What a user of the slice service model gets: a report of the period asked for, in
    which the slices of the RAN come back, their strings ended by a 0; a control request
    reaches the RAN in the same way; and its answer, which the RIC reads as OK whatever
    it was, aborts unless there is a diagnostic. *)
Theorem slice_plugins_roundtrip r x r' cmd ms : read_slice io zero_slice_data r = Ret (true, x, r') → slice_sent x → slice_period_ms cmd = Ret ms →
  (∃ et, on_subscription_slice_sm_ric (USER_STR cmd) = Ret (et, None) ∧
     ∀ id ad (r1 : RAN), on_subscription_slice_sm_ag (mk_sm_subs_data id et ad) r1 = Ret (PERIODIC_SUBSCRIPTION_FLRC ms AD_NULL, r1)) ∧
  (∃ data, on_indication_slice_sm_ag io AD_NULL r = Ret (Some data, r') ∧ Z.of_nat (length (d_ind_msg data)) = sz_ind (sl_msg x) ∧
     ∀ id act, on_indication_slice_sm_ric (generate_indication id act data) = Ret (3, slice_seen x)) ∧
  (∀ req o r1 r2, slice_asked req o r1 r2 →
     ∃ hdr msg out, ric_on_control_req_slice_sm_ric (USER_SLICE_CTRL req) = Ret (hdr, msg) ∧
       on_control_slice_sm_ag io hdr msg r1 = Ret (out, r2) ∧
       ric_on_control_out_slice_sm_ric out =
         if 0 <? len_diag o then Ret (mk_ans_ctrl_slice SLICE_AGENT_IF_CTRL_ANS_V0 (mk_slice_ctrl_out 0 (len_diag o) (diag_read o))) else Abort).
Proof.
  intros Hr Hok Hms. split_and!.
  - exact (sm_period (SmContract := slice_contract) cmd ms Hms).
  - destruct (slice_stats_sent _ _ _ Hr Hok) as (data & Hs & _ & Hl & Hd). by exists data.
  - apply slice_control_sent.
Qed.
End contract.

Lemma demo_slices_sent : slice_sent (mk_slice_ind_data (mk_slice_ind_hdr 0) demo_slices None).
Proof. split_and!; [exact demo_slices_ok|done..]. Qed.

(** A request to associate a UE: the counting RAN answers it without a diagnostic. *)
Definition demo_assoc : slice_ctrl_req_data_t :=
  mk_slice_ctrl_req_data (mk_slice_ctrl_hdr 0) (SLICE_CTRL_SM_V0_UE_SLICE_ASSOC (mk_ue_slice_conf 1 [mk_ue_slice_assoc 5 7 1234])).
Lemma demo_assoc_asked : slice_asked one_of_each demo_assoc (mk_slice_ctrl_out 0 0 None) 4%nat 5%nat.
Proof.
  split; [split_and!; [by by_eval| |done]|split; [by apply (bool_decide_unpack (str_ok 0 None))|reflexivity]].
  split_and!; [split; by vm_compute|done|]. constructor; [|constructor]. split_and!; split; by vm_compute.
Qed.

Lemma slice_plugins_roundtrip_witness :
  (∃ et, on_subscription_slice_sm_ric (USER_STR "10_ms") = Ret (et, None)) ∧
  (∃ data, on_indication_slice_sm_ag one_of_each AD_NULL 0%nat = Ret (Some data, 1%nat)) ∧
  ∃ hdr msg out, ric_on_control_req_slice_sm_ric (USER_SLICE_CTRL demo_assoc) = Ret (hdr, msg) ∧
    on_control_slice_sm_ag one_of_each hdr msg 4%nat = Ret (out, 5%nat) ∧ ric_on_control_out_slice_sm_ric out = Abort.
Proof.
  destruct (slice_plugins_roundtrip one_of_each 0%nat _ 1%nat "10_ms" 10 eq_refl demo_slices_sent eq_refl)
    as ((et & He & _) & (data & Hd & _) & Hc).
  exact (conj (ex_intro _ et He) (conj (ex_intro _ data Hd) (Hc demo_assoc _ 4%nat 5%nat demo_assoc_asked))).
Defined.
