(* ===== verification/TcSm.v ===== *)
(** * TC service model: the plugins of the E2 node and of the RIC

    [src/src/sm/tc_sm/tc_sm_agent.c] and [tc_sm_ric.c], with the plain codec. *)
From Stdlib Require Import String.
From S2P Require SliceData.
From S2P Require Import Prelude CLayout SmCodec SmWire TcData TcCodec TcPlain RicIds E2apMsg NearRic Agent SmIf.
#[local] Open Scope Z_scope.

Definition SM_TC_ID : Z := 146.
Definition SM_TC_REV : Z := 1.
Definition SM_TC_STR : string := "TC_STATS_V0".
Definition SM_TC_OID : string := "0.0.0.0.0.0.0.0.1.146.0".

(** ** The E2 node, [tc_sm_agent.c] *)

Section agent.
Context {RAN : Type} (io : sm_io_ag_ran_t RAN).

Definition on_subscription_tc_sm_ag (data : sm_subs_data_t) : st RAN (sm_ag_if_ans_subs_t RAN act_def_t) :=
  ev ← st_lift (tc_dec_event_trigger_plain (subs_event_trigger data));
  mret (PERIODIC_SUBSCRIPTION_FLRC (tc_et_ms ev) AD_NULL).

(** The parts of the statistics are freed at the end, on both ways out. *)
Definition on_indication_tc_sm_ag (act_def : act_def_t) : st RAN (option sm_ind_data_t) :=
  st_assert (ad_is_null act_def);;
  ba_hdr ← st_lift (tc_enc_ind_hdr_plain (mk_tc_ind_hdr 0));
  '(ok, tc) ← read_tc io zero_tc_data;
  let free := free_tc_call_proc_id (tc_proc_id tc);; free_tc_ind_msg (tc_msg tc) in
  if ok : bool then
    ba ← st_lift (tc_enc_ind_msg_plain (tc_msg tc));
    st_lift free;;
    mret (Some (mk_sm_ind_data ba_hdr ba None))
  else
    st_lift free;;
    mret None.

(** The request is freed at the end; the answer owns nothing. *)
Definition on_control_tc_sm_ag (ctrl_hdr ctrl_msg : bytes) : st RAN bytes :=
  hdr ← st_lift (tc_dec_ctrl_hdr_plain ctrl_hdr);
  msg ← st_lift (tc_dec_ctrl_msg_plain ctrl_msg);
  ans ← write_tc io (mk_tc_ctrl_req_data hdr msg);
  match ans with
  | CTRL_OUTCOME_SM_AG_IF_ANS_V0 ctrl_out =>
      st_assert (bool_decide (ans_ctrl_type ctrl_out = TC_AGENT_IF_CTRL_ANS_V0));;
      ba ← st_lift (tc_enc_ctrl_out_plain (mk_tc_ctrl_out (ans_ctrl_ans ctrl_out)));
      st_lift (free_tc_ctrl_msg msg);;
      mret ba
  | _ => st_abort
  end.

Definition on_e2_setup_tc_sm_ag : st RAN bytes :=
  let sz := String.length SM_TC_STR in
  st_assert (sz <? 256)%nat;;
  mret (str_bytes SM_TC_STR).

Definition make_tc_sm_agent : sm_agent_t RAN act_def_t :=
  mk_sm_agent SM_TC_ID SM_TC_REV (str_bytes SM_TC_OID) on_subscription_tc_sm_ag on_indication_tc_sm_ag
    on_control_tc_sm_ag on_e2_setup_tc_sm_ag.
End agent.

(** ** The RIC and the xApp, [tc_sm_ric.c] *)

Definition on_subscription_tc_sm_ric (cmd : user_data) : outcome (bytes * option bytes) :=
  match cmd with
  | USER_STR cmd =>
      ms ← period_ms cmd;
      ba ← tc_enc_event_trigger_plain (mk_tc_event_trigger ms);
      Ret (ba, None)
  | USER_NULL => Abort
  | _ => Undef
  end.

(** The header is not decoded. *)
Definition on_indication_tc_sm_ric (data : ric_indication_t) : outcome (Z * sm_ag_if_rd_ind_t) :=
  m ← tc_dec_ind_msg_plain (msg data);
  let rd_if := TC_STATS_V0 (mk_tc_ind_data (mk_tc_ind_hdr 0) m None) in
  Ret (rd_ind_type rd_if, rd_if).

Definition ric_on_control_req_tc_sm_ric (ctrl : user_data) : outcome (bytes * bytes) :=
  match ctrl with
  | USER_NULL => Abort
  | USER_TC_CTRL data =>
      ba_hdr ← tc_enc_ctrl_hdr_plain (tc_cr_hdr data);
      ba ← tc_enc_ctrl_msg_plain (tc_cr_msg data);
      Ret (ba_hdr, ba)
  | _ => Undef
  end.

Definition ric_on_control_out_tc_sm_ric (out : bytes) : outcome sm_ag_if_ans_ctrl_t :=
  tc ← tc_dec_ctrl_out_plain out;
  Ret (mk_ans_ctrl TC_AGENT_IF_CTRL_ANS_V0 (tc_out tc)).

(** Nothing of the definition of the RAN function is kept. *)
Definition ric_on_e2_setup_tc_sm_ric (setup : bytes) : bytes := [].

Definition free_ind_data_tc_sm_ric (rd_ind : sm_ag_if_rd_ind_t) : outcome () :=
  match rd_ind with TC_STATS_V0 ind => free_tc_ind_msg (tc_msg ind) | _ => Abort end.

Definition make_tc_sm_ric : sm_ric_t user_data sm_ag_if_rd_ind_t :=
  mk_sm_ric SM_TC_ID on_subscription_tc_sm_ric on_indication_tc_sm_ric ric_on_control_req_tc_sm_ric free_ind_data_tc_sm_ric.

(** ** What is sent can be released *)

Lemma free_tc_ind_ok m : tc_ind_msg_ok m → free_tc_ind_msg m = Ret ().
Proof. intros (Hs & _). unfold free_tc_ind_msg. by destruct (tc_sch m). Qed.

Lemma free_tc_ctrl_ok m : tc_ctrl_msg_ok m → free_tc_ctrl_msg m = Ret ().
Proof.
  destruct m as [c|p|q|s|s|p|t]; cbn [tc_ctrl_msg_ok free_tc_ctrl_msg]; try done.
  - by destruct c as [[]|[]|[]|].
  - by destruct q.
  - by destruct s as [| |[]|].
Qed.

(** ** The two halves together *)

Section contract.
Context {RAN : Type} (io : sm_io_ag_ran_t RAN).

(** The RAN has a message for the user, who sees it under a zero header and without what
    is not sent. *)
Definition tc_seen (x : tc_ind_data_t) : sm_ag_if_rd_ind_t := TC_STATS_V0 (mk_tc_ind_data (mk_tc_ind_hdr 0) (tc_ind_read (tc_msg x)) None).
Definition tc_reads (r : RAN) (d : sm_ag_if_rd_ind_t) (r' : RAN) : Prop :=
  ∃ x, read_tc io zero_tc_data r = Ret (true, x, r') ∧ (tc_ind_msg_ok (tc_msg x) ∧ tc_proc_id x = None) ∧ d = tc_seen x.

(** The RAN answers a request, as its own, with [a]. *)
Definition tc_asked (req : tc_ctrl_req_data_t) (a : Z) (r r' : RAN) : Prop :=
  (c_ok (tc_cr_hdr req) ∧ tc_ctrl_msg_ok (tc_cr_msg req)) ∧ u_ok 32 a ∧
  write_tc io req r = Ret (CTRL_OUTCOME_SM_AG_IF_ANS_V0 (mk_ans_ctrl TC_AGENT_IF_CTRL_ANS_V0 a), r').
Definition tc_takes (c : user_data) (r r' : RAN) : Prop :=
  ∃ req a, c = USER_TC_CTRL req ∧ added_filter (tc_cr_msg req) = None ∧ tc_asked req a r r'.

Lemma tc_stats_sent r x r' : read_tc io zero_tc_data r = Ret (true, x, r') → tc_ind_msg_ok (tc_msg x) ∧ tc_proc_id x = None →
  ∃ data, on_indication_tc_sm_ag io AD_NULL r = Ret (Some data, r') ∧ d_call_process_id data = None ∧
    Z.of_nat (length (d_ind_msg data)) = sz_tc_ind (tc_msg x) ∧
    ∀ id act, on_indication_tc_sm_ric (generate_indication id act data) = Ret (4, tc_seen x).
Proof.
  intros Hr (Hok & Hp). destruct (tc_ind_msg_decoded _ Hok) as (bs & He & Hl & Hd).
  exists (mk_sm_ind_data (enc_obj (mk_tc_ind_hdr 0)) bs None). split_and!; [|done..|].
  - unfold on_indication_tc_sm_ag, tc_enc_ind_hdr_plain. returns. rewrite fill_copy by by_eval. returns.
    rewrite (st_bind_Ret _ _ _ _ _ Hr). cbv zeta. rewrite He. returns. by rewrite Hp, (free_tc_ind_ok _ Hok).
  - intros id act. unfold on_indication_tc_sm_ric, generate_indication. cbn [msg d_ind_msg]. by rewrite Hd.
Qed.

Lemma tc_control_sent req a r r' : tc_asked req a r r' →
  match added_filter (tc_cr_msg req) with
  | Some _ => ric_on_control_req_tc_sm_ric (USER_TC_CTRL req) = Abort
  | None => ∃ hdr msg out, ric_on_control_req_tc_sm_ric (USER_TC_CTRL req) = Ret (hdr, msg) ∧
      on_control_tc_sm_ag io hdr msg r = Ret (out, r') ∧
      ric_on_control_out_tc_sm_ric out = Ret (mk_ans_ctrl TC_AGENT_IF_CTRL_ANS_V0 a)
  end.
Proof.
  intros ((Hh & Hm) & Ha & Hw). pose proof (tc_ctrl_msg_coded _ Hm) as Hc.
  unfold ric_on_control_req_tc_sm_ric, tc_enc_ctrl_hdr_plain. rewrite fill_copy, outcome_bind_ret_l by done.
  destruct (added_filter (tc_cr_msg req)); [by rewrite Hc|]. destruct Hc as (bs & He & _ & Hd).
  assert (c_ok (mk_tc_ctrl_out a)) as Ho by (split; [constructor; [done|constructor]|done]).
  exists (enc_obj (tc_cr_hdr req)), bs, (enc_obj (mk_tc_ctrl_out a)). rewrite He. split_and!; [done| |].
  - unfold on_control_tc_sm_ag, tc_dec_ctrl_hdr_plain. rewrite dec_whole_enc by done. returns. rewrite Hd. returns.
    destruct req as [h m]. cbn [tc_cr_hdr tc_cr_msg] in *. rewrite (st_bind_Ret _ _ _ _ _ Hw). cbn [ans_ctrl_type mk_ans_ctrl]. returns.
    unfold tc_enc_ctrl_out_plain, ans_ctrl_ans. cbn [ans_ctrl_slice mk_ans_ctrl SliceData.sl_ans]. rewrite fill_copy by done. returns.
    by rewrite (free_tc_ctrl_ok _ Hm).
  - unfold ric_on_control_out_tc_sm_ric, tc_dec_ctrl_out_plain. rewrite (proj2 (Nat.ltb_lt _ _)) by (rewrite (length_enc_obj _ Ho); vm_compute; lia).
    cbn [c_assert]. by rewrite outcome_bind_ret_l, dec_whole_enc.
Qed.

#[export] Instance tc_contract : SmContract period_ms (make_tc_sm_agent io) make_tc_sm_ric tc_reads tc_takes.
Proof.
  split.
  - done.
  - solve_period make_tc_sm_ric on_subscription_tc_sm_ric tc_enc_event_trigger_plain make_tc_sm_agent on_subscription_tc_sm_ag tc_dec_event_trigger_plain.
  - intros r d r' (x & Hr & Hok & ->). destruct (tc_stats_sent _ _ _ Hr Hok) as (data & Hs & Hc & _ & Hd). by exists data.
  - intros r d r' (x & _ & (Hok & _) & ->). pose proof (tc_ind_read_ok _ Hok) as Hr. pose proof (free_tc_ind_ok _ Hr) as Hf.
    split_and!; [exact Hf|cbn; unfold free_tc_ind_data; cbn [tc_msg]; by rewrite Hf|].
    cbn [tc_seen cp_sm_ag_if_rd_ind]. unfold cp_tc_ind_data. cbn [tc_msg tc_proc_id tc_hdr]. rewrite cp_tc_ind_ok by done.
    destruct (_ && _); [right; by eexists|by left].
  - intros c r r' (req & a & -> & Hf & Ha). pose proof (tc_control_sent _ _ _ _ Ha) as Hc. rewrite Hf in Hc.
    destruct Hc as (hdr & msg & out & Hc & Hg & _). by exists hdr, msg, out.
Qed.

(** C40. What a user of the TC service model gets: a report of the period asked for, in
    which the traffic control of the RAN comes back but for what is not sent; a control
    request reaches the RAN and its answer comes back, both as they were, but for a new
    filter, which aborts the xApp. *)
Theorem tc_plugins_roundtrip r x r' cmd ms : read_tc io zero_tc_data r = Ret (true, x, r') →
  tc_ind_msg_ok (tc_msg x) ∧ tc_proc_id x = None → period_ms cmd = Ret ms →
  (∃ et, on_subscription_tc_sm_ric (USER_STR cmd) = Ret (et, None) ∧
     ∀ id ad (r1 : RAN), on_subscription_tc_sm_ag (mk_sm_subs_data id et ad) r1 = Ret (PERIODIC_SUBSCRIPTION_FLRC ms AD_NULL, r1)) ∧
  (∃ data, on_indication_tc_sm_ag io AD_NULL r = Ret (Some data, r') ∧ Z.of_nat (length (d_ind_msg data)) = sz_tc_ind (tc_msg x) ∧
     ∀ id act, on_indication_tc_sm_ric (generate_indication id act data) = Ret (4, tc_seen x)) ∧
  (∀ req a r1 r2, tc_asked req a r1 r2 →
     match added_filter (tc_cr_msg req) with
     | Some _ => ric_on_control_req_tc_sm_ric (USER_TC_CTRL req) = Abort
     | None => ∃ hdr msg out, ric_on_control_req_tc_sm_ric (USER_TC_CTRL req) = Ret (hdr, msg) ∧
         on_control_tc_sm_ag io hdr msg r1 = Ret (out, r2) ∧
         ric_on_control_out_tc_sm_ric out = Ret (mk_ans_ctrl TC_AGENT_IF_CTRL_ANS_V0 a)
     end).
Proof.
  intros Hr Hok Hms. split_and!.
  - exact (sm_period (SmContract := tc_contract) cmd ms Hms).
  - destruct (tc_stats_sent _ _ _ Hr Hok) as (data & Hs & _ & Hl & Hd). by exists data.
  - apply tc_control_sent.
Qed.
End contract.

(** A request for another order of the queues: the counting RAN answers it. *)
Definition demo_order : tc_ctrl_req_data_t := mk_tc_ctrl_req_data (mk_tc_ctrl_hdr 0) demo_prio.
Lemma demo_order_asked : tc_asked one_of_each demo_order 0 4%nat 5%nat.
Proof. split; [split; [by by_eval|exact demo_prio_ok]|split; [split; by vm_compute|reflexivity]]. Qed.

Lemma tc_plugins_roundtrip_witness :
  (∃ et, on_subscription_tc_sm_ric (USER_STR "100_ms") = Ret (et, None)) ∧
  (∃ data, on_indication_tc_sm_ag one_of_each AD_NULL 0%nat = Ret (Some data, 1%nat)) ∧
  ∃ hdr msg out, ric_on_control_req_tc_sm_ric (USER_TC_CTRL demo_order) = Ret (hdr, msg) ∧
    on_control_tc_sm_ag one_of_each hdr msg 4%nat = Ret (out, 5%nat) ∧
    ric_on_control_out_tc_sm_ric out = Ret (mk_ans_ctrl TC_AGENT_IF_CTRL_ANS_V0 0).
Proof.
  destruct (tc_plugins_roundtrip one_of_each 0%nat _ 1%nat "100_ms" 100 eq_refl (conj demo_tc_ok eq_refl) eq_refl)
    as ((et & He & _) & (data & Hd & _) & Hc).
  exact (conj (ex_intro _ et He) (conj (ex_intro _ data Hd) (Hc demo_order _ 4%nat 5%nat demo_order_asked))).
Defined.
