(* ===== verification/AgentInv.v ===== *)
(** * The E2 agent: every open timer has its event

    The timers in the epoll set of the agent are those of the periodic
    subscriptions and of the pending setup request; the handlers keep it so. *)
From Stdlib Require Import String.
From stdpp Require Import gmap.
From S2P Require Import Prelude AssocSpec AssocIter AssocFree BiMap BiMapFind RicIds E2apMsg NearRic Agent.
#[local] Set Warnings "-clear-no-such-hyp".
#[local] Set Default Proof Using "All".
#[local] Open Scope Z_scope.

#[export] Instance cmp_ind_event_comparator {RAN P} : Comparator (cmp_ind_event (RAN := RAN) (P := P)).
Proof. exact (comparator_proj cmp_ric_gen_id ie_ric_id _). Qed.

Lemma cmp_pending_event_refl ev : cmp_pending_event ev ev = 0.
Proof. by destruct ev. Qed.

Lemma filter_remove (l l' : list Z) x : NoDup l → l ≡ₚ x :: l' → filter (λ t, t ≠ x) l ≡ₚ l'.
Proof.
  intros Hnd Hl. rewrite Hl in Hnd |- *. apply NoDup_cons in Hnd as [Hx _].
  rewrite filter_cons_False by naive_solver. clear Hl. induction l' as [|y l' IH]; [done|].
  apply not_elem_of_cons in Hx as [Hy Hx]. rewrite filter_cons_True by done. by rewrite IH.
Qed.

Section agent.
Context {RAN P TIL TIR IIL IIR TPL TPR IPL IPR TS IS : Type}
  `{OIL : AssocOps Z (ind_event_t RAN P) TIL} `{OIR : AssocOps (ind_event_t RAN P) Z TIR}
  `{IOIL : !AssocIterOps Z (ind_event_t RAN P) TIL IIL} `{IOIR : !AssocIterOps (ind_event_t RAN P) Z TIR IIR}
  `{OPL : AssocOps Z pending_event_t TPL} `{OPR : AssocOps pending_event_t Z TPR}
  `{IOPL : !AssocIterOps Z pending_event_t TPL IPL} `{IOPR : !AssocIterOps pending_event_t Z TPR IPR}
  `{FPL : !AssocFreeOps Z pending_event_t TPL IPL} `{FPR : !AssocFreeOps pending_event_t Z TPR IPR}
  `{OS : AssocOps Z (sm_agent_t RAN P) TS} `{IOS : !AssocIterOps Z (sm_agent_t RAN P) TS IS}.
Context {LIL : AssocLaws (V := ind_event_t RAN P) (T := TIL) cmp_fd} {LIR : AssocLaws (V := Z) (T := TIR) (cmp_ind_event (RAN := RAN) (P := P))}
  {ILIL : AssocIterLaws (V := ind_event_t RAN P) (I := IIL) cmp_fd} {ILIR : AssocIterLaws (V := Z) (I := IIR) (cmp_ind_event (RAN := RAN) (P := P))}
  {LPL : AssocLaws (V := pending_event_t) (T := TPL) cmp_fd}
  {LPR : AssocLaws (V := Z) (T := TPR) cmp_pending_event}
  {ILPL : AssocIterLaws (V := pending_event_t) (I := IPL) cmp_fd} {ILPR : AssocIterLaws (V := Z) (I := IPR) cmp_pending_event}
  {FLPL : AssocFreeLaws (V := pending_event_t) (I := IPL) cmp_fd} {FLPR : AssocFreeLaws (V := Z) (I := IPR) cmp_pending_event}
  {LS : AssocLaws (V := sm_agent_t RAN P) (T := TS) cmp_ran_func_id} {ILS : AssocIterLaws (V := sm_agent_t RAN P) (I := IS) cmp_ran_func_id}.
Context (timerfd_create : list Z → Z) (ep_fd pipe_r : Z)
  (read_setup_ran : Z → st RAN (list e2ap_node_component_config_add_t))
  (encodes : e2_setup_request_t → bool) (SM : list (Z * sm_agent_t RAN P)).
Context (timerfd_create_fresh : ∀ open, 0 < timerfd_create open ∧ (timerfd_create open ∉ open) ∧
  timerfd_create open ≠ ep_fd ∧ timerfd_create open ≠ pipe_r).

Abbreviation agent := (e2_agent_t (RAN := RAN) (P := P) (TIL := TIL) (TIR := TIR) (TPL := TPL) (TPR := TPR) (TS := TS)).
Abbreviation ev_t := (ind_event_t RAN P).
Implicit Types (a : agent) (S : list (Z * ev_t)) (o : option Z).

Definition pend_of o : list (Z * pending_event_t) :=
  match o with Some fd => [(fd, SETUP_REQUEST_PENDING_EVENT)] | None => [] end.

(** The timers of the subscriptions; 0 stands for aperiodic ones. *)
Definition sub_timers S : list Z := filter (λ fd, fd ≠ 0) S.*1.
Arguments sub_timers : simpl never.

Definition kind_ok (p : Z * ev_t) : Prop :=
  match ie_sm p.2, ie_sub p.2 with
  | Some _, PERIODIC_SUBSCRIPTION_FLRC _ _ => 0 < p.1
  | Some _, APERIODIC_SUBSCRIPTION_FLRC _ => p.1 = 0
  | _, _ => False
  end.

(** The subscriptions [S], the timer [o] of the pending setup request. *)
Record owned a S o : Prop := mk_owned {
  ow_ind : bm_rep cmp_fd cmp_ind_event (ag_ind_event a) S;
  ow_pend : bm_rep cmp_fd cmp_pending_event (ag_pending a) (pend_of o);
  ow_open : open_timers a ≡ₚ option_list o ++ sub_timers S;
  ow_fds : Forall (λ fd, 0 < fd ∧ fd ≠ ep_fd ∧ fd ≠ pipe_r) (open_timers a);
  ow_nodup : NoDup (open_timers a);
  ow_kind : Forall kind_ok S;
  ow_sms : a_rep (ag_sm_ds a) SM }.

Lemma on_ind_read {A} (m : st bi_map_t A) a x : m (ag_ind_event a) = Ret (x, ag_ind_event a) → on_ind m a = Ret (x, a).
Proof. intros H. unfold on_ind. rewrite H. by destruct a. Qed.
Lemma on_pend_read {A} (m : st bi_map_t A) a x : m (ag_pending a) = Ret (x, ag_pending a) → on_pend m a = Ret (x, a).
Proof. intros H. unfold on_pend. rewrite H. by destruct a. Qed.
Lemma on_sms_read {A} (m : st TS A) a x : m (ag_sm_ds a) = Ret (x, ag_sm_ds a) → on_sms m a = Ret (x, a).
Proof. intros H. unfold on_sms. rewrite H. by destruct a. Qed.

Lemma on_ran_bind {A B} (m : st RAN A) (f : A → st agent B) a :
  (on_ran m ≫= f) a = ('(x, r) ← m (ag_ran a); f x (set_ran r a)).
Proof. unfold mbind at 1, st_bind, on_ran. by destruct (m (ag_ran a)) as [[]| | | |]. Qed.

(** *** Timers *)

Lemma create_timer_ok a ms1 ms2 : -1 < ms1 → -1 < ms2 →
  create_timer_ms_asio_agent timerfd_create ms1 ms2 a =
    Ret (timerfd_create (open_timers a), set_open (timerfd_create (open_timers a) :: open_timers a) a).
Proof.
  intros H1 H2. unfold create_timer_ms_asio_agent. destruct (timerfd_create_fresh (open_timers a)) as (Hpos & _).
  assert ((ms1 >? -1) = true) as -> by lia. assert ((ms2 >? -1) = true) as -> by lia.
  rewrite !(st_bind_Ret _ _ _ _ _ eq_refl). cbv zeta. by rewrite (proj2 (Z.eqb_neq _ _)) by lia.
Qed.

Lemma create_timer_inv a ms1 ms2 fd a' : create_timer_ms_asio_agent timerfd_create ms1 ms2 a = Ret (fd, a') →
  fd = timerfd_create (open_timers a) ∧ a' = set_open (fd :: open_timers a) a.
Proof.
  intros H. destruct (decide (-1 < ms1)) as [H1|H1].
  - destruct (decide (-1 < ms2)) as [H2|H2]; [rewrite create_timer_ok in H by done; by injection H as <- <-|].
    exfalso. apply st_bind_inv in H as ([] & a1 & [_ ->]%st_assert_inv & H).
    apply st_bind_inv in H as ([] & a1 & [Hb ->]%st_assert_inv & H). lia.
  - exfalso. apply st_bind_inv in H as ([] & a1 & [Hb ->]%st_assert_inv & H). lia.
Qed.

(** *** Subscriptions *)

Lemma sub_timers_cons p S : sub_timers (p :: S) = if p.1 =? 0 then sub_timers S else p.1 :: sub_timers S.
Proof.
  unfold sub_timers. rewrite fmap_cons. destruct (Z.eqb_spec p.1 0) as [H0|H0].
  - by rewrite filter_cons_False by naive_solver.
  - by rewrite filter_cons_True.
Qed.

Lemma sub_timers_perm S S' : S ≡ₚ S' → sub_timers S ≡ₚ sub_timers S'.
Proof. intros H. unfold sub_timers. by rewrite H. Qed.

Lemma timer_open a S o p : owned a S o → p ∈ S → p.1 ≠ 0 → p.1 ∈ open_timers a.
Proof.
  intros Ho Hp H0. rewrite (ow_open _ _ _ Ho). apply elem_of_app. right. unfold sub_timers.
  apply list_elem_of_filter. split; [done|]. by apply list_elem_of_fmap_2.
Qed.

(** The pair of a new event. *)
Lemma fresh_event S fd ev : fd ∉ S.*1 → Forall (λ p, ie_ric_id p.2 ≠ ie_ric_id ev) S →
  fresh_pair cmp_fd cmp_ind_event fd ev S = true.
Proof.
  intros Hfd Hev. apply (fresh_pair_spec cmp_fd cmp_ind_event). split; apply Forall_forall; intros p Hp Hc.
  - apply Hfd. apply cmp_up_eq in Hc as ->. by apply list_elem_of_fmap_2.
  - rewrite Forall_forall in Hev. apply (Hev p Hp). by apply cmp_ric_gen_id_eq in Hc.
Qed.

Lemma insert_event a S o fd ev : owned a S o → fd ∉ S.*1 → Forall (λ p, ie_ric_id p.2 ≠ ie_ric_id ev) S → kind_ok (fd, ev) →
  ∃ b, bi_map_insert cmp_fd cmp_ind_event fd ev (ag_ind_event a) = Ret ((), b) ∧ bm_rep cmp_fd cmp_ind_event b ((fd, ev) :: S).
Proof.
  intros Ho Hfd Hev _. by apply (bm_insert_ok cmp_fd cmp_ind_event _ _ _ _ (ow_ind _ _ _ Ho)), fresh_event.
Qed.

Lemma insert_periodic a S o ev : owned a S o → Forall (λ p, ie_ric_id p.2 ≠ ie_ric_id ev) S →
  let fd := timerfd_create (open_timers a) in kind_ok (fd, ev) →
  ∃ b, bi_map_insert cmp_fd cmp_ind_event fd ev (ag_ind_event a) = Ret ((), b) ∧
    owned (set_ind b (set_open (fd :: open_timers a) a)) ((fd, ev) :: S) o.
Proof.
  intros Ho Hev fd Hk. destruct (timerfd_create_fresh (open_timers a)) as (Hpos & Hfr & He & Hp). fold fd in Hpos, Hfr, He, Hp.
  destruct (insert_event a S o fd ev Ho) as (b & Hb & Hrep); [|done|done|].
  { intros (p & Hfp & Hin)%list_elem_of_fmap. apply Hfr. rewrite Hfp. apply (timer_open a S o); [done|done|lia]. }
  exists b. split; [done|]. destruct Ho. constructor; cbn; try done.
  - rewrite sub_timers_cons. cbn. rewrite (proj2 (Z.eqb_neq fd 0)) by lia. rewrite ow_open0. apply Permutation_middle.
  - by constructor.
  - by constructor.
  - by constructor.
Qed.

Lemma insert_aperiodic a S o ev : owned a S o → Forall (λ p, ie_ric_id p.2 ≠ ie_ric_id ev) S →
  0 ∉ S.*1 → kind_ok (0, ev) →
  ∃ b, bi_map_insert cmp_fd cmp_ind_event 0 ev (ag_ind_event a) = Ret ((), b) ∧ owned (set_ind b a) ((0, ev) :: S) o.
Proof.
  intros Ho Hev H0 Hk. destruct (insert_event a S o 0 ev Ho H0 Hev Hk) as (b & Hb & Hrep).
  exists b. split; [done|]. destruct Ho. constructor; cbn; try done. by constructor.
Qed.

Lemma remove_event a S o p k : owned a S o → p ∈ S → ie_ric_id k = ie_ric_id p.2 →
  ∃ b S', bi_map_extract_right cmp_fd cmp_ind_event k (ag_ind_event a) = Ret (p.1, b) ∧ S ≡ₚ p :: S' ∧
    owned (set_ind b (set_open (if p.1 =? 0 then open_timers a else filter (λ t, t ≠ p.1) (open_timers a)) a)) S' o.
Proof.
  intros Ho Hp Hk.
  destruct (bm_right_ok cmp_fd cmp_ind_event (ag_ind_event a) S p k (ow_ind _ _ _ Ho) Hp) as (b & S' & Hx & HS & Hb).
  { unfold cmp_ind_event. rewrite Hk. by apply cmp_ric_gen_id_eq. }
  exists b, S'. split_and!; [done|done|]. destruct Ho. rewrite HS in ow_kind0. apply Forall_cons in ow_kind0 as [_ Hkind].
  rewrite (sub_timers_perm _ _ HS), sub_timers_cons in ow_open0.
  destruct (Z.eqb_spec p.1 0) as [H0|H0]; constructor; cbn; try done.
  - apply (filter_remove _ _ _ ow_nodup0). rewrite ow_open0. symmetry. apply Permutation_middle.
  - apply Forall_forall. intros x [_ Hy]%list_elem_of_filter. rewrite Forall_forall in ow_fds0. by apply ow_fds0.
  - by apply NoDup_filter.
Qed.

(** A search among the events. *)
Lemma find_event a S o (f : ev_t → bool) : owned a S o → ∃ r, on_ind (on_right (find_in_tree f)) a = Ret (r, a) ∧
  match r with
  | None => Forall (λ p, f p.2 = false) S
  | Some it => ∃ p, p ∈ S ∧ f p.2 = true ∧ on_ind (on_right (a_key it)) a = Ret (p.2, a)
  end.
Proof.
  intros Ho. destruct (ow_ind _ _ _ Ho) as (L & R & _ & HR & _ & _ & _ & HPR & _).
  destruct (find_in_tree_spec cmp_ind_event f _ R HR) as (r & Hf & Hr). exists r. split.
  { apply on_ind_read. rewrite (on_right_Ret _ _ _ _ Hf). by destruct (ag_ind_event a). }
  destruct r as [it|].
  - destruct Hr as (j & k & v & Hit & Hj & Hk & _). destruct (a_entry_ok _ R j it k v HR Hit Hj) as [Hkey _].
    exists (v, k). split_and!; [|done|].
    + assert ((k, v) ∈ swap <$> S) as Hin by (rewrite <-HPR; by eapply list_elem_of_lookup_2).
      apply list_elem_of_fmap in Hin as ([v' k'] & [= -> ->] & Hin). done.
    + apply on_ind_read. rewrite (on_right_Ret _ _ _ _ Hkey). by destruct (ag_ind_event a).
  - rewrite HPR in Hr. by apply Forall_fmap in Hr.
Qed.

(** *** The pending setup request *)

(** The loop over the pending timers; [f] does not touch them. *)
Lemma for_each_fd_ok (Q : Z → Prop) (f : Z → st agent ()) (g : Z → agent → agent) :
  (∀ fd a, Q fd → f fd a = Ret ((), g fd a)) → (∀ fd a, ag_pending (g fd a) = ag_pending a) →
  ∀ fuel a L i it e, Forall Q L.*1 → a_rep (left (ag_pending a)) L → a_it_at (left (ag_pending a)) L i it →
    a_it_at (left (ag_pending a)) L (length L) e → (i <= length L)%nat → (length L - i < fuel)%nat →
    for_each_fd fuel f it e a = Ret ((), foldl (λ a fd, g fd a) a (drop i L).*1).
Proof.
  intros Hf Hg. induction fuel as [|fuel IH]; intros a L i it e HQ HL Hit He Hi Hfuel; [lia|]. cbn [for_each_fd].
  pose proof (it_neq_end cmp_fd _ L i it e HL Hit He Hi) as Hend. case_bool_decide.
  - subst i. by rewrite drop_ge.
  - destruct (lookup_lt_is_Some_2 L i Hend) as [[fd ev] Hk].
    destruct (a_entry_ok _ L i it fd ev HL Hit Hk) as [Hkey _].
    destruct (a_next_ok _ L i it HL Hit Hend) as (it' & Hn & Hit').
    rewrite (st_bind_Ret _ _ a fd a).
    2: { apply on_pend_read. rewrite (on_left_Ret _ _ _ _ Hkey). by destruct (ag_pending a). }
    assert (Q fd) as Hfd.
    { rewrite Forall_forall in HQ. apply HQ. by apply (list_elem_of_fmap_2' fst _ (fd, ev)); [eapply list_elem_of_lookup_2|]. }
    rewrite (st_bind_Ret _ _ _ _ _ (Hf fd a Hfd)), (st_bind_Ret _ _ (g fd a) it' (g fd a)).
    2: { apply on_pend_read. rewrite Hg. rewrite (on_left_Ret _ _ _ _ Hn). by destruct (ag_pending a). }
    rewrite (drop_S L (fd, ev) i Hk). cbn [fmap list_fmap foldl fst].
    apply IH; rewrite ?Hg; done || lia.
Qed.

Lemma for_each_pending_ok (Q : Z → Prop) (f : Z → st agent ()) (g : Z → agent → agent) a o :
  (∀ fd a, Q fd → f fd a = Ret ((), g fd a)) → (∀ fd a, ag_pending (g fd a) = ag_pending a) →
  (∀ fd, o = Some fd → Q fd) →
  bm_rep cmp_fd cmp_pending_event (ag_pending a) (pend_of o) →
  for_each_pending f a = Ret ((), match o with Some fd => g fd a | None => a end).
Proof.
  intros Hf Hg HQ (L & R & HL & _ & _ & _ & HPL & _). unfold for_each_pending.
  rewrite (st_bind_Ret st_get _ _ _ _ eq_refl).
  destruct (a_front_ok _ L HL) as (it & Hfr & Hit). rewrite (st_bind_Ret _ _ a it a).
  2: { apply on_pend_read. rewrite (on_left_Ret _ _ _ _ Hfr). by destruct (ag_pending a). }
  destruct (a_end_ok _ L HL) as (e & He & Hie). rewrite (st_bind_Ret _ _ a e a).
  2: { apply on_pend_read. rewrite (on_left_Ret _ _ _ _ He). by destruct (ag_pending a). }
  rewrite (for_each_fd_ok Q f g Hf Hg _ a L 0 it e); [|rewrite HPL; destruct o as [fd|]; cbn; [constructor; [by apply HQ|constructor]|constructor]|done..|lia|rewrite (a_rep_size _ _ HL); lia].
  rewrite drop_0. destruct o as [fd|]; cbn in HPL.
  - by apply Permutation_singleton_r in HPL as ->.
  - by apply Permutation_nil_r in HPL as ->.
Qed.

Lemma pend_rep a S o : owned a S o → ∀ fd, o = Some fd → 0 < fd ∧ fd ∈ open_timers a.
Proof.
  intros Ho fd ->. assert (fd ∈ open_timers a) as Hin by (rewrite (ow_open _ _ _ Ho); left).
  split; [|done]. pose proof (ow_fds _ _ _ Ho) as HF. rewrite Forall_forall in HF. by apply HF.
Qed.

(** Freeing the map of pending events frees no timer. *)
Lemma free_pending_ok a o : bm_rep cmp_fd cmp_pending_event (ag_pending a) (pend_of o) → (∀ fd, o = Some fd → 0 < fd) →
  free_pending_agent a = Ret ((), a).
Proof.
  intros Hb Hpos. unfold free_pending_agent.
  rewrite (st_bind_Ret _ _ a () a).
  2: { rewrite (for_each_pending_ok (λ fd, 0 < fd) free_fd (λ _ a, a) a o); [by destruct o| |done|done|done].
    intros fd a' Hfd. unfold free_fd. by assert ((fd >? 0) = true) as -> by lia. }
  rewrite (st_bind_Ret st_get _ _ _ _ eq_refl). destruct Hb as (L & R & _ & HR & _ & _ & _ & HPR & _).
  unfold st_lift at 1. unfold mbind at 1, st_bind at 1. rewrite (a_rep_entries _ R HR). cbn.
  destruct o as [fd|]; cbn in HPR.
  - by apply Permutation_singleton_r in HPR as ->.
  - by apply Permutation_nil_r in HPR as ->.
Qed.

Lemma init_pending_rep : bm_rep cmp_fd cmp_pending_event (mk_bi_map (TL := TPL) (TR := TPR) a_init a_init true) (pend_of None).
Proof. exists [], []. split_and!; try done; try apply a_init_ok; apply SSorted_nil. Qed.

(** A new pending setup request. *)
Lemma insert_setup_ok a fd : bm_rep cmp_fd cmp_pending_event (ag_pending a) (pend_of None) →
  ∃ b, insert_setup_pending fd a = Ret ((), set_pend b a) ∧ bm_rep cmp_fd cmp_pending_event b (pend_of (Some fd)).
Proof.
  intros Hb. destruct (bm_insert_ok cmp_fd cmp_pending_event _ _ fd SETUP_REQUEST_PENDING_EVENT Hb eq_refl) as (b & Hi & Hb').
  exists b. split; [|done]. unfold insert_setup_pending, on_pend. by rewrite Hi.
Qed.

(** The setup request the RAN describes, with its transaction id. *)
Fixpoint run_setups (L : list (Z * sm_agent_t RAN P)) : st RAN (list ran_function_t) :=
  match L with
  | [] => mret []
  | (key, sm) :: L =>
      st_assert (ag_sm_id sm =? key);;
      def ← ag_on_e2_setup sm;
      rfs ← run_setups L;
      mret (mk_ran_function (ag_sm_id sm) (ag_sm_rev sm) def (ag_sm_oid sm) :: rfs)
  end.

Definition setup_of (id : global_e2_node_id_t) (trans_id : Z) : st RAN e2_setup_request_t :=
  st_assert (0 <? length SM)%nat;;
  rfs ← run_setups SM;
  cca ← read_setup_ran (type id);
  mret (mk_e2_setup_request (wrap 8 trans_id) id rfs cca).

Lemma setup_ran_func_ok n i it e a : a_rep (ag_sm_ds a) SM → a_it_at (ag_sm_ds a) SM i it →
  a_it_at (ag_sm_ds a) SM (length SM) e → (i + n = length SM)%nat →
  setup_ran_func n it a = ('(rfs, r) ← run_setups (drop i SM) (ag_ran a); Ret ((rfs, e), set_ran r a)).
Proof.
  revert i it a. induction n as [|n IH]; intros i it a HSM Hit He Hi; cbn [setup_ran_func].
  - rewrite drop_ge by lia. assert (it = e) as ->.
    { apply (a_it_fun (ag_sm_ds a) SM (length SM)); [done| |done]. by replace (length SM) with i by lia. }
    cbn. by destruct a.
  - assert (i < length SM)%nat as Hlt by lia. destruct (lookup_lt_is_Some_2 SM i Hlt) as [[k sm] Hk].
    destruct (a_entry_ok (ag_sm_ds a) SM i it k sm HSM Hit Hk) as [Hkey Hval]. destruct (a_next_ok (ag_sm_ds a) SM i it HSM Hit Hlt) as (it' & Hn & Hit').
    rewrite (st_bind_Ret _ _ _ _ _ (on_sms_read _ _ _ Hval)), (st_bind_Ret _ _ _ _ _ (on_sms_read _ _ _ Hkey)).
    rewrite (drop_S SM (k, sm) i Hk). cbn [run_setups]. unfold st_assert. destruct (ag_sm_id sm =? k); [|done].
    rewrite !(st_bind_Ret _ _ _ _ _ eq_refl), on_ran_bind, (st_bind_eq (ag_on_e2_setup sm)).
    destruct (ag_on_e2_setup sm (ag_ran a)) as [[def r]| | | |]; try done. cbn [mbind outcome_bind].
    rewrite (st_bind_Ret _ _ _ _ _ (on_sms_read _ (set_ran r a) _ Hn)), (st_bind_eq (setup_ran_func _ _)), (st_bind_eq (run_setups _)).
    rewrite (IH (S i) it' (set_ran r a)); [|done..|lia]. cbn [ag_ran set_ran].
    by destruct (run_setups (drop (S i) SM) r) as [[rfs r']| | | |].
Qed.

Lemma gen_setup_request_ok a : a_rep (ag_sm_ds a) SM →
  gen_setup_request read_setup_ran a =
  ('(sr, r) ← setup_of (global_e2_node_id a) (trans_id_setup_req a) (ag_ran a);
   Ret (sr, set_ran r (set_trans (wrap 32 (trans_id_setup_req a + 1)) a))).
Proof.
  intros HSM. unfold gen_setup_request, setup_of. rewrite (st_bind_Ret st_get _ _ _ _ eq_refl). cbv zeta.
  rewrite (a_rep_size _ _ HSM). unfold st_assert. destruct (0 <? length SM)%nat; [|done].
  rewrite !(st_bind_Ret _ _ _ _ _ eq_refl). set (a1 := set_trans _ a).
  destruct (a_front_ok _ SM HSM) as (it & Hf & Hit). rewrite (st_bind_Ret _ _ _ _ _ (on_sms_read _ a1 _ Hf)).
  destruct (a_end_ok _ SM HSM) as (e & He & Hie).
  rewrite (st_bind_eq (setup_ran_func _ _)), (setup_ran_func_ok (length SM) 0 it e a1 HSM Hit Hie eq_refl), (st_bind_eq (run_setups SM)).
  rewrite drop_0. cbn [ag_ran a1 set_trans]. destruct (run_setups SM (ag_ran a)) as [[rfs r]| | | |]; try done. cbn [mbind outcome_bind].
  cbv beta iota.
  rewrite (st_bind_Ret _ _ _ _ _ (on_sms_read _ (set_ran r a1) _ He)), bool_decide_eq_true_2 by done.
  rewrite (st_bind_Ret _ _ _ _ _ eq_refl), on_ran_bind, (st_bind_eq (read_setup_ran _)). cbn [ag_ran set_ran a1 set_trans].
  destruct (read_setup_ran _ r) as [[cca r']| | | |]; try done.
  cbn. by destruct (global_e2_node_id a).
Qed.
End agent.
