(* ===== verification/AgentStep.v ===== *)
(** * The E2 agent: every handler keeps the timers and their events together

    The handlers of [Agent] on a state that satisfies [AgentInv.owned]. *)
From Stdlib Require Import String.
From stdpp Require Import gmap.
From S2P Require Import Prelude AssocSpec AssocIter AssocFree BiMap BiMapFind RicIds E2apMsg NearRic Agent AgentInv.
#[local] Set Warnings "-clear-no-such-hyp".
#[local] Set Default Proof Using "All".
#[local] Open Scope Z_scope.

Lemma alter_bump_addr (i : nat) (l : list ric_connection_t) : ric_addr <$> alter bump i l = ric_addr <$> l.
Proof. revert i. induction l as [|c l IH]; intros [|i]; cbn; [done..|]. f_equal. apply IH. Qed.

Lemma find_connection_addrs l addr : find_connection l addr = fst <$> list_find (λ x, x = addr) (ric_addr <$> l).
Proof. rewrite list_find_fmap. unfold find_connection, compose. by destruct (list_find _ l) as [[]|]. Qed.

Section agent.
Context {RAN P TIL TIR IIL IIR TPL TPR IPL IPR TS IS : Type}
  `{OIL : AssocOps Z (ind_event_t RAN P) TIL} `{OIR : AssocOps (ind_event_t RAN P) Z TIR}
  `{IOIL : !AssocIterOps Z (ind_event_t RAN P) TIL IIL} `{IOIR : !AssocIterOps (ind_event_t RAN P) Z TIR IIR}
  `{OPL : AssocOps Z pending_event_t TPL} `{OPR : AssocOps pending_event_t Z TPR}
  `{IOPL : !AssocIterOps Z pending_event_t TPL IPL} `{IOPR : !AssocIterOps pending_event_t Z TPR IPR}
  `{FPL : !AssocFreeOps Z pending_event_t TPL IPL} `{FPR : !AssocFreeOps pending_event_t Z TPR IPR}
  `{OS : AssocOps Z (sm_agent_t RAN P) TS} `{IOS : !AssocIterOps Z (sm_agent_t RAN P) TS IS}.
Context {LIL : AssocLaws (V := ind_event_t RAN P) (T := TIL) cmp_fd} {LIR : AssocLaws (V := Z) (T := TIR) (cmp_ind_event (RAN := RAN) (P := P))}
  {ILIL : AssocIterLaws (V := ind_event_t RAN P) (I := IIL) cmp_fd} {ILIR : AssocIterLaws (V := Z) (I := IIR) (cmp_ind_event (RAN := RAN) (P := P))}
  {LPL : AssocLaws (V := pending_event_t) (T := TPL) cmp_fd}
  {LPR : AssocLaws (V := Z) (T := TPR) cmp_pending_event}
  {ILPL : AssocIterLaws (V := pending_event_t) (I := IPL) cmp_fd} {ILPR : AssocIterLaws (V := Z) (I := IPR) cmp_pending_event}
  {FLPL : AssocFreeLaws (V := pending_event_t) (I := IPL) cmp_fd} {FLPR : AssocFreeLaws (V := Z) (I := IPR) cmp_pending_event}
  {LS : AssocLaws (V := sm_agent_t RAN P) (T := TS) cmp_ran_func_id} {ILS : AssocIterLaws (V := sm_agent_t RAN P) (I := IS) cmp_ran_func_id}.
Context (timerfd_create : list Z → Z) (ep_fd pipe_r : Z)
  (read_setup_ran : Z → st RAN (list e2ap_node_component_config_add_t))
  (encodes : e2_setup_request_t → bool) (SM : list (Z * sm_agent_t RAN P)).
Context (timerfd_create_fresh : ∀ open, 0 < timerfd_create open ∧ (timerfd_create open ∉ open) ∧
  timerfd_create open ≠ ep_fd ∧ timerfd_create open ≠ pipe_r).

Abbreviation agent := (e2_agent_t (RAN := RAN) (P := P) (TIL := TIL) (TIR := TIR) (TPL := TPL) (TPR := TPR) (TS := TS)).
Abbreviation ev_t := (ind_event_t RAN P).
#[local] Notation "'with_ctx' f" :=
  (f timerfd_create ep_fd pipe_r read_setup_ran encodes SM timerfd_create_fresh) (at level 9, only parsing).
Implicit Types (a : agent) (S : list (Z * ev_t)) (o : option Z).
Abbreviation owned := (owned ep_fd pipe_r SM).
Abbreviation new_timer a := (timerfd_create (open_timers a)).

Lemma owned_same a a' S o : owned a S o → ag_ind_event a' = ag_ind_event a → ag_pending a' = ag_pending a →
  open_timers a' = open_timers a → ag_sm_ds a' = ag_sm_ds a → owned a' S o.
Proof. intros [] H1 H2 H3 H4. constructor; rewrite ?H1, ?H2, ?H3, ?H4; done. Qed.

Lemma keeps_ran {A} (m : st RAN A) S o : keeps (λ a, owned a S o) (on_ran m).
Proof.
  intros a x a' Ho H. unfold on_ran in H. destruct (m (ag_ran a)) as [[y r]| | | |]; try done.
  injection H as _ <-. by apply (owned_same a).
Qed.
Lemma keeps_send m S o : keeps (λ a, owned a S o) (st_mod (e2ap_send m)).
Proof. apply keeps_mod. intros a Ho. by apply (owned_same a). Qed.

(** *** The pending setup request *)

Lemma pending_size a o : bm_rep cmp_fd cmp_pending_event (ag_pending a) (pend_of o) →
  on_pend bi_map_size a = Ret (length (pend_of o), a).
Proof.
  intros Hb. pose proof (bm_rep_sizes _ _ _ _ Hb) as (Hl & Hr & He).
  apply (with_ctx on_pend_read). unfold bi_map_size. rewrite (st_bind_Ret st_get _ _ _ _ eq_refl).
  unfold st_assert. rewrite He. rewrite (st_bind_Ret _ _ _ _ _ eq_refl). cbn. by rewrite Hl.
Qed.

Lemma free_if_any_ok a S o : owned a S o →
  free_pending_if_any a = Ret ((), set_pend (mk_bi_map a_init a_init true) a).
Proof.
  intros Ho. unfold free_pending_if_any. rewrite (st_bind_Ret _ _ _ _ _ (pending_size a o (ow_pend _ _ _ _ _ _ Ho))).
  assert (free_pending_agent a = Ret ((), a)) as Hf.
  { apply (with_ctx free_pending_ok a o (ow_pend _ _ _ _ _ _ Ho)). intros fd Hfd.
    by apply (with_ctx pend_rep a S o Ho fd). }
  destruct (0 <? length (pend_of o))%nat; [by rewrite (st_bind_Ret _ _ _ _ _ Hf)|done].
Qed.

(** A new timer with its pending event. *)
Lemma arm_setup a S : owned a S None →
  ∃ b, insert_setup_pending (new_timer a) (set_open (new_timer a :: open_timers a) a) =
      Ret ((), set_pend b (set_open (new_timer a :: open_timers a) a)) ∧
    owned (set_pend b (set_open (new_timer a :: open_timers a) a)) S (Some (new_timer a)).
Proof.
  intros []. destruct (with_ctx insert_setup_ok (set_open (new_timer a :: open_timers a) a) (new_timer a) ow_pend) as (b & Hi & Hb).
  destruct (timerfd_create_fresh (open_timers a)) as (Hpos & Hfr & He & Hp).
  exists b. split; [done|]. constructor; cbn; try done.
  - by apply perm_skip.
  - by constructor.
  - by constructor.
Qed.

Lemma owned_clear a S : owned a S None → owned (set_pend (mk_bi_map a_init a_init true) a) S None.
Proof. intros []. constructor; try done. apply (with_ctx init_pending_rep). Qed.

(** What the handlers do not change. *)
Definition same_config a a' : Prop :=
  find_connection (ric_connections a') (init_ric_addr a') = find_connection (ric_connections a) (init_ric_addr a) ∧
  global_e2_node_id a' = global_e2_node_id a ∧ left_loop a' = left_loop a.

(** *** Connection *)

(** A connection lost while no setup request is pending. *)
Lemma shutdown_ok a S : owned a S None → ∃ a', handle_connection_shutdown timerfd_create a = Ret ((), a') ∧
  owned a' S (Some (new_timer a)) ∧ same_config a a' ∧ ag_sent a' = ag_sent a ∧ ag_ran a' = ag_ran a.
Proof.
  intros Ho. unfold handle_connection_shutdown. set (a1 := set_connected false a).
  assert (owned a1 S None) as Ho1 by (by apply (owned_same a)).
  rewrite (st_bind_Ret (st_mod (set_connected false)) _ a () a1 eq_refl), (st_bind_Ret _ _ _ _ _ (free_if_any_ok a1 S None Ho1)).
  apply owned_clear in Ho1. set (a2 := set_pend _ a1) in *.
  rewrite (st_bind_Ret _ _ _ _ _ (with_ctx create_timer_ok a2 3000 3000 ltac:(lia) ltac:(lia))).
  destruct (arm_setup a2 S Ho1) as (b & Hi & Ho2).
  destruct (timerfd_create_fresh (open_timers a2)) as (Hpos & _). rewrite (proj2 (Z.leb_le 0 (new_timer a2))) by lia.
  eexists. split; [exact Hi|]. done.
Qed.

(** The outcome of [m] after a setup request [res] of the RAN. *)
Definition after_setup (res : outcome (e2_setup_request_t * RAN)) (out : outcome (() * agent))
    (post : e2_setup_request_t → RAN → agent → Prop) : Prop :=
  match res with
  | Ret (sr, r) => ∃ a', out = Ret ((), a') ∧ post sr r a'
  | Abort => out = Abort
  | Undef => out = Undef
  | Stuck => out = Stuck
  | NoFuel => out = NoFuel
  end.

Abbreviation setup_now a :=
  (setup_of read_setup_ran SM (global_e2_node_id a) (trans_id_setup_req a) (ag_ran a)).

(** What a setup request leaves behind when its timer is [t]. *)
Definition requested a t S (on_fail : option Z) (sr : e2_setup_request_t) (r : RAN) a' : Prop :=
  owned a' S (if encodes sr then Some t else on_fail) ∧ same_config a a' ∧
  ag_sent a' = (if encodes sr then E2_SETUP_REQUEST sr :: ag_sent a else ag_sent a) ∧
  trans_id_setup_req a' = wrap 32 (trans_id_setup_req a + 1) ∧ ag_ran a' = r.

Lemma gen_setup_keeps a S o sr a' : owned a S o → gen_setup_request read_setup_ran a = Ret (sr, a') → owned a' S o.
Proof.
  intros Ho. rewrite (with_ctx gen_setup_request_ok a (ow_sms _ _ _ _ _ _ Ho)).
  destruct (setup_now a) as [[sr' r]| | | |]; try done. intros [= <- <-]. by apply (owned_same a).
Qed.

(** The agent starts: the timer stays when the request cannot be encoded. *)
Lemma start_ok a S : owned a S None →
  after_setup (setup_now a) (e2_start_agent timerfd_create read_setup_ran encodes a)
    (requested a (new_timer a) S (Some (new_timer a))).
Proof.
  intros Ho. unfold e2_start_agent. set (a1 := set_connected false a).
  assert (owned a1 S None) as Ho1 by (by apply (owned_same a)).
  rewrite (st_bind_Ret (st_mod (set_connected false)) _ a () a1 eq_refl), (st_bind_Ret _ _ _ _ _ (free_if_any_ok a1 S None Ho1)).
  apply owned_clear in Ho1. set (a2 := set_pend _ a1) in *.
  rewrite (st_bind_Ret _ _ _ _ _ (with_ctx create_timer_ok a2 3000 3000 ltac:(lia) ltac:(lia))).
  destruct (arm_setup a2 S Ho1) as (b & Hi & Ho2).
  destruct (timerfd_create_fresh (open_timers a2)) as (Hpos & _). rewrite (proj2 (Z.ltb_ge (new_timer a2) 0)) by lia.
  rewrite (st_bind_Ret _ _ _ _ _ Hi), (st_bind_eq (gen_setup_request _)).
  rewrite (with_ctx gen_setup_request_ok _ (ow_sms _ _ _ _ _ _ Ho2)). cbn [global_e2_node_id trans_id_setup_req ag_ran set_pend set_open a2 a1 set_connected].
  destruct (setup_now a) as [[sr r]| | | |]; try done. cbn [mbind outcome_bind after_setup]. unfold requested.
  destruct (encodes sr); (eexists; split; [reflexivity|]; split_and!; [by eapply owned_same; [exact Ho2|..]|done..]).
Qed.
(** Closing the timer of the pending request, freeing the map. *)
Lemma filter_twice (l : list Z) x : filter (λ t, t ≠ x) (filter (λ t, t ≠ x) l) = filter (λ t, t ≠ x) l.
Proof using Type. induction l as [|y l IH]; [done|]. rewrite !filter_cons. case_decide; [|done]. by rewrite filter_cons_True, IH. Qed.

Lemma owned_close a S fd : owned a S (Some fd) →
  owned (set_pend (mk_bi_map a_init a_init true) (set_open (filter (λ t, t ≠ fd) (open_timers a)) a)) S None.
Proof.
  intros []. constructor; cbn; try done.
  - apply (with_ctx init_pending_rep).
  - by apply filter_remove.
  - apply Forall_forall. intros x [_ Hx]%list_elem_of_filter. rewrite Forall_forall in ow_fds. by apply ow_fds.
  - by apply NoDup_filter.
Qed.

(** The timer of the pending setup request expires: the request is sent again. *)
Lemma timeout_ok a S fd i : owned a S (Some fd) → find_connection (ric_connections a) (init_ric_addr a) = Some i →
  let t := timerfd_create (filter (λ t, t ≠ fd) (open_timers a)) in
  after_setup (setup_now a) ((close_fd fd;; handle_pending_event timerfd_create read_setup_ran encodes) a)
    (requested a t S None).
Proof.
  intros Ho Hi t. set (open' := filter (λ t, t ≠ fd) (open_timers a)) in t.
  rewrite (st_bind_Ret (close_fd fd) _ a () (set_open open' a) eq_refl). unfold handle_pending_event.
  rewrite (st_bind_Ret st_get _ _ _ _ eq_refl). cbn [ric_connections init_ric_addr set_open]. rewrite Hi.
  set (a1 := set_open open' a). pose proof (ow_pend _ _ _ _ _ _ Ho) as Hb.
  rewrite (st_bind_Ret _ _ a1 () a1).
  2: { rewrite (with_ctx for_each_pending_ok (λ _, True) close_fd (λ x a, set_open (filter (λ t, t ≠ x) (open_timers a)) a) a1 (Some fd)); try done.
       cbn. unfold open'. by rewrite filter_twice. }
  rewrite (st_bind_Ret _ _ _ _ _ (with_ctx free_pending_ok a1 (Some fd) Hb (λ x Hx, proj1 (with_ctx pend_rep a S (Some fd) Ho x Hx)))).
  pose proof (owned_close a S fd Ho) as Ho2. set (a2 := set_pend (mk_bi_map a_init a_init true) a1).
  rewrite (st_bind_Ret init_pending_events _ a1 () a2 eq_refl). cbn [ric_connections].
  set (a3 := set_conns (alter bump i (ric_connections a2)) a2).
  rewrite (st_bind_Ret _ _ a2 () a3 eq_refl).
  assert (owned a3 S None) as Ho3 by (by eapply owned_same; [exact Ho2|..]).
  assert (same_config a a3) as Hc.
  { split_and!; try done. change (find_connection (alter bump i (ric_connections a)) (init_ric_addr a) = find_connection (ric_connections a) (init_ric_addr a)).
    rewrite find_connection_addrs, alter_bump_addr. by rewrite <-find_connection_addrs, Hi. }
  rewrite (st_bind_Ret _ _ _ _ _ (with_ctx create_timer_ok a3 1000 0 ltac:(lia) ltac:(lia))).
  destruct (arm_setup a3 S Ho3) as (b & Hins & Ho4).
  destruct (timerfd_create_fresh (open_timers a3)) as (Hpos & _). rewrite (proj2 (Z.ltb_ge (new_timer a3) 0)) by lia.
  rewrite (st_bind_Ret _ _ _ _ _ Hins), (st_bind_eq (gen_setup_request _)).
  rewrite (with_ctx gen_setup_request_ok _ (ow_sms _ _ _ _ _ _ Ho4)). cbn [global_e2_node_id trans_id_setup_req ag_ran set_pend set_open set_conns a3 a2 a1].
  destruct (setup_now a) as [[sr r]| | | |]; try done. cbn [mbind outcome_bind after_setup].
  set (a5 := set_ran r _). assert (owned a5 S (Some (new_timer a3))) as Ho5 by (by eapply owned_same; [exact Ho4|..]).
  assert ((new_timer a3 >? 0) = true) as Hgt by lia. unfold requested. destruct (encodes sr).
  - rewrite (st_bind_Ret _ _ a5 () (e2ap_send (E2_SETUP_REQUEST sr) a5) eq_refl), Hgt.
    eexists. split; [done|]. split_and!; [by eapply owned_same; [exact Ho5|..]|done..].
  - pose proof (owned_close a5 S _ Ho5) as Ho6. set (a6 := set_open (filter (λ t, t ≠ new_timer a3) (open_timers a5)) a5).
    rewrite (st_bind_assoc (close_fd _)), (st_bind_Ret (close_fd _) _ a5 () a6 eq_refl).
    rewrite st_bind_assoc, (st_bind_Ret _ _ _ _ _ (with_ctx free_pending_ok a6 (Some (new_timer a3)) (ow_pend _ _ _ _ _ _ Ho5)
      (λ x Hx, proj1 (with_ctx pend_rep a5 S (Some (new_timer a3)) Ho5 x Hx)))).
    rewrite (st_bind_Ret init_pending_events _ _ () _ eq_refl), Hgt.
    eexists. split; [done|]. split_and!; [exact Ho6|done..].
Qed.
(** The answer to the setup request. *)
Lemma setup_response_ok a S fd : owned a S (Some fd) →
  ∃ a', e2ap_handle_setup_response_agent a = (if trans_id_setup_req a >? 0 then Ret (NONE_E2_MSG_TYPE, a') else Abort) ∧ owned a' S None ∧ same_config a a' ∧
    ag_sent a' = ag_sent a ∧ ag_ran a' = ag_ran a ∧ trans_id_setup_req a' = 0.
Proof.
  intros Ho. unfold e2ap_handle_setup_response_agent, stop_pending_event.
  destruct (bm_right_ok cmp_fd cmp_pending_event (ag_pending a) _ (fd, SETUP_REQUEST_PENDING_EVENT) SETUP_REQUEST_PENDING_EVENT
    (ow_pend _ _ _ _ _ _ Ho)) as (b & S' & Hx & HS & Hb); [left|done|].
  apply Permutation_length_1_inv in HS. injection HS as ->. destruct (with_ctx pend_rep a S (Some fd) Ho fd eq_refl) as [Hpos Hin].
  set (a1 := set_pend b a). rewrite st_bind_assoc, (st_bind_Ret _ _ a fd a1) by (unfold on_pend; by rewrite Hx).
  assert ((fd >? 0) = true) as -> by lia. rewrite st_bind_assoc, (st_bind_Ret (st_assert true) _ a1 () a1 eq_refl).
  set (a2 := set_open (filter (λ t, t ≠ fd) (open_timers a1)) a1). rewrite (st_bind_Ret _ _ a1 () a2).
  2: { unfold rm_fd_asio_agent. rewrite (st_bind_Ret st_get _ _ _ _ eq_refl). cbn [open_timers a1 set_pend].
       by rewrite bool_decide_eq_true_2. }
  rewrite (st_bind_Ret st_get _ _ _ _ eq_refl). cbn [trans_id_setup_req a2 a1 set_open set_pend].
  exists (set_trans 0 a2). split; [by destruct (trans_id_setup_req a >? 0)|]. split; [|done]. pose proof (owned_close a S fd Ho) as []. by constructor.
Qed.

Lemma setup_response_aborts a S : owned a S None → e2ap_handle_setup_response_agent a = Abort.
Proof.
  intros Ho. unfold e2ap_handle_setup_response_agent, stop_pending_event. rewrite st_bind_assoc, st_bind_eq. unfold on_pend.
  by rewrite (bm_right_absent cmp_fd cmp_pending_event _ _ _ (ow_pend _ _ _ _ _ _ Ho) (Forall_nil_2 _)).
Qed.

(** *** Service models *)

(** The service model of a RAN function id. *)
Definition plugin_of (key : Z) : outcome (sm_agent_t RAN P) :=
  c_assert (key >? 0);;
  match snd <$> list_find (λ e, eq_ran_func_id key e.1 = true) SM with
  | None => Abort
  | Some (_, sm) => c_assert (ag_sm_id sm =? key);; Ret sm
  end.

Lemma sm_plugin_ok a key S o : owned a S o → sm_plugin_ag key a = (sm ← plugin_of key; Ret (sm, a)).
Proof.
  intros Ho. unfold sm_plugin_ag, plugin_of, st_assert. destruct (key >? 0); [|done].
  rewrite (st_bind_Ret _ _ _ _ _ eq_refl). cbn [c_assert mbind outcome_bind].
  destruct (find_in_tree_spec cmp_ran_func_id (eq_ran_func_id key) _ SM (ow_sms _ _ _ _ _ _ Ho)) as ([it|] & Hf & Hr).
  - destruct Hr as (j & k & sm & Hit & Hj & Hk & HF). destruct (a_entry_ok _ SM j it k sm (ow_sms _ _ _ _ _ _ Ho) Hit Hj) as [_ Hv].
    assert (list_find (λ e, eq_ran_func_id key e.1 = true) SM = Some (j, (k, sm))) as ->.
    { apply list_find_Some. split_and!; [done..|]. intros i e Hi Hlt Hq. rewrite Forall_forall in HF.
      rewrite (HF e) in Hq; [done|]. apply list_elem_of_lookup. exists i. by rewrite lookup_take_lt. }
    rewrite (st_bind_Ret _ _ _ _ _ (with_ctx on_sms_read _ _ _ Hf)), (st_bind_Ret _ _ _ _ _ (with_ctx on_sms_read _ _ _ Hv)).
    cbn. by destruct (ag_sm_id sm =? key).
  - rewrite (st_bind_Ret _ _ _ _ _ (with_ctx on_sms_read _ _ _ Hf)).
    assert (list_find (λ e, eq_ran_func_id key e.1 = true) SM = None) as ->; [|done].
    apply list_find_None. eapply Forall_impl; [exact Hr|]. cbn. intros e He. by rewrite He.
Qed.
(** *** Subscriptions *)

(** What the service model answers to a subscription. *)
Definition asked (sr : ric_subscription_request_t) (r : RAN) :
    outcome (ric_action_t * sm_agent_t RAN P * sm_ag_if_ans_subs_t RAN P * RAN) :=
  match action sr with
  | [act] =>
      c_assert (act_type act =? RIC_ACT_REPORT);;
      sm ← plugin_of (ran_func_id (sr_ric_id sr));
      '(subs, r') ← ag_on_subscription sm (generate_sm_subs_data sr act) r;
      Ret (act, sm, subs, r')
  | _ => Abort
  end.

Definition event_of (sr : ric_subscription_request_t) (act : ric_action_t) (sm : sm_agent_t RAN P)
    (subs : sm_ag_if_ans_subs_t RAN P) : ev_t := mk_ind_event (sr_ric_id sr) (Some sm) (act_id act) subs.

Definition new_event (ev : ev_t) : st agent () :=
  match ie_sub ev with
  | PERIODIC_SUBSCRIPTION_FLRC ms _ =>
      st_assert (ms <? 10001);;
      fd_timer ← create_timer_ms_asio_agent timerfd_create ms ms;
      on_ind (bi_map_insert cmp_fd cmp_ind_event fd_timer ev)
  | APERIODIC_SUBSCRIPTION_FLRC _ => on_ind (bi_map_insert cmp_fd cmp_ind_event 0 ev)
  | END_SUBSCRIPTION_FLRC => st_abort
  end.

Lemma subscription_eq a S o sr : owned a S o →
  e2ap_handle_subscription_request_agent timerfd_create sr a =
  ('(act, sm, subs, r) ← asked sr (ag_ran a);
   '(_, a') ← new_event (event_of sr act sm subs) (set_ran r a);
   Ret (RIC_SUBSCRIPTION_RESPONSE (generate_subscription_response (sr_ric_id sr) (act_id act)), a')).
Proof.
  intros Ho. unfold e2ap_handle_subscription_request_agent, supported_ric_subscription_request, asked.
  destruct (action sr) as [|act [|]]; [done| |done]. rewrite st_bind_assoc. unfold st_assert at 1.
  destruct (act_type act =? RIC_ACT_REPORT); [|done].
  rewrite (st_bind_Ret _ _ a () a eq_refl), (st_bind_Ret (mret act) _ a act a eq_refl). cbv zeta.
  rewrite st_bind_eq, (sm_plugin_ok a _ S o Ho). cbn [c_assert]. rewrite outcome_bind_ret_l.
  destruct (plugin_of (ran_func_id (sr_ric_id sr))) as [sm| | | |]; try done. rewrite !outcome_bind_ret_l, (with_ctx on_ran_bind).
  destruct (ag_on_subscription sm (generate_sm_subs_data sr act) (ag_ran a)) as [[subs r]| | | |]; try done.
Qed.

Definition fresh_event_id S (id : ric_gen_id_t) : Prop := Forall (λ p, ie_ric_id p.2 ≠ id) S.

(** A new event is owned; a second aperiodic one is excluded. *)
Lemma new_event_inv a S o ev a' : owned a S o → is_Some (ie_sm ev) → fresh_event_id S (ie_ric_id ev) →
  (∀ f, ie_sub ev = APERIODIC_SUBSCRIPTION_FLRC f → 0 ∉ S.*1) →
  new_event ev a = Ret ((), a') → ∃ fd, owned a' ((fd, ev) :: S) o ∧ same_config a a'.
Proof.
  intros Ho [sm Hsm] Hid Hap. unfold new_event. destruct (ie_sub ev) as [ms d|f|] eqn:Hsub; [| |done].
  - intros ([] & a1 & [_ ->]%st_assert_inv & H)%st_bind_inv.
    apply st_bind_inv in H as (fd & a1 & [-> ->]%(with_ctx create_timer_inv) & H).
    destruct (with_ctx insert_periodic a S o ev Ho Hid) as (b & Hb & Ho').
    { unfold kind_ok. cbn. rewrite Hsm, Hsub. apply timerfd_create_fresh. }
    unfold on_ind in H. cbn [ag_ind_event set_open] in H. rewrite Hb in H. injection H as <-. by eexists.
  - intros H. destruct (with_ctx insert_aperiodic a S o ev Ho Hid (Hap f eq_refl)) as (b & Hb & Ho').
    { unfold kind_ok. cbn. by rewrite Hsm, Hsub. }
    unfold on_ind in H. rewrite Hb in H. injection H as <-. by eexists.
Qed.

Lemma new_periodic_ok a S o ev sm ms d : owned a S o → ie_sm ev = Some sm → ie_sub ev = PERIODIC_SUBSCRIPTION_FLRC ms d →
  -1 < ms < 10001 → fresh_event_id S (ie_ric_id ev) →
  ∃ a', new_event ev a = Ret ((), a') ∧ owned a' ((new_timer a, ev) :: S) o ∧ same_config a a' ∧
    ag_sent a' = ag_sent a ∧ ag_ran a' = ag_ran a ∧ open_timers a' = new_timer a :: open_timers a.
Proof.
  intros Ho Hsm Hsub Hms Hid. unfold new_event. rewrite Hsub, (proj2 (Z.ltb_lt _ _)) by lia.
  rewrite (st_bind_Ret _ _ a () a eq_refl), (st_bind_Ret _ _ _ _ _ (with_ctx create_timer_ok a ms ms ltac:(lia) ltac:(lia))).
  destruct (with_ctx insert_periodic a S o ev Ho Hid) as (b & Hb & Ho').
  { unfold kind_ok. cbn. rewrite Hsm, Hsub. apply timerfd_create_fresh. }
  unfold on_ind. cbn [ag_ind_event set_open]. rewrite Hb. by eexists.
Qed.

(** What ends with the subscription [p]. *)
Definition ended (p : Z * ev_t) (r : RAN) : outcome (() * RAN) :=
  match ie_sub p.2 with
  | APERIODIC_SUBSCRIPTION_FLRC f => f (ric_req_id (ie_ric_id p.2)) r
  | _ => Ret ((), r)
  end.

Lemma stop_absent a S o id : owned a S o → fresh_event_id S id → stop_ind_event id a = Ret (false, a).
Proof.
  intros Ho Hid. unfold stop_ind_event. destruct (with_ctx find_event a S o (eq_ind_event id) Ho) as ([it|] & Hf & Hr).
  - destruct Hr as (p & Hp & Heq & _). apply eq_ric_gen_id_spec in Heq. unfold fresh_event_id in Hid.
    rewrite Forall_forall in Hid. by destruct (Hid p Hp).
  - by rewrite (st_bind_Ret _ _ _ _ _ Hf).
Qed.

(** One subscription for each id. *)
Lemma event_unique a S o p q : owned a S o → p ∈ S → q ∈ S → ie_ric_id p.2 = ie_ric_id q.2 → p = q.
Proof.
  intros Ho Hp Hq Heq. destruct (ow_ind _ _ _ _ _ _ Ho) as (L & R & _ & _ & _ & Hs & _ & HR & _).
  assert (∀ x, x ∈ S → swap x ∈ R) as Hin by (intros x Hx; rewrite HR; by apply elem_of_swap).
  destruct (list_elem_of_split _ _ (Hin p Hp)) as (L1 & L2 & HL).
  pose proof (strict_member cmp_ind_event p.2 R L1 (swap p) L2 (swap q) Hs HL (Hin q Hq)) as H.
  destruct p as [x1 p], q as [x2 q]. cbn in Heq.
  assert (swap (x1, p) = swap (x2, q)) as [= -> ->]; [|done]. apply H; cbn; unfold cmp_ind_event; apply cmp_ric_gen_id_eq; congruence.
Qed.

Lemma stop_ok a S o p : owned a S o → p ∈ S → ∃ S', S ≡ₚ p :: S' ∧
  match ended p (ag_ran a) with
  | Ret (_, r) => ∃ a', stop_ind_event (ie_ric_id p.2) a = Ret (true, a') ∧ owned a' S' o ∧ same_config a a' ∧
      ag_sent a' = ag_sent a ∧ ag_ran a' = r ∧
      open_timers a' = (if p.1 =? 0 then open_timers a else filter (λ t, t ≠ p.1) (open_timers a))
  | _ => ∀ x, stop_ind_event (ie_ric_id p.2) a ≠ Ret x
  end.
Proof.
  intros Ho Hp. destruct (with_ctx remove_event a S o p (mk_ind_event (ie_ric_id p.2) None 0 END_SUBSCRIPTION_FLRC) Ho Hp eq_refl)
    as (b & S' & Hx & HS & Ho'). exists S'. split; [done|]. unfold stop_ind_event.
  destruct (with_ctx find_event a S o (eq_ind_event (ie_ric_id p.2)) Ho) as ([it|] & Hf & Hr); cycle 1.
  { rewrite Forall_forall in Hr. specialize (Hr p Hp). unfold eq_ind_event in Hr. by rewrite (proj2 (eq_ric_gen_id_spec _ _) eq_refl) in Hr. }
  destruct Hr as (q & Hq & Heq & Hk). apply eq_ric_gen_id_spec in Heq.
  assert (q = p) as -> by (by apply (event_unique a S o q p)).
  rewrite (st_bind_Ret _ _ _ _ _ Hf), (st_bind_Ret _ _ _ _ _ Hk), st_bind_eq.
  set (m := match ie_sub p.2 with APERIODIC_SUBSCRIPTION_FLRC f => _ | _ => _ end).
  assert (m a = ('(_, r) ← ended p (ag_ran a); Ret ((), set_ran r a))) as ->.
  { unfold m, ended, on_ran. destruct (ie_sub p.2); [by destruct a| |by destruct a]. by destruct (free_aper_subs _ _) as [[[] ?]| | | |]. }
  destruct (ended p (ag_ran a)) as [[[] r]| | | |]; try (intros x; done). cbn [mbind outcome_bind].
  rewrite (st_bind_Ret _ _ (set_ran r a) p.1 (set_ran r (set_ind b a))) by (unfold on_ind; cbn [ag_ind_event set_ran]; by rewrite Hx).
  pose proof (ow_kind _ _ _ _ _ _ Ho) as Hkind. rewrite Forall_forall in Hkind. specialize (Hkind p Hp).
  assert (-1 < p.1) as Hpos by (clear - Hkind; revert Hkind; unfold kind_ok; destruct (ie_sm p.2), (ie_sub p.2); done || lia).
  assert ((p.1 >? -1) = true) as -> by lia. rewrite (st_bind_Ret (st_assert true) _ _ () _ eq_refl).
  unfold not_aperiodic_ind_event. destruct (Z.eqb_spec p.1 0) as [H0|H0]; cbn [negb].
  - eexists. split; [reflexivity|]. split; [|done]. by eapply owned_same; [exact Ho'|..].
  - unfold rm_fd_asio_agent. rewrite st_bind_assoc, (st_bind_Ret st_get _ _ _ _ eq_refl), st_bind_assoc. cbn [open_timers set_ran set_ind].
    rewrite bool_decide_eq_true_2 by (by apply (with_ctx timer_open a S o)).
    rewrite (st_bind_Ret (st_assert true) _ _ () _ eq_refl). eexists. split; [reflexivity|].
    split; [|done]. by eapply owned_same; [exact Ho'|..].
Qed.
End agent.
