(* ===== verification/AgentProps.v ===== *)
(** * The E2 agent: its event loop

    What the loop does with each event, the states it reaches, and the theorems of
    the agent. *)
From Stdlib Require Import String.
From stdpp Require Import gmap.
From S2P Require Import Prelude AssocSpec AssocIter AssocFree BiMap BiMapFind RicIds E2apMsg NearRic Agent AgentInv AgentStep.
#[local] Set Warnings "-clear-no-such-hyp".
#[local] Set Default Proof Using "All".
#[local] Open Scope Z_scope.

Section agent.
Context {RAN P TIL TIR IIL IIR TPL TPR IPL IPR TS IS : Type}
  `{OIL : AssocOps Z (ind_event_t RAN P) TIL} `{OIR : AssocOps (ind_event_t RAN P) Z TIR}
  `{IOIL : !AssocIterOps Z (ind_event_t RAN P) TIL IIL} `{IOIR : !AssocIterOps (ind_event_t RAN P) Z TIR IIR}
  `{OPL : AssocOps Z pending_event_t TPL} `{OPR : AssocOps pending_event_t Z TPR}
  `{IOPL : !AssocIterOps Z pending_event_t TPL IPL} `{IOPR : !AssocIterOps pending_event_t Z TPR IPR}
  `{FPL : !AssocFreeOps Z pending_event_t TPL IPL} `{FPR : !AssocFreeOps pending_event_t Z TPR IPR}
  `{OS : AssocOps Z (sm_agent_t RAN P) TS} `{IOS : !AssocIterOps Z (sm_agent_t RAN P) TS IS}.
Context {LIL : AssocLaws (V := ind_event_t RAN P) (T := TIL) cmp_fd} {LIR : AssocLaws (V := Z) (T := TIR) (cmp_ind_event (RAN := RAN) (P := P))}
  {ILIL : AssocIterLaws (V := ind_event_t RAN P) (I := IIL) cmp_fd} {ILIR : AssocIterLaws (V := Z) (I := IIR) (cmp_ind_event (RAN := RAN) (P := P))}
  {LPL : AssocLaws (V := pending_event_t) (T := TPL) cmp_fd}
  {LPR : AssocLaws (V := Z) (T := TPR) cmp_pending_event}
  {ILPL : AssocIterLaws (V := pending_event_t) (I := IPL) cmp_fd} {ILPR : AssocIterLaws (V := Z) (I := IPR) cmp_pending_event}
  {FLPL : AssocFreeLaws (V := pending_event_t) (I := IPL) cmp_fd} {FLPR : AssocFreeLaws (V := Z) (I := IPR) cmp_pending_event}
  {LS : AssocLaws (V := sm_agent_t RAN P) (T := TS) cmp_ran_func_id} {ILS : AssocIterLaws (V := sm_agent_t RAN P) (I := IS) cmp_ran_func_id}.
Context (timerfd_create : list Z → Z) (ep_fd pipe_r : Z)
  (read_setup_ran : Z → st RAN (list e2ap_node_component_config_add_t))
  (encodes : e2_setup_request_t → bool) (SM : list (Z * sm_agent_t RAN P)).
Context (timerfd_create_fresh : ∀ open, 0 < timerfd_create open ∧ (timerfd_create open ∉ open) ∧
  timerfd_create open ≠ ep_fd ∧ timerfd_create open ≠ pipe_r).

Abbreviation agent := (e2_agent_t (RAN := RAN) (P := P) (TIL := TIL) (TIR := TIR) (TPL := TPL) (TPR := TPR) (TS := TS)).
Abbreviation ev_t := (ind_event_t RAN P).
#[local] Notation "'with_ctx' f" :=
  (f timerfd_create ep_fd pipe_r read_setup_ran encodes SM timerfd_create_fresh) (at level 9, only parsing).
Implicit Types (a : agent) (S : list (Z * ev_t)) (o : option Z).
Abbreviation owned := (owned ep_fd pipe_r SM).
Abbreviation plugin_of := (plugin_of SM).
Abbreviation asked := (asked SM).
Abbreviation requested := (requested ep_fd pipe_r encodes SM).
Abbreviation new_timer a := (timerfd_create (open_timers a)).

(** ** The next event *)

Lemma ind_event_spec a S fd : bm_rep cmp_fd cmp_ind_event (ag_ind_event a) S → 0 < fd → ∃ r, ind_event_of fd a = Ret (r, a) ∧
  match r with
  | Some ev => (fd, ev) ∈ S
  | None => fd ∉ S.*1
  end.
Proof.
  intros Ho Hpos. unfold ind_event_of. assert ((fd >? 0) = true) as -> by lia.
  rewrite (st_bind_Ret (st_assert true) _ _ () _ eq_refl).
  destruct (find_left_ok cmp_fd cmp_ind_event _ S (eq_fd fd) Ho) as (r & Hf & Hr).
  exists r. split; [by apply (with_ctx on_ind_read)|]. destruct r as [ev|].
  - destruct Hr as (k & Hin & Heq). unfold eq_fd in Heq. by apply Z.eqb_eq in Heq as <-.
  - intros (p & -> & Hp)%list_elem_of_fmap. rewrite Forall_forall in Hr. specialize (Hr p Hp). unfold eq_fd in Hr. lia.
Qed.

Lemma pend_event_spec a o fd : bm_rep cmp_fd cmp_pending_event (ag_pending a) (pend_of o) →
  pend_event fd a = Ret (if decide (o = Some fd) then Some SETUP_REQUEST_PENDING_EVENT else None, a).
Proof.
  intros Ho. unfold pend_event. rewrite (st_bind_Ret _ _ _ _ _ (with_ctx pending_size a o Ho)).
  destruct o as [fd'|]; [|by rewrite decide_False by done]. cbn [pend_of length Nat.eqb].
  destruct (find_left_ok cmp_fd cmp_pending_event _ _ (eq_fd fd) Ho) as (r & Hf & Hr).
  rewrite (with_ctx on_pend_read _ _ _ Hf). cbn [pend_of] in Hr. destruct r as [ev|].
  - destruct Hr as (k & [= -> ->]%list_elem_of_singleton & Heq). unfold eq_fd in Heq. apply Z.eqb_eq in Heq as <-.
    by rewrite decide_True.
  - apply Forall_singleton, Z.eqb_neq in Hr. cbn in Hr. rewrite decide_False by congruence. done.
Qed.

(** The next event of an open timer is its own. *)
Lemma next_event_ok a S o fd msg : owned a S o → fd ∈ open_timers a →
  ∃ e, next_async_event_agent ep_fd pipe_r fd msg a = Ret (e, a) ∧
    ((∃ ev, e = INDICATION_EVENT ev ∧ (fd, ev) ∈ S) ∨ (e = PENDING_EVENT fd SETUP_REQUEST_PENDING_EVENT ∧ o = Some fd)).
Proof.
  intros Ho Hin. pose proof (ow_fds _ _ _ _ _ _ Ho) as HF. rewrite Forall_forall in HF. destruct (HF fd Hin) as (Hpos & He & Hp).
  unfold next_async_event_agent. assert (fd ≠ -1) as Hm by lia. rewrite (proj2 (Z.eqb_neq _ _) Hm), (proj2 (Z.eqb_neq _ _) He), (proj2 (Z.eqb_neq _ _) Hp).
  assert ((fd >? 0) = true) as -> by lia. rewrite (st_bind_Ret (st_assert true) _ _ () _ eq_refl).
  destruct (ind_event_spec a S fd (ow_ind _ _ _ _ _ _ Ho) Hpos) as (r & Hi & Hr). rewrite (st_bind_Ret _ _ _ _ _ Hi). destruct r as [ev|].
  - eexists. split; [reflexivity|]. left. by eexists.
  - rewrite (st_bind_Ret _ _ _ _ _ (pend_event_spec a o fd (ow_pend _ _ _ _ _ _ Ho))). assert (o = Some fd) as Hof.
    { rewrite (ow_open _ _ _ _ _ _ Ho) in Hin. apply elem_of_app in Hin as [Hin|Hin].
      - destruct o; cbn in Hin; [|by apply elem_of_nil in Hin]. by apply list_elem_of_singleton in Hin as ->.
      - exfalso. apply Hr. unfold sub_timers in Hin. by apply list_elem_of_filter in Hin as [_ Hin]. }
    rewrite decide_True by done. eexists. split; [reflexivity|]. by right.
Qed.
(** ** The invariant of the loop *)

Definition knows_ric a : Prop := is_Some (find_connection (ric_connections a) (init_ric_addr a)).
Definition good a : Prop := (∃ S o, owned a S o) ∧ knows_ric a.

Lemma good_config a a' S o : knows_ric a → same_config a a' → owned a' S o → good a'.
Proof. intros Hk (Hc & _) Ho. split; [by exists S, o|]. unfold knows_ric. by rewrite Hc. Qed.

Lemma keeps_on_ran {A} (m : st RAN A) : keeps good (on_ran m).
Proof.
  intros a x a' [(S & o & Ho) Hk] H. pose proof (with_ctx keeps_ran m S o a x a' Ho H) as Ho'.
  unfold on_ran in H. destruct (m (ag_ran a)) as [[y r]| | | |]; try done. injection H as _ <-. by split; [exists S, o|].
Qed.

Lemma keeps_same (f : agent → agent) : (∀ a, ag_ind_event (f a) = ag_ind_event a ∧ ag_pending (f a) = ag_pending a ∧
    open_timers (f a) = open_timers a ∧ ag_sm_ds (f a) = ag_sm_ds a ∧ ric_connections (f a) = ric_connections a ∧
    init_ric_addr (f a) = init_ric_addr a) → keeps good (st_mod f).
Proof.
  intros Hf. apply keeps_mod. intros a [(S & o & Ho) Hk]. destruct (Hf a) as (H1 & H2 & H3 & H4 & H5 & H6). split.
  - exists S, o. by apply (with_ctx owned_same a).
  - unfold knows_ric. by rewrite H5, H6.
Qed.

Lemma keeps_plugin key : keeps good (sm_plugin_ag key).
Proof.
  intros a sm a' [(S & o & Ho) Hk] H. rewrite (with_ctx sm_plugin_ok a key S o Ho) in H.
  destruct (plugin_of key); try done. injection H as _ <-. by split; [exists S, o|].
Qed.

(** The subscriptions the invariant allows: a new id, and not a second aperiodic
    subscription. *)
Definition sub_ok (sr : ric_subscription_request_t) a : Prop :=
  on_ind (on_right (find_in_tree (eq_ind_event (sr_ric_id sr)))) a = Ret (None, a) ∧
  ((∃ act sm f r, asked sr (ag_ran a) = Ret (act, sm, APERIODIC_SUBSCRIPTION_FLRC f, r)) →
    on_ind (on_left (find_value (eq_fd 0))) a = Ret (None, a)).

Lemma sub_ok_fresh sr a S o : owned a S o → sub_ok sr a → fresh_event_id S (sr_ric_id sr) ∧
  ((∃ act sm f r, asked sr (ag_ran a) = Ret (act, sm, APERIODIC_SUBSCRIPTION_FLRC f, r)) → 0 ∉ S.*1).
Proof.
  intros Ho [H1 H2]. split.
  - destruct (with_ctx find_event a S o (eq_ind_event (sr_ric_id sr)) Ho) as (r & Hf & Hr). rewrite Hf in H1. injection H1 as ->.
    eapply Forall_impl; [exact Hr|]. intros p Hp Heq. unfold eq_ind_event in Hp. by rewrite (proj2 (eq_ric_gen_id_spec _ _) (eq_sym Heq)) in Hp.
  - intros Hap. specialize (H2 Hap). destruct (find_left_ok cmp_fd cmp_ind_event _ S (eq_fd 0) (ow_ind _ _ _ _ _ _ Ho)) as (r & Hf & Hr).
    rewrite (with_ctx on_ind_read _ _ _ Hf) in H2. injection H2 as ->.
    intros (p & Hp0 & Hp)%list_elem_of_fmap. rewrite Forall_forall in Hr. specialize (Hr p Hp). unfold eq_fd in Hr. lia.
Qed.

Lemma subscription_inv sr a ans a' : good a → sub_ok sr a →
  e2ap_handle_subscription_request_agent timerfd_create sr a = Ret (ans, a') → good a'.
Proof.
  intros [(S & o & Ho) Hk] Hok H. destruct (sub_ok_fresh sr a S o Ho Hok) as [Hid Hap].
  rewrite (with_ctx subscription_eq a S o sr Ho) in H. apply bind_Ret_inv in H as ([[[act sm] subs] r] & Has & H).
  apply bind_Ret_inv in H as ([[] a1] & Hn & H). injection H as _ <-.
  destruct (with_ctx new_event_inv (set_ran r a) S o (event_of sr act sm subs) a1) as (fd & Ho' & Hc).
  - by apply (with_ctx owned_same a).
  - by eexists.
  - done.
  - intros f Hf. apply Hap. cbn in Hf. subst subs. by repeat eexists.
  - done.
  - by apply (good_config a a1 ((fd, event_of sr act sm subs) :: S) o).
Qed.

Lemma stop_inv id : keeps good (stop_ind_event id).
Proof.
  intros a x a' [(S & o & Ho) Hk] H.
  destruct (decide (Forall (λ p : Z * ev_t, ie_ric_id p.2 ≠ id) S)) as [Hf|Hex].
  - rewrite (with_ctx stop_absent a S o id Ho Hf) in H. injection H as _ <-. by split; [exists S, o|].
  - apply (not_Forall_Exists _), Exists_exists in Hex as (p & Hp & Hid). destruct (decide (ie_ric_id p.2 = id)) as [<-|]; [|by destruct Hid].
    destruct (with_ctx stop_ok a S o p Ho Hp) as (S' & _ & Hs). destruct (ended p (ag_ran a)) as [[[] r]| | | |]; try by destruct (Hs _ H).
    destruct Hs as (a1 & H1 & Ho' & Hc & _). rewrite H1 in H. injection H as _ <-. by apply (good_config a a1 S' o).
Qed.

Lemma setup_response_inv : keeps good e2ap_handle_setup_response_agent.
Proof.
  intros a x a' [(S & [fd|] & Ho) Hk] H.
  - destruct (with_ctx setup_response_ok a S fd Ho) as (a1 & H1 & Ho' & Hc & _). rewrite H1 in H.
    destruct (_ >? _); [|done]. injection H as _ <-. by apply (good_config a a1 S None).
  - by rewrite (with_ctx setup_response_aborts a S Ho) in H.
Qed.

#[local] Hint Resolve keeps_on_ran keeps_plugin stop_inv setup_response_inv : flexric.

(** A message that arrives; no connection is lost while the agent waits for its
    setup response. *)
Definition msg_ok (m : e2ap_msg_t) a : Prop :=
  match m with RIC_SUBSCRIPTION_REQUEST sr => sub_ok sr a | _ => True end.

Lemma msg_inv m a ans a' : good a → msg_ok m a → e2ap_msg_handle_agent timerfd_create m a = Ret (ans, a') → good a'.
Proof.
  intros Hg Hm. revert a ans a' Hg Hm. destruct m; try done.
  - intros a ans a' Hg Hm. by apply subscription_inv.
  - intros a ans a' Hg _. revert Hg. apply (keeps_bind good); eauto with flexric.
  - intros a ans a' Hg _. revert a ans a' Hg. change (keeps good (e2ap_handle_control_request_agent m)).
    unfold e2ap_handle_control_request_agent. repeat (apply keeps_bind; [eauto with flexric|intros ?]); eauto with flexric.
  - intros a ans a' Hg _. by apply setup_response_inv.
  - intros a ans a' Hg _. revert a ans a' Hg. change (keeps good (e2ap_handle_setup_failure_agent present value)).
    unfold e2ap_handle_setup_failure_agent. eauto with flexric.
Qed.

(** *** The events *)

Lemma consume_inv : keeps good consume_fd_async.
Proof.
  intros a x a' Hg H. unfold consume_fd_async in H. destruct (Nat.min 4 (ag_pipe a)) as [|n]; [done|].
  revert H. generalize (negb (S n =? 1)%nat). intros b H. apply st_bind_inv in H as ([] & a1 & [_ ->]%st_assert_inv & H).
  injection H as _ <-. destruct Hg as [(S0 & o & Ho) Hk]. split; [exists S0, o|done]. by apply (with_ctx owned_same a).
Qed.

Lemma aperiodic_inv arr : keeps good (aperiodic_indications arr).
Proof.
  induction arr as [|ai arr IH]; cbn [aperiodic_indications]; [eauto with flexric|].
  assert (keeps good (st_mod leave_loop)) as Hl by (by apply keeps_same).
  destruct (ai_sm ai) as [sm|]; [|done]. apply keeps_bind; [eauto with flexric|]. intros [data|].
  - apply keeps_bind; [by apply keeps_same|intros _]. apply keeps_bind; [apply consume_inv|done].
  - apply keeps_bind; [apply consume_inv|done].
Qed.

Lemma indication_inv i_ev : keeps good (handle_async_event timerfd_create read_setup_ran encodes (INDICATION_EVENT i_ev)).
Proof.
  unfold handle_async_event. destruct (ie_sm i_ev); [|done]. destruct (ie_sub i_ev); try done.
  apply keeps_bind; [eauto with flexric|]. intros [data|]; [by apply keeps_same|eauto with flexric].
Qed.

Lemma timeout_inv a S fd a' : owned a S (Some fd) → knows_ric a →
  (close_fd fd;; handle_pending_event timerfd_create read_setup_ran encodes) a = Ret ((), a') → good a'.
Proof.
  intros Ho [i Hi] H. pose proof (with_ctx timeout_ok a S fd i Ho Hi) as Ht. cbv zeta in Ht. rewrite H in Ht.
  destruct (setup_of _ _ _ _ _) as [[sr r]| | | |]; try done. destruct Ht as (a1 & [= <-] & Ho' & Hc & _).
  eapply good_config; [by exists i|exact Hc|exact Ho'].
Qed.
(** ** Reachable states *)

Abbreviation loop := (e2_event_loop_agent timerfd_create ep_fd pipe_r read_setup_ran encodes).
Abbreviation start := (e2_start_agent timerfd_create read_setup_ran encodes).

(** What the loop may see: the time-out of [epoll_wait], the pipe, a descriptor of
    the epoll set, the socket; on the socket a message, or the loss of a connection
    no setup request is pending on. *)
Definition event_ok (fd : Z) (msg : sctp_recv) a : Prop :=
  (fd = -1 ∨ fd = pipe_r ∨ fd = ep_fd ∨ fd ∈ open_timers a) ∧
  (fd = ep_fd → match msg with
     | SCTP_MSG_NOTIFICATION => on_pend bi_map_size a = Ret (0%nat, a)
     | SCTP_MSG_PAYLOAD m => msg_ok m a
     end).

Inductive reachable : agent → Prop :=
| reach_start addr ips id ind sms r a : addr ∈ ips → bm_rep cmp_fd cmp_ind_event ind [] → a_rep sms SM →
    start (e2_init_agent addr ips id ind sms r) = Ret ((), a) → reachable a
| reach_event a fd msg a' : reachable a → event_ok fd msg a → loop fd msg a = Ret ((), a') → reachable a'
| reach_async a id d a' : reachable a → e2_async_event_agent id d a = Ret ((), a') → reachable a'.

Lemma init_good addr ips id ind sms r : addr ∈ ips → bm_rep cmp_fd cmp_ind_event ind [] → a_rep sms SM →
  owned (e2_init_agent addr ips id ind sms r) [] None ∧ knows_ric (e2_init_agent addr ips id ind sms r).
Proof.
  intros Hin Hind Hs. split.
  - constructor; cbn; try done; constructor || apply (with_ctx init_pending_rep).
  - unfold knows_ric, e2_init_agent. cbn [ric_connections init_ric_addr]. rewrite find_connection_addrs, <-list_fmap_compose.
    destruct (list_find _ _) as [[i x]|] eqn:Hf; [by eexists|]. apply list_find_None in Hf.
    rewrite Forall_forall in Hf. destruct (Hf addr); [|done]. apply list_elem_of_fmap. by exists addr.
Qed.

Lemma async_inv id d : keeps good (e2_async_event_agent id d).
Proof.
  intros a x a' Hg H. pose proof Hg as [(S & o & Ho) _]. unfold e2_async_event_agent in H.
  destruct (with_ctx find_event a S o (eq_ind_event_ric_req_id id) Ho) as (r & Hf & Hr).
  rewrite (st_bind_Ret _ _ _ _ _ Hf) in H. destruct r as [it|]; [|done]. destruct Hr as (p & _ & _ & Hk).
  rewrite (st_bind_Ret _ _ _ _ _ Hk) in H. refine (keeps_same _ _ a x a' Hg H). done.
Qed.

Lemma loop_inv fd msg a a' : good a → event_ok fd msg a → loop fd msg a = Ret ((), a') → good a'.
Proof.
  intros Hg [Hfd Hmsg] H. pose proof Hg as [(S & o & Ho) Hk]. unfold e2_event_loop_agent in H.
  rewrite (st_bind_Ret st_get _ _ _ _ eq_refl) in H. destruct (left_loop a); [by injection H as <-|].
  destruct (decide (fd ∈ open_timers a)) as [Hin|Hin].
  { destruct (next_event_ok a S o fd msg Ho Hin) as (e & He & Hcase). rewrite (st_bind_Ret _ _ _ _ _ He) in H.
    destruct Hcase as [(ev & -> & _)|[-> ->]]; [by apply (indication_inv ev a () a')|]. by apply (timeout_inv a S fd a'). }
  unfold next_async_event_agent in H. destruct (Z.eqb_spec fd (-1)); [by injection H as <-|].
  apply st_bind_inv in H as (e & a1 & He & H). apply st_bind_inv in He as ([] & a2 & [_ ->]%st_assert_inv & He).
  destruct (Z.eqb_spec fd ep_fd) as [Hep|Hep].
  { specialize (Hmsg Hep). injection He as <- <-. destruct msg as [|m].
    - rewrite (with_ctx pending_size a o (ow_pend _ _ _ _ _ _ Ho)) in Hmsg. destruct o; [done|].
      destruct (with_ctx shutdown_ok a S Ho) as (a1 & H1 & Ho' & Hc & _). cbn [handle_async_event] in H. rewrite H1 in H.
      injection H as <-. by apply (good_config a a1 S (Some (new_timer a))).
    - apply st_bind_inv in H as (ans & a1 & H1 & H). pose proof (msg_inv m a ans a1 Hg Hmsg H1) as Hg1.
      destruct ans; try (by injection H as <-); refine (keeps_same _ _ a1 () a' Hg1 H); done. }
  destruct (Z.eqb_spec fd pipe_r) as [Hp|Hp]; [|naive_solver].
  rewrite (st_bind_Ret st_get _ _ _ _ eq_refl) in He. apply st_bind_inv in He as ([] & a2 & [_ ->]%st_assert_inv & He).
  rewrite (st_bind_Ret (st_mod _) _ _ () _ eq_refl) in He. injection He as <- <-.
  refine (aperiodic_inv (ag_aind a) _ () a' _ H). split; [|done]. exists S, o. by apply (with_ctx owned_same a).
Qed.

Lemma reachable_good a : reachable a → good a.
Proof.
  induction 1 as [addr ips id ind sms r a Hin Hind Hs Hstart|a fd msg a' _ IH Hok H|a id d a' _ IH H].
  - destruct (init_good addr ips id ind sms r Hin Hind Hs) as [Ho Hk].
    pose proof (with_ctx start_ok _ [] Ho) as Hst. rewrite Hstart in Hst.
    destruct (setup_of _ _ _ _ _) as [[sr r']| | | |]; try done. destruct Hst as (a1 & [= <-] & Ho' & Hc & _).
    by eapply good_config.
  - by apply (loop_inv fd msg a).
  - by apply (async_inv id d a () a').
Qed.

(** A message on the socket. *)
Definition answered (ans : e2ap_msg_t) a : agent :=
  match ans with NONE_E2_MSG_TYPE => a | _ => e2ap_send ans a end.

Lemma loop_msg a m ans a1 : left_loop a = false → 0 < ep_fd → e2ap_msg_handle_agent timerfd_create m a = Ret (ans, a1) →
  loop ep_fd (SCTP_MSG_PAYLOAD m) a = Ret ((), answered ans a1).
Proof.
  intros Hl Hep Hm. unfold e2_event_loop_agent. rewrite (st_bind_Ret st_get _ _ _ _ eq_refl), Hl.
  unfold next_async_event_agent. assert (ep_fd ≠ -1) as Hne by lia. rewrite (proj2 (Z.eqb_neq _ _) Hne).
  assert ((ep_fd >? 0) = true) as -> by lia. rewrite st_bind_assoc, (st_bind_Ret (st_assert true) _ _ () _ eq_refl), Z.eqb_refl.
  rewrite (st_bind_Ret (mret _) _ _ _ _ eq_refl). cbn [handle_async_event]. rewrite (st_bind_Ret _ _ _ _ _ Hm). by destruct ans.
Qed.

Lemma loop_timer a e fd msg : left_loop a = false → next_async_event_agent ep_fd pipe_r fd msg a = Ret (e, a) →
  loop fd msg a = handle_async_event timerfd_create read_setup_ran encodes e a.
Proof.
  intros Hl He. unfold e2_event_loop_agent. rewrite (st_bind_Ret st_get _ _ _ _ eq_refl), Hl.
  by rewrite (st_bind_Ret _ _ _ _ _ He).
Qed.

Lemma loop_notification a : left_loop a = false → 0 < ep_fd →
  loop ep_fd SCTP_MSG_NOTIFICATION a = handle_connection_shutdown timerfd_create a.
Proof.
  intros Hl Hep. unfold e2_event_loop_agent. rewrite (st_bind_Ret st_get _ _ _ _ eq_refl), Hl. unfold next_async_event_agent.
  assert (ep_fd ≠ -1) as Hm by lia. rewrite (proj2 (Z.eqb_neq _ _) Hm). assert ((ep_fd >? 0) = true) as -> by lia.
  by rewrite st_bind_assoc, (st_bind_Ret (st_assert true) _ _ () _ eq_refl), Z.eqb_refl.
Qed.

(** A descriptor without an event. *)
Lemma loop_unknown a S o fd msg : left_loop a = false → 0 < fd → fd ≠ ep_fd → fd ≠ pipe_r →
  bm_rep cmp_fd cmp_ind_event (ag_ind_event a) S → bm_rep cmp_fd cmp_pending_event (ag_pending a) (pend_of o) →
  fd ∉ S.*1 → o ≠ Some fd → loop fd msg a = Abort.
Proof.
  intros Hl Hpos Hne Hnp HS Hb Hin Ho. unfold e2_event_loop_agent. rewrite (st_bind_Ret st_get _ _ _ _ eq_refl), Hl.
  unfold next_async_event_agent. assert (fd ≠ -1) as Hm by lia.
  rewrite (proj2 (Z.eqb_neq _ _) Hm), (proj2 (Z.eqb_neq _ _) Hne), (proj2 (Z.eqb_neq _ _) Hnp).
  assert ((fd >? 0) = true) as -> by lia. rewrite st_bind_assoc, (st_bind_Ret (st_assert true) _ _ () _ eq_refl).
  destruct (ind_event_spec a S fd HS Hpos) as (r & Hr & Hev). rewrite st_bind_assoc, (st_bind_Ret _ _ _ _ _ Hr).
  destruct r as [ev|]; [destruct Hin; by apply (list_elem_of_fmap_2' fst _ (fd, ev))|].
  rewrite st_bind_assoc, (st_bind_Ret _ _ _ _ _ (pend_event_spec a o fd Hb)). by rewrite decide_False.
Qed.

Lemma event_of_timer a S o p q : owned a S o → p ∈ S → q ∈ S → p.1 = q.1 → p = q.
Proof.
  intros Ho Hp Hq Heq. destruct (ow_ind _ _ _ _ _ _ Ho) as (L & R & _ & _ & Hs & _ & HL & _).
  apply (strict_NoDup cmp_fd) in Hs. rewrite HL in Hs. destruct p as [fd ev], q as [fd' ev']. cbn in Heq. subst fd'.
  f_equal. by apply (NoDup_fst_inj S fd).
Qed.

(** A timer of a subscription expires. *)
Lemma loop_indication a S o fd ev sm ms d msg : owned a S o → left_loop a = false → (fd, ev) ∈ S → 0 < fd →
  ie_sm ev = Some sm → ie_sub ev = PERIODIC_SUBSCRIPTION_FLRC ms d →
  loop fd msg a = ('(exp, r) ← ag_on_indication sm d (ag_ran a);
    Ret ((), match exp with
             | None => set_ran r a
             | Some data => e2ap_send (RIC_INDICATION (generate_indication (ie_ric_id ev) (ie_action_id ev) data)) (set_ran r a)
             end)).
Proof.
  intros Ho Hl Hin Hpos Hsm Hsub. destruct (next_event_ok a S o fd msg Ho) as (e & He & Hcase).
  { apply (with_ctx timer_open a S o (fd, ev) Ho Hin). cbn. lia. }
  rewrite (loop_timer a e fd msg Hl He). assert (e = INDICATION_EVENT ev) as ->.
  { destruct Hcase as [(ev' & -> & Hin')|[_ ->]].
    - by assert ((fd, ev') = (fd, ev)) as [= ->] by (by apply (event_of_timer a S o)).
    - pose proof (ow_nodup _ _ _ _ _ _ Ho) as Hnd. rewrite (ow_open _ _ _ _ _ _ Ho) in Hnd.
      apply NoDup_cons in Hnd as [Hn _]. destruct Hn. unfold sub_timers. apply list_elem_of_filter. split; [lia|].
      by apply (list_elem_of_fmap_2' fst _ (fd, ev)). }
  cbn [handle_async_event]. rewrite Hsm, Hsub, (with_ctx on_ran_bind).
  by destruct (ag_on_indication sm d (ag_ran a)) as [[[data|] r]| | | |].
Qed.

(** ** Setup *)

(** [n] timers in a row expire, each the only one the agent waits on. *)
Fixpoint timeouts (n : nat) : st agent () :=
  match n with
  | O => mret ()
  | S n =>
      ag ← st_get;
      match open_timers ag with
      | [fd] => loop fd SCTP_MSG_NOTIFICATION
      | _ => st_abort
      end;;
      timeouts n
  end.

(** The setup request is pending, and [k] have been sent. *)
Definition asking a0 a (k : nat) : Prop :=
  (∃ fd, owned a [] (Some fd)) ∧ same_config a0 a ∧ trans_id_setup_req a = Z.of_nat k ∧
  ∃ srs, ag_sent a = E2_SETUP_REQUEST <$> reverse srs ∧ stp_trans_id <$> srs = wrap 8 <$> seqZ 0 (Z.of_nat k).

Lemma setup_of_trans id t r sr r' : setup_of read_setup_ran SM id t r = Ret (sr, r') → stp_trans_id sr = wrap 8 t.
Proof.
  unfold setup_of. intros ([] & r1 & _ & (rfs & r2 & _ & (cca & r3 & _ & [= <- _])%st_bind_inv)%st_bind_inv)%st_bind_inv. done.
Qed.

Section willing.
(** The RAN always describes itself, and the request can be encoded. *)
Context (a0 : agent) (Hran : ∀ t r, ∃ sr r', setup_of read_setup_ran SM (global_e2_node_id a0) t r = Ret (sr, r') ∧ encodes sr = true).
Context (Hk : knows_ric a0) (Hl : left_loop a0 = false).

(** One more request. *)
Lemma asking_next a a' k t sr r : Z.of_nat k + 1 < 2 ^ 32 → encodes sr = true → stp_trans_id sr = wrap 8 (Z.of_nat k) →
  trans_id_setup_req a = Z.of_nat k → same_config a0 a →
  (∃ srs, ag_sent a = E2_SETUP_REQUEST <$> reverse srs ∧ stp_trans_id <$> srs = wrap 8 <$> seqZ 0 (Z.of_nat k)) →
  (requested a t [] None sr r a' ∨ requested a t [] (Some t) sr r a') → asking a0 a' (S k).
Proof.
  intros Hlt Henc Hid Ht Hc0 (srs & Hs & Hids) Hreq. unfold requested in Hreq. rewrite Henc in Hreq.
  assert (owned a' [] (Some t) ∧ same_config a a' ∧ ag_sent a' = E2_SETUP_REQUEST sr :: ag_sent a ∧
    trans_id_setup_req a' = wrap 32 (trans_id_setup_req a + 1)) as (Ho & Hc & Hsent & Htr) by naive_solver.
  split_and!; [by exists t| |rewrite Htr, Ht, wrap_id; [lia|split; lia]|].
  - destruct Hc as (? & ? & ?), Hc0 as (? & ? & ?). split_and!; congruence.
  - exists (srs ++ [sr]). rewrite reverse_snoc, Hsent, Hs. split; [done|].
    rewrite fmap_app, Hids, seqZ_S, fmap_app. cbn. by rewrite Hid.
Qed.

Lemma asking_timeout a k : asking a0 a k → Z.of_nat k + 1 < 2 ^ 32 → ∃ a', timeouts 1 a = Ret ((), a') ∧ asking a0 a' (S k).
Proof.
  intros ([fd Ho] & Hc & Ht & Hsent) Hlt. cbn [timeouts]. rewrite (st_bind_Ret st_get _ _ _ _ eq_refl).
  pose proof (ow_open _ _ _ _ _ _ Ho) as Hop. apply Permutation_singleton_r in Hop. rewrite Hop.
  destruct Hk as [i Hi]. pose proof Hc as (Hcc & Hid & Hll). rewrite Hl in Hll. rewrite <-Hcc in Hi.
  pose proof (with_ctx timeout_ok a [] fd i Ho Hi) as Hto. cbv zeta in Hto.
  destruct (Hran (trans_id_setup_req a) (ag_ran a)) as (sr & r & Hsr & Henc). rewrite Hid, Hsr in Hto.
  destruct Hto as (a' & Hrun & Hreq). exists a'. split.
  - destruct (next_event_ok a [] (Some fd) fd SCTP_MSG_NOTIFICATION Ho) as (e & He & [(ev & _ & Hin)|[-> _]]).
    + rewrite Hop. left.
    + by apply elem_of_nil in Hin.
    + rewrite st_bind_eq, (loop_timer _ _ _ _ Hll He). cbn [handle_async_event]. by rewrite Hrun.
  - eapply (asking_next a a' k); [done|done| |done..|by left]. rewrite <-Ht. by apply setup_of_trans in Hsr.
Qed.

Lemma asking_timeouts n a k : asking a0 a k → Z.of_nat k + Z.of_nat n < 2 ^ 32 →
  ∃ a', timeouts n a = Ret ((), a') ∧ asking a0 a' (k + n).
Proof.
  revert a k. induction n as [|n IH]; intros a k Ha Hlt.
  - exists a. rewrite Nat.add_0_r. done.
  - destruct (asking_timeout a k Ha) as (a1 & H1 & Ha1); [lia|]. destruct (IH a1 (S k) Ha1) as (a2 & H2 & Ha2); [lia|].
    exists a2. rewrite <-Nat.add_succ_comm. split; [|done]. cbn [timeouts] in H1 |- *.
    rewrite (st_bind_Ret st_get _ _ _ _ eq_refl). rewrite (st_bind_Ret st_get _ _ _ _ eq_refl) in H1. apply st_bind_inv in H1 as ([] & a1' & H1 & [= <-]).
    by rewrite (st_bind_Ret _ _ _ _ _ H1).
Qed.

(** C10. The setup request is repeated, with the next transaction id each time (8 bits
    on the wire), until the RIC answers; then nothing is pending and no timer of it
    is left. *)
Theorem setup_retried n resp : owned a0 [] None → trans_id_setup_req a0 = 0 → ag_sent a0 = [] →
  0 < ep_fd → Z.of_nat n + 1 < 2 ^ 32 →
  ∃ a' srs, (start;; timeouts n;; loop ep_fd (SCTP_MSG_PAYLOAD (E2_SETUP_RESPONSE resp))) a0 = Ret ((), a') ∧
    owned a' [] None ∧ trans_id_setup_req a' = 0 ∧
    ag_sent a' = E2_SETUP_REQUEST <$> reverse srs ∧ stp_trans_id <$> srs = wrap 8 <$> seqZ 0 (Z.of_nat n + 1).
Proof.
  intros Ho Ht Hs Hep Hn. pose proof (with_ctx start_ok a0 [] Ho) as Hst.
  destruct (Hran (trans_id_setup_req a0) (ag_ran a0)) as (sr & r & Hsr & Henc). rewrite Hsr in Hst.
  destruct Hst as (a1 & H1 & Hreq).
  assert (asking a0 a1 1) as Ha1.
  { eapply (asking_next a0 a1 0); [lia|done| |done|by split_and!|by exists []|by right]. rewrite (setup_of_trans _ _ _ _ _ Hsr). by rewrite Ht. }
  destruct (asking_timeouts n a1 1 Ha1) as (a2 & H2 & [fd Ho2] & Hc & Ht2 & srs & Hs2 & Hids); [lia|].
  destruct (with_ctx setup_response_ok a2 [] fd Ho2) as (a3 & H3 & Ho3 & _ & Hs3 & _ & Ht3).
  assert ((trans_id_setup_req a2 >? 0) = true) as Hpos by lia. rewrite Hpos in H3.
  exists a3, srs. split_and!; [|done|done|by rewrite Hs3|].
  - rewrite (st_bind_Ret _ _ _ _ _ H1), (st_bind_Ret _ _ _ _ _ H2). destruct Hc as (_ & _ & Hl2).
    apply (loop_msg a2 _ NONE_E2_MSG_TYPE a3); [congruence|done..].
  - rewrite Hids. do 2 f_equal. lia.
Qed.
End willing.
(** C25. The connection is lost while the setup request is pending: its timer is left in
    the epoll set without an event, and when it expires the agent aborts. *)
Theorem shutdown_orphans_timer a S fd msg : owned a S (Some fd) → left_loop a = false → 0 < ep_fd →
  ∃ a', loop ep_fd SCTP_MSG_NOTIFICATION a = Ret ((), a') ∧ fd ∈ open_timers a' ∧ loop fd msg a' = Abort.
Proof.
  intros Ho Hl Hep. destruct (with_ctx pend_rep a S (Some fd) Ho fd eq_refl) as [Hpos Hin].
  pose proof (ow_fds _ _ _ _ _ _ Ho) as HF. rewrite Forall_forall in HF. destruct (HF fd Hin) as (_ & Hne & Hnp).
  set (a1 := set_connected false a). assert (owned a1 S (Some fd)) as Ho1 by (by apply (with_ctx owned_same a)).
  set (a2 := set_pend (mk_bi_map a_init a_init true) a1). set (t := new_timer a2). set (a3 := set_open (t :: open_timers a2) a2).
  destruct (with_ctx insert_setup_ok a3 t (with_ctx init_pending_rep)) as (b & Hi & Hb).
  destruct (timerfd_create_fresh (open_timers a2)) as (Htpos & Hfr & _). exists (set_pend b a3). split_and!.
  - rewrite loop_notification by done. unfold handle_connection_shutdown.
    rewrite (st_bind_Ret (st_mod (set_connected false)) _ a () a1 eq_refl), (st_bind_Ret _ _ _ _ _ (with_ctx free_if_any_ok a1 S (Some fd) Ho1)).
    rewrite (st_bind_Ret _ _ _ _ _ (with_ctx create_timer_ok a2 3000 3000 ltac:(lia) ltac:(lia))).
    rewrite (proj2 (Z.leb_le 0 _)) by lia. exact Hi.
  - by right.
  - apply (loop_unknown _ S (Some t)); try done; [exact (ow_ind _ _ _ _ _ _ Ho)| |].
    + pose proof (ow_nodup _ _ _ _ _ _ Ho) as Hnd. rewrite (ow_open _ _ _ _ _ _ Ho) in Hnd. apply NoDup_cons in Hnd as [Hn _].
      intros Hs. apply Hn. unfold sub_timers. apply list_elem_of_filter. split; [lia|done].
    + intros [= Heq]. apply Hfr. fold t. by rewrite Heq.
Qed.

(** ** A subscription from its request to its deletion *)

(** C9. The near-RT RIC subscribes, the timer expires and the service model has data,
    the near-RT RIC deletes the subscription: each is answered under the id of the
    request, and the agent is as before. *)
Theorem subscription_lifecycle a S o sr act sm ms d data r r' msg : owned a S o → left_loop a = false → 0 < ep_fd →
  asked sr (ag_ran a) = Ret (act, sm, PERIODIC_SUBSCRIPTION_FLRC ms d, r) → -1 < ms < 10001 → fresh_event_id S (sr_ric_id sr) →
  ag_on_indication sm d r = Ret (Some data, r') →
  ∃ a' S', (loop ep_fd (SCTP_MSG_PAYLOAD (RIC_SUBSCRIPTION_REQUEST sr));; loop (new_timer a) msg;;
      loop ep_fd (SCTP_MSG_PAYLOAD (RIC_SUBSCRIPTION_DELETE_REQUEST (mk_ric_subscription_delete_request (sr_ric_id sr))))) a
      = Ret ((), a') ∧
    ag_sent a' = RIC_SUBSCRIPTION_DELETE_RESPONSE (mk_ric_subscription_delete_response (sr_ric_id sr)) ::
      RIC_INDICATION (generate_indication (sr_ric_id sr) (act_id act) data) ::
      RIC_SUBSCRIPTION_RESPONSE (generate_subscription_response (sr_ric_id sr) (act_id act)) :: ag_sent a ∧
    S' ≡ₚ S ∧ owned a' S' o ∧ open_timers a' ≡ₚ open_timers a ∧ ag_ran a' = r'.
Proof.
  intros Ho Hl Hep Has Hms Hid Hind. set (ev := event_of sr act sm (PERIODIC_SUBSCRIPTION_FLRC ms d)).
  assert (owned (set_ran r a) S o) as Ho0 by (by apply (with_ctx owned_same a)).
  destruct (with_ctx new_periodic_ok (set_ran r a) S o ev sm ms d Ho0 eq_refl eq_refl Hms Hid) as (a1 & H1 & Ho1 & (_ & _ & Hl1) & Hs1 & Hr1 & Ht1).
  change (new_timer (set_ran r a)) with (new_timer a) in *. pose proof (timerfd_create_fresh (open_timers a)) as (Hpos & _). remember (new_timer a) as fd eqn:Hfd.
  cbn [open_timers set_ran ag_ran left_loop ag_sent] in Hl1, Hs1, Hr1, Ht1. rewrite Hl in Hl1.
  set (resp := RIC_SUBSCRIPTION_RESPONSE _). set (ind := RIC_INDICATION _). set (del := RIC_SUBSCRIPTION_DELETE_RESPONSE _).
  assert (owned (e2ap_send resp a1) ((fd, ev) :: S) o) as Ho2 by (by apply (with_ctx owned_same a1)).
  set (a3 := e2ap_send ind (set_ran r' (e2ap_send resp a1))).
  assert (owned a3 ((fd, ev) :: S) o) as Ho3 by (by apply (with_ctx owned_same (e2ap_send resp a1))).
  destruct (with_ctx stop_ok a3 _ o (fd, ev) Ho3 ltac:(left)) as (S' & HS & H4).
  destruct H4 as (a4 & H4 & Ho4 & (_ & _ & Hl4) & Hs4 & Hr4 & Ht4). apply Permutation_cons_inv in HS.
  exists (e2ap_send del a4), S'. split_and!; [| | by symmetry| by apply (with_ctx owned_same a4)| |done].
  - rewrite (st_bind_Ret _ _ a () (e2ap_send resp a1)).
    2: { apply (loop_msg a _ resp a1 Hl Hep). cbn [e2ap_msg_handle_agent]. rewrite (with_ctx subscription_eq a S o sr Ho), Has.
         cbn [mbind outcome_bind]. fold ev. by rewrite H1. }
    rewrite (st_bind_Ret _ _ _ () a3).
    2: { rewrite (loop_indication _ _ o fd ev sm ms d msg Ho2); [|done|left|done..]. cbn [ag_ran e2ap_send]. by rewrite Hr1, Hind. }
    apply (loop_msg a3 _ del a4 Hl1 Hep). cbn [e2ap_msg_handle_agent].
    unfold e2ap_handle_subscription_delete_request_agent. cbn [sdr_ric_id]. by rewrite (st_bind_Ret _ _ _ _ _ H4).
  - cbn [ag_sent e2ap_send]. rewrite Hs4, <-Hs1. done.
  - rewrite (ow_open _ _ _ _ _ _ Ho). change (open_timers (e2ap_send del a4)) with (open_timers a4).
    rewrite (ow_open _ _ _ _ _ _ Ho4). by rewrite (with_ctx sub_timers_perm S S' HS).
Qed.
End agent.
