(* ===== verification/NodeSpec.v ===== *)
(** * An E2 node, as the near-RT RIC sees it

    [E2Node] is what the near-RT RIC uses of a node: it starts, it takes the
    messages of the RIC, and it sends messages.  [E2NodeLaws] is the contract: the
    setup is asked for and ends with the answer of the RIC, and a subscription the
    node is willing to take is answered under its own request id.  [E2NodeInd]: the
    timer of a report sends what the service model reads. *)
From S2P Require Import Prelude RicIds E2apMsg NearRic Agent.

Class E2Node (A : Type) := {
  node_start : st A ();
  node_recv : e2ap_msg_t → st A ();
  node_sent : A → list e2ap_msg_t;
  (** the node can start and ask for the setup [req] *)
  node_boots : A → e2_setup_request_t → Prop;
  (** the setup is asked for; it is done *)
  node_asking : A → Prop;
  node_ready : A → Prop;
  (** the node takes the subscription, under this action id *)
  node_willing : A → ric_subscription_request_t → Z → Prop }.

Class E2NodeLaws (A : Type) `{!E2Node A} := {
  node_start_ok n req : node_boots n req →
    ∃ n', node_start n = Ret ((), n') ∧ node_sent n' = E2_SETUP_REQUEST req :: node_sent n ∧ node_asking n';
  node_setup_ok n resp : node_asking n →
    ∃ n', node_recv (E2_SETUP_RESPONSE resp) n = Ret ((), n') ∧ node_sent n' = node_sent n ∧ node_ready n';
  node_subscribe_ok n sr act : node_ready n → node_willing n sr act →
    ∃ n', node_recv (RIC_SUBSCRIPTION_REQUEST sr) n = Ret ((), n') ∧ node_ready n' ∧
      node_sent n' = RIC_SUBSCRIPTION_RESPONSE (mk_ric_subscription_response (sr_ric_id sr) [act] []) :: node_sent n }.

(** A node with periodic reports: [node_reports n fd id act sm d] says that the timer
    [fd] is the one of the report [id] with the action id [act], which the service
    model [sm] makes from its data [d]. *)
Class E2NodeInd (A : Type) `{!E2Node A} (RAN P : Type) := {
  node_ran : A → RAN;
  node_timer : Z → st A ();   (** a timer expires *)
  node_reports : A → Z → ric_gen_id_t → Z → sm_agent_t RAN P → P → Prop;
  node_report_ok n fd id act sm d data r' : node_reports n fd id act sm d →
    ag_on_indication sm d (node_ran n) = Ret (Some data, r') →
    ∃ n', node_timer fd n = Ret ((), n') ∧ node_ran n' = r' ∧
      node_sent n' = RIC_INDICATION (generate_indication id act data) :: node_sent n }.
