(* ===== verification/AgentNode.v ===== *)
(** * The E2 agent is an E2 node

    The agent fulfils the contract of [NodeSpec]. *)
From Stdlib Require Import String.
From stdpp Require Import gmap.
From S2P Require Import Prelude AssocSpec AssocIter AssocFree BiMap BiMapFind RicIds E2apMsg NearRic Agent AgentInv AgentStep AgentProps NodeSpec.
#[local] Set Warnings "-clear-no-such-hyp".
#[local] Set Default Proof Using "All".
#[local] Open Scope Z_scope.

Section agent.
Context {RAN P TIL TIR IIL IIR TPL TPR IPL IPR TS IS : Type}
  `{OIL : AssocOps Z (ind_event_t RAN P) TIL} `{OIR : AssocOps (ind_event_t RAN P) Z TIR}
  `{IOIL : !AssocIterOps Z (ind_event_t RAN P) TIL IIL} `{IOIR : !AssocIterOps (ind_event_t RAN P) Z TIR IIR}
  `{OPL : AssocOps Z pending_event_t TPL} `{OPR : AssocOps pending_event_t Z TPR}
  `{IOPL : !AssocIterOps Z pending_event_t TPL IPL} `{IOPR : !AssocIterOps pending_event_t Z TPR IPR}
  `{FPL : !AssocFreeOps Z pending_event_t TPL IPL} `{FPR : !AssocFreeOps pending_event_t Z TPR IPR}
  `{OS : AssocOps Z (sm_agent_t RAN P) TS} `{IOS : !AssocIterOps Z (sm_agent_t RAN P) TS IS}.
Context {LIL : AssocLaws (V := ind_event_t RAN P) (T := TIL) cmp_fd} {LIR : AssocLaws (V := Z) (T := TIR) (cmp_ind_event (RAN := RAN) (P := P))}
  {ILIL : AssocIterLaws (V := ind_event_t RAN P) (I := IIL) cmp_fd} {ILIR : AssocIterLaws (V := Z) (I := IIR) (cmp_ind_event (RAN := RAN) (P := P))}
  {LPL : AssocLaws (V := pending_event_t) (T := TPL) cmp_fd}
  {LPR : AssocLaws (V := Z) (T := TPR) cmp_pending_event}
  {ILPL : AssocIterLaws (V := pending_event_t) (I := IPL) cmp_fd} {ILPR : AssocIterLaws (V := Z) (I := IPR) cmp_pending_event}
  {FLPL : AssocFreeLaws (V := pending_event_t) (I := IPL) cmp_fd} {FLPR : AssocFreeLaws (V := Z) (I := IPR) cmp_pending_event}
  {LS : AssocLaws (V := sm_agent_t RAN P) (T := TS) cmp_ran_func_id} {ILS : AssocIterLaws (V := sm_agent_t RAN P) (I := IS) cmp_ran_func_id}.
Context (timerfd_create : list Z → Z) (ep_fd pipe_r : Z)
  (read_setup_ran : Z → st RAN (list e2ap_node_component_config_add_t))
  (encodes : e2_setup_request_t → bool) (SM : list (Z * sm_agent_t RAN P)).
Context (timerfd_create_fresh : ∀ open, 0 < timerfd_create open ∧ (timerfd_create open ∉ open) ∧
  timerfd_create open ≠ ep_fd ∧ timerfd_create open ≠ pipe_r).

Abbreviation agent := (e2_agent_t (RAN := RAN) (P := P) (TIL := TIL) (TIR := TIR) (TPL := TPL) (TPR := TPR) (TS := TS)).
Abbreviation ev_t := (ind_event_t RAN P).
#[local] Notation "'with_ctx' f" :=
  (f timerfd_create ep_fd pipe_r read_setup_ran encodes SM timerfd_create_fresh) (at level 9, only parsing).
Context (ep_fd_pos : 0 < ep_fd).
Abbreviation loop := (e2_event_loop_agent timerfd_create ep_fd pipe_r read_setup_ran encodes).
Implicit Types (a : agent) (S : list (Z * ev_t)) (o : option Z).
Abbreviation owned := (owned ep_fd pipe_r SM).
Abbreviation plugin_of := (plugin_of SM).
Abbreviation asked := (asked SM).
Abbreviation requested := (requested ep_fd pipe_r encodes SM).
Abbreviation new_timer a := (timerfd_create (open_timers a)).


(** [epoll_wait] reports the socket: the agent takes the message. *)
Definition agent_node : E2Node agent := {|
  node_start := e2_start_agent timerfd_create read_setup_ran encodes;
  node_recv m := loop ep_fd (SCTP_MSG_PAYLOAD m);
  node_sent := ag_sent;
  node_boots a req := owned a [] None ∧ left_loop a = false ∧ 0 <= trans_id_setup_req a < 2 ^ 32 - 1 ∧
    (∃ r, setup_of read_setup_ran SM (global_e2_node_id a) (trans_id_setup_req a) (ag_ran a) = Ret (req, r)) ∧ encodes req = true;
  node_asking a := (∃ S fd, owned a S (Some fd)) ∧ 0 < trans_id_setup_req a ∧ left_loop a = false;
  node_ready a := (∃ S, owned a S None) ∧ left_loop a = false;
  node_willing a sr i := ∃ act sm ms d r, asked sr (ag_ran a) = Ret (act, sm, PERIODIC_SUBSCRIPTION_FLRC ms d, r) ∧
    act_id act = i ∧ -1 < ms < 10001 ∧ on_ind (on_right (find_in_tree (eq_ind_event (sr_ric_id sr)))) a = Ret (None, a) |}.

Lemma agent_starts a req : node_boots (E2Node := agent_node) a req →
  ∃ a', node_start (E2Node := agent_node) a = Ret ((), a') ∧ ag_sent a' = E2_SETUP_REQUEST req :: ag_sent a ∧
    node_asking (E2Node := agent_node) a'.
Proof.
  intros (Ho & Hl & Ht & (r & Hr) & He). pose proof (with_ctx start_ok a [] Ho) as Hs. rewrite Hr in Hs.
  destruct Hs as (a' & Hrun & Ho' & (_ & _ & Hl') & Hsent & Htr & _). rewrite He in Ho', Hsent.
  exists a'. split_and!; [done..|]. split_and!; [by eexists _, _| |congruence].
  rewrite Htr, wrap_id; [lia|split; lia].
Qed.

Lemma agent_set_up a resp : node_asking (E2Node := agent_node) a →
  ∃ a', node_recv (E2Node := agent_node) (E2_SETUP_RESPONSE resp) a = Ret ((), a') ∧ ag_sent a' = ag_sent a ∧
    node_ready (E2Node := agent_node) a'.
Proof.
  intros ((S & fd & Ho) & Ht & Hl). destruct (with_ctx setup_response_ok a S fd Ho) as (a' & Hm & Ho' & (_ & _ & Hl') & Hs & _).
  assert ((trans_id_setup_req a >? 0) = true) as Hgt by lia. rewrite Hgt in Hm.
  exists a'. split_and!; [|done|split; [by eexists|congruence]].
  by apply (with_ctx loop_msg a _ NONE_E2_MSG_TYPE a').
Qed.

Lemma agent_subscribes a sr i : node_ready (E2Node := agent_node) a → node_willing (E2Node := agent_node) a sr i →
  ∃ a', node_recv (E2Node := agent_node) (RIC_SUBSCRIPTION_REQUEST sr) a = Ret ((), a') ∧ node_ready (E2Node := agent_node) a' ∧
    ag_sent a' = RIC_SUBSCRIPTION_RESPONSE (mk_ric_subscription_response (sr_ric_id sr) [i] []) :: ag_sent a.
Proof.
  intros [(S & Ho) Hl] (act & sm & ms & d & r & Has & <- & Hms & Hf).
  assert (sub_ok SM sr a) as Hok by (split; [exact Hf|]; intros (? & ? & ? & ? & H); congruence).
  destruct (with_ctx sub_ok_fresh sr a S None Ho Hok) as [Hid _].
  destruct (with_ctx new_periodic_ok (set_ran r a) S None (event_of sr act sm (PERIODIC_SUBSCRIPTION_FLRC ms d)) sm ms d)
    as (a1 & H1 & Ho1 & (_ & _ & Hl1) & Hs1 & _); [by apply (with_ctx owned_same a)|done..|].
  set (resp := RIC_SUBSCRIPTION_RESPONSE _). exists (e2ap_send resp a1).
  split_and!; [|split; [eexists; by apply (with_ctx owned_same a1)|]|].
  - apply (with_ctx loop_msg a _ resp a1 Hl ep_fd_pos). cbn [e2ap_msg_handle_agent].
    rewrite (with_ctx subscription_eq a S None sr Ho), Has. cbn [mbind outcome_bind]. by rewrite H1.
  - cbn in *. congruence.
  - cbn in *. by rewrite Hs1.
Qed.

Definition agent_node_laws : E2NodeLaws agent (E2Node0 := agent_node) :=
  Build_E2NodeLaws agent agent_node agent_starts agent_set_up agent_subscribes.

Lemma agent_reports a fd id act sm d data r' :
  (∃ S o ev ms, owned a S o ∧ left_loop a = false ∧ (fd, ev) ∈ S ∧ 0 < fd ∧ ie_sm ev = Some sm ∧
     ie_sub ev = PERIODIC_SUBSCRIPTION_FLRC ms d ∧ ie_ric_id ev = id ∧ ie_action_id ev = act) →
  ag_on_indication sm d (ag_ran a) = Ret (Some data, r') →
  ∃ a', loop fd SCTP_MSG_NOTIFICATION a = Ret ((), a') ∧ ag_ran a' = r' ∧
    ag_sent a' = RIC_INDICATION (generate_indication id act data) :: ag_sent a.
Proof.
  intros (S & o & ev & ms & Ho & Hl & Hin & Hpos & Hsm & Hsub & <- & <-) Hd.
  rewrite (with_ctx loop_indication a S o fd ev sm ms d _ Ho Hl Hin Hpos Hsm Hsub), Hd. by eexists.
Qed.

Definition agent_node_ind : E2NodeInd agent (E2Node0 := agent_node) RAN P :=
  Build_E2NodeInd agent agent_node RAN P ag_ran (λ fd, loop fd SCTP_MSG_NOTIFICATION) _ agent_reports.
End agent.
