(* ===== verification/Chain.v ===== *)
(** * From the xApp to the E2 node and back

    The near-RT RIC and the iApp against a node that keeps the contract of
    [NodeSpec]: the setup, and a subscription of an xApp. *)
From Stdlib Require Import String.
From stdpp Require Import gmap.
From S2P Require Import Prelude AssocSpec AssocIter AssocFree BiMap BiMapFind RicIds E2apMsg RegNodes AddrMaps MapRicId.
From S2P Require Import SubRegistry NearRic RicSpec NearRicPub NearRicSetup IApp IAppSpec IAppInv IAppProps System NodeSpec.
#[local] Set Warnings "-clear-no-such-hyp".
#[local] Set Default Proof Using "All".

(** What an accepted subscription sends to the node. *)
Lemma sub_sent N relock info m to node a a' : sin_port to ≠ 0%Z →
  (e42_sr_xapp_id m <= ia_next a)%Z → addr_of (ia_addr a) (e42_sr_xapp_id m) = Ret to →
  node_addr N (e42_sr_id m) = Some node →
  ia_step N relock (XappMsg info (E42_RIC_SUBSCRIPTION_REQUEST m)) a = Ret a' →
  s_sent (ia_ric a') = (node, RIC_SUBSCRIPTION_REQUEST (sr m)) :: s_sent (ia_ric a).
Proof.
  intros Hp Hx Ha Hn. cbn [ia_step]. unfold ia_message. intros (a1 & H1 & H)%bind_Ret_inv.
  destruct (ia_freed a1); [done|]. injection H as <-. revert H1. cbn [ia_xapp_msg]. unfold ia_sub_req.
  destruct (_ <? _)%Z; [|done]. cbn [c_assert mbind outcome_bind ia_next ia_addr ia_set_fwd].
  rewrite (proj2 (Z.leb_le _ _) Hx), Ha. cbn [mbind outcome_bind]. rewrite (proj2 (Z.eqb_neq _ _) Hp).
  cbn [ric_spec_step]. unfold s_request. rewrite Hn. cbn [mbind outcome_bind]. unfold ia_record. intros [= <-].
  cbv zeta. by destruct (_ =? 0)%Z.
Qed.

Section setup.
Context {TL TR TEL TER TP TS IR IE IP IS C D : Type}
  `{OL : AssocOps Z pending_event_ric_t TL} `{OR : AssocOps pending_event_ric_t Z TR}
  `{IOR : !AssocIterOps pending_event_ric_t Z TR IR}
  `{OEL : AssocOps global_e2_node_id_t sctp_info_t TEL} `{OER : AssocOps sctp_info_t global_e2_node_id_t TER}
  `{IOE : !AssocIterOps global_e2_node_id_t sctp_info_t TEL IE}
  `{OP : AssocOps Z positive TP} `{IOP : !AssocIterOps Z positive TP IP}
  `{OS : AssocOps Z (sm_ric_t C D) TS} `{IOS : !AssocIterOps Z (sm_ric_t C D) TS IS}.
Context {LE : AssocLaws (V := sctp_info_t) (T := TEL) cmp_node}
  {LR : AssocLaws (V := global_e2_node_id_t) (T := TER) cmp_sctp_info_wrapper}.
Context {LS : AssocLaws (V := sm_ric_t C D) (T := TS) cmp_up}
  {ILS : AssocIterLaws (V := sm_ric_t C D) (I := IS) cmp_up}.

Context {A : Type} `{EN : !E2Node A} {LEN : E2NodeLaws A}.

Abbreviation ric := (near_ric_t (TL := TL) (TR := TR) (TEL := TEL) (TER := TER) (TP := TP) (TS := TS) (D := D)).
Implicit Types (r : ric).

Abbreviation book := (bm_rep cmp_node cmp_sctp_info_wrapper).

End setup.

Section chain.
Context {R TN IN TXL TXR IXL IXR TML TMR IML IMR : Type} `{RI : !RicIf R} `{NI : !RicNode R}.
Context `{ON : AssocOps global_e2_node_id_t pair_rf_cca_t TN} `{ION : !AssocIterOps global_e2_node_id_t pair_rf_cca_t TN IN}
  `{FN : !AssocFreeOps global_e2_node_id_t pair_rf_cca_t TN IN}
  `{OXL : AssocOps Z sctp_info_t TXL} `{OXR : AssocOps sctp_info_t Z TXR}
  `{IOXL : !AssocIterOps Z sctp_info_t TXL IXL} `{IOXR : !AssocIterOps sctp_info_t Z TXR IXR}
  `{OML : AssocOps e2_node_ric_id_t xapp_ric_id_t TML} `{OMR : AssocOps xapp_ric_id_t e2_node_ric_id_t TMR}
  `{IOML : !AssocIterOps e2_node_ric_id_t xapp_ric_id_t TML IML}
  `{IOMR : !AssocIterOps xapp_ric_id_t e2_node_ric_id_t TMR IMR}.
Context {LN : AssocLaws (V := pair_rf_cca_t) (T := TN) cmp_node} {ILN : AssocIterLaws (I := IN) cmp_node}
  {FLN : AssocFreeLaws (I := IN) cmp_node}.
Context {LXL : AssocLaws (V := sctp_info_t) (T := TXL) cmp_uint16_wrapper}
  {LXR : AssocLaws (V := Z) (T := TXR) cmp_sctp_info_wrapper}
  {ILXL : AssocIterLaws (V := sctp_info_t) (I := IXL) cmp_uint16_wrapper}
  {ILXR : AssocIterLaws (V := Z) (I := IXR) cmp_sctp_info_wrapper}.
Context {LML : AssocLaws (V := xapp_ric_id_t) (T := TML) cmp_e2_node_ric_req_wrapper}
  {LMR : AssocLaws (V := e2_node_ric_id_t) (T := TMR) cmp_xapp_ric_gen_id}
  {ILML : AssocIterLaws (V := xapp_ric_id_t) (I := IML) cmp_e2_node_ric_req_wrapper}
  {ILMR : AssocIterLaws (V := e2_node_ric_id_t) (I := IMR) cmp_xapp_ric_gen_id}.
Context (N : list (global_e2_node_id_t * sctp_info_t)) {LR : RicIfLaws R N} {LND : RicNodeLaws R N} {LRS : RicSent R N}.
Context {A : Type} `{EN : !E2Node A} {LEN : E2NodeLaws A}.
Context (relock : option Z) (realloc_ok : nat → bool) (junk : subscription_entry_t).
Context (relock_fails : relock ≠ Some 0%Z) (realloc_total : ∀ n, realloc_ok n = true).

Abbreviation iapp := (e42_iapp_t (R := R) (TN := TN) (TXL := TXL) (TXR := TXR) (TML := TML) (TMR := TMR)).
Implicit Types (i : iapp) (a : ia_spec).
Abbreviation sim := (ia_sim N).


(** A subscription of a connected xApp, as the near-RT RIC forwards it to a node
    that is willing to take it: the node gets the request the xApp made, and its
    answer comes back to the xApp. *)
Theorem subscription_end_to_end i a n info node m to i1 : sim i a →
  (0 < ric_req_id (sr_ric_id (sr m)) < 2 ^ 16)%Z → (e42_sr_xapp_id m <= ia_next a)%Z →
  addr_of (ia_addr a) (e42_sr_xapp_id m) = Ret to → sin_port to ≠ 0%Z →
  ia_op_fresh (XappMsg info (E42_RIC_SUBSCRIPTION_REQUEST m)) a = true →
  node_addr N (e42_sr_id m) = Some node → node_ready n → node_willing n (sr m) 0 →
  xapp_msg_arrived relock realloc_ok junk info (E42_RIC_SUBSCRIPTION_REQUEST m) i = Ret ((), i1) →
  let resp := RIC_SUBSCRIPTION_RESPONSE (sub_answer m) in
  ric_sent (ric_if i1) = (node, RIC_SUBSCRIPTION_REQUEST (sr m)) :: ric_sent (ric_if i) ∧
  ∃ n1 i2, node_recv (RIC_SUBSCRIPTION_REQUEST (sr m)) n = Ret ((), n1) ∧ node_sent n1 = resp :: node_sent n ∧
    node_msg_arrived relock realloc_ok junk node resp i1 = Ret ((), i2) ∧ sent_xapps i2 = (to, resp) :: sent_xapps i1.
Proof.
  intros Hs Hq Hx Ha Hp Hfr Hnode Hready Hw Hrun resp.
  pose proof (sys_step_sim N relock realloc_ok junk relock_fails realloc_total (Iapp (XappMsg info (E42_RIC_SUBSCRIPTION_REQUEST m))) i a Hs Hfr) as H.
  change (sys_step relock realloc_ok junk (Iapp (XappMsg info (E42_RIC_SUBSCRIPTION_REQUEST m))) i)
    with (xapp_msg_arrived relock realloc_ok junk info (E42_RIC_SUBSCRIPTION_REQUEST m) i) in H.
  rewrite Hrun in H. destruct (sys_spec_step N relock _ a) as [a1| | | |] eqn:Hspec; try done. destruct H as (? & [= <-] & Hs1).
  assert (0 < sub_req_id m)%Z as Hq' by (unfold sub_req_id; rewrite wrap_id by (unfold u_ok; lia); lia).
  pose proof (sub_waiting N relock info m to a a1 (sim_coherent _ _ _ Hs) Hq' Hp Hx Ha Hspec) as Hwait.
  destruct (node_subscribe_ok n (sr m) 0%Z Hready Hw) as (n1 & Hn1 & _ & Hsent).
  destruct (wait_answer N relock node m to a1 Hwait) as (a2 & H2 & Hs2);
    [by apply (map_rep_unique _ _ (sim_map _ _ _ Hs1))|done|lia|].
  pose proof (sys_step_sim N relock realloc_ok junk relock_fails realloc_total (FromNode node resp) i1 a1 Hs1 eq_refl) as H3.
  unfold resp in H3. rewrite H2 in H3. destruct H3 as (i2 & Hi2 & Hsim2). split.
  - rewrite (ric_sent_ok _ _ (sim_ric _ _ _ Hs1)), (ric_sent_ok _ _ (sim_ric _ _ _ Hs)).
    by apply (sub_sent N relock info m to node a a1).
  - exists n1, i2. split_and!; [done|done|exact Hi2|]. by rewrite (sim_sent _ _ _ Hsim2), Hs2, (sim_sent _ _ _ Hs1).
Qed.
End chain.
