(* ===== verification/AgentRb.v ===== *)
(** * The E2 agent over red-black trees

    A concrete agent with one service model, and the theorems of the agent and of
    the whole chain on it. *)
From Stdlib Require Import String.
From stdpp Require Import gmap.
From S2P Require Import Prelude AssocSpec RbTree RbMap RbAssoc AssocIter AssocFree BiMap BiMapFind BiMapRb RicIds E2apMsg RegNodes AddrMaps MapRicId.
From S2P Require Import SubRegistry NearRic RicSpec NearRicInv NearRicPub NearRicSetup NearRicRb IApp IAppSpec IAppInv IAppProps System SystemRb.
From S2P Require Import Agent AgentInv AgentStep AgentProps NodeSpec AgentNode Chain.
#[local] Set Warnings "-clear-no-such-hyp".
#[local] Open Scope Z_scope.

(** The RAN counts its indications; the event trigger is the period. *)
Definition mac_sm : sm_agent_t Z () :=
  mk_sm_agent 142 1 [9]
    (λ d r, match subs_event_trigger d with
            | ms :: _ => Ret (PERIODIC_SUBSCRIPTION_FLRC ms (), r)
            | [] => Abort
            end)
    (λ _ r, Ret (Some (mk_sm_ind_data [0] [r] None), r + 1))
    (λ _ _ r, Ret ([], r))
    (λ r, Ret ([1], r)).
Definition ex_plugins : list (Z * sm_agent_t Z ()) := [(142, mac_sm)].
Definition ex_components (type : Z) : st Z (list e2ap_node_component_config_add_t) := λ r, Ret ([ex_cca], r).
Definition ex_encodes (sr : e2_setup_request_t) : bool := true.

Definition ex_ep : Z := 1.
Definition ex_pipe : Z := 2.

Lemma ex_timers_fresh open : 0 < next_fd open ∧ (next_fd open ∉ open) ∧ next_fd open ≠ ex_ep ∧ next_fd open ≠ ex_pipe.
Proof.
  destruct (next_fd_fresh open) as [Hp Hn]. assert (2 ≤ foldr Z.max 2 open) as H2 by (clear; induction open; cbn; lia).
  unfold ex_ep, ex_pipe. split_and!; [done|done|unfold next_fd; lia..].
Qed.

Abbreviation rb_agent := (e2_agent_t (RAN := Z) (P := ()) (TIL := assoc_rb_tree_t Z (ind_event_t Z ())) (TIR := assoc_rb_tree_t (ind_event_t Z ()) Z)
  (TPL := assoc_rb_tree_t Z pending_event_t) (TPR := assoc_rb_tree_t pending_event_t Z) (TS := list (Z * sm_agent_t Z ()))).
#[local] Notation "'on_ex' f" := (f next_fd ex_ep ex_pipe ex_components ex_encodes ex_plugins ex_timers_fresh) (at level 9, only parsing).

Definition state_of (m : outcome (() * rb_agent)) (default : rb_agent) : rb_agent :=
  match m with Ret (_, a) => a | _ => default end.
Abbreviation ex_start := (e2_start_agent next_fd ex_components ex_encodes).
Abbreviation ex_loop := (e2_event_loop_agent next_fd ex_ep ex_pipe ex_components ex_encodes).

Definition ex_ag0 : rb_agent := e2_init_agent "10.0.0.1"%string ["10.0.0.1"%string] ex_node (bi_map_init true) ex_plugins 0.
Definition ex_ag1 : rb_agent := state_of (ex_start ex_ag0) ex_ag0.
Definition ex_resp : e2_setup_response_t := mk_e2_setup_response 0 (mk_plmn 505 1 2) 25 [142] [] [].
Definition ex_ag2 : rb_agent := state_of (ex_loop ex_ep (SCTP_MSG_PAYLOAD (E2_SETUP_RESPONSE ex_resp)) ex_ag1) ex_ag1.
Definition ex_period : ric_subscription_request_t :=
  mk_ric_subscription_request (mk_ric_gen_id 1021 0 142) [10] [mk_ric_action 0 0 None].
Definition ex_ag3 : rb_agent := state_of (ex_loop ex_ep (SCTP_MSG_PAYLOAD (RIC_SUBSCRIPTION_REQUEST ex_period)) ex_ag2) ex_ag2.

Lemma Ret_state {S A} (x y : A) (a b : S) : Ret (x, a) = Ret (y, b) → a = b.
Proof. congruence. Qed.

Lemma ex_plugins_rep : a_rep ex_plugins ex_plugins.
Proof. split; [done|]. apply Sorted.SSorted_cons; [apply Sorted.SSorted_nil|apply Forall_nil_2]. Qed.

Lemma ex_ag0_owned : owned ex_ep ex_pipe ex_plugins ex_ag0 [] None ∧ knows_ric ex_ag0.
Proof.
  apply (on_ex init_good); [left|apply (bi_map_init_rep _ _)|exact ex_plugins_rep].
Qed.

Lemma ex_started : ex_start ex_ag0 = Ret ((), ex_ag1).
Proof. vm_compute. reflexivity. Qed.

#[local] Opaque ex_ag0 ex_ag1 ex_ag2.

Lemma ex_ag1_owned : owned ex_ep ex_pipe ex_plugins ex_ag1 [] (Some 3).
Proof.
  pose proof (on_ex start_ok ex_ag0 [] (proj1 ex_ag0_owned)) as H. rewrite ex_started in H.
  assert (open_timers ex_ag0 = []) as Ht by (vm_compute; reflexivity). rewrite Ht in H.
  destruct (setup_of _ _ _ _ _) as [[sr r]| | | |]; try discriminate H.
  destruct H as (a' & Ha & Ho & _). apply Ret_state in Ha. rewrite <-Ha in Ho. unfold ex_encodes in Ho.
  change (Some (next_fd [])) with (Some 3) in Ho. exact Ho.
Qed.

Lemma ex_set_up : ex_loop ex_ep (SCTP_MSG_PAYLOAD (E2_SETUP_RESPONSE ex_resp)) ex_ag1 = Ret ((), ex_ag2).
Proof. vm_compute. reflexivity. Qed.

Lemma ex_ag2_owned : owned ex_ep ex_pipe ex_plugins ex_ag2 [] None.
Proof.
  destruct (on_ex setup_response_ok ex_ag1 [] 3 ex_ag1_owned) as (a' & H & Ho & _).
  assert ((trans_id_setup_req ex_ag1 >? 0) = true) as Ht by (vm_compute; reflexivity). rewrite Ht in H.
  assert (left_loop ex_ag1 = false) as Hl by (vm_compute; reflexivity).
  assert (0 < ex_ep) as Hep by done. pose proof (on_ex loop_msg ex_ag1 (E2_SETUP_RESPONSE ex_resp) NONE_E2_MSG_TYPE a' Hl Hep H) as H2.
  rewrite ex_set_up in H2. apply Ret_state in H2. by rewrite H2.
Qed.


Lemma ex_willing t r : ∃ sr r', setup_of ex_components ex_plugins (global_e2_node_id ex_ag0) t r = Ret (sr, r') ∧ ex_encodes sr = true.
Proof. eexists _, _. split; reflexivity. Qed.

(** Three time-outs before the answer. *)
Lemma setup_retried_witness :
  ∃ a' srs, (ex_start;; timeouts next_fd ex_ep ex_pipe ex_components ex_encodes 3;; ex_loop ex_ep (SCTP_MSG_PAYLOAD (E2_SETUP_RESPONSE ex_resp))) ex_ag0
      = Ret ((), a') ∧
    owned ex_ep ex_pipe ex_plugins a' [] None ∧ trans_id_setup_req a' = 0 ∧
    ag_sent a' = E2_SETUP_REQUEST <$> reverse srs ∧ stp_trans_id <$> srs = wrap 8 <$> seqZ 0 (Z.of_nat 3 + 1).
Proof. apply (on_ex setup_retried ex_ag0 ex_willing (proj2 ex_ag0_owned) eq_refl 3 ex_resp (proj1 ex_ag0_owned)); done. Defined.

Lemma shutdown_orphans_timer_witness :
  ∃ a', ex_loop ex_ep SCTP_MSG_NOTIFICATION ex_ag1 = Ret ((), a') ∧ 3 ∈ open_timers a' ∧ ex_loop 3 SCTP_MSG_NOTIFICATION a' = Abort.
Proof. apply (on_ex shutdown_orphans_timer ex_ag1 [] 3 SCTP_MSG_NOTIFICATION ex_ag1_owned); [vm_compute; reflexivity|done]. Defined.

Lemma subscription_lifecycle_witness :
  ∃ a' S', (ex_loop ex_ep (SCTP_MSG_PAYLOAD (RIC_SUBSCRIPTION_REQUEST ex_period));; ex_loop (next_fd (open_timers ex_ag2)) SCTP_MSG_NOTIFICATION;;
      ex_loop ex_ep (SCTP_MSG_PAYLOAD (RIC_SUBSCRIPTION_DELETE_REQUEST (mk_ric_subscription_delete_request (mk_ric_gen_id 1021 0 142))))) ex_ag2
      = Ret ((), a') ∧
    ag_sent a' = RIC_SUBSCRIPTION_DELETE_RESPONSE (mk_ric_subscription_delete_response (mk_ric_gen_id 1021 0 142)) ::
      RIC_INDICATION (mk_ric_indication (mk_ric_gen_id 1021 0 142) 0 None 0 [0] [0] None) ::
      RIC_SUBSCRIPTION_RESPONSE (mk_ric_subscription_response (mk_ric_gen_id 1021 0 142) [0] []) :: ag_sent ex_ag2 ∧
    S' ≡ₚ [] ∧ owned ex_ep ex_pipe ex_plugins a' S' None ∧ open_timers a' ≡ₚ open_timers ex_ag2 ∧ ag_ran a' = 1.
Proof.
  apply (on_ex subscription_lifecycle ex_ag2 [] None ex_period (mk_ric_action 0 0 None) mac_sm 10 () (mk_sm_ind_data [0] [0] None)
    0 1 SCTP_MSG_NOTIFICATION ex_ag2_owned); try done; [vm_compute; reflexivity..|apply Forall_nil_2].
Defined.

(** ** The chain *)

#[local] Instance ex_node_if : E2Node rb_agent := agent_node next_fd ex_ep ex_pipe ex_components ex_encodes ex_plugins.
#[local] Instance ex_node_laws : E2NodeLaws rb_agent :=
  agent_node_laws (TS := list (Z * sm_agent_t Z ())) next_fd ex_ep ex_pipe ex_components ex_encodes ex_plugins ex_timers_fresh eq_refl.
#[local] Existing Instances rb_ric_if rb_ric_if_laws rb_ric_node rb_ric_node_laws.
#[local] Instance ex_ric_sent : RicSent rb_near_ric ex_N := near_ric_sent ex_N next_fd next_fd_fresh.

Definition ex_ag_setup : e2_setup_request_t :=
  mk_e2_setup_request 0 ex_node [mk_ran_function 142 1 [1] [9]] [ex_cca].


Lemma subscription_end_to_end_witness :
  let i := ex_after ex_connect in let req := RIC_SUBSCRIPTION_REQUEST ex_sub in let resp := RIC_SUBSCRIPTION_RESPONSE (sub_answer ex_xsub) in
  let i1 := ex_after ex_subscribe in
  ric_sent (ric_if i1) = (ex_addr, req) :: ric_sent (ric_if i) ∧
  ∃ n1 i2, node_recv req ex_ag2 = Ret ((), n1) ∧ node_sent n1 = resp :: node_sent ex_ag2 ∧
    node_msg_arrived ex_relock ex_alloc zero_entry ex_addr resp i1 = Ret ((), i2) ∧ sent_xapps i2 = (ex_xaddr, resp) :: sent_xapps i1.
Proof.
  apply (subscription_end_to_end ex_N ex_relock ex_alloc zero_entry ltac:(done) ltac:(done)
    (ex_after ex_connect) (ex_spec_after ex_connect) ex_ag2 ex_xaddr ex_addr ex_xsub ex_xaddr (ex_after ex_subscribe));
    [apply ex_sim; vm_compute; reflexivity|vm_compute; done..| | |vm_compute; reflexivity].
  - split; [exists []; exact ex_ag2_owned|vm_compute; reflexivity].
  - exists (mk_ric_action 0 0 None), mac_sm, 1, (), 0. split_and!; [vm_compute; reflexivity..| |]; vm_compute; done.
Defined.
