(* ===== verification/XappSpec.v ===== *)
(** * The xApp over lists

    What the xApp of [Xapp] promises: its containers are lists, every timer belongs to
    a pending event.  Two requests of one kind must not be outstanding at the same
    time: there the specification says nothing ([Stuck]). *)
From stdpp Require Import gmap.
From S2P Require Import Prelude Refine AssocReg AssocRegInv RicIds E2apMsg RegNodes NearRic Agent AgentInv Xapp.
#[local] Set Warnings "-clear-no-such-hyp".
#[local] Open Scope Z_scope.

Section spec.
Context {CB C D RAN P : Type} `{SO : StatsOps D}.
Context (timerfd_create : list Z → Z) (ep_fd : Z) (SMA : list (Z * sm_agent_t RAN P)) (SMR : list (Z * sm_ric_t C D)).

Abbreviation entries := (list (global_e2_node_id_t * pair_rf_cca_t)).
Abbreviation procs := (list (Z * act_proc_val_t CB)).
Abbreviation pends := (list (Z * pending_event_xapp_t)).

Record xspec := mk_xspec {
  sp_id : Z;
  sp_conn : bool;
  sp_nodes : entries;   (** the registered nodes *)
  sp_procs : procs;   (** active procedures, by request id *)
  sp_next : Z;   (** the next request id *)
  sp_pend : pends;   (** pending events by timer, latest first *)
  sp_ready : list Z;   (** expired timers *)
  sp_ran : RAN;
  sp_ack : bool;
  sp_retry : Z;
  sp_queue : list (msg_dispatch_t CB D);
  sp_called : list (CB * D);
  sp_db : list (global_e2_node_id_t * D);
  sp_sent : list e2ap_msg_t }.

Definition s_set_id (v : Z) (s : xspec) : xspec :=
  mk_xspec v (sp_conn s) (sp_nodes s) (sp_procs s) (sp_next s) (sp_pend s) (sp_ready s) (sp_ran s) (sp_ack s)
    (sp_retry s) (sp_queue s) (sp_called s) (sp_db s) (sp_sent s).
Definition s_set_conn (v : bool) (s : xspec) : xspec :=
  mk_xspec (sp_id s) v (sp_nodes s) (sp_procs s) (sp_next s) (sp_pend s) (sp_ready s) (sp_ran s) (sp_ack s)
    (sp_retry s) (sp_queue s) (sp_called s) (sp_db s) (sp_sent s).
Definition s_set_nodes (v : entries) (s : xspec) : xspec :=
  mk_xspec (sp_id s) (sp_conn s) v (sp_procs s) (sp_next s) (sp_pend s) (sp_ready s) (sp_ran s) (sp_ack s)
    (sp_retry s) (sp_queue s) (sp_called s) (sp_db s) (sp_sent s).
Definition s_set_procs (v : procs) (n : Z) (s : xspec) : xspec :=
  mk_xspec (sp_id s) (sp_conn s) (sp_nodes s) v n (sp_pend s) (sp_ready s) (sp_ran s) (sp_ack s) (sp_retry s)
    (sp_queue s) (sp_called s) (sp_db s) (sp_sent s).
Definition s_set_pend (v : pends) (r : list Z) (s : xspec) : xspec :=
  mk_xspec (sp_id s) (sp_conn s) (sp_nodes s) (sp_procs s) (sp_next s) v r (sp_ran s) (sp_ack s) (sp_retry s)
    (sp_queue s) (sp_called s) (sp_db s) (sp_sent s).
Definition s_set_ran (v : RAN) (s : xspec) : xspec :=
  mk_xspec (sp_id s) (sp_conn s) (sp_nodes s) (sp_procs s) (sp_next s) (sp_pend s) (sp_ready s) v (sp_ack s)
    (sp_retry s) (sp_queue s) (sp_called s) (sp_db s) (sp_sent s).
Definition s_set_ack (v : bool) (s : xspec) : xspec :=
  mk_xspec (sp_id s) (sp_conn s) (sp_nodes s) (sp_procs s) (sp_next s) (sp_pend s) (sp_ready s) (sp_ran s) v
    (sp_retry s) (sp_queue s) (sp_called s) (sp_db s) (sp_sent s).
Definition s_set_retry (v : Z) (s : xspec) : xspec :=
  mk_xspec (sp_id s) (sp_conn s) (sp_nodes s) (sp_procs s) (sp_next s) (sp_pend s) (sp_ready s) (sp_ran s)
    (sp_ack s) v (sp_queue s) (sp_called s) (sp_db s) (sp_sent s).
Definition s_set_queue (v : list (msg_dispatch_t CB D)) (s : xspec) : xspec :=
  mk_xspec (sp_id s) (sp_conn s) (sp_nodes s) (sp_procs s) (sp_next s) (sp_pend s) (sp_ready s) (sp_ran s)
    (sp_ack s) (sp_retry s) v (sp_called s) (sp_db s) (sp_sent s).
Definition s_add_called (c : CB * D) (s : xspec) : xspec :=
  mk_xspec (sp_id s) (sp_conn s) (sp_nodes s) (sp_procs s) (sp_next s) (sp_pend s) (sp_ready s) (sp_ran s)
    (sp_ack s) (sp_retry s) (sp_queue s) (c :: sp_called s) (sp_db s) (sp_sent s).
Definition s_add_db (r : global_e2_node_id_t * D) (s : xspec) : xspec :=
  mk_xspec (sp_id s) (sp_conn s) (sp_nodes s) (sp_procs s) (sp_next s) (sp_pend s) (sp_ready s) (sp_ran s)
    (sp_ack s) (sp_retry s) (sp_queue s) (sp_called s) (r :: sp_db s) (sp_sent s).
Definition s_send (m : e2ap_msg_t) (s : xspec) : xspec :=
  mk_xspec (sp_id s) (sp_conn s) (sp_nodes s) (sp_procs s) (sp_next s) (sp_pend s) (sp_ready s) (sp_ran s)
    (sp_ack s) (sp_retry s) (sp_queue s) (sp_called s) (sp_db s) (m :: sp_sent s).

Abbreviation SM := (st xspec).

Definition s_ran {A} (m : st RAN A) : SM A := λ s, '(a, r) ← m (sp_ran s); Ret (a, s_set_ran r s).

(** ** Procedures and pending events *)

Definition s_add_proc (v : act_proc_val_t CB) : SM Z := λ s,
  Ret (sp_next s, s_set_procs (sp_procs s ++ [(sp_next s, v)]) (sp_next s + 1) s).

Definition s_rm_proc (k : Z) : SM () := λ s,
  c_assert (0 <? k);; c_assert (bool_decide (k ∈ (sp_procs s).*1));;
  Ret ((), s_set_procs (filter (λ e, e.1 ≠ k) (sp_procs s)) (sp_next s) s).

Definition s_find_proc (k : Z) : SM (option (act_proc_val_t CB)) := λ s,
  c_assert (0 <? k);;
  match assoc_get k (sp_procs s) with
  | None => Ret (None, s)
  | Some v =>
      let v := mk_act_proc_val (pv_type v) (with_req_id (pv_id v) k) (sm_cb v) (pv_e2_node v) in
      Ret (Some v, s_set_procs (assoc_set k v (sp_procs s)) (sp_next s) s)
  end.

Definition pending (e : pending_event_t) (l : pends) : bool := bool_decide (e ∈ x_ev <$> l.*2).

Definition s_add_pending (ev : pending_event_xapp_t) : SM () := λ s,
  c_assert (wait_ms ev >? 0);;
  if pending (x_ev ev) (sp_pend s) then Stuck
  else Ret ((), s_set_pend ((timerfd_create (sp_pend s).*1, ev) :: sp_pend s) (sp_ready s) s).

(** The timer of the event goes with it. *)
Definition s_rm_pending (e : pending_event_t) : SM () := λ s,
  match list_find (λ p, x_ev p.2 = e) (sp_pend s) with
  | None => Abort
  | Some (_, p) => Ret ((), s_set_pend (filter (λ q, q.1 ≠ p.1) (sp_pend s)) (filter (λ t, t ≠ p.1) (sp_ready s)) s)
  end.

(** ** Service models *)

Definition s_plugin (rf : Z) : SM (sm_ric_t C D) :=
  st_assert (rf >? 0);;
  match assoc_get rf SMR with None => st_abort | Some sm => mret sm end.

Definition s_setup_request : SM (list ran_function_t) :=
  st_assert (0 <? length SMA)%nat;; st_assert (length SMA =? length SMR)%nat;; s_ran (run_setups SMA).

(** ** Requests *)

Definition s_start : SM () :=
  sr ← s_setup_request;
  st_mod (s_send (E42_SETUP_REQUEST sr));;
  s_add_pending (mk_pending_event_xapp E42_SETUP_REQUEST_PENDING_EVENT (mk_ric_gen_id 0 0 0) 1000).

Definition s_gen_id (type : act_proc_val_e) (rf : Z) (id : global_e2_node_id_t) (cb : option CB) : SM ric_gen_id_t :=
  st_assert (valid_ran_func_id rf);;
  k ← s_add_proc (mk_act_proc_val type (mk_ric_gen_id 0 0 rf) cb id);
  st_assert (k <? 2 ^ 16);;
  mret (mk_ric_gen_id k 0 rf).

Definition s_known (id : global_e2_node_id_t) : SM bool := s ← st_get; mret (existsb (λ e, eq_node id e.1) (sp_nodes s)).

Definition s_send_subscription (id : global_e2_node_id_t) (ric_id : ric_gen_id_t) (data : C) : SM () :=
  sm ← s_plugin (ran_func_id ric_id);
  sr ← st_lift (generate_subscription_request_xapp ric_id sm data);
  s ← st_get;
  s_add_pending (mk_pending_event_xapp E42_RIC_SUBSCRIPTION_REQUEST_PENDING_EVENT (sr_ric_id sr) 5000);;
  st_mod (s_send (E42_RIC_SUBSCRIPTION_REQUEST (mk_e42_ric_subscription_request (sp_id s) id sr))).

Definition s_report (wait : SM ()) (id : global_e2_node_id_t) (rf : Z) (data : C) (cb : CB) : SM Z :=
  ok ← s_known id;
  st_assert ok;; st_assert (valid_sm_id rf);;
  ric_id ← s_gen_id RIC_SUBSCRIPTION_PROCEDURE_ACTIVE rf id (Some cb);
  s_send_subscription id ric_id data;;
  wait;;
  mret (ric_req_id ric_id).

(** [between]: before the event is recorded. *)
Definition s_send_delete (between : SM ()) (ric_id : ric_gen_id_t) : SM () :=
  s ← st_get;
  st_mod (s_send (E42_RIC_SUBSCRIPTION_DELETE_REQUEST
    (mk_e42_ric_subscription_delete_request (sp_id s) (mk_ric_subscription_delete_request ric_id))));;
  between;;
  s_add_pending (mk_pending_event_xapp E42_RIC_SUBSCRIPTION_DELETE_REQUEST_PENDING_EVENT ric_id 10000).

Definition s_rm_report (between wait : SM ()) (h : Z) : SM () :=
  st_assert ((h >? -1) && (h <? 2 ^ 16));;
  v ← s_find_proc h;
  match v with
  | None => st_abort
  | Some v => s_send_delete between (pv_id v);; wait;; s_rm_proc h
  end.

Definition s_send_control (between : SM ()) (id : global_e2_node_id_t) (ric_id : ric_gen_id_t) (ctrl : C) : SM () :=
  sm ← s_plugin (ran_func_id ric_id);
  cr ← st_lift (generate_ric_control_request ric_id sm ctrl);
  s ← st_get;
  st_mod (s_send (E42_RIC_CONTROL_REQUEST (mk_e42_ric_control_request (sp_id s) id cr)));;
  between;;
  s_add_pending (mk_pending_event_xapp E42_RIC_CONTROL_REQUEST_PENDING_EVENT (cr_ric_id cr) 10000).

Definition s_control (between wait : SM ()) (id : global_e2_node_id_t) (rf : Z) (ctrl : C) : SM () :=
  st_assert (bool_decide (rf ∈ [142; 145; 146; 3]));;
  ric_id ← s_gen_id RIC_CONTROL_PROCEDURE_ACTIVE rf id None;
  s_send_control between id ric_id ctrl;;
  wait;;
  s_rm_proc (ric_req_id ric_id).

(** ** Messages, timers, callbacks *)

Definition s_answer (e : pending_event_t) (ric_id : ric_gen_id_t) : SM () :=
  v ← s_find_proc (wrap 16 (ric_req_id ric_id));
  match v with
  | None => st_abort
  | Some _ => s_rm_pending e;; st_mod (s_set_ack true)
  end.

Definition s_write_db (id : global_e2_node_id_t) (rd : D) : SM () :=
  d ← st_lift (cp_sm_ag_if_rd rd);
  st_mod (s_add_db (id, d)).

Definition s_indication (src : ric_indication_t) : SM () :=
  sm ← s_plugin (ran_func_id (ind_ric_id src));
  st_assert (match call_process_id src with Some [] => false | _ => true end);;
  d ← st_lift (on_indication sm src);
  st_assert (stats_type_xapp d.1);;
  v ← s_find_proc (wrap 16 (ric_req_id (ind_ric_id src)));
  match v with
  | None => st_lift (free_sm_ag_if_rd d.2)
  | Some v =>
      s_write_db (pv_e2_node v) d.2;;
      st_mod (λ s, s_set_queue (sp_queue s ++ [mk_msg_dispatch d.2 (sm_cb v)]) s)
  end.

Definition s_add_node (c : e2_node_connected_t) : SM () := λ s,
  if node_id_wf (enc_id c) then
    N ← nodes_add (enc_id c) (ack_rf c) (cca c) (sp_nodes s);
    Ret ((), s_set_nodes N s)
  else Stuck.

Fixpoint s_add_nodes (n : nat) (l : list e2_node_connected_t) : SM () :=
  match n, l with
  | O, _ => mret ()
  | S n, c :: l => s_add_node c;; s_add_nodes n l
  | S _, [] => st_undef
  end.

Definition s_setup_response (resp : e42_setup_response_t) : SM () :=
  s ← st_get;
  if sp_conn s then mret ()
  else
    st_mod (s_set_id (resp_xapp_id resp));;
    s_add_nodes (Z.to_nat (len_e2_nodes_conn resp)) (nodes resp);;
    s_rm_pending E42_SETUP_REQUEST_PENDING_EVENT;;
    st_mod (s_set_conn true).

Definition s_message (msg : e2ap_msg_t) : SM () :=
  match msg with
  | RIC_SUBSCRIPTION_RESPONSE m => s_answer E42_RIC_SUBSCRIPTION_REQUEST_PENDING_EVENT (resp_ric_id m)
  | RIC_SUBSCRIPTION_DELETE_RESPONSE m => s_answer E42_RIC_SUBSCRIPTION_DELETE_REQUEST_PENDING_EVENT (del_ric_id m)
  | RIC_CONTROL_ACKNOWLEDGE m => s_answer E42_RIC_CONTROL_REQUEST_PENDING_EVENT (ack_ric_id m)
  | RIC_INDICATION m => s_indication m
  | E42_SETUP_RESPONSE m => s_setup_response m
  | E42_RIC_CONTROL_REQUEST m =>
      st_mod (s_send (E42_RIC_CONTROL_REQUEST m));;
      s_add_pending (mk_pending_event_xapp E42_RIC_CONTROL_REQUEST_PENDING_EVENT (cr_ric_id (ctrl_req m)) 10000)
  | _ => st_abort
  end.

(** A subscription that is not answered: a setup request, three times. *)
Definition s_timeout (fd : Z) : SM () :=
  s ← st_get;
  match assoc_get fd (sp_pend s) with
  | None => st_abort
  | Some ev =>
      if bool_decide (x_ev ev = E42_RIC_SUBSCRIPTION_REQUEST_PENDING_EVENT) then
        if sp_retry s <? 3 then
          st_mod (s_set_retry (sp_retry s + 1));;
          sr ← s_setup_request;
          st_mod (s_send (E42_SETUP_REQUEST sr));;
          s ← st_get;
          st_assert (bool_decide (fd ∈ sp_ready s));;
          st_mod (s_set_pend (sp_pend s) (filter (λ t, t ≠ fd) (sp_ready s)))
        else st_mod (s_set_retry 0)
      else mret ()
  end.

Definition s_turn (fd : Z) (msg : e2ap_msg_t) : SM () :=
  if fd =? -1 then mret ()
  else
    st_assert (fd >? 0);;
    if fd =? ep_fd then s_message msg else s_timeout fd.

Definition s_expires (fd : Z) (s : xspec) : xspec :=
  if bool_decide (fd ∈ (sp_pend s).*1) && negb (bool_decide (fd ∈ sp_ready s)) then s_set_pend (sp_pend s) (fd :: sp_ready s) s
  else s.

Definition s_worker : SM () :=
  s ← st_get;
  match sp_queue s with
  | [] => mret ()
  | m :: q =>
      st_mod (s_set_queue q);;
      match md_cb m with Some cb => st_mod (s_add_called (cb, md_rd m));; st_lift (free_sm_ag_if_rd (md_rd m)) | None => st_undef end
  end.

(** ** Programs *)

(** What the event loop, the clock and the worker of the dispatcher do. *)
Inductive xapp_ev := Turn (fd : Z) (msg : e2ap_msg_t) | Expire (fd : Z) | Worker.

(** A call of the API, with what happens while it sends and while it waits. *)
Inductive xapp_op :=
| Start
| Report (wait : list xapp_ev) (id : global_e2_node_id_t) (rf : Z) (data : C) (cb : CB)
| RmReport (between wait : list xapp_ev) (h : Z)
| Control (between wait : list xapp_ev) (id : global_e2_node_id_t) (rf : Z) (ctrl : C)
| Idle (evs : list xapp_ev).

Definition s_event (e : xapp_ev) : SM () :=
  match e with Turn fd msg => s_turn fd msg | Expire fd => st_mod (s_expires fd) | Worker => s_worker end.
Definition s_events (l : list xapp_ev) : SM () := prog_run s_event l;; mret ().

Definition s_op (o : xapp_op) : SM (option Z) :=
  match o with
  | Start => s_start;; mret None
  | Report w id rf data cb => h ← s_report (s_events w) id rf data cb; mret (Some h)
  | RmReport b w h => s_rm_report (s_events b) (s_events w) h;; mret None
  | Control b w id rf ctrl => s_control (s_events b) (s_events w) id rf ctrl;; mret None
  | Idle l => s_events l;; mret None
  end.

Definition spec_init (ran : RAN) : xspec := mk_xspec 0 false [] [] 1 [] [] ran false 0 [] [] [] [].
End spec.
