(* ===== verification/XappInv.v ===== *)
(** * The xApp: its containers implement the lists

    Every handler, timeout and call of the API of [Xapp] refines its description over
    lists of [XappSpec]. *)
From stdpp Require Import gmap.
From S2P Require Import Prelude Refine AssocReg AssocRegInv AssocSpec AssocIter AssocFree BiMap BiMapFind RicIds E2apMsg RegNodes NearRic Agent AgentInv Xapp XappSpec.
#[local] Set Warnings "-clear-no-such-hyp".
#[local] Set Default Proof Using "All".
#[local] Open Scope Z_scope.

#[export] Instance cmp_pending_event_xapp_comparator : Comparator cmp_pending_event_xapp.
Proof. exact (comparator_proj cmp_pending_event x_ev _). Qed.

Lemma cmp_pending_event_xapp_eq p1 p2 : cmp_pending_event_xapp p1 p2 = 0 ↔ x_ev p1 = x_ev p2.
Proof.
  unfold cmp_pending_event_xapp, cmp_pending_event. split; [|intros ->; by destruct (x_ev p2)].
  by destruct (x_ev p1), (x_ev p2).
Qed.

Lemma assoc_get_find {V} (k : Z) (L : list (Z * V)) (f : Z → bool) : (∀ x, f x = (k =? x)) →
  snd ∘ snd <$> list_find (λ e, f e.1 = true) L = assoc_get k L.
Proof.
  intros Hf. unfold assoc_get. induction L as [|e L IH]; [done|]. cbn.
  destruct (decide (f e.1 = true)) as [H1|H1], (decide (e.1 = k)) as [H2|H2].
  - done.
  - rewrite Hf in H1. lia.
  - rewrite Hf in H1. lia.
  - destruct (list_find _ L) as [[]|], (list_find (λ e, e.1 = k) L) as [[]|]; cbn in IH |- *; congruence.
Qed.

Lemma assoc_get_In {V} (k : Z) (L : list (Z * V)) v : assoc_get k L = Some v → (k, v) ∈ L.
Proof.
  unfold assoc_get. destruct (list_find _ L) as [[i [k' v']]|] eqn:Hf; [|done]. intros [= ->].
  apply list_find_Some in Hf as (Hi & Hk & _). cbn in Hk. subst k'. by eapply list_elem_of_lookup_2.
Qed.

Section xapp.
Context {CB C D RAN P TPL TPR IPL IPR TN IN TA IA TS IS : Type} `{SO : StatsOps D}
  `{OPL : AssocOps Z pending_event_xapp_t TPL} `{OPR : AssocOps pending_event_xapp_t Z TPR}
  `{IOPL : !AssocIterOps Z pending_event_xapp_t TPL IPL} `{IOPR : !AssocIterOps pending_event_xapp_t Z TPR IPR}
  `{FPL : !AssocFreeOps Z pending_event_xapp_t TPL IPL} `{FPR : !AssocFreeOps pending_event_xapp_t Z TPR IPR}
  `{ON : AssocOps global_e2_node_id_t pair_rf_cca_t TN} `{ION : !AssocIterOps global_e2_node_id_t pair_rf_cca_t TN IN}
  `{FN : !AssocFreeOps global_e2_node_id_t pair_rf_cca_t TN IN}
  `{OA : AssocOps Z (sm_agent_t RAN P) TA} `{IOA : !AssocIterOps Z (sm_agent_t RAN P) TA IA}
  `{OS : AssocOps Z (sm_ric_t C D) TS} `{IOS : !AssocIterOps Z (sm_ric_t C D) TS IS}.
Context {LPL : AssocLaws (V := pending_event_xapp_t) (T := TPL) cmp_fd} {LPR : AssocLaws (V := Z) (T := TPR) cmp_pending_event_xapp}
  {ILPL : AssocIterLaws (V := pending_event_xapp_t) (I := IPL) cmp_fd} {ILPR : AssocIterLaws (V := Z) (I := IPR) cmp_pending_event_xapp}
  {FLPL : AssocFreeLaws (V := pending_event_xapp_t) (I := IPL) cmp_fd} {FLPR : AssocFreeLaws (V := Z) (I := IPR) cmp_pending_event_xapp}
  {LN : AssocLaws (V := pair_rf_cca_t) (T := TN) cmp_node} {ILN : AssocIterLaws (V := pair_rf_cca_t) (I := IN) cmp_node}
  {FLN : AssocFreeLaws (V := pair_rf_cca_t) (I := IN) cmp_node}
  {LA : AssocLaws (V := sm_agent_t RAN P) (T := TA) cmp_ran_func_id} {ILA : AssocIterLaws (V := sm_agent_t RAN P) (I := IA) cmp_ran_func_id}
  {LS : AssocLaws (V := sm_ric_t C D) (T := TS) cmp_ran_func_id} {ILS : AssocIterLaws (V := sm_ric_t C D) (I := IS) cmp_ran_func_id}.
Context (timerfd_create : list Z → Z) (ep_fd : Z) (zero : act_proc_val_t CB)
  (SMA : list (Z * sm_agent_t RAN P)) (SMR : list (Z * sm_ric_t C D)).
Context (timerfd_create_fresh : ∀ open, 0 < timerfd_create open ∧ (timerfd_create open ∉ open))
  (SMR_keys : Forall (λ e, sm_ran_func_id e.2 = e.1) SMR).

Abbreviation xapp := (e42_xapp_t CB D RAN TPL TPR TN TA TS).
Abbreviation spec := (xspec (CB := CB) (D := D) (RAN := RAN)).
Implicit Types (x : xapp) (s : spec).

Record xsim x s : Prop := mk_xsim {
  xs_nodes : reg_rep (xa_nodes x) (sp_nodes s);
  xs_wf : Forall (λ e, node_id_wf e.1 = true) (sp_nodes s);
  xs_procs : reg_wf (xa_act_proc x) (sp_procs s);
  xs_next : rg_key_id (xa_act_proc x) = sp_next s;
  xs_bound : sp_next s <= 2 ^ 16;
  xs_pend : bm_rep cmp_fd cmp_pending_event_xapp (xa_pending x) (sp_pend s);
  xs_timers : xa_timers x = (sp_pend s).*1;
  xs_pos : Forall (λ fd, 0 < fd) (sp_pend s).*1;
  xs_ag : a_rep (xa_plugin_ag x) SMA;
  xs_ric : a_rep (xa_plugin_ric x) SMR;
  xs_rest : xa_id x = sp_id s ∧ xa_connected x = sp_conn s ∧ xa_ready x = sp_ready s ∧ xa_ran x = sp_ran s ∧
    xa_msg_ack x = sp_ack s ∧ xa_retry_count x = sp_retry s ∧ xa_queue x = sp_queue s ∧
    xa_called x = sp_called s ∧ xa_db x = sp_db s ∧ xa_sent x = sp_sent s }.

(** Code that only changes fields the two states share. *)
Ltac xsim_mod H := destruct H as [? ? ? ? ? ? ? ? ? ? (? & ? & ? & ? & ? & ? & ? & ? & ? & ?)]; constructor; cbn;
  try done; split_and!; try done; congruence.

Lemma on_act_Ret {A} (m : st _ A) x a p : m (xa_act_proc x) = Ret (a, p) → on_act m x = Ret (a, set_act p x).
Proof using Type. intros H. unfold on_act. by rewrite H. Qed.

(** *** Active procedures *)

Lemma find_act_proc_ref k : refines xsim (on_act (find_act_proc k)) (s_find_proc k).
Proof.
  intros x s Hs. unfold s_find_proc, on_act, find_act_proc. pose proof (xs_procs _ _ Hs) as Hw.
  destruct (Z.ltb_spec 0 k) as [Hk|Hk]; cbn [c_assert mbind outcome_bind].
  - destruct (find_bucket (xa_act_proc x) (sp_procs s) k Hw Hk) as (f & it & -> & Hit & Hcase).
    rewrite outcome_bind_ret_l. cbv zeta. unfold assoc_reg_end. rewrite Hit, outcome_bind_ret_l.
    destruct (assoc_get k (sp_procs s)) as [v|].
    + destruct Hcase as (Hne & Hlt & -> & b & -> & Hwf). rewrite (proj2 (Nat.eqb_neq _ _) Hne), !outcome_bind_ret_l.
      unfold wr. rewrite (proj2 (Nat.ltb_lt it _)) by (by rewrite (rw_len _ _ Hw)). cbn [in_bounds mbind outcome_bind].
      eexists. split; [reflexivity|]. specialize (Hwf (mk_act_proc_val (pv_type v) (with_req_id (pv_id v) k) (sm_cb v) (pv_e2_node v))).
      xsim_mod Hs.
    + rewrite Hcase, Nat.eqb_refl. cbn [mbind outcome_bind]. eexists. split; [reflexivity|]. xsim_mod Hs.
  - destruct (front_ok (xa_act_proc x) (sp_procs s) Hw) as (f & -> & _). rewrite outcome_bind_ret_l. cbv zeta.
    unfold find_reg. by rewrite (proj2 (Z.ltb_ge 0 k)) by lia.
Qed.

Lemma rm_act_proc_ref k : refines xsim (on_act (rm_act_proc zero k)) (s_rm_proc k).
Proof.
  intros x s Hs. unfold s_rm_proc, on_act, rm_act_proc. pose proof (xs_procs _ _ Hs) as Hw.
  destruct (Z.ltb_spec 0 k) as [Hk|Hk]; cbn [c_assert mbind outcome_bind].
  - pose proof (remove_ok zero (xa_act_proc x) (sp_procs s) k Hw Hk) as Hr. case_bool_decide; cbn [c_assert mbind outcome_bind].
    + destruct Hr as (r & -> & Hr & Hkr). cbn [mbind outcome_bind]. eexists. split; [reflexivity|].
      destruct Hs as [? ? ? ? ? ? ? ? ? ? (? & ? & ? & ? & ? & ? & ? & ? & ? & ?)]; constructor; cbn; try done. congruence.
    + by rewrite Hr.
  - unfold reg_remove. destruct (front_ok (xa_act_proc x) (sp_procs s) Hw) as (f & -> & _). rewrite outcome_bind_ret_l. cbv zeta.
    unfold find_reg. by rewrite (proj2 (Z.ltb_ge 0 k)) by lia.
Qed.

Lemma gen_id_ref type rf id cb :
  refines xsim (generate_ric_gen_id zero type rf id cb) (s_gen_id type rf id cb).
Proof.
  intros x s Hs. unfold generate_ric_gen_id, s_gen_id, st_assert. destruct (valid_ran_func_id rf); [|done].
  rewrite !(st_bind_Ret _ _ _ _ _ eq_refl). cbv zeta.
  destruct (push_back_ok zero (xa_act_proc x) (sp_procs s) (mk_act_proc_val type (mk_ric_gen_id 0 0 rf) cb id) (xs_procs _ _ Hs))
    as (r & Hp & Hr & Hk); [rewrite (xs_next _ _ Hs); pose proof (xs_bound _ _ Hs); lia|].
  assert (add_act_proc zero type (mk_ric_gen_id 0 0 rf) id cb (xa_act_proc x) = Ret (rg_key_id (xa_act_proc x), r)) as Ha
    by (rewrite <-Hp; by destruct id).
  rewrite (st_bind_Ret _ _ x _ _ (on_act_Ret _ _ _ _ Ha)).
  rewrite (xs_next _ _ Hs) in *. destruct (Z.ltb_spec (sp_next s) (2 ^ 16)) as [Hlt|Hge]; [|done].
  rewrite !(st_bind_Ret _ _ _ _ _ eq_refl). eexists. split; [reflexivity|].
  destruct Hs as [? ? ? ? ? ? ? ? ? ? (? & ? & ? & ? & ? & ? & ? & ? & ? & ?)]; constructor; cbn; try done. lia.
Qed.

(** *** Pending events *)

Lemma pending_spec e (l : list (Z * pending_event_xapp_t)) : XappSpec.pending e l = false ↔ Forall (λ p, x_ev p.2 ≠ e) l.
Proof using Type.
  unfold XappSpec.pending. rewrite bool_decide_eq_false, Forall_forall. split.
  - intros H p Hp <-. apply H. by apply list_elem_of_fmap_2, list_elem_of_fmap_2.
  - intros H (ev & -> & (p & -> & Hp)%list_elem_of_fmap)%list_elem_of_fmap. by apply (H p Hp).
Qed.

Lemma pend_NoDup b (l : list (Z * pending_event_xapp_t)) : bm_rep cmp_fd cmp_pending_event_xapp b l → NoDup l.*1.
Proof using LPL. intros (L & R & _ & _ & HsL & _ & HPL & _). apply (strict_NoDup cmp_fd) in HsL. by rewrite <-HPL. Qed.

Lemma add_pending_ref ev : refines xsim (add_pending_event_xapp timerfd_create ev) (s_add_pending timerfd_create ev).
Proof.
  intros x s Hs. unfold add_pending_event_xapp, s_add_pending. unfold st_assert at 1.
  destruct (wait_ms ev >? 0) eqn:Hw; [|done]. cbn [c_assert mbind outcome_bind].
  destruct (XappSpec.pending (x_ev ev) (sp_pend s)) eqn:Hp; [done|]. rewrite pending_spec in Hp.
  destruct (timerfd_create_fresh (xa_timers x)) as [Hpos Hfr]. rewrite (xs_timers _ _ Hs) in Hpos, Hfr.
  set (fd := timerfd_create (sp_pend s).*1) in *.
  destruct (bm_insert_ok cmp_fd cmp_pending_event_xapp (xa_pending x) (sp_pend s) fd ev (xs_pend _ _ Hs)) as (b & Hb & Hrep).
  { apply (fresh_pair_spec cmp_fd cmp_pending_event_xapp). split; apply Forall_forall; intros p Hin Hc.
    - apply Hfr. apply cmp_up_eq in Hc as ->. by apply list_elem_of_fmap_2.
    - rewrite Forall_forall in Hp. apply (Hp p Hin). symmetry. by apply cmp_pending_event_xapp_eq. }
  rewrite (st_bind_Ret _ _ _ _ _ eq_refl). assert (create_timer_ms_asio_xapp timerfd_create (wait_ms ev) (wait_ms ev) x =
    Ret (fd, set_xtimers (fd :: xa_timers x) (xa_ready x) x)) as Hc.
  { unfold create_timer_ms_asio_xapp. unfold st_assert. rewrite Hw. rewrite !(st_bind_Ret _ _ _ _ _ eq_refl). cbv zeta.
    rewrite (xs_timers _ _ Hs). fold fd. rewrite (proj2 (Z.eqb_neq fd (-1))) by lia. by rewrite (proj2 (Z.gtb_lt fd 0)). }
  rewrite (st_bind_Ret _ _ _ _ _ Hc). unfold st_assert. rewrite (proj2 (Z.gtb_lt fd 0)) by done. rewrite (st_bind_Ret _ _ _ _ _ eq_refl).
  unfold on_xpend. cbn [xa_pending set_xtimers]. rewrite Hb. cbn [mbind outcome_bind]. eexists. split; [reflexivity|].
  destruct Hs as [? ? ? ? ? ? Ht ? ? ? (? & ? & ? & ? & ? & ? & ? & ? & ? & ?)]; constructor; cbn; try done.
  - by rewrite Ht.
  - by constructor.
Qed.

Lemma bi_map_size_ok b (l : list (Z * pending_event_xapp_t)) : bm_rep cmp_fd cmp_pending_event_xapp b l → bi_map_size b = Ret (length l, b).
Proof. intros Hb. destruct (bm_rep_sizes cmp_fd cmp_pending_event_xapp b l Hb) as (Hl & _ & He). unfold bi_map_size.
  rewrite (st_bind_Ret st_get _ _ _ _ eq_refl). rewrite He, Hl. done. Qed.

(** A list without the pair [p]. *)
Lemma perm_filter_fst (l l' : list (Z * pending_event_xapp_t)) p : NoDup l.*1 → l ≡ₚ p :: l' → l' ≡ₚ filter (λ q, q.1 ≠ p.1) l.
Proof using Type.
  intros Hnd Hl. rewrite Hl in Hnd. cbn in Hnd. apply NoDup_cons in Hnd as [Hp _]. rewrite Hl. rewrite filter_cons_False by (intros Hn; exact (Hn eq_refl)).
  rewrite filter_all; [done|]. apply Forall_forall. intros q Hq He. apply Hp. rewrite <-He. by apply list_elem_of_fmap_2.
Qed.

Lemma filter_fst_fmap (l : list (Z * pending_event_xapp_t)) k : (filter (λ q, q.1 ≠ k) l).*1 = filter (λ t, t ≠ k) l.*1.
Proof using Type.
  induction l as [|q l IH]; [done|]. cbn [fmap list_fmap]. destruct (decide (q.1 = k)) as [He|He].
  - rewrite !filter_cons_False by (intros Hn; exact (Hn He)). exact IH.
  - rewrite !filter_cons_True by done. cbn. by rewrite IH.
Qed.

Lemma rm_pending_ref e ric_id ms : refines xsim (rm_pending_event_xapp (mk_pending_event_xapp e ric_id ms)) (s_rm_pending e).
Proof.
  intros x s Hs. unfold rm_pending_event_xapp, s_rm_pending. pose proof (xs_pend _ _ Hs) as Hb. set (ev := mk_pending_event_xapp e ric_id ms).
  destruct (list_find (λ p, x_ev p.2 = e) (sp_pend s)) as [[i p]|] eqn:Hf.
  - apply list_find_Some in Hf as (Hi & He & _). assert (p ∈ sp_pend s) as Hin by (by eapply list_elem_of_lookup_2).
    destruct (bm_right_ok cmp_fd cmp_pending_event_xapp (xa_pending x) (sp_pend s) p ev Hb Hin) as (b & l' & Hx & Hl & Hb').
    { apply cmp_pending_event_xapp_eq. by rewrite He. }
    assert (p.1 ∈ (sp_pend s).*1) as Hfd by (by apply list_elem_of_fmap_2).
    assert (0 < p.1) as Hpos by (pose proof (xs_pos _ _ Hs) as HF; rewrite Forall_forall in HF; by apply HF).
    assert (rm_pending_event_ev ev (xa_pending x) = Ret (p.1, b)) as Hrm.
    { unfold rm_pending_event_ev. rewrite (st_bind_Ret _ _ _ _ _ (bi_map_size_ok _ _ Hb)), (st_bind_Ret _ _ _ _ _ Hx),
        (st_bind_Ret _ _ _ _ _ (bi_map_size_ok _ _ Hb')). unfold st_assert. rewrite (proj2 (Nat.eqb_eq _ _)) by (rewrite Hl; cbn; lia).
      rewrite (st_bind_Ret _ _ _ _ _ eq_refl), (proj2 (Z.gtb_lt _ _) Hpos). done. }
    rewrite (st_bind_Ret _ _ x p.1 (set_xpend b x)) by (unfold on_xpend; by rewrite Hrm).
    unfold rm_fd_asio_xapp. rewrite (st_bind_Ret st_get _ _ _ _ eq_refl). cbn [xa_timers xa_ready set_xpend].
    unfold st_assert. rewrite bool_decide_eq_true_2 by (by rewrite (xs_timers _ _ Hs)). rewrite (st_bind_Ret _ _ _ _ _ eq_refl).
    eexists. split; [reflexivity|]. pose proof (perm_filter_fst _ _ _ (pend_NoDup _ _ Hb) Hl) as Hperm.
    destruct Hs as [? ? ? ? ? ? Ht Hps ? ? (? & ? & Hrd & ? & ? & ? & ? & ? & ? & ?)]; constructor; cbn; try done.
    + by apply (bm_rep_perm cmp_fd cmp_pending_event_xapp b l').
    + by rewrite filter_fst_fmap, Ht.
    + rewrite filter_fst_fmap. apply Forall_forall. intros t [_ Hin']%list_elem_of_filter. rewrite Forall_forall in Hps. by apply Hps.
    + split_and!; try done. by rewrite Hrd.
  - apply list_find_None in Hf. unfold mbind, st_bind. unfold on_xpend.
    assert (rm_pending_event_ev ev (xa_pending x) = Abort) as ->; [|done].
    unfold rm_pending_event_ev. rewrite (st_bind_Ret _ _ _ _ _ (bi_map_size_ok _ _ Hb)). unfold mbind, st_bind.
    rewrite (bm_right_absent cmp_fd cmp_pending_event_xapp _ (sp_pend s) ev Hb); [done|].
    eapply Forall_impl; [exact Hf|]. intros p Hp. apply Z.eqb_neq. intros Hc%cmp_pending_event_xapp_eq. by apply Hp.
Qed.

(** *** Service models *)

Lemma on_ric_read {A} (m : st TS A) x a : m (xa_plugin_ric x) = Ret (a, xa_plugin_ric x) → on_ric m x = Ret (a, x).
Proof using Type. intros H. unfold on_ric. rewrite H. by destruct x. Qed.
Lemma on_ag_read {A} (m : st TA A) x a : m (xa_plugin_ag x) = Ret (a, xa_plugin_ag x) → on_ag m x = Ret (a, x).
Proof using Type. intros H. unfold on_ag. rewrite H. by destruct x. Qed.

Lemma plugin_ref rf : refines xsim (sm_plugin_ric_xapp rf) (s_plugin SMR rf).
Proof.
  intros x s Hs. unfold sm_plugin_ric_xapp, s_plugin, st_assert. destruct (rf >? 0); [|done]. rewrite !(st_bind_Ret _ _ _ _ _ eq_refl).
  pose proof (xs_ric _ _ Hs) as Hrep.
  destruct (find_in_tree_spec cmp_ran_func_id (eq_ran_func_id rf) (xa_plugin_ric x) SMR Hrep) as (r & Hf & Hr).
  rewrite (st_bind_Ret _ _ _ _ _ (on_ric_read _ _ _ Hf)). rewrite <-(assoc_get_find rf SMR (eq_ran_func_id rf)) by done.
  destruct r as [it|].
  - destruct Hr as (j & k & sm & Hit & Hj & Hk & HF). destruct (a_entry_ok _ SMR j it k sm Hrep Hit Hj) as [_ Hv].
    rewrite (st_bind_Ret _ _ _ _ _ (on_ric_read _ _ _ Hv)).
    assert (list_find (λ e : Z * sm_ric_t C D, eq_ran_func_id rf e.1 = true) SMR = Some (j, (k, sm))) as ->.
    { apply list_find_Some. split_and!; [done|done|]. intros i e He Hi Hfe. rewrite Forall_forall in HF.
      rewrite (HF e) in Hfe; [done|]. apply list_elem_of_lookup_2 with i. by rewrite lookup_take_lt. }
    cbn. assert (sm_ran_func_id sm = rf) as ->.
    { rewrite Forall_forall in SMR_keys. pose proof (SMR_keys (k, sm) (list_elem_of_lookup_2 _ _ _ Hj)) as He. cbn in He.
      rewrite He. unfold eq_ran_func_id in Hk. lia. }
    rewrite Z.eqb_refl. exists x. done.
  - assert (list_find (λ e : Z * sm_ric_t C D, eq_ran_func_id rf e.1 = true) SMR = None) as ->; [|done].
    apply list_find_None. eapply Forall_impl; [exact Hr|]. intros e He. by rewrite He.
Qed.

Lemma on_xran_bind {A B} (m : st RAN A) (f : A → st xapp B) x :
  (on_xran m ≫= f) x = ('(a, r) ← m (xa_ran x); f a (set_xran r x)).
Proof using Type. unfold mbind at 1, st_bind, on_xran. by destruct (m (xa_ran x)) as [[]| | | |]. Qed.

Lemma e42_ran_func_ok n i it e x : a_rep (xa_plugin_ag x) SMA → a_it_at (xa_plugin_ag x) SMA i it →
  a_it_at (xa_plugin_ag x) SMA (length SMA) e → (i + n = length SMA)%nat →
  e42_ran_func n it x = ('(rfs, r) ← run_setups (drop i SMA) (xa_ran x); Ret ((rfs, e), set_xran r x)).
Proof.
  revert i it x. induction n as [|n IH]; intros i it x HSM Hit He Hi; cbn [e42_ran_func].
  - rewrite drop_ge by lia. assert (it = e) as ->.
    { apply (a_it_fun (xa_plugin_ag x) SMA (length SMA)); [done| |done]. by replace (length SMA) with i by lia. }
    cbn. by destruct x.
  - assert (i < length SMA)%nat as Hlt by lia. destruct (lookup_lt_is_Some_2 SMA i Hlt) as [[k sm] Hk].
    destruct (a_entry_ok (xa_plugin_ag x) SMA i it k sm HSM Hit Hk) as [Hkey Hval].
    destruct (a_next_ok (xa_plugin_ag x) SMA i it HSM Hit Hlt) as (it' & Hn & Hit').
    rewrite (st_bind_Ret _ _ _ _ _ (on_ag_read _ _ _ Hval)), (st_bind_Ret _ _ _ _ _ (on_ag_read _ _ _ Hkey)).
    rewrite (drop_S SMA (k, sm) i Hk). cbn [run_setups]. unfold st_assert. destruct (ag_sm_id sm =? k); [|done].
    rewrite !(st_bind_Ret _ _ _ _ _ eq_refl), on_xran_bind, (st_bind_eq (ag_on_e2_setup sm)).
    destruct (ag_on_e2_setup sm (xa_ran x)) as [[def r]| | | |]; try done. cbn [mbind outcome_bind].
    rewrite (st_bind_Ret _ _ _ _ _ (on_ag_read _ (set_xran r x) _ Hn)), (st_bind_eq (e42_ran_func _ _)), (st_bind_eq (run_setups _)).
    rewrite (IH (S i) it' (set_xran r x)); [|done..|lia]. cbn [xa_ran set_xran].
    by destruct (run_setups (drop (S i) SMA) r) as [[rfs r']| | | |].
Qed.

Lemma setup_request_ref : refines xsim generate_e42_setup_request (s_setup_request SMA SMR).
Proof.
  intros x s Hs. unfold generate_e42_setup_request, s_setup_request. rewrite (st_bind_Ret st_get _ _ _ _ eq_refl). cbv zeta.
  pose proof (xs_ag _ _ Hs) as Hag. rewrite (a_rep_size _ _ Hag), (a_rep_size _ _ (xs_ric _ _ Hs)). unfold st_assert.
  destruct (0 <? length SMA)%nat; [|done]. rewrite !(st_bind_Ret _ _ _ _ _ eq_refl).
  destruct (length SMA =? length SMR)%nat; [|done]. rewrite !(st_bind_Ret _ _ _ _ _ eq_refl).
  destruct (a_front_ok _ SMA Hag) as (it & Hf & Hit). rewrite (st_bind_Ret _ _ _ _ _ (on_ag_read _ _ _ Hf)).
  destruct (a_end_ok _ SMA Hag) as (e & He & Hie).
  rewrite (st_bind_eq (e42_ran_func _ _)), (e42_ran_func_ok (length SMA) 0 it e x Hag Hit Hie eq_refl), drop_0.
  unfold s_ran. destruct Hs as [? ? ? ? ? ? ? ? ? ? (? & ? & ? & Hran & ? & ? & ? & ? & ? & ?)]. rewrite <-Hran.
  destruct (run_setups SMA (xa_ran x)) as [[rfs r]| | | |]; try done. cbn [mbind outcome_bind]. cbv beta iota.
  rewrite (st_bind_Ret _ _ _ _ _ (on_ag_read _ (set_xran r x) _ He)), bool_decide_eq_true_2 by done.
  rewrite (st_bind_Ret _ _ _ _ _ eq_refl). eexists. split; [reflexivity|]. constructor; cbn; try done.
Qed.

(** *** Requests *)

Lemma send_ref m : refines xsim (st_mod (xapp_send m)) (st_mod (s_send m)).
Proof. apply refines_mod. intros x s Hs. xsim_mod Hs. Qed.

Lemma run_setups_length (L : list (Z * sm_agent_t RAN P)) r rfs r' : run_setups L r = Ret (rfs, r') → length rfs = length L.
Proof using Type.
  revert r rfs. induction L as [|[k sm] L IH]; intros r rfs; cbn [run_setups]; [by intros [= <- _]|].
  intros (u & r1 & _ & H)%st_bind_inv. apply st_bind_inv in H as (def & r2 & _ & H).
  apply st_bind_inv in H as (l & r3 & Hl & H). injection H as <- <-. cbn. f_equal. by eapply IH.
Qed.

Lemma setup_request_length s sr s' : s_setup_request SMA SMR s = Ret (sr, s') → (0 <? length sr)%nat = true.
Proof using Type.
  intros (u & s2 & [Hb ->]%st_assert_inv & H)%st_bind_inv. apply st_bind_inv in H as (u2 & s3 & [_ ->]%st_assert_inv & H).
  apply bind_Ret_inv in H as ([l r] & Hl & H). injection H as <- _. by rewrite (run_setups_length _ _ _ _ Hl).
Qed.

Lemma start_ref : refines xsim (e2ap_handle_e42_setup_request_xapp timerfd_create) (s_start timerfd_create SMA SMR).
Proof.
  intros x s Hs. unfold e2ap_handle_e42_setup_request_xapp, s_start. apply sim_out_bind; [by apply setup_request_ref|].
  intros sr x1 s1 Hsr Hs1. rewrite (setup_request_length _ _ _ Hsr). rewrite (st_bind_Ret _ _ _ _ _ eq_refl).
  apply sim_out_bind; [by apply send_ref|]. intros [] x2 s2 _ Hs2. by apply add_pending_ref.
Qed.

(** Code that reads the id of the xApp. *)
Ltac get_id :=
  apply refines_get; let x := fresh "x" in let s := fresh "s" in let Hs := fresh "Hs" in
  intros x s Hs; rewrite (proj1 (xs_rest _ _ Hs)); generalize (sp_id s); intros ?; revert x s Hs;
  match goal with |- ∀ x s, xsim x s → sim_out _ (?m x) (?sm s) => change (refines xsim m sm) end.

Tactic Notation "bind_ref" uconstr(H) := apply refines_bind; [apply H|intros ?].

Lemma send_subscription_ref id ric_id data : refines xsim (send_subscription_request timerfd_create id ric_id data)
  (s_send_subscription timerfd_create SMR id ric_id data).
Proof.
  unfold send_subscription_request, s_send_subscription. bind_ref plugin_ref. bind_ref refines_lift.
  get_id. bind_ref add_pending_ref. rewrite (cp_node_id id). apply send_ref.
Qed.

Lemma send_delete_ref between sbetween ric_id : refines xsim between sbetween →
  refines xsim (send_ric_subscription_delete timerfd_create between ric_id) (s_send_delete timerfd_create sbetween ric_id).
Proof.
  intros Hb. unfold send_ric_subscription_delete, s_send_delete, e2ap_handle_e42_subscription_delete_request_xapp.
  get_id. bind_ref send_ref. bind_ref Hb. apply add_pending_ref.
Qed.

Lemma send_control_ref between sbetween id ric_id ctrl : refines xsim between sbetween →
  refines xsim (send_control_request timerfd_create between id ric_id ctrl)
    (s_send_control timerfd_create SMR sbetween id ric_id ctrl).
Proof.
  intros Hb. unfold send_control_request, s_send_control, e2ap_handle_e42_ric_control_request_xapp. bind_ref plugin_ref. bind_ref refines_lift.
  get_id. rewrite (cp_node_id id). bind_ref send_ref. bind_ref Hb. apply add_pending_ref.
Qed.

(** *** The API *)

Lemma valid_node_ref id : refines xsim (valid_global_e2_node (IN := IN) id) (s_known id).
Proof.
  intros x s Hs. unfold valid_global_e2_node. destruct (cp_reg_ok (xa_nodes x) (sp_nodes s) (xs_nodes _ _ Hs)) as (t & Ht & Hrep).
  rewrite (st_bind_Ret _ _ x t x) by (unfold on_nodes; rewrite Ht; by destruct x).
  destruct (find_eq_node t (sp_nodes s) id Hrep) as (r & Hf & Hr). rewrite st_bind_eq. unfold st_lift. rewrite Hf. cbn [mbind outcome_bind].
  exists x. split; [|done]. destruct r as [it|]; by destruct Hr as [-> _].
Qed.

Lemma report_ref wait swait id rf data cb : refines xsim wait swait →
  refines xsim (report_sm_xapp_api (IN := IN) timerfd_create zero wait id rf data cb)
    (s_report timerfd_create SMR swait id rf data cb).
Proof.
  intros Hw. unfold report_sm_xapp_api, report_sm_sync_xapp, s_report.
  bind_ref valid_node_ref. bind_ref refines_assert. bind_ref refines_assert. bind_ref gen_id_ref. bind_ref send_subscription_ref.
  bind_ref Hw. apply refines_ret.
Qed.

Lemma rm_report_ref between sbetween wait swait h : refines xsim between sbetween → refines xsim wait swait →
  refines xsim (rm_report_sm_xapp_api timerfd_create zero between wait h) (s_rm_report timerfd_create sbetween swait h).
Proof.
  intros Hb Hw. unfold rm_report_sm_xapp_api, rm_report_sm_sync_xapp, s_rm_report. intros x s Hs.
  destruct (h >? -1) eqn:Hh; [|done]. rewrite (st_bind_Ret _ _ x _ _ eq_refl). revert x s Hs. 
  apply refines_bind; [apply refines_assert|intros _]. bind_ref find_act_proc_ref. destruct a as [v|]; [|apply refines_abort].
  apply refines_bind; [by apply send_delete_ref|intros _]. bind_ref Hw. apply rm_act_proc_ref.
Qed.

Lemma control_ref between sbetween wait swait id rf ctrl : refines xsim between sbetween → refines xsim wait swait →
  refines xsim (control_sm_xapp_api timerfd_create zero between wait id rf ctrl)
    (s_control timerfd_create SMR sbetween swait id rf ctrl).
Proof.
  intros Hb Hw. unfold control_sm_xapp_api, control_sm_sync_xapp, s_control. bind_ref refines_assert.
  intros x s Hs. unfold st_assert. destruct (valid_ran_func_id rf) eqn:Hrf.
  2: { unfold s_gen_id. rewrite Hrf. done. }
  rewrite (st_bind_Ret _ _ x _ _ eq_refl). revert x s Hs. bind_ref gen_id_ref.
  apply refines_bind; [by apply send_control_ref|intros _]. bind_ref Hw. apply rm_act_proc_ref.
Qed.

(** *** Messages *)

(** The next step of both sides. *)
Tactic Notation "step_ref" uconstr(H) :=
  rewrite ?st_bind_assoc; apply sim_out_bind; [by apply H|]; intros ? ?x ?s _ ?Hs.

Tactic Notation "step_mod" :=
  rewrite ?st_bind_assoc; apply sim_out_bind;
  [apply refines_mod; [let t := fresh in let u := fresh in let H := fresh in intros t u H; xsim_mod H|eassumption]|]; intros ? ?x ?s _ ?Hs.

Lemma none_ref x s : xsim x s → sim_out xsim ((mret NONE_E2_MSG_TYPE : st xapp _) x) ((mret NONE_E2_MSG_TYPE : st spec _) s).
Proof using Type. apply refines_ret. Qed.

Lemma answer_ref e ric_id : refines xsim (answer_arrived e ric_id) (s_answer e ric_id;; mret NONE_E2_MSG_TYPE).
Proof.
  unfold answer_arrived, s_answer, signal_sync_ui. intros x s Hs. step_ref find_act_proc_ref. destruct a as [v|]; [|done].
  step_ref rm_pending_ref. step_mod. by apply none_ref.
Qed.

Lemma indication_ref src : refines xsim (e2ap_handle_indication_xapp src) (s_indication SMR src;; mret NONE_E2_MSG_TYPE).
Proof.
  unfold e2ap_handle_indication_xapp, ind_sm_payload, s_indication. intros x s Hs. step_ref plugin_ref. step_ref refines_assert.
  step_ref refines_lift. step_ref refines_assert. step_ref find_act_proc_ref. destruct a3 as [v|].
  - unfold write_db_xapp, s_write_db. rewrite !st_bind_assoc. step_ref refines_lift. step_mod. unfold send_msg_dispatcher. step_mod. by apply none_ref.
  - step_ref refines_lift. by apply none_ref.
Qed.

Lemma add_nodes_ref n l : refines xsim (add_nodes n l) (s_add_nodes n l).
Proof.
  revert l. induction n as [|n IH]; intros l; [destruct l; apply refines_ret|]. destruct l as [|c l]; [apply refines_undef|].
  cbn [add_nodes s_add_nodes]. apply refines_bind; [|intros _; apply IH]. intros x s Hs. unfold on_nodes, s_add_node.
  destruct (node_id_wf (enc_id c)) eqn:Hwf; [|done].
  pose proof (add_reg_ok (xa_nodes x) (sp_nodes s) (enc_id c) (ack_rf c) (cca c) (xs_nodes _ _ Hs) Hwf (xs_wf _ _ Hs)) as Ha.
  unfold nodes_add in *. destruct (_ && _); cbn [mbind outcome_bind]; [|by rewrite Ha].
  destruct Ha as (t & -> & Hrep). cbn [mbind outcome_bind]. eexists. split; [reflexivity|].
  destruct Hs as [? ? ? ? ? ? ? ? ? ? (? & ? & ? & ? & ? & ? & ? & ? & ? & ?)]; constructor; cbn; try done.
  rewrite ord_insert_perm. by constructor.
Qed.

Lemma setup_response_ref resp : refines xsim (e2ap_handle_e42_setup_response_xapp resp) (s_setup_response resp;; mret NONE_E2_MSG_TYPE).
Proof.
  unfold e2ap_handle_e42_setup_response_xapp, s_setup_response. intros x s Hs. rewrite st_bind_assoc, !(st_bind_Ret st_get _ _ _ _ eq_refl).
  destruct (xs_rest _ _ Hs) as (_ & -> & _). destruct (sp_conn s); [by apply none_ref|].
  step_mod.
  step_ref add_nodes_ref. step_ref rm_pending_ref. step_mod. by apply none_ref.
Qed.

Lemma message_ref msg : refines xsim (e2ap_msg_handle_xapp timerfd_create msg) (s_message timerfd_create SMR msg;; mret NONE_E2_MSG_TYPE).
Proof.
  destruct msg; cbn [e2ap_msg_handle_xapp s_message]; try (intros x s Hs; done); try apply answer_ref.
  - apply indication_ref.
  - apply setup_response_ref.
  - intros x s Hs. unfold e2ap_handle_e42_ric_control_request_xapp. step_ref send_ref. rewrite st_bind_assoc, (st_bind_Ret (mret () : st xapp ()) _ _ () _ eq_refl).
    step_ref add_pending_ref. by apply none_ref.
Qed.

(** *** Timers and events *)

Lemma pend_event_ok fd x s : xsim x s → pend_event_xapp fd x = match assoc_get fd (sp_pend s) with Some ev => Ret (ev, x) | None => Abort end.
Proof.
  intros Hs. unfold pend_event_xapp. pose proof (xs_pend _ _ Hs) as Hb.
  destruct (find_left_ok cmp_fd cmp_pending_event_xapp (xa_pending x) (sp_pend s) (eq_fd fd) Hb) as (r & Hf & Hr).
  rewrite (st_bind_Ret _ _ x r x) by (unfold on_xpend; rewrite Hf; by destruct x). destruct r as [ev|].
  - destruct Hr as (fd' & Hin & Heq). unfold eq_fd in Heq. assert (fd' = fd) as -> by lia.
    by rewrite (assoc_get_Some (sp_pend s) fd ev (pend_NoDup _ _ Hb) Hin).
  - rewrite assoc_get_None; [done|]. intros (p & -> & Hp)%list_elem_of_fmap. rewrite Forall_forall in Hr. specialize (Hr p Hp).
    unfold eq_fd in Hr. lia.
Qed.

Lemma timeout_ref fd : refines xsim (p_ev ← pend_event_xapp fd; timeout_xapp fd (x_ev p_ev)) (s_timeout SMA SMR fd).
Proof.
  intros x s Hs. unfold s_timeout. rewrite (st_bind_eq (pend_event_xapp fd)), (pend_event_ok _ _ _ Hs), (st_bind_Ret st_get _ _ _ _ eq_refl).
  destruct (assoc_get fd (sp_pend s)) as [ev|] eqn:Hev; [|done]. cbn [mbind outcome_bind]. unfold timeout_xapp.
  assert (0 < fd) as Hpos.
  { pose proof (xs_pos _ _ Hs) as HF. rewrite Forall_forall in HF. apply HF. apply assoc_get_In in Hev. by apply (list_elem_of_fmap_2' fst _ (fd, ev)). }
  case_bool_decide as He; [|destruct (x_ev ev); try done; by exists x]. rewrite He, (st_bind_Ret st_get _ _ _ _ eq_refl).
  destruct (xs_rest _ _ Hs) as (_ & _ & _ & _ & _ & Hret & _). rewrite Hret. destruct (sp_retry s <? 3).
  - step_mod.
    step_ref setup_request_ref. step_ref send_ref. unfold consume_fd, st_assert. rewrite (proj2 (Z.gtb_lt fd 0) Hpos), (st_bind_Ret _ _ _ _ _ eq_refl).
    rewrite !(st_bind_Ret st_get _ _ _ _ eq_refl). destruct (xs_rest _ _ Hs2) as (_ & _ & Hrd & _). rewrite Hrd.
    case_bool_decide; [|done]. rewrite !(st_bind_Ret _ _ _ _ _ eq_refl). eexists. split; [reflexivity|]. xsim_mod Hs2.
  - apply refines_mod; [|done]. intros y t Ht. xsim_mod Ht.
Qed.

Lemma turn_ref fd msg : refines xsim (e2_event_loop_xapp timerfd_create ep_fd fd msg) (s_turn timerfd_create ep_fd SMA SMR fd msg).
Proof.
  unfold e2_event_loop_xapp, s_turn. destruct (fd =? -1); [apply refines_ret|]. bind_ref refines_assert. destruct (fd =? ep_fd); [|apply timeout_ref].
  intros x s Hs. assert (s_message timerfd_create SMR msg s = (s_message timerfd_create SMR msg;; mret NONE_E2_MSG_TYPE;; mret ()) s) as ->.
  { rewrite st_bind_eq. by destruct (s_message timerfd_create SMR msg s) as [[[] ?]| | | |]. }
  rewrite <-st_bind_assoc. apply sim_out_bind; [by apply message_ref|]. intros m x1 s1 Hm Hs1.
  apply st_bind_inv in Hm as (u & s2 & _ & [= <- <-]). by exists x1.
Qed.

Lemma expires_ref fd : refines xsim (st_mod (timer_expires fd)) (st_mod (s_expires fd)).
Proof.
  apply refines_mod. intros x s Hs. unfold timer_expires, s_expires. destruct (xs_rest _ _ Hs) as (_ & _ & -> & _).
  rewrite (xs_timers _ _ Hs). destruct (_ && _); [|done].
  destruct Hs as [? ? ? ? ? ? Ht ? ? ? (? & ? & ? & ? & ? & ? & ? & ? & ? & ?)]; constructor; cbn; done.
Qed.

Lemma worker_ref : refines xsim worker_thread s_worker.
Proof.
  apply refines_get. intros x s Hs. destruct (xs_rest _ _ Hs) as (_ & _ & _ & _ & _ & _ & -> & _). destruct (sp_queue s) as [|m q]; [by exists x|].
  step_mod. destruct (md_cb m) as [cb|]; [|done]. step_mod. by apply refines_lift.
Qed.

(** *** Programs *)

Definition x_event (e : xapp_ev) : st xapp () :=
  match e with
  | Turn fd msg => e2_event_loop_xapp timerfd_create ep_fd fd msg
  | Expire fd => st_mod (timer_expires fd)
  | Worker => worker_thread
  end.
Definition x_events (l : list xapp_ev) : st xapp () := prog_run x_event l;; mret ().

Definition x_op (o : xapp_op (CB := CB) (C := C)) : st xapp (option Z) :=
  match o with
  | Start => e2ap_handle_e42_setup_request_xapp timerfd_create;; mret None
  | Report w id rf data cb =>
      h ← report_sm_xapp_api (IN := IN) timerfd_create zero (x_events w) id rf data cb; mret (Some h)
  | RmReport b w h => rm_report_sm_xapp_api timerfd_create zero (x_events b) (x_events w) h;; mret None
  | Control b w id rf ctrl => control_sm_xapp_api timerfd_create zero (x_events b) (x_events w) id rf ctrl;; mret None
  | Idle l => x_events l;; mret None
  end.

Abbreviation spec_op := (s_op timerfd_create ep_fd SMA SMR).

Lemma events_ref l : refines xsim (x_events l) (s_events timerfd_create ep_fd SMA SMR l).
Proof.
  unfold x_events, s_events. apply refines_bind; [|intros _; apply refines_ret]. apply prog_run_refines. intros [fd msg|fd|] _; cbn.
  - apply turn_ref.
  - apply expires_ref.
  - apply worker_ref.
Qed.

Lemma op_ref o : refines xsim (x_op o) (spec_op o).
Proof.
  destruct o as [|w id rf data cb|b w h|b w id rf ctrl|l]; cbn [x_op s_op]; apply refines_bind; try (intros; apply refines_ret).
  - apply start_ref.
  - apply report_ref, events_ref.
  - apply rm_report_ref; apply events_ref.
  - apply control_ref; apply events_ref.
  - apply events_ref.
Qed.

Lemma prog_ref os : refines xsim (prog_run x_op os) (prog_run spec_op os).
Proof. apply prog_run_refines. intros o _. apply op_ref. Qed.

Lemma init_sim ag ric ran : a_rep ag SMA → a_rep ric SMR → xsim (init_e42_xapp zero ag ric ran) (spec_init ran).
Proof.
  intros Hag Hric. constructor; cbn; try done.
  - split_and!; [apply a_init_ok|apply SSorted_nil|by apply Forall_nil_2].
  - apply init_wf.
  - exists [], []. split_and!; try done; try apply a_init_ok; apply SSorted_nil.
Qed.
End xapp.
