(* ===== verification/XappProps.v ===== *)
(** * The xApp: what its users get

    The life of a subscription, and what happens to answers that are late or do not
    come. *)
From stdpp Require Import gmap.
From S2P Require Import Prelude Refine AssocReg AssocRegInv AssocSpec AssocIter AssocFree BiMap RicIds E2apMsg RegNodes NearRic Agent AgentInv Xapp XappSpec XappInv.
#[local] Set Warnings "-clear-no-such-hyp".
#[local] Set Default Proof Using "All".
#[local] Open Scope Z_scope.

Section assoc.
Context {V : Type}.
Implicit Types (L : list (Z * V)).

Lemma assoc_get_last L k v : k ∉ L.*1 → assoc_get k (L ++ [(k, v)]) = Some v.
Proof.
  intros Hk. unfold assoc_get. rewrite list_find_app_r; [|by apply list_find_None, Forall_forall; intros e He <-; apply Hk, list_elem_of_fmap_2].
  cbn. by rewrite decide_True.
Qed.

Lemma assoc_set_last L k v v' : k ∉ L.*1 → assoc_set k v' (L ++ [(k, v)]) = L ++ [(k, v')].
Proof.
  intros Hk. unfold assoc_set. rewrite fmap_app. fold (assoc_set k v' L). rewrite assoc_set_absent by done. cbn. by rewrite Z.eqb_refl.
Qed.

Lemma filter_last L k v : k ∉ L.*1 → filter (λ e, e.1 ≠ k) (L ++ [(k, v)]) = L.
Proof.
  intros Hk. rewrite filter_app, filter_cons_False, filter_nil, app_nil_r by (intros Hn; exact (Hn eq_refl)).
  apply filter_all, Forall_forall. intros e He <-. by apply Hk, list_elem_of_fmap_2.
Qed.
End assoc.

(** ** Steps of the specification *)

(** The next request id is new. *)
Definition fresh_id {CB D RAN} (s : xspec (CB := CB) (D := D) (RAN := RAN)) : Prop :=
  (sp_next s ∉ (sp_procs s).*1) ∧ 1 <= sp_next s.

Section steps.
Context {CB C D RAN P : Type} `{SO : StatsOps D}.
Context (timerfd_create : list Z → Z) (ep_fd : Z) (SMA : list (Z * sm_agent_t RAN P)) (SMR : list (Z * sm_ric_t C D)).
Abbreviation spec := (xspec (CB := CB) (D := D) (RAN := RAN)).
Implicit Types (s : spec).

Lemma s_gen_id_ok type rf id cb s : valid_ran_func_id rf = true → sp_next s < 2 ^ 16 →
  s_gen_id type rf id cb s = Ret (mk_ric_gen_id (sp_next s) 0 rf,
    s_set_procs (sp_procs s ++ [(sp_next s, mk_act_proc_val type (mk_ric_gen_id 0 0 rf) cb id)]) (sp_next s + 1) s).
Proof using Type.
  intros Hrf Hn. unfold s_gen_id, st_assert. rewrite Hrf, (st_bind_Ret _ _ _ _ _ eq_refl). unfold s_add_proc at 1. rewrite (st_bind_Ret _ _ _ _ _ eq_refl).
  by rewrite (proj2 (Z.ltb_lt _ _) Hn).
Qed.

Lemma s_gen_id_exhausted type rf id cb s : valid_ran_func_id rf = true → 2 ^ 16 <= sp_next s → s_gen_id type rf id cb s = Abort.
Proof using Type.
  intros Hrf Hn. unfold s_gen_id, st_assert. rewrite Hrf, (st_bind_Ret _ _ _ _ _ eq_refl). unfold s_add_proc at 1. rewrite (st_bind_Ret _ _ _ _ _ eq_refl).
  by rewrite (proj2 (Z.ltb_ge _ _) Hn).
Qed.

Lemma s_plugin_ok rf sm s : (rf >? 0) = true → assoc_get rf SMR = Some sm → s_plugin SMR rf s = Ret (sm, s).
Proof using Type. intros H0 H. unfold s_plugin, st_assert. by rewrite H0, H. Qed.

Lemma s_add_pending_ok ev s : (wait_ms ev >? 0) = true → pending (x_ev ev) (sp_pend s) = false →
  s_add_pending timerfd_create ev s = Ret ((), s_set_pend ((timerfd_create (sp_pend s).*1, ev) :: sp_pend s) (sp_ready s) s).
Proof using Type. intros H0 H. unfold s_add_pending. by rewrite H0, H. Qed.

(** The last procedure, found. *)
Lemma s_find_last s L k v : 0 < k → sp_procs s = L ++ [(k, v)] → k ∉ L.*1 →
  let v' := mk_act_proc_val (pv_type v) (with_req_id (pv_id v) k) (sm_cb v) (pv_e2_node v) in
  s_find_proc k s = Ret (Some v', s_set_procs (L ++ [(k, v')]) (sp_next s) s).
Proof using Type.
  intros Hk HL Hn v'. unfold s_find_proc. rewrite (proj2 (Z.ltb_lt _ _) Hk), HL, assoc_get_last by done. cbn [c_assert mbind outcome_bind].
  by rewrite assoc_set_last.
Qed.

Lemma s_find_absent s k : 0 < k → k ∉ (sp_procs s).*1 → s_find_proc k s = Ret (None, s).
Proof using Type. intros Hk Hn. unfold s_find_proc. by rewrite (proj2 (Z.ltb_lt _ _) Hk), assoc_get_None. Qed.

Lemma s_rm_last s L k v : 0 < k → sp_procs s = L ++ [(k, v)] → k ∉ L.*1 →
  s_rm_proc k s = Ret ((), s_set_procs L (sp_next s) s).
Proof using Type.
  intros Hk HL Hn. unfold s_rm_proc. rewrite (proj2 (Z.ltb_lt _ _) Hk), HL, bool_decide_eq_true_2.
  - cbn [c_assert mbind outcome_bind]. by rewrite filter_last.
  - rewrite fmap_app. apply elem_of_app. right. left.
Qed.

(** The event that was recorded last, answered. *)
Lemma s_rm_last_pending s fd ev e l : sp_pend s = (fd, ev) :: l → x_ev ev = e → fd ∉ l.*1 →
  s_rm_pending e s = Ret ((), s_set_pend l (filter (λ t, t ≠ fd) (sp_ready s)) s).
Proof using Type.
  intros Hl <- Hfd. unfold s_rm_pending. rewrite Hl. cbn [list_find]. rewrite decide_True by done. cbn [fst snd].
  rewrite filter_cons_False, filter_all; [done| |intros Hn; exact (Hn eq_refl)].
  apply Forall_forall. intros p Hp <-. by apply Hfd, list_elem_of_fmap_2.
Qed.

(** A message, in a turn of the loop. *)
Lemma turn_message msg s : 0 < ep_fd → s_turn timerfd_create ep_fd SMA SMR ep_fd msg s = s_message timerfd_create SMR msg s.
Proof using Type.
  intros Hep. unfold s_turn, st_assert. rewrite (proj2 (Z.eqb_neq ep_fd (-1))), (proj2 (Z.gtb_lt ep_fd 0)), Z.eqb_refl by lia.
  by rewrite (st_bind_Ret _ _ _ _ _ eq_refl).
Qed.

Lemma s_events_nil s : s_events timerfd_create ep_fd SMA SMR [] s = Ret ((), s).
Proof using Type. done. Qed.

Lemma s_events_cons e l s : s_events timerfd_create ep_fd SMA SMR (e :: l) s =
  (s_event timerfd_create ep_fd SMA SMR e;; s_events timerfd_create ep_fd SMA SMR l) s.
Proof using Type.
  unfold s_events at 1. cbn [prog_run]. rewrite st_bind_assoc. apply st_bind_ext; [done|]. intros [] s1. unfold s_events.
  by rewrite !st_bind_assoc.
Qed.

(** ** The life of a subscription *)

Context (timerfd_create_fresh : ∀ open, 0 < timerfd_create open ∧ (timerfd_create open ∉ open)) (ep_fd_pos : 0 < ep_fd).

Definition sub_proc (h : Z) (rf : Z) (cb : CB) (id : global_e2_node_id_t) : act_proc_val_t CB :=
  mk_act_proc_val RIC_SUBSCRIPTION_PROCEDURE_ACTIVE (mk_ric_gen_id h 0 rf) (Some cb) id.

(** What the service model makes of the data of the user, if it takes them. *)
Definition sub_data (sm : sm_ric_t C D) (data : C) : bytes * option bytes :=
  match on_subscription sm data with Ret d => d | _ => ([], None) end.

(** A request the user may make: the node is registered, the plugin there and takes
    the data, an id left. *)
Record can_report s id rf (data : C) (sm : sm_ric_t C D) : Prop := mk_can_report {
  cr_known : existsb (λ e, eq_node id e.1) (sp_nodes s) = true;
  cr_rf : valid_sm_id rf = true ∧ valid_ran_func_id rf = true;
  cr_plugin : assoc_get rf SMR = Some sm;
  cr_data : on_subscription sm data = Ret (sub_data sm data);
  cr_len : (data_len (sub_data sm data).2 < 2048)%nat;
  cr_ids : sp_next s < 2 ^ 16;
  cr_none : pending E42_RIC_SUBSCRIPTION_REQUEST_PENDING_EVENT (sp_pend s) = false }.

Definition report_request s id rf (data : C) (sm : sm_ric_t C D) : e42_ric_subscription_request_t :=
  mk_e42_ric_subscription_request (sp_id s) id
    (mk_ric_subscription_request (mk_ric_gen_id (sp_next s) 0 rf) (sub_data sm data).1
       [mk_ric_action 0 RIC_ACT_REPORT (sub_data sm data).2]).

(** The state that waits for the answer. *)
Definition waiting s id rf data sm cb : spec :=
  let h := sp_next s in
  let ric_id := mk_ric_gen_id h 0 rf in
  s_send (E42_RIC_SUBSCRIPTION_REQUEST (report_request s id rf data sm))
    (s_set_pend ((timerfd_create (sp_pend s).*1, mk_pending_event_xapp E42_RIC_SUBSCRIPTION_REQUEST_PENDING_EVENT ric_id 5000) :: sp_pend s) (sp_ready s)
      (s_set_procs (sp_procs s ++ [(h, mk_act_proc_val RIC_SUBSCRIPTION_PROCEDURE_ACTIVE (mk_ric_gen_id 0 0 rf) (Some cb) id)]) (h + 1) s)).

(** The state after the answer. *)
Definition subscribed s id rf data sm cb : spec :=
  let h := sp_next s in
  mk_xspec (sp_id s) (sp_conn s) (sp_nodes s) (sp_procs s ++ [(h, sub_proc h rf cb id)]) (h + 1) (sp_pend s)
    (filter (λ t, t ≠ timerfd_create (sp_pend s).*1) (sp_ready s)) (sp_ran s) true (sp_retry s) (sp_queue s)
    (sp_called s) (sp_db s) (E42_RIC_SUBSCRIPTION_REQUEST (report_request s id rf data sm) :: sp_sent s).

Lemma valid_rf_pos rf : valid_ran_func_id rf = true → (rf >? 0) = true.
Proof using Type. unfold valid_ran_func_id. intros H%bool_decide_eq_true. rewrite !elem_of_cons in H. destruct H as [->|[->|[->|[->|[->|[->|[->|[->|H]]]]]]]]; try done. by apply elem_of_nil in H. Qed.

(** The call, up to what happens while it waits. *)
Lemma s_report_waits s id rf data sm cb wait : can_report s id rf data sm →
  s_report timerfd_create SMR wait id rf data cb s = (wait;; mret (sp_next s)) (waiting s id rf data sm cb).
Proof.
  intros [Hk [Hv Hrf] Hsm Hdata Hlen Hn Hp]. unfold s_report. unfold s_known. rewrite st_bind_assoc, (st_bind_Ret st_get _ _ _ _ eq_refl).
  rewrite (st_bind_Ret (mret _) _ s _ s eq_refl), Hk, !(st_bind_Ret _ _ _ _ _ eq_refl). unfold st_assert. rewrite Hv, (st_bind_Ret _ _ _ _ _ eq_refl).
  rewrite (st_bind_Ret _ _ _ _ _ (s_gen_id_ok _ rf id (Some cb) s Hrf Hn)). unfold s_send_subscription. rewrite st_bind_assoc.
  rewrite (st_bind_Ret _ _ _ _ _ (s_plugin_ok rf sm _ (valid_rf_pos _ Hrf) Hsm)), st_bind_assoc. unfold generate_subscription_request_xapp.
  rewrite Hdata, outcome_bind_ret_l, (proj2 (Nat.ltb_lt _ _) Hlen), (st_bind_Ret _ _ _ _ _ eq_refl), st_bind_assoc, (st_bind_Ret st_get _ _ _ _ eq_refl), st_bind_assoc.
  cbn [sr_ric_id]. set (s1 := s_set_procs _ _ s).
  rewrite (st_bind_Ret _ _ s1 _ _ (s_add_pending_ok (mk_pending_event_xapp E42_RIC_SUBSCRIPTION_REQUEST_PENDING_EVENT
    (mk_ric_gen_id (sp_next s) 0 rf) 5000) s1 eq_refl Hp)). reflexivity.
Qed.

(** An answer that carries the id of the last procedure. *)
Lemma s_answer_last e ric_id s L k v fd ev l : wrap 16 (ric_req_id ric_id) = k → 0 < k → sp_procs s = L ++ [(k, v)] → k ∉ L.*1 →
  sp_pend s = (fd, ev) :: l → x_ev ev = e → fd ∉ l.*1 →
  s_answer e ric_id s = Ret ((), s_set_ack true (s_set_pend l (filter (λ t, t ≠ fd) (sp_ready s))
    (s_set_procs (L ++ [(k, mk_act_proc_val (pv_type v) (with_req_id (pv_id v) k) (sm_cb v) (pv_e2_node v))]) (sp_next s) s))).
Proof using Type.
  intros Hk Hpos HL Hn Hpend He Hfd. unfold s_answer. rewrite Hk, (st_bind_Ret _ _ _ _ _ (s_find_last s L k v Hpos HL Hn)).
  set (s1 := s_set_procs _ _ s). by rewrite (st_bind_Ret _ _ s1 _ _ (s_rm_last_pending s1 fd ev e l Hpend He Hfd)).
Qed.

Lemma s_report_answered s id rf data sm cb resp : fresh_id s → can_report s id rf data sm → wrap 16 (ric_req_id (resp_ric_id resp)) = sp_next s →
  s_report timerfd_create SMR (s_events timerfd_create ep_fd SMA SMR [Turn ep_fd (RIC_SUBSCRIPTION_RESPONSE resp)]) id rf data cb s =
  Ret (sp_next s, subscribed s id rf data sm cb).
Proof.
  intros [Hn H1] Hr Hq. rewrite (s_report_waits s id rf data sm cb _ Hr). assert (0 < sp_next s) as Hpos by lia.
  rewrite st_bind_eq, s_events_cons. cbn [s_event]. rewrite st_bind_eq, (turn_message _ _ ep_fd_pos). cbn [s_message].
  rewrite (s_answer_last E42_RIC_SUBSCRIPTION_REQUEST_PENDING_EVENT (resp_ric_id resp) (waiting s id rf data sm cb) (sp_procs s) (sp_next s) _ _ _ (sp_pend s) Hq Hpos eq_refl Hn eq_refl eq_refl);
    [reflexivity|]. apply timerfd_create_fresh.
Qed.

(** An indication of the service model [sm], with data [d]. *)
Record indicates (sm : sm_ric_t C D) rf k d (ind : ric_indication_t) : Prop := mk_indicates {
  in_rf : ran_func_id (ind_ric_id ind) = rf ∧ (rf >? 0) = true;
  in_sm : assoc_get rf SMR = Some sm;
  in_cpid : call_process_id ind ≠ Some [];
  in_data : ∃ t, on_indication sm ind = Ret (t, d) ∧ stats_type_xapp t = true;
  in_req : wrap 16 (ric_req_id (ind_ric_id ind)) = k }.

Lemma s_indication_eq sm rf k d ind s : indicates sm rf k d ind →
  s_indication SMR ind s = (v ← s_find_proc k;
    match v with
    | None => st_lift (free_sm_ag_if_rd d)
    | Some v => s_write_db (pv_e2_node v) d;; st_mod (λ s, s_set_queue (sp_queue s ++ [mk_msg_dispatch d (sm_cb v)]) s)
    end) s.
Proof using Type.
  intros [[Hrf H0] Hsm Hc (t & Hd & Ht) Hq]. unfold s_indication. rewrite Hrf, (st_bind_Ret _ _ _ _ _ (s_plugin_ok rf sm s H0 Hsm)).
  assert (st_assert (match call_process_id ind with Some [] => false | _ => true end) s = Ret ((), s)) as Ha
    by (destruct (call_process_id ind) as [[|]|]; done).
  rewrite (st_bind_Ret _ _ _ _ _ Ha). unfold st_lift. rewrite (st_bind_Ret _ _ _ (t, d) s) by (by rewrite Hd). cbn [fst snd].
  unfold st_assert. by rewrite Ht, (st_bind_Ret _ _ _ _ _ eq_refl), Hq.
Qed.

Lemma s_worker_one s m cb : sp_queue s = [m] → md_cb m = Some cb → free_sm_ag_if_rd (md_rd m) = Ret () →
  s_worker s = Ret ((), s_add_called (cb, md_rd m) (s_set_queue [] s)).
Proof using Type.
  intros Hq Hcb Hf. unfold s_worker. rewrite (st_bind_Ret st_get _ _ _ _ eq_refl), Hq, (st_bind_Ret _ _ _ _ _ eq_refl), Hcb.
  rewrite (st_bind_Ret _ _ _ _ _ eq_refl). unfold st_lift. by rewrite Hf.
Qed.

Lemma s_write_db_ok id d row s : cp_sm_ag_if_rd d = Ret row → s_write_db id d s = Ret ((), s_add_db (id, row) s).
Proof using Type. intros Hc. unfold s_write_db, st_lift. by rewrite Hc. Qed.

(** *** Its removal *)

Lemma s_rm_report_answered s L k v resp : sp_procs s = L ++ [(k, v)] → k ∉ L.*1 → 0 < k < 2 ^ 16 →
  pending E42_RIC_SUBSCRIPTION_DELETE_REQUEST_PENDING_EVENT (sp_pend s) = false → wrap 16 (ric_req_id (del_ric_id resp)) = k →
  let ric_id := with_req_id (pv_id v) k in
  s_rm_report timerfd_create (s_events timerfd_create ep_fd SMA SMR [])
    (s_events timerfd_create ep_fd SMA SMR [Turn ep_fd (RIC_SUBSCRIPTION_DELETE_RESPONSE resp)]) k s =
  Ret ((), mk_xspec (sp_id s) (sp_conn s) (sp_nodes s) L (sp_next s) (sp_pend s)
    (filter (λ t, t ≠ timerfd_create (sp_pend s).*1) (sp_ready s)) (sp_ran s) true (sp_retry s) (sp_queue s) (sp_called s) (sp_db s)
    (E42_RIC_SUBSCRIPTION_DELETE_REQUEST (mk_e42_ric_subscription_delete_request (sp_id s) (mk_ric_subscription_delete_request ric_id)) :: sp_sent s)).
Proof.
  intros HL Hn Hk Hp Hq ric_id. unfold s_rm_report, st_assert. assert ((k >? -1) && (k <? 2 ^ 16) = true) as -> by lia.
  rewrite (st_bind_Ret _ _ _ _ _ eq_refl), (st_bind_Ret _ _ _ _ _ (s_find_last s L k v ltac:(lia) HL Hn)). cbn [pv_id]. fold ric_id.
  set (v' := mk_act_proc_val _ _ _ _). set (s1 := s_set_procs _ _ s). unfold s_send_delete. rewrite st_bind_assoc, (st_bind_Ret st_get _ _ _ _ eq_refl).
  rewrite st_bind_assoc, (st_bind_Ret _ _ _ _ _ eq_refl). set (s2 := s_send _ s1). rewrite st_bind_assoc, (st_bind_Ret _ _ _ _ _ (s_events_nil _)).
  rewrite (st_bind_Ret _ _ s2 _ _ (s_add_pending_ok (mk_pending_event_xapp E42_RIC_SUBSCRIPTION_DELETE_REQUEST_PENDING_EVENT ric_id 10000) s2 eq_refl Hp)).
  set (s3 := s_set_pend _ _ s2). rewrite (st_bind_eq (s_events _ _ _ _ _)), s_events_cons. cbn [s_event]. rewrite st_bind_eq, (turn_message _ _ ep_fd_pos). cbn [s_message].
  rewrite (s_answer_last E42_RIC_SUBSCRIPTION_DELETE_REQUEST_PENDING_EVENT (del_ric_id resp) s3 L k v' _ _ (sp_pend s) Hq ltac:(lia) eq_refl Hn eq_refl eq_refl);
    [|apply timerfd_create_fresh].
  cbn [mbind outcome_bind]. rewrite s_events_nil. cbn [mbind outcome_bind].
  by erewrite (s_rm_last _ L k); [reflexivity|lia|reflexivity|].
Qed.
End steps.

(** ** Control requests *)

Section control.
Context {CB C D RAN P : Type} `{SO : StatsOps D}.
Context (timerfd_create : list Z → Z) (ep_fd : Z) (SMA : list (Z * sm_agent_t RAN P)) (SMR : list (Z * sm_ric_t C D)).
Context (timerfd_create_fresh : ∀ open, 0 < timerfd_create open ∧ (timerfd_create open ∉ open)) (ep_fd_pos : 0 < ep_fd).
Abbreviation spec := (xspec (CB := CB) (D := D) (RAN := RAN)).
Implicit Types (s : spec).

Definition ctrl_data (sm : sm_ric_t C D) (ctrl : C) : bytes * bytes :=
  match on_control_req sm ctrl with Ret d => d | _ => ([], []) end.

Record can_control s rf (ctrl : C) (sm : sm_ric_t C D) : Prop := mk_can_control {
  cc_rf : rf ∈ [142; 145; 146; 3];
  cc_plugin : assoc_get rf SMR = Some sm;
  cc_data : on_control_req sm ctrl = Ret (ctrl_data sm ctrl);
  cc_len : (length (ctrl_data sm ctrl).1 < 2049)%nat ∧ (length (ctrl_data sm ctrl).2 < 2049)%nat;
  cc_ids : sp_next s < 2 ^ 16;
  cc_none : pending E42_RIC_CONTROL_REQUEST_PENDING_EVENT (sp_pend s) = false }.

Definition control_request s id rf (ctrl : C) (sm : sm_ric_t C D) : e42_ric_control_request_t :=
  mk_e42_ric_control_request (sp_id s) id
    (mk_ric_control_request (mk_ric_gen_id (sp_next s) 0 rf) None (ctrl_data sm ctrl).1 (ctrl_data sm ctrl).2
      (Some RIC_CONTROL_REQUEST_ACK)).

Definition control_proc (h rf : Z) (id : global_e2_node_id_t) : act_proc_val_t CB :=
  mk_act_proc_val RIC_CONTROL_PROCEDURE_ACTIVE (mk_ric_gen_id h 0 rf) None id.

(** The request is sent, its event is not recorded yet. *)
Definition control_sent s id rf ctrl sm : spec :=
  s_send (E42_RIC_CONTROL_REQUEST (control_request s id rf ctrl sm))
    (s_set_procs (sp_procs s ++ [(sp_next s, control_proc 0 rf id)]) (sp_next s + 1) s).

Definition control_event s rf : pending_event_xapp_t :=
  mk_pending_event_xapp E42_RIC_CONTROL_REQUEST_PENDING_EVENT (mk_ric_gen_id (sp_next s) 0 rf) 10000.

(** What is left after the answer, or after nothing came. *)
Definition controlled s id rf ctrl sm (pend : list (Z * pending_event_xapp_t)) ready ack : spec :=
  mk_xspec (sp_id s) (sp_conn s) (sp_nodes s) (sp_procs s) (sp_next s + 1) pend ready (sp_ran s) ack (sp_retry s)
    (sp_queue s) (sp_called s) (sp_db s) (E42_RIC_CONTROL_REQUEST (control_request s id rf ctrl sm) :: sp_sent s).

Abbreviation events := (s_events timerfd_create ep_fd SMA SMR).

Lemma s_control_sends s id rf ctrl sm between wait : can_control s rf ctrl sm →
  s_control timerfd_create SMR between wait id rf ctrl s =
  (between;; s_add_pending timerfd_create (control_event s rf);; wait;; s_rm_proc (sp_next s)) (control_sent s id rf ctrl sm).
Proof.
  intros [Hrf Hsm Hdata [Hl1 Hl2] Hn _]. unfold s_control, st_assert. rewrite bool_decide_eq_true_2 by done. rewrite (st_bind_Ret _ _ _ _ _ eq_refl).
  assert (valid_ran_func_id rf = true ∧ (rf >? 0) = true) as [Hv H0].
  { rewrite !elem_of_cons in Hrf. destruct Hrf as [->|[->|[->|[->|H]]]]; try done. by apply elem_of_nil in H. }
  rewrite (st_bind_Ret _ _ _ _ _ (s_gen_id_ok _ rf id None s Hv Hn)). unfold s_send_control. rewrite st_bind_assoc.
  rewrite (st_bind_Ret _ _ _ _ _ (s_plugin_ok SMR rf sm _ H0 Hsm)), st_bind_assoc. unfold generate_ric_control_request.
  rewrite Hdata, outcome_bind_ret_l, (proj2 (Nat.ltb_lt _ _) Hl1), (proj2 (Nat.ltb_lt _ _) Hl2), (st_bind_Ret _ _ _ _ _ eq_refl), st_bind_assoc.
  rewrite (st_bind_Ret st_get _ _ _ _ eq_refl), st_bind_assoc, (st_bind_Ret _ _ _ _ _ eq_refl), st_bind_assoc. reflexivity.
Qed.

Lemma sent_procs s id rf ctrl sm : sp_procs (control_sent s id rf ctrl sm) = sp_procs s ++ [(sp_next s, control_proc 0 rf id)].
Proof using Type. done. Qed.

(** Nothing comes: the event stays. *)
Lemma s_control_unanswered s id rf ctrl sm : fresh_id s → can_control s rf ctrl sm →
  s_control timerfd_create SMR (events []) (events []) id rf ctrl s =
  Ret ((), controlled s id rf ctrl sm ((timerfd_create (sp_pend s).*1, control_event s rf) :: sp_pend s) (sp_ready s) (sp_ack s)).
Proof.
  intros [Hk H1] Hc. rewrite (s_control_sends s id rf ctrl sm _ _ Hc). destruct Hc as [_ _ _ _ Hn Hp].
  rewrite (st_bind_Ret _ _ _ _ _ (s_events_nil _ _ _ _ _)). set (s1 := control_sent s id rf ctrl sm).
  rewrite (st_bind_Ret _ _ s1 _ _ (s_add_pending_ok timerfd_create (control_event s rf) s1 eq_refl Hp)).
  rewrite (st_bind_Ret _ _ _ _ _ (s_events_nil _ _ _ _ _)).
  by erewrite (s_rm_last _ (sp_procs s) (sp_next s)); [reflexivity|lia|reflexivity|].
Qed.

(** The answer comes while the user waits. *)
Lemma s_control_answered s id rf ctrl sm ack : fresh_id s → can_control s rf ctrl sm → wrap 16 (ric_req_id (ack_ric_id ack)) = sp_next s →
  s_control timerfd_create SMR (events []) (events [Turn ep_fd (RIC_CONTROL_ACKNOWLEDGE ack)]) id rf ctrl s =
  Ret ((), controlled s id rf ctrl sm (sp_pend s) (filter (λ t, t ≠ timerfd_create (sp_pend s).*1) (sp_ready s)) true).
Proof.
  intros [Hk H1] Hc Hq. rewrite (s_control_sends s id rf ctrl sm _ _ Hc). destruct Hc as [_ _ _ _ Hn Hp].
  rewrite (st_bind_Ret _ _ _ _ _ (s_events_nil _ _ _ _ _)). set (s1 := control_sent s id rf ctrl sm).
  rewrite (st_bind_Ret _ _ s1 _ _ (s_add_pending_ok timerfd_create (control_event s rf) s1 eq_refl Hp)).
  set (s2 := s_set_pend _ _ s1). rewrite (st_bind_eq (events _)), s_events_cons. cbn [s_event].
  rewrite st_bind_eq, (turn_message _ _ _ _ _ _ ep_fd_pos). cbn [s_message].
  rewrite (s_answer_last E42_RIC_CONTROL_REQUEST_PENDING_EVENT (ack_ric_id ack) s2 (sp_procs s) (sp_next s) (control_proc 0 rf id) _ _ (sp_pend s)
    Hq ltac:(lia) eq_refl Hk eq_refl eq_refl); [|apply timerfd_create_fresh].
  cbn [mbind outcome_bind]. rewrite s_events_nil. cbn [mbind outcome_bind].
  by erewrite (s_rm_last _ (sp_procs s) (sp_next s)); [reflexivity|lia|reflexivity|].
Qed.

(** The answer comes before the event is recorded. *)
Lemma s_control_early s id rf ctrl sm ack evs wait : fresh_id s → can_control s rf ctrl sm → wrap 16 (ric_req_id (ack_ric_id ack)) = sp_next s →
  s_control timerfd_create SMR (events (Turn ep_fd (RIC_CONTROL_ACKNOWLEDGE ack) :: evs)) wait id rf ctrl s = Abort.
Proof.
  intros [Hk H1] Hc Hq. rewrite (s_control_sends s id rf ctrl sm _ _ Hc). destruct Hc as [_ _ _ _ Hn Hp].
  rewrite (st_bind_eq (events _)), s_events_cons, st_bind_eq. cbn [s_event]. rewrite (turn_message _ _ _ _ _ _ ep_fd_pos). cbn [s_message].
  unfold s_answer. rewrite Hq, (st_bind_Ret _ _ _ _ _ (s_find_last (control_sent s id rf ctrl sm) (sp_procs s) (sp_next s) (control_proc 0 rf id) ltac:(lia) eq_refl Hk)).
  set (s1 := s_set_procs _ _ _). rewrite st_bind_eq. assert (s_rm_pending E42_RIC_CONTROL_REQUEST_PENDING_EVENT s1 = Abort) as ->; [|done].
  unfold s_rm_pending. assert (list_find (λ p : Z * pending_event_xapp_t, x_ev p.2 = E42_RIC_CONTROL_REQUEST_PENDING_EVENT) (sp_pend s1) = None) as ->; [|done].
  apply list_find_None. by apply pending_spec in Hp.
Qed.

(** An answer to a procedure that is not there. *)
Lemma s_answer_unknown e ric_id s : 0 < wrap 16 (ric_req_id ric_id) → wrap 16 (ric_req_id ric_id) ∉ (sp_procs s).*1 → s_answer e ric_id s = Abort.
Proof using Type. intros H0 Hn. unfold s_answer. by rewrite (st_bind_Ret _ _ _ _ _ (s_find_absent s _ H0 Hn)). Qed.
End control.

(** ** The xApp *)

Section xapp.
Context {CB C D RAN P TPL TPR IPL IPR TN IN TA IA TS IS : Type} `{SO : StatsOps D}
  `{OPL : AssocOps Z pending_event_xapp_t TPL} `{OPR : AssocOps pending_event_xapp_t Z TPR}
  `{IOPL : !AssocIterOps Z pending_event_xapp_t TPL IPL} `{IOPR : !AssocIterOps pending_event_xapp_t Z TPR IPR}
  `{FPL : !AssocFreeOps Z pending_event_xapp_t TPL IPL} `{FPR : !AssocFreeOps pending_event_xapp_t Z TPR IPR}
  `{ON : AssocOps global_e2_node_id_t pair_rf_cca_t TN} `{ION : !AssocIterOps global_e2_node_id_t pair_rf_cca_t TN IN}
  `{FN : !AssocFreeOps global_e2_node_id_t pair_rf_cca_t TN IN}
  `{OA : AssocOps Z (sm_agent_t RAN P) TA} `{IOA : !AssocIterOps Z (sm_agent_t RAN P) TA IA}
  `{OS : AssocOps Z (sm_ric_t C D) TS} `{IOS : !AssocIterOps Z (sm_ric_t C D) TS IS}.
Context {LPL : AssocLaws (V := pending_event_xapp_t) (T := TPL) cmp_fd} {LPR : AssocLaws (V := Z) (T := TPR) cmp_pending_event_xapp}
  {ILPL : AssocIterLaws (V := pending_event_xapp_t) (I := IPL) cmp_fd} {ILPR : AssocIterLaws (V := Z) (I := IPR) cmp_pending_event_xapp}
  {FLPL : AssocFreeLaws (V := pending_event_xapp_t) (I := IPL) cmp_fd} {FLPR : AssocFreeLaws (V := Z) (I := IPR) cmp_pending_event_xapp}
  {LN : AssocLaws (V := pair_rf_cca_t) (T := TN) cmp_node} {ILN : AssocIterLaws (V := pair_rf_cca_t) (I := IN) cmp_node}
  {FLN : AssocFreeLaws (V := pair_rf_cca_t) (I := IN) cmp_node}
  {LA : AssocLaws (V := sm_agent_t RAN P) (T := TA) cmp_ran_func_id} {ILA : AssocIterLaws (V := sm_agent_t RAN P) (I := IA) cmp_ran_func_id}
  {LS : AssocLaws (V := sm_ric_t C D) (T := TS) cmp_ran_func_id} {ILS : AssocIterLaws (V := sm_ric_t C D) (I := IS) cmp_ran_func_id}.
Context (timerfd_create : list Z → Z) (ep_fd : Z) (zero : act_proc_val_t CB)
  (SMA : list (Z * sm_agent_t RAN P)) (SMR : list (Z * sm_ric_t C D)).
Context (timerfd_create_fresh : ∀ open, 0 < timerfd_create open ∧ (timerfd_create open ∉ open))
  (SMR_keys : Forall (λ e, sm_ran_func_id e.2 = e.1) SMR) (ep_fd_pos : 0 < ep_fd).

Abbreviation xapp := (e42_xapp_t CB D RAN TPL TPR TN TA TS).
Abbreviation spec := (xspec (CB := CB) (D := D) (RAN := RAN)).
Abbreviation sim := (xsim (LPL := LPL) (LPR := LPR) (LN := LN) (LA := LA) (LS := LS) SMA SMR).
Abbreviation run os := (prog_run (x_op (IN := IN) (IOPL := IOPL) (IOA := IOA) timerfd_create ep_fd zero) os).
Abbreviation spec_events := (s_events timerfd_create ep_fd SMA SMR).
Abbreviation spec_run os := (prog_run (s_op timerfd_create ep_fd SMA SMR) os).
Implicit Types (x : xapp) (s : spec).

(** The states the loaded xApp reaches are described by lists. *)
Lemma run_from os x s outs s' : sim x s → spec_run os s = Ret (outs, s') → ∃ x', run os x = Ret (outs, x') ∧ sim x' s'.
Proof.
  intros Hs Hr. pose proof (prog_ref timerfd_create ep_fd zero SMA SMR timerfd_create_fresh SMR_keys os x s Hs) as H.
  rewrite Hr in H. exact H.
Qed.

Lemma run_abort os x s : sim x s → spec_run os s = Abort → run os x = Abort.
Proof.
  intros Hs Hr. pose proof (prog_ref timerfd_create ep_fd zero SMA SMR timerfd_create_fresh SMR_keys os x s Hs) as H.
  rewrite Hr in H. exact H.
Qed.

(** C5. Programs over the xApp - calls of its API, messages, timers and callbacks in any
    order - from the state after the plugins are loaded: as long as no two requests of
    one kind are outstanding, they return what they return on the lists of nodes,
    active procedures and pending events, send the same messages, call the same
    callbacks and write the same rows; the armed timers are those of the pending
    events; and they abort exactly when the lists say so. *)
Theorem xapp_run_refines ag ric ran os : a_rep ag SMA → a_rep ric SMR →
  match spec_run os (spec_init ran) with
  | Ret (outs, s) => ∃ x, run os (init_e42_xapp zero ag ric ran) = Ret (outs, x) ∧ xa_sent x = sp_sent s ∧
      xa_called x = sp_called s ∧ xa_db x = sp_db s ∧ xa_timers x = (sp_pend s).*1
  | Abort => run os (init_e42_xapp zero ag ric ran) = Abort
  | Undef => run os (init_e42_xapp zero ag ric ran) = Undef
  | NoFuel => run os (init_e42_xapp zero ag ric ran) = NoFuel
  | Stuck => True
  end.
Proof.
  intros Hag Hric. pose proof (prog_ref timerfd_create ep_fd zero SMA SMR timerfd_create_fresh SMR_keys os _ _
    (init_sim timerfd_create ep_fd zero SMA SMR timerfd_create_fresh SMR_keys ag ric ran Hag Hric)) as H.
  destruct (spec_run os (spec_init ran)) as [[outs s]| | | |]; try exact H. destruct H as (x & Hx & Hs). exists x. split; [exact Hx|].
  destruct (xs_rest _ _ _ _ Hs) as (_ & _ & _ & _ & _ & _ & _ & Hc & Hd & Hsent). split_and!; try done. apply (xs_timers _ _ _ _ Hs).
Qed.

Lemma proc_ids x s : sim x s → fresh_id s.
Proof.
  intros Hs. pose proof (xs_procs _ _ _ _ Hs) as Hw. unfold fresh_id. rewrite <-(xs_next _ _ _ _ Hs). split; [|apply (rw_next _ _ Hw)].
  intros (e & He & Hin)%list_elem_of_fmap. rewrite <-(rw_live _ _ Hw) in Hin. destruct e as [k v]. cbn in He. subst k.
  apply live_elem in Hin as (i & b & Hi & _ & Hk & _). pose proof (rw_keys _ _ Hw) as HF. rewrite Forall_forall in HF.
  specialize (HF b (list_elem_of_lookup_2 _ _ _ Hi)). lia.
Qed.

(** C11. The life of a subscription: the call of [report_sm_xapp_api] returns the request
    id when the answer comes while it waits; an indication under that id runs the
    callback of the user with its data and a copy of it is written to the database under the node
    of the subscription; [rm_report_sm_xapp_api] ends it: a late indication is dropped,
    and no timer is left. *)
Theorem xapp_subscription_lifecycle x s id rf data sm cb resp d row ind dresp : sim x s → can_report SMR s id rf data sm →
  sp_queue s = [] → pending E42_RIC_SUBSCRIPTION_DELETE_REQUEST_PENDING_EVENT (sp_pend s) = false →
  let h := sp_next s in
  wrap 16 (ric_req_id (resp_ric_id resp)) = h → indicates SMR sm rf h d ind → wrap 16 (ric_req_id (del_ric_id dresp)) = h →
  cp_sm_ag_if_rd d = Ret row → free_sm_ag_if_rd d = Ret () →
  ∃ x', run [Report [Turn ep_fd (RIC_SUBSCRIPTION_RESPONSE resp)] id rf data cb;
             Idle [Turn ep_fd (RIC_INDICATION ind); Worker];
             RmReport [] [Turn ep_fd (RIC_SUBSCRIPTION_DELETE_RESPONSE dresp)] h;
             Idle [Turn ep_fd (RIC_INDICATION ind)]] x = Ret ([Some h; None; None; None], x') ∧
    xa_called x' = (cb, d) :: xa_called x ∧ xa_db x' = (id, row) :: xa_db x ∧ xa_timers x' = xa_timers x ∧
    xa_sent x' = E42_RIC_SUBSCRIPTION_DELETE_REQUEST (mk_e42_ric_subscription_delete_request (sp_id s)
                   (mk_ric_subscription_delete_request (mk_ric_gen_id h 0 rf))) ::
                 E42_RIC_SUBSCRIPTION_REQUEST (report_request s id rf data sm) :: xa_sent x.
Proof.
  intros Hs Hr Hq Hdel h Hresp Hind Hdresp Hcp Hfree. destruct (proc_ids x s Hs) as [Hn H1]. pose proof (cr_ids _ _ _ _ _ _ Hr) as Hlt. fold h in Hn, H1, Hlt.
  set (s1 := subscribed timerfd_create s id rf data sm cb). set (v := sub_proc h rf cb id).
  set (s2 := s_add_called (cb, d) (s_set_queue [] (s_set_queue [mk_msg_dispatch d (Some cb)]
    (s_add_db (id, row) (s_set_procs (sp_procs s ++ [(h, v)]) (h + 1) s1))))).
  assert (spec_events [Turn ep_fd (RIC_INDICATION ind); Worker] s1 = Ret ((), s2)) as H2.
  { rewrite s_events_cons, st_bind_eq. cbn [s_event]. rewrite (turn_message _ _ _ _ _ _ ep_fd_pos). cbn [s_message].
    rewrite (s_indication_eq SMR sm rf h d ind s1 Hind), (st_bind_Ret _ _ _ _ _ (s_find_last s1 (sp_procs s) h v ltac:(lia) eq_refl Hn)).
    set (s1' := s_set_procs _ _ s1). rewrite (st_bind_Ret _ _ s1' () (s_add_db (id, row) s1') (s_write_db_ok _ _ _ _ Hcp)).
    set (m := mk_msg_dispatch d (Some cb)). set (t := s_set_queue (sp_queue s ++ [m]) (s_add_db (id, row) s1')).
    change (('(_, u) ← Ret ((), t); spec_events [Worker] u) = Ret ((), s2)). rewrite outcome_bind_ret_l, s_events_cons. cbn [s_event].
    by rewrite (st_bind_Ret _ _ t _ _ (s_worker_one t m cb ltac:(cbn; by rewrite Hq) eq_refl Hfree)). }
  pose proof (s_rm_report_answered timerfd_create ep_fd SMA SMR timerfd_create_fresh ep_fd_pos s2 (sp_procs s) h v dresp eq_refl Hn
    ltac:(lia) Hdel Hdresp) as H3. cbv zeta in H3. set (s3 := mk_xspec _ _ _ _ _ _ _ _ _ _ _ _ _ _) in H3.
  assert (spec_events [Turn ep_fd (RIC_INDICATION ind)] s3 = Ret ((), s3)) as H4.
  { rewrite s_events_cons, st_bind_eq. cbn [s_event]. rewrite (turn_message _ _ _ _ _ _ ep_fd_pos). cbn [s_message].
    by rewrite (s_indication_eq SMR sm rf h d ind s3 Hind), (st_bind_Ret _ _ _ _ _ (s_find_absent s3 h ltac:(lia) Hn)); unfold st_lift; rewrite Hfree. }
  destruct (run_from [Report [Turn ep_fd (RIC_SUBSCRIPTION_RESPONSE resp)] id rf data cb; Idle [Turn ep_fd (RIC_INDICATION ind); Worker];
    RmReport [] [Turn ep_fd (RIC_SUBSCRIPTION_DELETE_RESPONSE dresp)] h; Idle [Turn ep_fd (RIC_INDICATION ind)]] x s
    [Some h; None; None; None] s3 Hs) as (x' & Hx' & Hs').
  { apply (prog_run_cons _ _ _ _ _ s1).
    { cbn [s_op]. by rewrite (st_bind_Ret _ _ _ _ _ (s_report_answered timerfd_create ep_fd SMA SMR timerfd_create_fresh ep_fd_pos
        s id rf data sm cb resp (conj Hn H1) Hr Hresp)). }
    apply (prog_run_cons _ _ _ _ _ s2); [cbn [s_op]; by rewrite (st_bind_Ret _ _ _ _ _ H2)|].
    apply (prog_run_cons _ _ _ _ _ s3); [cbn [s_op]; by rewrite (st_bind_Ret _ _ _ _ _ H3)|].
    apply (prog_run_cons _ _ _ _ _ s3); [cbn [s_op]; by rewrite (st_bind_Ret _ _ _ _ _ H4)|done]. }
  exists x'. split; [exact Hx'|]. destruct (xs_rest _ _ _ _ Hs) as (_ & _ & _ & _ & _ & _ & _ & -> & -> & ->).
  destruct (xs_rest _ _ _ _ Hs') as (_ & _ & _ & _ & _ & _ & _ & -> & -> & ->).
  by rewrite (xs_timers _ _ _ _ Hs), (xs_timers _ _ _ _ Hs').
Qed.

(** C19. The answer to a control request must come while the user waits: there the call
    returns and leaves nothing behind.  An answer that overtakes the recording of the
    pending event - the message is sent before - aborts the xApp, and so does one
    that comes after the wait, which returns after 5 seconds with success. *)
Theorem control_answer_window x s id rf ctrl sm ack : sim x s → can_control SMR s rf ctrl sm →
  wrap 16 (ric_req_id (ack_ric_id ack)) = sp_next s →
  let answer := Turn ep_fd (RIC_CONTROL_ACKNOWLEDGE ack) in
  (∃ x', run [Control [] [answer] id rf ctrl] x = Ret ([None], x') ∧ xa_timers x' = xa_timers x ∧
     xa_sent x' = E42_RIC_CONTROL_REQUEST (control_request s id rf ctrl sm) :: xa_sent x) ∧
  (∀ evs wait, run [Control (answer :: evs) wait id rf ctrl] x = Abort) ∧
  (∃ x', run [Control [] [] id rf ctrl] x = Ret ([None], x')) ∧ run [Control [] [] id rf ctrl; Idle [answer]] x = Abort.
Proof.
  intros Hs Hc Hq answer. pose proof (proc_ids x s Hs) as Hfr. destruct (xs_rest _ _ _ _ Hs) as (_ & _ & _ & _ & _ & _ & _ & _ & _ & Hsent).
  set (s0 := controlled s id rf ctrl sm ((timerfd_create (sp_pend s).*1, control_event s rf) :: sp_pend s) (sp_ready s) (sp_ack s)).
  assert (s_op timerfd_create ep_fd SMA SMR (Control [] [] id rf ctrl) s = Ret (None, s0)) as H0.
  { cbn [s_op]. by rewrite (st_bind_Ret _ _ _ _ _ (s_control_unanswered timerfd_create ep_fd SMA SMR timerfd_create_fresh ep_fd_pos s id rf ctrl sm Hfr Hc)). }
  split_and!.
  - set (s1 := controlled s id rf ctrl sm (sp_pend s) (filter (λ t, t ≠ timerfd_create (sp_pend s).*1) (sp_ready s)) true).
    destruct (run_from [Control [] [answer] id rf ctrl] x s [None] s1 Hs) as (x' & Hx' & Hs').
    { apply (prog_run_cons _ _ _ _ _ s1); [|done]. cbn [s_op].
      by rewrite (st_bind_Ret _ _ _ _ _ (s_control_answered timerfd_create ep_fd SMA SMR timerfd_create_fresh ep_fd_pos s id rf ctrl sm ack Hfr Hc Hq)). }
    exists x'. split; [exact Hx'|]. destruct (xs_rest _ _ _ _ Hs') as (_ & _ & _ & _ & _ & _ & _ & _ & _ & ->).
    by rewrite (xs_timers _ _ _ _ Hs), (xs_timers _ _ _ _ Hs'), Hsent.
  - intros evs wait. apply (run_abort _ x s Hs), prog_run_cons_abort. cbn [s_op]. rewrite st_bind_eq.
    by rewrite (s_control_early timerfd_create ep_fd SMA SMR timerfd_create_fresh ep_fd_pos s id rf ctrl sm ack evs _ Hfr Hc Hq).
  - destruct (run_from [Control [] [] id rf ctrl] x s [None] s0 Hs) as (x' & Hx' & _); [|by exists x'].
    by apply (prog_run_cons _ _ _ _ _ s0).
  - apply (run_abort _ x s Hs). apply (prog_run_cons_later _ _ _ _ _ _ H0), prog_run_cons_abort. cbn [s_op].
    rewrite st_bind_eq, s_events_cons, st_bind_eq. unfold answer. cbn [s_event]. rewrite (turn_message _ _ _ _ _ _ ep_fd_pos). cbn [s_message].
    rewrite s_answer_unknown; [done| |]; rewrite Hq; destruct Hfr as [Hn H1]; [lia|exact Hn].
Qed.

(** A setup request that is not answered stops the xApp: when its timer expires, the
    event loop neither sends it again nor reads the timer, which is reported for ever. *)
Theorem setup_never_repeated ag ric ran sr r msg n : a_rep ag SMA → a_rep ric SMR →
  (0 < length SMA)%nat → length SMA = length SMR → run_setups SMA ran = Ret (sr, r) →
  let fd := timerfd_create [] in fd ≠ ep_fd →
  ∃ x, run [Start; Idle [Expire fd]; Idle (replicate n (Turn fd msg))] (init_e42_xapp zero ag ric ran) = Ret ([None; None; None], x) ∧
    xa_sent x = [E42_SETUP_REQUEST sr] ∧ xa_connected x = false ∧ xa_ready x = [fd].
Proof.
  intros Hag Hric Hpos' Hlen Hr fd Hne. pose proof (init_sim timerfd_create ep_fd zero SMA SMR timerfd_create_fresh SMR_keys ag ric ran Hag Hric) as Hs.
  assert (s_op timerfd_create ep_fd SMA SMR Start (spec_init ran) = Ret (None, s_set_pend [(fd, mk_pending_event_xapp
    E42_SETUP_REQUEST_PENDING_EVENT (mk_ric_gen_id 0 0 0) 1000)] [] (s_send (E42_SETUP_REQUEST sr) (s_set_ran r (spec_init (CB := CB) (D := D) ran))))) as H1.
  { cbn [s_op]. unfold s_start, s_setup_request, s_ran, st_assert, st_lift, mbind, st_bind.
    rewrite (proj2 (Nat.ltb_lt _ _) Hpos'), (proj2 (Nat.eqb_eq _ _) Hlen). cbn. by rewrite Hr. }
  set (s1 := s_set_pend _ _ _) in H1. set (s2 := s_set_pend (sp_pend s1) [fd] s1).
  assert (spec_events [Expire fd] s1 = Ret ((), s2)) as H2.
  { rewrite s_events_cons. cbn [s_event]. assert (s_expires fd s1 = s2) as He; [|by rewrite (st_bind_Ret _ _ _ () s2) by (by rewrite <-He)].
    unfold s_expires. cbn [sp_pend sp_ready s1 s_set_pend fmap list_fmap fst]. rewrite bool_decide_eq_true_2 by left.
    by rewrite bool_decide_eq_false_2 by apply not_elem_of_nil. }
  assert (∀ n, spec_events (replicate n (Turn fd msg)) s2 = Ret ((), s2)) as H3.
  { clear n. induction n as [|n IH]; [done|]. cbn [replicate]. rewrite s_events_cons. cbn [s_event]. rewrite (st_bind_Ret _ _ _ () s2); [exact IH|].
    destruct (timerfd_create_fresh []) as [Hpos _]. fold fd in Hpos. unfold s_turn, st_assert. rewrite (proj2 (Z.eqb_neq fd (-1))) by lia.
    rewrite (proj2 (Z.gtb_lt fd 0)), (st_bind_Ret _ _ _ _ _ eq_refl), (proj2 (Z.eqb_neq _ _) Hne) by done.
    unfold s_timeout. rewrite (st_bind_Ret st_get _ _ _ _ eq_refl). cbn [sp_pend s2 s1 s_set_pend]. unfold assoc_get. cbn [list_find]. by rewrite decide_True. }
  destruct (run_from [Start; Idle [Expire fd]; Idle (replicate n (Turn fd msg))] _ _ [None; None; None] s2 Hs) as (x2 & Hx2 & Hs2).
  { apply (prog_run_cons _ _ _ _ _ s1 _ _ H1). apply (prog_run_cons _ _ _ _ _ s2); [cbn [s_op]; by rewrite (st_bind_Ret _ _ _ _ _ H2)|].
    apply (prog_run_cons _ _ _ _ _ s2); [cbn [s_op]; by rewrite (st_bind_Ret _ _ _ _ _ (H3 n))|done]. }
  exists x2. split; [exact Hx2|]. destruct (xs_rest _ _ _ _ Hs2) as (_ & -> & -> & _ & _ & _ & _ & _ & _ & ->). done.
Qed.
End xapp.

(** ** Request ids *)

Create HintDb keeps_id.

Section ids.
Context {CB C D RAN P TPL TPR IPL IPR TN IN TA IA TS IS : Type} `{SO : StatsOps D}
  `{OPL : AssocOps Z pending_event_xapp_t TPL} `{OPR : AssocOps pending_event_xapp_t Z TPR}
  `{IOPL : !AssocIterOps Z pending_event_xapp_t TPL IPL} `{IOPR : !AssocIterOps pending_event_xapp_t Z TPR IPR}
  `{FPL : !AssocFreeOps Z pending_event_xapp_t TPL IPL} `{FPR : !AssocFreeOps pending_event_xapp_t Z TPR IPR}
  `{ON : AssocOps global_e2_node_id_t pair_rf_cca_t TN} `{ION : !AssocIterOps global_e2_node_id_t pair_rf_cca_t TN IN}
  `{FN : !AssocFreeOps global_e2_node_id_t pair_rf_cca_t TN IN}
  `{OA : AssocOps Z (sm_agent_t RAN P) TA} `{IOA : !AssocIterOps Z (sm_agent_t RAN P) TA IA}
  `{OS : AssocOps Z (sm_ric_t C D) TS} `{IOS : !AssocIterOps Z (sm_ric_t C D) TS IS}.
Context (timerfd_create : list Z → Z) (ep_fd : Z) (zero : act_proc_val_t CB).
Abbreviation xapp := (e42_xapp_t CB D RAN TPL TPR TN TA TS).
Implicit Types (x : xapp).

(** The next id is [k]. *)
Definition next_id (k : Z) x : Prop := rg_key_id (xa_act_proc x) = k.

Lemma keeps_on_act {A} k (m : st _ A) : (∀ p a p', m p = Ret (a, p') → rg_key_id p' = rg_key_id p) → keeps (next_id k) (on_act m).
Proof. intros Hm x a x' Hk H. unfold on_act in H. apply bind_Ret_inv in H as ([r p] & Hp & [= _ <-]). unfold next_id. cbn. by rewrite (Hm _ _ _ Hp). Qed.

Lemma keeps_on_pend {A} k (m : st _ A) : keeps (next_id k) (on_xpend m).
Proof. intros x a x' Hk H. unfold on_xpend in H. by apply bind_Ret_inv in H as ([r p] & _ & [= _ <-]). Qed.
Lemma keeps_on_nodes {A} k (m : st TN A) : keeps (next_id k) (on_nodes m).
Proof. intros x a x' Hk H. unfold on_nodes in H. by apply bind_Ret_inv in H as ([r p] & _ & [= _ <-]). Qed.
Lemma keeps_on_ag {A} k (m : st TA A) : keeps (next_id k) (on_ag m).
Proof. intros x a x' Hk H. unfold on_ag in H. by apply bind_Ret_inv in H as ([r p] & _ & [= _ <-]). Qed.
Lemma keeps_on_ric {A} k (m : st TS A) : keeps (next_id k) (on_ric m).
Proof. intros x a x' Hk H. unfold on_ric in H. by apply bind_Ret_inv in H as ([r p] & _ & [= _ <-]). Qed.
Lemma keeps_on_xran {A} k (m : st RAN A) : keeps (next_id k) (on_xran m).
Proof. intros x a x' Hk H. unfold on_xran in H. by apply bind_Ret_inv in H as ([r p] & _ & [= _ <-]). Qed.
Lemma keeps_lift {A} k (m : outcome A) : keeps (next_id k) (st_lift m).
Proof. intros x a x' Hk H. unfold st_lift in H. by apply bind_Ret_inv in H as (r & _ & [= _ <-]). Qed.
Lemma keeps_undef {A} k : keeps (next_id k) (st_undef (A := A)).
Proof. by intros x a x' Hk H. Qed.

Lemma keeps_find k i : keeps (next_id k) (on_act (find_act_proc i)).
Proof.
  apply keeps_on_act. intros p a p' H. unfold find_act_proc in H. apply bind_Ret_inv in H as (f & _ & H). cbv zeta in H.
  apply bind_Ret_inv in H as (it & _ & H). destruct (_ =? _)%nat; [by injection H as _ <-|]. apply bind_Ret_inv in H as (v & _ & H).
  apply bind_Ret_inv in H as (b & _ & H). apply bind_Ret_inv in H as (arr & _ & H). by injection H as _ <-.
Qed.

Lemma keeps_rm k i : keeps (next_id k) (on_act (rm_act_proc zero i)).
Proof. apply keeps_on_act. intros p a p' H. unfold rm_act_proc in H. apply bind_Ret_inv in H as (r & Hr & [= _ <-]). by apply remove_key in Hr. Qed.
Hint Resolve keeps_on_pend keeps_on_nodes keeps_on_ag keeps_on_ric keeps_on_xran keeps_lift keeps_undef keeps_find keeps_rm : keeps_id.

Ltac keep := repeat
  match goal with
  | |- keeps _ (st_get ≫= _) => apply keeps_get; intros ?
  | |- keeps _ (_ ≫= _) => apply keeps_bind; [|intros ?]
  | |- keeps _ (mret _) => apply keeps_ret
  | |- keeps _ (st_assert _) => apply keeps_assert
  | |- keeps _ st_abort => apply keeps_abort
  | |- keeps _ (st_mod _) => apply keeps_mod; intros ? Hk; exact Hk
  | |- keeps _ (match ?b with _ => _ end) => destruct b
  | |- keeps _ (let _ := _ in _) => cbv zeta
  | |- _ => solve [auto 2 with keeps_id nocore]
  end.

Lemma keeps_add_pending k ev : keeps (next_id k) (add_pending_event_xapp timerfd_create ev).
Proof. unfold add_pending_event_xapp, create_timer_ms_asio_xapp. keep. Qed.
Lemma keeps_rm_pending k ev : keeps (next_id k) (rm_pending_event_xapp ev).
Proof. unfold rm_pending_event_xapp, rm_fd_asio_xapp. keep. Qed.
Lemma keeps_next_plugin k rf : keeps (next_id k) (sm_plugin_ric_xapp rf).
Proof. unfold sm_plugin_ric_xapp. keep. Qed.
Lemma keeps_ran_func k n it : keeps (next_id k) (e42_ran_func n it).
Proof. revert it. induction n as [|n IH]; intros it; cbn [e42_ran_func]; keep. Qed.
Hint Resolve keeps_add_pending keeps_rm_pending keeps_next_plugin keeps_ran_func : keeps_id.
Lemma keeps_setup_request k : keeps (next_id k) generate_e42_setup_request.
Proof. unfold generate_e42_setup_request. keep. Qed.
Lemma keeps_add_nodes k n l : keeps (next_id k) (add_nodes n l).
Proof. revert l. induction n as [|n IH]; intros [|c l]; cbn [add_nodes]; keep. Qed.
Hint Resolve keeps_setup_request keeps_add_nodes : keeps_id.

Lemma keeps_answer k e rid : keeps (next_id k) (answer_arrived e rid).
Proof. unfold answer_arrived, signal_sync_ui. keep. Qed.
Lemma keeps_message k msg : keeps (next_id k) (e2ap_msg_handle_xapp timerfd_create msg).
Proof.
  destruct msg; cbn [e2ap_msg_handle_xapp]; try apply keeps_abort; try apply keeps_answer.
  - unfold e2ap_handle_indication_xapp, ind_sm_payload, send_msg_dispatcher, write_db_xapp. keep.
  - unfold e2ap_handle_e42_setup_response_xapp. keep.
  - unfold e2ap_handle_e42_ric_control_request_xapp. keep.
Qed.
Lemma keeps_timeout k fd ev : keeps (next_id k) (timeout_xapp fd ev).
Proof. unfold timeout_xapp, consume_fd. keep. Qed.
Hint Resolve keeps_answer keeps_message keeps_timeout : keeps_id.

Abbreviation event := (x_event (IN := IN) (IOPL := IOPL) (IOA := IOA) timerfd_create ep_fd).
Abbreviation events l := (x_events (IN := IN) (IOPL := IOPL) (IOA := IOA) timerfd_create ep_fd l).

Lemma keeps_event k e : keeps (next_id k) (event e).
Proof.
  destruct e as [fd msg|fd|]; cbn [x_event].
  - unfold e2_event_loop_xapp, pend_event_xapp. keep.
  - apply keeps_mod. intros x Hk. unfold timer_expires. by destruct (_ && _).
  - unfold worker_thread. keep.
Qed.
Lemma keeps_prog {O R} k (step : O → st xapp R) os : (∀ o, keeps (next_id k) (step o)) → keeps (next_id k) (prog_run step os).
Proof. intros Hs. induction os as [|o os IH]; cbn [prog_run]; keep. Qed.
Lemma keeps_events k l : keeps (next_id k) (events l).
Proof. unfold x_events. keep. apply keeps_prog, keeps_event. Qed.
Hint Resolve keeps_events : keeps_id.

(** [m] takes one request id, below 2^16. *)
Definition takes_id {A} (m : st xapp A) : Prop :=
  ∀ x a x' k, next_id k x → 1 <= k <= 2 ^ 16 → m x = Ret (a, x') → next_id (k + 1) x' ∧ k < 2 ^ 16.

Lemma takes_gen_id type rf id cb : takes_id (generate_ric_gen_id zero type rf id cb).
Proof.
  intros x a x' k Hk H1 H. unfold generate_ric_gen_id in H. apply st_bind_inv in H as (u & x1 & [_ ->]%st_assert_inv & H). cbv zeta in H.
  apply st_bind_inv in H as (q & x2 & Hq & H). unfold on_act in Hq. apply bind_Ret_inv in Hq as ([r p] & Hp & [= <- <-]).
  apply push_back_key in Hp as [-> Hp]. apply st_bind_inv in H as (u' & x3 & [Hlt ->]%st_assert_inv & H). injection H as _ <-.
  unfold next_id in *. cbn. rewrite Hk in *. rewrite wrap_id in Hlt by (unfold u_ok; lia). lia.
Qed.

Lemma takes_bind {A B} (m : st xapp A) (f : A → st xapp B) : takes_id m → (∀ a k, keeps (next_id k) (f a)) → takes_id (m ≫= f).
Proof. intros Hm Hf x b x' k Hk H1 (a & x1 & Ha & Hb)%st_bind_inv. destruct (Hm _ _ _ _ Hk H1 Ha) as [Hk' Hlt]. split; [by eapply Hf|done]. Qed.

Lemma takes_after {A B} (m : st xapp A) (f : A → st xapp B) : (∀ k, keeps (next_id k) m) → (∀ a, takes_id (f a)) → takes_id (m ≫= f).
Proof. intros Hm Hf x b x' k Hk H1 (a & x1 & Ha & Hb)%st_bind_inv. eapply Hf; [by eapply Hm|done|done]. Qed.

Definition is_call (o : xapp_op (CB := CB) (C := C)) : bool :=
  match o with Report _ _ _ _ _ | Control _ _ _ _ _ => true | _ => false end.

Abbreviation op := (x_op (IN := IN) (IOPL := IOPL) (IOA := IOA) timerfd_create ep_fd zero).

Lemma keeps_op o k : is_call o = false → keeps (next_id k) (op o).
Proof.
  destruct o as [|w id rf data cb|b w h|b w id rf ctrl|l]; cbn [is_call x_op]; try done; intros _.
  - unfold e2ap_handle_e42_setup_request_xapp. keep.
  - unfold rm_report_sm_xapp_api, rm_report_sm_sync_xapp, send_ric_subscription_delete, e2ap_handle_e42_subscription_delete_request_xapp. keep.
  - keep.
Qed.

Lemma takes_op o : is_call o = true → takes_id (op o).
Proof.
  destruct o as [|w id rf data cb|b w h|b w id rf ctrl|l]; cbn [is_call x_op]; try done; intros _; apply takes_bind; try (solve [intros; keep]).
  - unfold report_sm_xapp_api, report_sm_sync_xapp, valid_global_e2_node. repeat (apply takes_after; [solve [intros; keep]|intros ?]).
    apply takes_bind; [apply takes_gen_id|]. intros ? ?. unfold send_subscription_request, e2ap_handle_e42_ric_subscription_request_xapp. keep.
  - unfold control_sm_xapp_api, control_sm_sync_xapp. repeat (apply takes_after; [solve [intros; keep]|intros ?]).
    apply takes_bind; [apply takes_gen_id|]. intros ? ?. unfold send_control_request, e2ap_handle_e42_ric_control_request_xapp. keep.
Qed.

Lemma run_ids os x outs x' k : next_id k x → 1 <= k <= 2 ^ 16 → prog_run op os x = Ret (outs, x') →
  k + Z.of_nat (length (filter (λ o, is_call o = true) os)) <= 2 ^ 16.
Proof.
  revert x outs k. induction os as [|o os IH]; intros x outs k Hk H1 H; [cbn; lia|]. cbn [prog_run] in H.
  apply st_bind_inv in H as (a & x1 & Ha & H). apply st_bind_inv in H as (l & x2 & Hl & H). injection H as <- <-. destruct (is_call o) eqn:Ho.
  - destruct (takes_op o Ho _ _ _ _ Hk H1 Ha) as [Hk1 Hlt]. rewrite filter_cons_True by done. cbn [length].
    specialize (IH x1 l (k + 1) Hk1 ltac:(lia) Hl). lia.
  - rewrite filter_cons_False by (by rewrite Ho). apply (IH x1 l k); [by eapply (keeps_op o k Ho)|done|done].
Qed.

(** C32. The request ids run out: they are never used again and have 16 bits, so that no
    run of the xApp returns from more than 65535 calls for reports or controls; the
    next one aborts the process. *)
Theorem xapp_calls_bounded ag ric ran os outs x : prog_run op os (init_e42_xapp zero ag ric ran) = Ret (outs, x) →
  Z.of_nat (length (filter (λ o, is_call o = true) os)) < 2 ^ 16.
Proof. intros H. apply (run_ids os _ outs x 1) in H; [lia|done|lia]. Qed.
End ids.
