(* ===== verification/XChain.v ===== *)
(** * A report from the user of an xApp to the E2 node and back

    The call of [report_sm_xapp_api] against the iApp, the near-RT RIC and a node that
    keeps the contract of [NodeSpec]. *)
From Stdlib Require Import String.
From stdpp Require Import gmap.
From S2P Require Import Prelude Refine AssocReg AssocRegInv AssocSpec AssocIter AssocFree BiMap BiMapFind RicIds E2apMsg RegNodes AddrMaps MapRicId.
From S2P Require Import SubRegistry NearRic RicSpec NearRicPub NearRicSetup IApp IAppSpec IAppInv IAppProps System Agent NodeSpec Chain Xapp XappSpec XappInv XappProps.
#[local] Set Warnings "-clear-no-such-hyp".
#[local] Set Default Proof Using "All".
#[local] Open Scope Z_scope.

Section chain.
Context {R TN IN TXL TXR IXL IXR TML TMR IML IMR : Type} `{RI : !RicIf R} `{NI : !RicNode R}.
Context `{ON : AssocOps global_e2_node_id_t pair_rf_cca_t TN} `{ION : !AssocIterOps global_e2_node_id_t pair_rf_cca_t TN IN}
  `{FN : !AssocFreeOps global_e2_node_id_t pair_rf_cca_t TN IN}
  `{OXL : AssocOps Z sctp_info_t TXL} `{OXR : AssocOps sctp_info_t Z TXR}
  `{IOXL : !AssocIterOps Z sctp_info_t TXL IXL} `{IOXR : !AssocIterOps sctp_info_t Z TXR IXR}
  `{OML : AssocOps e2_node_ric_id_t xapp_ric_id_t TML} `{OMR : AssocOps xapp_ric_id_t e2_node_ric_id_t TMR}
  `{IOML : !AssocIterOps e2_node_ric_id_t xapp_ric_id_t TML IML}
  `{IOMR : !AssocIterOps xapp_ric_id_t e2_node_ric_id_t TMR IMR}.
Context {LN : AssocLaws (V := pair_rf_cca_t) (T := TN) cmp_node} {ILN : AssocIterLaws (I := IN) cmp_node}
  {FLN : AssocFreeLaws (I := IN) cmp_node}.
Context {LXL : AssocLaws (V := sctp_info_t) (T := TXL) cmp_uint16_wrapper}
  {LXR : AssocLaws (V := Z) (T := TXR) cmp_sctp_info_wrapper}
  {ILXL : AssocIterLaws (V := sctp_info_t) (I := IXL) cmp_uint16_wrapper}
  {ILXR : AssocIterLaws (V := Z) (I := IXR) cmp_sctp_info_wrapper}.
Context {LML : AssocLaws (V := xapp_ric_id_t) (T := TML) cmp_e2_node_ric_req_wrapper}
  {LMR : AssocLaws (V := e2_node_ric_id_t) (T := TMR) cmp_xapp_ric_gen_id}
  {ILML : AssocIterLaws (V := xapp_ric_id_t) (I := IML) cmp_e2_node_ric_req_wrapper}
  {ILMR : AssocIterLaws (V := e2_node_ric_id_t) (I := IMR) cmp_xapp_ric_gen_id}.
Context (N : list (global_e2_node_id_t * sctp_info_t)) {LR : RicIfLaws R N} {LND : RicNodeLaws R N} {LRS : RicSent R N}.
Context {A : Type} `{EN : !E2Node A} {LEN : E2NodeLaws A}.
Context (relock : option Z) (realloc_ok : nat → bool) (junk : subscription_entry_t).
Context (relock_fails : relock ≠ Some 0%Z) (realloc_total : ∀ n, realloc_ok n = true).

Abbreviation iapp := (e42_iapp_t (R := R) (TN := TN) (TXL := TXL) (TXR := TXR) (TML := TML) (TMR := TMR)).
Implicit Types (i : iapp) (a : ia_spec).
Abbreviation sim := (ia_sim N).
Context {CB C D RAN P TPL TPR IPL IPR TXN IXN TA IXA TS IS : Type} `{SO : StatsOps D}
  `{OPL : AssocOps Z pending_event_xapp_t TPL} `{OPR : AssocOps pending_event_xapp_t Z TPR}
  `{IOPL : !AssocIterOps Z pending_event_xapp_t TPL IPL} `{IOPR : !AssocIterOps pending_event_xapp_t Z TPR IPR}
  `{FPL : !AssocFreeOps Z pending_event_xapp_t TPL IPL} `{FPR : !AssocFreeOps pending_event_xapp_t Z TPR IPR}
  `{OXN : AssocOps global_e2_node_id_t pair_rf_cca_t TXN} `{IOXN : !AssocIterOps global_e2_node_id_t pair_rf_cca_t TXN IXN}
  `{FXN : !AssocFreeOps global_e2_node_id_t pair_rf_cca_t TXN IXN}
  `{OA : AssocOps Z (sm_agent_t RAN P) TA} `{IOA : !AssocIterOps Z (sm_agent_t RAN P) TA IXA}
  `{OS : AssocOps Z (sm_ric_t C D) TS} `{IOS : !AssocIterOps Z (sm_ric_t C D) TS IS}.
Context {LPL : AssocLaws (V := pending_event_xapp_t) (T := TPL) cmp_fd} {LPR : AssocLaws (V := Z) (T := TPR) cmp_pending_event_xapp}
  {ILPL : AssocIterLaws (V := pending_event_xapp_t) (I := IPL) cmp_fd} {ILPR : AssocIterLaws (V := Z) (I := IPR) cmp_pending_event_xapp}
  {FLPL : AssocFreeLaws (V := pending_event_xapp_t) (I := IPL) cmp_fd} {FLPR : AssocFreeLaws (V := Z) (I := IPR) cmp_pending_event_xapp}
  {LXN : AssocLaws (V := pair_rf_cca_t) (T := TXN) cmp_node} {ILXN : AssocIterLaws (V := pair_rf_cca_t) (I := IXN) cmp_node}
  {FLXN : AssocFreeLaws (V := pair_rf_cca_t) (I := IXN) cmp_node}
  {LXA : AssocLaws (V := sm_agent_t RAN P) (T := TA) cmp_ran_func_id} {ILXA : AssocIterLaws (V := sm_agent_t RAN P) (I := IXA) cmp_ran_func_id}
  {LS : AssocLaws (V := sm_ric_t C D) (T := TS) cmp_ran_func_id} {ILS : AssocIterLaws (V := sm_ric_t C D) (I := IS) cmp_ran_func_id}.
Context (timerfd_create : list Z → Z) (ep_fd : Z) (zero : act_proc_val_t CB)
  (SMA : list (Z * sm_agent_t RAN P)) (SMR : list (Z * sm_ric_t C D)).
Context (timerfd_create_fresh : ∀ open, 0 < timerfd_create open ∧ (timerfd_create open ∉ open))
  (SMR_keys : Forall (λ e, sm_ran_func_id e.2 = e.1) SMR) (ep_fd_pos : 0 < ep_fd).

Abbreviation xapp := (e42_xapp_t CB D RAN TPL TPR TXN TA TS).
Abbreviation xsim := (xsim (LPL := LPL) (LPR := LPR) (LN := LXN) (LA := LXA) (LS := LS) SMA SMR).
Abbreviation run os := (prog_run (x_op (IN := IXN) (IOPL := IOPL) (IOA := IOA) timerfd_create ep_fd zero) os).

End chain.
