(* ===== verification/SmChain.v ===== *)
(** * Statistics, from the RAN to the user of an xApp

    What a service model reads in the E2 node goes as an indication through the
    near-RT RIC and the iApp to the xApps that subscribed, whose users get the
    statistics the RAN gave. *)
From Stdlib Require Import String.
From stdpp Require Import gmap.
From S2P Require Import Prelude Refine AssocReg AssocRegInv AssocSpec AssocIter AssocFree BiMap BiMapFind RicIds E2apMsg RegNodes AddrMaps MapRicId.
From S2P Require Import SubRegistry NearRic RicSpec NearRicPub IApp IAppSpec IAppInv IAppProps System Agent SmIf NodeSpec Xapp XappSpec XappInv XappProps.
#[local] Set Warnings "-clear-no-such-hyp".
#[local] Set Default Proof Using "All".
#[local] Open Scope Z_scope.

Lemma stats_type_ok d : stats_type (rd_ind_type d) = true.
Proof. by destruct d. Qed.

(** The row of the database for the statistics [d] of a procedure: the xApp does not
    take those of TC. *)
Definition db_row (d : sm_ag_if_rd_ind_t) : outcome sm_ag_if_rd_ind_t :=
  if stats_type_xapp (rd_ind_type d) then cp_sm_ag_if_rd d else Abort.

Section chain.
Context {R TN IN TXL TXR IXL IXR TML TMR IML IMR : Type} `{RI : !RicIf R} `{NI : !RicNode R}.
Context `{ON : AssocOps global_e2_node_id_t pair_rf_cca_t TN} `{ION : !AssocIterOps global_e2_node_id_t pair_rf_cca_t TN IN}
  `{FN : !AssocFreeOps global_e2_node_id_t pair_rf_cca_t TN IN}
  `{OXL : AssocOps Z sctp_info_t TXL} `{OXR : AssocOps sctp_info_t Z TXR}
  `{IOXL : !AssocIterOps Z sctp_info_t TXL IXL} `{IOXR : !AssocIterOps sctp_info_t Z TXR IXR}
  `{OML : AssocOps e2_node_ric_id_t xapp_ric_id_t TML} `{OMR : AssocOps xapp_ric_id_t e2_node_ric_id_t TMR}
  `{IOML : !AssocIterOps e2_node_ric_id_t xapp_ric_id_t TML IML}
  `{IOMR : !AssocIterOps xapp_ric_id_t e2_node_ric_id_t TMR IMR}.
Context {LN : AssocLaws (V := pair_rf_cca_t) (T := TN) cmp_node} {ILN : AssocIterLaws (I := IN) cmp_node}
  {FLN : AssocFreeLaws (I := IN) cmp_node}.
Context {LXL : AssocLaws (V := sctp_info_t) (T := TXL) cmp_uint16_wrapper}
  {LXR : AssocLaws (V := Z) (T := TXR) cmp_sctp_info_wrapper}
  {ILXL : AssocIterLaws (V := sctp_info_t) (I := IXL) cmp_uint16_wrapper}
  {ILXR : AssocIterLaws (V := Z) (I := IXR) cmp_sctp_info_wrapper}.
Context {LML : AssocLaws (V := xapp_ric_id_t) (T := TML) cmp_e2_node_ric_req_wrapper}
  {LMR : AssocLaws (V := e2_node_ric_id_t) (T := TMR) cmp_xapp_ric_gen_id}
  {ILML : AssocIterLaws (V := xapp_ric_id_t) (I := IML) cmp_e2_node_ric_req_wrapper}
  {ILMR : AssocIterLaws (V := e2_node_ric_id_t) (I := IMR) cmp_xapp_ric_gen_id}.
Context (N : list (global_e2_node_id_t * sctp_info_t)) {LR : RicIfLaws R N} {LRI : RicInd R user_data sm_ag_if_rd_ind_t N}.
Context {A RAN' : Type} `{EN : !E2Node A} `{EI : !E2NodeInd A RAN' act_def_t}.
Context (relock : option Z) (realloc_ok : nat → bool) (junk : subscription_entry_t).
Context (relock_fails : relock ≠ Some 0%Z) (realloc_total : ∀ n, realloc_ok n = true).

Abbreviation iapp := (e42_iapp_t (R := R) (TN := TN) (TXL := TXL) (TXR := TXR) (TML := TML) (TMR := TMR)).
Implicit Types (i : iapp) (a : ia_spec).
Abbreviation sim := (ia_sim N).
Context {CB RAN P TPL TPR IPL IPR TXN IXN TA IXA TS IS : Type}
  `{OPL : AssocOps Z pending_event_xapp_t TPL} `{OPR : AssocOps pending_event_xapp_t Z TPR}
  `{IOPL : !AssocIterOps Z pending_event_xapp_t TPL IPL} `{IOPR : !AssocIterOps pending_event_xapp_t Z TPR IPR}
  `{FPL : !AssocFreeOps Z pending_event_xapp_t TPL IPL} `{FPR : !AssocFreeOps pending_event_xapp_t Z TPR IPR}
  `{OXN : AssocOps global_e2_node_id_t pair_rf_cca_t TXN} `{IOXN : !AssocIterOps global_e2_node_id_t pair_rf_cca_t TXN IXN}
  `{FXN : !AssocFreeOps global_e2_node_id_t pair_rf_cca_t TXN IXN}
  `{OA : AssocOps Z (sm_agent_t RAN P) TA} `{IOA : !AssocIterOps Z (sm_agent_t RAN P) TA IXA}
  `{OS : AssocOps Z (sm_ric_t user_data sm_ag_if_rd_ind_t) TS} `{IOS : !AssocIterOps Z (sm_ric_t user_data sm_ag_if_rd_ind_t) TS IS}.
Context {LPL : AssocLaws (V := pending_event_xapp_t) (T := TPL) cmp_fd} {LPR : AssocLaws (V := Z) (T := TPR) cmp_pending_event_xapp}
  {ILPL : AssocIterLaws (V := pending_event_xapp_t) (I := IPL) cmp_fd} {ILPR : AssocIterLaws (V := Z) (I := IPR) cmp_pending_event_xapp}
  {FLPL : AssocFreeLaws (V := pending_event_xapp_t) (I := IPL) cmp_fd} {FLPR : AssocFreeLaws (V := Z) (I := IPR) cmp_pending_event_xapp}
  {LXN : AssocLaws (V := pair_rf_cca_t) (T := TXN) cmp_node} {ILXN : AssocIterLaws (V := pair_rf_cca_t) (I := IXN) cmp_node}
  {FLXN : AssocFreeLaws (V := pair_rf_cca_t) (I := IXN) cmp_node}
  {LXA : AssocLaws (V := sm_agent_t RAN P) (T := TA) cmp_ran_func_id} {ILXA : AssocIterLaws (V := sm_agent_t RAN P) (I := IXA) cmp_ran_func_id}
  {LS : AssocLaws (V := sm_ric_t user_data sm_ag_if_rd_ind_t) (T := TS) cmp_ran_func_id} {ILS : AssocIterLaws (V := sm_ric_t user_data sm_ag_if_rd_ind_t) (I := IS) cmp_ran_func_id}.
Context (timerfd_create : list Z → Z) (ep_fd : Z) (zero : act_proc_val_t CB)
  (SMA : list (Z * sm_agent_t RAN P)) (SMR : list (Z * sm_ric_t user_data sm_ag_if_rd_ind_t)).
Context (timerfd_create_fresh : ∀ open, 0 < timerfd_create open ∧ (timerfd_create open ∉ open))
  (SMR_keys : Forall (λ e, sm_ran_func_id e.2 = e.1) SMR) (ep_fd_pos : 0 < ep_fd).

Abbreviation xapp := (e42_xapp_t CB sm_ag_if_rd_ind_t RAN TPL TPR TXN TA TS).
Abbreviation xsim := (xsim (LPL := LPL) (LPR := LPR) (LN := LXN) (LA := LXA) (LS := LS) SMA SMR).
Abbreviation run os := (prog_run (x_op (IN := IXN) (IOPL := IOPL) (IOA := IOA) timerfd_create ep_fd zero) os).


(** The indication crosses the near-RT RIC and the iApp. *)
Lemma indication_crosses i a info ind sm tos : sim i a → ric_loaded (ric_if i) (ran_func_id (ind_ric_id ind)) sm →
  (∃ d, on_indication sm ind = Ret (rd_ind_type d, d) ∧ free_ind_data sm d = Ret ()) → shares_fields ind = false →
  reached (ia_addr a) (matching (ran_func_id (ind_ric_id ind)) (ia_regs a)) tos →
  ∃ i', node_msg_arrived relock realloc_ok junk info (RIC_INDICATION ind) i = Ret ((), i') ∧
    sent_xapps i' = ind_msgs ind tos ++ sent_xapps i.
Proof.
  intros Hs Hl (d & Hd & Hf) Hsh Ht. destruct (node_ind_ok _ _ info ind sm _ d (sim_ric _ _ _ Hs) Hl Hd (stats_type_ok d) Hf) as (r' & Hr & Hr').
  set (s' := s_called (NotifyMsg (RIC_INDICATION ind)) (ia_ric a)) in Hr'.
  assert (simulates sim () (node_msg_arrived relock realloc_ok junk info (RIC_INDICATION ind) i)
    (s ← Ret s'; ia_message (ia_notify (RIC_INDICATION ind)) (ia_set_ric s a))) as H.
  { unfold node_msg_arrived. eapply on_ric_bind_sim; [exact Hs|by exists r'|]. intros i1 s1 Hs1. cbn [iapp_calls].
    eapply simulates_ret. by apply (step_message N). }
  rewrite outcome_bind_ret_l in H. set (a1 := ia_set_ric s' a) in H.
  rewrite (ia_message_ok _ a1 (ia_set_sent (ind_msgs ind tos ++ ia_sent a1) (ia_set_fwd (ia_depth a1) false a1))) in H; [|exact (ia_forward_ok _ tos ind (ia_set_fwd (ia_depth a1) false a1) Hsh Ht)|done].
  destruct H as (i' & Hi' & Hs'). exists i'. split; [exact Hi'|]. by rewrite (sim_sent _ _ _ Hs'), (sim_sent _ _ _ Hs).
Qed.

(** The xApp of a subscription takes it: its callback runs and the database has a row. *)
Lemma indication_delivered x s sm rf k d row ind v cb : xsim x s → indicates SMR sm rf k d ind → 0 < k →
  assoc_get k (sp_procs s) = Some v → sm_cb v = Some cb → sp_queue s = [] → cp_sm_ag_if_rd d = Ret row → free_sm_ag_if_rd d = Ret () →
  ∃ x', run [Idle [Turn ep_fd (RIC_INDICATION ind); Worker]] x = Ret ([None], x') ∧
    xa_called x' = (cb, d) :: xa_called x ∧ xa_db x' = (pv_e2_node v, row) :: xa_db x.
Proof.
  intros Hx Hi Hk Hv Hcb Hq Hcp Hfree. set (v' := mk_act_proc_val (pv_type v) (with_req_id (pv_id v) k) (sm_cb v) (pv_e2_node v)).
  assert (s_find_proc k s = Ret (Some v', s_set_procs (assoc_set k v' (sp_procs s)) (sp_next s) s)) as Hf.
  { unfold s_find_proc. by rewrite (proj2 (Z.ltb_lt _ _) Hk), Hv. }
  set (s1 := s_set_queue [mk_msg_dispatch d (Some cb)] (s_add_db (pv_e2_node v, row) (s_set_procs (assoc_set k v' (sp_procs s)) (sp_next s) s))).
  set (s2 := s_add_called (cb, d) (s_set_queue [] s1)).
  assert (s_events timerfd_create ep_fd SMA SMR [Turn ep_fd (RIC_INDICATION ind); Worker] s = Ret ((), s2)) as Hev.
  { rewrite s_events_cons. cbn [s_event]. rewrite (st_bind_Ret _ _ _ () s1).
    - rewrite s_events_cons. cbn [s_event]. by rewrite (st_bind_Ret _ _ _ _ _ (s_worker_one s1 _ cb eq_refl eq_refl Hfree)).
    - rewrite (turn_message _ _ _ _ _ _ ep_fd_pos). cbn [s_message]. rewrite (s_indication_eq SMR sm rf k d ind s Hi), (st_bind_Ret _ _ _ _ _ Hf).
      rewrite (st_bind_Ret _ _ _ _ _ (s_write_db_ok (pv_e2_node v) d row _ Hcp)). unfold s1, st_mod. cbn. by rewrite Hq, Hcb. }
  destruct (run_from timerfd_create ep_fd zero SMA SMR timerfd_create_fresh SMR_keys ep_fd_pos
    [Idle [Turn ep_fd (RIC_INDICATION ind); Worker]] x s [None] s2 Hx) as (x' & Hx' & Hs').
  { apply (prog_run_cons _ _ _ _ _ s2); [cbn [s_op]; by rewrite (st_bind_Ret _ _ _ _ _ Hev)|done]. }
  exists x'. split; [exact Hx'|]. destruct (xs_rest _ _ _ _ Hx) as (_ & _ & _ & _ & _ & _ & _ & -> & -> & _).
  by destruct (xs_rest _ _ _ _ Hs') as (_ & _ & _ & _ & _ & _ & _ & -> & -> & _).
Qed.

(** ... or the xApp aborts: for the statistics of TC, and where their copy aborts. *)
Lemma indication_aborts x s sm rf k d ind v : xsim x s → ran_func_id (ind_ric_id ind) = rf → 0 < rf → assoc_get rf SMR = Some sm →
  call_process_id ind = None → on_indication sm ind = Ret (rd_ind_type d, d) → wrap 16 (ric_req_id (ind_ric_id ind)) = k →
  0 < k → assoc_get k (sp_procs s) = Some v → db_row d = Abort → run [Idle [Turn ep_fd (RIC_INDICATION ind); Worker]] x = Abort.
Proof.
  intros Hx Hrf Hpos Hsm Hc Hd Hreq Hk Hv Hrow.
  apply (run_abort timerfd_create ep_fd zero SMA SMR timerfd_create_fresh SMR_keys ep_fd_pos _ x s Hx), prog_run_cons_abort.
  cbn [s_op]. rewrite st_bind_eq, s_events_cons, st_bind_eq. cbn [s_event]. rewrite (turn_message _ _ _ _ _ _ ep_fd_pos). cbn [s_message].
  enough (s_indication SMR ind s = Abort) as -> by done. unfold s_indication.
  rewrite Hrf, (st_bind_Ret _ _ _ _ _ (s_plugin_ok SMR rf sm s ltac:(lia) Hsm)), Hc, (st_bind_Ret _ _ _ _ _ eq_refl).
  unfold st_lift at 1. rewrite (st_bind_Ret _ _ _ (rd_ind_type d, d) s) by (by rewrite Hd). cbn [fst snd]. unfold db_row in Hrow.
  destruct (stats_type_xapp (rd_ind_type d)); [|done]. rewrite (st_bind_Ret _ _ _ _ _ eq_refl), Hreq.
  erewrite st_bind_Ret by (unfold s_find_proc; by rewrite (proj2 (Z.ltb_lt _ _) Hk), Hv). cbn beta iota.
  unfold s_write_db, st_lift. by rewrite !st_bind_eq, Hrow.
Qed.

End chain.
