(* ===== verification/XappRb.v ===== *)
(** * The xApp over red-black trees

    A concrete xApp with one service model: the theorems of the xApp, and the report
    through the iApp and the near-RT RIC to the agent of [AgentRb]. *)
From Stdlib Require Import String.
From stdpp Require Import gmap.
From S2P Require Import Prelude Refine AssocReg AssocRegInv AssocSpec RbTree RbMap RbAssoc AssocIter AssocFree BiMap BiMapFind BiMapRb RicIds E2apMsg RegNodes AddrMaps MapRicId.
From S2P Require Import SubRegistry NearRic RicSpec NearRicInv NearRicPub NearRicSetup NearRicRb IApp IAppSpec IAppInv IAppProps System SystemRb.
From S2P Require Import Agent AgentInv AgentStep AgentProps NodeSpec AgentNode Chain AgentRb Xapp XappSpec XappInv XappProps XChain.
#[local] Set Warnings "-clear-no-such-hyp".
#[local] Open Scope Z_scope.

(** The command of a subscription is its event trigger; an indication is a number. *)
Definition mac_ric : sm_ric_t (list Z) Z :=
  mk_sm_ric 142 (λ c, Ret (c, None)) (λ ind, match msg ind with d :: _ => Ret (0, d) | [] => Abort end) (λ c, Ret (c, [])) (λ _, Ret ()).
#[local] Instance num_stats : StatsOps Z := {| cp_sm_ag_if_rd := Ret; free_sm_ag_if_rd := λ _, Ret () |}.
Definition ex_sma : list (Z * sm_agent_t Z ()) := ex_plugins.
Definition ex_smr : list (Z * sm_ric_t (list Z) Z) := [(142, mac_ric)].
Definition zero_proc : act_proc_val_t string := mk_act_proc_val RIC_SUBSCRIPTION_PROCEDURE_ACTIVE (mk_ric_gen_id 0 0 0) None ex_node.

Lemma ex_smr_rep : a_rep ex_smr ex_smr.
Proof. split; [done|]. apply Sorted.SSorted_cons; [apply Sorted.SSorted_nil|apply Forall_nil_2]. Qed.
Lemma ex_smr_keys : Forall (λ e, sm_ran_func_id e.2 = e.1) ex_smr.
Proof. repeat constructor. Qed.

Abbreviation rb_xapp := (e42_xapp_t string Z Z (assoc_rb_tree_t Z pending_event_xapp_t) (assoc_rb_tree_t pending_event_xapp_t Z)
  (assoc_rb_tree_t global_e2_node_id_t pair_rf_cca_t) (list (Z * sm_agent_t Z ())) (list (Z * sm_ric_t (list Z) Z))).
#[local] Notation "'on_x' f" := (f next_fd ex_ep zero_proc ex_sma ex_smr next_fd_fresh ex_smr_keys) (at level 9, only parsing).

Definition ex_x0 : rb_xapp := init_e42_xapp zero_proc ex_sma ex_smr 0.
Definition ex_xs0 : xspec (CB := string) (D := Z) (RAN := Z) := spec_init 0.
Abbreviation ex_run os := (prog_run (x_op next_fd ex_ep zero_proc) os).
Abbreviation ex_spec_run os := (prog_run (s_op next_fd ex_ep ex_sma ex_smr) os).

(** The answer the iApp of [SystemRb] gave. *)
Definition ex_setup_resp : e42_setup_response_t :=
  match sent_xapps (ex_after ex_connect) with (_, E42_SETUP_RESPONSE r) :: _ => r | _ => mk_e42_setup_response 0 0 [] end.
Definition ex_connects : list (xapp_op (CB := string) (C := list Z)) := [Start; Idle [Turn ex_ep (E42_SETUP_RESPONSE ex_setup_resp)]].

Definition ex_x1 : rb_xapp := match ex_run ex_connects ex_x0 with Ret (_, x) => x | _ => ex_x0 end.
Definition ex_xs1 := match ex_spec_run ex_connects ex_xs0 with Ret (_, s) => s | _ => ex_xs0 end.

Lemma ex_xs1_run : ex_spec_run ex_connects ex_xs0 = Ret ([None; None], ex_xs1).
Proof. vm_compute. reflexivity. Qed.
Lemma ex_x1_run : ex_run ex_connects ex_x0 = Ret ([None; None], ex_x1).
Proof. vm_compute. reflexivity. Qed.

Lemma ex_x0_sim : xsim ex_sma ex_smr ex_x0 ex_xs0.
Proof. apply (on_x init_sim); [exact ex_plugins_rep|exact ex_smr_rep]. Qed.
Lemma ex_x0_eq : init_e42_xapp zero_proc ex_sma ex_smr 0 = ex_x0.
Proof. reflexivity. Qed.
#[local] Opaque ex_x0 ex_xs0.

Lemma Ret_pair {A B} (x y : A) (a b : B) : Ret (x, a) = Ret (y, b) → a = b.
Proof. congruence. Qed.

Lemma ex_x1_sim : xsim ex_sma ex_smr ex_x1 ex_xs1.
Proof.
  destruct (on_x run_from eq_refl ex_connects ex_x0 ex_xs0 _ _ ex_x0_sim ex_xs1_run) as (x & Hx & Hs).
  rewrite ex_x1_run in Hx. apply Ret_pair in Hx. by rewrite Hx.
Qed.
#[local] Opaque ex_x1 ex_xs1.

Definition ex_sub_resp (h : Z) : ric_subscription_response_t := mk_ric_subscription_response (mk_ric_gen_id h 0 142) [0] [].
Definition ex_sub_del_resp (h : Z) : ric_subscription_delete_response_t := mk_ric_subscription_delete_response (mk_ric_gen_id h 0 142).
Definition ex_x_ind (h d : Z) : ric_indication_t := mk_ric_indication (mk_ric_gen_id h 0 142) 0 None 0 [] [d] None.
Definition ex_x_ops : list (xapp_op (CB := string) (C := list Z)) :=
  ex_connects ++
  [Report [Turn ex_ep (RIC_SUBSCRIPTION_RESPONSE (ex_sub_resp 1))] ex_node 142 [10] "cb"%string;
   Idle [Turn ex_ep (RIC_INDICATION (ex_x_ind 1 77)); Turn ex_ep (RIC_INDICATION (ex_x_ind 2 78)); Worker];
   Control [] [Turn ex_ep (RIC_CONTROL_ACKNOWLEDGE (mk_ric_control_acknowledge (mk_ric_gen_id 2 0 142) None None))] ex_node 142 [5];
   RmReport [] [Expire 3; Turn 3 NONE_E2_MSG_TYPE; Turn ex_ep (RIC_SUBSCRIPTION_DELETE_RESPONSE (ex_sub_del_resp 1))] 1].

Definition ex_xs2 := match ex_spec_run ex_x_ops (spec_init 0) with Ret (_, s) => s | _ => ex_xs1 end.
Lemma ex_xs2_run : ex_spec_run ex_x_ops (spec_init 0) = Ret ([None; None; Some 1; None; None; None], ex_xs2).
Proof. vm_compute. reflexivity. Qed.
Lemma ex_xs2_fields : sp_called ex_xs2 = [("cb"%string, 77)] ∧ sp_db ex_xs2 = [(ex_node, 77)] ∧ length (sp_sent ex_xs2) = 4%nat ∧ sp_pend ex_xs2 = [].
Proof. split_and!; vm_compute; reflexivity. Qed.
#[local] Opaque ex_xs2.

Lemma xapp_run_refines_witness : ∃ x : rb_xapp, ex_run ex_x_ops ex_x0 = Ret ([None; None; Some 1; None; None; None], x) ∧
  xa_called x = [("cb"%string, 77)] ∧ xa_db x = [(ex_node, 77)] ∧ length (xa_sent x) = 4%nat ∧ xa_timers x = [].
Proof.
  pose proof (on_x xapp_run_refines eq_refl ex_sma ex_smr 0 ex_x_ops ex_plugins_rep ex_smr_rep) as H.
  rewrite ex_xs2_run, ex_x0_eq in H. destruct H as (x & Hx & H1 & H2 & H3 & H4), ex_xs2_fields as (Hc & Hd & Hn & Hp).
  exists x. split; [exact Hx|]. split; [exact (eq_trans H2 Hc)|]. split; [exact (eq_trans H3 Hd)|].
  split; [exact (eq_trans (f_equal length H1) Hn)|exact (eq_trans H4 (f_equal (fmap fst) Hp))].
Defined.

(** *** Theorems of the xApp *)

Definition ex_h : Z := 1.
Lemma ex_can_report : can_report ex_smr ex_xs1 ex_node 142 [10] mac_ric.
Proof. split; try (vm_compute; reflexivity). - split; vm_compute; reflexivity. - apply Nat.ltb_lt. vm_compute. reflexivity. Qed.
Lemma ex_can_control : can_control ex_smr ex_xs1 142 [5] mac_ric.
Proof. split; try (vm_compute; reflexivity). - left. - split; apply Nat.ltb_lt; vm_compute; reflexivity. Qed.
Lemma ex_indicates d : indicates ex_smr mac_ric 142 1 d (ex_x_ind 1 d).
Proof. split; try done. by exists 0. Qed.
Lemma ex_next_id : sp_next ex_xs1 = 1.
Proof. vm_compute. reflexivity. Qed.

Lemma xapp_subscription_lifecycle_witness :
  ∃ x' : rb_xapp, ex_run [Report [Turn ex_ep (RIC_SUBSCRIPTION_RESPONSE (ex_sub_resp 1))] ex_node 142 [10] "cb"%string;
             Idle [Turn ex_ep (RIC_INDICATION (ex_x_ind 1 77)); Worker];
             RmReport [] [Turn ex_ep (RIC_SUBSCRIPTION_DELETE_RESPONSE (ex_sub_del_resp 1))] 1;
             Idle [Turn ex_ep (RIC_INDICATION (ex_x_ind 1 77))]] ex_x1 = Ret ([Some 1; None; None; None], x') ∧
    xa_called x' = ("cb"%string, 77) :: xa_called ex_x1 ∧ xa_db x' = (ex_node, 77) :: xa_db ex_x1 ∧ xa_timers x' = xa_timers ex_x1.
Proof.
  pose proof (on_x xapp_subscription_lifecycle eq_refl ex_x1 ex_xs1 ex_node 142 [10] mac_ric "cb"%string (ex_sub_resp 1) 77 77 (ex_x_ind 1 77)
    (ex_sub_del_resp 1) ex_x1_sim ex_can_report ltac:(vm_compute; reflexivity) ltac:(vm_compute; reflexivity)) as H.
  cbv zeta in H. rewrite ex_next_id in H. destruct (H eq_refl (ex_indicates 77) eq_refl eq_refl eq_refl) as (x' & Hx & H1 & H2 & H3 & _).
  exists x'. exact (conj Hx (conj H1 (conj H2 H3))).
Defined.

Definition ex_ack : ric_control_acknowledge_t := mk_ric_control_acknowledge (mk_ric_gen_id 1 0 142) None None.

Lemma control_answer_window_witness : let answer := Turn ex_ep (RIC_CONTROL_ACKNOWLEDGE ex_ack) in
  (∃ x', ex_run [Control [] [answer] ex_node 142 [5]] ex_x1 = Ret ([None], x')) ∧
  ex_run [Control [answer] [] ex_node 142 [5]] ex_x1 = Abort ∧
  ex_run [Control [] [] ex_node 142 [5]; Idle [answer]] ex_x1 = Abort.
Proof.
  pose proof (on_x control_answer_window eq_refl ex_x1 ex_xs1 ex_node 142 [5] mac_ric ex_ack ex_x1_sim ex_can_control) as H.
  rewrite ex_next_id in H. destruct (H eq_refl) as ((x' & Hx & _) & He & _ & Hl). exact (conj (ex_intro _ x' Hx) (conj (He [] []) Hl)).
Defined.

Lemma setup_never_repeated_witness :
  ∃ x : rb_xapp, ex_run [Start; Idle [Expire 3]; Idle (replicate 5 (Turn 3 NONE_E2_MSG_TYPE))] ex_x0 = Ret ([None; None; None], x) ∧
    xa_sent x = [E42_SETUP_REQUEST [mk_ran_function 142 1 [1] [9]]] ∧ xa_connected x = false ∧ xa_ready x = [3].
Proof.
  pose proof (on_x setup_never_repeated eq_refl ex_sma ex_smr 0 [mk_ran_function 142 1 [1] [9]] 0 NONE_E2_MSG_TYPE 5 ex_plugins_rep ex_smr_rep) as H.
  rewrite ex_x0_eq in H. exact (H (le_n 1) eq_refl eq_refl ltac:(discriminate)).
Defined.

Definition ex_two_calls : list (xapp_op (CB := string) (C := list Z)) :=
  ex_connects ++ [Report [] ex_node 142 [10] "cb"%string; Control [] [] ex_node 142 [5]].
Definition ex_x2 : rb_xapp := match ex_run ex_two_calls ex_x0 with Ret (_, x) => x | _ => ex_x0 end.
Lemma ex_x2_run : ex_run ex_two_calls ex_x0 = Ret ([None; None; Some 1; None], ex_x2).
Proof. vm_compute. reflexivity. Qed.

Lemma xapp_calls_bounded_witness : Z.of_nat (length (filter (λ o, is_call o = true) ex_two_calls)) < 2 ^ 16.
Proof. apply (xapp_calls_bounded next_fd ex_ep zero_proc ex_sma ex_smr 0 ex_two_calls [None; None; Some 1; None] ex_x2). rewrite ex_x0_eq. exact ex_x2_run. Defined.

(** *** The chain *)

#[local] Instance ex_node_if : E2Node rb_agent := agent_node next_fd ex_ep ex_pipe ex_components ex_encodes ex_plugins.
#[local] Instance ex_node_laws : E2NodeLaws rb_agent :=
  agent_node_laws (TS := list (Z * sm_agent_t Z ())) next_fd ex_ep ex_pipe ex_components ex_encodes ex_plugins ex_timers_fresh eq_refl.
#[local] Existing Instances rb_ric_if rb_ric_if_laws rb_ric_node rb_ric_node_laws.
#[local] Instance ex_ric_sent : RicSent rb_near_ric ex_N := near_ric_sent ex_N next_fd next_fd_fresh.

(** The request of the xApp after its setup with this iApp. *)
Definition ex_report : e42_ric_subscription_request_t :=
  mk_e42_ric_subscription_request 7 ex_node (mk_ric_subscription_request (mk_ric_gen_id 1 0 142) [10] [mk_ric_action 0 0 None]).
Definition ex_reported : list sys_op := ex_connect ++ [Iapp (XappMsg ex_xaddr (E42_RIC_SUBSCRIPTION_REQUEST ex_report))].

Lemma ex_report_eq : report_request ex_xs1 ex_node 142 [10] mac_ric = ex_report.
Proof. vm_compute. reflexivity. Qed.
Lemma ex_xapp_id : sp_id ex_xs1 = 7.
Proof. vm_compute. reflexivity. Qed.

