(* ===== verification/SmChainRb.v ===== *)
(** * Six service models, loaded on both sides

    An agent, a near-RT RIC with its iApp and an xApp with the MAC, RLC, PDCP, slice, TC and
    GTP service models, whose user asks for the RLC statistics every 10 ms. *)
From Stdlib Require Import String.
From stdpp Require Import gmap.
From S2P Require Import Prelude Refine AssocReg AssocRegInv AssocSpec RbTree RbMap RbAssoc AssocIter AssocFree BiMap BiMapFind BiMapRb RicIds E2apMsg RegNodes AddrMaps MapRicId.
From S2P Require Import SubRegistry NearRic RicSpec NearRicInv NearRicPub NearRicSetup NearRicRb IApp IAppSpec IAppInv IAppProps System SystemRb.
From S2P Require Import RlcPlain.
From S2P Require Import Agent AgentInv AgentStep AgentProps SmIf MacSm RlcSm PdcpSm SliceSm TcSm GtpSm NodeSpec AgentNode AgentRb Xapp XappSpec XappInv XappProps XappRb SmChain.
#[local] Set Warnings "-clear-no-such-hyp".
#[local] Open Scope Z_scope.

(** ** The service models, by RAN function *)

Definition ex_sms6 : list (Z * sm_ric_t user_data sm_ag_if_rd_ind_t) :=
  [(SM_MAC_ID, make_mac_sm_ric); (SM_RLC_ID, make_rlc_sm_ric); (SM_PDCP_ID, make_pdcp_sm_ric);
   (SM_SLICE_ID, make_slice_sm_ric); (SM_TC_ID, make_tc_sm_ric); (SM_GTP_ID, make_gtp_sm_ric)].
Definition ex_ags6 : list (Z * sm_agent_t nat act_def_t) :=
  [(SM_MAC_ID, make_mac_sm_agent one_of_each); (SM_RLC_ID, make_rlc_sm_agent one_of_each);
   (SM_PDCP_ID, make_pdcp_sm_agent one_of_each); (SM_SLICE_ID, make_slice_sm_agent one_of_each);
   (SM_TC_ID, make_tc_sm_agent one_of_each); (SM_GTP_ID, make_gtp_sm_agent one_of_each)].

Lemma ex_sorted6 {V} (a b c d e f : V) :
  let l := [(SM_MAC_ID, a); (SM_RLC_ID, b); (SM_PDCP_ID, c); (SM_SLICE_ID, d); (SM_TC_ID, e); (SM_GTP_ID, f)] in
  AssocSpec.strict cmp_up l ∧ sorted cmp_up l.
Proof. split; repeat constructor; done. Qed.
Lemma ex_sms6_rep : a_rep ex_sms6 ex_sms6.
Proof. split; [done|apply ex_sorted6]. Qed.
Lemma ex_ags6_rep : a_rep ex_ags6 ex_ags6.
Proof. split; [done|apply ex_sorted6]. Qed.
Lemma ex_sms6_keys : Forall (λ e, sm_ran_func_id e.2 = e.1) ex_sms6.
Proof. repeat constructor. Qed.

(** Runs whose final state holds the plugins: only the outputs are computed. *)
Definition outputs {A S} (m : outcome (A * S)) : option A := match m with Ret (a, _) => Some a | _ => None end.
Definition final {A S} (m : outcome (A * S)) (d : S) : S := match m with Ret (_, s) => s | _ => d end.
Lemma outputs_ok {A S} (m : outcome (A * S)) (d : S) a : outputs m = Some a → m = Ret (a, final m d).
Proof. destruct m as [[]| | | |]; cbn; congruence. Qed.

(** ** The xApp *)

Abbreviation sm_xapp := (e42_xapp_t string sm_ag_if_rd_ind_t nat (assoc_rb_tree_t Z pending_event_xapp_t) (assoc_rb_tree_t pending_event_xapp_t Z)
  (assoc_rb_tree_t global_e2_node_id_t pair_rf_cca_t) (list (Z * sm_agent_t nat act_def_t)) (list (Z * sm_ric_t user_data sm_ag_if_rd_ind_t))).
#[local] Notation "'on_sx' f" := (f next_fd ex_ep zero_proc ex_ags6 ex_sms6 next_fd_fresh ex_sms6_keys) (at level 9, only parsing).
Abbreviation sm_run os := (prog_run (x_op next_fd ex_ep zero_proc) os).
Abbreviation sm_spec_run os := (prog_run (s_op next_fd ex_ep ex_ags6 ex_sms6) os).

Definition sm_calls : list (xapp_op (CB := string) (C := user_data)) :=
  [Start; Idle [Turn ex_ep (E42_SETUP_RESPONSE ex_setup_resp)];
   Report [Turn ex_ep (RIC_SUBSCRIPTION_RESPONSE (mk_ric_subscription_response (mk_ric_gen_id 1 0 SM_RLC_ID) [0] []))]
     ex_node SM_RLC_ID (USER_STR "10_ms") "rlc_stats"%string].

Definition sm_x0 : sm_xapp := init_e42_xapp zero_proc ex_ags6 ex_sms6 0%nat.
Definition sm_s0 : xspec (CB := string) (D := sm_ag_if_rd_ind_t) (RAN := nat) := spec_init 0%nat.
Definition sm_x1 : sm_xapp := final (sm_run sm_calls sm_x0) sm_x0.
Definition sm_s1 := final (sm_spec_run sm_calls sm_s0) sm_s0.

Lemma sm_s1_run : sm_spec_run sm_calls sm_s0 = Ret ([None; None; Some 1], sm_s1).
Proof. vm_compute. reflexivity. Qed.
Lemma sm_x1_run : sm_run sm_calls sm_x0 = Ret ([None; None; Some 1], sm_x1).
Proof. apply outputs_ok. vm_compute. reflexivity. Qed.
Lemma sm_x0_sim : xsim ex_ags6 ex_sms6 sm_x0 sm_s0.
Proof. apply (on_sx init_sim); [exact ex_ags6_rep|exact ex_sms6_rep]. Qed.
#[local] Opaque sm_x0 sm_s0.

Lemma sm_x1_sim : xsim ex_ags6 ex_sms6 sm_x1 sm_s1.
Proof.
  destruct (on_sx run_from eq_refl sm_calls sm_x0 sm_s0 _ _ sm_x0_sim sm_s1_run) as (x & Hx & Hs).
  rewrite sm_x1_run in Hx. apply Ret_pair in Hx. by rewrite Hx.
Qed.
Definition sm_request : e42_ric_subscription_request_t :=
  match sp_sent sm_s1 with E42_RIC_SUBSCRIPTION_REQUEST m :: _ => m | _ => mk_e42_ric_subscription_request 0 ex_node ex_sub end.
#[local] Opaque sm_x1 sm_s1.

(** ** The near-RT RIC and the iApp *)

Abbreviation sm_near_ric := (near_ric_t (TL := assoc_rb_tree_t Z pending_event_ric_t) (TR := assoc_rb_tree_t pending_event_ric_t Z)
  (TEL := assoc_rb_tree_t global_e2_node_id_t sctp_info_t) (TER := assoc_rb_tree_t sctp_info_t global_e2_node_id_t)
  (TP := list (Z * positive)) (TS := list (Z * sm_ric_t user_data sm_ag_if_rd_ind_t)) (D := sm_ag_if_rd_ind_t)).
#[local] Instance sm_ric_if : RicIf sm_near_ric := near_ric_if next_fd.
#[local] Instance sm_ric_if_laws : RicIfLaws sm_near_ric ex_N := near_ric_if_laws ex_N next_fd next_fd_fresh.
#[local] Instance sm_ric_node : RicNode sm_near_ric := near_ric_node.
#[local] Instance sm_ric_node_laws : RicNodeLaws sm_near_ric ex_N := near_ric_node_laws ex_N next_fd next_fd_fresh.
#[local] Instance sm_ric_ind : RicInd sm_near_ric user_data sm_ag_if_rd_ind_t ex_N := near_ric_ind ex_N next_fd next_fd_fresh.

(** One empty list of listeners per service model. *)
Definition ex_table6 : list (Z * positive) := [(SM_MAC_ID, 1%positive); (SM_RLC_ID, 2%positive); (SM_PDCP_ID, 3%positive);
   (SM_SLICE_ID, 4%positive); (SM_TC_ID, 5%positive); (SM_GTP_ID, 6%positive)].
Definition ex_listeners6 : gmap positive (list string) := <[1%positive := []]> (<[2%positive := []]> (<[3%positive := []]> (<[4%positive := []]> (<[5%positive := []]> (<[6%positive := []]> ∅))))).
Definition sm_ric0 : sm_near_ric := mk_near_ric 0 0 (bi_map_init true) [] ex_nodes [] ex_sms6 ex_table6 ex_listeners6 [] [] [].

Definition sm_iapp0 := init_e42_iapp (TN := assoc_rb_tree_t global_e2_node_id_t pair_rf_cca_t)
  (TXL := assoc_rb_tree_t Z sctp_info_t) (TXR := assoc_rb_tree_t sctp_info_t Z)
  (TML := assoc_rb_tree_t e2_node_ric_id_t xapp_ric_id_t) (TMR := assoc_rb_tree_t xapp_ric_id_t e2_node_ric_id_t)
  (bi_map_init true) (mk_map_ric_id (bi_map_init true) Unlocked) sm_ric0.
Definition sm_ops : list sys_op := ex_connect ++ [Iapp (XappMsg ex_xaddr (E42_RIC_SUBSCRIPTION_REQUEST sm_request))].
Definition sm_sys_run := sys_run ex_relock ex_alloc zero_entry sm_ops sm_iapp0.
Definition sm_iapp1 := final sm_sys_run sm_iapp0.
Definition sm_a1 : ia_spec := match sys_spec_run ex_N ex_relock sm_ops ex_spec0 with Ret a => a | _ => ex_spec0 end.

Lemma sm_iapp0_sim : ia_sim ex_N sm_iapp0 ex_spec0.
Proof.
  apply (sim_init ex_N ex_relock ex_alloc zero_entry); [done|done|apply (bi_map_init_rep _ _)|split; [apply (bi_map_init_rep _ _)|done]|].
  apply (ric_sim_init ex_N sm_ric0); [|exact ex_nodes_rep|done..].
  split_and!; cbn; [apply (bi_map_init_rep _ _)|done|constructor].
Qed.

Lemma sm_iapp1_sim : ia_sim ex_N sm_iapp1 sm_a1.
Proof.
  pose proof (sys_run_sim ex_N ex_relock ex_alloc zero_entry ltac:(done) ltac:(done) sm_ops _ _ sm_iapp0_sim ltac:(vm_compute; reflexivity)) as H.
  assert (sys_spec_run ex_N ex_relock sm_ops ex_spec0 = Ret sm_a1) as Ha by (vm_compute; reflexivity).
  rewrite Ha in H. destruct H as (i & Hi & Hs). unfold sm_iapp1, sm_sys_run. rewrite Hi. exact Hs.
Qed.

(** The request of the xApp is registered under its id. *)
Definition sm_entry : subscription_entry_t := mk_subscription_entry 7 SM_RLC_ID 1 true.
Lemma sm_matching : matching SM_RLC_ID (ia_regs sm_a1) = [sm_entry].
Proof. vm_compute. reflexivity. Qed.
Lemma sm_reached : reached (ia_addr sm_a1) [sm_entry] [ex_xaddr].
Proof. constructor; [vm_compute; split; [reflexivity|discriminate]|constructor]. Qed.

Lemma sm_tables : sm_ds (ric_if sm_iapp1) = ex_sms6 ∧ pub_sub (ric_if sm_iapp1) = ex_table6 ∧ listeners (ric_if sm_iapp1) = ex_listeners6.
Proof. split_and!; [vm_cast_no_check (eq_refl ex_sms6)|vm_cast_no_check (eq_refl ex_table6)|vm_compute; reflexivity]. Qed.

(** ** The agent, which reports the RLC statistics *)

Abbreviation sm_agent := (e2_agent_t (RAN := nat) (P := act_def_t) (TIL := assoc_rb_tree_t Z (ind_event_t nat act_def_t)) (TIR := assoc_rb_tree_t (ind_event_t nat act_def_t) Z)
  (TPL := assoc_rb_tree_t Z pending_event_t) (TPR := assoc_rb_tree_t pending_event_t Z) (TS := list (Z * sm_agent_t nat act_def_t))).
Definition sm_components (type : Z) : st nat (list e2ap_node_component_config_add_t) := λ r, Ret ([ex_cca], r).
#[local] Notation "'on_sa' f" := (f next_fd ex_ep ex_pipe sm_components ex_encodes ex_ags6 ex_timers_fresh) (at level 9, only parsing).
#[local] Instance sm_node : E2Node sm_agent := agent_node next_fd ex_ep ex_pipe sm_components ex_encodes ex_ags6.
#[local] Instance sm_node_ind : E2NodeInd sm_agent nat act_def_t :=
  agent_node_ind next_fd ex_ep ex_pipe sm_components ex_encodes ex_ags6 ex_timers_fresh eq_refl.

Definition sm_event : ind_event_t nat act_def_t :=
  mk_ind_event (mk_ric_gen_id 1 0 SM_RLC_ID) (Some (make_rlc_sm_agent one_of_each)) 0 (PERIODIC_SUBSCRIPTION_FLRC 10 AD_NULL).
Definition sm_ag0 : sm_agent := e2_init_agent "10.0.0.1"%string ["10.0.0.1"%string] ex_node (bi_map_init true) ex_ags6 0%nat.
Definition sm_ag1 : sm_agent := final (new_event next_fd sm_event sm_ag0) sm_ag0.

Lemma sm_ag0_owned : owned ex_ep ex_pipe ex_ags6 sm_ag0 [] None.
Proof. apply (on_sa init_good); [left|apply (bi_map_init_rep _ _)|exact ex_ags6_rep]. Qed.

Lemma sm_ag1_reports : node_reports sm_ag1 3 (mk_ric_gen_id 1 0 SM_RLC_ID) 0 (make_rlc_sm_agent one_of_each) AD_NULL ∧ node_ran sm_ag1 = 0%nat.
Proof.
  destruct (on_sa new_periodic_ok sm_ag0 [] None sm_event _ 10 AD_NULL sm_ag0_owned eq_refl eq_refl ltac:(lia) (Forall_nil_2 _))
    as (a' & Ha & Ho & (_ & _ & Hl) & _ & Hr & _).
  assert (sm_ag1 = a') as -> by (unfold sm_ag1; by rewrite Ha). split; [|exact Hr].
  exists [(3, sm_event)], None, sm_event, 10. split_and!; [exact Ho|exact Hl|left|done..].
Qed.

(** ** The statistics arrive *)

Definition rlc_stats : sm_ag_if_rd_ind_t :=
  RLC_STATS_V0 (mk_rlc_ind_data_t (mk_rlc_ind_hdr_t 0) (rlc_one_bearer_msg 7) None).

Lemma rlc_stats_read : rlc_reads one_of_each 0%nat rlc_stats 1%nat.
Proof. eexists. split; [reflexivity|]. split; [by_eval|reflexivity]. Qed.

Lemma sm_s1_fields : sp_id sm_s1 = 7 ∧ sp_queue sm_s1 = [] ∧
  assoc_get 1 (sp_procs sm_s1) = Some (sub_proc 1 SM_RLC_ID "rlc_stats"%string ex_node).
Proof. split_and!; vm_compute; reflexivity. Qed.

Lemma sm_loaded : ric_loaded (ric_if sm_iapp1) SM_RLC_ID make_rlc_sm_ric.
Proof.
  destruct sm_tables as (Hs & Hp & Hl). exists ex_table6. split_and!; [|right; left|done|].
  - unfold pub_view. rewrite Hp, Hl. split_and!; [split; [done|apply ex_sorted6]|apply ex_sorted6|by_eval|].
    repeat constructor; eexists; vm_compute; reflexivity.
  - exists ex_sms6. rewrite Hs. split_and!; [exact ex_sms6_rep|apply ex_sorted6|right; left|done].
Qed.

